(* ===== verification/_CoqProject ===== *)
-Q . S2P
Prelude.v
PyFloat.v
PyDict.v
Bytes.v
Session.v
FunctionStats.v
L1Cache.v
L1Manager.v
ObjectSize.v
ObjectCache.v
Errors.v
CircuitBreaker.v
LoadControl.v
FileSystem.v
FileBackend.v
FileReaders.v
FileWriters.v
FileProps.v
FileSafety.v
PyValue.v
Interop.v
Msgpack.v
InteropProps.v
Signature.v
KeyGenerator.v
KeyProps.v
Effects.v
Orchestrator.v
Json.v
Envelope.v
Serializers.v
Arrow.v
AutoSerializer.v
AutoProps.v
AutoExample.v
Tenant.v
Encryption.v
Configuration.v
MetricsStore.v
Settings.v
Decoration.v
DecorationProps.v
Serialization.v
SerializerProps.v
EncryptionProps.v
SerializationProps.v
Handler.v
RemoteErrors.v
Reporting.v
SessionHeaders.v
RedisBackends.v
RedisPools.v
BackendProvider.v
RedisProps.v
CachekitIO.v
CachekitIOProps.v
MemcachedBackend.v
BackendHealth.v
MemcachedProps.v
RingBuffer.v
Masking.v
Tracing.v
LogWriter.v
Health.v
Profiles.v
Container.v
AsyncMetrics.v
PoolMonitor.v
HandlerProps.v
Stack.v
Wrapper.v
SingleFlight.v
LocalWrapper.v
WrapperInv.v
WrapperExample.v
WrapperProps.v
WrapperCalls.v
TenantCapture.v
WrapperRuns.v
WrapperSwr.v
