(* ===== verification/Prelude.v ===== *)
(** * A model of cachekit and its correctness

    cachekit is a Python package for caching function results.  A decorator
    ([decorators/intent.py], [config/decorator.py]) resolves its keywords to a
    configuration and wraps a function ([decorators/wrapper.py]).  A call is turned into
    a key ([key_generator.py], or [interop.py] for keys other languages compute too),
    looked up in an in-process cache ([l1_cache.py], or [object_cache.py] when values are
    kept as references) and then, through [cache_handler.py], in a backend (files, Redis,
    Memcached, HTTP), where values are serialized ([serializers/]), framed and, on
    demand, encrypted.  A circuit breaker, a concurrency limit, metrics, health checks
    and logs stand beside ([reliability/], [health.py], [logging.py], [monitoring/]).
    This library models these parts as functions of their inputs and of explicit state,
    and proves what they guarantee.  File names without a directory are those of
    [src/src/cachekit].

    ** Conventions

    Definitions keep the names of the source.  A method takes its object's state
    and returns the new one; a call that may raise returns a [result], or is an [eff]
    over a state ([Effects]); a value the code reads from outside (a clock, a random
    number, the process id, the outcome of a system call) is an argument or a function
    of the state outside.  A Python [int] is a [Z], a [float] is an IEEE binary64 number
    ([PyFloat], with NaN and the infinities), a [str] the list of its code points,
    [bytes] the list of its octets, a [dict] or [OrderedDict] the list of its items in
    order ([PyDict]).  Threads are programs of steps, one per read or write of shared
    state or lock operation, under every interleaving, where the code shares state
    without holding one lock for a whole method.

    Third-party code and the Rust extension are parameters: the operations that are
    used, as a record or as arguments, and where a theorem needs it what they promise,
    as a class or as named hypotheses with a concrete instance.  The classes are
    [Bytes.Digest] (blake2b and blake3), [EncryptionProps.Aead] (key derivation and cipher),
    [AutoProps.Msgpack] and [AutoProps.Storage], [RedisProps.RedisServer],
    [CachekitIOProps.OtherScripts], [CachekitIOProps.PathServer], [MemcachedProps.MemcacheServer] and [Masking.Unicode].

    ** Parts

    Data and helpers: [Prelude], [PyFloat], [PyDict], [Bytes], [PyValue],
    [Effects] (the exceptions of the upper layers and computations that may raise them),
    [Json] ([json.dumps] and [json.loads]).

    In-process caches: [L1Cache] and [L1Manager] ([l1_cache.py]); [ObjectSize] and
    [ObjectCache] ([object_cache.py]).

    Keys: [Interop] and [InteropProps] ([interop.py]) over a reference reader [Msgpack];
    [Signature] ([bind_flat_args] with the binding of [inspect]); [KeyGenerator] and
    [KeyProps] ([key_generator.py], [hash_utils.py]).

    Serialization: [Envelope] ([serializers/wrapper.py], [base.py]); [Serializers] (the
    standard, orjson and interop serializers, the registry); [Arrow]; [AutoSerializer],
    [AutoProps], [AutoExample]; [SerializerProps]; [Encryption] and [EncryptionProps]
    ([encryption_wrapper.py]); [Serialization] and [SerializationProps] (the
    serialization handler of [cache_handler.py]); [Tenant] ([tenant_context.py]).

    Backends: [FileSystem], [FileBackend], [FileReaders], [FileWriters], [FileProps],
    [FileSafety] ([backends/file]); [Errors] ([backends/errors.py] and
    [reliability/error_classification.py]); [RemoteErrors] (the error handlers of the
    remote backends); [RedisBackends], [RedisPools], [RedisProps] ([backends/redis]);
    [BackendProvider] ([backends/provider.py]); [CachekitIO], [CachekitIOProps],
    [SessionHeaders] ([backends/cachekitio]); [MemcachedBackend], [MemcachedProps]
    ([backends/memcached]); [BackendHealth] (their [health_check]s and [with_timeout]).

    Read and write paths: [Handler] and [HandlerProps] ([cache_handler.py]); [Stack], the
    handler over the serializers and the file backend.

    Decorators: [Configuration] and [Settings] ([config/]); [Decoration] and
    [DecorationProps] ([intent.py] and what runs once per function); [Wrapper] (the
    calls, synchronous and asynchronous, stale-while-revalidate, invalidation) with
    [WrapperInv], [WrapperExample], [WrapperProps], [WrapperCalls], [WrapperRuns],
    [WrapperSwr]; [SingleFlight] (the asynchronous calls of one key, interleaved);
    [TenantCapture] (over the Redis provider); [LocalWrapper];
    [Orchestrator] and [Reporting] (its breaker; its metrics and records); [Session] and
    [FunctionStats] ([session.py], the statistics of
    [wrapper.py], [stats_context.py]).

    Reliability and reporting: [CircuitBreaker], [LoadControl], [Profiles],
    [AsyncMetrics], [MetricsStore] ([reliability/]); [Health] ([health.py]) and
    [Container] ([di.py] and what the library and the checks do with it); [RingBuffer],
    [Tracing], [LogWriter], [Masking] ([logging.py], [correlation_tracking.py]);
    [PoolMonitor] ([pool_monitor.py]).

    The parts interact as in the code.  [Wrapper] calls a key function, L1 and a handler
    through records of operations that [Handler] and [Serialization] implement; a backend
    is the record [Handler.backend], with an option for each capability the code probes
    with [hasattr]; the backends raise the errors of [Errors], which the breaker
    classifies; the manager's caches are those of [L1Cache], whose theorems carry over by
    [L1Manager.namespaces_isolated]; [Stack] composes handler, encryption, frame and file
    backend.

    ** What is proved

    - Calls: memoization (with or without L1 and the lock of a backend, with the breaker
      CLOSED), what invalidation reaches, how often a call runs the function,
      which exceptions a caller can see, that revalidation slots are conserved, that
      a tripped breaker of a decorated function stays open, and that concurrent calls
      run a function once while the lock of the backend works, and how often else.
    - Configuration: what every resolved configuration satisfies, that [cache.secure]
      encrypts unless it is given a whole configuration, which is then used as it is, and
      what a reused decorator forgets.
    - Secrecy: a ciphertext is read only where it was written; with encryption on
      nothing unauthenticated is accepted; keyring rotation; tenants of one Redis server
      are isolated, but a decorated function keeps the first tenant it met; the masked
      text of a log holds no number its patterns know.
    - Values: round trips of the automatic and framed encodings, what an interop
      document is read back as, what corruption does to the default serializer, the
      batches of an Arrow table: their loops end, and they tile the table.
    - Keys: equal keys come from equal calls up to digest collisions and the characters
      a namespace loses; canonical encoding is one-to-one on documents; binding agrees with
      a reference rule for all five kinds of parameter.
    - File backend: a failed write changes no entry, leaves no temporary file and leaks
      no descriptor; a completed one is read back until its expiry; through the handlers,
      until the expiry as refreshes move it; eviction; a mapped view never changes.
    - Remote backends: the lock of the service is released exactly once and its wait
      ends; lifetimes in Memcached; one pool under every interleaving of threads without
      resets, and what a reset leaves; an explicit URL is the one used; health checks
      answer whatever happens; time-outs borrowed by overlapping blocks.
    - Caches: bounds and byte accounting as invariants of every run, eviction order, the
      refresh protocol of the object cache, isolation of namespaces.
    - Reliability and reporting: when the breaker trips and recovers; bounds of the
      controller under every interleaving; one session identity per process; the ring
      buffer refines a queue for one producer and loses entries for two; the writer
      delivers what waits until it is stopped; the metric stores refine a map by label
      sets; which workers are replaced; as what an operation is counted; health verdicts, the statistics
      a request carries, percentiles of the pool monitor.

    Where the code does not do what it means to, a theorem or an example states what it
    does; the comment before it says so.

    ** Fuel

    [ObjectSize.walk] takes one more step than the pushes of the heap, and
    [ObjectSize.estimate_exact] shows that this ends; [ObjectCache.evict_lru] takes the
    length of the store, each round removes an entry; [Msgpack.mdecode] takes
    the length of the document, each level reads a byte, and what the encoder
    writes is read alike with any larger fuel; [Json.value] takes the length of the
    text; the loops of [Arrow] more than the number of rows, and a loop still running is
    a result of its own that [SerializerProps.batches_cover] excludes;
    [Encryption.parse_components] the number of bytes; [Tenant.remove_all] and [CachekitIO.private_ip] the length of the text;
    [CachekitIO.poll] a number of readings of the clock, enough by [lock_wait_ends];
    [AutoExample.document] a depth, in the example only.  Every other recursion is
    structural.

    ** What is not modelled

    The text of log and error messages where it is not returned, [__repr__], warnings;
    the log lines and metrics of the wrappers themselves and the Prometheus export of
    statistics; the Windows branches of the file backend; the protocol declarations and
    [base_config.py], which only declare types; [get_serializer_info], the benchmark
    helpers, re-exports and optional imports.  [BaseException]s other than
    [Exception]s, the recursion limit and exhausted memory do not occur; a number in
    JSON is kept as its text.  A method under a lock is one step; [set_streaming], which
    streams outside the lock, is too, so its interleavings with other calls are not
    covered, and in [Wrapper] an asynchronous call has no other tasks between its
    awaits ([SingleFlight] has the steps where they meet).
    The Rust extension, pandas, pyarrow, NumPy, pydantic's parsing and the client
    libraries are parameters. *)
From Stdlib Require Import ZArith Lia.
From stdpp Require Import base list numbers option strings.

(** ** Results: a Python call returns a value or raises *)

Inductive result (E A : Type) : Type :=
  | Ok (a : A)
  | Err (e : E).
Arguments Ok {E A} a.
Arguments Err {E A} e.

Definition rbind {E A B} (m : result E A) (f : A -> result E B) : result E B :=
  match m with
  | Ok a => f a
  | Err e => Err e
  end.

Declare Scope py_scope.
Delimit Scope py_scope with py.
Notation "x <-! m ; k" := (rbind m (fun x => k))
  (at level 100, m at next level, right associativity) : py_scope.

(** The loop [for x in l: y = f(x)] of a comprehension that may raise. *)
Section Rmap.
Context {E A B : Type} (f : A -> result E B).
Fixpoint rmap (l : list A) : result E (list B) :=
  match l with
  | [] => Ok []
  | x :: r => rbind (f x) (fun y => rbind (rmap r) (fun ys => Ok (y :: ys)))
  end.
End Rmap.

Definition is_Ok {E A} (r : result E A) : bool :=
  match r with Ok _ => true | Err _ => false end.

(** The builtin exceptions the modelled code raises or lets escape. *)
Inductive py_exn : Type :=
  | TypeError
  | ValueError
  | KeyError
  | ZeroDivisionError
  | OverflowError
  | UnicodeEncodeError  (* a ValueError *)
  | StructError.        (* struct.error *)

#[export] Instance py_exn_eq_dec : EqDecision py_exn.
Proof. solve_decision. Defined.

(** ** Strings and bytes *)

(** A Python [str] is the list of its code points, a [bytes] the list of its
    octets.  Both are lists of [Z]; well-formedness bounds the elements. *)
Abbreviation pystr := (list Z) (only parsing).
Abbreviation pybytes := (list Z) (only parsing).

Definition is_code_point (c : Z) : Prop := (0 <= c <= 0x10FFFF)%Z.
Definition is_byte (b : Z) : Prop := (0 <= b < 256)%Z.

(** An ASCII literal as a Python string. *)
Fixpoint u (s : string) : list Z :=
  match s with
  | EmptyString => []
  | String a r => Z.of_nat (Ascii.nat_of_ascii a) :: u r
  end.
Arguments u s%_string.

#[export] Instance u_inj : Inj (=) (=) u.
Proof.
  intros s. induction s as [|a s IH]; intros [|b t] E; simpl in E; try done.
  injection E as Ea Es. apply Nat2Z.inj in Ea. f_equal; [|by apply IH].
  by rewrite <- (Ascii.ascii_nat_embedding a), <- (Ascii.ascii_nat_embedding b), Ea.
Qed.

Definition zlen {A} (l : list A) : Z := Z.of_nat (length l).

(** ** Sums over lists *)

Fixpoint zsum (l : list Z) : Z :=
  match l with
  | [] => 0
  | x :: r => x + zsum r
  end%Z.

Create HintDb pydb discriminated.
Create Rewrite HintDb pydb.

Lemma zsum_app l1 l2 : zsum (l1 ++ l2) = (zsum l1 + zsum l2)%Z.
Proof. induction l1 as [|x l1 IH]; simpl; lia. Qed.

Lemma zsum_nonneg l : Forall (Z.le 0) l -> (0 <= zsum l)%Z.
Proof. induction 1; simpl; lia. Qed.

Lemma zlen_app {A} (l1 l2 : list A) : zlen (l1 ++ l2) = (zlen l1 + zlen l2)%Z.
Proof. unfold zlen. rewrite length_app. lia. Qed.

Lemma zlen_nonneg {A} (l : list A) : (0 <= zlen l)%Z.
Proof. unfold zlen. lia. Qed.

Lemma zlen_cons {A} (x : A) l : zlen (x :: l) = (1 + zlen l)%Z.
Proof. unfold zlen. simpl. lia. Qed.

Lemma zlen_replicate {A} (n : Z) (x : A) : (0 <= n)%Z -> zlen (replicate (Z.to_nat n) x) = n.
Proof. intros. unfold zlen. rewrite length_replicate. lia. Qed.

#[export] Instance zlen_Permutation A : Proper ((≡ₚ) ==> (=)) (@zlen A).
Proof. intros l l' P. unfold zlen. by rewrite P. Qed.

#[export] Hint Rewrite zsum_app @zlen_app @zlen_cons : pydb.
#[export] Hint Resolve zsum_nonneg zlen_nonneg : pydb.

(** ** Tactics *)

(** Case analysis on every [match] and [if] of the goal or the context, with
    the contradictory branches closed. *)
Ltac case_all :=
  repeat (case_match; simplify_eq/=; try done).

(** Turn the boolean integer tests of the context into propositions. *)
Ltac zbool :=
  repeat match goal with
  | H : (_ <? _)%Z = true |- _ => apply Z.ltb_lt in H
  | H : (_ <? _)%Z = false |- _ => apply Z.ltb_ge in H
  | H : (_ <=? _)%Z = true |- _ => apply Z.leb_le in H
  | H : (_ <=? _)%Z = false |- _ => apply Z.leb_gt in H
  | H : (_ =? _)%Z = true |- _ => apply Z.eqb_eq in H
  | H : (_ =? _)%Z = false |- _ => apply Z.eqb_neq in H
  | H : (_ && _)%bool = true |- _ => apply andb_true_iff in H; destruct H
  | H : (_ || _)%bool = false |- _ => apply orb_false_iff in H; destruct H
  | H : negb _ = true |- _ => apply negb_true_iff in H
  | H : negb _ = false |- _ => apply negb_false_iff in H
  end.

(** Unlike [injection], this leaves the values as they are written. *)
Lemma Ok_inj {E A} (a b : A) : @Ok E A a = Ok b -> a = b.
Proof. by intros [= ->]. Qed.

Lemma rbind_ok {E A B} (m : result E A) (f : A -> result E B) b :
  rbind m f = Ok b <-> exists a, m = Ok a /\ f a = Ok b.
Proof. destruct m as [a|e]; simpl; [split; [eauto|intros (? & [= ->] & ?); done]|split; [done|by intros (? & ? & _)]]. Qed.

Lemma rmap_length {E A B} (f : A -> result E B) l l' :
  rmap f l = Ok l' -> length l' = length l.
Proof.
  revert l'. induction l as [|x l IH]; simpl; intros l' H.
  - by simplify_eq.
  - destruct (f x) as [y|]; simpl in H; [|done].
    destruct (rmap f l) as [ys|] eqn:E1; simpl in H; simplify_eq/=.
    by rewrite (IH ys).
Qed.

(** The part before the first separator. *)
Lemma split_at (sep : Z) a b x y :
  Forall (fun c => c <> sep) a -> Forall (fun c => c <> sep) b ->
  a ++ sep :: x = b ++ sep :: y -> a = b /\ x = y.
Proof.
  intros Ha. revert b. induction Ha as [|c a Hc _ IH]; intros b Hb E.
  - destruct Hb as [|d b Hd Hb]; simpl in E; [by simplify_eq|congruence].
  - destruct Hb as [|d b Hd Hb]; simpl in E; [congruence|]. injection E as -> E.
    destruct (IH b Hb E) as [-> ->]. done.
Qed.
