(* ===== verification/PyFloat.v ===== *)
(** Python's [float]: IEEE 754 binary64, computed by the Standard Library's
    [SpecFloat], with the comparisons, conversions and tests the code uses.
    NaN and the infinities are values, so the guards against them are real. *)
From Stdlib Require Import ZArith Lia SpecFloat.
From stdpp Require Import base list numbers option.
From S2P Require Import Prelude.

Local Open Scope Z_scope.

Abbreviation float := spec_float (only parsing).

Definition fadd : float -> float -> float := SFadd 53 1024.
Definition fsub : float -> float -> float := SFsub 53 1024.
Definition fmul : float -> float -> float := SFmul 53 1024.
Definition fdiv : float -> float -> float := SFdiv 53 1024.

(** The comparison operators: any of them is [False] on a NaN. *)
Definition flt (x y : float) : bool :=
  match SFcompare x y with Some Lt => true | _ => false end.
Definition fle (x y : float) : bool :=
  match SFcompare x y with Some Lt | Some Eq => true | _ => false end.
Definition fge (x y : float) : bool := fle y x.
Definition fgt (x y : float) : bool := flt y x.
Definition feq (x y : float) : bool :=
  match SFcompare x y with Some Eq => true | _ => false end.

(** [math.isfinite], [math.isnan], [math.isinf]. *)
Definition isfinite (x : float) : bool :=
  match x with S754_zero _ | S754_finite _ _ _ => true | _ => false end.
Definition isnan (x : float) : bool :=
  match x with S754_nan => true | _ => false end.
Definition isinf (x : float) : bool :=
  match x with S754_infinity _ => true | _ => false end.

(** An integer in float arithmetic, rounded to nearest even. *)
Definition fofZ (z : Z) : float := binary_normalize 53 1024 z 0 false.

(** The signed significand of a finite number. *)
Definition fsig (s : bool) (m : positive) : Z := if s then Z.neg m else Z.pos m.

(** Python compares a float with an int exactly, without rounding the int. *)
Definition fcmpZ (x : float) (z : Z) : option comparison :=
  match x with
  | S754_nan => None
  | S754_infinity s => Some (if s then Lt else Gt)
  | S754_zero _ => Some (0 ?= z)
  | S754_finite s m e =>
      Some (if 0 <=? e then fsig s m * 2 ^ e ?= z else fsig s m ?= z * 2 ^ (- e))
  end.
Definition fgtZ (x : float) (z : Z) : bool :=
  match fcmpZ x z with Some Gt => true | _ => false end.
Definition fltZ (x : float) (z : Z) : bool :=
  match fcmpZ x z with Some Lt => true | _ => false end.
Definition fleZ (x : float) (z : Z) : bool :=
  match fcmpZ x z with Some Lt | Some Eq => true | _ => false end.
Definition fgeZ (x : float) (z : Z) : bool :=
  match fcmpZ x z with Some Gt | Some Eq => true | _ => false end.

(** [int(x)] truncates; it raises on the non-finite floats. *)
Definition ftrunc (x : float) : result py_exn Z :=
  match x with
  | S754_nan => Err ValueError
  | S754_infinity _ => Err OverflowError
  | S754_zero _ => Ok 0
  | S754_finite s m e =>
      Ok (if 0 <=? e then fsig s m * 2 ^ e else Z.quot (fsig s m) (2 ^ (- e)))
  end.

Lemma ftrunc_finite x : isfinite x = true -> exists z, ftrunc x = Ok z.
Proof. destruct x; try done; by eexists. Qed.

(** [x.is_integer()]. *)
Definition fis_integer (x : float) : bool :=
  match x with
  | S754_zero _ => true
  | S754_finite s m e => (0 <=? e) || (Z.rem (fsig s m) (2 ^ (- e)) =? 0)
  | _ => false
  end.

(** ** The order on floats *)

Lemma SFcompare_refl x : isnan x = false -> SFcompare x x = Some Eq.
Proof.
  destruct x as [[]|[]| |[] m e]; try done; intros _; unfold SFcompare; simpl;
    by rewrite Z.compare_refl, ?Pos.compare_cont_refl.
Qed.

Lemma SFcompare_nan_l x y : isnan x = true -> SFcompare x y = None.
Proof. by destruct x. Qed.

Lemma SFcompare_antisym x y :
  SFcompare y x = option_map CompOpp (SFcompare x y).
Proof.
  destruct x as [[]|[]| |[] m e], y as [[]|[]| |[] m' e']; try done;
    unfold SFcompare; simpl; rewrite (Z.compare_antisym e e');
    destruct (Z.compare e e'); simpl; try done; f_equal;
    change (Pos.compare_cont Eq m m') with (Pos.compare m m');
    change (Pos.compare_cont Eq m' m) with (Pos.compare m' m);
    rewrite (Pos.compare_antisym m m'); by destruct (Pos.compare m m').
Qed.

(** The key of the lexicographic order [SFcompare] decides: class, exponent
    and significand, negated on the negative side. *)
Definition fkey (x : float) : Z * Z * Z :=
  match x with
  | S754_nan => (0, 0, 0)
  | S754_infinity s => (if s then -2 else 2, 0, 0)
  | S754_zero _ => (0, 0, 0)
  | S754_finite s m e =>
      if s then (-1, - e, - Z.pos m) else (1, e, Z.pos m)
  end.

Definition key_le (p q : Z * Z * Z) : Prop :=
  let '(a, b, c) := p in
  let '(a', b', c') := q in
  a < a' \/ (a = a' /\ (b < b' \/ (b = b' /\ c <= c'))).

Lemma fle_key x y :
  isnan x = false -> isnan y = false ->
  fle x y = true <-> key_le (fkey x) (fkey y).
Proof.
  destruct x as [[]|[]| |[] m e], y as [[]|[]| |[] m' e']; try done; intros _ _;
    unfold fle, SFcompare, key_le; simpl;
    try (split; intros; (done || lia)).
  all: change (Pos.compare_cont Eq m m') with (Pos.compare m m').
  all: destruct (Z.compare_spec e e'), (Pos.compare_spec m m'); simpl;
    split; intros; try done; lia.
Qed.

Lemma fle_not_nan x y : fle x y = true -> isnan x = false /\ isnan y = false.
Proof. by destruct x, y. Qed.

Lemma flt_fle x y : flt x y = true -> fle x y = true.
Proof. unfold flt, fle. by destruct (SFcompare x y) as [[]|]. Qed.

Lemma fle_trans x y z : fle x y = true -> fle y z = true -> fle x z = true.
Proof.
  intros H1 H2.
  destruct (fle_not_nan _ _ H1) as [Nx Ny], (fle_not_nan _ _ H2) as [_ Nz].
  apply fle_key in H1, H2; try done. apply fle_key; try done.
  destruct (fkey x) as [[??]?], (fkey y) as [[??]?], (fkey z) as [[??]?].
  unfold key_le in *. lia.
Qed.

(** For numbers, [x < y] is the negation of [y <= x]. *)
Lemma flt_negb_fle x y :
  isnan x = false -> isnan y = false -> flt x y = negb (fle y x).
Proof.
  intros Nx Ny. unfold flt, fle. rewrite (SFcompare_antisym x y).
  assert (SFcompare x y <> None) by (by destruct x, y).
  by destruct (SFcompare x y) as [[]|].
Qed.

Lemma isfinite_not_nan x : isfinite x = true -> isnan x = false.
Proof. by destruct x. Qed.

#[export] Hint Resolve isfinite_not_nan flt_fle : pydb.

(** An expiry test that holds keeps holding as the clock advances. *)
Lemma fge_mono t t' x : fge t x = true -> fle t t' = true -> fge t' x = true.
Proof. unfold fge. intros. by eapply fle_trans. Qed.

Lemma fge_false_mono t t' x :
  fge t' x = false -> fle t t' = true -> fge t x = false.
Proof.
  intros H1 H2. destruct (fge t x) eqn:E; [|done].
  by rewrite (fge_mono _ _ _ E H2) in H1.
Qed.

Lemma fle_refl x : isnan x = false -> fle x x = true.
Proof. intros H. unfold fle. by rewrite SFcompare_refl. Qed.

(** ** True division of integers

    [a / b] on ints is the quotient rounded once; [SFdiv_core_binary] accepts
    significands of any size. *)
Definition fdivZ (a b : Z) : result py_exn float :=
  match a, b with
  | _, Z0 => Err ZeroDivisionError
  | Z0, _ => Ok (S754_zero (b <? 0))
  | _, _ =>
      let '(mz, ez, lz) := SFdiv_core_binary 53 1024 (Z.abs a) 0 (Z.abs b) 0 in
      let q := binary_round_aux 53 1024 (xorb (a <? 0) (b <? 0)) mz ez lz in
      if isinf q then Err OverflowError else Ok q
  end.
