(* ===== verification/PyDict.v ===== *)
(** Python's insertion-ordered [dict] and [OrderedDict], as the list of its
    items in iteration order: lookups find the unique item of a key, assignment
    updates in place or appends, [pop] removes, [move_to_end] makes a key the
    most recent one.  [od_wf] says that keys are unique; every operation keeps
    it. *)
From Stdlib Require Import ZArith Lia.
From stdpp Require Import base list numbers option.
From S2P Require Import Prelude.

Section odict.
Context {K V : Type} `{EqDecision K}.
Implicit Types (d : list (K * V)) (k : K) (v : V).

(** [d.get(k)] *)
Fixpoint od_get k d : option V :=
  match d with
  | [] => None
  | (k', v) :: r => if decide (k = k') then Some v else od_get k r
  end.

(** [k in d] *)
Definition od_mem k d : bool :=
  match od_get k d with Some _ => true | None => false end.

(** [d[k] = v] *)
Fixpoint od_set k v d : list (K * V) :=
  match d with
  | [] => [(k, v)]
  | (k', v') :: r =>
      if decide (k = k') then (k', v) :: r else (k', v') :: od_set k v r
  end.

(** [d.pop(k, None)] without its result *)
Fixpoint od_pop k d : list (K * V) :=
  match d with
  | [] => []
  | (k', v') :: r => if decide (k = k') then r else (k', v') :: od_pop k r
  end.

(** [d.move_to_end(k)], called on a present key *)
Definition od_move_to_end k d : list (K * V) :=
  match od_get k d with
  | Some v => od_pop k d ++ [(k, v)]
  | None => d
  end.

Definition od_keys d : list K := d.*1.
Definition od_values d : list V := d.*2.

(** Keys are unique. *)
Definition od_wf d : Prop := NoDup (od_keys d).

(** The total of a measure of the values. *)
Definition od_total (f : V -> Z) d : Z := zsum (f <$> od_values d).

Lemma od_get_elem k v d : od_get k d = Some v -> (k, v) ∈ d.
Proof.
  induction d as [|[k' v'] d IH]; simpl; [done|].
  case_decide; intros ?; simplify_eq; [by left|right; auto].
Qed.

Lemma od_get_None k d : od_get k d = None <-> k ∉ od_keys d.
Proof.
  induction d as [|[k' v'] d IH]; simpl.
  - split; [intros _; apply not_elem_of_nil|done].
  - case_decide as D.
    + split; [done|]. intros H. exfalso. apply H. subst. by left.
    + rewrite IH, not_elem_of_cons. tauto.
Qed.

Lemma od_elem_get k v d : od_wf d -> (k, v) ∈ d -> od_get k d = Some v.
Proof.
  unfold od_wf, od_keys. induction d as [|[k' v'] d IH]; simpl.
  - intros _ H. by apply not_elem_of_nil in H.
  - intros [Hn Hd]%list.NoDup_cons [H|H]%elem_of_cons; simplify_eq.
    + by case_decide.
    + case_decide; [|auto]. subst. exfalso. apply Hn.
      apply list_elem_of_fmap. by exists (k', v).
Qed.

Lemma od_get_set_eq k v d : od_get k (od_set k v d) = Some v.
Proof.
  induction d as [|[k' v'] d IH]; simpl; [by case_decide|].
  repeat (case_decide; simpl; simplify_eq); try done.
Qed.

Lemma od_get_set_ne k k' v d :
  k <> k' -> od_get k (od_set k' v d) = od_get k d.
Proof.
  intros Hk. induction d as [|[k2 v2] d IH]; simpl; [by case_decide|].
  repeat (case_decide; simpl; simplify_eq); try done.
Qed.

Lemma od_get_pop_ne k k' d : k <> k' -> od_get k (od_pop k' d) = od_get k d.
Proof.
  intros Hk. induction d as [|[k2 v2] d IH]; simpl; [done|].
  repeat (case_decide; simpl; simplify_eq); done.
Qed.

Lemma od_pop_keys_subset k d x : x ∈ od_keys (od_pop k d) -> x ∈ od_keys d.
Proof.
  unfold od_keys. induction d as [|[k2 v2] d IH]; simpl; [done|].
  case_decide; simpl; rewrite !elem_of_cons; tauto.
Qed.

Lemma od_get_pop_eq k d : od_wf d -> od_get k (od_pop k d) = None.
Proof.
  unfold od_wf, od_keys. induction d as [|[k2 v2] d IH]; simpl; [done|].
  intros [Hn Hd]%list.NoDup_cons. case_decide; simplify_eq; simpl.
  - by apply od_get_None.
  - rewrite decide_False by done. auto.
Qed.

Lemma od_pop_None k d : od_get k d = None -> od_pop k d = d.
Proof.
  induction d as [|[k2 v2] d IH]; simpl; [done|].
  case_decide; [done|]. intros Hk. by rewrite IH.
Qed.

Lemma od_set_None k v d : od_get k d = None -> od_set k v d = d ++ [(k, v)].
Proof.
  induction d as [|[k2 v2] d IH]; simpl; [done|].
  case_decide; [done|]. intros Hk. by rewrite IH.
Qed.

Lemma od_get_app k d d' :
  od_get k (d ++ d') =
  match od_get k d with Some v => Some v | None => od_get k d' end.
Proof.
  induction d as [|[k2 v2] d IH]; simpl; [done|]. by case_decide.
Qed.

Lemma od_get_move k k' d :
  od_wf d -> od_get k (od_move_to_end k' d) = od_get k d.
Proof.
  intros Hwf. unfold od_move_to_end.
  destruct (od_get k' d) as [v'|] eqn:E; [|done].
  rewrite od_get_app. simpl. destruct (decide (k = k')) as [->|Hne].
  - by rewrite od_get_pop_eq.
  - rewrite od_get_pop_ne by done. by destruct (od_get k d).
Qed.

Lemma od_wf_nil : od_wf [].
Proof. apply NoDup_nil_2. Qed.

Lemma od_wf_pop k d : od_wf d -> od_wf (od_pop k d).
Proof.
  unfold od_wf, od_keys. induction d as [|[k2 v2] d IH]; simpl; [done|].
  intros [Hn Hd]%list.NoDup_cons. case_decide; simpl; [done|].
  apply list.NoDup_cons. split; [|auto]. intros Hin. apply Hn.
  by eapply od_pop_keys_subset.
Qed.

Lemma od_wf_snoc k v d : od_wf d -> od_get k d = None -> od_wf (d ++ [(k, v)]).
Proof.
  unfold od_wf, od_keys. intros Hd Hn%od_get_None.
  rewrite fmap_app. apply list.NoDup_app. split; [done|]. split.
  - intros x Hx ->%list_elem_of_singleton. by apply Hn.
  - simpl. apply NoDup_singleton.
Qed.

Lemma od_wf_set k v d : od_wf d -> od_wf (od_set k v d).
Proof.
  intros Hd. destruct (od_get k d) as [v0|] eqn:E.
  - unfold od_wf. replace (od_keys (od_set k v d)) with (od_keys d); [done|].
    clear Hd. unfold od_keys. induction d as [|[k2 v2] d IH]; simpl; [done|].
    simpl in E. case_decide; simpl; [done|]. f_equal. auto.
  - rewrite od_set_None by done. by apply od_wf_snoc.
Qed.

Lemma od_wf_move k d : od_wf d -> od_wf (od_move_to_end k d).
Proof.
  intros Hd. unfold od_move_to_end. destruct (od_get k d) eqn:E; [|done].
  apply od_wf_snoc; [by apply od_wf_pop|by apply od_get_pop_eq].
Qed.

Lemma od_total_cons f k v d : od_total f ((k, v) :: d) = (f v + od_total f d)%Z.
Proof. done. Qed.

Lemma od_total_app f d d' : od_total f (d ++ d') = (od_total f d + od_total f d')%Z.
Proof. unfold od_total, od_values. by rewrite !fmap_app, zsum_app. Qed.

Lemma od_total_pop f k v d :
  od_get k d = Some v -> od_total f (od_pop k d) = (od_total f d - f v)%Z.
Proof.
  induction d as [|[k2 v2] d IH]; simpl; [done|].
  case_decide; intros ?; simplify_eq; rewrite !od_total_cons; [lia|].
  rewrite IH by done. lia.
Qed.

Lemma od_total_move f k d : od_total f (od_move_to_end k d) = od_total f d.
Proof.
  unfold od_move_to_end. destruct (od_get k d) as [v|] eqn:E; [|done].
  rewrite od_total_app, (od_total_pop _ _ _ _ E), od_total_cons.
  change (od_total f []) with 0%Z. lia.
Qed.

Lemma od_total_set f k v d :
  od_total f (od_set k v d) =
  (od_total f d + f v - match od_get k d with Some w => f w | None => 0 end)%Z.
Proof.
  induction d as [|[k2 v2] d IH]; simpl.
  - rewrite od_total_cons. change (od_total f []) with 0%Z. lia.
  - case_decide; rewrite !od_total_cons; [lia|]. rewrite IH. lia.
Qed.

Lemma od_Forall_pop (P : K * V -> Prop) k d : Forall P d -> Forall P (od_pop k d).
Proof.
  induction 1 as [|[k2 v2] d H1 H2 IH]; simpl; [by constructor|].
  by case_decide; [|constructor].
Qed.

Lemma od_pop_set k v d : od_pop k (od_set k v d) = od_pop k d.
Proof.
  induction d as [|[k2 v2] d IH]; simpl; [by rewrite decide_True|].
  case_decide; simpl; [by rewrite decide_True|].
  rewrite decide_False by done. by rewrite IH.
Qed.

(** Assigning a key and making it the most recent one. *)
Lemma od_move_set k v d :
  od_move_to_end k (od_set k v d) = od_pop k d ++ [(k, v)].
Proof. unfold od_move_to_end. by rewrite od_get_set_eq, od_pop_set. Qed.

(** Removing the keys of a prefix, one by one, leaves the suffix. *)
Lemma od_pop_prefix j d : foldl (fun d k => od_pop k d) d (od_keys (take j d)) = drop j d.
Proof.
  revert d. induction j as [|j IH]; intros d; [done|].
  destruct d as [|[k v] d]; [done|]. simpl. rewrite decide_True by done. apply IH.
Qed.

Lemma od_pop_all_cons ks k v d :
  k ∉ ks ->
  foldl (fun d k => od_pop k d) ((k, v) :: d) ks =
  (k, v) :: foldl (fun d k => od_pop k d) d ks.
Proof.
  revert d. induction ks as [|k' ks IH]; intros d Hk; [done|].
  apply not_elem_of_cons in Hk as [N Hk]. simpl. rewrite decide_False by done. by apply IH.
Qed.

(** Removing the keys whose items satisfy [P], one by one. *)
Lemma od_pop_filter (P : K * V -> Prop) `{!forall p, Decision (P p)} d :
  od_wf d ->
  foldl (fun d k => od_pop k d) d (od_keys (filter P d)) = filter (fun p => ~ P p) d.
Proof.
  induction d as [|[k v] d IH]; intros Hd; [done|].
  apply list.NoDup_cons in Hd as [Hn Hd].
  rewrite !filter_cons. destruct (decide (P (k, v))) as [HP|HP]; simpl.
  - rewrite decide_True by done. rewrite decide_False by tauto. by apply IH.
  - rewrite od_pop_all_cons; [rewrite decide_True by done; f_equal; by apply IH|].
    intros Hin. apply Hn. unfold od_keys in *.
    apply list_elem_of_fmap in Hin as (p & -> & Hp).
    apply list_elem_of_filter in Hp as [_ Hp]. apply list_elem_of_fmap. by exists p.
Qed.

Lemma od_wf_drop j d : od_wf d -> od_wf (drop j d).
Proof.
  unfold od_wf, od_keys. rewrite fmap_drop. intros H.
  rewrite <- (take_drop j) in H. by apply list.NoDup_app in H as (_ & _ & ?).
Qed.

Lemma od_total_take_drop f j d :
  (od_total f (take j d) + od_total f (drop j d))%Z = od_total f d.
Proof. by rewrite <- od_total_app, take_drop. Qed.

Lemma od_total_nonneg f d :
  Forall (fun p => 0 <= f p.2)%Z d -> (0 <= od_total f d)%Z.
Proof.
  induction 1 as [|[k v] d H _ IH]; [done|]. rewrite od_total_cons. simpl in *. lia.
Qed.

Lemma od_total_get_le f k v d :
  Forall (fun p => 0 <= f p.2)%Z d -> od_get k d = Some v -> (f v <= od_total f d)%Z.
Proof.
  intros H E. pose proof (od_total_nonneg f _ (od_Forall_pop _ k _ H)) as P.
  rewrite (od_total_pop _ _ _ _ E) in P. lia.
Qed.

(** A key of the suffix is not one of the prefix. *)
Lemma od_get_drop k v j d :
  od_wf d -> od_get k (drop j d) = Some v -> od_get k d = Some v.
Proof.
  intros Hd H%od_get_elem. apply od_elem_get; [done|].
  apply list_elem_of_lookup in H as [i Hi]. rewrite lookup_drop in Hi.
  by eapply list_elem_of_lookup_2.
Qed.

Lemma od_length_pop k v d :
  od_get k d = Some v -> length d = S (length (od_pop k d)).
Proof.
  induction d as [|[k2 v2] d IH]; simpl; [done|].
  case_decide; [done|]. simpl. auto.
Qed.

Lemma od_Forall_get (P : K * V -> Prop) k v d :
  Forall P d -> od_get k d = Some v -> P (k, v).
Proof. intros H E%od_get_elem. by apply (proj1 (list.Forall_forall _ _) H). Qed.

Lemma od_Forall_move (P : K * V -> Prop) k d :
  Forall P d -> Forall P (od_move_to_end k d).
Proof.
  intros H. unfold od_move_to_end. destruct (od_get k d) as [v|] eqn:E; [|done].
  apply Forall_app. split; [by apply od_Forall_pop|].
  constructor; [by eapply od_Forall_get|constructor].
Qed.

Lemma od_Forall_set (P : K * V -> Prop) k v d :
  Forall P d -> (forall k', k = k' -> P (k', v)) -> Forall P (od_set k v d).
Proof.
  intros H Hv. induction H as [|[k2 v2] d H1 H2 IH]; simpl.
  - by constructor; [apply Hv|].
  - case_decide; constructor; auto.
Qed.

Lemma od_length_set k v w d : od_get k d = Some w -> length (od_set k v d) = length d.
Proof.
  induction d as [|[k2 v2] d IH]; simpl; [done|].
  case_decide; simpl; [done|]. auto.
Qed.

Lemma od_length_move k d : length (od_move_to_end k d) = length d.
Proof.
  unfold od_move_to_end. destruct (od_get k d) as [v|] eqn:E; [|done].
  rewrite length_app. simpl. rewrite (od_length_pop _ _ _ E). lia.
Qed.

Lemma od_mem_true k d : od_mem k d = true <-> exists v, od_get k d = Some v.
Proof. unfold od_mem. destruct (od_get k d); naive_solver. Qed.

Lemma od_mem_false k d : od_mem k d = false <-> od_get k d = None.
Proof. unfold od_mem. destruct (od_get k d); naive_solver. Qed.
End odict.

#[export] Hint Resolve od_wf_nil od_wf_pop od_wf_set od_wf_move : pydb.
#[export] Hint Resolve od_Forall_pop od_Forall_move : pydb.
