(* ===== verification/Bytes.v ===== *)
(** Byte-level encodings of the Python standard library the package relies on:
    strict UTF-8 ([str.encode("utf-8")]), big-endian integers ([struct.pack]
    with [">H"] and [">Q"], [int.to_bytes(n, "big")]), binary64 images of floats
    ([struct.pack(">d", x)]) and [hexdigest].  The decoders are reference inverses, used to state round trips. *)
From Stdlib Require Import ZArith Lia SpecFloat.
From stdpp Require Import base list numbers option strings.
From S2P Require Import Prelude PyFloat.

Local Open Scope Z_scope.

(** ** UTF-8 *)

Definition is_surrogate (c : Z) : bool := (0xD800 <=? c) && (c <=? 0xDFFF).

(** The encoding of one code point; a lone surrogate cannot be encoded. *)
Definition utf8_char (c : Z) : option pybytes :=
  if c <? 0x80 then Some [c]
  else if c <? 0x800 then Some [192 + c / 64; 128 + c mod 64]
  else if is_surrogate c then None
  else if c <? 0x10000 then Some [224 + c / 4096; 128 + c / 64 mod 64; 128 + c mod 64]
  else Some [240 + c / 262144; 128 + c / 4096 mod 64; 128 + c / 64 mod 64; 128 + c mod 64].

Fixpoint utf8_encode (s : pystr) : result py_exn pybytes :=
  match s with
  | [] => Ok []
  | c :: r =>
      match utf8_char c with
      | None => Err UnicodeEncodeError
      | Some b => rbind (utf8_encode r) (fun bs => Ok (b ++ bs))
      end
  end.

Definition is_cont (b : Z) : bool := (128 <=? b) && (b <? 192).

(** The decoder: no overlong form, no trailing part, and no surrogate unless
    the error handler is ["surrogatepass"]. *)
Fixpoint utf8_decode_with (pass : bool) (l : pybytes) : option pystr :=
  match l with
  | [] => Some []
  | b0 :: r =>
      if b0 <? 0x80 then cons b0 <$> utf8_decode_with pass r
      else if b0 <? 224 then
        match r with
        | b1 :: r =>
            let c := (b0 - 192) * 64 + (b1 - 128) in
            if is_cont b1 && (0x80 <=? c) then cons c <$> utf8_decode_with pass r else None
        | _ => None
        end
      else if b0 <? 240 then
        match r with
        | b1 :: b2 :: r =>
            let c := (b0 - 224) * 4096 + (b1 - 128) * 64 + (b2 - 128) in
            if is_cont b1 && is_cont b2 && (0x800 <=? c) && (pass || negb (is_surrogate c))
            then cons c <$> utf8_decode_with pass r else None
        | _ => None
        end
      else
        match r with
        | b1 :: b2 :: b3 :: r =>
            let c := (b0 - 240) * 262144 + (b1 - 128) * 4096 + (b2 - 128) * 64 + (b3 - 128) in
            if is_cont b1 && is_cont b2 && is_cont b3 && (0x10000 <=? c) && (c <=? 0x10FFFF)
            then cons c <$> utf8_decode_with pass r else None
        | _ => None
        end
  end.

(** [bytes.decode("utf-8")] *)
Definition utf8_decode : pybytes -> option pystr := utf8_decode_with false.

(** Decide the boolean integer tests of the goal by arithmetic. *)
Ltac ztests :=
  repeat match goal with
  | |- context [?a <? ?b] =>
      first [rewrite (proj2 (Z.ltb_lt a b)) by lia | rewrite (proj2 (Z.ltb_ge a b)) by lia]
  | |- context [?a <=? ?b] =>
      first [rewrite (proj2 (Z.leb_le a b)) by lia | rewrite (proj2 (Z.leb_gt a b)) by lia]
  | |- context [?a =? ?b] =>
      first [rewrite (proj2 (Z.eqb_eq a b)) by lia | rewrite (proj2 (Z.eqb_neq a b)) by lia]
  end.

Lemma split64 c : c = c / 64 * 64 + c mod 64 /\ 0 <= c mod 64 < 64.
Proof. pose proof (Z.div_mod c 64). pose proof (Z.mod_pos_bound c 64). lia. Qed.

Lemma utf8_char_decode pass c b r : is_code_point c -> utf8_char c = Some b ->
  utf8_decode_with pass (b ++ r) = cons c <$> utf8_decode_with pass r.
Proof.
  unfold is_code_point, utf8_char. intros Hc Hb.
  pose proof (split64 c) as [E0 B0]. pose proof (split64 (c / 64)) as [E1 B1].
  pose proof (split64 (c / 64 / 64)) as [E2 B2].
  rewrite ?Z.div_div in * by lia. change (64 * 64 * 64) with 262144 in *. change (64 * 64) with 4096 in *.
  destruct (c <? 128) eqn:T1; zbool.
  { injection Hb as <-. simpl. by ztests. }
  destruct (c <? 2048) eqn:T2; zbool.
  { injection Hb as <-. simpl. unfold is_cont. ztests. simpl.
    replace ((192 + c / 64 - 192) * 64 + (128 + c mod 64 - 128)) with c by lia. by ztests. }
  destruct (is_surrogate c) eqn:T3; [done|].
  destruct (c <? 65536) eqn:T4; zbool; injection Hb as <-; simpl; unfold is_cont; ztests; simpl.
  - replace ((224 + c / 4096 - 224) * 4096 + (128 + (c / 64) mod 64 - 128) * 64
               + (128 + c mod 64 - 128)) with c by lia.
    rewrite T3. ztests. by rewrite orb_true_r.
  - replace ((240 + c / 262144 - 240) * 262144 + (128 + (c / 4096) mod 64 - 128) * 4096
       + (128 + (c / 64) mod 64 - 128) * 64 + (128 + c mod 64 - 128)) with c by lia.
    by ztests.
Qed.

(** Decoding inverts encoding, also in front of other bytes. *)
Lemma utf8_roundtrip_app pass s b r :
  Forall is_code_point s -> utf8_encode s = Ok b ->
  utf8_decode_with pass (b ++ r) = app s <$> utf8_decode_with pass r.
Proof.
  intros Hs. revert b. induction Hs as [|c s Hc _ IH]; simpl; intros b Hb.
  - injection Hb as <-. simpl. by destruct (utf8_decode_with pass r).
  - destruct (utf8_char c) as [bc|] eqn:Ec; [|done].
    destruct (utf8_encode s) as [bs|]; simpl in Hb; [|done]. injection Hb as <-.
    rewrite <- app_assoc, (utf8_char_decode pass c) by done. rewrite (IH bs) by done.
    by destruct (utf8_decode_with pass r).
Qed.

Lemma utf8_roundtrip_with pass s b :
  Forall is_code_point s -> utf8_encode s = Ok b -> utf8_decode_with pass b = Some s.
Proof.
  intros Hs Hb. rewrite <- (app_nil_r b). rewrite (utf8_roundtrip_app pass s b) by done. simpl.
  by rewrite app_nil_r.
Qed.

Lemma utf8_roundtrip s b :
  Forall is_code_point s -> utf8_encode s = Ok b -> utf8_decode b = Some s.
Proof. apply utf8_roundtrip_with. Qed.

Lemma utf8_inj s s' b :
  Forall is_code_point s -> Forall is_code_point s' ->
  utf8_encode s = Ok b -> utf8_encode s' = Ok b -> s = s'.
Proof.
  intros Hs Hs' E E'. pose proof (utf8_roundtrip _ _ Hs E) as D.
  rewrite (utf8_roundtrip _ _ Hs' E') in D. congruence.
Qed.

Lemma utf8_char_bytes c b : is_code_point c -> utf8_char c = Some b -> Forall is_byte b.
Proof.
  unfold is_code_point, utf8_char, is_byte. intros Hc Hb.
  pose proof (split64 c) as [E0 B0]. pose proof (split64 (c / 64)) as [E1 B1].
  pose proof (split64 (c / 64 / 64)) as [E2 B2].
  rewrite ?Z.div_div in * by lia. change (64 * 64 * 64) with 262144 in *. change (64 * 64) with 4096 in *.
  repeat case_match; simplify_eq; zbool; repeat constructor; lia.
Qed.

Lemma utf8_bytes s b : Forall is_code_point s -> utf8_encode s = Ok b -> Forall is_byte b.
Proof.
  intros Hs. revert b. induction Hs as [|c s Hc _ IH]; simpl; intros b Hb.
  - by injection Hb as <-.
  - destruct (utf8_char c) as [bc|] eqn:Ec; [|done].
    destruct (utf8_encode s) as [bs|]; simpl in Hb; [|done]. injection Hb as <-.
    apply list.Forall_app. split; [by eapply utf8_char_bytes|by apply IH].
Qed.

(** ASCII text encodes to itself. *)
Lemma utf8_ascii s : Forall (fun c => 0 <= c < 128) s -> utf8_encode s = Ok s.
Proof.
  induction 1 as [|c s Hc _ IH]; [done|]. simpl. unfold utf8_char.
  rewrite (proj2 (Z.ltb_lt c 128)) by lia. by rewrite IH.
Qed.

(** ** Big-endian integers *)

(** The [n] low bytes of [w], most significant first. *)
Fixpoint be_bytes (n : nat) (w : Z) : pybytes :=
  match n with
  | O => []
  | S n => be_bytes n (w / 256) ++ [w mod 256]
  end.

Definition be_val (l : pybytes) : Z := foldl (fun a b => a * 256 + b) 0 l.

Lemma be_bytes_length n w : length (be_bytes n w) = n.
Proof. revert w. induction n as [|n IH]; intros w; [done|]. simpl. rewrite length_app, IH. simpl. lia. Qed.

Lemma be_bytes_byte n w : Forall is_byte (be_bytes n w).
Proof.
  revert w. induction n as [|n IH]; intros w; simpl; [constructor|].
  apply list.Forall_app. split; [apply IH|]. constructor; [|constructor].
  unfold is_byte. pose proof (Z.mod_pos_bound w 256). lia.
Qed.

Lemma be_val_snoc l b : be_val (l ++ [b]) = be_val l * 256 + b.
Proof. unfold be_val. by rewrite foldl_app. Qed.

Lemma be_roundtrip n w : 0 <= w < 256 ^ Z.of_nat n -> be_val (be_bytes n w) = w.
Proof.
  revert w. induction n as [|n IH]; intros w Hw; [simpl in *; unfold be_val; simpl; lia|].
  simpl. rewrite be_val_snoc, IH.
  - pose proof (Z.div_mod w 256). lia.
  - rewrite Nat2Z.inj_succ, Z.pow_succ_r in Hw by lia.
    split; [apply Z.div_pos; lia|]. apply Z.div_lt_upper_bound; lia.
Qed.

Lemma be_val_range l : Forall is_byte l -> 0 <= be_val l < 256 ^ Z.of_nat (length l).
Proof.
  intros Hl. induction l as [|b l IH] using rev_ind; [unfold be_val; simpl; lia|].
  apply list.Forall_app in Hl as [Hl Hb]. inversion Hb as [|? ? Hb' _]. subst. unfold is_byte in Hb'.
  rewrite be_val_snoc, length_app. simpl. rewrite Nat2Z.inj_add, Z.pow_add_r by lia.
  specialize (IH Hl). change (Z.of_nat 1) with 1. rewrite Z.pow_1_r. lia.
Qed.

Lemma be_bytes_inj n w w' :
  0 <= w < 256 ^ Z.of_nat n -> 0 <= w' < 256 ^ Z.of_nat n -> be_bytes n w = be_bytes n w' -> w = w'.
Proof. intros ? ? E. rewrite <- (be_roundtrip n w), <- (be_roundtrip n w') by done. by rewrite E. Qed.

(** [struct.pack(">Q", w)] *)
Definition pack_Q (w : Z) : result py_exn pybytes :=
  if (0 <=? w) && (w <? 2 ^ 64) then Ok (be_bytes 8 w) else Err StructError.

(** [struct.pack(">H", w)] *)
Definition pack_H (w : Z) : result py_exn pybytes :=
  if (0 <=? w) && (w <? 2 ^ 16) then Ok (be_bytes 2 w) else Err StructError.

Lemma pack_Q_ok w b :
  pack_Q w = Ok b -> length b = 8%nat /\ Forall is_byte b /\ be_val b = w /\ 0 <= w < 2 ^ 64.
Proof.
  unfold pack_Q. destruct (_ && _) eqn:E; intros Hb; [|done]. zbool.
  assert (b = be_bytes 8 w) as -> by congruence.
  split; [apply be_bytes_length|]. split; [apply be_bytes_byte|]. split; [|lia]. apply be_roundtrip. simpl. lia.
Qed.

(** ** Hexadecimal digests *)

Definition hex_digit (d : Z) : Z := if d <? 10 then 48 + d else 87 + d.

Definition hexdigest (l : pybytes) : pystr :=
  flat_map (fun b => [hex_digit (b / 16); hex_digit (b mod 16)]) l.

Definition is_hex (c : Z) : Prop := 48 <= c <= 57 \/ 97 <= c <= 102.

Lemma hex_digit_is_hex d : 0 <= d < 16 -> is_hex (hex_digit d).
Proof. unfold hex_digit, is_hex. destruct (d <? 10) eqn:E; zbool; lia. Qed.

Lemma hexdigest_length l : zlen (hexdigest l) = 2 * zlen l.
Proof. induction l as [|b l IH]; [done|]. simpl. rewrite !zlen_cons, IH. lia. Qed.

Lemma hexdigest_hex l : Forall is_byte l -> Forall is_hex (hexdigest l).
Proof.
  induction 1 as [|b l Hb _ IH]; simpl; [constructor|]. unfold is_byte in Hb.
  pose proof (Z.mod_pos_bound b 16). pose proof (Z.div_pos b 16).
  pose proof (Z.div_lt_upper_bound b 16 16).
  constructor; [apply hex_digit_is_hex; lia|]. constructor; [apply hex_digit_is_hex; lia|done].
Qed.

Lemma hex_digit_inj d d' : 0 <= d < 16 -> 0 <= d' < 16 -> hex_digit d = hex_digit d' -> d = d'.
Proof. unfold hex_digit. destruct (d <? 10) eqn:E, (d' <? 10) eqn:E'; zbool; lia. Qed.

Lemma hexdigest_inj l l' :
  Forall is_byte l -> Forall is_byte l' -> hexdigest l = hexdigest l' -> l = l'.
Proof.
  intros Hl. revert l'. induction Hl as [|b l Hb _ IH]; intros l' Hl' E.
  { destruct Hl'; [done|]. simpl in E. discriminate. }
  destruct Hl' as [|b' l' Hb' Hl']; simpl in E; [discriminate|]. injection E as E1 E2 E3.
  unfold is_byte in *.
  pose proof (Z.mod_pos_bound b 16). pose proof (Z.div_pos b 16).
  pose proof (Z.div_lt_upper_bound b 16 16). pose proof (Z.mod_pos_bound b' 16).
  pose proof (Z.div_pos b' 16). pose proof (Z.div_lt_upper_bound b' 16 16).
  pose proof (Z.div_mod b 16). pose proof (Z.div_mod b' 16).
  pose proof (hex_digit_inj (b / 16) (b' / 16)). pose proof (hex_digit_inj (b mod 16) (b' mod 16)).
  f_equal; [lia|by apply IH].
Qed.

#[export] Hint Resolve utf8_bytes be_bytes_byte hexdigest_hex : pydb.
#[export] Hint Rewrite be_bytes_length hexdigest_length : pydb.

(** [hashlib.blake2b(data, digest_size=n).digest()], for the sizes it accepts. *)
Class Digest (blake2b : Z -> pybytes -> pybytes) : Prop := {
  digest_bytes n bs : Forall is_byte (blake2b n bs);
  digest_size n bs : 1 <= n <= 64 -> zlen (blake2b n bs) = n
}.

Lemma digest_hex_length f n bs : Digest f -> 1 <= n <= 64 -> zlen (hexdigest (f n bs)) = 2 * n.
Proof. intros D Hn. by rewrite hexdigest_length, digest_size. Qed.

Lemma digest_hex f n bs : Digest f -> Forall is_hex (hexdigest (f n bs)).
Proof. intros D. apply hexdigest_hex, digest_bytes. Qed.

(** A stand-in: the last bytes of the data. *)
Definition toy_digest (n : Z) (bs : pybytes) : pybytes := be_bytes (Z.to_nat n) (be_val bs).

#[export] Instance toy_digest_digest : Digest toy_digest.
Proof.
  split; [intros; apply be_bytes_byte|].
  intros n bs Hn. unfold toy_digest, zlen. rewrite be_bytes_length. lia.
Qed.

#[export] Hint Resolve digest_hex : pydb.

(** ** Floats *)

Definition sign_bit (s : bool) : Z := if s then 2 ^ 63 else 0.

Definition float_bits (f : float) : Z :=
  match f with
  | S754_zero s => sign_bit s
  | S754_infinity s => sign_bit s + 2047 * 2 ^ 52
  | S754_nan => 4095 * 2 ^ 51
  | S754_finite s m e =>
      if Z.pos m <? 2 ^ 52 then sign_bit s + Z.pos m
      else sign_bit s + (e + 1075) * 2 ^ 52 + (Z.pos m - 2 ^ 52)
  end.

Definition pack_d (f : float) : pybytes := be_bytes 8 (float_bits f).

(** The float of a binary64 word. *)
Definition bits_float (b : Z) : float :=
  let s := 2 ^ 63 <=? b in
  let r := b mod 2 ^ 63 in
  let ex := r / 2 ^ 52 in
  let mant := r mod 2 ^ 52 in
  if ex =? 0 then
    match mant with Zpos m => S754_finite s m (-1074) | _ => S754_zero s end
  else if ex =? 2047 then
    if mant =? 0 then S754_infinity s else S754_nan
  else match mant + 2 ^ 52 with Zpos m => S754_finite s m (ex - 1075) | _ => S754_nan end.

(** What every Python float satisfies: a canonical significand in range. *)
Definition valid_float (f : float) : bool := valid_binary 53 1024 f.

Lemma digits_bounds m :
  2 ^ (Z.pos (digits2_pos m) - 1) <= Z.pos m < 2 ^ Z.pos (digits2_pos m).
Proof.
  induction m as [m IH|m IH|]; simpl digits2_pos; [| |simpl; lia];
    set (d := digits2_pos m) in *;
    assert (E : 2 ^ Z.pos d = 2 * 2 ^ (Z.pos d - 1))
      by (rewrite <- Z.pow_succ_r by lia; f_equal; lia);
    rewrite Pos2Z.inj_succ; replace (Z.succ (Z.pos d) - 1) with (Z.pos d) by lia;
    rewrite Z.pow_succ_r by lia; lia.
Qed.

(** Normal and subnormal numbers. *)
Lemma valid_finite s m e :
  valid_float (S754_finite s m e) = true ->
  (2 ^ 52 <= Z.pos m < 2 ^ 53 /\ -1074 <= e <= 971) \/ (Z.pos m < 2 ^ 52 /\ e = -1074).
Proof.
  unfold valid_float, valid_binary, bounded, canonical_mantissa, fexp, emin. intros E.
  apply andb_true_iff in E as [E1 E2]. apply Zeq_bool_eq in E1. apply Zle_bool_imp_le in E2.
  pose proof (digits_bounds m) as B. set (d := Z.pos (digits2_pos m)) in *.
  assert (Hd : 1 <= d) by lia.
  assert (C : (d = 53 /\ -1074 <= e <= 971) \/ (d <= 52 /\ e = -1074) \/ 53 < d) by lia.
  destruct C as [[-> He]|[[Hd' He]|Hd']].
  - left. simpl in B. lia.
  - right. split; [|done]. pose proof (Z.pow_le_mono_r 2 d 52). lia.
  - exfalso. lia.
Qed.

Lemma float_bits_range f : valid_float f = true -> 0 <= float_bits f < 2 ^ 64.
Proof.
  intros V. destruct f as [s|s| |s m e]; simpl; unfold sign_bit; try (destruct s; lia); [lia|].
  destruct (Z.ltb_spec (Z.pos m) (2 ^ 52)); apply valid_finite in V; destruct s; lia.
Qed.

(** The parts of a word. *)
Lemma bits_parts s ex mant :
  0 <= ex < 2 ^ 11 -> 0 <= mant < 2 ^ 52 ->
  let b := sign_bit s + ex * 2 ^ 52 + mant in
  (2 ^ 63 <=? b) = s /\ b mod 2 ^ 63 / 2 ^ 52 = ex /\ b mod 2 ^ 63 mod 2 ^ 52 = mant.
Proof.
  intros He Hm b. unfold b, sign_bit.
  assert (R : b mod 2 ^ 63 = ex * 2 ^ 52 + mant).
  { unfold b, sign_bit. destruct s.
    - replace (2 ^ 63 + ex * 2 ^ 52 + mant) with (ex * 2 ^ 52 + mant + 1 * 2 ^ 63) by lia.
      rewrite Z.mod_add by lia. apply Z.mod_small. lia.
    - apply Z.mod_small. lia. }
  fold (sign_bit s). fold b. rewrite R.
  split; [unfold b, sign_bit; destruct s; [apply Z.leb_le|apply Z.leb_gt]; lia|].
  rewrite Z.add_comm. split.
  - rewrite Z.div_add by lia. rewrite Z.div_small by lia. lia.
  - rewrite Z.mod_add by lia. apply Z.mod_small. lia.
Qed.

Lemma float_roundtrip f : valid_float f = true -> isnan f = false -> bits_float (float_bits f) = f.
Proof.
  intros V N. destruct f as [s|s| |s m e]; [|..|]; try done.
  - destruct (bits_parts s 0 0 ltac:(lia) ltac:(lia)) as (P1 & P2 & P3).
    rewrite Z.add_0_r in P1, P2, P3. simpl float_bits.
    replace (sign_bit s + 0 * 2 ^ 52) with (sign_bit s) in * by lia.
    unfold bits_float. rewrite P1, P2, P3. done.
  - destruct (bits_parts s 2047 0 ltac:(lia) ltac:(lia)) as (P1 & P2 & P3).
    rewrite Z.add_0_r in P1, P2, P3. unfold bits_float, float_bits. rewrite P1, P2, P3. done.
  - pose proof (valid_finite _ _ _ V) as B. unfold float_bits.
    destruct (Z.ltb_spec (Z.pos m) (2 ^ 52)) as [L|L].
    + assert (e = -1074) as -> by lia.
      destruct (bits_parts s 0 (Z.pos m) ltac:(lia) ltac:(lia)) as (P1 & P2 & P3).
      replace (sign_bit s + 0 * 2 ^ 52 + Z.pos m) with (sign_bit s + Z.pos m) in * by lia.
      unfold bits_float. rewrite P1, P2, P3. done.
    + destruct B as [B|B]; [|lia].
      destruct (bits_parts s (e + 1075) (Z.pos m - 2 ^ 52) ltac:(lia) ltac:(lia)) as (P1 & P2 & P3).
      unfold bits_float. rewrite P1, P2, P3.
      rewrite (proj2 (Z.eqb_neq _ _)) by lia. rewrite (proj2 (Z.eqb_neq _ _)) by lia.
      replace (Z.pos m - 2 ^ 52 + 2 ^ 52) with (Z.pos m) by lia. f_equal. lia.
Qed.

Lemma pack_d_length f : length (pack_d f) = 8%nat.
Proof. apply be_bytes_length. Qed.

Lemma pack_d_roundtrip f :
  valid_float f = true -> isnan f = false -> bits_float (be_val (pack_d f)) = f.
Proof.
  intros V N. unfold pack_d. rewrite be_roundtrip; [by apply float_roundtrip|].
  pose proof (float_bits_range f V). simpl. lia.
Qed.
