(* ===== verification/Session.v ===== *)
(** The process session identity ([src/src/cachekit/decorators/session.py]): a
    double-checked lock around a module-level identity, under every interleaving of
    the threads of a process.

    Each read or write of a module global, and each lock operation, is a step of
    its own. *)
From Stdlib Require Import ZArith Lia.
From stdpp Require Import base list numbers option strings gmap relations.
From S2P Require Import Prelude.

Local Open Scope Z_scope.

Inductive accessor := GetSessionId | GetSessionStartMs.

(** The value an accessor returns. *)
Inductive session_value := SessionId (s : pystr) | SessionStart (ms : Z).

(** Where a thread is in an accessor and in [_ensure_session_initialized]. *)
Inductive at_line :=
  | FastPid                (* _session_pid == current_pid, without the lock *)
  | FastId                 (* and _session_id is not None *)
  | AcquireLock
  | CheckPid               (* the same test under the lock *)
  | CheckId
  | WriteStart
  | WriteId
  | WritePid
  | ReleaseLock
  | TestNone               (* if _session_id is None: raise RuntimeError *)
  | ReadField
  | Returned (v : session_value)
  | Raised.

Record thread := mkThread { running : accessor; line : at_line }.

(** The module globals. *)
Record session := mkSession {
  _session_lock : bool;
  _session_pid : option Z;
  _session_id : option pystr;
  _session_start_ms : option Z
}.

Definition _reset_session_state : session := mkSession false None None None.

Definition at_ (t : thread) (l : at_line) : thread := mkThread (running t) l.

Definition field (a : accessor) (g : session) : option session_value :=
  match a with
  | GetSessionId => SessionId <$> _session_id g
  | GetSessionStartMs => SessionStart <$> _session_start_ms g
  end.

(** One step of a thread; [now_ms] and [fresh] are what the clock and [uuid4]
    answer if it asks.  [None]: it is blocked or has finished. *)
Definition _ensure_session_initialized (current_pid now_ms : Z) (fresh : pystr) (t : thread) (g : session)
  : option (thread * session) :=
  let same := bool_decide (_session_pid g = Some current_pid) in
  let known := bool_decide (is_Some (_session_id g)) in
  match line t with
  | FastPid => Some (at_ t (if same then FastId else AcquireLock), g)
  | FastId => Some (at_ t (if known then TestNone else AcquireLock), g)
  | AcquireLock =>
      if _session_lock g then None
      else Some (at_ t CheckPid, mkSession true (_session_pid g) (_session_id g) (_session_start_ms g))
  | CheckPid => Some (at_ t (if same then CheckId else WriteStart), g)
  | CheckId => Some (at_ t (if known then ReleaseLock else WriteStart), g)
  | WriteStart => Some (at_ t WriteId, mkSession (_session_lock g) (_session_pid g) (_session_id g) (Some now_ms))
  | WriteId => Some (at_ t WritePid, mkSession (_session_lock g) (_session_pid g) (Some fresh) (_session_start_ms g))
  | WritePid =>
      Some (at_ t ReleaseLock, mkSession (_session_lock g) (Some current_pid) (_session_id g) (_session_start_ms g))
  | ReleaseLock =>
      Some (at_ t TestNone, mkSession false (_session_pid g) (_session_id g) (_session_start_ms g))
  | _ => None
  end.

(** The accessors: [get_session_id] and [get_session_start_ms]. *)
Definition step (current_pid now_ms : Z) (fresh : pystr) (t : thread) (g : session) : option (thread * session) :=
  match line t with
  | TestNone => Some (at_ t (match field (running t) g with None => Raised | Some _ => ReadField end), g)
  | ReadField => Some (at_ t (match field (running t) g with None => Raised | Some v => Returned v end), g)
  | _ => _ensure_session_initialized current_pid now_ms fresh t g
  end.

(** ** Processes *)

(** The threads of a process that are in an accessor, or have left one. *)
Record process := mkProcess { threads : gmap nat thread; globals : session }.

Inductive process_step (me : Z) : process -> process -> Prop :=
  | Calls p i a : threads p !! i = None ->
      process_step me p (mkProcess (<[i := mkThread a FastPid]> (threads p)) (globals p))
  | Steps p i t now fresh t' g' : threads p !! i = Some t -> step me now fresh t (globals p) = Some (t', g') ->
      process_step me p (mkProcess (<[i := t']> (threads p)) g').

(** A fresh interpreter, or a child after a fork: no accessor is running, the
    lock is free, and an inherited identity is that of another process. *)
Definition starts (me : Z) (p : process) : Prop :=
  threads p = ∅ /\ _session_lock (globals p) = false /\ _session_pid (globals p) <> Some me.

Definition reachable (me : Z) (p : process) : Prop := exists p0, starts me p0 /\ rtc (process_step me) p0 p.

(** ** The invariant *)

Definition holds_lock (l : at_line) : bool :=
  match l with CheckPid | CheckId | WriteStart | WriteId | WritePid | ReleaseLock => true | _ => false end.

(** The identity is published: the pid is this process's, and all is filled in. *)
Definition published (me : Z) (g : session) : Prop :=
  _session_pid g = Some me /\ is_Some (_session_id g) /\ is_Some (_session_start_ms g).

(** What a thread's position says of the globals. *)
Definition knows (me : Z) (g : session) (t : thread) : Prop :=
  match line t with
  | FastPid | AcquireLock | CheckPid => True
  | FastId | CheckId | ReleaseLock | TestNone | ReadField => published me g
  | WriteStart => _session_pid g <> Some me
  | WriteId => _session_pid g <> Some me /\ is_Some (_session_start_ms g)
  | WritePid => _session_pid g <> Some me /\ is_Some (_session_start_ms g) /\ is_Some (_session_id g)
  | Returned v => published me g /\ field (running t) g = Some v
  | Raised => False
  end.

Record inv (me : Z) (p : process) : Prop := mkInv {
  inv_published : _session_pid (globals p) = Some me -> published me (globals p);
  inv_threads : forall i t, threads p !! i = Some t -> knows me (globals p) t;
  inv_lock : forall i t, threads p !! i = Some t -> holds_lock (line t) = true -> _session_lock (globals p) = true;
  inv_owner : forall i j t t', threads p !! i = Some t -> threads p !! j = Some t' ->
    holds_lock (line t) = true -> holds_lock (line t') = true -> i = j;
  inv_held : _session_lock (globals p) = true -> exists i t, threads p !! i = Some t /\ holds_lock (line t) = true
}.

Section Threads.
Context (me : Z).

Local Ltac at_line t := destruct t as [a l]; destruct l; cbn in *.

Lemma published_field g a : published me g -> field a g <> None.
Proof. intros (_ & [s E] & [ms E']). destruct a; cbn; by rewrite ?E, ?E'. Qed.

(** What a step of one thread does, whatever the others do. *)
Lemma step_publishes now fresh t t' g g' : step me now fresh t g = Some (t', g') -> knows me g t ->
  (_session_pid g = Some me -> published me g) -> (_session_pid g' = Some me -> published me g') /\ knows me g' t'.
Proof.
  intros E K P. pose proof (published_field g) as F. unfold step, _ensure_session_initialized, knows in *.
  at_line t; try done.
  all: repeat case_bool_decide; try case_match; simplify_eq/=; unfold published in *; cbn in *.
  all: try tauto; naive_solver.
Qed.

(** A published identity is never written again. *)
Lemma step_stable now fresh t t' g g' : step me now fresh t g = Some (t', g') -> knows me g t -> published me g ->
  published me g' /\ forall a, field a g' = field a g.
Proof.
  unfold step, _ensure_session_initialized, knows. intros E K P. at_line t; try done.
  all: repeat case_bool_decide; try case_match; simplify_eq/=; unfold published in *; try tauto; naive_solver.
Qed.

Lemma knows_stable g g' t : knows me g t -> holds_lock (line t) = false ->
  (published me g -> published me g' /\ forall a, field a g' = field a g) -> knows me g' t.
Proof.
  unfold knows. intros K Hl S. at_line t; try done; try (by apply S).
  destruct K as [Kp Kf]. destruct (S Kp) as [? F]. by rewrite F.
Qed.

(** The lock follows the thread that steps. *)
Lemma step_lock now fresh t t' g g' : step me now fresh t g = Some (t', g') ->
  (holds_lock (line t) = false /\ holds_lock (line t') = true /\ _session_lock g = false /\ _session_lock g' = true) \/
  (holds_lock (line t) = true /\ holds_lock (line t') = false /\ _session_lock g' = false) \/
  (holds_lock (line t') = holds_lock (line t) /\ _session_lock g' = _session_lock g).
Proof.
  unfold step, _ensure_session_initialized. intros E. at_line t; try done.
  all: repeat case_bool_decide; try case_match; simplify_eq/=; tauto.
Qed.

Lemma starts_inv p : starts me p -> inv me p.
Proof.
  intros (E & L & N). split; [done|intros i t H|intros i t H|intros i j t t' H|by rewrite L].
  all: by rewrite E, lookup_empty in H.
Qed.

Lemma calls_inv p i a : inv me p -> threads p !! i = None ->
  inv me (mkProcess (<[i := mkThread a FastPid]> (threads p)) (globals p)).
Proof.
  intros [P K L O H] N. split; cbn; [done| | | |].
  - intros j t. rewrite lookup_insert_Some. intros [[<- <-]|[_ Hj]]; [done|eauto].
  - intros j t. rewrite lookup_insert_Some. intros [[<- <-]|[_ Hj]]; [done|eauto].
  - intros j k t t'. rewrite !lookup_insert_Some.
    intros [[<- <-]|[_ Hj]] [[<- <-]|[_ Hk]]; try done. eauto.
  - intros E. destruct (H E) as (j & t & Hj & Ht). exists j, t. split; [|done].
    rewrite lookup_insert_ne; [done|]. congruence.
Qed.

Lemma steps_inv p i t now fresh t' g' : inv me p -> threads p !! i = Some t ->
  step me now fresh t (globals p) = Some (t', g') -> inv me (mkProcess (<[i := t']> (threads p)) g').
Proof.
  intros [P K L O H] Hi E. pose proof (K i t Hi) as Kt.
  destruct (step_publishes _ _ _ _ _ _ E Kt P) as [P' K'].
  pose proof (step_lock _ _ _ _ _ _ E) as SL.
  (* a thread that does not step and owns the lock keeps the stepper out of it *)
  assert (Other : forall j u, i <> j -> threads p !! j = Some u -> holds_lock (line u) = true ->
    holds_lock (line t) = false /\ holds_lock (line t') = false /\ _session_lock g' = true).
  { intros j u N Hj Hu. pose proof (L j u Hj Hu) as Lk.
    destruct (holds_lock (line t)) eqn:Ht; [by destruct N; eapply O|].
    destruct SL as [(_ & _ & F & _)|[(? & _)|[-> ->]]]; [congruence|done|done]. }
  split; cbn; [done| | | |].
  - intros j u. rewrite lookup_insert_Some. intros [[<- <-]|[N Hj]]; [done|].
    destruct (holds_lock (line u)) eqn:Hu.
    + destruct (Other j u N Hj Hu) as (Ft & Ft' & Lg). pose proof (L j u Hj Hu) as Lk.
      assert (G : g' = globals p).
      { revert E Ft Ft'. unfold step, _ensure_session_initialized. clear -Lk. at_line t; try done.
        all: rewrite ?Lk; repeat case_bool_decide; try case_match; intros; simplify_eq/=; done. }
      rewrite G. eauto.
    + eapply knows_stable; [by eapply K|done|]. intros Pg. by eapply step_stable.
  - intros j u. rewrite lookup_insert_Some. intros [[<- <-]|[N Hj]] Hu; [|by apply (Other j u)].
    destruct SL as [(_ & _ & _ & ?)|[(_ & F & _)|[S ->]]]; [done|congruence|]. rewrite S in Hu. eauto.
  - intros j k u u'. rewrite !lookup_insert_Some. intros [[<- <-]|[N Hj]] [[<- <-]|[N' Hk]] Hu Hu'; try done.
    + destruct (Other k u' N' Hk Hu') as (_ & ? & _). congruence.
    + destruct (Other j u N Hj Hu) as (_ & ? & _). congruence.
    + by eapply O.
  - intros Lg. destruct SL as [(_ & F & _)|[(_ & _ & F)|[S S']]].
    + exists i, t'. by rewrite lookup_insert_eq.
    + congruence.
    + rewrite S' in Lg. destruct (H Lg) as (j & u & Hj & Hu). destruct (decide (i = j)) as [<-|N].
      * exists i, t'. rewrite lookup_insert_eq. split; [done|]. congruence.
      * exists j, u. by rewrite lookup_insert_ne.
Qed.

Lemma session_reachable_inv p : reachable me p -> inv me p.
Proof.
  intros (p0 & H0 & R). apply starts_inv in H0. induction R as [|p p1 p2 S _ IH]; [done|].
  apply IH. destruct S; [by apply calls_inv|by eapply steps_inv].
Qed.
End Threads.

(** ** One identity per process *)

(** However the threads of a process interleave, and whatever identity it
    inherited, no accessor raises, and two calls that have returned agree: the
    session id and its start are minted once per process. *)
Theorem one_identity me p (i j : nat) (t t' : thread) : reachable me p -> threads p !! i = Some t -> threads p !! j = Some t' ->
  line t <> Raised /\
  forall v v', running t = running t' -> line t = Returned v -> line t' = Returned v' -> v = v'.
Proof.
  intros R Hi Hj. pose proof (session_reachable_inv me p R) as I. pose proof (inv_threads _ _ I _ _ Hi) as Ki.
  pose proof (inv_threads _ _ I _ _ Hj) as Kj. unfold knows in *. split.
  - intros E. by rewrite E in Ki.
  - intros v v' Er E E'. rewrite E in Ki. rewrite E' in Kj. destruct Ki as [_ F], Kj as [_ F']. congruence.
Qed.

(** ** No thread waits for ever *)

(** Steps left to a thread that is not kept waiting. *)
Definition remaining (l : at_line) : nat :=
  match l with
  | FastPid => 11 | FastId => 10 | AcquireLock => 9 | CheckPid => 8 | CheckId => 7 | WriteStart => 6
  | WriteId => 5 | WritePid => 4 | ReleaseLock => 3 | TestNone => 2 | ReadField => 1
  | Returned _ | Raised => 0
  end.

Lemma step_remaining me now fresh t t' g g' : step me now fresh t g = Some (t', g') ->
  (remaining (line t') < remaining (line t))%nat.
Proof.
  unfold step, _ensure_session_initialized. intros E. destruct t as [a l]; destruct l; cbn in *; try done.
  all: repeat case_bool_decide; try case_match; simplify_eq/=; lia.
Qed.

Lemma step_enabled me now fresh t g : (0 < remaining (line t))%nat -> line t <> AcquireLock \/ _session_lock g = false ->
  exists r, step me now fresh t g = Some r.
Proof.
  unfold step, _ensure_session_initialized. intros R E. destruct t as [a l]; destruct l; cbn in *; try lia; eauto.
  destruct E as [?| ->]; [done|]. eauto.
Qed.

(** Every thread in an accessor gets out: while one is unfinished some thread
    can step, and a step brings its thread closer to its end, at most eleven steps
    away. *)
Theorem session_progress me p (i : nat) (t : thread) : reachable me p -> threads p !! i = Some t -> (0 < remaining (line t))%nat ->
  (remaining (line t) <= 11)%nat /\
  forall now fresh, exists j u u' g', threads p !! j = Some u /\ step me now fresh u (globals p) = Some (u', g') /\
    (remaining (line u') < remaining (line u))%nat.
Proof.
  intros R Hi Ht. split; [destruct (line t); cbn; lia|]. intros now fresh.
  pose proof (session_reachable_inv me p R) as I.
  assert (exists j u, threads p !! j = Some u /\ (0 < remaining (line u))%nat /\
    (line u <> AcquireLock \/ _session_lock (globals p) = false)) as (j & u & Hj & Hu & Hf).
  { destruct (_session_lock (globals p)) eqn:L; [|by exists i, t; auto].
    destruct (inv_held _ _ I L) as (j & u & Hj & Hu). exists j, u.
    destruct (line u); cbn in *; try done; (split_and!; [done|lia|by left]). }
  destruct (step_enabled me now fresh u (globals p) Hu Hf) as [[u' g'] E].
  exists j, u, u', g'. split_and!; [done|done|]. by eapply step_remaining.
Qed.

(** ** A concrete race *)

(** Two threads pass the fast path before either has the lock. *)
Definition scheduled (me : Z) (p : process) (c : nat * Z * pystr) : process :=
  match threads p !! c.1.1 with
  | Some t =>
      match step me c.1.2 c.2 t (globals p) with
      | Some (t', g') => mkProcess (<[c.1.1 := t']> (threads p)) g'
      | None => p
      end
  | None => p
  end.

Lemma scheduled_step me p c : rtc (process_step me) p (scheduled me p c).
Proof.
  unfold scheduled. destruct (threads p !! c.1.1) as [t|] eqn:E; [|done].
  destruct (step _ _ _ _ _) as [[t' g']|] eqn:S; [|done]. apply rtc_once. by eapply Steps.
Qed.

Lemma schedule_reachable me cs p p' : rtc (process_step me) p p' -> rtc (process_step me) p (foldl (scheduled me) p' cs).
Proof. revert p'. induction cs as [|c cs IH]; intros p' H; [done|]. cbn. apply IH. by etrans; [|apply scheduled_step]. Qed.

(** A forked child: the parent, process 1, left an identity behind. *)
Definition child : process := mkProcess ∅ (mkSession false (Some 1) (Some (u "parent")) (Some 5)).
Definition racing : process :=
  mkProcess {[ 0%nat := mkThread GetSessionId FastPid; 1%nat := mkThread GetSessionId FastPid ]} (globals child).
Definition turns (i : nat) (fresh : pystr) (n : nat) : list (nat * Z * pystr) := replicate n (i, 7, fresh).
Definition race : process :=
  foldl (scheduled 2) racing (turns 0 (u "a") 1 ++ turns 1 (u "b") 3 ++ turns 0 (u "a") 5 ++ turns 1 (u "b") 8 ++ turns 0 (u "a") 8).

Lemma race_reachable : reachable 2 race.
Proof.
  exists child. split; [by split_and!|]. apply schedule_reachable.
  eapply rtc_l; [by apply (Calls 2 child 1%nat GetSessionId)|].
  eapply rtc_l; [by apply (Calls 2 (mkProcess _ _) 0%nat GetSessionId)|]. done.
Qed.

Lemma one_identity_witness :
  SessionId (u "b") = SessionId (u "b") /\ threads race !! 0%nat = Some (mkThread GetSessionId (Returned (SessionId (u "b")))).
Proof.
  assert (E0 : threads race !! 0%nat = Some (mkThread GetSessionId (Returned (SessionId (u "b"))))) by (vm_compute; reflexivity).
  assert (E1 : threads race !! 1%nat = Some (mkThread GetSessionId (Returned (SessionId (u "b"))))) by (vm_compute; reflexivity).
  split; [|exact E0].
  destruct (one_identity 2 race 0 1 _ _ race_reachable E0 E1) as [_ H]. by apply H.
Defined.

Lemma session_progress_witness :
  exists j u u' g', threads racing !! j = Some u /\ step 2 7 [] u (globals racing) = Some (u', g') /\
    (remaining (line u') < remaining (line u))%nat.
Proof.
  assert (R : reachable 2 racing).
  { exists child. split; [by split_and!|].
    eapply rtc_l; [by apply (Calls 2 child 1%nat GetSessionId)|].
    eapply rtc_l; [by apply (Calls 2 (mkProcess _ _) 0%nat GetSessionId)|]. done. }
  assert (E : threads racing !! 0%nat = Some (mkThread GetSessionId FastPid)) by (vm_compute; reflexivity).
  destruct (session_progress 2 racing 0 _ R E) as [_ H]; [cbn; lia|]. apply H.
Defined.
