(* ===== verification/FunctionStats.v ===== *)
(** The statistics of a decorated function ([CacheInfo], [_FunctionStats] and the
    process-wide registry of [src/src/cachekit/decorators/wrapper.py]) and the
    context variable that shows them to backends
    ([src/src/cachekit/decorators/stats_context.py]).

    [now] is what [time.time()] returns, [process_id] what [get_session_id()] does.
    Every method holds the tracker's lock, so a run is a sequence of method calls. *)
From Stdlib Require Import ZArith Lia SpecFloat.
From stdpp Require Import base list sets numbers option strings pretty.
From S2P Require Import Prelude PyFloat PyDict Bytes.

Local Open Scope Z_scope.

Record CacheInfo := mkInfo {
  hits : Z;
  misses : Z;
  l1_hits : Z;
  l2_hits : Z;
  maxsize : option Z;
  currsize : option Z;
  l2_avg_latency_ms : float;
  last_operation_at : option float;
  session_id : option pystr
}.

Record _FunctionStats := mkStats {
  _hits : Z;
  _misses : Z;
  _l1_hits : Z;
  _l2_hits : Z;
  _l2_cumulative_latency_ms : float;
  _l2_cached_avg_ms : float;
  _last_operation_at : option float;
  _function_identifier : pystr;
  _clear_count : Z;
  own_session_id : option pystr;   (* self.session_id *)
  l1_enabled : bool
}.

Definition init (function_identifier : pystr) (l1 : bool) : _FunctionStats :=
  mkStats 0 0 0 0 (S754_zero false) (S754_zero false) None function_identifier 0 None l1.

Definition record_l1_hit (now : float) (s : _FunctionStats) : _FunctionStats :=
  mkStats (_hits s + 1) (_misses s) (_l1_hits s + 1) (_l2_hits s) (_l2_cumulative_latency_ms s)
    (_l2_cached_avg_ms s) (Some now) (_function_identifier s) (_clear_count s) (own_session_id s) (l1_enabled s).

Definition record_l2_hit (now latency_ms : float) (s : _FunctionStats) : _FunctionStats :=
  let n := _l2_hits s + 1 in
  let total := fadd (_l2_cumulative_latency_ms s) latency_ms in
  mkStats (_hits s + 1) (_misses s) (_l1_hits s) n total (fdiv total (fofZ n)) (Some now)
    (_function_identifier s) (_clear_count s) (own_session_id s) (l1_enabled s).

Definition record_miss (now : float) (s : _FunctionStats) : _FunctionStats :=
  mkStats (_hits s) (_misses s + 1) (_l1_hits s) (_l2_hits s) (_l2_cumulative_latency_ms s)
    (_l2_cached_avg_ms s) (Some now) (_function_identifier s) (_clear_count s) (own_session_id s) (l1_enabled s).

Definition with_session (s : _FunctionStats) (i : option pystr) : _FunctionStats :=
  mkStats (_hits s) (_misses s) (_l1_hits s) (_l2_hits s) (_l2_cumulative_latency_ms s) (_l2_cached_avg_ms s)
    (_last_operation_at s) (_function_identifier s) (_clear_count s) i (l1_enabled s).

(** [f"{process_id}:{identifier}"], with ["#n"] after the n-th clear. *)
Definition new_session_id (process_id identifier : pystr) (clears : Z) : pystr :=
  process_id ++ u ":" ++ identifier ++ (if 0 <? clears then u "#" ++ u (pretty clears) else []).

Definition _ensure_session_id (process_id : pystr) (s : _FunctionStats) : pystr * _FunctionStats :=
  match own_session_id s with
  | Some i => (i, s)
  | None =>
      let i := new_session_id process_id (_function_identifier s) (_clear_count s) in
      (i, with_session s (Some i))
  end.

Definition get_info (process_id : pystr) (s : _FunctionStats) : CacheInfo * _FunctionStats :=
  let (i, s') := _ensure_session_id process_id s in
  (mkInfo (_hits s') (_misses s') (_l1_hits s') (_l2_hits s') None None (_l2_cached_avg_ms s')
     (_last_operation_at s') (Some i), s').

Definition clear (s : _FunctionStats) : _FunctionStats :=
  mkStats 0 0 0 0 (S754_zero false) (S754_zero false) None (_function_identifier s) (_clear_count s + 1) None
    (l1_enabled s).

Definition _reset_for_new_process (s : _FunctionStats) : _FunctionStats :=
  mkStats 0 0 0 0 (S754_zero false) (S754_zero false) None (_function_identifier s) 0 None (l1_enabled s).

(** ** The registry *)

Abbreviation registry := (list (pystr * _FunctionStats)).

Definition with_l1 (s : _FunctionStats) (l1 : bool) : _FunctionStats :=
  mkStats (_hits s) (_misses s) (_l1_hits s) (_l2_hits s) (_l2_cumulative_latency_ms s) (_l2_cached_avg_ms s)
    (_last_operation_at s) (_function_identifier s) (_clear_count s) (own_session_id s) l1.

(** The tracker of an identifier; the flag of the newest decoration wins. *)
Definition _get_function_stats (function_identifier : pystr) (l1 : bool) (r : registry) : registry :=
  match od_get function_identifier r with
  | None => od_set function_identifier (init function_identifier l1) r
  | Some s => od_set function_identifier (with_l1 s l1) r
  end.

Definition _reset_stats_after_fork (r : registry) : registry := prod_map id _reset_for_new_process <$> r.

(** ** The context variable *)

(** The identifier of the tracker it holds; a token is the value it had. *)
Definition set_current_function_stats (stats : option pystr) (var : option pystr) : option pystr * option pystr :=
  (var, stats).
Definition reset_current_function_stats (token : option pystr) (var : option pystr) : option pystr := token.
Definition get_current_function_stats (var : option pystr) : option pystr := var.

(** ** Runs of one tracker *)

(** What happens to a tracker; a run follows a fork into the child, whose process
    has an identifier of its own. *)
Inductive event :=
  | L1Hit (now : float)
  | L2Hit (now latency_ms : float)
  | Miss (now : float)
  | Info                      (* cache_info(), or the headers of a backend request *)
  | Clear
  | Redecorated (l1 : bool)
  | Fork (process_id : pystr).

(** The process identifier, the tracker and the reports made, newest first. *)
Definition trace : Type := pystr * _FunctionStats * list CacheInfo.

Definition step (t : trace) (e : event) : trace :=
  let '(p, s, rs) := t in
  match e with
  | L1Hit now => (p, record_l1_hit now s, rs)
  | L2Hit now l => (p, record_l2_hit now l s, rs)
  | Miss now => (p, record_miss now s, rs)
  | Info => let (i, s') := get_info p s in (p, s', i :: rs)
  | Clear => (p, clear s, rs)
  | Redecorated l1 => (p, with_l1 s l1, rs)
  | Fork q => (q, _reset_for_new_process s, rs)
  end.

Definition run (t : trace) (es : list event) : trace := foldl step t es.

(** The process identifiers of a run. *)
Definition forked (e : event) : list pystr := match e with Fork q => [q] | _ => [] end.
Definition processes (es : list event) : list pystr := es ≫= forked.

(** Counters that did not go backwards. *)
Definition counters_le (a b : CacheInfo) : Prop :=
  hits a <= hits b /\ misses a <= misses b /\ l1_hits a <= l1_hits b /\ l2_hits a <= l2_hits b.

(** [hits] counts both tiers. *)
Definition consistent (i : CacheInfo) : Prop := hits i = l1_hits i + l2_hits i /\ 0 <= l1_hits i /\ 0 <= l2_hits i /\ 0 <= misses i.

(** ** Session identifiers *)

Lemma new_session_id_inj p q f c d : length p = length q -> 0 <= c -> 0 <= d ->
  new_session_id p f c = new_session_id q f d -> p = q /\ c = d.
Proof.
  intros L Hc Hd E. unfold new_session_id in E. apply app_inj_1 in E as [-> E]; [|done]. split; [done|].
  apply app_inv_head, app_inv_head in E.
  destruct (0 <? c) eqn:Ec, (0 <? d) eqn:Ed; zbool; try done; [|lia].
  apply app_inv_head, (inj u), (inj pretty) in E. done.
Qed.

(** What a report says, given where it was made. *)
Definition made_by (f : pystr) (q : pystr) (c : Z) (i : CacheInfo) : Prop :=
  0 <= c /\ session_id i = Some (new_session_id q f c) /\ consistent i.

Definition counters (s : _FunctionStats) : CacheInfo :=
  mkInfo (_hits s) (_misses s) (_l1_hits s) (_l2_hits s) None None (_l2_cached_avg_ms s) (_last_operation_at s) None.

(** The reports of [rs] against the present counters and one another. *)
Definition no_replay (rs : list CacheInfo) : Prop :=
  forall i j a b, (i < j)%nat -> rs !! i = Some b -> rs !! j = Some a -> session_id a = session_id b -> counters_le a b.

Record ok (seen : list pystr) (t : trace) : Prop := mkOk {
  ok_seen : t.1.1 ∈ seen;
  ok_length : Forall (fun q => length q = length t.1.1) seen;
  ok_clears : 0 <= _clear_count t.1.2;
  ok_counters : consistent (counters t.1.2);
  ok_own : forall i, own_session_id t.1.2 = Some i ->
    i = new_session_id t.1.1 (_function_identifier t.1.2) (_clear_count t.1.2);
  ok_reports : Forall (fun i => exists q c, q ∈ seen /\ made_by (_function_identifier t.1.2) q c i /\
    (q = t.1.1 -> c <= _clear_count t.1.2 /\ (c = _clear_count t.1.2 -> counters_le i (counters t.1.2)))) t.2;
  ok_replay : no_replay t.2
}.

(** An operation that only lets the counters grow. *)
Lemma ok_grows seen p s s' rs : ok seen (p, s, rs) -> _function_identifier s' = _function_identifier s ->
  _clear_count s' = _clear_count s -> own_session_id s' = own_session_id s ->
  counters_le (counters s) (counters s') -> consistent (counters s') -> ok seen (p, s', rs).
Proof.
  intros [Hs Hl Hc Hk Ho Hr Hp] Ef Ec Eo Le K. split; cbn in *; try done; rewrite ?Ef, ?Ec, ?Eo; try done.
  apply (list.Forall_impl _ _ _ Hr). intros i (q & c & Hq & M & F). exists q, c. split_and!; [done|done|].
  intros E. destruct (F E) as [? G]. split; [done|]. intros Ecc. specialize (G Ecc).
  unfold counters_le in *. cbn in *. lia.
Qed.

(** [cache_info()] reports the counters under the identifier of the process and
    the number of clears, and changes nothing else. *)
Lemma get_info_spec p s :
  (forall i, own_session_id s = Some i -> i = new_session_id p (_function_identifier s) (_clear_count s)) ->
  let i := new_session_id p (_function_identifier s) (_clear_count s) in
  get_info p s =
    (mkInfo (_hits s) (_misses s) (_l1_hits s) (_l2_hits s) None None (_l2_cached_avg_ms s)
       (_last_operation_at s) (Some i), with_session s (Some i)).
Proof.
  intros Ho i. unfold get_info, _ensure_session_id. destruct (own_session_id s) as [x|] eqn:E; [|done].
  unfold i. rewrite <- (Ho x eq_refl). destruct s. cbn in *. by subst.
Qed.

Lemma ok_info seen p s rs : ok seen (p, s, rs) -> ok seen (step (p, s, rs) Info).
Proof.
  intros [Hs Hl Hc Hk Ho Hr Hp]. cbn [fst snd] in *. cbn [step]. rewrite (get_info_spec p s Ho).
  set (i := new_session_id p (_function_identifier s) (_clear_count s)). split; cbn [fst snd]; try done.
  - intros x [= <-]. done.
  - constructor; [|done]. exists p, (_clear_count s). split_and!; [done|done|]. intros _. split; [cbn; lia|].
    intros _. unfold counters_le. cbn. lia.
  - intros [|n] [|m] a b N Hb Ha Es; cbn in Hb, Ha; try lia; [|by eapply (Hp n m a b); [lia|..]].
    injection Hb as <-. rewrite Forall_lookup in Hr. destruct (Hr m a Ha) as (q & c & Hq & (Hcc & Si & _) & G).
    rewrite Si in Es. cbn [session_id] in Es. injection Es as Es.
    rewrite Forall_forall in Hl. apply new_session_id_inj in Es as [-> ->]; [|by apply Hl|done|done].
    by apply G.
Qed.

Lemma ok_step seen t e : ok seen t -> NoDup (seen ++ forked e) -> Forall (fun q => length q = length t.1.1) (forked e) ->
  ok (seen ++ forked e) (step t e).
Proof.
  destruct t as [[p s] rs]. intros I N L. pose proof I as [Hs Hl Hc Hk Ho Hr Hp].
  destruct e as [now|now l|now| | |l1|q]; cbn [forked] in *; rewrite ?app_nil_r in *.
  - apply (ok_grows _ _ s); try done; unfold counters_le, consistent in *; cbn in *; lia.
  - apply (ok_grows _ _ s); try done; unfold counters_le, consistent in *; cbn in *; lia.
  - apply (ok_grows _ _ s); try done; unfold counters_le, consistent in *; cbn in *; lia.
  - by apply ok_info.
  - split; cbn in *; try done; [lia|]. apply (list.Forall_impl _ _ _ Hr). intros i (q & c & Hq & M & F).
    exists q, c. split_and!; [done|done|]. intros E. destruct (F E). split; [lia|]. intros ->. lia.
  - apply (ok_grows _ _ s); try done; unfold counters_le, consistent in *; cbn in *; lia.
  - rewrite Forall_singleton in L. cbn in *. split; cbn; try done.
    + set_solver.
    + rewrite L. apply Forall_app. split; [done|]. by apply Forall_singleton.
    + apply (list.Forall_impl _ _ _ Hr). intros i (r & c & Hq & M & F).
      exists r, c. split_and!; [set_solver|done|]. intros ->. apply NoDup_app in N as (_ & D & _).
      destruct (D q Hq). set_solver.
Qed.

Lemma ok_run t es seen : ok seen t -> NoDup (seen ++ processes es) ->
  Forall (fun q => length q = length t.1.1) (processes es) -> ok (seen ++ processes es) (run t es).
Proof.
  revert t seen. induction es as [|e es IH]; intros t seen I N L.
  - cbn in *. by rewrite app_nil_r.
  - unfold processes in *. cbn in *. rewrite app_assoc in *. apply Forall_app in L as [Le Les].
    assert (I' : ok (seen ++ forked e) (step t e)) by (apply ok_step; [done|by apply NoDup_app in N as (? & _)|done]).
    apply IH; [done|done|].
    apply (list.Forall_impl _ _ _ Les). intros q Hq.
    pose proof (ok_length _ _ I') as Hl'. rewrite Forall_forall in Hl'. pose proof (ok_length _ _ I) as Hl.
    rewrite Forall_forall in Hl.
    rewrite Hq, <- (Hl' (t.1.1)); [done|]. apply elem_of_app. left. apply (ok_seen _ _ I).
Qed.

(** Under one session identifier the reported counters never go backwards, and
    [hits] is the sum of both tiers, in every run of recording, reporting,
    clearing, re-decorating and forking: a server that rejects decreasing counters
    never rejects a report. *)
Theorem counters_never_go_back p f l1 es i j older newer :
  NoDup (p :: processes es) -> Forall (fun q => length q = length p) (processes es) ->
  let reports := (run (p, init f l1, []) es).2 in
  (i < j)%nat -> reports !! i = Some newer -> reports !! j = Some older ->
  consistent newer /\ (session_id older = session_id newer -> counters_le older newer).
Proof.
  intros N L reports Hij Hi Hj.
  assert (I : ok [p] (p, init f l1, [])).
  { split; cbn; try done; [set_solver|by apply Forall_singleton]. }
  apply (ok_run _ es) in I; [|done|done]. split; [|intros E; by eapply (ok_replay _ _ I)].
  pose proof (ok_reports _ _ I) as R. rewrite Forall_lookup in R. by destruct (R i newer Hi) as (q & c & _ & (_ & _ & K) & _).
Qed.

Lemma counters_never_go_back_witness :
  let reports := (run (u "p1", init (u "m.f") true, [])
    [L1Hit (fofZ 1); Info; Clear; Miss (fofZ 2); Info; Fork (u "p2"); Info]).2 in
  (session_id <$> reports) = [Some (u "p2:m.f"); Some (u "p1:m.f#1"); Some (u "p1:m.f")] /\
  forall older newer, reports !! 1%nat = Some newer -> reports !! 2%nat = Some older -> consistent newer.
Proof.
  split; [vm_compute; reflexivity|]. intros older newer Hn Ho.
  refine (proj1 (counters_never_go_back (u "p1") (u "m.f") true
    [L1Hit (fofZ 1); Info; Clear; Miss (fofZ 2); Info; Fork (u "p2"); Info] 1 2 older newer _ _ _ Hn Ho)).
  - cbn. repeat constructor; set_solver.
  - cbn. repeat constructor.
  - lia.
Defined.

(** Decorating a function again keeps its counters; forking the registry zeroes
    every tracker and forgets every session identifier. *)
Lemma redecoration_keeps_counters f l1 r s : od_get f r = Some s ->
  od_get f (_get_function_stats f l1 r) = Some (with_l1 s l1).
Proof. intros E. unfold _get_function_stats. rewrite E. apply od_get_set_eq. Qed.

Lemma fork_resets f r s : od_get f (_reset_stats_after_fork r) = Some s ->
  counters s = counters (init f true) /\ own_session_id s = None /\ _clear_count s = 0.
Proof.
  unfold _reset_stats_after_fork. induction r as [|[k x] r IH]; cbn; [done|].
  case_decide; [intros [= <-]; done|done].
Qed.
