(* ===== verification/L1Cache.v ===== *)
(** The in-memory L1 cache of [src/src/cachekit/l1_cache.py], class [L1Cache]:
    raw bytes under a TTL and a byte budget, least recently used first.

    The store is the [OrderedDict] itself (oldest first); [current_memory_bytes]
    is the counter the code maintains by hand, kept apart from [resident], the
    bytes the store really holds.  [now] is the value [time.time()] returns. *)
From Stdlib Require Import ZArith Lia SpecFloat.
From stdpp Require Import base list numbers option strings.
From S2P Require Import Prelude PyFloat PyDict.

Local Open Scope Z_scope.
Local Open Scope py_scope.

Record CacheEntry := mkCacheEntry {
  value : pybytes;
  expires_at : float;
  size_bytes : Z
}.

Definition is_expired (now : float) (e : CacheEntry) : bool :=
  fge now (expires_at e).

Record L1Cache := mkL1Cache {
  max_memory_bytes : Z;
  ttl_buffer_seconds : float;
  namespace : pystr;
  cache : list (pystr * CacheEntry);
  current_memory_bytes : Z;
  eviction_count : Z;
  hits : Z;
  misses : Z;
  evictions : Z;
  expired_evictions : Z
}.

(** [L1Cache(max_memory_mb, ttl_buffer_seconds, namespace)] *)
Definition init (max_memory_mb : Z) (ttl_buffer : float) (ns : pystr) : L1Cache :=
  mkL1Cache (max_memory_mb * 1024 * 1024) ttl_buffer ns [] 0 0 0 0 0 0.

Definition set_store (c : L1Cache) (d : list (pystr * CacheEntry)) (mem : Z) : L1Cache :=
  mkL1Cache (max_memory_bytes c) (ttl_buffer_seconds c) (namespace c) d mem
    (eviction_count c) (hits c) (misses c) (evictions c) (expired_evictions c).

Definition add_stats (c : L1Cache) (h m ev ex : Z) : L1Cache :=
  mkL1Cache (max_memory_bytes c) (ttl_buffer_seconds c) (namespace c) (cache c)
    (current_memory_bytes c) (eviction_count c) (hits c + h) (misses c + m)
    (evictions c + ev) (expired_evictions c + ex).

Definition _estimate_size (v : pybytes) : Z := zlen v.

Definition _remove_entry (k : pystr) (c : L1Cache) : L1Cache :=
  match od_get k (cache c) with
  | Some e =>
      set_store c (od_pop k (cache c)) (current_memory_bytes c - size_bytes e)
  | None => c
  end.

(** [get]: the pair [(found, value)] is the option. *)
Definition get (now : float) (k : pystr) (c : L1Cache) : option pybytes * L1Cache :=
  match od_get k (cache c) with
  | None => (None, add_stats c 0 1 0 0)
  | Some e =>
      if is_expired now e
      then (None, add_stats (_remove_entry k c) 0 1 0 1)
      else
        let c' := set_store c (od_move_to_end k (cache c)) (current_memory_bytes c) in
        (Some (value e), add_stats c' 1 0 0 0)
  end.

(** The loop of [_evict_for_space] over the items, oldest first: the keys to
    remove, the memory counter and the number of evictions counted. *)
Fixpoint evict_scan (max needed : Z) (items : list (pystr * CacheEntry)) (mem : Z)
  : list pystr * Z * Z :=
  match items with
  | [] => ([], mem, 0)
  | (k, e) :: r =>
      if mem + needed <=? max then ([], mem, 0)
      else
        let '(ks, mem', n) := evict_scan max needed r (mem - size_bytes e) in
        (k :: ks, mem', 1 + n)
  end.

Definition pop_all (ks : list pystr) (d : list (pystr * CacheEntry)) :=
  foldl (fun d k => od_pop k d) d ks.

Definition _evict_for_space (needed : Z) (c : L1Cache) : L1Cache :=
  if current_memory_bytes c + needed <=? max_memory_bytes c then c
  else
    let '(ks, mem, n) :=
      evict_scan (max_memory_bytes c) needed (cache c) (current_memory_bytes c) in
    add_stats (set_store c (pop_all ks (cache c)) mem) 0 0 n 0.

(** What reaches [put] as [value]: exact [bytes], or anything else (a
    [memoryview], a [bytearray], ...), which the guard refuses. *)
Inductive put_value := VBytes (b : pybytes) | VOther.

(** The expiry [put] computes from its TTL arguments. *)
Definition put_expiry (now : float) (redis_ttl abs_expiry : option float) (c : L1Cache)
  : float :=
  match abs_expiry, redis_ttl with
  | Some x, _ => fsub x (ttl_buffer_seconds c)
  | None, Some t => fsub (fadd now t) (ttl_buffer_seconds c)
  | None, None => fsub (fadd now (fofZ 300)) (ttl_buffer_seconds c)
  end.

Definition storable (now expiry : float) : bool :=
  isfinite expiry && negb (fle expiry now).

(** [put] on a present key first takes the old entry's bytes off the counter;
    the entry itself stays in the store. *)
Definition discount_old (k : pystr) (c : L1Cache) : L1Cache :=
  match od_get k (cache c) with
  | Some old => set_store c (cache c) (current_memory_bytes c - size_bytes old)
  | None => c
  end.

Definition put (now : float) (k : pystr) (v : put_value)
    (redis_ttl abs_expiry : option float) (c : L1Cache) : result py_exn L1Cache :=
  match v with
  | VOther => Err TypeError
  | VBytes b =>
      let expiry := put_expiry now redis_ttl abs_expiry c in
      if negb (isfinite expiry) || fle expiry now then Ok c
      else
        let size := _estimate_size b in
        if max_memory_bytes c <? size then
          Ok (if od_mem k (cache c) then _remove_entry k c else c)
        else
          let c2 := _evict_for_space size (discount_old k c) in
          let e := mkCacheEntry b expiry size in
          let c3 := set_store c2 (od_set k e (cache c2)) (current_memory_bytes c2 + size) in
          Ok (set_store c3 (od_move_to_end k (cache c3)) (current_memory_bytes c3))
  end.

Definition invalidate (k : pystr) (c : L1Cache) : L1Cache := _remove_entry k c.

Definition clear (c : L1Cache) : L1Cache := set_store c [] 0.

Definition expired_keys (now : float) (c : L1Cache) : list pystr :=
  od_keys (filter (fun p => is_expired now p.2 = true) (cache c)).

Definition cleanup_expired (now : float) (c : L1Cache) : Z * L1Cache :=
  let ks := expired_keys now c in
  (zlen ks, foldl (fun c k => add_stats (_remove_entry k c) 0 0 0 1) c ks).

Record Stats := mkStats {
  st_namespace : pystr;
  st_entries : Z;
  st_memory_used_mb : float;
  st_memory_limit_mb : float;
  st_memory_usage_percent : float;
  st_hits : Z;
  st_misses : Z;
  st_hit_rate : float;
  st_evictions : Z;
  st_expired_evictions : Z;
  st_total_requests : Z
}.

Definition get_stats (c : L1Cache) : result py_exn Stats :=
  let total := hits c + misses c in
  rate <-! (if 0 <? total then fdivZ (hits c) total else Ok (S754_zero false));
  used <-! fdivZ (current_memory_bytes c) (1024 * 1024);
  limit <-! fdivZ (max_memory_bytes c) (1024 * 1024);
  ratio <-! fdivZ (current_memory_bytes c) (max_memory_bytes c);
  Ok (mkStats (namespace c) (zlen (cache c)) used limit (fmul ratio (fofZ 100))
        (hits c) (misses c) rate (evictions c) (expired_evictions c) total).

(** ** Runs of the cache *)

Inductive op :=
  | OGet (now : float) (k : pystr)
  | OPut (now : float) (k : pystr) (v : put_value) (redis_ttl abs_expiry : option float)
  | OInvalidate (k : pystr)
  | OClear
  | OCleanup (now : float).

(** A refused [put] raises before it touches the cache. *)
Definition step (c : L1Cache) (o : op) : L1Cache :=
  match o with
  | OGet now k => (get now k c).2
  | OPut now k v t x => match put now k v t x c with Ok c' => c' | Err _ => c end
  | OInvalidate k => invalidate k c
  | OClear => clear c
  | OCleanup now => (cleanup_expired now c).2
  end.

Definition run (c : L1Cache) (os : list op) : L1Cache := foldl step c os.

(** ** Invariants *)

(** The bytes the store holds. *)
Definition resident (c : L1Cache) : Z := od_total size_bytes (cache c).

(** An entry records its own size, fits the budget and can expire. *)
Definition entry_ok (max : Z) (p : pystr * CacheEntry) : Prop :=
  size_bytes p.2 = zlen (value p.2) /\ size_bytes p.2 <= max /\
  isfinite (expires_at p.2) = true.

Record inv (c : L1Cache) : Prop := mkInv {
  inv_keys : od_wf (cache c);
  inv_entries : Forall (entry_ok (max_memory_bytes c)) (cache c);
  inv_counter_resident : current_memory_bytes c <= resident c;
  inv_counter_max : current_memory_bytes c <= max_memory_bytes c
}.

(** The counter is exact. *)
Definition accounted (c : L1Cache) : Prop := current_memory_bytes c = resident c.

Lemma entry_ok_nonneg max d :
  Forall (entry_ok max) d -> Forall (fun p => 0 <= size_bytes p.2) d.
Proof.
  intros H. apply (list.Forall_impl _ _ _ H). intros p (E & _ & _). rewrite E.
  apply zlen_nonneg.
Qed.

Lemma entry_ok_Forall_drop max j d : Forall (entry_ok max) d -> Forall (entry_ok max) (drop j d).
Proof. apply list.Forall_drop. Qed.

#[local] Hint Resolve entry_ok_nonneg entry_ok_Forall_drop : pydb.

(** ** Eviction *)

(** The scan stops at the first prefix whose removal makes room. *)
Lemma evict_scan_spec max needed items mem ks mem' n :
  evict_scan max needed items mem = (ks, mem', n) ->
  exists j, (j <= length items)%nat /\ ks = od_keys (take j items) /\
    mem' = mem - od_total size_bytes (take j items) /\ n = Z.of_nat j /\
    (mem' + needed <= max \/ j = length items) /\
    forall i, (i < j)%nat -> max < mem - od_total size_bytes (take i items) + needed.
Proof.
  revert mem ks mem' n. induction items as [|[k e] r IH]; intros mem ks mem' n; simpl.
  - intros [= <- <- <-]. exists 0%nat. simpl. change (od_total size_bytes []) with 0.
    split_and!; [lia|done|lia|done|by right|lia].
  - destruct (_ <=? _) eqn:E; zbool.
    + intros [= <- <- <-]. exists 0%nat. simpl. change (od_total size_bytes []) with 0.
      split_and!; [lia|done|lia|done|left; lia|lia].
    + destruct (evict_scan max needed r (mem - size_bytes e)) as [[ks1 m1] n1] eqn:E1.
      intros [= <- <- <-]. destruct (IH _ _ _ _ E1) as (j & Hj & -> & -> & -> & Hstop & Hmin).
      exists (S j). simpl. rewrite od_total_cons. split_and!; try done; try lia.
      intros [|i] Hi; simpl; [change (od_total size_bytes []) with 0; lia|].
      rewrite od_total_cons. specialize (Hmin i). lia.
Qed.

(** [_evict_for_space] drops the shortest prefix of the recency order that
    makes room, and everything when none does. *)
Lemma evict_spec needed c :
  exists j, (j <= length (cache c))%nat /\
    _evict_for_space needed c =
      add_stats (set_store c (drop j (cache c))
        (current_memory_bytes c - od_total size_bytes (take j (cache c))))
        0 0 (Z.of_nat j) 0 /\
    (current_memory_bytes c - od_total size_bytes (take j (cache c)) + needed
       <= max_memory_bytes c \/ j = length (cache c)) /\
    forall i, (i < j)%nat ->
      max_memory_bytes c <
      current_memory_bytes c - od_total size_bytes (take i (cache c)) + needed.
Proof.
  unfold _evict_for_space. destruct (_ <=? _) eqn:E; zbool.
  - exists 0%nat. change (od_total size_bytes (take 0 (cache c))) with 0.
    rewrite Z.sub_0_r. split; [lia|]. split; [|split; [by left|lia]].
    destruct c; unfold add_stats, set_store; simpl. by rewrite !Z.add_0_r.
  - destruct (evict_scan _ _ _ _) as [[ks m] n] eqn:Es.
    destruct (evict_scan_spec _ _ _ _ _ _ _ Es) as (j & Hj & -> & -> & -> & Hs & Hm).
    exists j. split; [done|]. split; [|done].
    unfold pop_all. by rewrite od_pop_prefix.
Qed.

(** ** The branches of [put] *)

Definition old_size (k : pystr) (c : L1Cache) : Z :=
  match od_get k (cache c) with Some old => size_bytes old | None => 0 end.

(** The shape of the cache after [put] stores [b]: [j] entries evicted from the
    old end, the key's entry rewritten at the recent end. *)
Lemma put_stores now k b t x c :
  storable now (put_expiry now t x c) = true ->
  zlen b <= max_memory_bytes c ->
  exists c' j, put now k (VBytes b) t x c = Ok c' /\ (j <= length (cache c))%nat /\
    max_memory_bytes c' = max_memory_bytes c /\
    ttl_buffer_seconds c' = ttl_buffer_seconds c /\
    cache c' = od_pop k (drop j (cache c)) ++
      [(k, mkCacheEntry b (put_expiry now t x c) (zlen b))] /\
    current_memory_bytes c' =
      current_memory_bytes c - old_size k c
      - od_total size_bytes (take j (cache c)) + zlen b /\
    (current_memory_bytes c' <= max_memory_bytes c \/ j = length (cache c)) /\
    (forall i, (i < j)%nat ->
       max_memory_bytes c < current_memory_bytes c - old_size k c
         - od_total size_bytes (take i (cache c)) + zlen b) /\
    evictions c' = evictions c + Z.of_nat j.
Proof.
  unfold storable. intros Hst Hsz. zbool.
  unfold put, _estimate_size. rewrite H, H0. simpl.
  rewrite (proj2 (Z.ltb_ge _ _)) by lia.
  set (c1 := discount_old k c).
  assert (cache c1 = cache c /\ max_memory_bytes c1 = max_memory_bytes c /\
    ttl_buffer_seconds c1 = ttl_buffer_seconds c /\
    evictions c1 = evictions c /\
    current_memory_bytes c1 = current_memory_bytes c - old_size k c) as (E1 & E2 & E5 & E4 & E3).
  { unfold c1, discount_old, old_size. destruct (od_get k (cache c)); simpl; repeat split; lia. }
  clearbody c1. destruct (evict_spec (zlen b) c1) as (j & Hj & Ev & Hs & Hm).
  rewrite Ev. rewrite E1, E2, E3 in *. eexists _, j. split; [done|].
  simpl. rewrite od_move_set, ?E1, ?E2, ?E3, ?E4, ?E5. split_and!; try done; lia.
Qed.

(** Without pressure nothing is evicted. *)
Lemma put_fits now k b t x c :
  storable now (put_expiry now t x c) = true ->
  current_memory_bytes c - old_size k c + zlen b <= max_memory_bytes c ->
  zlen b <= max_memory_bytes c ->
  exists c', put now k (VBytes b) t x c = Ok c' /\
    max_memory_bytes c' = max_memory_bytes c /\
    ttl_buffer_seconds c' = ttl_buffer_seconds c /\
    cache c' = od_pop k (cache c) ++ [(k, mkCacheEntry b (put_expiry now t x c) (zlen b))] /\
    current_memory_bytes c' = current_memory_bytes c - old_size k c + zlen b.
Proof.
  intros Hst Hf Hs.
  destruct (put_stores now k b t x c Hst Hs)
    as (c1 & j & E & Hj & Em & Eb & Ec & Eu & _ & Hmin & _).
  assert (j = 0%nat) as ->.
  { destruct j as [|j]; [done|]. specialize (Hmin 0%nat).
    change (od_total size_bytes (take 0 (cache c))) with 0 in Hmin. lia. }
  rewrite drop_0 in Ec. change (od_total size_bytes (take 0 (cache c))) with 0 in Eu.
  exists c1. split_and!; try done. lia.
Qed.

(** The resident bytes after such a [put], by the place of the old entry. *)
Lemma resident_rewrite (k : pystr) v j (d : list (pystr * CacheEntry)) :
  od_total size_bytes (od_pop k (drop j d) ++ [(k, v)]) =
  od_total size_bytes d - od_total size_bytes (take j d)
  - match od_get k (drop j d) with Some o => size_bytes o | None => 0 end
  + size_bytes v.
Proof.
  rewrite od_total_app, od_total_cons. change (od_total size_bytes []) with 0.
  rewrite <- (od_total_take_drop size_bytes j d).
  destruct (od_get k (drop j d)) as [o|] eqn:E.
  - rewrite (od_total_pop _ _ _ _ E). lia.
  - rewrite (od_pop_None _ _ E). lia.
Qed.

Lemma old_size_nonneg k c : inv c -> 0 <= old_size k c.
Proof.
  intros [Hk He _ _]. unfold old_size. destruct (od_get k (cache c)) as [o|] eqn:E; [|lia].
  by apply (od_Forall_get _ _ _ _ (entry_ok_nonneg _ _ He)) in E.
Qed.

Lemma _remove_entry_inv k c : inv c -> inv (_remove_entry k c).
Proof.
  intros [Hk He Hr Hm]. unfold _remove_entry.
  destruct (od_get k (cache c)) as [e|] eqn:E; [|by constructor].
  pose proof (od_Forall_get _ _ _ _ (entry_ok_nonneg _ _ He) E) as P. simpl in P.
  constructor; simpl; auto with pydb; unfold resident in *; simpl;
    rewrite ?(od_total_pop _ _ _ _ E); lia.
Qed.

Lemma _remove_entry_accounted k c : accounted c -> accounted (_remove_entry k c).
Proof.
  unfold accounted, resident, _remove_entry. intros H.
  destruct (od_get k (cache c)) as [e|] eqn:E; simpl; [|done].
  rewrite (od_total_pop _ _ _ _ E). lia.
Qed.

Lemma add_stats_inv c h m ev ex : inv (add_stats c h m ev ex) <-> inv c.
Proof. split; intros [? ? ? ?]; by constructor. Qed.

Lemma add_stats_accounted c h m ev ex : accounted (add_stats c h m ev ex) <-> accounted c.
Proof. done. Qed.

Lemma l1_get_inv now k c : inv c -> inv (get now k c).2.
Proof.
  intros H. unfold get. destruct (od_get k (cache c)) as [e|]; simpl.
  - destruct (is_expired now e); simpl; apply add_stats_inv.
    + by apply _remove_entry_inv.
    + destruct H as [Hk He Hr Hm]. constructor; simpl; auto with pydb.
      unfold resident in *; simpl. by rewrite od_total_move.
  - by apply add_stats_inv.
Qed.

Lemma get_accounted now k c : accounted c -> accounted (get now k c).2.
Proof.
  intros H. unfold get. destruct (od_get k (cache c)) as [e|]; simpl.
  - destruct (is_expired now e); simpl; apply add_stats_accounted.
    + by apply _remove_entry_accounted.
    + unfold accounted, resident in *; simpl. by rewrite od_total_move.
  - done.
Qed.

Definition cleanup_keys (ks : list pystr) (c : L1Cache) : L1Cache :=
  foldl (fun c k => add_stats (_remove_entry k c) 0 0 0 1) c ks.

Lemma cleanup_keys_inv ks c : inv c -> inv (cleanup_keys ks c).
Proof.
  revert c. induction ks as [|k ks IH]; intros c H; simpl; [done|].
  apply IH, add_stats_inv, _remove_entry_inv, H.
Qed.

Lemma cleanup_keys_accounted ks c : accounted c -> accounted (cleanup_keys ks c).
Proof.
  revert c. induction ks as [|k ks IH]; intros c H; simpl; [done|].
  apply IH, add_stats_accounted, _remove_entry_accounted, H.
Qed.

Lemma put_skips now k b t x c :
  storable now (put_expiry now t x c) = false -> put now k (VBytes b) t x c = Ok c.
Proof.
  unfold storable, put. intros H.
  destruct (isfinite _), (fle _ _); simpl in *; done.
Qed.

Lemma put_oversized now k b t x c :
  storable now (put_expiry now t x c) = true -> max_memory_bytes c < zlen b ->
  put now k (VBytes b) t x c = Ok (_remove_entry k c).
Proof.
  unfold storable, put, _estimate_size. intros H Hs. zbool. rewrite H, H0. simpl.
  rewrite (proj2 (Z.ltb_lt _ _) Hs). f_equal. unfold od_mem, _remove_entry.
  by destruct (od_get k (cache c)).
Qed.

Lemma storable_finite now x : storable now x = true -> isfinite x = true.
Proof. unfold storable. intros. by zbool. Qed.

Lemma l1_put_inv now k v t x c c' : inv c -> put now k v t x c = Ok c' -> inv c'.
Proof.
  intros Hi. destruct v as [b|]; [|done].
  destruct (storable now (put_expiry now t x c)) eqn:Hst;
    [|rewrite put_skips by done; by intros [= <-]].
  destruct (Z.lt_ge_cases (max_memory_bytes c) (zlen b)) as [Hs|Hs].
  { rewrite put_oversized by done. intros [= <-]. by apply _remove_entry_inv. }
  destruct (put_stores now k b t x c Hst Hs)
    as (c1 & j & -> & Hj & Em & _ & Ec & Eu & Hstop & _ & _). intros [= <-].
  pose proof (old_size_nonneg k c Hi) as Ho.
  destruct Hi as [Hk He Hr Hm]. unfold resident in Hr.
  assert (Hn : Forall (fun p => 0 <= size_bytes p.2) (drop j (cache c)))
    by (eapply entry_ok_nonneg, entry_ok_Forall_drop, He).
  constructor; rewrite ?Em.
  - rewrite Ec. apply od_wf_snoc; [by apply od_wf_pop, od_wf_drop|].
    by apply od_get_pop_eq, od_wf_drop.
  - rewrite Ec. apply list.Forall_app. split; [by apply od_Forall_pop, entry_ok_Forall_drop|].
    repeat constructor; simpl; [done|by eapply storable_finite].
  - unfold resident. rewrite Ec, resident_rewrite. simpl. rewrite Eu.
    unfold old_size in *. destruct (od_get k (drop j (cache c))) as [o|] eqn:E.
    + rewrite (od_get_drop _ _ _ _ Hk E). lia.
    + lia.
  - destruct Hstop as [Hle|Hall]; [done|]. subst j. rewrite Eu, take_ge by lia. lia.
Qed.

(** A put keeps the counter exact when its key is absent, or when the value
    fits without an eviction. *)
Definition safe_put (k : pystr) (b : pybytes) (c : L1Cache) : Prop :=
  od_get k (cache c) = None \/
  current_memory_bytes c - old_size k c + zlen b <= max_memory_bytes c.

Lemma put_accounted now k b t x c c' :
  inv c -> accounted c -> safe_put k b c ->
  put now k (VBytes b) t x c = Ok c' -> accounted c'.
Proof.
  intros Hi Ha Hsafe.
  destruct (storable now (put_expiry now t x c)) eqn:Hst;
    [|rewrite put_skips by done; by intros [= <-]].
  destruct (Z.lt_ge_cases (max_memory_bytes c) (zlen b)) as [Hs|Hs].
  { rewrite put_oversized by done. intros [= <-]. by apply _remove_entry_accounted. }
  destruct (put_stores now k b t x c Hst Hs)
    as (c1 & j & -> & Hj & Em & _ & Ec & Eu & _ & Hmin & _). intros [= <-].
  unfold accounted, resident in *. rewrite Ec, resident_rewrite, Eu. simpl.
  destruct Hsafe as [Hn|Hf].
  - unfold old_size. rewrite Hn. destruct (od_get k (drop j (cache c))) eqn:E; [|lia].
    by rewrite (od_get_drop _ _ _ _ (inv_keys _ Hi) E) in Hn.
  - destruct j as [|j].
    + unfold old_size. rewrite drop_0. lia.
    + specialize (Hmin 0%nat). change (od_total size_bytes (take 0 (cache c))) with 0 in Hmin.
      lia.
Qed.

Definition safe_op (c : L1Cache) (o : op) : Prop :=
  match o with OPut _ k (VBytes b) _ _ => safe_put k b c | _ => True end.

Fixpoint safe_run (c : L1Cache) (os : list op) : Prop :=
  match os with
  | [] => True
  | o :: r => safe_op c o /\ safe_run (step c o) r
  end.

(** ** The entry of a key *)

(** A [get] answers from the entry of the key, and leaves that entry or none. *)
Lemma got_entry now k c : od_wf (cache c) ->
  (forall v, (get now k c).1 = Some v -> exists e, od_get k (cache c) = Some e /\ value e = v) /\
  (forall e, od_get k (cache (get now k c).2) = Some e -> od_get k (cache c) = Some e).
Proof.
  intros Wf. unfold get. destruct (od_get k (cache c)) as [e0|] eqn:E; [|cbn; by rewrite E].
  destruct (is_expired now e0); cbn.
  - split; [done|]. unfold _remove_entry. rewrite E. cbn. by rewrite od_get_pop_eq.
  - split; [intros v [= <-]; by exists e0|]. by rewrite od_get_move, E.
Qed.

(** A [put] of bytes returns, and the key has these bytes or what it had. *)
Lemma put_entry now k b t x c : exists c', put now k (VBytes b) t x c = Ok c' /\
  (inv c -> inv c' /\ forall e, od_get k (cache c') = Some e -> value e = b \/ od_get k (cache c) = Some e).
Proof.
  destruct (storable now (put_expiry now t x c)) eqn:Hst.
  2: { exists c. split; [by apply put_skips|]. intros Hi. split; [done|]. by right. }
  destruct (Z.lt_ge_cases (max_memory_bytes c) (zlen b)) as [Hs|Hs].
  - exists (_remove_entry k c). split; [by apply put_oversized|]. intros Hi. split; [by apply _remove_entry_inv|].
    unfold _remove_entry. destruct (od_get k (cache c)) eqn:E; [|by rewrite E]. cbn. rewrite od_get_pop_eq by apply Hi. done.
  - destruct (put_stores now k b t x c Hst Hs) as (c' & j & E & _ & _ & _ & Ec & _). exists c'. split; [done|].
    intros Hi. split; [by eapply l1_put_inv|]. intros e. rewrite Ec, od_get_app. destruct (od_get k (od_pop k _)) eqn:Ep.
    + rewrite od_get_pop_eq in Ep by (apply od_wf_drop, Hi). done.
    + cbn. rewrite decide_True by done. intros [= <-]. by left.
Qed.

Lemma l1_clear_inv c : 0 <= max_memory_bytes c -> inv (clear c).
Proof. intros H. constructor; simpl; try done; apply od_wf_nil. Qed.

Lemma step_max c o : max_memory_bytes (step c o) = max_memory_bytes c.
Proof.
  assert (R : forall k c, max_memory_bytes (_remove_entry k c) = max_memory_bytes c).
  { intros k c0. unfold _remove_entry. by destruct (od_get k (cache c0)). }
  destruct o as [now k|now k v t x|k| |now]; simpl; auto.
  - unfold get. destruct (od_get k (cache c)) as [e|]; [|done].
    destruct (is_expired now e); simpl; auto.
  - destruct v as [b|]; [|done].
    destruct (storable now (put_expiry now t x c)) eqn:Hst; [|by rewrite put_skips].
    destruct (Z.lt_ge_cases (max_memory_bytes c) (zlen b)) as [Hs|Hs].
    + rewrite put_oversized by done. auto.
    + by destruct (put_stores now k b t x c Hst Hs) as (c1 & j & -> & _ & Em & _).
  - generalize (expired_keys now c). intros ks. revert c.
    induction ks as [|k ks IH]; intros c; simpl; [done|]. rewrite IH. simpl. auto.
Qed.

Lemma l1_step_inv c o : 0 <= max_memory_bytes c -> inv c -> inv (step c o).
Proof.
  intros Hm Hi. destruct o as [now k|now k v t x|k| |now]; simpl.
  - by apply l1_get_inv.
  - destruct (put now k v t x c) eqn:E; [by eapply l1_put_inv|done].
  - by apply _remove_entry_inv.
  - by apply l1_clear_inv.
  - by apply cleanup_keys_inv.
Qed.

Lemma step_accounted c o : inv c -> safe_op c o -> accounted c -> accounted (step c o).
Proof.
  intros Hi Hs Ha. destruct o as [now k|now k v t x|k| |now]; simpl.
  - by apply get_accounted.
  - destruct (put now k v t x c) eqn:E; [|done].
    destruct v; [by eapply put_accounted|done].
  - by apply _remove_entry_accounted.
  - done.
  - by apply cleanup_keys_accounted.
Qed.

Lemma init_inv mb buf ns : 0 <= mb -> inv (init mb buf ns).
Proof. intros H. constructor; simpl; try done; try lia; apply od_wf_nil. Qed.

Lemma l1_run_inv_from c os : 0 <= max_memory_bytes c -> inv c -> inv (run c os).
Proof.
  revert c. induction os as [|o os IH]; intros c Hm Hi; simpl; [done|].
  apply IH; [by rewrite step_max|by apply l1_step_inv].
Qed.

Lemma run_max c os : max_memory_bytes (run c os) = max_memory_bytes c.
Proof.
  revert c. induction os as [|o os IH]; intros c; simpl; [done|].
  by rewrite IH, step_max.
Qed.

Lemma run_accounted_from c os :
  0 <= max_memory_bytes c -> inv c -> accounted c -> safe_run c os -> accounted (run c os).
Proof.
  revert c. induction os as [|o os IH]; intros c Hm Hi Ha Hs; simpl; [done|].
  destruct Hs as [Ho Hr]. apply IH; [by rewrite step_max|by apply l1_step_inv| |done].
  by apply step_accounted.
Qed.

Lemma cleanup_keys_cache ks c : cache (cleanup_keys ks c) = pop_all ks (cache c).
Proof.
  revert c. induction ks as [|k ks IH]; intros c; simpl; [done|].
  rewrite IH. simpl. f_equal. unfold _remove_entry.
  destruct (od_get k (cache c)) eqn:E; simpl; [done|]. by rewrite od_pop_None.
Qed.


(** ** Properties *)

(** C38. Whatever calls a cache serves from its creation on, its keys stay
    unique, every stored entry records its true size, fits the budget and has a
    finite expiry (no immortal entry), and the memory counter never exceeds the
    budget nor the bytes really held. *)
Theorem l1_run_inv mb buf ns os : 0 <= mb -> inv (run (init mb buf ns) os).
Proof. intros H. apply l1_run_inv_from; [simpl; lia|by apply init_inv]. Qed.

Lemma l1_run_inv_witness :
  0 <= 1 /\ inv (run (init 1 (fofZ 1) (u "ns")) [OPut (fofZ 10) (u "k") (VBytes [1; 2]) None None]).
Proof. split; [lia|apply (l1_run_inv 1 (fofZ 1) (u "ns")); lia]. Defined.

(** As long as no put replaces a present key under memory pressure, the
    counter is exact and the bytes held never exceed the configured budget. *)
Theorem run_memory_bound mb buf ns os :
  0 <= mb -> safe_run (init mb buf ns) os ->
  accounted (run (init mb buf ns) os) /\
  resident (run (init mb buf ns) os) <= mb * 1024 * 1024.
Proof.
  intros H Hs.
  assert (A : accounted (run (init mb buf ns) os))
    by (apply run_accounted_from; [simpl; lia|by apply init_inv|done|done]).
  split; [done|]. rewrite <- A.
  destruct (l1_run_inv_from (init mb buf ns) os) as [_ _ _ Hm]; [simpl; lia|by apply init_inv|].
  by rewrite run_max in Hm.
Qed.

Lemma run_memory_bound_witness :
  let os := [OPut (fofZ 10) (u "k") (VBytes [1; 2]) None None; OGet (fofZ 11) (u "k")] in
  safe_run (init 1 (fofZ 1) (u "ns")) os /\
  resident (run (init 1 (fofZ 1) (u "ns")) os) <= 1 * 1024 * 1024.
Proof.
  assert (S : safe_run (init 1 (fofZ 1) (u "ns"))
    [OPut (fofZ 10) (u "k") (VBytes [1; 2]) None None; OGet (fofZ 11) (u "k")])
    by (split; [left; reflexivity|split; done]).
  split; [exact S|]. apply (run_memory_bound 1 (fofZ 1) (u "ns") _ ltac:(lia) S).
Defined.

(** Replacing a present key under memory pressure breaks the budget: [put]
    takes the old entry's bytes off the counter, and [_evict_for_space], which
    still finds the old entry in the store, takes them off again.  With entries
    [A] (older) and [B], a larger value for [A] that does not fit beside [B] is
    stored without evicting [B], and the store then holds more than its budget
    although the counter says otherwise. *)
Theorem overwrite_exceeds_budget buf ns mb now ka kb va vb va' :
  ka <> kb ->
  let c0 := init mb buf ns in
  let ops := [OPut now ka (VBytes va) None None; OPut now kb (VBytes vb) None None;
              OPut now ka (VBytes va') None None] in
  storable now (put_expiry now None None c0) = true ->
  zlen va + zlen vb <= max_memory_bytes c0 ->
  zlen va' <= max_memory_bytes c0 ->
  max_memory_bytes c0 < zlen va' + zlen vb <= max_memory_bytes c0 + zlen va ->
  max_memory_bytes c0 < resident (run c0 ops) /\
  current_memory_bytes (run c0 ops) <= max_memory_bytes c0.
Proof.
  intros Hk c0 ops Hst H1 H2 [H3 H4].
  pose proof (zlen_nonneg va) as Pa. pose proof (zlen_nonneg vb) as Pb.
  assert (Ex : forall c, ttl_buffer_seconds c = buf ->
    storable now (put_expiry now None None c) = true).
  { intros c Hc. unfold put_expiry in *. by rewrite Hc. }
  destruct (put_fits now ka va None None c0) as (c1 & P1 & M1 & B1 & S1 & U1);
    [done|change (0 - 0 + zlen va <= max_memory_bytes c0); lia|lia|].
  change (current_memory_bytes c1 = 0 - 0 + zlen va) in U1.
  simpl in S1.
  assert (Ek : old_size kb c1 = 0)
    by (unfold old_size; rewrite S1; simpl; by rewrite decide_False).
  destruct (put_fits now kb vb None None c1) as (c2 & P2 & M2 & B2 & S2 & U2);
    [by apply Ex; rewrite B1|lia|lia|].
  rewrite S1 in S2. simpl in S2. rewrite decide_False in S2 by done.
  assert (Ea : old_size ka c2 = zlen va)
    by (unfold old_size; rewrite S2; simpl; by rewrite decide_True).
  destruct (put_stores now ka va' None None c2)
    as (c3 & j & P3 & Hj & M3 & _ & S3 & U3 & Hs & Hm & _);
    [by apply Ex; rewrite B2, B1|lia|].
  assert (E : run c0 ops = c3).
  { subst ops. unfold run, foldl, step. by rewrite P1, P2, P3. }
  rewrite E. clear E.
  assert (j = 1%nat) as ->.
  { destruct j as [|[|j]]; [exfalso|done|exfalso].
    - rewrite S2 in Hs. change (od_total size_bytes (take 0 (cache c2))) with 0 in U3.
      simpl in Hs. destruct Hs as [Hs|Hs]; [lia|done].
    - specialize (Hm 1%nat). rewrite S2 in Hm. simpl in Hm.
      rewrite od_total_cons in Hm. change (od_total size_bytes []) with 0 in Hm.
      simpl in Hm. lia. }
  rewrite S2 in S3, U3. simpl in S3, U3. rewrite decide_False in S3 by done.
  rewrite od_total_cons in U3. change (od_total size_bytes []) with 0 in U3.
  unfold resident. rewrite S3. simpl. rewrite !od_total_cons. simpl in *.
  change (od_total size_bytes []) with 0. lia.
Qed.

Lemma overwrite_exceeds_budget_witness :
  let v n := replicate (Z.to_nat n) 0 in
  let c := run (init 1 (fofZ 1) (u "ns"))
    [OPut (fofZ 10) (u "a") (VBytes (v 600000)) None None;
     OPut (fofZ 10) (u "b") (VBytes (v 400000)) None None;
     OPut (fofZ 10) (u "a") (VBytes (v 900000)) None None] in
  1 * 1024 * 1024 < resident c.
Proof.
  cbv zeta. eapply (overwrite_exceeds_budget (fofZ 1) (u "ns") 1 (fofZ 10) (u "a") (u "b"));
    [discriminate|vm_compute; reflexivity| | |]; rewrite !zlen_replicate by lia;
    change (max_memory_bytes (init 1 (fofZ 1) (u "ns"))) with 1048576; lia.
Defined.

(** A put with a usable TTL of a value within the budget is served back:
    every later [get] before the entry's expiry returns exactly the bytes
    stored and counts a hit, every [get] at or after it misses, removes the
    entry and counts an expiry, and a key the put did not evict is unchanged. *)
Theorem l1_put_get now k b t x c now' :
  inv c -> storable now (put_expiry now t x c) = true -> zlen b <= max_memory_bytes c ->
  exists c', put now k (VBytes b) t x c = Ok c' /\
    (if fge now' (put_expiry now t x c)
     then (get now' k c').1 = None /\ od_get k (cache (get now' k c').2) = None /\
          expired_evictions (get now' k c').2 = expired_evictions c' + 1
     else (get now' k c').1 = Some b /\ hits (get now' k c').2 = hits c' + 1) /\
    forall k' e, k' <> k -> od_get k' (cache c') = Some e -> od_get k' (cache c) = Some e.
Proof.
  intros Hi Hst Hs.
  destruct (put_stores now k b t x c Hst Hs) as (c' & j & E & _ & _ & _ & Ec & _).
  assert (Hg : od_get k (cache c') = Some (mkCacheEntry b (put_expiry now t x c) (zlen b))).
  { rewrite Ec, od_get_app, od_get_pop_eq by (by apply od_wf_drop, inv_keys). simpl.
    by rewrite decide_True. }
  assert (Hw : inv c') by (by eapply l1_put_inv).
  exists c'. split; [done|]. split.
  - unfold get. rewrite Hg. unfold is_expired. simpl.
    destruct (fge now' _); simpl; [|done]. unfold _remove_entry. rewrite Hg. simpl.
    split; [done|]. split; [apply od_get_pop_eq, inv_keys, Hw|lia].
  - intros k' e Hk. rewrite Ec, od_get_app, od_get_pop_ne by done. simpl.
    rewrite decide_False by done.
    destruct (od_get k' (drop j (cache c))) eqn:Ed; [|done]. intros [= ->].
    by apply (od_get_drop _ _ _ _ (inv_keys _ Hi)) in Ed.
Qed.

Lemma l1_put_get_witness :
  let c := init 1 (fofZ 1) (u "ns") in
  exists c', put (fofZ 10) (u "k") (VBytes [7]) (Some (fofZ 60)) None c = Ok c' /\
    (get (fofZ 20) (u "k") c').1 = Some [7].
Proof.
  destruct (l1_put_get (fofZ 10) (u "k") [7] (Some (fofZ 60)) None (init 1 (fofZ 1) (u "ns"))
    (fofZ 20)) as (c' & E & [H _] & _);
    [apply init_inv; lia|vm_compute; reflexivity|vm_compute; discriminate|].
  exists c'. split; [exact E|exact H].
Defined.

(** Storing a new key under pressure evicts least recently used entries
    only, and no more than needed: the survivors are a suffix of the recency
    order, they fit beside the new value, no shorter eviction would have made
    room, and the eviction statistic counts exactly the evicted entries. *)
Theorem put_evicts_lru now k b t x c :
  inv c -> accounted c -> od_get k (cache c) = None ->
  storable now (put_expiry now t x c) = true -> zlen b <= max_memory_bytes c ->
  exists c' j e, put now k (VBytes b) t x c = Ok c' /\ (j <= length (cache c))%nat /\
    cache c' = drop j (cache c) ++ [(k, e)] /\ value e = b /\
    od_total size_bytes (drop j (cache c)) + zlen b <= max_memory_bytes c /\
    (forall i, (i < j)%nat ->
       max_memory_bytes c < od_total size_bytes (drop i (cache c)) + zlen b) /\
    evictions c' = evictions c + Z.of_nat j.
Proof.
  intros Hi Ha Hk Hst Hs.
  destruct (put_stores now k b t x c Hst Hs)
    as (c' & j & E & Hj & Em & _ & Ec & Eu & Hstop & Hmin & Hev).
  assert (Hd : od_pop k (drop j (cache c)) = drop j (cache c)).
  { apply od_pop_None. destruct (od_get k (drop j (cache c))) eqn:Ed; [|done].
    by rewrite (od_get_drop _ _ _ _ (inv_keys _ Hi) Ed) in Hk. }
  rewrite Hd in Ec. unfold old_size in *. rewrite Hk in Eu, Hmin.
  unfold accounted, resident in Ha.
  exists c', j, (mkCacheEntry b (put_expiry now t x c) (zlen b)). split_and!; try done.
  - pose proof (od_total_take_drop size_bytes j (cache c)).
    destruct Hstop as [Hle|Hall]; [lia|]. subst j.
    rewrite drop_ge by lia. change (od_total size_bytes []) with 0. lia.
  - intros i Hi'. specialize (Hmin i Hi').
    pose proof (od_total_take_drop size_bytes i (cache c)). lia.
Qed.

Lemma put_evicts_lru_witness :
  let c := init 1 (fofZ 1) (u "ns") in
  exists c' j e, put (fofZ 10) (u "k") (VBytes [7]) None None c = Ok c' /\
    cache c' = drop j (cache c) ++ [(u "k", e)] /\ value e = [7].
Proof.
  destruct (put_evicts_lru (fofZ 10) (u "k") [7] None None (init 1 (fofZ 1) (u "ns")))
    as (c' & j & e & E & _ & Ec & Ev & _);
    [apply init_inv; lia|reflexivity|reflexivity|vm_compute; reflexivity
    |vm_compute; discriminate|].
  exists c', j, e. split; [exact E|]. split; [exact Ec|exact Ev].
Defined.

(** [cleanup_expired] removes exactly the entries whose expiry has passed,
    keeps the others in their recency order, and returns how many it removed. *)
Theorem cleanup_exact now c :
  od_wf (cache c) ->
  let '(n, c') := cleanup_expired now c in
  cache c' = filter (fun p => ~ is_expired now p.2 = true) (cache c) /\
  n = zlen (cache c) - zlen (cache c') /\
  expired_evictions c' = expired_evictions c + n.
Proof.
  intros Hd. unfold cleanup_expired. fold (cleanup_keys (expired_keys now c) c).
  assert (E : cache (cleanup_keys (expired_keys now c) c) =
    filter (fun p => ~ is_expired now p.2 = true) (cache c)).
  { rewrite cleanup_keys_cache. unfold pop_all, expired_keys. by apply od_pop_filter. }
  split; [done|]. split.
  - rewrite E. unfold zlen, expired_keys, od_keys. rewrite length_fmap.
    pose proof (filter_app_complement (fun p => is_expired now p.2 = true) (cache c)) as P.
    apply Permutation_length in P. rewrite length_app in P. lia.
  - generalize (expired_keys now c). intros ks. clear. revert c.
    induction ks as [|k ks IH]; intros c; simpl; [unfold zlen; simpl; lia|].
    rewrite IH, zlen_cons. simpl. unfold _remove_entry.
    destruct (od_get k (cache c)); simpl; lia.
Qed.

Lemma cleanup_exact_witness :
  let e n := mkCacheEntry [0] (fofZ n) 1 in
  let c := mkL1Cache 100 (fofZ 1) (u "ns") [(u "a", e 5); (u "b", e 9)] 2 0 0 0 0 0 in
  cache (cleanup_expired (fofZ 7) c).2 = [(u "b", e 9)].
Proof.
  intros e c.
  assert (H : od_wf (cache c)).
  { unfold od_wf. simpl. apply list.NoDup_cons. split; [|apply NoDup_singleton].
    intros Hin%list_elem_of_singleton. discriminate. }
  pose proof (cleanup_exact (fofZ 7) c H) as P.
  destruct (cleanup_expired (fofZ 7) c) as [n c'] eqn:E. destruct P as [P _].
  simpl. rewrite P. vm_compute. reflexivity.
Defined.
