(* ===== verification/L1Manager.v ===== *)
(** The L1 caches of all namespaces ([src/src/cachekit/l1_cache.py], class
    [L1CacheManager] and the module's accessors).

    [_caches] never loses an entry, so the reference a caller holds for a
    namespace is the stored object: operations on a cache are addressed by its
    namespace. *)
From Stdlib Require Import ZArith Lia SpecFloat.
From stdpp Require Import base list numbers option strings.
From S2P Require Import Prelude PyFloat PyDict.
From S2P Require L1Cache.

Local Open Scope Z_scope.
Local Open Scope py_scope.

Abbreviation cache := L1Cache.L1Cache.

Record L1CacheManager := mkManager {
  _caches : list (pystr * cache);
  _default_max_memory_mb : Z;
  _cleanup_thread : option nat;
  _stop_cleanup : bool;
  workers : list nat;   (* the cleanup threads still running *)
  next_thread : nat
}.

(** What the code reads of the global settings. *)
Record settings := mkSettings { l1_max_size_mb : Z; l1_cleanup_interval_seconds : float }.

Definition init (s : settings) (default_max_memory_mb : option Z) : L1CacheManager :=
  mkManager [] (default (l1_max_size_mb s) default_max_memory_mb) None false [] 0.

Definition set_caches (m : L1CacheManager) (d : list (pystr * cache)) : L1CacheManager :=
  mkManager d (_default_max_memory_mb m) (_cleanup_thread m) (_stop_cleanup m) (workers m) (next_thread m).

Definition set_thread (m : L1CacheManager) (t : option nat) (stop : bool) (ws : list nat) (n : nat)
  : L1CacheManager :=
  mkManager (_caches m) (_default_max_memory_mb m) t stop ws n.

(** [L1Cache(max_memory_mb=budget, namespace=namespace)] *)
Definition new_cache (budget : Z) (ns : pystr) : cache := L1Cache.init budget (fofZ 1) ns.

Definition get_cache (ns : pystr) (max_size_mb : option Z) (m : L1CacheManager)
  : cache * L1CacheManager :=
  match od_get ns (_caches m) with
  | Some c => (c, m)
  | None =>
      let c := new_cache (default (_default_max_memory_mb m) max_size_mb) ns in
      (c, set_caches m (od_set ns c (_caches m)))
  end.

(** The warning of [get_cache]: the cache exists with another budget. *)
Definition budget_conflict (ns : pystr) (max_size_mb : option Z) (m : L1CacheManager) : bool :=
  match od_get ns (_caches m), max_size_mb with
  | Some c, Some mb => negb (L1Cache.max_memory_bytes c =? mb * 1024 * 1024)
  | _, _ => false
  end.

(** A loop over [_caches.values()] that may change each cache. *)
Definition each_cache (f : pystr -> cache -> cache) (m : L1CacheManager) : L1CacheManager :=
  set_caches m (map (fun kv => (kv.1, f kv.1 kv.2)) (_caches m)).

(** One pass of the worker; [now] is what each cache's clock shows. *)
Definition cleanup_pass (now : pystr -> float) (m : L1CacheManager) : Z * L1CacheManager :=
  (zsum (map (fun kv => (L1Cache.cleanup_expired (now kv.1) kv.2).1) (_caches m)),
   each_cache (fun ns c => (L1Cache.cleanup_expired (now ns) c).2) m).

Definition start_background_cleanup (m : L1CacheManager) : L1CacheManager :=
  match _cleanup_thread m with
  | Some _ => m
  | None => set_thread m (Some (next_thread m)) false (next_thread m :: workers m) (S (next_thread m))
  end.

(** [stop_event.wait(interval)] of worker [t] returned [stopped]. *)
Definition cleanup_worker (t : nat) (stopped : bool) (now : pystr -> float) (m : L1CacheManager)
  : L1CacheManager :=
  if bool_decide (t ∈ workers m) then
    if stopped
    then set_thread m (_cleanup_thread m) (_stop_cleanup m) (filter (fun x => x <> t) (workers m)) (next_thread m)
    else (cleanup_pass now m).2
  else m.

(** [joined]: the worker ended within the five seconds of the join. *)
Definition stop_background_cleanup (joined : bool) (m : L1CacheManager) : L1CacheManager :=
  match _cleanup_thread m with
  | None => m
  | Some t =>
      set_thread m None true (if joined then filter (fun x => x <> t) (workers m) else workers m)
        (next_thread m)
  end.

Definition get_all_stats (m : L1CacheManager) : result py_exn (list (pystr * L1Cache.Stats)) :=
  rmap (fun kv => s <-! L1Cache.get_stats kv.2 ; Ok (kv.1, s)) (_caches m).

Definition clear_all (m : L1CacheManager) : L1CacheManager := each_cache (fun _ c => L1Cache.clear c) m.

(** The module's global manager, created on first use with its worker. *)
Definition get_l1_cache_manager (s : settings) (g : option L1CacheManager) : L1CacheManager :=
  match g with
  | Some m => m
  | None => start_background_cleanup (init s None)
  end.

Definition get_l1_cache (s : settings) (ns : pystr) (max_size_mb : option Z) (g : option L1CacheManager)
  : cache * L1CacheManager :=
  get_cache ns max_size_mb (get_l1_cache_manager s g).

(** ** Runs *)

Inductive op :=
  | MGet (ns : pystr) (max_size_mb : option Z)
  | MOp (ns : pystr) (o : L1Cache.op)  (* a caller's operation on the cache it got *)
  | MStart
  | MStop (joined : bool)
  | MWorker (t : nat) (stopped : bool) (now : pystr -> float)
  | MClearAll.

Definition step (m : L1CacheManager) (o : op) : L1CacheManager :=
  match o with
  | MGet ns b => (get_cache ns b m).2
  | MOp ns o =>
      match od_get ns (_caches m) with
      | Some c => set_caches m (od_set ns (L1Cache.step c o) (_caches m))
      | None => m
      end
  | MStart => start_background_cleanup m
  | MStop j => stop_background_cleanup j m
  | MWorker t s now => cleanup_worker t s now m
  | MClearAll => clear_all m
  end.

Definition run (m : L1CacheManager) (os : list op) : L1CacheManager := foldl step m os.

(** ** One namespace *)

Lemma od_get_each (f : pystr -> cache -> cache) k (d : list (pystr * cache)) :
  od_get k (map (fun kv => (kv.1, f kv.1 kv.2)) d) = f k <$> od_get k d.
Proof.
  induction d as [|[k' c] d IH]; [done|]. simpl. destruct (decide (k = k')) as [E|E]; [by subst|exact IH].
Qed.

Definition lookup (ns : pystr) (m : L1CacheManager) : option cache := od_get ns (_caches m).

(** What an operation of the manager does to the cache of [ns], as an operation
    of that cache alone.  A pass of a worker that has ended does nothing. *)
Definition project (ns : pystr) (m : L1CacheManager) (o : op) : list L1Cache.op :=
  match o with
  | MOp ns' o => if decide (ns = ns') then [o] else []
  | MWorker t false now => if bool_decide (t ∈ workers m) then [L1Cache.OCleanup (now ns)] else []
  | MClearAll => [L1Cache.OClear]
  | _ => []
  end.

Fixpoint projection (ns : pystr) (m : L1CacheManager) (os : list op) : list L1Cache.op :=
  match os with
  | [] => []
  | o :: r => project ns m o ++ projection ns (step m o) r
  end.

(** A present cache is changed by its own operations only. *)
Lemma step_present ns m o c : lookup ns m = Some c ->
  lookup ns (step m o) = Some (L1Cache.run c (project ns m o)).
Proof.
  unfold lookup. intros E. destruct o as [ns' b|ns' o| |j|t s now|]; simpl.
  - unfold get_cache. destruct (od_get ns' (_caches m)) eqn:E'; simpl; [done|].
    rewrite od_get_set_ne by congruence. done.
  - destruct (decide (ns = ns')) as [<-|N].
    + rewrite E. simpl. by rewrite od_get_set_eq.
    + destruct (od_get ns' (_caches m)); simpl; [by rewrite od_get_set_ne|done].
  - unfold start_background_cleanup. by destruct (_cleanup_thread m).
  - unfold stop_background_cleanup. by destruct (_cleanup_thread m).
  - unfold cleanup_worker. destruct (bool_decide _), s; simpl; try done.
    by rewrite (od_get_each (fun ns c => (L1Cache.cleanup_expired (now ns) c).2)), E.
  - by rewrite (od_get_each (fun _ c => L1Cache.clear c)), E.
Qed.

Definition requests (ns : pystr) (o : op) : bool :=
  match o with MGet ns' _ => bool_decide (ns = ns') | _ => false end.

Lemma step_absent ns m o : lookup ns m = None -> requests ns o = false -> lookup ns (step m o) = None.
Proof.
  unfold lookup. intros E Hr. destruct o as [ns' b|ns' o| |j|t s now|]; simpl in *.
  - apply bool_decide_eq_false in Hr. unfold get_cache.
    destruct (od_get ns' (_caches m)); simpl; [done|]. by rewrite od_get_set_ne.
  - destruct (od_get ns' (_caches m)) eqn:E'; simpl; [rewrite od_get_set_ne by congruence; done|done].
  - unfold start_background_cleanup. by destruct (_cleanup_thread m).
  - unfold stop_background_cleanup. by destruct (_cleanup_thread m).
  - unfold cleanup_worker. destruct (bool_decide _), s; simpl; try done.
    by rewrite (od_get_each (fun ns c => (L1Cache.cleanup_expired (now ns) c).2)), E.
  - by rewrite (od_get_each (fun _ c => L1Cache.clear c)), E.
Qed.

Lemma run_present ns os m c : lookup ns m = Some c ->
  lookup ns (run m os) = Some (L1Cache.run c (projection ns m os)).
Proof.
  revert m c. induction os as [|o os IH]; intros m c E; [done|]. simpl.
  rewrite (IH (step m o) _ (step_present ns m o c E)). f_equal. unfold L1Cache.run.
  by rewrite foldl_app.
Qed.

Lemma run_absent ns os m : lookup ns m = None -> forallb (fun o => negb (requests ns o)) os = true ->
  lookup ns (run m os) = None.
Proof.
  revert m. induction os as [|o os IH]; intros m E H; [done|]. simpl in H.
  apply andb_true_iff in H as [H1 H2]. apply negb_true_iff in H1.
  apply IH; [by apply step_absent|done].
Qed.

Lemma step_default m o : _default_max_memory_mb (step m o) = _default_max_memory_mb m.
Proof.
  destruct o as [ns b|ns o| |j|t s now|]; simpl; try done.
  - unfold get_cache. by destruct (od_get ns _).
  - by destruct (od_get ns _).
  - unfold start_background_cleanup. by destruct (_cleanup_thread m).
  - unfold stop_background_cleanup. by destruct (_cleanup_thread m).
  - unfold cleanup_worker. by destruct (bool_decide _), s.
Qed.

Lemma run_default os m : _default_max_memory_mb (run m os) = _default_max_memory_mb m.
Proof. revert m. induction os as [|o os IH]; intros m; [done|]. simpl. by rewrite IH, step_default. Qed.

(** C37. The manager refines independent caches: whatever is called on all
    namespaces and whenever the cleanup workers run, the cache of a namespace is
    exactly one [L1Cache], created by the first request for it with the budget
    of that request (the first configuration wins), that has run the operations
    of its own namespace, the cleanup passes and the clears, in order.  Hence it
    keeps the invariant of [L1Cache] and its budget never changes. *)
Theorem namespaces_isolated s d os1 ns b os2 :
  forallb (fun o => negb (requests ns o)) os1 = true ->
  let m1 := run (init s d) os1 in
  let budget := default (default (l1_max_size_mb s) d) b in
  let m := run (init s d) (os1 ++ MGet ns b :: os2) in
  lookup ns m1 = None /\
  lookup ns m = Some (L1Cache.run (new_cache budget ns) (projection ns (step m1 (MGet ns b)) os2)) /\
  (0 <= budget -> forall c, lookup ns m = Some c ->
     L1Cache.inv c /\ L1Cache.max_memory_bytes c = budget * 1024 * 1024).
Proof.
  intros H m1 budget m.
  assert (A : lookup ns m1 = None) by (by apply run_absent).
  assert (E : lookup ns m = Some (L1Cache.run (new_cache budget ns) (projection ns (step m1 (MGet ns b)) os2))).
  { unfold m, run. rewrite foldl_app. simpl. fold (run (init s d) os1). fold m1.
    apply run_present. unfold get_cache. unfold lookup in A. rewrite A. unfold lookup. simpl.
    rewrite od_get_set_eq. unfold m1. by rewrite run_default. }
  split; [done|]. split; [done|]. intros Hb c Ec. rewrite Ec in E. injection E as ->.
  split; [apply L1Cache.l1_run_inv_from; [simpl; lia|by apply L1Cache.init_inv]|].
  by rewrite L1Cache.run_max.
Qed.

Definition before : list op := [MStart; MGet (u "b") (Some 5); MOp (u "a") L1Cache.OClear].
Definition afterwards : list op :=
  [MGet (u "a") (Some 7);
   MOp (u "a") (L1Cache.OPut (fofZ 0) (u "k") (L1Cache.VBytes (u "v")) None None);
   MOp (u "b") L1Cache.OClear; MWorker 0 false (fun _ => fofZ 299)].

Lemma namespaces_isolated_witness :
  exists c, lookup (u "a")
    (run (init (mkSettings 100 (fofZ 30)) None) (before ++ MGet (u "a") (Some 2) :: afterwards)) = Some c /\
  L1Cache.max_memory_bytes c = 2097152 /\ L1Cache.cache c = [].
Proof.
  destruct (namespaces_isolated (mkSettings 100 (fofZ 30)) None before (u "a") (Some 2) afterwards)
    as (_ & L & B); [vm_compute; reflexivity|].
  eexists. split; [exact L|]. split; [apply (B ltac:(vm_compute; discriminate) _ L)|].
  vm_compute. reflexivity.
Defined.

(** ** The cleanup thread *)

(** At most one worker runs, the one the manager knows, as long as every join
    finds its worker gone. *)
Definition one_worker (m : L1CacheManager) : Prop :=
  (workers m = [] \/ exists t, _cleanup_thread m = Some t /\ workers m = [t]).

Lemma one_worker_step m o : one_worker m -> o <> MStop false -> one_worker (step m o).
Proof.
  unfold one_worker. intros H Ho. destruct o as [ns b|ns o| |j|t s now|]; simpl; try done.
  - unfold get_cache. by destruct (od_get ns _).
  - by destruct (od_get ns _).
  - unfold start_background_cleanup. destruct (_cleanup_thread m) as [t|] eqn:E; [by rewrite E|].
    destruct H as [->|(t & ? & _)]; [right|done]. by eexists.
  - destruct j; [|done]. unfold stop_background_cleanup.
    destruct (_cleanup_thread m) as [t|] eqn:E; [|by rewrite E].
    simpl. left. destruct H as [->|(t' & [= <-] & ->)]; [done|].
    rewrite filter_cons_False by naive_solver. done.
  - unfold cleanup_worker. destruct (bool_decide _), s; simpl; try done.
    destruct H as [->|(t' & E & ->)]; [by left|]. rewrite filter_cons. destruct (decide _); [right; eauto|by left].
Qed.

Lemma one_worker_run m os : one_worker m -> Forall (fun o => o <> MStop false) os -> one_worker (run m os).
Proof.
  intros H F. revert m H. induction F as [|o os Ho _ IH]; intros m H; [done|].
  simpl. by apply IH, one_worker_step.
Qed.
