(* ===== verification/ObjectSize.v ===== *)
(** [_estimate_object_size] of [src/src/cachekit/object_cache.py]: the walk over
    an object graph that may share objects and contain cycles.

    The heap maps an [id] to the object's own [sys.getsizeof] and its children;
    the stack is the Python list with its end at the head. *)
From Stdlib Require Import ZArith Lia.
From stdpp Require Import base list numbers option gmap relations.
From S2P Require Import Prelude.

Local Open Scope Z_scope.

Inductive container :=
  | Atom
  | DictOf (keys values : list positive)
  | SeqOf (items : list positive).

Record pyobj := mkObj { getsizeof : Z; contents : container }.

(** The objects a visit pushes, in the order they will be popped. *)
Definition pushed (c : container) : list positive :=
  match c with
  | Atom => []
  | DictOf ks vs => rev vs ++ rev ks
  | SeqOf xs => rev xs
  end.

(** The [while stack] loop; [None] when the fuel runs out. *)
Fixpoint walk (fuel : nat) (h : gmap positive pyobj) (stack : list positive)
    (seen : gset positive) (total : Z) : option Z :=
  match fuel with
  | O => None
  | S fuel' =>
      match stack with
      | [] => Some total
      | item :: rest =>
          if decide (item ∈ seen) then walk fuel' h rest seen total
          else
            match h !! item with
            | None => None
            | Some o =>
                walk fuel' h (pushed (contents o) ++ rest) ({[item]} ∪ seen)
                  (total + getsizeof o)
            end
      end
  end.

Definition children (o : pyobj) : list positive := pushed (contents o).

(** Each object is expanded at most once, so every push is paid for. *)
Definition pushes (h : gmap positive pyobj) : nat :=
  map_fold (fun _ o n => (length (children o) + n)%nat) 0%nat h.

Definition walk_fuel (h : gmap positive pyobj) : nat := (2 + pushes h)%nat.

Definition _estimate_object_size (h : gmap positive pyobj) (obj : positive) : option Z :=
  walk (walk_fuel h) h [obj] ∅ 0.

(** ** Correctness *)

(** No dangling reference. *)
Definition closed (h : gmap positive pyobj) : Prop :=
  forall i o c, h !! i = Some o -> c ∈ children o -> is_Some (h !! c).

Definition child (h : gmap positive pyobj) (i c : positive) : Prop :=
  exists o, h !! i = Some o /\ c ∈ children o.

(** The objects reachable from [root]. *)
Definition reaches (h : gmap positive pyobj) : positive -> positive -> Prop := rtc (child h).

Definition size_of (h : gmap positive pyobj) (i : positive) : Z :=
  match h !! i with Some o => getsizeof o | None => 0 end.

Definition set_size (h : gmap positive pyobj) (s : gset positive) : Z :=
  zsum (size_of h <$> elements s).

Lemma zsum_perm l1 l2 : l1 ≡ₚ l2 -> zsum l1 = zsum l2.
Proof. induction 1; simpl; lia. Qed.

Lemma set_size_add h i (s : gset positive) : i ∉ s -> set_size h ({[i]} ∪ s) = size_of h i + set_size h s.
Proof.
  intros H. unfold set_size.
  rewrite (zsum_perm _ (size_of h <$> (i :: elements s))); [done|].
  apply fmap_Permutation. by apply elements_union_singleton.
Qed.

(** What the loop maintains: the seen objects and the stack are reachable, the
    children of a seen object are seen or on the stack, and so is the root. *)
Record walk_inv (h : gmap positive pyobj) (root : positive) (stack : list positive)
    (seen : gset positive) : Prop := mkWalkInv {
  wi_reach : forall x, x ∈ stack \/ x ∈ seen -> reaches h root x;
  wi_children : forall x c, x ∈ seen -> child h x c -> c ∈ stack \/ c ∈ seen;
  wi_root : root ∈ stack \/ root ∈ seen
}.

(** The work left: the stack, and one push per child of an unseen object. *)
Definition unseen_pushes (h : gmap positive pyobj) (seen : gset positive) : nat :=
  pushes (filter (fun p => p.1 ∉ seen) h).

Lemma pushes_insert h i o :
  h !! i = None -> pushes (<[i := o]> h) = (length (children o) + pushes h)%nat.
Proof.
  intros H. unfold pushes. rewrite map_fold_insert_L; [done| |done].
  intros. lia.
Qed.

Lemma pushes_split h i o :
  h !! i = Some o -> pushes h = (length (children o) + pushes (delete i h))%nat.
Proof.
  intros H. rewrite <- (insert_delete_id h i o H) at 1.
  apply pushes_insert, lookup_delete_eq.
Qed.

Lemma unseen_pushes_add h seen i o :
  h !! i = Some o -> i ∉ seen ->
  unseen_pushes h seen = (length (children o) + unseen_pushes h ({[i]} ∪ seen))%nat.
Proof.
  intros Ho Hi. unfold unseen_pushes.
  rewrite (pushes_split (filter _ h) i o) by (by apply map_lookup_filter_Some).
  do 2 f_equal. apply map_eq. intros j. destruct (decide (j = i)) as [->|N].
  - rewrite lookup_delete_eq. symmetry. apply map_lookup_filter_None. right.
    intros x _. simpl. intros Hn. apply Hn, elem_of_union. left. by apply elem_of_singleton.
  - rewrite lookup_delete_ne by done. apply option_eq. intros p.
    rewrite !map_lookup_filter_Some. simpl. rewrite not_elem_of_union, not_elem_of_singleton.
    naive_solver.
Qed.

Lemma walk_inv_visit h root item o rest seen :
  h !! item = Some o -> walk_inv h root (item :: rest) seen ->
  walk_inv h root (pushed (contents o) ++ rest) ({[item]} ∪ seen).
Proof.
  intros Ho [Hr Hc Hroot]. split.
  - intros x. rewrite elem_of_app, elem_of_union, elem_of_singleton.
    intros [[Hx|Hx]|[->|Hx]].
    + eapply rtc_r; [apply (Hr item); left; by left|by exists o].
    + apply Hr. left. by right.
    + apply Hr. left. by left.
    + apply Hr. by right.
  - intros x c. rewrite elem_of_app, !elem_of_union, !elem_of_singleton.
    intros [->|Hx] Hch.
    + destruct Hch as (o' & Ho' & Hch). simplify_eq. by left; left.
    + destruct (Hc x c Hx Hch) as [[Hin|Hin]%elem_of_cons|Hin]; auto.
  - rewrite elem_of_app, elem_of_union, elem_of_singleton.
    destruct Hroot as [[Hin|Hin]%elem_of_cons|Hin]; auto.
Qed.

Lemma walk_inv_skip h root item rest seen :
  item ∈ seen -> walk_inv h root (item :: rest) seen -> walk_inv h root rest seen.
Proof.
  intros Hi [Hr Hc Hroot]. split.
  - intros x [Hx|Hx]; apply Hr; [left; by right|by right].
  - intros x c Hx Hch.
    destruct (Hc x c Hx Hch) as [[->|Hin]%elem_of_cons|Hin]; auto.
  - destruct Hroot as [[->|Hin]%elem_of_cons|Hin]; auto.
Qed.

Lemma reaches_closed h x y :
  closed h -> is_Some (h !! x) -> reaches h x y -> is_Some (h !! y).
Proof.
  intros Hc Hx Hr. induction Hr as [|x y z (o & Ho & Hy) _ IH]; [done|].
  apply IH. by eapply Hc.
Qed.

Lemma walk_spec fuel h root stack seen total :
  closed h -> is_Some (h !! root) -> walk_inv h root stack seen ->
  total = set_size h seen -> (length stack + unseen_pushes h seen < fuel)%nat ->
  exists s, walk fuel h stack seen total = Some (set_size h s) /\
    forall x, x ∈ s <-> reaches h root x.
Proof.
  intros Hcl Hroot. revert stack seen total.
  induction fuel as [|fuel IH]; intros stack seen total Hinv Ht Hf; [lia|].
  destruct stack as [|item rest]; simpl.
  - exists seen. split; [by rewrite Ht|]. intros x. destruct Hinv as [Hr Hc Hrt]. split.
    + intros Hx. apply Hr. by right.
    + intros Hx. assert (Hs : root ∈ seen)
        by (destruct Hrt as [Hin|Hin]; [by apply not_elem_of_nil in Hin|done]).
      clear Hrt Hroot Hr IH.
      revert Hs. induction Hx as [|a b c Hab _ IHx]; [done|]. intros Ha.
      apply IHx. destruct (Hc a b Ha Hab) as [Hin|Hin]; [by apply not_elem_of_nil in Hin|done].
  - simpl in Hf. case_decide as Hs.
    + apply IH; [by eapply walk_inv_skip|done|lia].
    + destruct (reaches_closed h root item Hcl Hroot) as [o Ho];
        [apply (wi_reach _ _ _ _ Hinv); left; by left|].
      rewrite Ho. apply IH.
      * by apply walk_inv_visit.
      * rewrite set_size_add by done. unfold size_of. rewrite Ho. lia.
      * rewrite (unseen_pushes_add _ _ _ _ Ho Hs) in Hf. unfold children in Hf.
        rewrite length_app. lia.
Qed.

(** The size walk terminates on every object graph, shared and cyclic ones
    included, and its result is the total of [sys.getsizeof] over the objects
    reachable from its argument, each counted once. *)
Theorem estimate_exact h root :
  closed h -> is_Some (h !! root) ->
  exists s, _estimate_object_size h root = Some (set_size h s) /\
    forall x, x ∈ s <-> reaches h root x.
Proof.
  intros Hc Hr. apply walk_spec; try done.
  - split; [|set_solver|set_solver]. intros x Hx.
    assert (x = root) as -> by set_solver. apply rtc_refl.
  - unfold unseen_pushes, walk_fuel. simpl.
    replace (filter (fun p : positive * pyobj => p.1 ∉ (∅ : gset positive)) h) with h; [lia|].
    symmetry. apply map_filter_id. set_solver.
Qed.

(** A list that contains itself and a shared string twice. *)
Definition cyclic_heap : gmap positive pyobj :=
  <[1%positive := mkObj 88 (SeqOf [1; 2; 2]%positive)]> {[2%positive := mkObj 50 Atom]}.

Lemma estimate_exact_witness :
  _estimate_object_size cyclic_heap 1 = Some 138 /\
  exists s, _estimate_object_size cyclic_heap 1 = Some (set_size cyclic_heap s) /\
    forall x, x ∈ s <-> reaches cyclic_heap 1 x.
Proof.
  split; [vm_compute; reflexivity|]. apply (estimate_exact cyclic_heap 1).
  - intros i o c Hi Hc. unfold cyclic_heap in Hi.
    apply lookup_insert_Some in Hi as [[<- <-]|[_ Hi]].
    + unfold children in Hc. simpl in Hc.
      repeat (apply elem_of_cons in Hc as [->|Hc]; [vm_compute; eauto|]).
      by apply not_elem_of_nil in Hc.
    + apply lookup_singleton_Some in Hi as [<- <-]. by apply not_elem_of_nil in Hc.
  - vm_compute. eauto.
Defined.
