(* ===== verification/ObjectCache.v ===== *)
(** The in-memory object cache of [src/src/cachekit/object_cache.py], class
    [ObjectCache]: TTL, LRU eviction under an entry bound and a byte bound, and
    stale-while-revalidate refreshes guarded by generation tokens.

    [V] is the type of the cached references and [estimate] the size estimate
    ([ObjectSize]).  A clock reading [time.monotonic()] is an argument, one per
    call the code makes; [jitter] is the value of [random.uniform(0.9, 1.1)]. *)
From Stdlib Require Import ZArith Lia SpecFloat.
From stdpp Require Import base list numbers option strings.
From S2P Require Import Prelude PyFloat PyDict.

Local Open Scope Z_scope.

Section object_cache.
Context {V : Type} (estimate : V -> Z).

Record _Entry := mkEntry {
  value : V;
  expires_at : float;
  cached_at : float;
  size_bytes : Z;
  generation : Z
}.

Record ObjectCache := mkObjectCache {
  _max_entries : option Z;
  _max_size_bytes : option Z;
  _swr_threshold_ratio : float;
  _store : list (pystr * _Entry);
  _hits : Z;
  _misses : Z;
  _current_size_bytes : Z;
  _refreshing : list (pystr * Z);
  _generation : Z
}.

Definition below_one (b : option Z) : bool :=
  match b with Some n => n <? 1 | None => false end.

(** [ObjectCache(max_entries, max_size_bytes, swr_threshold_ratio)] *)
Definition init (max_entries max_size : option Z) (ratio : float)
  : result py_exn ObjectCache :=
  match max_entries, max_size with
  | None, None => Err ValueError
  | _, _ =>
      if below_one max_entries then Err ValueError
      else if below_one max_size then Err ValueError
      else if negb (flt (S754_zero false) ratio && fle ratio (fofZ 1)) then Err ValueError
      else Ok (mkObjectCache max_entries max_size ratio [] 0 0 0 [] 0)
  end.

Definition with_store (c : ObjectCache) d size refr : ObjectCache :=
  mkObjectCache (_max_entries c) (_max_size_bytes c) (_swr_threshold_ratio c) d
    (_hits c) (_misses c) size refr (_generation c).

Definition hit (c : ObjectCache) : ObjectCache :=
  mkObjectCache (_max_entries c) (_max_size_bytes c) (_swr_threshold_ratio c) (_store c)
    (_hits c + 1) (_misses c) (_current_size_bytes c) (_refreshing c) (_generation c).

Definition miss (c : ObjectCache) : ObjectCache :=
  mkObjectCache (_max_entries c) (_max_size_bytes c) (_swr_threshold_ratio c) (_store c)
    (_hits c) (_misses c + 1) (_current_size_bytes c) (_refreshing c) (_generation c).

Definition set_refreshing (c : ObjectCache) refr : ObjectCache :=
  with_store c (_store c) (_current_size_bytes c) refr.

Definition touch (k : pystr) (c : ObjectCache) : ObjectCache :=
  with_store c (od_move_to_end k (_store c)) (_current_size_bytes c) (_refreshing c).

Definition expired (now : float) (e : _Entry) : bool := fge now (expires_at e).

Definition _remove (k : pystr) (c : ObjectCache) : ObjectCache :=
  match od_get k (_store c) with
  | None => c
  | Some e =>
      with_store c (od_pop k (_store c)) (_current_size_bytes c - size_bytes e)
        (od_pop k (_refreshing c))
  end.

Definition get (now : float) (k : pystr) (c : ObjectCache) : option V * ObjectCache :=
  match od_get k (_store c) with
  | None => (None, miss c)
  | Some e =>
      if expired now e then (None, miss (_remove k c))
      else (Some (value e), hit (touch k c))
  end.

Record swr_result := mkSwr {
  swr_value : option V;
  needs_refresh : bool;
  version : Z
}.

(** The entry is past its jittered share of the TTL. *)
Definition stale (now ttl jitter : float) (e : _Entry) (c : ObjectCache) : bool :=
  fgt (fsub now (cached_at e)) (fmul (fmul ttl (_swr_threshold_ratio c)) jitter).

Definition get_with_swr (now jitter : float) (k : pystr) (ttl : float) (c : ObjectCache)
  : swr_result * ObjectCache :=
  match od_get k (_store c) with
  | None => (mkSwr None false 0, miss c)
  | Some e =>
      if expired now e then (mkSwr None false 0, miss (_remove k c))
      else
        let c1 := hit (touch k c) in
        if stale now ttl jitter e c && negb (od_mem k (_refreshing c)) then
          (mkSwr (Some (value e)) true (generation e),
           set_refreshing c1 (od_set k (generation e) (_refreshing c1)))
        else (mkSwr (Some (value e)) false (generation e), c1)
  end.

(** [del self._refreshing[key]] when this version owns the marker. *)
Definition release_marker (k : pystr) (ver : Z) (c : ObjectCache) : ObjectCache :=
  match od_get k (_refreshing c) with
  | Some g => if g =? ver then set_refreshing c (od_pop k (_refreshing c)) else c
  | None => c
  end.

Definition over_bounds (extra_bytes : Z) (need_slot : bool) (c : ObjectCache) : bool :=
  (need_slot &&
   match _max_entries c with Some n => n <=? zlen (_store c) | None => false end) ||
  match _max_size_bytes c with
  | Some m => m <? _current_size_bytes c + extra_bytes
  | None => false
  end.

Definition remove_all (ks : list pystr) (c : ObjectCache) : ObjectCache :=
  foldl (fun c k => _remove k c) c ks.

(** [while self._store and over_bounds(): self._remove(next(iter(self._store)))] *)
Fixpoint evict_lru (fuel : nat) (extra_bytes : Z) (need_slot : bool) (c : ObjectCache)
  : ObjectCache :=
  match fuel with
  | O => c
  | S fuel' =>
      match _store c with
      | [] => c
      | (k, _) :: _ =>
          if over_bounds extra_bytes need_slot c
          then evict_lru fuel' extra_bytes need_slot (_remove k c)
          else c
      end
  end.

Definition _evict (now : float) (extra_bytes : Z) (need_slot : bool) (c : ObjectCache)
  : ObjectCache :=
  if negb (over_bounds extra_bytes need_slot c) then c
  else
    let c1 := remove_all (od_keys (filter (fun p => expired now p.2 = true) (_store c))) c in
    evict_lru (length (_store c1)) extra_bytes need_slot c1.

(** [not math.isfinite(ttl) or ttl < 1] *)
Definition bad_ttl (ttl : float) : bool := negb (isfinite ttl) || flt ttl (fofZ 1).

Definition estimated (v : V) (c : ObjectCache) : Z :=
  match _max_size_bytes c with Some _ => estimate v | None => 0 end.

Definition too_large (size : Z) (c : ObjectCache) : bool :=
  match _max_size_bytes c with Some m => m <? size | None => false end.

Definition complete_refresh (now now_evict : float) (k : pystr) (ver : Z) (v : V)
    (ttl : float) (c : ObjectCache) : result py_exn (bool * ObjectCache) :=
  if bad_ttl ttl then Err ValueError
  else
    let size := estimated v c in
    let c1 := release_marker k ver c in
    Ok match od_get k (_store c1) with
       | None => (false, c1)
       | Some e =>
           if negb (generation e =? ver) then (false, c1)
           else if too_large size c then (false, _remove k c1)
           else
             let e' := mkEntry v (fadd now ttl) now size (generation e) in
             let c2 :=
               with_store c1 (od_set k e' (_store c1))
                 (_current_size_bytes c1 + (size - size_bytes e)) (_refreshing c1) in
             (true, _evict now_evict 0 false (touch k c2))
       end.

Definition cancel_refresh (k : pystr) (ver : Z) (c : ObjectCache) : ObjectCache :=
  release_marker k ver c.

Definition put (now_evict now : float) (k : pystr) (v : V) (ttl : float) (c : ObjectCache)
  : result py_exn ObjectCache :=
  if bad_ttl ttl then Err ValueError
  else
    let size := estimated v c in
    if too_large size c then Ok (if od_mem k (_store c) then _remove k c else c)
    else
      let c1 := if od_mem k (_store c) then _remove k c else c in
      let c2 := _evict now_evict size true c1 in
      let g := _generation c2 + 1 in
      let e := mkEntry v (fadd now ttl) now size g in
      Ok (mkObjectCache (_max_entries c2) (_max_size_bytes c2) (_swr_threshold_ratio c2)
            (od_set k e (_store c2)) (_hits c2) (_misses c2)
            (_current_size_bytes c2 + size) (_refreshing c2) g).

Definition delete (k : pystr) (c : ObjectCache) : bool * ObjectCache :=
  if od_mem k (_store c) then (true, _remove k c) else (false, c).

Definition clear (c : ObjectCache) : ObjectCache := with_store c [] 0 [].

Definition size (c : ObjectCache) : Z := zlen (_store c).

(** ** Runs *)

Inductive op :=
  | OGet (now : float) (k : pystr)
  | OSwr (now jitter : float) (k : pystr) (ttl : float)
  | OComplete (now now_evict : float) (k : pystr) (ver : Z) (v : V) (ttl : float)
  | OCancel (k : pystr) (ver : Z)
  | OPut (now_evict now : float) (k : pystr) (v : V) (ttl : float)
  | ODelete (k : pystr)
  | OClear.

(** A call that raises does so before it changes the cache. *)
Definition step (c : ObjectCache) (o : op) : ObjectCache :=
  match o with
  | OGet now k => (get now k c).2
  | OSwr now j k ttl => (get_with_swr now j k ttl c).2
  | OComplete now now' k g v ttl =>
      match complete_refresh now now' k g v ttl c with Ok (_, c') => c' | Err _ => c end
  | OCancel k g => cancel_refresh k g c
  | OPut now' now k v ttl => match put now' now k v ttl c with Ok c' => c' | Err _ => c end
  | ODelete k => (delete k c).2
  | OClear => clear c
  end.

Definition run (c : ObjectCache) (os : list op) : ObjectCache := foldl step c os.

(** ** The invariant *)

(** What every state satisfies, stated for any byte allowance [extra] and slot
    already set aside: unique keys, exact byte accounting, non-negative sizes,
    generations handed out by the counter, and a marker only for the live
    generation of its key. *)
Record core_inv (c : ObjectCache) : Prop := mkCore {
  ci_keys : od_wf (_store c);
  ci_marks : od_wf (_refreshing c);
  ci_size : _current_size_bytes c = od_total size_bytes (_store c);
  ci_entries : Forall (fun p => 0 <= size_bytes p.2 /\ generation p.2 <= _generation c) (_store c);
  ci_marker : forall k g, od_get k (_refreshing c) = Some g ->
    exists e, od_get k (_store c) = Some e /\ generation e = g
}.

Definition within_entries (c : ObjectCache) : Prop :=
  match _max_entries c with Some n => zlen (_store c) <= n | None => True end.

Definition within_bytes (c : ObjectCache) : Prop :=
  match _max_size_bytes c with Some m => _current_size_bytes c <= m | None => True end.

Record inv (c : ObjectCache) : Prop := mkInv {
  inv_core : core_inv c;
  inv_entries : within_entries c;
  inv_bytes : within_bytes c
}.

Lemma ci_nonneg c : core_inv c -> Forall (fun p => 0 <= size_bytes p.2) (_store c).
Proof. intros [_ _ _ H _]. apply (list.Forall_impl _ _ _ H). tauto. Qed.

Lemma remove_cases k c :
  _remove k c = c /\ od_get k (_store c) = None \/
  exists e, od_get k (_store c) = Some e /\
    _remove k c = with_store c (od_pop k (_store c)) (_current_size_bytes c - size_bytes e)
      (od_pop k (_refreshing c)).
Proof. unfold _remove. destruct (od_get k (_store c)); eauto. Qed.

Lemma remove_core k c : core_inv c -> core_inv (_remove k c).
Proof.
  intros [Hk Hm Hs He Hr]. unfold _remove.
  destruct (od_get k (_store c)) as [e|] eqn:E; [|by constructor].
  constructor; simpl; auto with pydb.
  - rewrite Hs. by rewrite (od_total_pop _ _ _ _ E).
  - intros k' g Hg. destruct (decide (k' = k)) as [->|N].
    + by rewrite od_get_pop_eq in Hg.
    + rewrite od_get_pop_ne in Hg by done. rewrite od_get_pop_ne by done. auto.
Qed.

Lemma remove_length k c : zlen (_store (_remove k c)) <= zlen (_store c).
Proof.
  destruct (remove_cases k c) as [[-> _]|(e & E & ->)]; [lia|]. simpl.
  apply od_length_pop in E. unfold zlen. lia.
Qed.

Lemma remove_bytes k c :
  core_inv c -> _current_size_bytes (_remove k c) <= _current_size_bytes c.
Proof.
  intros Hc. destruct (remove_cases k c) as [[-> _]|(e & E & ->)]; [lia|]. simpl.
  pose proof (od_Forall_get _ _ _ _ (ci_nonneg _ Hc) E). simpl in *. lia.
Qed.

Lemma remove_config k c :
  _max_entries (_remove k c) = _max_entries c /\
  _max_size_bytes (_remove k c) = _max_size_bytes c /\
  _generation (_remove k c) = _generation c.
Proof. destruct (remove_cases k c) as [[-> _]|(e & E & ->)]; done. Qed.

Lemma remove_get_ne k k' c :
  k' <> k -> od_get k' (_store (_remove k c)) = od_get k' (_store c).
Proof.
  intros N. destruct (remove_cases k c) as [[-> _]|(e & E & ->)]; [done|]. simpl.
  by apply od_get_pop_ne.
Qed.

Lemma remove_get_eq k c : core_inv c -> od_get k (_store (_remove k c)) = None.
Proof.
  intros Hc. destruct (remove_cases k c) as [[-> E]|(e & E & ->)]; [done|]. simpl.
  apply od_get_pop_eq, Hc.
Qed.

Lemma remove_marker_ne k k' c :
  k' <> k -> od_get k' (_refreshing (_remove k c)) = od_get k' (_refreshing c).
Proof.
  intros N. destruct (remove_cases k c) as [[-> _]|(e & E & ->)]; [done|]. simpl.
  by apply od_get_pop_ne.
Qed.

(** ** Eviction *)

(** The bound the pending write needs after an eviction. *)
Definition fits (extra : Z) (need_slot : bool) (c : ObjectCache) : Prop :=
  over_bounds extra need_slot c = false.

(** How a run of removals relates two states: the configuration and the
    generation counter are kept, entries and markers only disappear, bytes and
    entries only decrease. *)
Record shrinks (c c' : ObjectCache) : Prop := mkShrinks {
  sh_core : core_inv c -> core_inv c';
  sh_config : _max_entries c' = _max_entries c /\ _max_size_bytes c' = _max_size_bytes c /\
    _generation c' = _generation c;
  sh_length : zlen (_store c') <= zlen (_store c);
  sh_bytes : core_inv c -> _current_size_bytes c' <= _current_size_bytes c;
  sh_lookup : forall k e, od_get k (_store c') = Some e -> core_inv c ->
    od_get k (_store c) = Some e;
  sh_marker : forall k g, core_inv c -> od_get k (_refreshing c) = Some g ->
    is_Some (od_get k (_store c')) -> od_get k (_refreshing c') = Some g
}.

Lemma shrinks_refl c : shrinks c c.
Proof. by constructor. Qed.

Lemma shrinks_trans a b c : shrinks a b -> shrinks b c -> shrinks a c.
Proof.
  intros [A1 (A2 & A3 & A4) A5 A6 A7 A8] [B1 (B2 & B3 & B4) B5 B6 B7 B8]. constructor.
  - auto.
  - split_and!; congruence.
  - lia.
  - intros Hc. specialize (A6 Hc). specialize (B6 (A1 Hc)). lia.
  - auto.
  - intros k g Hc Hg [e He]. apply B8; [auto| |by exists e].
    apply A8; [done|done|]. exists e. auto.
Qed.

Lemma remove_shrinks k c : shrinks c (_remove k c).
Proof.
  constructor.
  - apply remove_core.
  - apply remove_config.
  - apply remove_length.
  - apply remove_bytes.
  - intros k' e He Hc. destruct (decide (k' = k)) as [->|N].
    + by rewrite remove_get_eq in He.
    + by rewrite remove_get_ne in He.
  - intros k' g Hc Hg [e He]. destruct (decide (k' = k)) as [->|N].
    + by rewrite remove_get_eq in He.
    + by rewrite remove_marker_ne.
Qed.

Lemma remove_all_shrinks ks c : shrinks c (remove_all ks c).
Proof.
  revert c. induction ks as [|k ks IH]; intros c; simpl; [apply shrinks_refl|].
  eapply shrinks_trans; [apply remove_shrinks|apply IH].
Qed.

Lemma evict_lru_shrinks fuel extra slot c : shrinks c (evict_lru fuel extra slot c).
Proof.
  revert c. induction fuel as [|fuel IH]; intros c; simpl; [apply shrinks_refl|].
  destruct (_store c) as [|[k e] r]; [apply shrinks_refl|].
  destruct (over_bounds extra slot c); [|apply shrinks_refl].
  eapply shrinks_trans; [apply remove_shrinks|apply IH].
Qed.

Lemma evict_shrinks now extra slot c : shrinks c (_evict now extra slot c).
Proof.
  unfold _evict. destruct (negb _); [apply shrinks_refl|].
  eapply shrinks_trans; [apply remove_all_shrinks|apply evict_lru_shrinks].
Qed.

(** With the store's length as fuel the loop stops for a reason of the code. *)
Lemma evict_lru_stops fuel extra slot c :
  (length (_store c) <= fuel)%nat ->
  fits extra slot (evict_lru fuel extra slot c) \/ _store (evict_lru fuel extra slot c) = [].
Proof.
  revert c. induction fuel as [|fuel IH]; intros c Hf; simpl.
  - right. destruct (_store c); simpl in *; [done|lia].
  - destruct (_store c) as [|[k e] r] eqn:E; [by right|].
    destruct (over_bounds extra slot c) eqn:O; [|by left].
    apply IH. unfold _remove. rewrite E. simpl. rewrite decide_True by done. simpl in *.
    rewrite decide_True by done. lia.
Qed.

Lemma evict_stops now extra slot c :
  fits extra slot (_evict now extra slot c) \/ _store (_evict now extra slot c) = [].
Proof.
  unfold _evict. destruct (over_bounds extra slot c) eqn:O; simpl; [|by left].
  by apply evict_lru_stops.
Qed.

(** The bounds a configuration may have: [__init__] accepts no other. *)
Definition config_ok (c : ObjectCache) : Prop :=
  match _max_entries c with Some n => 1 <= n | None => True end /\
  match _max_size_bytes c with Some m => 1 <= m | None => True end.

(** After an eviction the pending write fits. *)
Lemma evict_fits now extra slot c :
  core_inv c -> config_ok c -> too_large extra c = false ->
  fits extra slot (_evict now extra slot c).
Proof.
  intros Hc [Hn Hm] Hl.
  destruct (evict_stops now extra slot c) as [H|H]; [done|].
  destruct (evict_shrinks now extra slot c) as [S1 (S2 & S3 & _) _ _ _ _].
  specialize (S1 Hc). pose proof (ci_size _ S1) as Hs. rewrite H in Hs.
  change (od_total size_bytes []) with 0 in Hs.
  unfold fits, over_bounds, too_large in *. rewrite H, S2, S3, Hs.
  change (zlen (A:=pystr * _Entry) []) with 0. rewrite Z.add_0_l.
  destruct (_max_entries c) as [n|], (_max_size_bytes c) as [m|], slot; simpl; zbool;
    try (rewrite (proj2 (Z.leb_gt n 0)) by lia);
    try (rewrite (proj2 (Z.ltb_ge m extra)) by lia); done.
Qed.

(** ** Every operation keeps the invariant *)

Hypothesis estimate_nonneg : forall v, 0 <= estimate v.

Lemma estimated_nonneg v c : 0 <= estimated v c.
Proof. unfold estimated. destruct (_max_size_bytes c); [apply estimate_nonneg|lia]. Qed.

Lemma shrinks_inv c c' : shrinks c c' -> inv c -> inv c'.
Proof.
  intros [S1 (S2 & S3 & _) S4 S5 _ _] [Hc He Hb]. specialize (S5 Hc).
  constructor; [auto| |].
  - unfold within_entries in *. rewrite S2. destruct (_max_entries c); [lia|done].
  - unfold within_bytes in *. rewrite S3. destruct (_max_size_bytes c); [lia|done].
Qed.

Lemma touch_get k k' c :
  core_inv c -> od_get k' (_store (touch k c)) = od_get k' (_store c).
Proof. intros [Hk _ _ _ _]. by apply od_get_move. Qed.

Lemma touch_core k c : core_inv c -> core_inv (touch k c).
Proof.
  intros [Hk Hm Hs He Hr]. constructor; simpl; auto with pydb.
  - by rewrite od_total_move.
  - intros k' g Hg. rewrite od_get_move by done. auto.
Qed.

Lemma touch_inv k c : inv c -> inv (touch k c).
Proof.
  intros [Hc Hn Hb]. constructor; [by apply touch_core| |done].
  - unfold within_entries in *. simpl. destruct (_max_entries c); [|done].
    unfold zlen in *. by rewrite od_length_move.
Qed.

Lemma hit_inv c : inv c -> inv (hit c).
Proof. intros [[] ? ?]. by constructor. Qed.

Lemma miss_inv c : inv c -> inv (miss c).
Proof. intros [[] ? ?]. by constructor. Qed.

Lemma remove_inv k c : inv c -> inv (_remove k c).
Proof. apply shrinks_inv, remove_shrinks. Qed.

Lemma oc_get_inv now k c : inv c -> inv (get now k c).2.
Proof.
  intros H. unfold get. destruct (od_get k (_store c)) as [e|]; simpl; [|by apply miss_inv].
  destruct (expired now e); simpl; [by apply miss_inv, remove_inv|by apply hit_inv, touch_inv].
Qed.

(** Marking the live generation of a key. *)
Lemma mark_inv k e c :
  inv c -> od_get k (_store c) = Some e ->
  inv (set_refreshing c (od_set k (generation e) (_refreshing c))).
Proof.
  intros [[Hk Hm Hs He Hr] Hn Hb] E. constructor; [constructor|..]; simpl; auto with pydb.
  intros k' g Hg. destruct (decide (k' = k)) as [->|N].
  - rewrite od_get_set_eq in Hg. simplify_eq. eauto.
  - rewrite od_get_set_ne in Hg by done. auto.
Qed.

Lemma get_with_swr_inv now j k ttl c : inv c -> inv (get_with_swr now j k ttl c).2.
Proof.
  intros H. unfold get_with_swr.
  destruct (od_get k (_store c)) as [e|] eqn:E; simpl; [|by apply miss_inv].
  destruct (expired now e); simpl; [by apply miss_inv, remove_inv|].
  destruct (stale now ttl j e c && _); simpl; [|by apply hit_inv, touch_inv].
  apply (mark_inv k e (hit (touch k c))); [by apply hit_inv, touch_inv|]. simpl.
  rewrite od_get_move; [done|apply H].
Qed.

Lemma release_cases k g c :
  release_marker k g c = c \/
  release_marker k g c = set_refreshing c (od_pop k (_refreshing c)).
Proof.
  unfold release_marker. destruct (od_get k (_refreshing c)) as [g'|]; [|by left].
  destruct (g' =? g); auto.
Qed.

Lemma release_store k g c : _store (release_marker k g c) = _store c.
Proof. by destruct (release_cases k g c) as [-> | ->]. Qed.

Lemma release_inv k g c : inv c -> inv (release_marker k g c).
Proof.
  intros H. destruct (release_cases k g c) as [-> | ->]; [done|].
  destruct H as [[Hk Hm Hs He Hr] Hn Hb]. constructor; [constructor|..]; simpl; auto with pydb.
  intros k' g' Hg. destruct (decide (k' = k)) as [->|N].
  - by rewrite od_get_pop_eq in Hg.
  - rewrite od_get_pop_ne in Hg by done. auto.
Qed.

Lemma release_config k g c :
  _max_entries (release_marker k g c) = _max_entries c /\
  _max_size_bytes (release_marker k g c) = _max_size_bytes c /\
  _generation (release_marker k g c) = _generation c.
Proof. by destruct (release_cases k g c) as [-> | ->]. Qed.

(** Rewriting the live entry of a key under its generation keeps the accounts. *)
Lemma rewrite_core k e v x t sz c :
  core_inv c -> od_get k (_store c) = Some e -> 0 <= sz ->
  core_inv (with_store c (od_set k (mkEntry v x t sz (generation e)) (_store c))
    (_current_size_bytes c + (sz - size_bytes e)) (_refreshing c)).
Proof.
  intros Hc E Hsz. pose proof (od_Forall_get _ _ _ _ (ci_entries _ Hc) E) as [_ Hg].
  destruct Hc as [Hk Hm Hs He Hr]. constructor; simpl; auto with pydb.
  - rewrite od_total_set, E. simpl. lia.
  - apply od_Forall_set; [done|]. intros k' <-. simpl in *. lia.
  - intros k' g Hg'. destruct (decide (k' = k)) as [->|N].
    + rewrite od_get_set_eq. destruct (Hr _ _ Hg') as (e0 & E0 & <-). simplify_eq. eauto.
    + rewrite od_get_set_ne by done. auto.
Qed.

Lemma fits_within extra slot c :
  fits extra slot c -> 0 <= extra -> within_bytes c.
Proof.
  unfold fits, over_bounds, within_bytes. intros H Hx. zbool.
  destruct (_max_size_bytes c); [zbool; lia|done].
Qed.

Lemma complete_refresh_inv now now' k g v ttl c b c' :
  inv c -> config_ok c -> complete_refresh now now' k g v ttl c = Ok (b, c') -> inv c'.
Proof.
  intros H Hcfg. unfold complete_refresh. destruct (bad_ttl ttl); [done|].
  pose proof (release_inv k g c H) as H1. pose proof (release_config k g c) as (C1 & C2 & C3).
  destruct (od_get k (_store (release_marker k g c))) as [e|] eqn:E; [|by intros [= <- <-]].
  destruct (negb _); [by intros [= <- <-]|].
  destruct (too_large (estimated v c) c) eqn:T;
    [intros [= <- <-]; by apply remove_inv|]. intros [= <- <-].
  set (c1 := release_marker k g c) in *.
  pose proof (rewrite_core k e v (fadd now ttl) now _ c1 (inv_core _ H1) E (estimated_nonneg v c))
    as Hcore.
  set (c2 := with_store c1 _ _ _) in *.
  assert (Hn : within_entries (touch k c2)).
  { destruct H1 as [_ Hn _]. unfold within_entries, touch, c2 in *. simpl in *.
    destruct (_max_entries c1); [|done]. unfold zlen in *. rewrite od_length_move.
    by rewrite (od_length_set _ _ _ _ E). }
  pose proof (touch_core k c2 Hcore) as Hcore'.
  pose proof (evict_shrinks now' 0 false (touch k c2)) as [S1 (S2 & S3 & _) S4 _ _ _].
  assert (Hcfg2 : config_ok (touch k c2)).
  { unfold config_ok, touch, c2. simpl. by rewrite C1, C2. }
  constructor; [auto| |].
  - unfold within_entries in *. rewrite S2. destruct (_max_entries (touch k c2)); [lia|done].
  - eapply fits_within; [apply evict_fits; [done|done|]|lia].
    destruct Hcfg2 as [_ Hm]. unfold too_large. destruct (_max_size_bytes (touch k c2)); [|done].
    apply Z.ltb_ge. lia.
Qed.

Lemma oc_put_inv now' now k v ttl c c' :
  inv c -> config_ok c -> put now' now k v ttl c = Ok c' -> inv c'.
Proof.
  intros H Hcfg. unfold put. destruct (bad_ttl ttl); [done|].
  assert (H0 : inv (if od_mem k (_store c) then _remove k c else c))
    by (destruct (od_mem k (_store c)); [by apply remove_inv|done]).
  destruct (too_large (estimated v c) c) eqn:T; [by intros [= <-]|].
  set (c1 := if od_mem k (_store c) then _remove k c else c) in *.
  assert (G1 : od_get k (_store c1) = None).
  { unfold c1. destruct (od_mem k (_store c)) eqn:M; [apply remove_get_eq, H|by apply od_mem_false]. }
  assert (C1 : config_ok c1 /\ _max_size_bytes c1 = _max_size_bytes c).
  { unfold c1, config_ok in *. destruct (remove_config k c) as (A & B & _).
    destruct (od_mem k (_store c)); [by rewrite A, B|done]. }
  destruct C1 as [C1 C1']. clearbody c1. intros [= <-].
  pose proof (evict_fits now' (estimated v c) true c1 (inv_core _ H0) C1) as F.
  unfold too_large in *. rewrite C1' in F. specialize (F T).
  destruct (evict_shrinks now' (estimated v c) true c1) as [S1 (S2 & S3 & S4) S5 _ S6 _].
  set (c2 := _evict now' (estimated v c) true c1) in *. clearbody c2.
  specialize (S1 (inv_core _ H0)). pose proof (estimated_nonneg v c) as Hz.
  assert (G2 : od_get k (_store c2) = None).
  { destruct (od_get k (_store c2)) as [e|] eqn:E; [|done].
    rewrite (S6 k e E (inv_core _ H0)) in G1. done. }
  destruct S1 as [Hk Hm Hs He Hr]. unfold fits, over_bounds in F. simpl in F.
  constructor; [constructor|..]; simpl; auto with pydb.
  - rewrite od_total_set, G2. simpl. lia.
  - apply od_Forall_set; [|intros k' <-; simpl; lia].
    apply (list.Forall_impl _ _ _ He). intros p. lia.
  - intros k' g Hg. destruct (Hr _ _ Hg) as (e & E & Eg). destruct (decide (k' = k)) as [->|N].
    + by rewrite G2 in E.
    + rewrite od_get_set_ne by done. eauto.
  - unfold within_entries. simpl. rewrite od_set_None by done.
    destruct (_max_entries c2); [|done]. zbool. rewrite zlen_app.
    change (zlen [(k, mkEntry v (fadd now ttl) now (estimated v c) (_generation c2 + 1))]) with 1.
    lia.
  - unfold within_bytes. simpl. zbool. destruct (_max_size_bytes c2); [zbool; lia|done].
Qed.

Lemma oc_clear_inv c : config_ok c -> inv (clear c).
Proof.
  intros [Hn Hm]. constructor; [constructor|..]; simpl; try done; try apply od_wf_nil.
  - unfold within_entries. simpl. destruct (_max_entries c); [|done]. unfold zlen. simpl. lia.
  - unfold within_bytes. simpl. destruct (_max_size_bytes c); [lia|done].
Qed.

Lemma oc_step_inv o c : inv c -> config_ok c -> inv (step c o).
Proof.
  intros H Hc. destruct o as [now k|now j k ttl|now now' k g v ttl|k g|now' now k v ttl|k|]; simpl.
  - by apply oc_get_inv.
  - by apply get_with_swr_inv.
  - destruct (complete_refresh now now' k g v ttl c) as [[b c']|] eqn:E; [|done].
    by eapply complete_refresh_inv.
  - by apply release_inv.
  - destruct (put now' now k v ttl c) eqn:E; [by eapply oc_put_inv|done].
  - unfold delete. destruct (od_mem k (_store c)); simpl; [by apply remove_inv|done].
  - by apply oc_clear_inv.
Qed.

(** The configuration never changes, the generation counter never decreases. *)
Definition evolves (c c' : ObjectCache) : Prop :=
  _max_entries c' = _max_entries c /\ _max_size_bytes c' = _max_size_bytes c /\
  _generation c <= _generation c'.

Lemma evolves_refl c : evolves c c.
Proof. split_and!; (done || lia). Qed.

Lemma evolves_trans a b c : evolves a b -> evolves b c -> evolves a c.
Proof. intros (A1 & A2 & A3) (B1 & B2 & B3). split_and!; (congruence || lia). Qed.

Lemma shrinks_evolves c c' : shrinks c c' -> evolves c c'.
Proof. intros [_ (A & B & C) _ _ _ _]. split_and!; (done || lia). Qed.

Lemma release_evolves k g c : evolves c (release_marker k g c).
Proof. destruct (release_config k g c) as (A & B & C). split_and!; (done || lia). Qed.

Lemma step_evolves o c : evolves c (step c o).
Proof.
  pose proof (fun k c => shrinks_evolves _ _ (remove_shrinks k c)) as R.
  pose proof (fun n x s c => shrinks_evolves _ _ (evict_shrinks n x s c)) as Ev.
  destruct o as [now k|now j k ttl|now now' k g v ttl|k g|now' now k v ttl|k|]; simpl;
    try apply evolves_refl.
  - unfold get. destruct (od_get k (_store c)) as [e|]; [|apply (evolves_refl c)].
    destruct (expired now e); simpl; [apply (R k c)|apply (evolves_refl c)].
  - unfold get_with_swr. destruct (od_get k (_store c)) as [e|]; [|apply (evolves_refl c)].
    destruct (expired now e); simpl; [apply (R k c)|].
    destruct (stale _ _ _ _ _ && _); apply (evolves_refl c).
  - unfold complete_refresh. destruct (bad_ttl ttl); [apply evolves_refl|].
    pose proof (release_evolves k g c) as Re.
    destruct (od_get k (_store (release_marker k g c))) as [e|]; [|done].
    destruct (negb _); [done|]. destruct (too_large _ _); (eapply evolves_trans; [apply Re|]);
      [apply R|].
    match goal with |- context [_evict ?n ?x ?b ?d] => pose proof (Ev n x b d) as E end.
    eapply evolves_trans; [|apply E]. apply (evolves_refl (release_marker k g c)).
  - apply release_evolves.
  - unfold put. destruct (bad_ttl ttl); [apply evolves_refl|].
    assert (Q : evolves c (if od_mem k (_store c) then _remove k c else c))
      by (destruct (od_mem k (_store c)); [apply R|apply evolves_refl]).
    destruct (too_large _ _); [done|]. eapply evolves_trans; [apply Q|].
    match goal with |- context [_evict ?n ?x ?b ?d] => pose proof (Ev n x b d) as E end.
    eapply evolves_trans; [apply E|]. split_and!; [done|done|simpl; lia].
  - unfold delete. destruct (od_mem k (_store c)); simpl; [apply R|apply evolves_refl].
  - apply (evolves_refl c).
Qed.

Lemma evolves_config_ok c c' : evolves c c' -> config_ok c -> config_ok c'.
Proof. unfold config_ok. intros (-> & -> & _). done. Qed.

Lemma step_config_ok o c : config_ok c -> config_ok (step c o).
Proof. apply evolves_config_ok, step_evolves. Qed.

Lemma run_evolves os c : evolves c (run c os).
Proof.
  revert c. induction os as [|o os IH]; intros c; simpl; [apply evolves_refl|].
  eapply evolves_trans; [apply step_evolves|apply IH].
Qed.

Lemma oc_run_inv_from os c : inv c -> config_ok c -> inv (run c os).
Proof.
  revert c. induction os as [|o os IH]; intros c H Hc; simpl; [done|].
  apply IH; [by apply oc_step_inv|by apply step_config_ok].
Qed.

Lemma empty_ok me ms r :
  below_one me = false -> below_one ms = false ->
  inv (mkObjectCache me ms r [] 0 0 0 [] 0) /\ config_ok (mkObjectCache me ms r [] 0 0 0 [] 0).
Proof.
  unfold below_one. intros H1 H2.
  assert (C : config_ok (mkObjectCache me ms r [] 0 0 0 [] 0)).
  { unfold config_ok. simpl. destruct me, ms; zbool; split; (done || lia). }
  split; [|done]. destruct C as [C1 C2]. simpl in *.
  constructor; [constructor|..]; simpl; try done; try apply od_wf_nil.
  - unfold within_entries, zlen. simpl. destruct me; [lia|done].
  - unfold within_bytes. simpl. destruct ms; [lia|done].
Qed.

Lemma init_ok me ms r c : init me ms r = Ok c -> inv c /\ config_ok c.
Proof.
  unfold init. intros H.
  assert (E : (if below_one me then Err ValueError
    else if below_one ms then Err ValueError
    else if negb (flt (S754_zero false) r && fle r (fofZ 1)) then Err ValueError
    else Ok (mkObjectCache me ms r [] 0 0 0 [] 0)) = Ok c) by (by destruct me, ms).
  clear H. destruct (below_one me) eqn:E1, (below_one ms) eqn:E2; try done.
  destruct (negb _); [done|]. injection E as <-. by apply empty_ok.
Qed.

(** ** Generations *)

(** [ver] is the generation of the live entry of [k]. *)
Definition live (k : pystr) (ver : Z) (c : ObjectCache) : Prop :=
  exists e, od_get k (_store c) = Some e /\ generation e = ver.

Lemma shrinks_live c c' k ver : core_inv c -> shrinks c c' -> live k ver c' -> live k ver c.
Proof. intros Hc S (e & E & G). exists e. split; [|done]. by apply (sh_lookup _ _ S). Qed.

Lemma touch_live k' k ver c : core_inv c -> live k ver (touch k' c) <-> live k ver c.
Proof.
  intros Hc. unfold live. by setoid_rewrite (fun q => touch_get k' q c Hc).
Qed.

(** A dead generation stays dead: only [put] creates entries, and it stamps
    them with a generation the counter never handed out before. *)
Lemma step_dead o c k ver :
  inv c -> config_ok c -> ver <= _generation c -> ~ live k ver c ->
  ver <= _generation (step c o) /\ ~ live k ver (step c o).
Proof.
  intros H Hcfg Hv Hl.
  assert (Hc := inv_core _ H).
  assert (K : forall c', shrinks c c' -> ver <= _generation c' /\ ~ live k ver c').
  { intros c' S. destruct (sh_config _ _ S) as (_ & _ & ->). split; [done|].
    intros L. by apply Hl, (shrinks_live _ _ _ _ Hc S). }
  destruct o as [now k'|now j k' ttl|now now' k' g v ttl|k' g|now' now k' v ttl|k'|]; simpl.
  - unfold get. destruct (od_get k' (_store c)) as [e|]; [|done].
    destruct (expired now e); simpl.
    + apply (K (_remove k' c)), remove_shrinks.
    + split; [done|]. by rewrite (touch_live k' k ver c Hc).
  - unfold get_with_swr. destruct (od_get k' (_store c)) as [e|]; [|done].
    destruct (expired now e); simpl; [apply (K (_remove k' c)), remove_shrinks|].
    assert (ver <= _generation (hit (touch k' c)) /\ ~ live k ver (hit (touch k' c)))
      by (split; [done|by rewrite <- (touch_live k' k ver c Hc) in Hl]).
    by destruct (stale _ _ _ _ _ && _).
  - unfold complete_refresh. destruct (bad_ttl ttl); [done|].
    destruct (release_config k' g c) as (C1 & C2 & C3).
    pose proof (release_store k' g c) as C4. pose proof (release_inv k' g c H) as H1.
    set (c1 := release_marker k' g c) in *.
    assert (D1 : ver <= _generation c1 /\ ~ live k ver c1)
      by (unfold live in *; by rewrite C3, C4).
    clearbody c1.
    destruct (od_get k' (_store c1)) as [e|] eqn:E; [|done].
    destruct (negb _); [done|]. destruct (too_large _ _).
    { pose proof (remove_shrinks k' c1) as S. destruct (sh_config _ _ S) as (_ & _ & ->).
      split; [apply D1|]. intros L. by apply D1, (shrinks_live _ _ _ _ (inv_core _ H1) S). }
    pose proof (rewrite_core k' e v (fadd now ttl) now _ c1 (inv_core _ H1) E
      (estimated_nonneg v c)) as R.
    match goal with |- context [_evict ?n ?x ?b (touch k' ?d)] =>
      set (c2 := d) in *; pose proof (evict_shrinks n x b (touch k' c2)) as S end.
    destruct (sh_config _ _ S) as (_ & _ & ->). split; [apply D1|]. intros L.
    apply (shrinks_live _ _ _ _ (touch_core k' c2 R) S) in L.
    apply (touch_live k' k ver _ R) in L. destruct L as (e2 & E2 & G2).
    apply D1. unfold c2 in E2. simpl in E2. destruct (decide (k = k')) as [->|N].
    + rewrite od_get_set_eq in E2. simplify_eq. simpl in *. by exists e.
    + rewrite od_get_set_ne in E2 by done. by exists e2.
  - destruct (release_config k' g c) as (_ & _ & C3). unfold live, cancel_refresh in *.
    by rewrite C3, release_store.
  - unfold put. destruct (bad_ttl ttl); [done|].
    assert (S0 : shrinks c (if od_mem k' (_store c) then _remove k' c else c))
      by (destruct (od_mem k' (_store c)); [apply remove_shrinks|apply shrinks_refl]).
    destruct (too_large _ _); [by apply K|].
    match goal with |- context [_evict ?n ?x ?b ?d] =>
      pose proof (shrinks_trans _ _ _ S0 (evict_shrinks n x b d)) as S;
      set (c2 := _evict n x b d) in * end.
    destruct (K c2 S) as [K1 K2]. simpl. split; [lia|]. intros (e2 & E2 & G2).
    simpl in E2. destruct (decide (k = k')) as [->|N].
    + rewrite od_get_set_eq in E2. simplify_eq. simpl in *. lia.
    + rewrite od_get_set_ne in E2 by done. apply K2. by exists e2.
  - unfold delete. destruct (od_mem k' (_store c)); simpl; [apply K, remove_shrinks|done].
  - split; [done|]. intros (e & E & _). done.
Qed.

Lemma run_dead os c k ver :
  inv c -> config_ok c -> ver <= _generation c -> ~ live k ver c -> ~ live k ver (run c os).
Proof.
  revert c. induction os as [|o os IH]; intros c H Hc Hv Hl; simpl; [done|].
  destruct (step_dead o c k ver H Hc Hv Hl). apply IH; auto using oc_step_inv, step_config_ok.
Qed.

(** A refresh whose version is not live lands nowhere. *)
Lemma complete_dead now now' k ver v ttl c :
  bad_ttl ttl = false -> ~ live k ver c ->
  exists c', complete_refresh now now' k ver v ttl c = Ok (false, c') /\ _store c' = _store c.
Proof.
  intros Hb Hl. unfold complete_refresh. rewrite Hb, release_store.
  exists (release_marker k ver c). rewrite release_store. split; [|done].
  destruct (od_get k (_store c)) as [e|] eqn:E; [|done].
  destruct (Z.eqb_spec (generation e) ver) as [G|]; simpl; [|done].
  exfalso. apply Hl. by exists e.
Qed.

(** ** Single flight *)

(** The refresh [ver] of [k] holds the marker, or its entry is gone. *)
Definition in_flight (k : pystr) (ver : Z) (c : ObjectCache) : Prop :=
  od_get k (_refreshing c) = Some ver \/ ~ live k ver c.

(** The calls by which the refresh [ver] of [k] ends. *)
Definition ends (k : pystr) (ver : Z) (o : op) : bool :=
  match o with
  | OComplete _ _ k' ver' _ _ | OCancel k' ver' => bool_decide (k = k' /\ ver = ver')
  | _ => false
  end.

Lemma release_keeps k ver k' g c :
  inv c -> (k, ver) <> (k', g) -> od_get k (_refreshing c) = Some ver ->
  od_get k (_refreshing (release_marker k' g c)) = Some ver.
Proof.
  intros H N E. unfold release_marker. destruct (od_get k' (_refreshing c)) as [g'|] eqn:E'; [|done].
  destruct (Z.eqb_spec g' g) as [->|]; [|done]. simpl.
  destruct (decide (k = k')) as [->|Nk]; [congruence|]. by rewrite od_get_pop_ne.
Qed.

Lemma shrinks_in_flight c c' k ver :
  core_inv c -> shrinks c c' -> od_get k (_refreshing c) = Some ver -> in_flight k ver c'.
Proof.
  intros Hc S E. destruct (od_get k (_store c')) as [e|] eqn:Es.
  - left. apply (sh_marker _ _ S); [done|done|by exists e].
  - right. intros (e & E' & _). congruence.
Qed.

Lemma step_in_flight o c k ver :
  inv c -> config_ok c -> ver <= _generation c -> ends k ver o = false ->
  in_flight k ver c -> in_flight k ver (step c o).
Proof.
  intros H Hcfg Hv Hne [E|Hl]; [|right; by apply (step_dead o c k ver H Hcfg Hv Hl)].
  assert (Hc := inv_core _ H).
  assert (K : forall c', shrinks c c' -> in_flight k ver c')
    by (intros; by eapply shrinks_in_flight).
  destruct o as [now k'|now j k' ttl|now now' k' g v ttl|k' g|now' now k' v ttl|k'|]; simpl in *.
  - unfold get. destruct (od_get k' (_store c)) as [e|]; [|by left].
    destruct (expired now e); simpl; [apply (K (_remove k' c)), remove_shrinks|by left].
  - unfold get_with_swr. destruct (od_get k' (_store c)) as [e|] eqn:E'; [|by left].
    destruct (expired now e); simpl; [apply (K (_remove k' c)), remove_shrinks|].
    destruct (stale _ _ _ _ _); simpl; [|by left].
    destruct (od_mem k' (_refreshing c)) eqn:M; simpl; [by left|]. left. simpl.
    apply od_mem_false in M. rewrite od_get_set_ne; [done|]. intros ->. congruence.
  - apply bool_decide_eq_false in Hne. unfold complete_refresh.
    destruct (bad_ttl ttl); [by left|].
    pose proof (release_keeps k ver k' g c H ltac:(naive_solver) E) as E1.
    pose proof (release_inv k' g c H) as H1. set (c1 := release_marker k' g c) in *.
    clearbody c1. destruct (od_get k' (_store c1)) as [e|] eqn:Es; [|by left].
    destruct (negb _); [by left|]. destruct (too_large _ _).
    { eapply shrinks_in_flight; [apply H1|apply remove_shrinks|done]. }
    pose proof (rewrite_core k' e v (fadd now ttl) now _ c1 (inv_core _ H1) Es
      (estimated_nonneg v c)) as R.
    eapply shrinks_in_flight; [apply (touch_core k' _ R)|apply evict_shrinks|done].
  - apply bool_decide_eq_false in Hne. left. apply release_keeps; [done|naive_solver|done].
  - unfold put. destruct (bad_ttl ttl); [by left|].
    assert (S0 : shrinks c (if od_mem k' (_store c) then _remove k' c else c))
      by (destruct (od_mem k' (_store c)); [apply remove_shrinks|apply shrinks_refl]).
    destruct (too_large _ _); [by apply K|].
    match goal with |- context [_evict ?n ?x ?b ?d] =>
      pose proof (shrinks_trans _ _ _ S0 (evict_shrinks n x b d)) as S;
      set (c2 := _evict n x b d) in * end.
    destruct (K c2 S) as [?|Hl]; [by left|]. right. intros (e2 & E2 & G2).
    simpl in E2. destruct (decide (k = k')) as [->|N].
    + rewrite od_get_set_eq in E2. simplify_eq. simpl in *.
      destruct (sh_config _ _ S) as (_ & _ & G). lia.
    + rewrite od_get_set_ne in E2 by done. apply Hl. by exists e2.
  - unfold delete. destruct (od_mem k' (_store c)); simpl; [apply K, remove_shrinks|by left].
  - right. intros (e & E' & _). done.
Qed.

Lemma run_in_flight os c k ver :
  inv c -> config_ok c -> ver <= _generation c ->
  Forall (fun o => ends k ver o = false) os -> in_flight k ver c -> in_flight k ver (run c os).
Proof.
  intros H Hc Hv Hos. revert c H Hc Hv. induction Hos as [|o os Ho _ IH]; intros c H Hc Hv F; simpl;
    [done|].
  apply IH; [by apply oc_step_inv|by apply step_config_ok| |by apply step_in_flight].
  destruct (step_evolves o c) as (_ & _ & G). lia.
Qed.

(** ** The order of evictions *)

Definition over_with (extra : Z) (slot : bool) (c : ObjectCache) (d : list (pystr * _Entry))
  : bool :=
  (slot && match _max_entries c with Some n => n <=? zlen d | None => false end) ||
  match _max_size_bytes c with
  | Some m => m <? od_total size_bytes d + extra
  | None => false
  end.

Lemma over_bounds_with extra slot c :
  core_inv c -> over_bounds extra slot c = over_with extra slot c (_store c).
Proof. intros [_ _ Hs _ _]. unfold over_bounds, over_with. by rewrite Hs. Qed.

Lemma evict_lru_spec fuel extra slot c :
  core_inv c ->
  exists j, _store (evict_lru fuel extra slot c) = drop j (_store c) /\
    forall i, (i < j)%nat -> over_with extra slot c (drop i (_store c)) = true.
Proof.
  revert c. induction fuel as [|fuel IH]; intros c Hc; simpl.
  { exists 0%nat. split; [done|lia]. }
  destruct (_store c) as [|[k e] r] eqn:E.
  { exists 0%nat. rewrite E. split; [done|lia]. }
  destruct (over_bounds extra slot c) eqn:O; [|exists 0%nat; split; [by rewrite E|lia]].
  destruct (IH (_remove k c) (remove_core k c Hc)) as (j & Ej & Hj).
  assert (Er : _store (_remove k c) = r).
  { unfold _remove. rewrite E. cbn [od_get]. rewrite decide_True by done. simpl.
    by rewrite decide_True. }
  exists (S j). rewrite Ej, Er. split; [done|]. intros [|i] Hi.
  - rewrite over_bounds_with in O by done. by rewrite E in O.
  - specialize (Hj i ltac:(lia)). rewrite Er in Hj. simpl.
    unfold over_with in *. destruct (remove_config k c) as (C1 & C2 & _).
    by rewrite C1, C2 in Hj.
Qed.

Lemma remove_all_store ks c : _store (remove_all ks c) = foldl (fun d k => od_pop k d) (_store c) ks.
Proof.
  revert c. induction ks as [|k ks IH]; intros c; simpl; [done|].
  rewrite IH. f_equal. unfold _remove. destruct (od_get k (_store c)) eqn:E; simpl; [done|].
  by rewrite od_pop_None.
Qed.

(** ** Properties *)

(** C35. From any configuration [__init__] accepts and after any calls, both
    bounds hold, the byte counter is the exact total of the stored sizes, keys
    are unique, and a refresh marker always carries the generation of its key's
    live entry. *)
Theorem oc_run_inv me ms r c os : init me ms r = Ok c -> inv (run c os).
Proof. intros H. apply init_ok in H as [H1 H2]. by apply oc_run_inv_from. Qed.

(** C36. No resurrection: once the entry a refresh was started against has been
    deleted, cleared or replaced, the refresh's completion returns [False] and
    leaves the store exactly as it was, whatever happened in between and
    however late it comes. *)
Theorem no_resurrection c k e os1 o os2 now now' v ttl :
  inv c -> config_ok c -> od_get k (_store c) = Some e -> bad_ttl ttl = false ->
  ~ live k (generation e) (step (run c os1) o) ->
  let c' := run c (os1 ++ o :: os2) in
  exists c'', complete_refresh now now' k (generation e) v ttl c' = Ok (false, c'') /\
    _store c'' = _store c'.
Proof.
  intros H Hc E Hb Hd c'. apply complete_dead; [done|].
  unfold c', run. rewrite foldl_app. simpl.
  pose proof (oc_run_inv_from os1 c H Hc) as H1.
  assert (Hg : generation e <= _generation c)
    by apply (od_Forall_get _ _ _ _ (ci_entries _ (inv_core _ H)) E).
  pose proof (evolves_trans _ _ _ (run_evolves os1 c) (step_evolves o (run c os1))) as G.
  apply run_dead; [| | |done].
  - apply oc_step_inv; [done|]. by apply (evolves_config_ok _ _ (run_evolves os1 c)).
  - by apply (evolves_config_ok _ _ G).
  - destruct G as (_ & _ & G). unfold run in *. lia.
Qed.

(** Each of the calls that invalidate a key, [delete], [clear] and a [put]
    that stores, ends the life of the entry it finds. *)
Theorem invalidation_kills c k e o :
  inv c -> config_ok c -> od_get k (_store c) = Some e ->
  (o = ODelete k \/ o = OClear \/
   exists now' now v ttl, o = OPut now' now k v ttl /\ bad_ttl ttl = false) ->
  ~ live k (generation e) (step c o).
Proof.
  intros H Hcfg E [-> |[-> |(now' & now & v & ttl & -> & Hb)]]; simpl.
  - unfold delete. rewrite (proj2 (od_mem_true _ _) (ex_intro _ e E)). cbn [snd].
    intros (e' & E' & _). by rewrite remove_get_eq in E' by apply H.
  - by intros (e' & E' & _).
  - unfold put. rewrite Hb, (proj2 (od_mem_true _ _) (ex_intro _ e E)). pose proof (remove_get_eq k c (inv_core _ H)) as Hn.
    destruct (too_large _ _); [intros (e' & E' & _); congruence|].
    intros (e' & E' & G). simpl in E'. rewrite od_get_set_eq in E'. simplify_eq. simpl in G.
    destruct (sh_config _ _ (evict_shrinks now' (estimated v c) true (_remove k c)))
      as (_ & _ & G2). destruct (remove_config k c) as (_ & _ & G3).
    pose proof (od_Forall_get _ _ _ _ (ci_entries _ (inv_core _ H)) E) as [_ L]. simpl in L. lia.
Qed.

(** Single flight: after [get_with_swr] has asked its caller to refresh a
    key, no later [get_with_swr] asks for another refresh of the same entry
    until that refresh is completed or cancelled. *)
Theorem single_flight c now j k ttl os now' j' ttl' :
  inv c -> config_ok c ->
  let r := (get_with_swr now j k ttl c).1 in
  let c1 := (get_with_swr now j k ttl c).2 in
  needs_refresh r = true ->
  Forall (fun o => ends k (version r) o = false) os ->
  let r' := (get_with_swr now' j' k ttl' (run c1 os)).1 in
  version r' = version r -> needs_refresh r' = false.
Proof.
  intros H Hc. pose proof (get_with_swr_inv now j k ttl c H) as H1.
  pose proof (step_config_ok (OSwr now j k ttl) c Hc) as Hc1. simpl in Hc1.
  unfold get_with_swr in *. destruct (od_get k (_store c)) as [e|] eqn:E; [|done].
  destruct (expired now e); [done|].
  destruct (stale now ttl j e c && _) eqn:St; [|done]. simpl in *.
  intros _ Hos.
  pose proof (od_Forall_get _ _ _ _ (ci_entries _ (inv_core _ H)) E) as [_ Hg].
  match goal with |- context [run ?d os] => set (c1 := d) in * end.
  assert (F : in_flight k (generation e) (run c1 os)).
  { apply run_in_flight; [done|done|simpl in *; lia|done|]. left. simpl. apply od_get_set_eq. }
  clearbody c1. set (c2 := run c1 os) in *. clearbody c2.
  destruct (od_get k (_store c2)) as [e2|] eqn:E2; [|done].
  destruct (expired now' e2); [done|].
  destruct F as [F|F].
  - unfold od_mem. rewrite F, andb_false_r. done.
  - destruct (stale now' ttl' j' e2 c2 && _); simpl; [|done].
    intros G. exfalso. apply F. by exists e2.
Qed.

(** Eviction: when the pending write already fits nothing is removed;
    otherwise the expired entries go first and then the least recently used
    ones, one at a time and only while a bound is exceeded, after which the
    write fits. *)
Theorem evict_order now extra slot c :
  core_inv c -> config_ok c -> too_large extra c = false ->
  if over_bounds extra slot c
  then exists j, let fresh := filter (fun p => ~ expired now p.2 = true) (_store c) in
       _store (_evict now extra slot c) = drop j fresh /\
       (forall i, (i < j)%nat -> over_with extra slot c (drop i fresh) = true) /\
       over_bounds extra slot (_evict now extra slot c) = false
  else _evict now extra slot c = c.
Proof.
  intros Hc Hcfg Hl. pose proof (evict_fits now extra slot c Hc Hcfg Hl) as F.
  unfold fits in F. unfold _evict in *.
  destruct (over_bounds extra slot c) eqn:O; simpl in *; [|done].
  set (ks := od_keys _) in *.
  pose proof (remove_all_shrinks ks c) as [S1 (S2 & S3 & _) _ _ _ _].
  destruct (evict_lru_spec (length (_store (remove_all ks c))) extra slot (remove_all ks c)
    (S1 Hc)) as (j & Ej & Hj).
  assert (Ef : _store (remove_all ks c) = filter (fun p => ~ expired now p.2 = true) (_store c)).
  { rewrite remove_all_store. unfold ks. by apply od_pop_filter, Hc. }
  exists j. rewrite Ej, <- Ef. split; [done|]. split; [|done].
  intros i Hi. specialize (Hj i Hi). unfold over_with in *. by rewrite S2, S3 in Hj.
Qed.

(** A stored value is found again: after [put], a [get] before the deadline
    returns the very reference and a [get] at or after it misses and drops the
    entry; a value larger than the whole byte budget is not stored and its key
    is no longer served. *)
Theorem oc_put_get now' now k v ttl c t :
  inv c -> bad_ttl ttl = false ->
  exists c', put now' now k v ttl c = Ok c' /\
    if too_large (estimated v c) c then (get t k c').1 = None
    else if fge t (fadd now ttl)
         then (get t k c').1 = None /\ od_get k (_store (get t k c').2) = None
         else (get t k c').1 = Some v.
Proof.
  intros H Hb. unfold put. rewrite Hb.
  assert (Hn : od_get k (_store (if od_mem k (_store c) then _remove k c else c)) = None).
  { destruct (od_mem k (_store c)) eqn:M; [apply remove_get_eq, H|by apply od_mem_false]. }
  destruct (too_large _ _); eexists; (split; [done|]).
  - unfold get. by rewrite Hn.
  - unfold get. simpl. rewrite od_get_set_eq. unfold expired. simpl.
    destruct (fge t _); simpl; [|done]. split; [done|].
    unfold _remove. simpl. rewrite od_get_set_eq. simpl. apply od_get_pop_eq, od_wf_set.
    eapply ci_keys, (sh_core _ _ (evict_shrinks _ _ _ _)).
    destruct (od_mem k (_store c)); [apply remove_core|]; apply H.
Qed.

End object_cache.

Arguments ObjectCache : clear implicits.
Arguments _Entry : clear implicits.
Arguments op : clear implicits.

(** ** Concrete runs: references are integers, each estimated at 10 bytes *)

Definition ten (_ : Z) : Z := 10.

Definition half : float := fdiv (fofZ 1) (fofZ 2).

Definition demo : ObjectCache Z :=
  mkObjectCache (Some 3) (Some 25) half [] 0 0 0 [] 0.

Definition demo1 : ObjectCache Z :=
  run ten demo [OPut (fofZ 0) (fofZ 0) (u "a") 1 (fofZ 100)].

Lemma ten_nonneg v : 0 <= ten v.
Proof. unfold ten. lia. Qed.

Lemma demo_init : init (Some 3) (Some 25) half = Ok demo.
Proof. vm_compute. reflexivity. Qed.

Lemma demo1_ok : inv demo1 /\ config_ok demo1.
Proof.
  destruct (init_ok _ _ _ _ demo_init) as [H1 H2]. split.
  - exact (oc_run_inv_from ten ten_nonneg [_] demo H1 H2).
  - exact (evolves_config_ok _ _ (run_evolves ten [_] demo) H2).
Qed.

Lemma oc_run_inv_witness :
  init (Some 3) (Some 25) half = Ok demo /\
  inv (run ten demo [OPut (fofZ 0) (fofZ 0) (u "a") 1 (fofZ 100); OGet (fofZ 1) (u "a")]).
Proof.
  split; [vm_compute; reflexivity|].
  apply (oc_run_inv ten ten_nonneg (Some 3) (Some 25) half). vm_compute. reflexivity.
Defined.

(** A refresh started on [a], which is then deleted and stored again. *)
Lemma no_resurrection_witness :
  let c' := run ten demo1
    ([OSwr (fofZ 90) (fofZ 1) (u "a") (fofZ 100)] ++ ODelete (u "a") ::
     [OPut (fofZ 91) (fofZ 91) (u "a") 2 (fofZ 100)]) in
  exists c'', complete_refresh ten (fofZ 92) (fofZ 92) (u "a") 1 7 (fofZ 100) c' =
    Ok (false, c'') /\ _store c'' = _store c'.
Proof.
  eapply (no_resurrection ten ten_nonneg demo1 (u "a")
    (mkEntry 1 (fadd (fofZ 0) (fofZ 100)) (fofZ 0) 10 1)).
  - exact (proj1 demo1_ok).
  - exact (proj2 demo1_ok).
  - vm_compute. reflexivity.
  - vm_compute. reflexivity.
  - intros (e & E & _). vm_compute in E. discriminate.
Defined.

Lemma invalidation_kills_witness :
  ~ live (u "a") 1 (step ten demo1 (ODelete (u "a"))).
Proof.
  apply (invalidation_kills ten demo1 (u "a")
    (mkEntry 1 (fadd (fofZ 0) (fofZ 100)) (fofZ 0) 10 1) (ODelete (u "a"))).
  - exact (proj1 demo1_ok).
  - exact (proj2 demo1_ok).
  - vm_compute. reflexivity.
  - by left.
Defined.

Lemma single_flight_witness :
  let r := get_with_swr (fofZ 90) (fofZ 1) (u "a") (fofZ 100) demo1 in
  needs_refresh r.1 = true /\
  needs_refresh (get_with_swr (fofZ 91) (fofZ 1) (u "a") (fofZ 100)
    (run ten r.2 [OGet (fofZ 90) (u "a")])).1 = false.
Proof.
  cbv zeta. split; [vm_compute; reflexivity|].
  apply (single_flight ten ten_nonneg demo1 (fofZ 90) (fofZ 1) (u "a") (fofZ 100)
    [OGet (fofZ 90) (u "a")] (fofZ 91) (fofZ 1) (fofZ 100) (proj1 demo1_ok) (proj2 demo1_ok));
    [vm_compute; reflexivity|repeat constructor|vm_compute; reflexivity].
Defined.

(** Two expired entries and a full cache: the sweep alone makes room. *)
Definition demo3 : ObjectCache Z :=
  run ten (mkObjectCache (Some 3) None half [] 0 0 0 [] 0)
    [OPut (fofZ 0) (fofZ 0) (u "a") 1 (fofZ 10); OPut (fofZ 0) (fofZ 0) (u "b") 2 (fofZ 100);
     OPut (fofZ 0) (fofZ 0) (u "c") 3 (fofZ 100)].

Lemma evict_order_witness :
  over_bounds 10 true demo3 = true /\
  exists j, _store (_evict (fofZ 50) 10 true demo3) =
    drop j (filter (fun p => ~ expired (fofZ 50) p.2 = true) (_store demo3)) /\
    over_bounds 10 true (_evict (fofZ 50) 10 true demo3) = false.
Proof.
  assert (H : inv demo3 /\ config_ok demo3).
  { destruct (empty_ok (V:=Z) (Some 3) None half eq_refl eq_refl) as [H1 H2]. split.
    - exact (oc_run_inv_from ten ten_nonneg [_; _; _] _ H1 H2).
    - exact (evolves_config_ok _ _ (run_evolves ten [_; _; _] _) H2). }
  pose proof (evict_order (fofZ 50) 10 true demo3 (inv_core _ (proj1 H)) (proj2 H)) as P.
  assert (O : over_bounds 10 true demo3 = true) by (vm_compute; reflexivity).
  rewrite O in P. split; [exact O|].
  destruct P as (j & E & _ & F); [vm_compute; reflexivity|]. exists j. split; [exact E|exact F].
Defined.

Lemma oc_put_get_witness :
  exists c', put ten (fofZ 5) (fofZ 5) (u "k") 9 (fofZ 60) demo1 = Ok c' /\
    (get (fofZ 20) (u "k") c').1 = Some 9.
Proof.
  destruct (oc_put_get ten (fofZ 5) (fofZ 5) (u "k") 9 (fofZ 60) demo1 (fofZ 20)
    (proj1 demo1_ok)) as (c' & E & P); [vm_compute; reflexivity|].
  assert (T : too_large (estimated ten 9 demo1) demo1 = false) by (vm_compute; reflexivity).
  assert (F : fge (fofZ 20) (fadd (fofZ 5) (fofZ 60)) = false) by (vm_compute; reflexivity).
  rewrite T, F in P. exists c'. split; [exact E|exact P].
Defined.
