(* ===== verification/Errors.v ===== *)
(** Backend errors ([src/src/cachekit/backends/errors.py]) and their
    classification for the circuit breaker
    ([src/src/cachekit/reliability/error_classification.py]). *)
From Stdlib Require Import ZArith Lia.
From stdpp Require Import base list numbers option strings.
From S2P Require Import Prelude.

Local Open Scope Z_scope.

Inductive BackendErrorType :=
  | TRANSIENT
  | PERMANENT
  | TIMEOUT
  | AUTHENTICATION
  | UNKNOWN.

#[export] Instance BackendErrorType_eq_dec : EqDecision BackendErrorType.
Proof. solve_decision. Defined.

(** [BackendErrorType.value] *)
Definition type_value (t : BackendErrorType) : pystr :=
  match t with
  | TRANSIENT => u "transient"
  | PERMANENT => u "permanent"
  | TIMEOUT => u "timeout"
  | AUTHENTICATION => u "authentication"
  | UNKNOWN => u "unknown"
  end.

(** The exception an error wraps is kept as its text only. *)
Record BackendError := mkBackendError {
  message : pystr;
  error_type : BackendErrorType;
  original_exception : option pystr;
  operation : option pystr;
  key : option pystr
}.

(** [BackendError(message, error_type)] *)
Definition backend_error (m : pystr) (t : BackendErrorType) : BackendError :=
  mkBackendError m t None None None.

(** [if s:] on an optional string. *)
Definition truthy (s : option pystr) : option pystr :=
  match s with
  | Some [] | None => None
  | Some x => Some x
  end.

Definition key_display (k : pystr) : pystr :=
  if 50 <? zlen k then take 50 k ++ u "..." else k.

(** [sep.join(parts)] *)
Fixpoint join (sep : pystr) (parts : list pystr) : pystr :=
  match parts with
  | [] => []
  | [p] => p
  | p :: r => p ++ sep ++ join sep r
  end.

Definition _format_message (e : BackendError) : pystr :=
  join (u " | ")
    ([message e] ++
     match truthy (operation e) with Some o => [u "operation=" ++ o] | None => [] end ++
     match truthy (key e) with Some k => [u "key=" ++ key_display k] | None => [] end ++
     [u "type=" ++ type_value (error_type e)]).

Definition is_transient (e : BackendError) : bool := bool_decide (error_type e = TRANSIENT).
Definition is_permanent (e : BackendError) : bool := bool_decide (error_type e = PERMANENT).
Definition is_timeout (e : BackendError) : bool := bool_decide (error_type e = TIMEOUT).
Definition is_authentication (e : BackendError) : bool :=
  bool_decide (error_type e = AUTHENTICATION).

(** [CapabilityNotAvailableError(message)] *)
Definition CapabilityNotAvailableError (m : pystr) : BackendError := backend_error m PERMANENT.

(** Any exception: a [BackendError] or something else. *)
Inductive exception :=
  | BackendExn (e : BackendError)
  | OtherExn.

(** [BackendErrorClassifier.is_circuit_breaker_failure] *)
Definition is_circuit_breaker_failure (x : exception) : bool :=
  match x with
  | BackendExn e =>
      if decide (error_type e ∈ [TRANSIENT; TIMEOUT]) then true
      else if decide (error_type e ∈ [PERMANENT; AUTHENTICATION]) then false
      else if decide (error_type e = UNKNOWN) then true
      else false
  | OtherExn => false
  end.

(** [BackendErrorClassifier.get_error_category] *)
Definition get_error_category (x : exception) : pystr :=
  match x with
  | BackendExn e => type_value (error_type e)
  | OtherExn => u "application"
  end.

(** The categories tell every error type apart, from one another and from
    application errors. *)
Lemma category_inj x y :
  get_error_category x = get_error_category y ->
  match x, y with
  | BackendExn e, BackendExn e' => error_type e = error_type e'
  | OtherExn, OtherExn => True
  | _, _ => False
  end.
Proof. destruct x as [[? [] ? ? ?]|], y as [[? [] ? ? ?]|]; try done; intros H; discriminate H. Qed.

Lemma key_display_length k : zlen (key_display k) <= 53.
Proof.
  unfold key_display. destruct (50 <? zlen k) eqn:E; zbool; [|lia].
  rewrite zlen_app. change (zlen (u "...")) with 3. unfold zlen. rewrite length_take. lia.
Qed.
