(* ===== verification/CircuitBreaker.v ===== *)
(** The circuit breaker of [src/src/cachekit/reliability/circuit_breaker.py]:
    the state machine CLOSED, OPEN, HALF_OPEN with its counters.  [now] is the
    reading of [time.time()]; each method holds the lock for its whole body, so
    a run of the shared breaker is a sequence of method calls. *)
From Stdlib Require Import ZArith Lia SpecFloat.
From stdpp Require Import base list numbers option strings.
From S2P Require Import Prelude PyFloat Errors.

Local Open Scope Z_scope.

Inductive CircuitState := CLOSED | OPEN | HALF_OPEN.

#[export] Instance CircuitState_eq_dec : EqDecision CircuitState.
Proof. solve_decision. Defined.

Record CircuitBreakerConfig := mkConfig {
  failure_threshold : Z;
  success_threshold : Z;
  timeout_seconds : float;
  half_open_requests : Z;
  excluded_error_types : list BackendErrorType
}.

(** [CircuitBreakerConfig(...)] with its [__post_init__] validation. *)
Definition make_config (c : CircuitBreakerConfig) : result py_exn CircuitBreakerConfig :=
  if failure_threshold c <=? 0 then Err ValueError
  else if success_threshold c <=? 0 then Err ValueError
  else if flt (timeout_seconds c) (S754_zero false) then Err ValueError
  else if half_open_requests c <=? 0 then Err ValueError
  else Ok c.

Definition default_config : CircuitBreakerConfig := mkConfig 5 3 (fofZ 30) 1 [].

(** [CacheOperationMetrics]: the counters and the two rates. *)
Record CacheOperationMetrics := mkMetrics {
  total_operations : Z;
  cache_hits : Z;
  cache_misses : Z;
  errors : Z;
  fallbacks : Z;
  circuit_opens : Z
}.

Definition hit_rate (m : CacheOperationMetrics) : result py_exn float :=
  if total_operations m =? 0 then Ok (S754_zero false)
  else fdivZ (cache_hits m) (total_operations m).

Definition error_rate (m : CacheOperationMetrics) : result py_exn float :=
  if total_operations m =? 0 then Ok (S754_zero false)
  else fdivZ (errors m) (total_operations m).

Record CircuitBreaker := mkBreaker {
  config : CircuitBreakerConfig;
  _state : CircuitState;
  _failure_count : Z;
  _success_count : Z;
  _last_failure_time : float;
  _half_open_permits : Z;
  _half_open_total_attempts : Z
}.

Definition init (cfg : CircuitBreakerConfig) : CircuitBreaker :=
  mkBreaker cfg CLOSED 0 0 (S754_zero false) 0 0.

Definition _transition_to_closed (b : CircuitBreaker) : CircuitBreaker :=
  mkBreaker (config b) CLOSED 0 0 (_last_failure_time b) 0 0.

Definition _transition_to_open (b : CircuitBreaker) : CircuitBreaker :=
  mkBreaker (config b) OPEN (_failure_count b) 0 (_last_failure_time b)
    (_half_open_permits b) (_half_open_total_attempts b).

Definition _transition_to_half_open (b : CircuitBreaker) : CircuitBreaker :=
  mkBreaker (config b) HALF_OPEN (_failure_count b) 0 (_last_failure_time b) 0 0.

Definition _allow_half_open_request (b : CircuitBreaker) : bool * CircuitBreaker :=
  if _half_open_total_attempts b <? half_open_requests (config b) then
    (true, mkBreaker (config b) (_state b) (_failure_count b) (_success_count b)
             (_last_failure_time b) (_half_open_permits b + 1)
             (_half_open_total_attempts b + 1))
  else (false, b).

(** The OPEN period is over. *)
Definition timed_out (now : float) (b : CircuitBreaker) : bool :=
  fgt (fsub now (_last_failure_time b)) (timeout_seconds (config b)).

Definition _allow_request (now : float) (b : CircuitBreaker) : bool * CircuitBreaker :=
  match _state b with
  | CLOSED => (true, b)
  | OPEN =>
      if timed_out now b then
        match _state b with
        | OPEN => _allow_half_open_request (_transition_to_half_open b)
        | _ => (false, b)
        end
      else (false, b)
  | HALF_OPEN => _allow_half_open_request b
  end.

Definition _on_success (b : CircuitBreaker) : CircuitBreaker :=
  match _state b with
  | HALF_OPEN =>
      let b' := mkBreaker (config b) (_state b) (_failure_count b) (_success_count b + 1)
                  (_last_failure_time b) (Z.max 0 (_half_open_permits b - 1))
                  (_half_open_total_attempts b) in
      if success_threshold (config b') <=? _success_count b'
      then _transition_to_closed b' else b'
  | _ => b
  end.

(** [isinstance(error, BackendError) and error.error_type in excluded] *)
Definition excluded (x : exception) (b : CircuitBreaker) : bool :=
  match x with
  | BackendExn e => bool_decide (error_type e ∈ excluded_error_types (config b))
  | OtherExn => false
  end.

Definition _on_failure (now : float) (x : exception) (b : CircuitBreaker) : CircuitBreaker :=
  if excluded x b then b
  else
    let permits :=
      match _state b with
      | HALF_OPEN => Z.max 0 (_half_open_permits b - 1)
      | _ => _half_open_permits b
      end in
    let b' := mkBreaker (config b) (_state b) (_failure_count b + 1) (_success_count b)
                now permits (_half_open_total_attempts b) in
    match _state b' with
    | CLOSED =>
        if failure_threshold (config b') <=? _failure_count b'
        then _transition_to_open b' else b'
    | HALF_OPEN => _transition_to_open b'
    | OPEN => b'
    end.

Definition reset (b : CircuitBreaker) : CircuitBreaker := _transition_to_closed b.

(** [record_failure(error=None)]; the generic exception is not a [BackendError]. *)
Definition record_failure (now : float) (x : option exception) (b : CircuitBreaker)
  : CircuitBreaker :=
  _on_failure now (default OtherExn x) b.

Definition record_success (b : CircuitBreaker) : CircuitBreaker := _on_success b.

Definition should_attempt_call (now : float) (b : CircuitBreaker) : bool * CircuitBreaker :=
  _allow_request now b.

Definition get_state (b : CircuitBreaker) : CircuitState := _state b.
Definition failure_count (b : CircuitBreaker) : Z := _failure_count b.
Definition success_count (b : CircuitBreaker) : Z := _success_count b.

Definition state_name (s : CircuitState) : pystr :=
  match s with CLOSED => u "CLOSED" | OPEN => u "OPEN" | HALF_OPEN => u "HALF_OPEN" end.

(** The dictionary [get_stats] returns; the namespace only labels it. *)
Record Stats := mkStats {
  s_state : pystr;
  s_failure_count : Z;
  s_success_count : Z;
  s_half_open_permits : Z;
  s_last_failure_time : float;
  s_namespace : pystr;
  s_config : Z * Z * float * Z
}.

Definition get_stats (namespace : pystr) (b : CircuitBreaker) : Stats :=
  mkStats (state_name (_state b)) (_failure_count b) (_success_count b)
    (_half_open_permits b) (_last_failure_time b) namespace
    (failure_threshold (config b), success_threshold (config b),
     timeout_seconds (config b), half_open_requests (config b)).

(** ** Runs *)

Inductive event :=
  | Attempt (now : float)
  | Success
  | Failure (now : float) (x : exception)
  | Reset.

(** The breaker after a call, and what [should_attempt_call] answered. *)
Definition step (b : CircuitBreaker) (e : event) : CircuitBreaker :=
  match e with
  | Attempt now => (_allow_request now b).2
  | Success => record_success b
  | Failure now x => record_failure now (Some x) b
  | Reset => reset b
  end.

Definition run (b : CircuitBreaker) (es : list event) : CircuitBreaker := foldl step b es.

Definition admitted (b : CircuitBreaker) (e : event) : bool :=
  match e with Attempt now => (_allow_request now b).1 | _ => false end.

(** How many requests a run admits. *)
Fixpoint admissions (b : CircuitBreaker) (es : list event) : Z :=
  match es with
  | [] => 0
  | e :: r => (if admitted b e then 1 else 0) + admissions (step b e) r
  end.

(** ** Invariant *)

Definition config_ok (c : CircuitBreakerConfig) : Prop :=
  0 < failure_threshold c /\ 0 < success_threshold c /\ 0 < half_open_requests c.

(** What holds in each state. *)
Definition inv (b : CircuitBreaker) : Prop :=
  match _state b with
  | CLOSED =>
      0 <= _failure_count b < failure_threshold (config b) /\
      _success_count b = 0 /\ _half_open_permits b = 0 /\ _half_open_total_attempts b = 0
  | OPEN => failure_threshold (config b) <= _failure_count b /\ _success_count b = 0
  | HALF_OPEN =>
      failure_threshold (config b) <= _failure_count b /\
      0 <= _success_count b < success_threshold (config b) /\
      0 <= _half_open_permits b <= _half_open_total_attempts b /\
      _half_open_total_attempts b <= half_open_requests (config b)
  end.

(** Case analysis on a breaker's state and on the tests of a method. *)
Ltac breaker b :=
  destruct b as [cfg st fc sc lt hp ha]; destruct st; simpl in *.

Lemma make_config_ok c c' : make_config c = Ok c' -> config_ok c'.
Proof.
  unfold make_config, config_ok. intros H.
  repeat match type of H with (if ?t then _ else _) = _ => destruct t eqn:?; [done|] end.
  injection H as <-. zbool. lia.
Qed.

Lemma breaker_init_inv c : config_ok c -> inv (init c).
Proof. unfold config_ok, inv. simpl. lia. Qed.

Lemma step_config b e : config (step b e) = config b.
Proof.
  destruct e as [now| |now x|]; breaker b; try done;
    unfold _allow_request, _allow_half_open_request, timed_out, record_failure, _on_failure,
      record_success, _on_success; simpl; by repeat case_match.
Qed.

Lemma breaker_step_inv b e : config_ok (config b) -> inv b -> inv (step b e).
Proof.
  unfold config_ok, inv. intros Hc H.
  destruct e as [now| |now x|]; breaker b;
    unfold _allow_request, _allow_half_open_request, timed_out, record_failure, _on_failure,
      record_success, _on_success in *; simpl in *; repeat (case_match; simpl in *);
    zbool; try done; try lia.
Qed.

Lemma breaker_run_inv b es : config_ok (config b) -> inv b -> inv (run b es).
Proof.
  revert b. induction es as [|e es IH]; intros b Hc H; simpl; [done|].
  apply IH; [by rewrite step_config|by apply breaker_step_inv].
Qed.

Lemma run_config b es : config (run b es) = config b.
Proof.
  revert b. induction es as [|e es IH]; intros b; simpl; [done|]. by rewrite IH, step_config.
Qed.

(** ** Lemmas on runs *)

Definition counted (b : CircuitBreaker) (e : event) : Z :=
  match e with Failure _ x => if excluded x b then 0 else 1 | _ => 0 end.

Lemma excluded_config x b b' : config b' = config b -> excluded x b' = excluded x b.
Proof. intros E. destruct x; simpl; [by rewrite E|done]. Qed.

Lemma counted_config b b' e : config b' = config b -> counted b' e = counted b e.
Proof. intros E. destruct e; simpl; [done|done| |done]. by rewrite (excluded_config x b b' E). Qed.

Fixpoint total_counted (b : CircuitBreaker) (es : list event) : Z :=
  match es with
  | [] => 0
  | e :: r => counted b e + total_counted b r
  end.

Lemma total_counted_config b b' es : config b' = config b -> total_counted b' es = total_counted b es.
Proof.
  intros E. induction es as [|e es IH]; simpl; [done|]. by rewrite IH, (counted_config b b').
Qed.

Lemma total_counted_nonneg b es : 0 <= total_counted b es.
Proof.
  induction es as [|e es IH]; simpl; [lia|].
  assert (0 <= counted b e); [|lia]. destruct e; simpl; try lia. destruct (excluded x b); lia.
Qed.

Definition is_reset (e : event) : bool := match e with Reset => true | _ => false end.

(** While CLOSED and below the threshold, a call other than [reset] only adds
    its counted failure: successes leave the count alone. *)
Lemma closed_step b e :
  _state b = CLOSED -> is_reset e = false -> _failure_count b + counted b e < failure_threshold (config b) ->
  _state (step b e) = CLOSED /\ _failure_count (step b e) = _failure_count b + counted b e.
Proof.
  intros Hs Hr Hf. destruct e as [now| |now x|]; simpl in *.
  - unfold _allow_request. rewrite Hs. simpl. split; [done|lia].
  - unfold record_success, _on_success. rewrite Hs. split; [done|lia].
  - unfold record_failure, _on_failure. simpl. destruct (excluded x b); [split; [done|lia]|].
    rewrite Hs. simpl. rewrite (proj2 (Z.leb_gt _ _)) by lia. done.
  - done.
Qed.

Lemma closed_run b es :
  _state b = CLOSED -> Forall (fun e => is_reset e = false) es ->
  _failure_count b + total_counted b es < failure_threshold (config b) ->
  _state (run b es) = CLOSED /\ _failure_count (run b es) = _failure_count b + total_counted b es.
Proof.
  intros Hs Hr. revert b Hs. induction Hr as [|e es He _ IH]; intros b Hs Hf; simpl in *.
  - split; [done|lia].
  - pose proof (total_counted_nonneg b es) as P.
    destruct (closed_step b e Hs He ltac:(lia)) as [S1 S2].
    rewrite <- (total_counted_config b (step b e) es) in * by apply step_config.
    destruct (IH (step b e) S1) as [R1 R2]; [rewrite step_config; lia|].
    split; [done|]. rewrite R2. lia.
Qed.

(** A probe: one request that is tried and succeeds. *)
Fixpoint probes (n : nat) (now : float) : list event :=
  match n with
  | O => []
  | S n => Attempt now :: Success :: probes n now
  end.

(** Successful probes in HALF_OPEN while neither limit is reached. *)
Lemma probes_half_open n now b :
  _state b = HALF_OPEN -> 0 <= _half_open_permits b ->
  _half_open_total_attempts b + Z.of_nat n <= half_open_requests (config b) ->
  _success_count b + Z.of_nat n < success_threshold (config b) ->
  run b (probes n now) =
    mkBreaker (config b) HALF_OPEN (_failure_count b) (_success_count b + Z.of_nat n)
      (_last_failure_time b) (_half_open_permits b) (_half_open_total_attempts b + Z.of_nat n) /\
  admissions b (probes n now) = Z.of_nat n.
Proof.
  revert b. induction n as [|n IH]; intros b Hs Hp Ha Hc.
  - simpl. split; [|done]. breaker b; try done. by rewrite !Z.add_0_r.
  - assert (E : step (step b (Attempt now)) Success =
      mkBreaker (config b) HALF_OPEN (_failure_count b) (_success_count b + 1)
        (_last_failure_time b) (_half_open_permits b) (_half_open_total_attempts b + 1)).
    { breaker b; try done. unfold _allow_request, _allow_half_open_request. simpl.
      rewrite (proj2 (Z.ltb_lt _ _)) by lia. unfold record_success, _on_success. simpl.
      rewrite (proj2 (Z.leb_gt _ _)) by lia. f_equal. lia. }
    assert (A : admitted b (Attempt now) = true).
    { breaker b; try done. unfold _allow_request, _allow_half_open_request. simpl.
      by rewrite (proj2 (Z.ltb_lt _ _)) by lia. }
    cbn [probes run foldl admissions]. rewrite A. fold (run (step (step b (Attempt now)) Success)).
    rewrite E. destruct (IH (mkBreaker (config b) HALF_OPEN (_failure_count b) (_success_count b + 1)
        (_last_failure_time b) (_half_open_permits b) (_half_open_total_attempts b + 1)))
      as [R1 R2]; simpl; [done|done|lia|lia|].
    unfold run in R1. rewrite R1, R2. simpl. split; [f_equal; lia|lia].
Qed.

Lemma attempt_timed_out now b :
  _state b = OPEN -> timed_out now b = true ->
  _allow_request now b = _allow_request now (_transition_to_half_open b).
Proof. intros Hs Ht. unfold _allow_request. rewrite Hs, Ht. done. Qed.

Lemma probes_from_open n now b :
  (0 < n)%nat -> _state b = OPEN -> timed_out now b = true ->
  run b (probes n now) = run (_transition_to_half_open b) (probes n now) /\
  admissions b (probes n now) = admissions (_transition_to_half_open b) (probes n now).
Proof.
  intros Hn Hs Ht. destruct n as [|n]; [lia|].
  cbn [probes run foldl admissions admitted step]. by rewrite (attempt_timed_out _ _ Hs Ht).
Qed.

(** A run during which every state is HALF_OPEN. *)
Fixpoint stays_half_open (b : CircuitBreaker) (es : list event) : Prop :=
  _state b = HALF_OPEN /\
  match es with [] => True | e :: r => stays_half_open (step b e) r end.

Lemma half_open_step_attempts b e :
  _state b = HALF_OPEN -> _state (step b e) = HALF_OPEN ->
  _half_open_total_attempts (step b e) =
    _half_open_total_attempts b + (if admitted b e then 1 else 0).
Proof.
  destruct e as [now| |now x|]; breaker b; try done; intros _;
    unfold _allow_request, _allow_half_open_request, record_failure, _on_failure,
      record_success, _on_success; simpl; repeat (case_match; simpl); try done; intros; lia.
Qed.

Lemma stays_state b es : stays_half_open b es -> _state b = HALF_OPEN.
Proof. by destruct es as [|e es]; intros [H _]. Qed.

(** With the attempts used up, HALF_OPEN admits nothing more. *)
Lemma exhausted_attempts b nows :
  _state b = HALF_OPEN -> half_open_requests (config b) <= _half_open_total_attempts b ->
  run b (Attempt <$> nows) = b /\ admissions b (Attempt <$> nows) = 0.
Proof.
  intros Hs Ha.
  assert (E : forall now, _allow_request now b = (false, b)).
  { intros now. unfold _allow_request, _allow_half_open_request. rewrite Hs.
    by rewrite (proj2 (Z.ltb_ge _ _)) by lia. }
  induction nows as [|now nows [IH1 IH2]]; [done|]. simpl. rewrite !E. done.
Qed.

(** ** Properties *)

(** From any configuration the validation accepts and after any calls: a
    CLOSED breaker is below its failure threshold, an OPEN or HALF_OPEN one has
    reached it, and a HALF_OPEN one is below its success threshold with no more
    permits out than attempts, and no more attempts than configured. *)
Theorem breaker_reachable_inv c0 c es : make_config c0 = Ok c -> inv (run (init c) es).
Proof.
  intros H%make_config_ok. apply breaker_run_inv; [done|by apply breaker_init_inv].
Qed.

(** From CLOSED, the breaker stays CLOSED exactly until the configured
    number of counted failures has been recorded, whatever requests and
    successes come in between (successes do not reset the count, excluded
    errors do not add to it); the failure that reaches the threshold opens it
    and stamps its time. *)
Theorem trips_at_threshold b es now x :
  _state b = CLOSED -> Forall (fun e => is_reset e = false) es -> excluded x b = false ->
  _failure_count b + total_counted b es + 1 = failure_threshold (config b) ->
  _state (run b es) = CLOSED /\
  _state (run b (es ++ [Failure now x])) = OPEN /\
  _last_failure_time (run b (es ++ [Failure now x])) = now.
Proof.
  intros Hs Hr Hx Hf. destruct (closed_run b es Hs Hr) as [S1 S2]; [lia|].
  split; [done|]. unfold run in *. rewrite foldl_app. simpl.
  unfold record_failure, _on_failure. simpl.
  rewrite (excluded_config x b) by apply (run_config b es). rewrite Hx, S1. simpl.
  pose proof (run_config b es) as Ec. unfold run in Ec. rewrite Ec, S2.
  by rewrite (proj2 (Z.leb_le _ _)) by lia.
Qed.

(** An OPEN breaker fails fast: until the timeout since the last failure
    has elapsed, it admits no request, and neither requests nor successes
    change it. *)
Theorem open_fails_fast b es :
  _state b = OPEN ->
  Forall (fun e => match e with
                   | Attempt now => timed_out now b = false
                   | Success => True
                   | _ => False
                   end) es ->
  run b es = b /\ admissions b es = 0.
Proof.
  intros Hs Hes. induction Hes as [|e es He _ [IH1 IH2]]; [done|].
  destruct e as [now| |now x|]; try done; simpl.
  - unfold _allow_request. rewrite Hs, He. done.
  - unfold record_success, _on_success. rewrite Hs. done.
Qed.

(** During one HALF_OPEN period the breaker admits at most
    [half_open_requests] requests in all, however many complete. *)
Lemma half_open_admission_bound b es :
  config_ok (config b) -> inv b -> stays_half_open b es ->
  admissions b es <= half_open_requests (config b).
Proof.
  intros Hc Hi H.
  assert (G : _half_open_total_attempts (run b es) = _half_open_total_attempts b + admissions b es).
  { clear Hc Hi. revert b H. induction es as [|e es IH]; intros b H; simpl; [lia|].
    destruct H as [Hs H]. pose proof (half_open_step_attempts b e Hs (stays_state _ _ H)) as E.
    specialize (IH (step b e) H). change (run b (e :: es)) with (run (step b e) es).
    rewrite IH, E. lia. }
  assert (S : _state (run b es) = HALF_OPEN).
  { clear Hc Hi G. revert b H. induction es as [|e es IH]; intros b [Hs H]; simpl; [done|].
    by apply IH. }
  pose proof (breaker_run_inv b es Hc Hi) as Hi'. pose proof (stays_state _ _ H) as Sb.
  unfold inv in Hi, Hi'. rewrite S, run_config in Hi'. rewrite Sb in Hi. lia.
Qed.

(** Recovery: when the configuration admits at least as many probes as it
    requires successes, an OPEN breaker whose timeout has elapsed closes after
    [success_threshold] successful probes, with its failure count cleared, and
    admits each of them. *)
Theorem recovers b now :
  config_ok (config b) -> _state b = OPEN -> timed_out now b = true ->
  success_threshold (config b) <= half_open_requests (config b) ->
  let b' := run b (probes (Z.to_nat (success_threshold (config b))) now) in
  _state b' = CLOSED /\ _failure_count b' = 0 /\
  admissions b (probes (Z.to_nat (success_threshold (config b))) now) =
    success_threshold (config b).
Proof.
  intros (Hf & Hsu & Hh) Hs Ht Hle. cbv zeta.
  set (s := success_threshold (config b)) in *.
  destruct (probes_from_open (Z.to_nat s) now b) as [-> ->]; [lia|done|done|].
  assert (E : probes (Z.to_nat s) now = probes (Z.to_nat (s - 1)) now ++ [Attempt now; Success]).
  { replace (Z.to_nat s) with (S (Z.to_nat (s - 1))) by lia. generalize (Z.to_nat (s - 1)).
    induction n as [|n IH]; [done|]. cbn [probes app] in *. by rewrite <- IH. }
  set (b0 := _transition_to_half_open b).
  destruct (probes_half_open (Z.to_nat (s - 1)) now b0) as [R A]; [done|done|simpl; lia|simpl; lia|].
  assert (Q : forall es es', admissions b0 (es ++ es') = admissions b0 es + admissions (run b0 es) es').
  { generalize b0. intros b1 es. revert b1. induction es as [|e es IH]; intros b1 es'; simpl; [lia|].
    rewrite IH. unfold run. lia. }
  rewrite E, Q, A. unfold run in *. rewrite foldl_app, R. simpl.
  unfold _allow_request, _allow_half_open_request, record_success, _on_success. simpl.
  rewrite (proj2 (Z.ltb_lt _ _)) by lia. simpl.
  rewrite (proj2 (Z.leb_le _ _)) by lia. simpl. split_and!; (done || lia).
Qed.

(** No recovery: when the configuration requires more successes than it
    admits probes (the defaults of this class require 3 and admit 1), an OPEN
    breaker whose timeout has elapsed and whose every admitted probe succeeds
    stays HALF_OPEN and refuses all later requests, whatever the time. *)
Theorem never_recovers b now nows :
  config_ok (config b) -> _state b = OPEN -> timed_out now b = true ->
  half_open_requests (config b) < success_threshold (config b) ->
  let b' := run b (probes (Z.to_nat (half_open_requests (config b))) now) in
  admissions b (probes (Z.to_nat (half_open_requests (config b))) now) =
    half_open_requests (config b) /\
  _state b' = HALF_OPEN /\
  run b' (Attempt <$> nows) = b' /\ admissions b' (Attempt <$> nows) = 0.
Proof.
  intros (Hf & Hsu & Hh) Hs Ht Hlt. cbv zeta.
  set (h := half_open_requests (config b)) in *.
  destruct (probes_from_open (Z.to_nat h) now b) as [-> ->]; [lia|done|done|].
  destruct (probes_half_open (Z.to_nat h) now (_transition_to_half_open b)) as [-> ->];
    [done|done|simpl; lia|simpl; lia|].
  split; [lia|]. split; [done|]. apply exhausted_attempts; simpl; [done|lia].
Qed.

(** ** Concrete breakers *)

(** The default configuration after its five failures at time 100. *)
Definition tripped (c : CircuitBreakerConfig) : CircuitBreaker :=
  mkBreaker c OPEN (failure_threshold c) 0 (fofZ 100) 0 0.

Definition lenient : CircuitBreakerConfig := mkConfig 5 3 (fofZ 30) 3 [PERMANENT].

Lemma breaker_reachable_inv_witness :
  make_config default_config = Ok default_config /\
  inv (run (init default_config) [Failure (fofZ 1) OtherExn; Success; Attempt (fofZ 2)]).
Proof.
  split; [vm_compute; reflexivity|].
  apply (breaker_reachable_inv default_config). vm_compute. reflexivity.
Defined.

(** Five failures with a success after each of the first four. *)
Lemma trips_at_threshold_witness :
  _state (run (init default_config)
    (concat (replicate 4 [Failure (fofZ 1) OtherExn; Success]) ++ [Failure (fofZ 2) OtherExn]))
  = OPEN.
Proof.
  apply (trips_at_threshold (init default_config)
    (concat (replicate 4 [Failure (fofZ 1) OtherExn; Success])) (fofZ 2) OtherExn);
    [reflexivity|repeat constructor|reflexivity|reflexivity].
Defined.

Lemma open_fails_fast_witness :
  admissions (tripped default_config) [Attempt (fofZ 120); Success; Attempt (fofZ 130)] = 0.
Proof.
  apply (open_fails_fast (tripped default_config)); [reflexivity|].
  repeat constructor; vm_compute; reflexivity.
Defined.

Lemma recovers_witness :
  _state (run (tripped lenient) (probes (Z.to_nat 3) (fofZ 131))) = CLOSED.
Proof.
  apply (recovers (tripped lenient) (fofZ 131)).
  - vm_compute. repeat split; reflexivity.
  - reflexivity.
  - vm_compute. reflexivity.
  - vm_compute. discriminate.
Defined.

Lemma never_recovers_witness :
  let b := run (tripped default_config) (probes (Z.to_nat 1) (fofZ 131)) in
  _state b = HALF_OPEN /\ admissions b (Attempt <$> [fofZ 1000; fofZ 100000]) = 0.
Proof.
  destruct (never_recovers (tripped default_config) (fofZ 131) [fofZ 1000; fofZ 100000])
    as (_ & H1 & _ & H2).
  - vm_compute. repeat split; reflexivity.
  - reflexivity.
  - vm_compute. reflexivity.
  - reflexivity.
  - split; [exact H1|exact H2].
Defined.
