(* ===== verification/LoadControl.v ===== *)
(** The backpressure controller of
    [src/src/cachekit/reliability/load_control.py]: a bounded queue in front of
    a counting semaphore, shared by concurrent threads.

    [acquire] is a context manager whose body is several critical sections; a
    thread's place between them is its [phase], and an [action] is one section
    (or one semaphore operation) of one thread.  Every interleaving of threads
    is a sequence of actions. *)
From Stdlib Require Import ZArith Lia SpecFloat.
From stdpp Require Import base list numbers option gmap relations strings.
From S2P Require Import Prelude PyFloat Errors.

Local Open Scope Z_scope.

(** Where a thread is inside [acquire]. *)
Inductive phase :=
  | Waiting    (* counted in the queue, in semaphore.acquire(timeout) *)
  | TimedOut   (* acquire returned False: rejection counted, error raised *)
  | Acquired   (* holds a permit, still counted in the queue *)
  | Running.   (* holds a permit, executing the protected operation *)

#[export] Instance phase_eq_dec : EqDecision phase.
Proof. solve_decision. Defined.

Record BackpressureController := mkController {
  max_concurrent : Z;
  queue_size : Z;
  timeout : float;
  _semaphore : Z;
  _queue_depth : Z;
  _rejected_count : Z;
  threads : gmap nat phase
}.

(** [threading.Semaphore] refuses a negative count. *)
Definition init (mc qs : Z) (t : float) : result py_exn BackpressureController :=
  if mc <? 0 then Err ValueError else Ok (mkController mc qs t mc 0 0 ∅).

Inductive action :=
  | Enter (t : nat)      (* admission control under the lock *)
  | Acquire (t : nat)    (* the semaphore grants a permit *)
  | Expire (t : nat)     (* the semaphore wait times out; the rejection is counted *)
  | Abandon (t : nat)    (* the except branch leaves the queue *)
  | Dequeue (t : nat)    (* permit held: leave the queue *)
  | Finish (t : nat)     (* the operation returned or raised: release the permit *)
  | Interrupt (t : nat). (* KeyboardInterrupt or another BaseException in the wait *)

Definition upd (c : BackpressureController) (sem depth rej : Z) (ts : gmap nat phase) :=
  mkController (max_concurrent c) (queue_size c) (timeout c) sem depth rej ts.

(** One action, when the thread is where the action happens.  [Enter] on a full
    queue counts a rejection and raises ["Request queue full"]; the thread stays
    outside.  [Interrupt] is not an [Exception]: the [except] branch is skipped
    and [finally] only releases a permit that was acquired. *)
Definition act (c : BackpressureController) (a : action) : option BackpressureController :=
  match a with
  | Enter t =>
      match threads c !! t with
      | Some _ => None
      | None =>
          if queue_size c <=? _queue_depth c
          then Some (upd c (_semaphore c) (_queue_depth c) (_rejected_count c + 1) (threads c))
          else Some (upd c (_semaphore c) (_queue_depth c + 1) (_rejected_count c)
                       (<[t := Waiting]> (threads c)))
      end
  | Acquire t =>
      if decide (threads c !! t = Some Waiting /\ 0 < _semaphore c)
      then Some (upd c (_semaphore c - 1) (_queue_depth c) (_rejected_count c)
                   (<[t := Acquired]> (threads c)))
      else None
  | Expire t =>
      if decide (threads c !! t = Some Waiting)
      then Some (upd c (_semaphore c) (_queue_depth c) (_rejected_count c + 1)
                   (<[t := TimedOut]> (threads c)))
      else None
  | Abandon t =>
      if decide (threads c !! t = Some TimedOut)
      then Some (upd c (_semaphore c) (_queue_depth c - 1) (_rejected_count c)
                   (delete t (threads c)))
      else None
  | Dequeue t =>
      if decide (threads c !! t = Some Acquired)
      then Some (upd c (_semaphore c) (_queue_depth c - 1) (_rejected_count c)
                   (<[t := Running]> (threads c)))
      else None
  | Finish t =>
      if decide (threads c !! t = Some Running)
      then Some (upd c (_semaphore c + 1) (_queue_depth c) (_rejected_count c)
                   (delete t (threads c)))
      else None
  | Interrupt t =>
      match threads c !! t with
      | Some Waiting =>
          Some (upd c (_semaphore c) (_queue_depth c) (_rejected_count c) (delete t (threads c)))
      | Some Acquired =>
          Some (upd c (_semaphore c + 1) (_queue_depth c) (_rejected_count c)
                  (delete t (threads c)))
      | _ => None
      end
  end.

(** The error a thread gets from the sections that raise. *)
Definition acquire_error (c : BackpressureController) (a : action) : option BackendError :=
  match a with
  | Enter _ =>
      if queue_size c <=? _queue_depth c
      then Some (backend_error (u "Request queue full") TRANSIENT) else None
  | Expire _ => Some (backend_error (u "Failed to acquire permit") TIMEOUT)
  | _ => None
  end.

Definition queue_depth (c : BackpressureController) : Z := _queue_depth c.
Definition rejected_count (c : BackpressureController) : Z := _rejected_count c.

Definition reset_stats (c : BackpressureController) : BackpressureController :=
  upd c (_semaphore c) (_queue_depth c) 0 (threads c).

Record Stats := mkStats {
  s_queue_depth : Z;
  s_rejected_count : Z;
  s_max_concurrent : Z;
  s_queue_size : Z;
  s_healthy : bool
}.

Definition eight_tenths : float := fdiv (fofZ 8) (fofZ 10).

Definition get_stats (c : BackpressureController) : Stats :=
  mkStats (_queue_depth c) (_rejected_count c) (max_concurrent c) (queue_size c)
    (fgtZ (fmul (fofZ (queue_size c)) eight_tenths) (_queue_depth c)).

(** ** Reachability *)

Definition is_interrupt (a : action) : bool :=
  match a with Interrupt _ => true | _ => false end.

Inductive step : BackpressureController -> BackpressureController -> Prop :=
  | step_act c a c' : is_interrupt a = false -> act c a = Some c' -> step c c'
  | step_reset c : step c (reset_stats c).

(** ** Counting threads by phase *)

Definition count (p : phase -> bool) (m : gmap nat phase) : Z :=
  Z.of_nat (size (filter (fun kv => p kv.2 = true) m)).

Lemma count_insert_None p m t ph :
  m !! t = None -> count p (<[t := ph]> m) = count p m + (if p ph then 1 else 0).
Proof.
  intros H. unfold count. destruct (p ph) eqn:E.
  - rewrite map_filter_insert_True by done. rewrite map_size_insert_None; [lia|].
    apply map_lookup_filter_None. by left.
  - rewrite map_filter_insert_False by (simpl; congruence). rewrite delete_id by done. lia.
Qed.

Lemma count_delete p m t ph :
  m !! t = Some ph -> count p (delete t m) = count p m - (if p ph then 1 else 0).
Proof.
  intros H. pose proof (count_insert_None p (delete t m) t ph (lookup_delete_eq m t)) as E.
  rewrite insert_delete_id in E by done. lia.
Qed.

Lemma count_update p m t ph ph' :
  m !! t = Some ph ->
  count p (<[t := ph']> m) = count p m - (if p ph then 1 else 0) + (if p ph' then 1 else 0).
Proof.
  intros H. rewrite <- insert_delete_eq.
  rewrite count_insert_None by apply lookup_delete_eq. by rewrite (count_delete p m t ph).
Qed.

Lemma count_nonneg p m : 0 <= count p m.
Proof. unfold count. lia. Qed.

Definition in_queue (ph : phase) : bool :=
  match ph with Running => false | _ => true end.
Definition holds_permit (ph : phase) : bool :=
  match ph with Acquired | Running => true | _ => false end.
Definition running (ph : phase) : bool :=
  match ph with Running => true | _ => false end.

Lemma count_le p q m : (forall ph, p ph = true -> q ph = true) -> count p m <= count q m.
Proof.
  intros H. induction m as [|t ph m Hm IH] using map_ind.
  - unfold count. rewrite !map_filter_empty. done.
  - rewrite !count_insert_None by done. specialize (H ph).
    destruct (p ph), (q ph); lia || discriminate (H eq_refl).
Qed.

(** The books of the controller. *)
Record inv (c : BackpressureController) : Prop := mkInv {
  inv_depth : _queue_depth c = count in_queue (threads c);
  inv_permits : _semaphore c + count holds_permit (threads c) = max_concurrent c;
  inv_sem : 0 <= _semaphore c;
  inv_full : _queue_depth c <= Z.max 0 (queue_size c)
}.

Lemma bp_init_inv mc qs t c : init mc qs t = Ok c -> inv c.
Proof.
  unfold init. destruct (mc <? 0) eqn:E; [done|]. intros [= <-]. zbool.
  constructor; simpl; unfold count; rewrite ?map_filter_empty, ?map_size_empty; lia.
Qed.

(** The bookkeeping of one action, solved from the three counting equations. *)
Ltac books :=
  rewrite ?count_insert_None by done;
  repeat match goal with
  | H : threads ?c !! ?t = Some ?ph |- context [count ?p (<[?t := ?ph']> (threads ?c))] =>
      rewrite (count_update p (threads c) t ph ph' H)
  | H : threads ?c !! ?t = Some ?ph |- context [count ?p (delete ?t (threads ?c))] =>
      rewrite (count_delete p (threads c) t ph H)
  end; simpl; try lia.

Lemma act_inv c a c' : is_interrupt a = false -> act c a = Some c' -> inv c -> inv c'.
Proof.
  intros Ha Hs [H1 H2 H3 H4].
  destruct a as [t|t|t|t|t|t|t]; simpl in *; try done;
    [destruct (threads c !! t) eqn:Et; [done|]; destruct (_ <=? _) eqn:Eq; zbool|
     case_decide as D; [|done]..];
    try match type of D with _ /\ _ => destruct D end; injection Hs as <-;
    constructor; simpl; books.
Qed.

Lemma step_inv_bp c c' : step c c' -> inv c -> inv c'.
Proof.
  destruct 1 as [c a c' Ha Hs|c]; [by eapply act_inv|]. intros [H1 H2 H3 H4]. by constructor.
Qed.

Lemma reachable_inv c c' : rtc step c c' -> inv c -> inv c'.
Proof. induction 1; eauto using step_inv_bp. Qed.

Lemma act_config c a c' : act c a = Some c' -> max_concurrent c' = max_concurrent c /\ queue_size c' = queue_size c.
Proof.
  destruct a as [t|t|t|t|t|t|t]; simpl; repeat case_match; intros; simplify_eq; done.
Qed.

Lemma step_config_bp c c' :
  rtc step c c' -> max_concurrent c' = max_concurrent c /\ queue_size c' = queue_size c.
Proof.
  induction 1 as [|a b d Hs _ IH]; [done|]. destruct Hs as [x a y _ Hs|]; [|done].
  apply act_config in Hs. destruct Hs, IH. split; congruence.
Qed.

(** ** Properties *)

Lemma count_empty p : count p ∅ = 0.
Proof. unfold count. by rewrite map_filter_empty, map_size_empty. Qed.

(** C39. Under every interleaving of threads and whatever the protected
    operations do (return or raise), at most [max_concurrent] of them run at
    once, at most [queue_size] requests wait, the queue depth is exactly the
    number of threads waiting, and no permit is lost; so when every thread has
    left, the queue is empty and all permits are back. *)
Theorem bounded_concurrency mc qs t c c' :
  init mc qs t = Ok c -> rtc step c c' ->
  count running (threads c') <= mc /\
  count in_queue (threads c') <= Z.max 0 qs /\
  _queue_depth c' = count in_queue (threads c') /\
  _semaphore c' = mc - count holds_permit (threads c') /\
  (threads c' = ∅ -> _queue_depth c' = 0 /\ _semaphore c' = mc).
Proof.
  intros Hi Hr. pose proof (bp_init_inv _ _ _ _ Hi) as H.
  apply (reachable_inv _ _ Hr) in H. destruct H as [H1 H2 H3 H4].
  destruct (step_config_bp _ _ Hr) as [E1 E2]. rewrite E1 in H2. rewrite E2 in H4.
  assert (max_concurrent c = mc /\ queue_size c = qs) as [Ec1 Ec2].
  { unfold init in Hi. destruct (mc <? 0); [done|]. by injection Hi as <-. }
  rewrite Ec1 in H2. rewrite Ec2 in H4.
  pose proof (count_le running holds_permit (threads c') ltac:(by intros [])).
  split_and!; try lia. intros E. rewrite E, !count_empty in *. lia.
Qed.

Definition acts (c : BackpressureController) (l : list action) : option BackpressureController :=
  foldl (fun o a => match o with Some c => act c a | None => None end) (Some c) l.

(** A request that enters the queue and is interrupted while it waits. *)
Fixpoint interrupted (n : nat) : list action :=
  match n with
  | O => []
  | S n => Enter 0 :: Interrupt 0 :: interrupted n
  end.

(** A [BaseException] that is not an [Exception] (KeyboardInterrupt) during
    the wait leaks its queue slot: after [queue_size] such requests no thread
    is in the controller, yet every later request is rejected as
    ["Request queue full"]. *)
Theorem interrupt_leaks_queue mc qs t c :
  init mc qs t = Ok c -> 0 <= qs ->
  exists c', acts c (interrupted (Z.to_nat qs)) = Some c' /\
    threads c' = ∅ /\ _semaphore c' = mc /\ _queue_depth c' = qs /\
    forall t', acquire_error c' (Enter t') = Some (backend_error (u "Request queue full") TRANSIENT)
      /\ exists c'', act c' (Enter t') = Some c'' /\ threads c'' = ∅.
Proof.
  intros Hi Hq.
  assert (G : forall n c, threads c = ∅ -> _queue_depth c + Z.of_nat n <= queue_size c ->
    exists c', acts c (interrupted n) = Some c' /\ threads c' = ∅ /\
      _semaphore c' = _semaphore c /\ _queue_depth c' = _queue_depth c + Z.of_nat n /\
      queue_size c' = queue_size c).
  { clear. induction n as [|n IH]; intros c Ht Hd.
    - exists c. split_and!; (done || lia).
    - destruct (IH (upd c (_semaphore c) (_queue_depth c + 1) (_rejected_count c) ∅))
        as (c' & A & T & S & D & Q); [done|simpl; lia|].
      exists c'. split; [|simpl in *; split_and!; (done || lia)].
      rewrite <- A. unfold acts. cbn [interrupted foldl act]. rewrite Ht, lookup_empty.
      rewrite (proj2 (Z.leb_gt _ _)) by lia. simpl. rewrite lookup_insert_eq.
      unfold upd. simpl. by rewrite delete_insert_id by apply lookup_empty. }
  unfold init in Hi. destruct (mc <? 0); [done|]. injection Hi as <-.
  destruct (G (Z.to_nat qs) (mkController mc qs t mc 0 0 ∅)) as (c' & A & T & S & D & Q);
    [done|simpl; lia|].
  simpl in *. exists c'. split_and!; try done; try lia.
  intros t'. unfold acquire_error, act. rewrite T, lookup_empty, Q.
  rewrite (proj2 (Z.leb_le _ _)) by lia. split; [done|]. by eexists.
Qed.

(** ** Concrete controllers *)

Definition small : BackpressureController := mkController 1 2 (fofZ 1) 1 0 0 ∅.

Definition busy : BackpressureController :=
  default small (acts small [Enter 0; Acquire 0; Dequeue 0; Enter 1; Enter 2; Enter 3]).

Lemma acts_step c l c' :
  Forall (fun a => is_interrupt a = false) l -> acts c l = Some c' -> rtc step c c'.
Proof.
  intros Hl. revert c. induction Hl as [|a l Ha _ IH]; intros c H; unfold acts in *; simpl in *.
  - simplify_eq. apply rtc_refl.
  - destruct (act c a) as [c1|] eqn:E.
    + eapply rtc_l; [by eapply step_act|by apply IH].
    + exfalso. clear -H. induction l; simpl in *; [discriminate|auto].
Qed.

Lemma bounded_concurrency_witness :
  init 1 2 (fofZ 1) = Ok small /\ count running (threads busy) <= 1 /\
  _rejected_count busy = 1.
Proof.
  split; [vm_compute; reflexivity|]. split; [|vm_compute; reflexivity].
  apply (bounded_concurrency 1 2 (fofZ 1) small busy); [vm_compute; reflexivity|].
  apply (acts_step small [Enter 0; Acquire 0; Dequeue 0; Enter 1; Enter 2; Enter 3]);
    [repeat constructor|vm_compute; reflexivity].
Defined.

Lemma interrupt_leaks_queue_witness :
  exists c', acts small (interrupted 2) = Some c' /\ _queue_depth c' = 2 /\ threads c' = ∅.
Proof.
  destruct (interrupt_leaks_queue 1 2 (fofZ 1) small) as (c' & A & T & _ & D & _);
    [vm_compute; reflexivity|lia|].
  exists c'. split; [exact A|]. split; [exact D|exact T].
Defined.

