(* ===== verification/FileSystem.v ===== *)
(** The POSIX calls the file backend makes, on a model of one cache directory.

    A [world] holds the directory (names to inode numbers), the inodes and the
    open descriptors.  A call runs in the monad [M]: it returns or raises and
    changes the world.  An [env] says what the operating system does during one
    operation: which calls fail and with which errno, how many bytes a [write]
    accepts, which time the kernel stamps on what is written.  [mkdir], [close]
    and [lseek] on a valid descriptor do not fail unless the world says so. *)
From Stdlib Require Import ZArith Lia SpecFloat.
From stdpp Require Import base list numbers option gmap strings.
From S2P Require Import Prelude PyFloat Errors.

Local Open Scope Z_scope.

Inductive errno :=
  | ENOENT | EEXIST | EACCES | EISDIR | ELOOP | ENOSPC | EROFS | EBADF
  | EWOULDBLOCK  (* the same number as EAGAIN *)
  | ETIMEDOUT | EIO.

#[export] Instance errno_eq_dec : EqDecision errno.
Proof. solve_decision. Defined.

(** What a call can raise; [FileNotFoundError] is [OSErr ENOENT]. *)
Inductive exn :=
  | OSErr (n : errno)
  | BackendE (e : BackendError)
  | PyE (e : py_exn)
  | ProducerE.  (* whatever a caller-supplied payload writer raises *)

Inductive node :=
  | Reg (data : pybytes) (mtime : float)
  | Symlink (target_exists : bool)
  | Dir.

Record world := mkWorld {
  names : gmap pystr nat;
  nodes : gmap nat node;
  fds : gmap nat (nat * Z)  (* descriptor: inode and file offset *)
}.

Definition upd_names (f : gmap pystr nat -> gmap pystr nat) (w : world) : world :=
  mkWorld (f (names w)) (nodes w) (fds w).
Definition upd_nodes (f : gmap nat node -> gmap nat node) (w : world) : world :=
  mkWorld (names w) (f (nodes w)) (fds w).
Definition upd_fds (f : gmap nat (nat * Z) -> gmap nat (nat * Z)) (w : world) : world :=
  mkWorld (names w) (nodes w) (f (fds w)).

Inductive syscall :=
  | SysMkdir | SysIterdir | SysOpen | SysFlock | SysFstat | SysRead | SysWrite | SysFsync
  | SysRename | SysMmap
  | SysLstat (name : pystr) | SysUnlink (name : pystr).

Record env := mkEnv {
  fault : syscall -> option errno;
  accepts : option Z;       (* a write that takes only so many bytes *)
  wtime : float;            (* the time the kernel stamps on a written file *)
  text : errno -> pystr;    (* str(exc) of an OSError *)
  py_text : py_exn -> pystr;
  pid : Z
}.

(** ** The monad *)

Definition M (A : Type) : Type := world -> result exn A * world.

Definition mret {A} (a : A) : M A := fun w => (Ok a, w).
Definition raise {A} (x : exn) : M A := fun w => (Err x, w).
Definition bind {A B} (m : M A) (f : A -> M B) : M B := fun w =>
  match m w with
  | (Ok a, w') => f a w'
  | (Err x, w') => (Err x, w')
  end.
(** [try: m except ...: h] *)
Definition catch {A} (m : M A) (h : exn -> M A) : M A := fun w =>
  match m w with
  | (Ok a, w') => (Ok a, w')
  | (Err x, w') => h x w'
  end.
(** [try: m finally: f]; an exception of [f] replaces the outcome of [m]. *)
Definition finally {A} (m : M A) (f : M unit) : M A := fun w =>
  let (o, w') := m w in
  match f w' with
  | (Ok _, w'') => (o, w'')
  | (Err x, w'') => (Err x, w'')
  end.
(** A computation that only reads the world. *)
Definition reads {A} (f : world -> A) : M A := fun w => (Ok (f w), w).
(** A pure computation that may raise a builtin exception. *)
Definition lift {A} (r : result py_exn A) : M A := fun w =>
  match r with
  | Ok a => (Ok a, w)
  | Err x => (Err (PyE x), w)
  end.

Declare Scope fs_scope.
Delimit Scope fs_scope with fs.
Notation "x <-- m ;; k" := (bind m (fun x => k))
  (at level 100, m at next level, right associativity) : fs_scope.
Notation "m ;;; k" := (bind m (fun _ => k))
  (at level 100, right associativity) : fs_scope.

Local Open Scope fs_scope.

(** ** System calls *)

Definition sys (e : env) (s : syscall) : M unit :=
  match fault e s with
  | Some n => raise (OSErr n)
  | None => mret tt
  end.

Definition lookup_node (w : world) (name : pystr) : option node :=
  match names w !! name with
  | Some ino => nodes w !! ino
  | None => None
  end.

(** [os.open(path, O_RDONLY | O_NOFOLLOW)], or with [O_RDWR]. *)
Definition os_open (e : env) (name : pystr) : M nat :=
  sys e SysOpen ;;;
  (fun w =>
     match names w !! name with
     | None => (Err (OSErr ENOENT), w)
     | Some ino =>
         match nodes w !! ino with
         | Some (Symlink _) => (Err (OSErr ELOOP), w)
         | None => (Err (OSErr ENOENT), w)
         | Some _ =>
             let fd := fresh (dom (fds w)) in
             (Ok fd, upd_fds (insert fd (ino, 0)) w)
         end
     end).

(** [os.open(path, O_WRONLY | O_CREAT | O_EXCL | O_NOFOLLOW, mode)] *)
Definition os_open_excl (e : env) (name : pystr) : M nat :=
  sys e SysOpen ;;;
  (fun w =>
     match names w !! name with
     | Some _ => (Err (OSErr EEXIST), w)
     | None =>
         let ino := fresh (dom (nodes w)) in
         let fd := fresh (dom (fds w)) in
         (Ok fd, upd_fds (insert fd (ino, 0))
                   (upd_nodes (insert ino (Reg [] (wtime e))) (upd_names (insert name ino) w)))
     end).

Definition os_close (fd : nat) : M unit := fun w =>
  match fds w !! fd with
  | Some _ => (Ok tt, upd_fds (delete fd) w)
  | None => (Err (OSErr EBADF), w)
  end.

(** The node a descriptor refers to. *)
Definition fd_node (w : world) (fd : nat) : option (nat * Z * node) :=
  match fds w !! fd with
  | Some (ino, off) =>
      match nodes w !! ino with Some nd => Some (ino, off, nd) | None => None end
  | None => None
  end.

(** [os.fstat(fd).st_size]; a directory has some size of its own. *)
Definition os_fstat_size (e : env) (fd : nat) : M Z :=
  sys e SysFstat ;;;
  (fun w =>
     match fd_node w fd with
     | Some (_, _, Reg d _) => (Ok (zlen d), w)
     | Some _ => (Ok 4096, w)
     | None => (Err (OSErr EBADF), w)
     end).

(** Linux transfers at most this many bytes in one [read] or [write]. *)
Definition MAX_RW_COUNT : Z := 0x7ffff000.

(** [lst[a:b]] on bytes, for [0 <= a]. *)
Definition slice (a b : Z) (l : pybytes) : pybytes :=
  take (Z.to_nat (b - a)) (drop (Z.to_nat a) l).

Definition os_read (e : env) (fd : nat) (n : Z) : M pybytes :=
  sys e SysRead ;;;
  (fun w =>
     match fd_node w fd with
     | Some (ino, off, Reg d _) =>
         let out := slice off (off + Z.min n MAX_RW_COUNT) d in
         (Ok out, upd_fds (insert fd (ino, off + zlen out)) w)
     | Some _ => (Err (OSErr EISDIR), w)
     | None => (Err (OSErr EBADF), w)
     end).

(** Overwrite [l] from offset [off], filling a hole with zeros. *)
Definition splice (off : Z) (bs l : pybytes) : pybytes :=
  take (Z.to_nat off) l ++ replicate (Z.to_nat (off - zlen l)) 0 ++ bs
    ++ drop (Z.to_nat (off + zlen bs)) l.

Definition put_at (e : env) (fd : nat) (bs : pybytes) : M unit := fun w =>
  match fd_node w fd with
  | Some (ino, off, Reg d _) =>
      (Ok tt, upd_fds (insert fd (ino, off + zlen bs))
                (upd_nodes (insert ino (Reg (splice off bs d) (wtime e))) w))
  | Some _ => (Err (OSErr EISDIR), w)
  | None => (Err (OSErr EBADF), w)
  end.

(** The number of bytes one [write] takes; it is not an error to take fewer. *)
Definition accepted (e : env) (bs : pybytes) : Z :=
  Z.max 0 (Z.min (Z.min (zlen bs) MAX_RW_COUNT) (default (zlen bs) (accepts e))).

(** [os.write(fd, bs)]: the count it returns. *)
Definition os_write (e : env) (fd : nat) (bs : pybytes) : M Z :=
  sys e SysWrite ;;;
  put_at e fd (take (Z.to_nat (accepted e bs)) bs) ;;;
  mret (accepted e bs).

(** [f.write(bs)] and [f.flush()] of a buffered writer, which repeats short writes. *)
Definition buffered_write (e : env) (fd : nat) (bs : pybytes) : M unit :=
  sys e SysWrite ;;; put_at e fd bs.

Definition os_lseek (fd : nat) (off : Z) : M unit := fun w =>
  match fds w !! fd with
  | Some (ino, _) => (Ok tt, upd_fds (insert fd (ino, off)) w)
  | None => (Err (OSErr EBADF), w)
  end.

Definition os_fsync (e : env) : M unit := sys e SysFsync.

Definition os_rename (e : env) (src dst : pystr) : M unit :=
  sys e SysRename ;;;
  (fun w =>
     match names w !! src, lookup_node w dst with
     | None, _ => (Err (OSErr ENOENT), w)
     | Some _, Some Dir => (Err (OSErr EISDIR), w)
     | Some ino, _ => (Ok tt, upd_names (fun m => <[dst := ino]> (delete src m)) w)
     end).

Definition os_unlink (e : env) (name : pystr) : M unit :=
  sys e (SysUnlink name) ;;;
  (fun w =>
     match lookup_node w name with
     | None => (Err (OSErr ENOENT), w)
     | Some Dir => (Err (OSErr EISDIR), w)
     | Some _ => (Ok tt, upd_names (delete name) w)
     end).

(** [os.path.exists(path)] follows symbolic links. *)
Definition path_exists (name : pystr) (w : world) : bool :=
  match lookup_node w name with
  | Some (Symlink b) => b
  | Some _ => true
  | None => false
  end.

(** ** Laws of the primitives *)

Lemma upd_fds_id w : upd_fds (fun m => m) w = w.
Proof. by destruct w. Qed.

Lemma fresh_fd w : fds w !! fresh (dom (fds w)) = None.
Proof. apply not_elem_of_dom, is_fresh. Qed.

Lemma fresh_ino w : nodes w !! fresh (dom (nodes w)) = None.
Proof. apply not_elem_of_dom, is_fresh. Qed.

Lemma world_eq w w' : names w = names w' -> nodes w = nodes w' -> fds w = fds w' -> w = w'.
Proof. destruct w, w'. simpl. by intros -> -> ->. Qed.

Lemma slice_all l : slice 0 (zlen l) l = l.
Proof. unfold slice. rewrite drop_0. apply take_ge. unfold zlen. lia. Qed.

Lemma splice_empty bs : splice 0 bs [] = bs.
Proof.
  unfold splice. rewrite take_nil, drop_nil, app_nil_r. simpl.
  unfold zlen. simpl. done.
Qed.

Lemma splice_length off bs l :
  0 <= off -> off + zlen bs <= zlen l -> zlen (splice off bs l) = zlen l.
Proof.
  intros. unfold splice, zlen in *.
  rewrite !length_app, length_take, length_replicate, length_drop. lia.
Qed.

(** The bytes after the overwritten range stay. *)
Lemma splice_drop off bs l n :
  0 <= off -> off + zlen bs <= n -> off <= zlen l ->
  drop (Z.to_nat n) (splice off bs l) = drop (Z.to_nat n) l.
Proof.
  intros. unfold splice, zlen in *.
  replace (Z.to_nat (off - Z.of_nat (length l))) with 0%nat by lia. simpl.
  rewrite drop_app_ge by (rewrite length_take; lia). rewrite length_take.
  rewrite drop_app_ge by lia. rewrite drop_drop. f_equal. lia.
Qed.

Lemma splice_take off bs l n :
  0 <= n <= off -> off <= zlen l -> take (Z.to_nat n) (splice off bs l) = take (Z.to_nat n) l.
Proof.
  intros. unfold splice, zlen in *. rewrite take_app_le by (rewrite length_take; lia).
  rewrite take_take. f_equal. lia.
Qed.
