(* ===== verification/FileBackend.v ===== *)
(** The file backend ([src/src/cachekit/backends/file/backend.py] and its
    configuration, [backends/file/config.py]): definitions.  Every method is the
    program over [FileSystem.M] that the source writes, with its [try], [except]
    and [finally].  A path is its name inside the cache directory.  The lock
    serialises the methods, so each is one transition of the world;
    [set_streaming], which streams outside the lock, is taken as one too. *)
From Stdlib Require Import ZArith Lia SpecFloat.
From stdpp Require Import base list numbers option gmap strings pretty.
From S2P Require Import Prelude PyFloat Errors Bytes FileSystem.

Local Open Scope Z_scope.
Local Open Scope fs_scope.

(** ** Constants *)

Definition MAGIC : pybytes := u "CK".
Definition FORMAT_VERSION : Z := 1.
Definition RESERVED : Z := 0.
Definition HEADER_SIZE : Z := 14.
Definition EVICTION_TRIGGER_THRESHOLD : float := fdiv (fofZ 9) (fofZ 10).
Definition EVICTION_TARGET_THRESHOLD : float := fdiv (fofZ 7) (fofZ 10).
Definition TEMP_FILE_MAX_AGE_SECONDS : Z := 60.
Definition MAX_TTL_SECONDS : Z := 10 * 365 * 24 * 60 * 60.
Definition MMAP_MAX_BYTES : Z := 512 * 1024 * 1024.
Definition MIB : Z := 1024 * 1024.

(** ** Configuration *)

Record FileBackendConfig := mkConfig {
  max_size_mb : Z;
  max_value_mb : Z;
  max_entry_count : Z;
  lock_timeout_seconds : float;
  permissions : Z;
  dir_permissions : Z
}.

(** [validate_max_value_mb]: at most half of the cache. *)
Definition validate_max_value_mb (mb : Z) (v : Z) : result py_exn Z :=
  if fltZ (fmul (fofZ mb) (fdiv (fofZ 1) (fofZ 2))) v then Err ValueError else Ok v.

(** The field constraints and the validator; pydantic raises a [ValueError]. *)
Definition FileBackendConfig_validate (c : FileBackendConfig) : result py_exn FileBackendConfig :=
  if negb ((1 <=? max_size_mb c) && (max_size_mb c <=? 1000000)) then Err ValueError
  else if negb (1 <=? max_value_mb c) then Err ValueError
  else if negb ((100 <=? max_entry_count c) && (max_entry_count c <=? 1000000)) then Err ValueError
  else if negb (fge (lock_timeout_seconds c) (fdiv (fofZ 1) (fofZ 2))
                && fleZ (lock_timeout_seconds c) 30) then Err ValueError
  else rbind (validate_max_value_mb (max_size_mb c) (max_value_mb c)) (fun _ => Ok c).

Definition default_config : FileBackendConfig :=
  mkConfig 1024 100 10000 (fofZ 5) 384 448.

(** The validators only warn about permissions wider than recommended. *)
Definition permission_warning (c : FileBackendConfig) : bool := 384 <? permissions c.
Definition dir_permission_warning (c : FileBackendConfig) : bool := 448 <? dir_permissions c.

(** ** Errors *)

Definition _classify_os_error (n : errno) (is_directory : bool) : BackendErrorType :=
  match n with
  | ENOSPC => TRANSIENT
  | EACCES => if is_directory then PERMANENT else TRANSIENT
  | EROFS => PERMANENT
  | ELOOP => PERMANENT
  | ETIMEDOUT => TIMEOUT
  | _ => UNKNOWN
  end.

(** The [BackendError] a method raises from an [OSError]. *)
Definition os_failure (e : env) (what op : pystr) (key : option pystr) (n : errno)
    (is_directory : bool) : exn :=
  BackendE (mkBackendError (what ++ u ": " ++ text e n) (_classify_os_error n is_directory)
              (Some (text e n)) (Some op) key).

Definition dec (z : Z) : pystr := u (pretty z).

(** ** The header *)

Definition _build_header (expiry_timestamp : Z) : result py_exn pybytes :=
  rbind (pack_H 0) (fun flags =>
  rbind (pack_Q expiry_timestamp) (fun ts =>
  Ok (MAGIC ++ [FORMAT_VERSION] ++ [RESERVED] ++ flags ++ ts))).

Definition _expiry_from_ttl (now : float) (ttl : option Z) : M Z :=
  match ttl with
  | None => mret 0
  | Some t =>
      if t =? 0 then mret 0
      else if (t <? 0) || (MAX_TTL_SECONDS <? t) then
        raise (BackendE (backend_error
          (u "TTL " ++ dec t ++ u " out of range [0, " ++ dec MAX_TTL_SECONDS
             ++ u "] (max 10 years)") PERMANENT))
      else lift (ftrunc (fadd now (fofZ t)))
  end.

(** [magic != MAGIC or version != FORMAT_VERSION] *)
Definition bad_magic (h : pybytes) : bool :=
  negb (bool_decide (slice 0 2 h = MAGIC)) || negb (default 0 (h !! 2%nat) =? FORMAT_VERSION).

(** [struct.unpack(">Q", header[6:14])[0]] *)
Definition expiry_field (h : pybytes) : Z := be_val (slice 6 14 h).

(** [expiry_timestamp > 0 and time.time() > expiry_timestamp] *)
Definition expired (now : float) (h : pybytes) : bool :=
  (0 <? expiry_field h) && fgtZ now (expiry_field h).

(** ** Locks *)

Definition _acquire_file_lock (e : env) (fd : nat) (exclusive : bool) : M unit :=
  match fault e SysFlock with
  | Some EWOULDBLOCK =>
      raise (BackendE (mkBackendError (u "Lock acquisition timeout") TIMEOUT
                         (Some (text e EWOULDBLOCK)) (Some (u "lock")) None))
  | Some n => raise (OSErr n)
  | None => mret tt
  end.

(** [LOCK_UN]; every [OSError] is ignored, also on a closed descriptor. *)
Definition _release_file_lock (fd : nat) : M unit := mret tt.

Definition _safe_unlink (e : env) (path : pystr) : M unit :=
  catch (os_unlink e path) (fun x =>
    match x with
    | OSErr _ => mret tt
    | _ => raise x
    end).

(** [try: body finally: if not fd_closed: os.close(fd)].  The body answers its
    result and the flag [fd_closed]; when it raises, the flag is still unset. *)
Definition closing {A} (fd : nat) (body : M (bool * A)) : M A := fun w =>
  match body w with
  | (Ok (true, a), w') => (Ok a, w')
  | (Ok (false, a), w') => (os_close fd ;;; mret a) w'
  | (Err x, w') => (os_close fd ;;; raise x) w'
  end.

(** [os.close(fd); fd_closed = True; self._safe_unlink(path); return a] *)
Definition drop_entry {A} (e : env) (fd : nat) (path : pystr) (a : A) : M (bool * A) :=
  os_close fd ;;; _safe_unlink e path ;;; mret (true, a).

(** The [except] clauses of the readers: a missing file and a symlink are
    misses, another [OSError] becomes a [BackendError]. *)
Definition missing_or {A} (e : env) (what op key : pystr) (a : A) (x : exn) : M A :=
  match x with
  | OSErr ENOENT | OSErr ELOOP => mret a
  | OSErr n => raise (os_failure e what op (Some key) n false)
  | _ => raise x
  end.

(** ** Names *)

(** [sub in s] *)
Fixpoint contains (sub s : pystr) : bool :=
  bool_decide (sub = take (length sub) s) ||
  match s with [] => false | _ :: r => contains sub r end.

Definition starts_with_dot (s : pystr) : bool :=
  match s with c :: _ => c =? 46 | [] => false end.

(** Entries, as opposed to temporary and hidden files. *)
Definition is_entry_name (s : pystr) : bool :=
  negb (starts_with_dot s) && negb (contains (u ".tmp.") s).

Definition _generate_temp_path (e : env) (target : pystr) (ns : Z) : pystr :=
  target ++ u ".tmp." ++ dec (pid e) ++ u "." ++ dec ns.

(** ** Eviction order: [files_with_mtime.sort(key=lambda x: x[1])] *)

(** A file found by [iterdir]: its path, mtime and size. *)
Abbreviation file_info := (pystr * float * Z)%type (only parsing).

Fixpoint insert_by_mtime (x : pystr * float * Z) (l : list (pystr * float * Z))
  : list (pystr * float * Z) :=
  match l with
  | [] => [x]
  | y :: r => if flt y.1.2 x.1.2 then y :: insert_by_mtime x r else x :: y :: r
  end.

(** The stable sort, oldest first. *)
Definition sort_by_mtime (l : list (pystr * float * Z)) : list (pystr * float * Z) :=
  foldr insert_by_mtime [] l.

(** ** The backend *)

(** A handle on a memory-mapped file: the inode, the mapped size, and whether it
    is still open. *)
Record mmap_handle := mkHandle {
  h_ino : nat;
  h_size : Z;
  h_open : bool
}.

(** [_MmapHandle.view]: the mapped bytes past the header. *)
Definition view (h : mmap_handle) (w : world) : option pybytes :=
  if h_open h then
    match nodes w !! h_ino h with
    | Some (Reg d _) => Some (drop (Z.to_nat HEADER_SIZE) (take (Z.to_nat (h_size h)) d))
    | _ => None
    end
  else None.

(** [_MmapHandle.close]; closing twice is harmless. *)
Definition handle_close (h : mmap_handle) : mmap_handle := mkHandle (h_ino h) (h_size h) false.

(** What a streaming producer does to the file it is given. *)
Inductive producer_op :=
  | PWrite (bs : pybytes)
  | PSeek (off : Z).
Record producer := mkProducer {
  p_ops : list producer_op;
  p_raises : bool
}.

Inductive health :=
  | Healthy (latency_ms cache_size_mb : float) (file_count size_limit entry_limit : Z)
  | Unhealthy (latency_ms : float) (error : pystr).

Section Backend.
Context (blake2b : Z -> pybytes -> pybytes).
Context (iterdir : gmap pystr nat -> list (pystr * nat)).
Context (cfg : FileBackendConfig).

(** [blake2b(key.encode("utf-8"), digest_size=16).hexdigest()] *)
Definition _key_to_path (key : pystr) : M pystr :=
  bs <-- lift (utf8_encode key) ;;
  mret (hexdigest (blake2b 16 bs)).

(** One directory entry as the scans see it: [None] for what they skip. *)
Definition scan_entry (e : env) (w : world) (x : pystr * nat) : option (pystr * float * Z) :=
  if negb (is_entry_name x.1) then None
  else match fault e (SysLstat x.1) with
       | Some _ => None
       | None =>
           match nodes w !! x.2 with
           | Some (Reg d mt) => Some (x.1, mt, zlen d)
           | _ => None
           end
       end.

Definition scan (e : env) (w : world) : list (pystr * float * Z) :=
  omap (scan_entry e w) (iterdir (names w)).

Definition _calculate_cache_size (e : env) (w : world) : float * Z :=
  match fault e SysIterdir with
  | Some _ => (S754_zero false, 0)
  | None =>
      match fdivZ (zsum (map snd (scan e w))) MIB with
      | Ok mb => (mb, zlen (scan e w))
      | Err _ => (S754_zero false, 0)
      end
  end.

Definition _check_entry_capacity (e : env) (path : pystr) : M unit :=
  if max_entry_count cfg <=? 0 then mret tt
  else
    sc <-- reads (_calculate_cache_size e) ;;
    ex <-- reads (path_exists path) ;;
    if negb ex && (max_entry_count cfg <=? sc.2) then
      raise (BackendE (backend_error
        (u "Entry count " ++ dec sc.2 ++ u " would exceed max_entry_count ("
           ++ dec (max_entry_count cfg) ++ u ")") PERMANENT))
    else mret tt.

Definition target_count : result py_exn Z :=
  ftrunc (fmul (fofZ (max_entry_count cfg)) EVICTION_TARGET_THRESHOLD).

Definition target_size_mb : float := fmul (fofZ (max_size_mb cfg)) EVICTION_TARGET_THRESHOLD.

(** [size_trigger or count_trigger] *)
Definition evict_trigger (sc : float * Z) : bool :=
  fgt sc.1 (fmul (fofZ (max_size_mb cfg)) EVICTION_TRIGGER_THRESHOLD)
  || fltZ (fmul (fofZ (max_entry_count cfg)) EVICTION_TRIGGER_THRESHOLD) sc.2.

(** Both targets are reached. *)
Definition below_target (tc : Z) (size_mb : float) (count : Z) : bool :=
  fle size_mb target_size_mb && (count <=? tc).

(** Evict until both targets are reached; a file that cannot be unlinked is
    passed over. *)
Fixpoint evict_loop (e : env) (tc : Z) (files : list (pystr * float * Z))
    (current_size_mb : float) (current_count : Z) : M unit :=
  match files with
  | [] => mret tt
  | (path, _, file_size) :: r =>
      if below_target tc current_size_mb current_count then mret tt
      else fun w =>
        match os_unlink e path w with
        | (Ok _, w') =>
            match fdivZ file_size MIB with
            | Ok mb => evict_loop e tc r (fsub current_size_mb mb) (current_count - 1) w'
            | Err _ => (Ok tt, w')
            end
        | (Err (OSErr _), w') => evict_loop e tc r current_size_mb current_count w'
        | (Err _, w') => (Ok tt, w')
        end
  end.

Definition _maybe_evict (e : env) : M unit :=
  sc <-- reads (_calculate_cache_size e) ;;
  if negb (evict_trigger sc) then mret tt
  else
    tc <-- lift target_count ;;
    match fault e SysIterdir with
    | Some _ => mret tt
    | None =>
        files <-- reads (scan e) ;;
        evict_loop e tc (sort_by_mtime files) sc.1 sc.2
    end.

(** One temporary file at start-up: stale regular files go. *)
Definition cleanup_temp (e : env) (now : float) (x : pystr * nat) : M unit :=
  if negb (contains (u ".tmp.") x.1) then mret tt
  else match fault e (SysLstat x.1) with
       | Some _ => mret tt
       | None => fun w =>
           match nodes w !! x.2 with
           | Some (Reg _ mt) =>
               if fgtZ (fsub now mt) TEMP_FILE_MAX_AGE_SECONDS
               then _safe_unlink e x.1 w else (Ok tt, w)
           | Some Dir =>
               (* an old directory: unlink fails and is ignored *)
               (Ok tt, w)
           | _ => (Ok tt, w)
           end
       end.

Definition _cleanup_temp_files (e : env) (now : float) : M unit := fun w =>
  match fault e SysIterdir with
  | Some _ => (Ok tt, w)
  | None =>
      foldr (fun x k => cleanup_temp e now x ;;; k) (mret tt) (iterdir (names w)) w
  end.

Definition init (e : env) (now : float) : M unit :=
  catch (sys e SysMkdir) (fun x =>
    match x with
    | OSErr n => raise (os_failure e (u "Failed to create cache directory") (u "init") None n true)
    | _ => raise x
    end) ;;;
  _cleanup_temp_files e now.

Definition get (e : env) (now : float) (key : pystr) : M (option pybytes) :=
  path <-- _key_to_path key ;;
  catch
    (fd <-- os_open e path ;;
     closing fd
       (_acquire_file_lock e fd false ;;;
        finally
          (st_size <-- os_fstat_size e fd ;;
           file_data <-- os_read e fd st_size ;;
           if zlen file_data <? HEADER_SIZE then drop_entry e fd path None
           else if bad_magic file_data then drop_entry e fd path None
           else if expired now file_data then drop_entry e fd path None
           else mret (false, Some (drop (Z.to_nat HEADER_SIZE) file_data)))
          (_release_file_lock fd)))
    (missing_or e (u "Failed to read cache file") (u "get") key None).

Definition exists_ (e : env) (now : float) (key : pystr) : M bool :=
  path <-- _key_to_path key ;;
  catch
    (fd <-- os_open e path ;;
     closing fd
       (_acquire_file_lock e fd false ;;;
        finally
          (header_data <-- os_read e fd HEADER_SIZE ;;
           if zlen header_data <? HEADER_SIZE then drop_entry e fd path false
           else if bad_magic header_data then drop_entry e fd path false
           else if expired now header_data then drop_entry e fd path false
           else mret (false, true))
          (_release_file_lock fd)))
    (missing_or e (u "Failed to check cache file existence") (u "exists") key false).

(** On POSIX.  Here the unlinking branches leave the descriptor to the outer
    [finally]. *)
Definition get_buffer (e : env) (now : float) (key : pystr) : M (option mmap_handle) :=
  path <-- _key_to_path key ;;
  opened <-- catch (fd <-- os_open e path ;; mret (Some fd))
    (missing_or e (u "Failed to open cache file for mmap") (u "get_buffer") key None) ;;
  match opened with
  | None => mret None
  | Some fd =>
      finally
        (catch
           (_acquire_file_lock e fd false ;;;
            finally
              (st_size <-- os_fstat_size e fd ;;
               if st_size <? HEADER_SIZE then _safe_unlink e path ;;; mret None
               else
                 header <-- os_read e fd HEADER_SIZE ;;
                 if bad_magic header then _safe_unlink e path ;;; mret None
                 else if expired now header then _safe_unlink e path ;;; mret None
                 else if (st_size <=? HEADER_SIZE) || (MMAP_MAX_BYTES <? st_size) then mret None
                 else
                   sys e SysMmap ;;;
                   ino <-- reads (fun w => default O (fst <$> fds w !! fd)) ;;
                   mret (Some (mkHandle ino st_size true)))
              (_release_file_lock fd))
           (fun x =>
              match x with
              | OSErr n =>
                  raise (os_failure e (u "Failed to mmap cache file") (u "get_buffer")
                           (Some key) n false)
              | _ => raise x
              end))
        (os_close fd)
  end.

(** The handler of the writers. *)
Definition write_failure {A} (e : env) (op key : pystr) (n : errno) : M A :=
  raise (os_failure e (u "Failed to write cache file") op (Some key) n false).

Definition too_large (size : Z) : exn :=
  BackendE (backend_error
    (u "Value size " ++ dec size ++ u " exceeds max_value_mb (" ++ dec (max_value_mb cfg)
       ++ u "MB)") PERMANENT).

Definition set (e : env) (now : float) (ns : Z) (key : pystr) (value : pybytes)
    (ttl : option Z) : M unit :=
  if max_value_mb cfg * 1024 * 1024 <? zlen value then raise (too_large (zlen value))
  else
    file_path <-- _key_to_path key ;;
    expiry <-- _expiry_from_ttl now ttl ;;
    header <-- lift (_build_header expiry) ;;
    let file_data := header ++ value in
    let temp_path := _generate_temp_path e file_path ns in
    catch
      (_check_entry_capacity e file_path ;;;
       fd <-- os_open_excl e temp_path ;;
       finally
         (_acquire_file_lock e fd true ;;;
          finally
            (os_write e fd file_data ;;;
             os_fsync e)
            (_release_file_lock fd))
         (os_close fd) ;;;
       os_rename e temp_path file_path ;;;
       _maybe_evict e)
      (fun x =>
         match x with
         | OSErr n => _safe_unlink e temp_path ;;; write_failure e (u "set") key n
         | _ => raise x
         end).

(** [write_payload(f)] *)
Fixpoint run_ops (e : env) (fd : nat) (ops : list producer_op) : M unit :=
  match ops with
  | [] => mret tt
  | PWrite bs :: r => buffered_write e fd bs ;;; run_ops e fd r
  | PSeek off :: r => os_lseek fd off ;;; run_ops e fd r
  end.

Definition write_payload (e : env) (fd : nat) (p : producer) : M unit :=
  run_ops e fd (p_ops p) ;;; if p_raises p then raise ProducerE else mret tt.

(** The temporary file written outside the lock: header, payload, size limit. *)
Definition stream_body (e : env) (fd : nat) (header : pybytes) (p : producer) : M unit :=
  finally
    (_acquire_file_lock e fd true ;;;
     finally
       (buffered_write e fd header ;;;
        write_payload e fd p ;;;
        st_size <-- os_fstat_size e fd ;;
        (if max_value_mb cfg * 1024 * 1024 <? st_size - HEADER_SIZE
         then raise (too_large (st_size - HEADER_SIZE)) else mret tt) ;;;
        os_fsync e)
       (_release_file_lock fd))
    (os_close fd).

(** [committed] is set by the rename: a failure before it discards the
    temporary file, a failure of the eviction after it does not. *)
Definition set_streaming (e : env) (now : float) (ns : Z) (key : pystr) (p : producer)
    (ttl : option Z) : M unit :=
  expiry <-- _expiry_from_ttl now ttl ;;
  header <-- lift (_build_header expiry) ;;
  file_path <-- _key_to_path key ;;
  let temp_path := _generate_temp_path e file_path ns in
  let os_errors (x : exn) : M unit :=
    match x with
    | OSErr n => write_failure e (u "set_streaming") key n
    | _ => raise x
    end in
  catch
    (_check_entry_capacity e file_path ;;;
     fd <-- os_open_excl e temp_path ;;
     stream_body e fd header p ;;;
     os_rename e temp_path file_path)
    (fun x => finally (os_errors x) (_safe_unlink e temp_path)) ;;;
  catch (_maybe_evict e) os_errors.

Definition delete (e : env) (key : pystr) : M bool :=
  path <-- _key_to_path key ;;
  catch (os_unlink e path ;;; mret true)
    (fun x =>
       match x with
       | OSErr ENOENT => mret false
       | OSErr n =>
           raise (os_failure e (u "Failed to delete cache file") (u "delete") (Some key) n false)
       | _ => raise x
       end).

Definition get_ttl (e : env) (now : float) (key : pystr) : M (option Z) :=
  path <-- _key_to_path key ;;
  catch
    (fd <-- os_open e path ;;
     closing fd
       (_acquire_file_lock e fd false ;;;
        finally
          (header <-- os_read e fd HEADER_SIZE ;;
           if (zlen header <? HEADER_SIZE) || bad_magic header then drop_entry e fd path None
           else if expiry_field header =? 0 then mret (false, None)
           else
             let remaining := fsub (fofZ (expiry_field header)) now in
             if fleZ remaining 0 then drop_entry e fd path None
             else s <-- lift (ftrunc remaining) ;; mret (false, Some s))
          (_release_file_lock fd)))
    (missing_or e (u "Failed to read cache file TTL") (u "get_ttl") key None).

(** [now] is read for the new expiry, [now'] for the check of the old one. *)
Definition refresh_ttl (e : env) (now now' : float) (key : pystr) (ttl : Z) : M bool :=
  new_expiry <-- _expiry_from_ttl now (Some ttl) ;;
  path <-- _key_to_path key ;;
  catch
    (fd <-- os_open e path ;;
     closing fd
       (_acquire_file_lock e fd true ;;;
        finally
          (header <-- os_read e fd HEADER_SIZE ;;
           if (zlen header <? HEADER_SIZE) || bad_magic header then drop_entry e fd path false
           else if expired now' header then drop_entry e fd path false
           else
             os_lseek fd 6 ;;;
             packed <-- lift (pack_Q new_expiry) ;;
             os_write e fd packed ;;;
             os_fsync e ;;;
             mret (false, true))
          (_release_file_lock fd)))
    (missing_or e (u "Failed to refresh cache file TTL") (u "refresh_ttl") key false).

(** [str(exc)] *)
Definition exn_text (e : env) (x : exn) : pystr :=
  match x with
  | OSErr n => text e n
  | BackendE b => _format_message b
  | PyE p => py_text e p
  | ProducerE => []
  end.

Definition health_key : pystr := u "__health_check__".
Definition health_value : pybytes := u "health_check_data".

(** [start], then the clock readings of the three operations, then [stop]. *)
Definition health_check (e : env) (start t_set t_get stop : float) (ns : Z) : M health :=
  let latency := fmul (fsub stop start) (fofZ 1000) in
  catch
    (set e t_set ns health_key health_value (Some 60) ;;;
     retrieved <-- get e t_get health_key ;;
     delete e health_key ;;;
     if negb (bool_decide (retrieved = Some health_value))
     then mret (Unhealthy latency (u "Round-trip verification failed"))
     else
       sc <-- reads (_calculate_cache_size e) ;;
       mret (Healthy latency sc.1 sc.2 (max_size_mb cfg) (max_entry_count cfg)))
    (fun x => mret (Unhealthy latency (exn_text e x))).

End Backend.
