(* ===== verification/FileReaders.v ===== *)
(** The file backend: header codec and the operations that read an entry
    ([get], [exists], [get_ttl], [get_buffer], [refresh_ttl], [delete]). *)
From Stdlib Require Import ZArith Lia SpecFloat.
From stdpp Require Import base list numbers option gmap strings.
From S2P Require Import Prelude PyFloat Errors Bytes FileSystem FileBackend.

Local Open Scope Z_scope.
Local Open Scope fs_scope.

(** ** The header *)

Lemma build_header_ok x h :
  _build_header x = Ok h ->
  zlen h = HEADER_SIZE /\ Forall is_byte h /\ 0 <= x < 2 ^ 64 /\
  forall r, bad_magic (h ++ r) = false /\ expiry_field (h ++ r) = x /\
            drop (Z.to_nat HEADER_SIZE) (h ++ r) = r.
Proof.
  unfold _build_header. change (pack_H 0) with (Ok (E:=py_exn) [0; 0]). cbn [rbind].
  destruct (pack_Q x) as [ts|] eqn:E; [|done]. cbn [rbind]. intros Hh.
  apply pack_Q_ok in E as (L & B & V & R).
  assert (h = 67 :: 75 :: 1 :: 0 :: 0 :: 0 :: ts) as -> by (injection Hh as <-; reflexivity).
  split; [unfold zlen; simpl; rewrite L; done|].
  split; [repeat (constructor; [unfold is_byte; lia|]); done|]. split; [done|].
  intros r. split; [reflexivity|].
  assert (T : take 8 (ts ++ r) = ts) by (rewrite take_app_le by lia; apply take_ge; lia).
  split.
  - unfold expiry_field. etransitivity; [|exact V]. f_equal. exact T.
  - change (drop 8 (ts ++ r) = r). rewrite drop_app_ge by lia. by rewrite L, Nat.sub_diag, drop_0.
Qed.

(** The tests of the readers only look at the first fourteen bytes. *)
Lemma slice_take a b n (l : pybytes) :
  0 <= a -> b <= n -> slice a b (take (Z.to_nat n) l) = slice a b l.
Proof.
  intros Ha Hb. unfold slice. rewrite skipn_firstn_comm, take_take. f_equal. lia.
Qed.

Lemma bad_magic_take l : bad_magic (take (Z.to_nat HEADER_SIZE) l) = bad_magic l.
Proof.
  unfold bad_magic. rewrite slice_take by (unfold HEADER_SIZE; lia).
  by rewrite lookup_take_lt by (unfold HEADER_SIZE; lia).
Qed.

Lemma expiry_field_take l : expiry_field (take (Z.to_nat HEADER_SIZE) l) = expiry_field l.
Proof. unfold expiry_field. by rewrite slice_take by (unfold HEADER_SIZE; lia). Qed.

Lemma expired_take now l : expired now (take (Z.to_nat HEADER_SIZE) l) = expired now l.
Proof. unfold expired. by rewrite expiry_field_take. Qed.

(** ** Executing the primitives *)

(** An operating system that lets every call succeed in full. *)
Definition calm (e : env) : Prop := (forall s, fault e s = None) /\ accepts e = None.

Lemma bind_ok {A B} (m : M A) (f : A -> M B) w a w' : m w = (Ok a, w') -> bind m f w = f a w'.
Proof. unfold bind. by intros ->. Qed.

Lemma bind_err {A B} (m : M A) (f : A -> M B) w x w' :
  m w = (Err x, w') -> bind m f w = (Err x, w').
Proof. unfold bind. by intros ->. Qed.

Lemma sys_calm e s w : calm e -> sys e s w = (Ok tt, w).
Proof. intros [C _]. unfold sys. by rewrite C. Qed.

Lemma release_finally {A} (m : M A) fd w : finally m (_release_file_lock fd) w = m w.
Proof. unfold finally, _release_file_lock, mret. by destruct (m w). Qed.

Lemma lock_calm e fd b w : calm e -> _acquire_file_lock e fd b w = (Ok tt, w).
Proof. intros [C _]. unfold _acquire_file_lock. by rewrite C. Qed.

(** The world while one descriptor is open on inode [ino]. *)
Definition opened (w : world) (ino : nat) (off : Z) : world :=
  upd_fds (insert (fresh (dom (fds w))) (ino, off)) w.

Lemma open_calm e p ino nd w :
  calm e -> names w !! p = Some ino -> nodes w !! ino = Some nd ->
  match nd with Symlink _ => False | _ => True end ->
  os_open e p w = (Ok (fresh (dom (fds w))), opened w ino 0).
Proof.
  intros C Hp Hn Hk. unfold os_open. rewrite (bind_ok _ _ _ _ _ (sys_calm e SysOpen w C)).
  rewrite Hp, Hn. by destruct nd.
Qed.

Lemma opened_node w ino off nd :
  nodes w !! ino = Some nd -> fd_node (opened w ino off) (fresh (dom (fds w))) = Some (ino, off, nd).
Proof. intros Hn. unfold fd_node, opened. simpl. rewrite lookup_insert_eq. by rewrite Hn. Qed.

Lemma opened_again w ino off off' :
  upd_fds (insert (fresh (dom (fds w))) (ino, off')) (opened w ino off) = opened w ino off'.
Proof. unfold opened, upd_fds. simpl. by rewrite insert_insert_eq. Qed.

Lemma lseek_opened w ino off off' :
  os_lseek (fresh (dom (fds w))) off' (opened w ino off) = (Ok tt, opened w ino off').
Proof. unfold os_lseek, opened. simpl. rewrite lookup_insert_eq. f_equal. apply opened_again. Qed.

Lemma opened_close w ino off :
  os_close (fresh (dom (fds w))) (opened w ino off) = (Ok tt, w).
Proof.
  unfold os_close, opened. simpl. rewrite lookup_insert_eq. f_equal.
  apply world_eq; try done. simpl. rewrite delete_insert_id; [done|apply fresh_fd].
Qed.

Lemma fstat_calm e w ino off d mt :
  calm e -> nodes w !! ino = Some (Reg d mt) ->
  os_fstat_size e (fresh (dom (fds w))) (opened w ino off) = (Ok (zlen d), opened w ino off).
Proof.
  intros C Hn. unfold os_fstat_size. rewrite (bind_ok _ _ _ _ _ (sys_calm e _ _ C)).
  by rewrite (opened_node w ino off _ Hn).
Qed.

Lemma read_calm e w ino d mt n :
  calm e -> nodes w !! ino = Some (Reg d mt) ->
  os_read e (fresh (dom (fds w))) n (opened w ino 0) =
    (Ok (take (Z.to_nat (Z.min n MAX_RW_COUNT)) d),
     opened w ino (zlen (take (Z.to_nat (Z.min n MAX_RW_COUNT)) d))).
Proof.
  intros C Hn. unfold os_read. rewrite (bind_ok _ _ _ _ _ (sys_calm e _ _ C)).
  rewrite (opened_node w ino 0 _ Hn). unfold slice.
  rewrite Z.add_0_l, Z.sub_0_r, drop_0. f_equal. by rewrite opened_again.
Qed.

Lemma unlink_calm e p ino nd w :
  calm e -> names w !! p = Some ino -> nodes w !! ino = Some nd -> nd <> Dir ->
  os_unlink e p w = (Ok tt, upd_names (base.delete p) w).
Proof.
  intros C Hp Hn Hd. unfold os_unlink. rewrite (bind_ok _ _ _ _ _ (sys_calm e _ _ C)).
  unfold lookup_node. rewrite Hp, Hn. by destruct nd.
Qed.

(** Dropping the entry the descriptor was opened on. *)
Lemma drop_entry_calm {A} e p ino d mt off (a : A) w :
  calm e -> names w !! p = Some ino -> nodes w !! ino = Some (Reg d mt) ->
  drop_entry e (fresh (dom (fds w))) p a (opened w ino off) =
    (Ok (true, a), upd_names (base.delete p) w).
Proof.
  intros C Hp Hn. unfold drop_entry. rewrite (bind_ok _ _ _ _ _ (opened_close w ino off)).
  unfold _safe_unlink, bind, catch. rewrite (unlink_calm e p ino (Reg d mt)) by done. done.
Qed.

Lemma closing_kept {A} fd (body : M (bool * A)) w a w' w'' :
  body w = (Ok (false, a), w') -> os_close fd w' = (Ok tt, w'') -> closing fd body w = (Ok a, w'').
Proof. intros E C. unfold closing. rewrite E. unfold bind. by rewrite C. Qed.

Lemma closing_done {A} fd (body : M (bool * A)) w a w' :
  body w = (Ok (true, a), w') -> closing fd body w = (Ok a, w').
Proof. intros E. unfold closing. by rewrite E. Qed.

Lemma catch_ok {A} (m : M A) h w a w' : m w = (Ok a, w') -> catch m h w = (Ok a, w').
Proof. unfold catch. by intros ->. Qed.

(** ** The readers, on an entry and on a quiet system *)

Section Readers.
Context (blake2b : Z -> pybytes -> pybytes).

(** [key] is stored under [p] as the regular file [d], small enough to be read
    by one call. *)
Record entry (key p : pystr) (w : world) (ino : nat) (d : pybytes) (mt : float) : Prop := mkEntry {
  en_path : _key_to_path blake2b key w = (Ok p, w);
  en_name : names w !! p = Some ino;
  en_node : nodes w !! ino = Some (Reg d mt)
}.

(** An entry is live when it is neither corrupt nor expired. *)
Definition live (now : float) (d : pybytes) : bool :=
  negb ((zlen d <? HEADER_SIZE) || bad_magic d || expired now d).

Definition payload (d : pybytes) : pybytes := drop (Z.to_nat HEADER_SIZE) d.

(** What a look at an entry leaves: a dead entry is unlinked. *)
Definition seen (p : pystr) (alive : bool) (w : world) : world :=
  if alive then w else upd_names (base.delete p) w.

Lemma take_whole (d : pybytes) : zlen d <= MAX_RW_COUNT ->
  take (Z.to_nat (Z.min (zlen d) MAX_RW_COUNT)) d = d.
Proof. intros Hl. apply take_ge. unfold zlen in *. lia. Qed.

Lemma take_header (d : pybytes) :
  take (Z.to_nat (Z.min HEADER_SIZE MAX_RW_COUNT)) d = take (Z.to_nat HEADER_SIZE) d.
Proof. done. Qed.

Lemma zlen_take_header (d : pybytes) :
  (zlen (take (Z.to_nat HEADER_SIZE) d) <? HEADER_SIZE) = (zlen d <? HEADER_SIZE).
Proof.
  unfold zlen, HEADER_SIZE. rewrite length_take.
  destruct (Z.ltb_spec (Z.of_nat (length d)) 14) as [L|L]; apply Z.ltb_lt || apply Z.ltb_ge; lia.
Qed.

(** Open, lock, run [body], close: on an entry and a quiet system a reader ends
    in the world [body] leaves, its descriptor closed. *)
Lemma reader_runs {A} e key p w ino d mt excl (body : pystr -> nat -> M (bool * A))
    (h : pystr -> exn -> M A) (b : bool) a w2 off :
  calm e -> entry key p w ino d mt -> fds w2 = fds w ->
  body p (fresh (dom (fds w))) (opened w ino 0) =
    (if b then (Ok (true, a), w2) else (Ok (false, a), opened w2 ino off)) ->
  (path <-- _key_to_path blake2b key ;;
   catch
     (fd <-- os_open e path ;;
      closing fd
        (_acquire_file_lock e fd excl ;;;
         finally (body path fd) (_release_file_lock fd)))
     (h path)) w = (Ok a, w2).
Proof.
  intros C [Ep Hname Hnode] Hf B. rewrite (bind_ok _ _ _ _ _ Ep). apply catch_ok.
  rewrite (bind_ok _ _ _ _ _ (open_calm e p ino (Reg d mt) w C Hname Hnode I)).
  destruct b.
  - apply closing_done. rewrite (bind_ok _ _ _ _ _ (lock_calm e _ _ _ C)).
    by rewrite release_finally.
  - eapply closing_kept.
    + rewrite (bind_ok _ _ _ _ _ (lock_calm e _ _ _ C)), release_finally. exact B.
    + rewrite <- Hf. apply opened_close.
Qed.

(** The same when [body] raises: the descriptor is closed, the handler decides. *)
Lemma reader_raises {A} e key p w ino d mt excl (body : pystr -> nat -> M (bool * A))
    (h : pystr -> exn -> M A) x off :
  calm e -> entry key p w ino d mt ->
  body p (fresh (dom (fds w))) (opened w ino 0) = (Err x, opened w ino off) ->
  (path <-- _key_to_path blake2b key ;;
   catch
     (fd <-- os_open e path ;;
      closing fd
        (_acquire_file_lock e fd excl ;;;
         finally (body path fd) (_release_file_lock fd)))
     (h path)) w = h p x w.
Proof.
  intros C [Ep Hname Hnode] B. rewrite (bind_ok _ _ _ _ _ Ep). unfold catch.
  rewrite (bind_ok _ _ _ _ _ (open_calm e p ino (Reg d mt) w C Hname Hnode I)).
  unfold closing. rewrite (bind_ok _ _ _ _ _ (lock_calm e _ _ _ C)), release_finally, B.
  by rewrite (bind_ok _ _ _ _ _ (opened_close w ino off)).
Qed.

Lemma read_header_calm e w ino d mt :
  calm e -> nodes w !! ino = Some (Reg d mt) ->
  exists off, os_read e (fresh (dom (fds w))) HEADER_SIZE (opened w ino 0) =
    (Ok (take (Z.to_nat HEADER_SIZE) d), opened w ino off).
Proof. intros C Hn. eexists. rewrite (read_calm e w ino d mt _ C Hn). done. Qed.

(** Run a reader whose tests are [live]. *)
Ltac run_tests :=
  repeat match goal with
  | |- context [if (?a || ?b) then _ else _] => destruct a eqn:?; cbn [orb negb]
  | |- context [if ?c then _ else _] => destruct c eqn:?; cbn [orb negb]
  end.

Lemma get_calm e now key p w ino d mt :
  calm e -> entry key p w ino d mt -> zlen d <= MAX_RW_COUNT ->
  get blake2b e now key w =
    (Ok (if live now d then Some (payload d) else None), seen p (live now d) w).
Proof.
  intros C En Hl. pose proof (en_name _ _ _ _ _ _ En) as Hname.
  pose proof (en_node _ _ _ _ _ _ En) as Hnode. unfold get.
  eapply (reader_runs _ _ _ _ _ _ _ _ _ _ (negb (live now d))); [done..|by destruct (live now d)|].
  rewrite (bind_ok _ _ _ _ _ (fstat_calm e w ino 0 d mt C Hnode)).
  rewrite (bind_ok _ _ _ _ _ (read_calm e w ino d mt _ C Hnode)).
  rewrite take_whole by done. unfold live.
  destruct (zlen d <? HEADER_SIZE); [by eapply drop_entry_calm|].
  destruct (bad_magic d); [by eapply drop_entry_calm|].
  destruct (expired now d); [by eapply drop_entry_calm|done].
Qed.

Lemma exists_calm e now key p w ino d mt :
  calm e -> entry key p w ino d mt ->
  exists_ blake2b e now key w = (Ok (live now d), seen p (live now d) w).
Proof.
  intros C En. pose proof (en_name _ _ _ _ _ _ En) as Hname.
  pose proof (en_node _ _ _ _ _ _ En) as Hnode. unfold exists_.
  destruct (read_header_calm e w ino d mt C Hnode) as [off R].
  eapply (reader_runs _ _ _ _ _ _ _ _ _ _ (negb (live now d)) _ _ off); [done..|by destruct (live now d)|].
  rewrite (bind_ok _ _ _ _ _ R), zlen_take_header, bad_magic_take, expired_take. unfold live.
  destruct (zlen d <? HEADER_SIZE); [by eapply drop_entry_calm|].
  destruct (bad_magic d); [by eapply drop_entry_calm|].
  destruct (expired now d); [by eapply drop_entry_calm|done].
Qed.

(** The whole seconds [get_ttl] reports, when the entry has an expiry. *)
Definition remaining (now : float) (d : pybytes) : float := fsub (fofZ (expiry_field d)) now.

Lemma get_ttl_calm e now key p w ino d mt :
  calm e -> entry key p w ino d mt ->
  get_ttl blake2b e now key w =
    if (zlen d <? HEADER_SIZE) || bad_magic d then (Ok None, upd_names (base.delete p) w)
    else if expiry_field d =? 0 then (Ok None, w)
    else if fleZ (remaining now d) 0 then (Ok None, upd_names (base.delete p) w)
    else match ftrunc (remaining now d) with
         | Ok s => (Ok (Some s), w)
         | Err x => (Err (PyE x), w)
         end.
Proof.
  intros C En. pose proof (en_name _ _ _ _ _ _ En) as Hname.
  pose proof (en_node _ _ _ _ _ _ En) as Hnode. unfold get_ttl.
  destruct (read_header_calm e w ino d mt C Hnode) as [off R].
  destruct (((zlen d <? HEADER_SIZE) || bad_magic d)) eqn:T1.
  { eapply (reader_runs _ _ _ _ _ _ _ _ _ _ true _ _ off); [done..|].
    rewrite (bind_ok _ _ _ _ _ R), zlen_take_header, bad_magic_take, T1.
    by eapply drop_entry_calm. }
  destruct (expiry_field d =? 0) eqn:T2.
  { eapply (reader_runs _ _ _ _ _ _ _ _ _ _ false _ _ off); [done..|].
    by rewrite (bind_ok _ _ _ _ _ R), zlen_take_header, bad_magic_take, T1, expiry_field_take, T2. }
  destruct (fleZ (remaining now d) 0) eqn:T3.
  { eapply (reader_runs _ _ _ _ _ _ _ _ _ _ true _ _ off); [done..|].
    rewrite (bind_ok _ _ _ _ _ R), zlen_take_header, bad_magic_take, T1, expiry_field_take, T2.
    fold (remaining now d). rewrite T3. by eapply drop_entry_calm. }
  destruct (ftrunc (remaining now d)) as [s|x] eqn:Es.
  - eapply (reader_runs _ _ _ _ _ _ _ _ _ _ false _ _ off); [done..|].
    rewrite (bind_ok _ _ _ _ _ R), zlen_take_header, bad_magic_take, T1, expiry_field_take, T2.
    fold (remaining now d). by rewrite T3, Es.
  - erewrite (reader_raises _ _ _ _ _ _ _ _ _ _ (PyE x) off C En); [done|].
    rewrite (bind_ok _ _ _ _ _ R), zlen_take_header, bad_magic_take, T1, expiry_field_take, T2.
    fold (remaining now d). by rewrite T3, Es.
Qed.

(** ** Rewriting the expiry in place *)

(** The bytes of an entry whose expiry field is rewritten. *)
Definition retimed (x : Z) (d : pybytes) : pybytes := splice 6 (be_bytes 8 x) d.

Lemma header_long (d : pybytes) : (zlen d <? HEADER_SIZE) = false -> 14 <= zlen d.
Proof. unfold HEADER_SIZE. lia. Qed.

Lemma retimed_header x (d : pybytes) :
  14 <= zlen d -> 0 <= x < 2 ^ 64 ->
  zlen (retimed x d) = zlen d /\ payload (retimed x d) = payload d /\
  bad_magic (retimed x d) = bad_magic d /\ expiry_field (retimed x d) = x.
Proof.
  intros Hd Hx. assert (L : zlen (be_bytes 8 x) = 8) by (unfold zlen; by rewrite be_bytes_length).
  unfold retimed. split; [apply splice_length; lia|].
  split; [unfold payload; apply splice_drop; unfold HEADER_SIZE; lia|].
  assert (T : forall n, 0 <= n <= 6 -> take (Z.to_nat n) (splice 6 (be_bytes 8 x) d) = take (Z.to_nat n) d)
    by (intros; apply splice_take; lia).
  split.
  - unfold bad_magic. f_equal.
    + pose proof (T 2 ltac:(lia)) as T2. unfold slice. rewrite !drop_0.
      change (Z.to_nat (2 - 0)) with (Z.to_nat 2). by rewrite T2.
    + pose proof (T 3 ltac:(lia)) as T3.
      rewrite <- (lookup_take_lt (splice 6 (be_bytes 8 x) d) (Z.to_nat 3) 2) by lia.
      rewrite T3. by rewrite lookup_take_lt by lia.
  - unfold expiry_field, slice, splice.
    replace (Z.to_nat (6 - zlen d)) with 0%nat by lia. cbn [replicate app].
    rewrite drop_app_ge by (rewrite length_take; unfold zlen in *; lia).
    rewrite length_take. replace (Z.to_nat 6 - Z.to_nat 6 `min` length d)%nat with 0%nat by (unfold zlen in *; lia).
    rewrite drop_0. rewrite take_app_le by (rewrite be_bytes_length; lia).
    rewrite take_ge by (rewrite be_bytes_length; lia). apply be_roundtrip. simpl. lia.
Qed.

Lemma write_calm e (bs : pybytes) fd w off ino d mt :
  calm e -> zlen bs <= MAX_RW_COUNT -> fd_node w fd = Some (ino, off, Reg d mt) ->
  os_write e fd bs w = (Ok (zlen bs),
    upd_fds (insert fd (ino, off + zlen bs))
      (upd_nodes (insert ino (Reg (splice off bs d) (wtime e))) w)).
Proof.
  intros C Hl Hn. unfold os_write. rewrite (bind_ok _ _ _ _ _ (sys_calm e _ _ C)).
  assert (A : accepted e bs = zlen bs).
  { destruct C as [_ C]. unfold accepted. rewrite C. simpl. pose proof (zlen_nonneg bs). lia. }
  rewrite A. assert (T : take (Z.to_nat (zlen bs)) bs = bs) by (apply take_ge; unfold zlen; lia).
  rewrite T. erewrite bind_ok by (unfold put_at; by rewrite Hn). done.
Qed.

Lemma live_tests now d : live now d = true -> (zlen d <? HEADER_SIZE) || bad_magic d = false /\ expired now d = false.
Proof. unfold live. by destruct (zlen d <? HEADER_SIZE), (bad_magic d), (expired now d). Qed.

(** A dead entry is unlinked, whatever the new expiry. *)
Lemma refresh_dead e now now' key ttl p w ino d mt x :
  calm e -> entry key p w ino d mt -> live now' d = false ->
  _expiry_from_ttl now (Some ttl) w = (Ok x, w) ->
  refresh_ttl blake2b e now now' key ttl w = (Ok false, seen p false w).
Proof.
  intros C En Ha Ex. pose proof (en_name _ _ _ _ _ _ En) as Hname.
  pose proof (en_node _ _ _ _ _ _ En) as Hnode. unfold refresh_ttl. rewrite (bind_ok _ _ _ _ _ Ex).
  destruct (read_header_calm e w ino d mt C Hnode) as [off R]. unfold live in Ha.
  eapply (reader_runs _ _ _ _ _ _ _ _ _ _ true _ _ off); [done..|].
  rewrite (bind_ok _ _ _ _ _ R), zlen_take_header, bad_magic_take, expired_take.
  destruct ((zlen d <? HEADER_SIZE) || bad_magic d); [by eapply drop_entry_calm|].
  cbn [orb] in Ha. apply negb_false_iff in Ha as ->. by eapply drop_entry_calm.
Qed.

Lemma refresh_calm e now now' key ttl p w ino d mt x :
  calm e -> entry key p w ino d mt ->
  _expiry_from_ttl now (Some ttl) w = (Ok x, w) -> 0 <= x < 2 ^ 64 ->
  refresh_ttl blake2b e now now' key ttl w =
    (Ok (live now' d),
     if live now' d then upd_nodes (insert ino (Reg (retimed x d) (wtime e))) w
     else seen p false w).
Proof.
  intros C En Ex Hx. destruct (live now' d) eqn:Ha; [|by eapply refresh_dead].
  pose proof (en_node _ _ _ _ _ _ En) as Hnode. unfold refresh_ttl. rewrite (bind_ok _ _ _ _ _ Ex).
  destruct (read_header_calm e w ino d mt C Hnode) as [off R]. apply live_tests in Ha as [T1 T2].
  eapply (reader_runs _ _ _ _ _ _ _ _ _ _ false _ _ 14); [done..|].
  rewrite (bind_ok _ _ _ _ _ R), zlen_take_header, bad_magic_take, T1, expired_take, T2.
  rewrite (bind_ok _ _ _ _ _ (lseek_opened w ino off 6)).
  assert (P : pack_Q x = Ok (be_bytes 8 x))
    by (unfold pack_Q; ztests; done).
  erewrite bind_ok; [|unfold lift; rewrite P; reflexivity].
  erewrite bind_ok; [|apply (write_calm e (be_bytes 8 x) _ _ 6 ino d mt C);
    [unfold zlen; by rewrite be_bytes_length|by apply opened_node]].
  rewrite (bind_ok _ _ _ _ _ (sys_calm e SysFsync _ C)).
  unfold mret, retimed. f_equal. apply world_eq; try done. unfold opened. simpl.
  by rewrite insert_insert_eq.
Qed.

(** A new expiry that does not fit the header leaves the entry alone. *)
Lemma refresh_unpacked e now now' key ttl p w ino d mt x y :
  calm e -> entry key p w ino d mt -> live now' d = true ->
  _expiry_from_ttl now (Some ttl) w = (Ok x, w) -> pack_Q x = Err y ->
  refresh_ttl blake2b e now now' key ttl w = (Err (PyE y), w).
Proof.
  intros C En Ha Ex Hx. unfold refresh_ttl. rewrite (bind_ok _ _ _ _ _ Ex).
  destruct (read_header_calm e w ino d mt C (en_node _ _ _ _ _ _ En)) as [off R].
  apply live_tests in Ha as [T1 T2]. erewrite (reader_raises _ _ _ _ _ _ _ _ _ _ (PyE y) 6 C En); [done|].
  rewrite (bind_ok _ _ _ _ _ R), zlen_take_header, bad_magic_take, T1, expired_take, T2.
  rewrite (bind_ok _ _ _ _ _ (lseek_opened w ino off 6)). unfold lift. by rewrite Hx.
Qed.

(** A mapping is handed out for a live entry that has a payload and is not huge. *)
Definition mappable (d : pybytes) : bool := negb ((zlen d <=? HEADER_SIZE) || (MMAP_MAX_BYTES <? zlen d)).

Lemma unlinked_close p w ino off :
  os_close (fresh (dom (fds w))) (upd_names (base.delete p) (opened w ino off)) = (Ok tt, upd_names (base.delete p) w).
Proof.
  unfold os_close, opened. simpl. rewrite lookup_insert_eq. f_equal.
  apply world_eq; try done. simpl. rewrite delete_insert_id; [done|apply fresh_fd].
Qed.

Lemma get_buffer_calm e now key p w ino d mt :
  calm e -> entry key p w ino d mt ->
  get_buffer blake2b e now key w =
    (Ok (if live now d && mappable d then Some (mkHandle ino (zlen d) true) else None), seen p (live now d) w).
Proof.
  intros C En. destruct En as [Ep Hname Hnode]. unfold get_buffer. rewrite (bind_ok _ _ _ _ _ Ep).
  erewrite bind_ok.
  2: { apply catch_ok. rewrite (bind_ok _ _ _ _ _ (open_calm e p ino (Reg d mt) w C Hname Hnode I)). reflexivity. }
  set (fd := fresh (dom (fds w))). unfold finally at 1, catch at 1.
  rewrite (bind_ok _ _ _ _ _ (lock_calm e _ _ _ C)), release_finally.
  unfold fd. rewrite (bind_ok _ _ _ _ _ (fstat_calm e w ino 0 d mt C Hnode)).
  destruct (read_header_calm e w ino d mt C Hnode) as [off R].
  assert (Drop : forall o, (_safe_unlink e p ;;; mret None) (opened w ino o)
    = (Ok (None : option mmap_handle), upd_names (base.delete p) (opened w ino o))).
  { intros o. unfold _safe_unlink, bind, catch. by rewrite (unlink_calm e p ino (Reg d mt)) by done. }
  unfold live. destruct (zlen d <? HEADER_SIZE); cbn [orb negb andb seen]; [rewrite Drop; by rewrite unlinked_close|].
  rewrite (bind_ok _ _ _ _ _ R), bad_magic_take, expired_take.
  destruct (bad_magic d); cbn [orb negb andb seen]; [rewrite Drop; by rewrite unlinked_close|].
  destruct (expired now d); cbn [orb negb andb seen]; [rewrite Drop; by rewrite unlinked_close|].
  unfold mappable. destruct (_ || _); cbn [negb]; unfold mret at 1; cbv iota beta; [by rewrite opened_close|].
  rewrite (bind_ok _ _ _ _ _ (sys_calm e SysMmap _ C)). erewrite bind_ok by reflexivity. cbv iota beta.
  rewrite opened_close. unfold opened. simpl. by rewrite lookup_insert_eq.
Qed.

(** Without an entry every reader finds nothing. *)
Lemma missing_calm e now key p w :
  calm e -> _key_to_path blake2b key w = (Ok p, w) -> names w !! p = None ->
  get blake2b e now key w = (Ok None, w) /\ get_buffer blake2b e now key w = (Ok None, w).
Proof.
  intros C Ep Hn. unfold get, get_buffer. rewrite !(bind_ok _ _ _ _ _ Ep).
  unfold catch, os_open, bind. rewrite (sys_calm _ _ _ C). by rewrite Hn.
Qed.

Lemma key_path_any key p w w' :
  _key_to_path blake2b key w = (Ok p, w) -> _key_to_path blake2b key w' = (Ok p, w').
Proof.
  unfold _key_to_path, bind, lift. destruct (utf8_encode key); unfold mret; [|done].
  intros [= <-]. done.
Qed.

(** ** Properties *)

(** [exists] answers exactly what a [get] at the same time would find, and
    both leave the same directory: a corrupt or expired entry is unlinked, a
    live one is kept; [get] returns the bytes after the header. *)
Theorem exists_agrees_get e now key p w ino d mt :
  calm e -> entry key p w ino d mt -> zlen d <= MAX_RW_COUNT ->
  exists alive, exists_ blake2b e now key w = (Ok alive, seen p alive w) /\
    get blake2b e now key w = (Ok (if alive then Some (payload d) else None), seen p alive w) /\
    (alive = true <-> 14 <= zlen d /\ bad_magic d = false /\
                      (expiry_field d <= 0 \/ fgtZ now (expiry_field d) = false)).
Proof.
  intros C En Hl. exists (live now d).
  split; [by eapply exists_calm|]. split; [by eapply get_calm|].
  unfold live, expired, HEADER_SIZE.
  destruct (Z.ltb_spec (zlen d) 14); [split; [done|lia]|].
  destruct (bad_magic d); [split; [done|by intros (_ & ? & _)]|].
  destruct (Z.ltb_spec 0 (expiry_field d)); destruct (fgtZ now (expiry_field d)); simpl;
    split; try done; intros; intuition (lia || done).
Qed.

(** [refresh_ttl] on a live entry only moves its expiry: it succeeds,
    changes no other file and no name, and a later [get] returns the same
    payload exactly until the new expiry (for ever when the new TTL is 0). *)
Theorem refresh_then_get e now now' key ttl p w ino d mt x :
  calm e -> entry key p w ino d mt -> zlen d <= MAX_RW_COUNT -> live now' d = true ->
  _expiry_from_ttl now (Some ttl) w = (Ok x, w) -> 0 <= x < 2 ^ 64 ->
  exists w', refresh_ttl blake2b e now now' key ttl w = (Ok true, w') /\
    names w' = names w /\ fds w' = fds w /\
    (forall i, i <> ino -> nodes w' !! i = nodes w !! i) /\
    forall e2 now2, calm e2 ->
      (get blake2b e2 now2 key w').1 =
        Ok (if (0 <? x) && fgtZ now2 x then None else Some (payload d)).
Proof.
  intros C En Hl Ha Ex Hx.
  exists (upd_nodes (insert ino (Reg (retimed x d) (wtime e))) w).
  rewrite (refresh_calm e now now' key ttl p w ino d mt x) by done. rewrite Ha.
  split; [done|]. split; [done|]. split; [done|].
  split; [intros i Hi; simpl; by rewrite lookup_insert_ne|].
  intros e2 now2 C2. unfold live in Ha.
  destruct (zlen d <? HEADER_SIZE) eqn:T; [done|]. apply header_long in T.
  destruct (bad_magic d) eqn:Em; [done|].
  destruct (retimed_header x d T Hx) as (L & P & Mg & X).
  rewrite (get_calm e2 now2 key p _ ino (retimed x d) (wtime e)); [|done| |lia].
  - unfold live, expired. rewrite L, P, Mg, X, Em. unfold HEADER_SIZE.
    rewrite (proj2 (Z.ltb_ge (zlen d) 14)) by lia. simpl.
    by destruct (_ && _).
  - destruct En as [E1 E2 E3]. constructor; [by eapply key_path_any|done|].
    simpl. apply lookup_insert_eq.
Qed.

(** [x - x] is zero for a finite float. *)
Lemma fsub_self x : isfinite x = true -> fleZ (fsub x x) 0 = true.
Proof.
  destruct x as [[]| | |s m z]; try done. intros _. unfold fsub, SFsub.
  by rewrite Z.sub_diag.
Qed.

(** At the second of its expiry an entry is live for [get] and [exists] but
    already expired for [get_ttl], which unlinks it: asking for the remaining
    TTL deletes an entry that [get] would have served. *)
Theorem get_ttl_deletes_live_entry e key p w ino d mt now :
  calm e -> entry key p w ino d mt -> zlen d <= MAX_RW_COUNT ->
  14 <= zlen d -> bad_magic d = false -> 0 < expiry_field d ->
  now = fofZ (expiry_field d) -> fcmpZ now (expiry_field d) = Some Eq ->
  get blake2b e now key w = (Ok (Some (payload d)), w) /\
  get_ttl blake2b e now key w = (Ok None, upd_names (base.delete p) w) /\
  lookup_node (upd_names (base.delete p) w) p = None.
Proof.
  intros C En Hl Hd Hm Hx Hnow Hc.
  assert (Hf : isfinite now = true).
  { destruct now as [| | |]; try done; simpl in Hc; by destruct s. }
  assert (Hr : remaining now d = fsub now now) by (unfold remaining; by rewrite <- Hnow).
  split; [|split].
  - rewrite (get_calm e now key p w ino d mt) by done. unfold live, expired, fgtZ, HEADER_SIZE.
    rewrite Hm, Hc, andb_false_r. by ztests.
  - rewrite (get_ttl_calm e now key p w ino d mt) by done.
    unfold HEADER_SIZE. rewrite Hm. ztests. simpl. rewrite Hr, fsub_self by done. done.
  - unfold lookup_node. simpl. by rewrite lookup_delete_eq.
Qed.

End Readers.

(** ** Concrete entries *)

Definition quiet : env :=
  mkEnv (fun _ => None) None (fofZ 50) (fun _ => u "error") (fun _ => u "error") 7.

Definition toy_path (key : pystr) : pystr := hexdigest (toy_digest 16 key).

(** One entry ["a"] that expires at second 100. *)
Definition entry_bytes : pybytes := u "CK" ++ [1; 0; 0; 0] ++ be_bytes 8 100 ++ u "value".
Definition one_entry : world :=
  mkWorld {[ toy_path (u "a") := O ]} {[ O := Reg entry_bytes (fofZ 10) ]} ∅.

Lemma one_entry_ok : entry toy_digest (u "a") (toy_path (u "a")) one_entry 0 entry_bytes (fofZ 10).
Proof. by constructor. Qed.

Lemma quiet_calm : calm quiet.
Proof. by split. Qed.

Lemma exists_agrees_get_witness :
  (exists_ toy_digest quiet (fofZ 100) (u "a") one_entry).1 = Ok true /\
  exists alive, exists_ toy_digest quiet (fofZ 101) (u "a") one_entry
    = (Ok alive, seen (toy_path (u "a")) alive one_entry).
Proof.
  split; [vm_compute; reflexivity|].
  destruct (exists_agrees_get toy_digest quiet (fofZ 101) (u "a") (toy_path (u "a")) one_entry 0
    entry_bytes (fofZ 10) quiet_calm one_entry_ok ltac:(vm_compute; discriminate)) as (b & E & _).
  exists b. exact E.
Defined.

Lemma refresh_then_get_witness :
  exists w', refresh_ttl toy_digest quiet (fofZ 90) (fofZ 90) (u "a") 60 one_entry = (Ok true, w') /\
    (get toy_digest quiet (fofZ 150) (u "a") w').1 = Ok (Some (u "value")).
Proof.
  destruct (refresh_then_get toy_digest quiet (fofZ 90) (fofZ 90) (u "a") 60 (toy_path (u "a"))
    one_entry 0 entry_bytes (fofZ 10) 150 quiet_calm one_entry_ok
    ltac:(vm_compute; discriminate) ltac:(vm_compute; reflexivity) ltac:(vm_compute; reflexivity)
    ltac:(lia)) as (w' & R & _ & _ & _ & G).
  exists w'. split; [exact R|]. rewrite (G quiet (fofZ 150) quiet_calm). vm_compute. reflexivity.
Defined.

Lemma get_ttl_deletes_live_entry_witness :
  (get_ttl toy_digest quiet (fofZ 100) (u "a") one_entry).2
    = upd_names (base.delete (toy_path (u "a"))) one_entry.
Proof.
  destruct (get_ttl_deletes_live_entry toy_digest quiet (u "a") (toy_path (u "a")) one_entry 0
    entry_bytes (fofZ 10) (fofZ 100) quiet_calm one_entry_ok
    ltac:(vm_compute; discriminate) ltac:(vm_compute; discriminate) ltac:(vm_compute; reflexivity)
    ltac:(vm_compute; reflexivity) ltac:(vm_compute; reflexivity) ltac:(vm_compute; reflexivity))
    as (_ & E & _).
  rewrite E. reflexivity.
Defined.
