(* ===== verification/FileWriters.v ===== *)
(** The file backend: the operations that write ([set], [set_streaming]), the
    entry limit and the eviction. *)
From Stdlib Require Import ZArith Lia SpecFloat.
From stdpp Require Import base list numbers option gmap strings sorting.
From S2P Require Import Prelude PyFloat Errors Bytes FileSystem FileBackend FileReaders.

Local Open Scope Z_scope.
Local Open Scope fs_scope.

(** ** Worlds that only lost names *)

Definition shrunk (w w' : world) : Prop :=
  nodes w' = nodes w /\ fds w' = fds w /\ names w' ⊆ names w.

#[export] Instance shrunk_preorder : PreOrder shrunk.
Proof.
  split; [by intros w|].
  intros w1 w2 w3 (N1 & F1 & S1) (N2 & F2 & S2). unfold shrunk. rewrite N2, F2.
  split; [done|]. split; [done|]. by etransitivity.
Qed.

Lemma unlink_cases e p w :
  (exists n, os_unlink e p w = (Err (OSErr n), w)) \/
  os_unlink e p w = (Ok tt, upd_names (base.delete p) w).
Proof.
  unfold os_unlink, bind, sys. destruct (fault e (SysUnlink p)); [left; by eexists|].
  simpl. destruct (lookup_node w p) as [[]|]; eauto.
Qed.

Lemma delete_shrunk p w : shrunk w (upd_names (base.delete p) w).
Proof. split; [done|]. split; [done|]. simpl. apply delete_subseteq. Qed.

Lemma safe_unlink_cases e p w :
  _safe_unlink e p w = (Ok tt, w) \/
  _safe_unlink e p w = (Ok tt, upd_names (base.delete p) w).
Proof.
  unfold _safe_unlink, catch. destruct (unlink_cases e p w) as [[n ->]| ->]; [by left|by right].
Qed.

Section Writers.
Context (blake2b : Z -> pybytes -> pybytes).
Context (iterdir : gmap pystr nat -> list (pystr * nat)).
Context (cfg : FileBackendConfig).

(** ** Eviction *)

Lemma evict_loop_shrunk e tc files mb n w :
  exists w', evict_loop cfg e tc files mb n w = (Ok tt, w') /\ shrunk w w'.
Proof.
  revert mb n w. induction files as [|[[p mt] sz] r IH]; intros mb n w; simpl.
  { by exists w. }
  destruct (below_target cfg tc mb n); [by exists w|].
  destruct (unlink_cases e p w) as [[k ->]| ->]; [apply IH|].
  destruct (fdivZ sz MIB) as [d|].
  - destruct (IH (fsub mb d) (n - 1) (upd_names (base.delete p) w)) as (w' & -> & S).
    exists w'. split; [done|]. by rewrite <- S, <- delete_shrunk.
  - eexists. split; [done|]. apply delete_shrunk.
Qed.

Lemma maybe_evict_shrunk e w :
  is_Ok (target_count cfg) = true ->
  exists w', _maybe_evict iterdir cfg e w = (Ok tt, w') /\ shrunk w w'.
Proof.
  intros Ht. unfold _maybe_evict, bind, reads. simpl.
  destruct (evict_trigger cfg _); simpl; [|by exists w].
  destruct (target_count cfg) as [tc|]; [|done]. simpl.
  destruct (fault e SysIterdir); [by exists w|]. apply evict_loop_shrunk.
Qed.

Lemma capacity_cases e p w :
  _check_entry_capacity iterdir cfg e p w = (Ok tt, w) \/
  exists m, _check_entry_capacity iterdir cfg e p w
    = (Err (BackendE (backend_error m PERMANENT)), w).
Proof.
  unfold _check_entry_capacity, bind, reads. destruct (_ <=? 0); [by left|]. simpl.
  destruct (_ && _); [right; by eexists|by left].
Qed.

(** ** A temporary file being written *)

(** The world while the fresh inode of temporary file [t] is open. *)
Definition temp_open (t : pystr) (w : world) (off : Z) (d : pybytes) (mt : float) : world :=
  upd_fds (insert (fresh (dom (fds w))) (fresh (dom (nodes w)), off))
    (upd_nodes (insert (fresh (dom (nodes w))) (Reg d mt))
       (upd_names (insert t (fresh (dom (nodes w)))) w)).

(** The same, closed. *)
Definition temp_done (t : pystr) (w : world) (d : pybytes) (mt : float) : world :=
  upd_nodes (insert (fresh (dom (nodes w))) (Reg d mt))
    (upd_names (insert t (fresh (dom (nodes w)))) w).

Lemma temp_close t w off d mt :
  os_close (fresh (dom (fds w))) (temp_open t w off d mt) = (Ok tt, temp_done t w d mt).
Proof.
  unfold os_close, temp_open. simpl. rewrite lookup_insert_eq. f_equal.
  apply world_eq; try done. simpl. rewrite delete_insert_id; [done|apply fresh_fd].
Qed.

Lemma temp_node t w off d mt :
  fd_node (temp_open t w off d mt) (fresh (dom (fds w)))
    = Some (fresh (dom (nodes w)), off, Reg d mt).
Proof. unfold fd_node, temp_open. simpl. rewrite lookup_insert_eq. simpl. by rewrite lookup_insert_eq. Qed.

Lemma temp_put e t w off d mt bs :
  put_at e (fresh (dom (fds w))) bs (temp_open t w off d mt)
    = (Ok tt, temp_open t w (off + zlen bs) (splice off bs d) (wtime e)).
Proof.
  unfold put_at. rewrite temp_node. f_equal. apply world_eq; try done; simpl.
  - by rewrite insert_insert_eq.
  - by rewrite insert_insert_eq.
Qed.

Lemma temp_seek t w off off' d mt :
  os_lseek (fresh (dom (fds w))) off' (temp_open t w off d mt) = (Ok tt, temp_open t w off' d mt).
Proof.
  unfold os_lseek, temp_open. simpl. rewrite lookup_insert_eq. f_equal.
  apply world_eq; try done. simpl. by rewrite insert_insert_eq.
Qed.

Lemma temp_open_inj t w off d mt off' d' mt' :
  temp_open t w off d mt = temp_open t w off' d' mt' -> d = d' /\ mt = mt'.
Proof.
  intros E. apply (f_equal (fun w' => nodes w' !! fresh (dom (nodes w)))) in E.
  simpl in E. rewrite !lookup_insert_eq in E. by simplify_eq.
Qed.

(** A program keeps the temporary file open, whatever it returns. *)
Definition keeps_temp {A} (m : M A) (t : pystr) (w : world) : Prop :=
  forall off d mt, exists o off' d' mt',
    m (temp_open t w off d mt) = (o, temp_open t w off' d' mt').

Lemma keeps_bind {A B} (m : M A) (f : A -> M B) t w :
  keeps_temp m t w -> (forall a, keeps_temp (f a) t w) -> keeps_temp (bind m f) t w.
Proof.
  intros Hm Hf off d mt. destruct (Hm off d mt) as (o & off' & d' & mt' & E).
  unfold bind. rewrite E. destruct o as [a|x]; [apply Hf|by repeat eexists].
Qed.

Lemma keeps_const {A} (m : M A) t w :
  (forall w0, exists o, m w0 = (o, w0)) -> keeps_temp m t w.
Proof. intros H off d mt. destruct (H (temp_open t w off d mt)) as [o E]. by exists o, off, d, mt. Qed.

Lemma sys_const e s w0 : exists o, sys e s w0 = (o, w0).
Proof. unfold sys. destruct (fault e s); by eexists. Qed.

Lemma lock_const e fd b w0 : exists o, _acquire_file_lock e fd b w0 = (o, w0).
Proof. unfold _acquire_file_lock. destruct (fault e SysFlock) as [[]|]; by eexists. Qed.

Lemma keeps_put e t w bs : keeps_temp (put_at e (fresh (dom (fds w))) bs) t w.
Proof. intros off d mt. rewrite temp_put. by repeat eexists. Qed.

Lemma keeps_seek t w off' : keeps_temp (os_lseek (fresh (dom (fds w))) off') t w.
Proof. intros off d mt. rewrite temp_seek. by repeat eexists. Qed.

Lemma keeps_fstat e t w : keeps_temp (os_fstat_size e (fresh (dom (fds w)))) t w.
Proof.
  unfold os_fstat_size. apply keeps_bind; [apply keeps_const, sys_const|].
  intros _ off d mt. rewrite temp_node. by repeat eexists.
Qed.

Lemma keeps_release {A} (m : M A) fd t w :
  keeps_temp m t w -> keeps_temp (finally m (_release_file_lock fd)) t w.
Proof. intros H off d mt. rewrite release_finally. apply H. Qed.

Lemma keeps_ops e t w ops : keeps_temp (run_ops e (fresh (dom (fds w))) ops) t w.
Proof.
  induction ops as [|[bs|off] r IH]; simpl.
  - apply keeps_const. intros w0. by eexists.
  - apply keeps_bind; [|done].
    apply keeps_bind; [apply keeps_const, sys_const|intros _; apply keeps_put].
  - apply keeps_bind; [apply keeps_seek|done].
Qed.

(** Opening, running and closing leaves the temporary file complete or
    partial, never the descriptor. *)
Lemma temp_program {A} e t w (body : nat -> M A) :
  keeps_temp (body (fresh (dom (fds w)))) t w ->
  (exists n, (fd <-- os_open_excl e t ;; finally (body fd) (os_close fd)) w = (Err (OSErr n), w)) \/
  (names w !! t = None /\
   exists o off d mt,
     body (fresh (dom (fds w))) (temp_open t w 0 [] (wtime e)) = (o, temp_open t w off d mt) /\
     (fd <-- os_open_excl e t ;; finally (body fd) (os_close fd)) w = (o, temp_done t w d mt)).
Proof.
  intros K. unfold os_open_excl, bind at 1 2, sys.
  unfold bind. destruct (fault e SysOpen) as [n|]; [left; by exists n|]. simpl.
  destruct (names w !! t) eqn:Et; [left; by eexists|]. right. split; [done|].
  destruct (K 0 [] (wtime e)) as (o & off & d & mt & E). exists o, off, d, mt.
  unfold temp_open in E at 1. split; [exact E|].
  unfold finally. rewrite E. by rewrite temp_close.
Qed.

(** ** Commit and failure *)

(** The world after the rename: [p] names the new inode. *)
Definition committed (p : pystr) (w : world) (d : pybytes) (mt : float) : world :=
  upd_nodes (insert (fresh (dom (nodes w))) (Reg d mt))
    (upd_names (insert p (fresh (dom (nodes w)))) w).

Lemma rename_cases e t p w d mt :
  names w !! t = None ->
  (exists n, os_rename e t p (temp_done t w d mt) = (Err (OSErr n), temp_done t w d mt)) \/
  os_rename e t p (temp_done t w d mt) = (Ok tt, committed p w d mt).
Proof.
  intros Ht. unfold os_rename, bind, sys. destruct (fault e SysRename); [left; by eexists|].
  unfold mret. cbv beta iota.
  assert (L : names (temp_done t w d mt) !! t = Some (fresh (dom (nodes w))))
    by apply lookup_insert_eq.
  rewrite L.
  assert (E : (Ok (E:=exn) tt, upd_names (fun m => <[p:=fresh (dom (nodes w))]> (base.delete t m))
    (temp_done t w d mt)) = (Ok tt, committed p w d mt)).
  { f_equal. apply world_eq; try done. simpl. by rewrite delete_insert_id. }
  destruct (lookup_node (temp_done t w d mt) p) as [[]|]; eauto.
Qed.

(** Nothing but the temporary name [t] differs, and no descriptor is left. *)
Definition only_temp (t : pystr) (w w' : world) : Prop :=
  fds w' = fds w /\ (forall q, q <> t -> names w' !! q = names w !! q) /\
  (forall i nd, nodes w !! i = Some nd -> nodes w' !! i = Some nd).

Lemma only_temp_refl t w : only_temp t w w.
Proof. by split_and!. Qed.

Lemma only_temp_done t w d mt : only_temp t w (temp_done t w d mt).
Proof.
  split; [done|]. split; simpl.
  - intros q Hq. by rewrite lookup_insert_ne.
  - intros i nd Hi. rewrite lookup_insert_ne; [done|]. intros <-. rewrite fresh_ino in Hi. done.
Qed.

Lemma only_temp_delete t w w' : only_temp t w w' -> only_temp t w (upd_names (base.delete t) w').
Proof.
  intros (F & N & D). split; [done|]. split; [|done]. simpl. intros q Hq.
  rewrite lookup_delete_ne by done. by apply N.
Qed.

(** Cleaning up after a failure in [w1], which is [w] or has the temporary file. *)
Definition failed (t : pystr) (w w1 : world) : Prop :=
  w1 = w \/ names w !! t = None /\ exists d mt, w1 = temp_done t w d mt.

Lemma failed_only_temp t w w1 : failed t w w1 -> only_temp t w w1.
Proof. intros [->|(_ & d & mt & ->)]; [apply only_temp_refl|apply only_temp_done]. Qed.

Lemma cleanup_failed e t w w1 :
  failed t w w1 ->
  exists w', _safe_unlink e t w1 = (Ok tt, w') /\ only_temp t w w' /\
    (names w !! t = None -> fault e (SysUnlink t) = None -> names w' = names w).
Proof.
  intros F. pose proof (failed_only_temp _ _ _ F) as O.
  destruct (safe_unlink_cases e t w1) as [E|E]; rewrite E; eexists; (split; [reflexivity|]);
    (split; [by try apply only_temp_delete|]); intros Ht Hu.
  - destruct F as [->|(_ & d & mt & ->)]; [done|]. exfalso.
    unfold _safe_unlink, catch, os_unlink, bind, sys in E. rewrite Hu in E. simpl in E.
    unfold lookup_node in E. simpl in E. rewrite !lookup_insert_eq in E. injection E as E.
    apply (f_equal (fun m => m !! t)) in E. rewrite lookup_delete_eq, lookup_insert_eq in E. done.
  - destruct F as [->|(_ & d & mt & ->)]; simpl; [by rewrite delete_id|].
    by rewrite delete_insert_id.
Qed.

(** The bytes [set] leaves on disk: what the one [write] call accepted. *)
Definition written (e : env) (bs : pybytes) : pybytes := take (Z.to_nat (accepted e bs)) bs.

Lemma keeps_set_body e t w data :
  keeps_temp
    (_acquire_file_lock e (fresh (dom (fds w))) true ;;;
     finally (os_write e (fresh (dom (fds w))) data ;;; os_fsync e)
       (_release_file_lock (fresh (dom (fds w))))) t w.
Proof.
  apply keeps_bind; [apply keeps_const, lock_const|intros _]. apply keeps_release, keeps_bind.
  - unfold os_write. apply keeps_bind; [apply keeps_const, sys_const|intros _].
    apply keeps_bind; [apply keeps_put|intros _]. apply keeps_const. intros w0. by eexists.
  - intros _. apply keeps_const, sys_const.
Qed.

(** When the writing part of [set] returns, the temporary file holds [written]. *)
Lemma set_body_ok e t w data w' :
  (_acquire_file_lock e (fresh (dom (fds w))) true ;;;
   finally (os_write e (fresh (dom (fds w))) data ;;; os_fsync e)
     (_release_file_lock (fresh (dom (fds w))))) (temp_open t w 0 [] (wtime e)) = (Ok tt, w') ->
  w' = temp_open t w (zlen (written e data)) (written e data) (wtime e).
Proof.
  unfold _acquire_file_lock, os_write, os_fsync, sys.
  destruct (fault e SysFlock) as [[]|]; try done. unfold bind at 1. cbn [mret].
  unfold mret at 1. rewrite release_finally. unfold bind. destruct (fault e SysWrite); [done|].
  unfold mret. rewrite temp_put, splice_empty. destruct (fault e SysFsync); [done|].
  intros [= <-]. done.
Qed.

Lemma expiry_const now ttl w : exists r, _expiry_from_ttl now ttl w = (r, w).
Proof.
  unfold _expiry_from_ttl, mret, raise, lift. repeat case_match; by eexists.
Qed.

(** What a failed write may leave: the old directory; the temporary file only
    when it cannot be unlinked or, in [set], when its lock was contended. *)
Definition harmless (e : env) (t : pystr) (streamed : bool) (w w' : world) : Prop :=
  only_temp t w w' /\
  (names w !! t = None -> fault e (SysUnlink t) = None ->
   streamed = true \/ fault e SysFlock <> Some EWOULDBLOCK -> names w' = names w).

Lemma harmless_refl e t b w : harmless e t b w w.
Proof. split; [apply only_temp_refl|done]. Qed.

(** The success of a write: the entry limit let it pass, the new inode is
    committed, then eviction runs. *)
Definition stored (e : env) (p : pystr) (w w' : world) (d : pybytes) : Prop :=
  _check_entry_capacity iterdir cfg e p w = (Ok tt, w) /\
  _maybe_evict iterdir cfg e (committed p w d (wtime e)) = (Ok tt, w') /\
  shrunk (committed p w d (wtime e)) w'.

Lemma bind_assoc {A B C} (m : M A) (f : A -> M B) (k : B -> M C) w :
  bind m (fun a => bind (f a) k) w = bind (bind m f) k w.
Proof. unfold bind. by destruct (m w) as [[]]. Qed.

(** Write the temporary file, then rename it over [p]. *)
Lemma write_rename e t p w (body : nat -> M unit) :
  keeps_temp (body (fresh (dom (fds w)))) t w ->
  (exists x w1,
     ((fd <-- os_open_excl e t ;; finally (body fd) (os_close fd)) ;;; os_rename e t p) w
       = (Err x, w1) /\ failed t w w1 /\
     ((exists n, x = OSErr n) \/
      exists w2, body (fresh (dom (fds w))) (temp_open t w 0 [] (wtime e)) = (Err x, w2))) \/
  (exists off d mt,
     body (fresh (dom (fds w))) (temp_open t w 0 [] (wtime e)) = (Ok tt, temp_open t w off d mt) /\
     ((fd <-- os_open_excl e t ;; finally (body fd) (os_close fd)) ;;; os_rename e t p) w
       = (Ok tt, committed p w d mt)).
Proof.
  intros K. destruct (temp_program e t w body K) as [[n E]|(Et & o & off & d & mt & B & E)].
  { left. exists (OSErr n), w. rewrite (bind_err _ _ _ _ _ E). split; [done|]. split; [by left|eauto]. }
  destruct o as [[]|x].
  - rewrite (bind_ok _ _ _ _ _ E). destruct (rename_cases e t p w d mt Et) as [[n R]|R].
    + left. exists (OSErr n), (temp_done t w d mt). rewrite R. split; [done|].
      split; [right; eauto|eauto].
    + right. exists off, d, mt. by rewrite R.
  - left. exists x, (temp_done t w d mt). rewrite (bind_err _ _ _ _ _ E). split; [done|].
    split; [right; eauto|eauto].
Qed.

Lemma set_body_err e t w data x w2 :
  (_acquire_file_lock e (fresh (dom (fds w))) true ;;;
   finally (os_write e (fresh (dom (fds w))) data ;;; os_fsync e)
     (_release_file_lock (fresh (dom (fds w))))) (temp_open t w 0 [] (wtime e)) = (Err x, w2) ->
  (exists n, x = OSErr n) \/ fault e SysFlock = Some EWOULDBLOCK.
Proof.
  unfold _acquire_file_lock, os_write, os_fsync, sys.
  destruct (fault e SysFlock) as [[]|]; [intros [= <- <-]; eauto..|].
  unfold bind at 1. unfold mret at 1. rewrite release_finally. unfold bind.
  destruct (fault e SysWrite); [intros [= <- <-]; eauto|].
  unfold mret. rewrite temp_put. destruct (fault e SysFsync); [intros [= <- <-]; eauto|done].
Qed.

Lemma set_outcome e now ns key v ttl w o w' p :
  is_Ok (target_count cfg) = true -> _key_to_path blake2b key w = (Ok p, w) ->
  set blake2b iterdir cfg e now ns key v ttl w = (o, w') ->
  (exists x, o = Err x /\ harmless e (_generate_temp_path e p ns) false w w') \/
  (o = Ok tt /\ zlen v <= max_value_mb cfg * 1024 * 1024 /\
   exists x h, _expiry_from_ttl now ttl w = (Ok x, w) /\ _build_header x = Ok h /\
     stored e p w w' (written e (h ++ v))).
Proof.
  intros Ht Hp. unfold set. destruct (Z.ltb_spec (max_value_mb cfg * 1024 * 1024) (zlen v)) as [|Hv].
  { intros [= <- <-]. left. eexists. split; [done|apply harmless_refl]. }
  rewrite (bind_ok _ _ _ _ _ Hp). set (t := _generate_temp_path e p ns).
  destruct (expiry_const now ttl w) as [[x|x] Ex];
    [rewrite (bind_ok _ _ _ _ _ Ex)|rewrite (bind_err _ _ _ _ _ Ex)];
    [|intros [= <- <-]; left; eexists; split; [done|apply harmless_refl]].
  destruct (_build_header x) as [h|y] eqn:Eh.
  2:{ intros [= <- <-]. left. eexists. split; [done|apply harmless_refl]. }
  unfold lift at 1, bind at 1. unfold catch, bind at 1.
  destruct (capacity_cases e p w) as [Cap|[m Cap]]; rewrite Cap.
  2:{ intros [= <- <-]. left. eexists. split; [done|apply harmless_refl]. }
  rewrite bind_assoc, bind_assoc.
  pose (body := fun fd => _acquire_file_lock e fd true ;;;
     finally (os_write e fd (h ++ v) ;;; os_fsync e) (_release_file_lock fd)).
  destruct (write_rename e t p w body (keeps_set_body e t w (h ++ v)))
    as [(y & w1 & E & F & Hy)|(off & d & mt & B & E)].
  - rewrite (bind_err _ _ _ _ _ E). intros R. left.
    destruct (cleanup_failed e t w w1 F) as (w3 & U & O & N).
    assert (Hb : (exists n, y = OSErr n) \/ fault e SysFlock = Some EWOULDBLOCK).
    { destruct Hy as [?|[w2 B]]; [by left|]. by eapply set_body_err. }
    destruct y as [n|b|b|];
      [|destruct Hb as [[n ?]|Hb]; [done|]; injection R as <- <-; eexists; (split; [done|]);
        (split; [by apply failed_only_temp|]); by intros _ _ [|] ..].
    unfold bind in R. rewrite U in R. injection R as <- <-.
    eexists. split; [done|]. split; [done|]. intros Ht' Hu _. by apply N.
  - rewrite (bind_ok _ _ _ _ _ E). apply set_body_ok, temp_open_inj in B as [-> ->].
    destruct (maybe_evict_shrunk e (committed p w (written e (h ++ v)) (wtime e)) Ht) as (w3 & V & S).
    rewrite V. intros [= <- <-]. right. split; [done|]. split; [done|]. exists x, h.
    split; [done|]. split; [done|]. by split_and!.
Qed.

(** ** Streaming *)

Lemma bind_ok_inv {A B} (m : M A) (f : A -> M B) w b w'' :
  bind m f w = (Ok b, w'') -> exists a w', m w = (Ok a, w') /\ f a w' = (Ok b, w'').
Proof. unfold bind. destruct (m w) as [[a|x] w']; [|done]. eauto. Qed.

(** What [stream_body] runs before it closes the file. *)
Definition stream_write (e : env) (header : pybytes) (p : producer) (fd : nat) : M unit :=
  _acquire_file_lock e fd true ;;;
  finally
    (buffered_write e fd header ;;;
     write_payload e fd p ;;;
     st_size <-- os_fstat_size e fd ;;
     (if max_value_mb cfg * 1024 * 1024 <? st_size - HEADER_SIZE
      then raise (too_large cfg (st_size - HEADER_SIZE)) else mret tt) ;;;
     os_fsync e)
    (_release_file_lock fd).

Lemma keeps_stream e header p t w : keeps_temp (stream_write e header p (fresh (dom (fds w)))) t w.
Proof.
  apply keeps_bind; [apply keeps_const, lock_const|intros _]. apply keeps_release.
  apply keeps_bind.
  { apply keeps_bind; [apply keeps_const, sys_const|intros _; apply keeps_put]. }
  intros _. apply keeps_bind.
  { apply keeps_bind; [apply keeps_ops|intros _]. apply keeps_const. intros w0.
    destruct (p_raises p); by eexists. }
  intros _. apply keeps_bind; [apply keeps_fstat|intros sz]. apply keeps_bind.
  - apply keeps_const. intros w0. destruct (_ <? _); by eexists.
  - intros _. apply keeps_const, sys_const.
Qed.

(** A stream that gets through respects the size limit. *)
Lemma stream_size e header p t w off d mt :
  stream_write e header p (fresh (dom (fds w))) (temp_open t w 0 [] (wtime e))
    = (Ok tt, temp_open t w off d mt) ->
  zlen d - HEADER_SIZE <= max_value_mb cfg * 1024 * 1024.
Proof.
  unfold stream_write. intros E. apply bind_ok_inv in E as ([] & w1 & _ & E).
  rewrite release_finally in E. apply bind_ok_inv in E as ([] & w2 & _ & E).
  apply bind_ok_inv in E as ([] & w3 & _ & E). apply bind_ok_inv in E as (sz & w4 & S & E).
  apply bind_ok_inv in E as ([] & w5 & Z1 & E).
  assert (sz - HEADER_SIZE <= max_value_mb cfg * 1024 * 1024 /\ w5 = w4) as [Hsz ->].
  { destruct (Z.ltb_spec (max_value_mb cfg * 1024 * 1024) (sz - HEADER_SIZE)); [done|].
    unfold mret in Z1. simplify_eq. done. }
  assert (w4 = temp_open t w off d mt) as ->.
  { unfold os_fsync, sys in E. destruct (fault e SysFsync); [done|]. unfold mret in E. by simplify_eq. }
  unfold os_fstat_size in S. apply bind_ok_inv in S as ([] & w6 & Y & S).
  assert (w6 = temp_open t w off d mt) as ->.
  { by destruct (fd_node w6 (fresh (dom (fds w)))) as [[[? ?] []]|]; simplify_eq. }
  rewrite temp_node in S. by simplify_eq.
Qed.

Lemma stream_outcome e now ns key pr ttl w o w' p :
  is_Ok (target_count cfg) = true -> _key_to_path blake2b key w = (Ok p, w) ->
  set_streaming blake2b iterdir cfg e now ns key pr ttl w = (o, w') ->
  (exists x, o = Err x /\ harmless e (_generate_temp_path e p ns) true w w') \/
  (o = Ok tt /\ exists x h off d mt,
     _expiry_from_ttl now ttl w = (Ok x, w) /\ _build_header x = Ok h /\
     stream_write e h pr (fresh (dom (fds w))) (temp_open (_generate_temp_path e p ns) w 0 [] (wtime e))
       = (Ok tt, temp_open (_generate_temp_path e p ns) w off d mt) /\
     zlen d - HEADER_SIZE <= max_value_mb cfg * 1024 * 1024 /\
     _check_entry_capacity iterdir cfg e p w = (Ok tt, w) /\
     shrunk (committed p w d mt) w').
Proof.
  intros Ht Hp. unfold set_streaming. set (t := _generate_temp_path e p ns).
  destruct (expiry_const now ttl w) as [[x|x] Ex];
    [rewrite (bind_ok _ _ _ _ _ Ex)|rewrite (bind_err _ _ _ _ _ Ex)];
    [|intros [= <- <-]; left; eexists; split; [done|apply harmless_refl]].
  destruct (_build_header x) as [h|y] eqn:Eh.
  2:{ intros [= <- <-]. left. eexists. split; [done|apply harmless_refl]. }
  unfold lift at 1, bind at 1. rewrite (bind_ok _ _ _ _ _ Hp). fold t.
  set (os_errors := fun y : exn => match y with
    | OSErr n => write_failure e (u "set_streaming") key n | _ => raise y end : M unit).
  assert (Hos : forall y w1, exists z, os_errors y w1 = (Err z, w1)).
  { intros [] w1; by eexists. }
  assert (Hcl : forall y w1, failed t w w1 -> exists z w3,
    finally (os_errors y) (_safe_unlink e t) w1 = (Err z, w3) /\ harmless e t true w w3).
  { intros y w1 F. destruct (Hos y w1) as [z Z1]. destruct (cleanup_failed e t w w1 F) as (w3 & U & O & N).
    exists z, w3. unfold finally. rewrite Z1, U. split; [done|]. split; [done|]. intros. by apply N. }
  intros E. unfold bind at 1 in E. unfold catch at 1 in E. unfold bind at 1 in E.
  destruct (capacity_cases e p w) as [C|[m C]]; rewrite C in E.
  2:{ destruct (Hcl (BackendE (backend_error m PERMANENT)) w (or_introl eq_refl)) as (z & w3 & Z1 & Hh).
      cbv beta iota delta [os_errors] in Z1. rewrite Z1 in E. injection E as <- <-. left. by eexists. }
  rewrite bind_assoc in E.
  destruct (write_rename e t p w (stream_write e h pr) (keeps_stream e h pr t w))
    as [(y & w1 & R & F & _)|(off & d & mt & B & R)].
  - change (stream_body cfg e) with (fun fd h pr => finally (stream_write e h pr fd) (os_close fd)) in E.
    cbv beta in E. rewrite R in E.
    destruct (Hcl y w1 F) as (z & w3 & Z1 & Hh). cbv beta iota delta [os_errors] in Z1.
    rewrite Z1 in E. injection E as <- <-. left. by eexists.
  - change (stream_body cfg e) with (fun fd h pr => finally (stream_write e h pr fd) (os_close fd)) in E.
    cbv beta in E. rewrite R in E.
    destruct (maybe_evict_shrunk e (committed p w d mt) Ht) as (w3 & V & S).
    unfold catch in E. rewrite V in E. injection E as <- <-. right. split; [done|].
    exists x, h, off, d, mt. split_and!; try done. by eapply stream_size.
Qed.

End Writers.
