(* ===== verification/FileProps.v ===== *)
(** The file backend: what its writers guarantee. *)
From Stdlib Require Import ZArith Lia SpecFloat.
From stdpp Require Import base list numbers option gmap strings sorting.
From S2P Require Import Prelude PyFloat Errors Bytes FileSystem FileBackend FileReaders FileWriters.

Local Open Scope Z_scope.
Local Open Scope fs_scope.

(** Every name has an inode. *)
Definition wf_world (w : world) : Prop :=
  forall q i, names w !! q = Some i -> is_Some (nodes w !! i).

(** A hexadecimal name holds no dot, so it is no temporary name. *)
Lemma hex_not_temp e p ns q : Forall is_hex q -> q <> _generate_temp_path e p ns.
Proof.
  intros Hq ->. unfold _generate_temp_path in Hq. apply list.Forall_app in Hq as [_ Hq].
  apply list.Forall_app in Hq as [Hq _]. apply Forall_inv in Hq. change (is_hex 46) in Hq.
  unfold is_hex in Hq. lia.
Qed.

Section Props.
Context (blake2b : Z -> pybytes -> pybytes).
Context (iterdir : gmap pystr nat -> list (pystr * nat)).
Context (cfg : FileBackendConfig).
Context {digest : Digest blake2b}.

Lemma key_path_hex key q w w' : _key_to_path blake2b key w = (Ok q, w') -> Forall is_hex q.
Proof.
  unfold _key_to_path, bind, lift. destruct (utf8_encode key) as [bs|]; unfold mret; [|done].
  intros [= <- _]. by apply digest_hex.
Qed.

Lemma harmless_entries e p ns b w w' key q w0 :
  wf_world w -> harmless e (_generate_temp_path e p ns) b w w' ->
  _key_to_path blake2b key w0 = (Ok q, w0) -> lookup_node w' q = lookup_node w q.
Proof.
  intros Wf [(F & N & D) _] Hq. apply key_path_hex in Hq.
  unfold lookup_node. rewrite N by (by apply hex_not_temp).
  destruct (names w !! q) as [i|] eqn:E; [|done].
  destruct (Wf q i E) as [nd Hn]. rewrite Hn. by apply D.
Qed.

(** C18. Atomicity: when [set] or [set_streaming] raises, whatever the operating
    system or the payload writer did, every key still has the file it had
    before, no descriptor is left open, and the temporary file is gone unless
    it could not be unlinked or (in [set]) its lock was held by someone else. *)
Theorem failed_write_keeps_entries e now ns key w p v pr ttl x w' :
  is_Ok (target_count cfg) = true -> wf_world w -> _key_to_path blake2b key w = (Ok p, w) ->
  set blake2b iterdir cfg e now ns key v ttl w = (Err x, w') \/
  set_streaming blake2b iterdir cfg e now ns key pr ttl w = (Err x, w') ->
  fds w' = fds w /\
  (forall key2 q, _key_to_path blake2b key2 w = (Ok q, w) -> lookup_node w' q = lookup_node w q) /\
  (names w !! _generate_temp_path e p ns = None ->
   fault e (SysUnlink (_generate_temp_path e p ns)) = None ->
   fault e SysFlock <> Some EWOULDBLOCK -> names w' = names w).
Proof.
  intros Ht Wf Hp Hw.
  assert (exists b, harmless e (_generate_temp_path e p ns) b w w') as [b Hh].
  { destruct Hw as [Hw|Hw].
    - destruct (set_outcome _ _ _ _ _ _ _ _ _ _ _ _ _ Ht Hp Hw) as [(? & _ & ?)|[? _]]; [eauto|done].
    - destruct (stream_outcome _ _ _ _ _ _ _ _ _ _ _ _ _ Ht Hp Hw) as [(? & _ & ?)|[? _]]; [eauto|done]. }
  split; [apply Hh|]. split.
  - intros key2 q Hq. by eapply harmless_entries.
  - intros H1 H2 H3. apply Hh; auto.
Qed.

(** ** Reading back *)

Lemma shrunk_lookup w w' q : shrunk w w' ->
  lookup_node w' q = lookup_node w q \/ names w' !! q = None.
Proof.
  intros (N & _ & S). unfold lookup_node. rewrite N.
  destruct (names w' !! q) as [i|] eqn:E; [|by right]. left.
  by rewrite (lookup_weaken _ _ _ _ E S).
Qed.

(** An entry just committed and not evicted. *)
Lemma committed_entry key p w w' d mt :
  _key_to_path blake2b key w = (Ok p, w) -> shrunk (committed p w d mt) w' ->
  is_Some (names w' !! p) -> entry blake2b key p w' (fresh (dom (nodes w))) d mt.
Proof.
  intros Hp (N & _ & S) [i Hi]. constructor.
  - by eapply key_path_any.
  - rewrite Hi. pose proof (lookup_weaken _ _ _ _ Hi S) as E. simpl in E.
    rewrite lookup_insert_eq in E. congruence.
  - rewrite N. simpl. apply lookup_insert_eq.
Qed.

(** The bytes on disk of a write that was not cut short in the header. *)
Lemma written_header e h x v :
  _build_header x = Ok h -> 14 <= accepted e (h ++ v) ->
  written e (h ++ v) = h ++ take (Z.to_nat (accepted e (h ++ v) - 14)) v.
Proof.
  intros Hh Ha. destruct (build_header_ok x h Hh) as (L & _). unfold written.
  unfold HEADER_SIZE, zlen in L. rewrite take_app. f_equal; [apply take_ge; lia|].
  f_equal. lia.
Qed.

(** A stored file seen by [get] at a later time. *)
Lemma stored_get e e2 now2 key p w w' x h v :
  calm e2 -> _key_to_path blake2b key w = (Ok p, w) -> _build_header x = Ok h ->
  stored iterdir cfg e p w w' (written e (h ++ v)) -> 14 <= accepted e (h ++ v) ->
  is_Some (names w' !! p) ->
  (get blake2b e2 now2 key w').1 =
    Ok (if (0 <? x) && fgtZ now2 x then None
        else Some (take (Z.to_nat (accepted e (h ++ v) - 14)) v)).
Proof.
  intros C Hp Hh (_ & _ & S) Ha Hs.
  pose proof (committed_entry key p w w' _ _ Hp S Hs) as En.
  rewrite (written_header e h x v Hh Ha) in En.
  destruct (build_header_ok x h Hh) as (L & _ & _ & R).
  destruct (R (take (Z.to_nat (accepted e (h ++ v) - 14)) v)) as (R1 & R2 & R3).
  assert (A : accepted e (h ++ v) <= MAX_RW_COUNT) by (unfold accepted, MAX_RW_COUNT in *; lia).
  rewrite (get_calm blake2b e2 now2 key p w' _ _ _ C En).
  - unfold live, expired. rewrite R1, R2. unfold payload. rewrite R3.
    rewrite zlen_app, L. pose proof (zlen_nonneg (take (Z.to_nat (accepted e (h ++ v) - 14)) v)).
    rewrite (proj2 (Z.ltb_ge _ _)) by (unfold HEADER_SIZE; lia). simpl. by destruct (_ && _).
  - rewrite zlen_app, L. unfold HEADER_SIZE, zlen. rewrite length_take. lia.
Qed.

(** C20. A [set] that returns, on a system that writes in full, is read back: a
    later [get] of the key returns exactly the value until its expiry and
    nothing after it (or nothing when the write's own eviction took it), and
    every other file is as it was or evicted. *)
Theorem set_then_get e e2 now now2 ns key v ttl w w' p :
  is_Ok (target_count cfg) = true -> _key_to_path blake2b key w = (Ok p, w) ->
  accepts e = None -> HEADER_SIZE + zlen v <= MAX_RW_COUNT -> calm e2 ->
  set blake2b iterdir cfg e now ns key v ttl w = (Ok tt, w') ->
  exists x, _expiry_from_ttl now ttl w = (Ok x, w) /\
    (is_Some (names w' !! p) ->
     (get blake2b e2 now2 key w').1 = Ok (if (0 <? x) && fgtZ now2 x then None else Some v)) /\
    (names w' !! p = None -> (get blake2b e2 now2 key w').1 = Ok None) /\
    (forall q, q <> p -> wf_world w ->
       lookup_node w' q = lookup_node w q \/ names w' !! q = None).
Proof.
  intros Ht Hp Ha Hv C Hs.
  destruct (set_outcome _ _ _ _ _ _ _ _ _ _ _ _ _ Ht Hp Hs) as [(? & ? & _)|(_ & _ & x & h & Ex & Eh & St)]; [done|].
  exists x. split; [done|]. destruct (build_header_ok x h Eh) as (L & _).
  assert (A : accepted e (h ++ v) = HEADER_SIZE + zlen v).
  { unfold accepted. rewrite Ha. simpl. rewrite zlen_app, L.
    pose proof (zlen_nonneg v). unfold HEADER_SIZE in *. lia. }
  split; [|split].
  - intros Hk. rewrite (stored_get e e2 now2 key p w w' x h v); try done.
    + rewrite A. rewrite take_ge by (unfold HEADER_SIZE, zlen; lia). done.
    + rewrite A. pose proof (zlen_nonneg v). unfold HEADER_SIZE. lia.
  - intros Hn. unfold get. rewrite (bind_ok _ _ _ _ _ (key_path_any _ _ _ _ w' Hp)).
    unfold catch, os_open, bind at 1 2. rewrite (sys_calm _ _ _ C). by rewrite Hn.
  - intros q Hq Wf. destruct St as (_ & _ & S). destruct (shrunk_lookup _ _ q S) as [E|E]; [left|by right].
    rewrite E. unfold lookup_node. simpl. rewrite lookup_insert_ne by done.
    destruct (names w !! q) as [i|] eqn:Ei; [|done]. destruct (Wf q i Ei) as [nd Hn].
    rewrite lookup_insert_ne; [done|]. intros <-. by rewrite fresh_ino in Hn.
Qed.

(** [set] does not look at the count [os.write] returns.  When the system
    takes fewer bytes (a nearly full disk, or any value beyond the 0x7ffff000
    bytes Linux transfers in one call), [set] still commits and returns, and a
    later [get] serves a strict prefix of the value. *)
Theorem set_truncates e e2 now now2 ns key v ttl w w' p :
  is_Ok (target_count cfg) = true -> _key_to_path blake2b key w = (Ok p, w) ->
  (forall h, zlen h = HEADER_SIZE -> 14 <= accepted e (h ++ v) < HEADER_SIZE + zlen v) ->
  ttl = None \/ ttl = Some 0 -> calm e2 ->
  set blake2b iterdir cfg e now ns key v ttl w = (Ok tt, w') ->
  is_Some (names w' !! p) ->
  exists n, (n < length v)%nat /\ (get blake2b e2 now2 key w').1 = Ok (Some (take n v)).
Proof.
  intros Ht Hp Ha Httl C Hs Hk.
  destruct (set_outcome _ _ _ _ _ _ _ _ _ _ _ _ _ Ht Hp Hs) as [(? & ? & _)|(_ & _ & x & h & Ex & Eh & St)]; [done|].
  destruct (build_header_ok x h Eh) as (L & _). specialize (Ha h L).
  exists (Z.to_nat (accepted e (h ++ v) - 14)).
  split; [unfold HEADER_SIZE, zlen in *; lia|].
  rewrite (stored_get e e2 now2 key p w w' x h v); try done; [|lia].
  assert (x = 0) as -> by (destruct Httl; subst ttl; simpl in Ex; unfold mret in Ex; congruence).
  done.
Qed.

(** ** Eviction order *)

(** The entries an eviction pass unlinks, and the accounting it keeps. *)
Fixpoint victims (tc : Z) (files : list (pystr * float * Z)) (mb : float) (n : Z)
  : list (pystr * float * Z) :=
  match files with
  | [] => []
  | f :: r =>
      if below_target cfg tc mb n then []
      else match fdivZ f.2 MIB with
           | Ok d => f :: victims tc r (fsub mb d) (n - 1)
           | Err _ => [f]
           end
  end.

(** Directory [m] without the names [l]. *)
Definition without (l : list pystr) (m : gmap pystr nat) : gmap pystr nat :=
  foldr base.delete m l.

Lemma without_lookup l m q : without l m !! q = if decide (q ∈ l) then None else m !! q.
Proof.
  induction l as [|p l IH]; simpl; [done|].
  destruct (decide (q = p)) as [->|Hq].
  - rewrite lookup_delete_eq. rewrite decide_True; [done|by left].
  - rewrite lookup_delete_ne by done. rewrite IH.
    destruct (decide (q ∈ l)); [rewrite decide_True; [done|by right]|].
    rewrite decide_False; [done|]. rewrite elem_of_cons. by intros [|].
Qed.

Lemma without_delete l p m : without l (base.delete p m) = base.delete p (without l m).
Proof. induction l as [|q l IH]; simpl; [done|]. rewrite IH. apply delete_delete. Qed.

(** A scanned file is a regular file of the directory. *)
Definition is_file (w : world) (f : pystr * float * Z) : Prop :=
  exists i d, names w !! f.1.1 = Some i /\ nodes w !! i = Some (Reg d f.1.2) /\ f.2 = zlen d.

Lemma evict_loop_victims e tc files mb n w :
  calm e -> NoDup (map (fun f => f.1.1) files) -> Forall (is_file w) files ->
  evict_loop cfg e tc files mb n w =
    (Ok tt, upd_names (without (map (fun f => f.1.1) (victims tc files mb n))) w).
Proof.
  intros C. revert mb n w. induction files as [|[[p mt] sz] r IH]; intros mb n w Nd Hf.
  { simpl. f_equal. by destruct w. }
  simpl in Nd. apply list.NoDup_cons in Nd as [Np Nd].
  apply list.Forall_cons in Hf as [(i & d & E1 & E2 & E3) Hf]. simpl in E1, E2, E3.
  cbn [evict_loop victims]. destruct (below_target cfg tc mb n); [f_equal; by destruct w|].
  rewrite (unlink_calm e p i (Reg d mt)) by done. cbn [snd].
  destruct (fdivZ sz MIB) as [dv|]; [|done].
  rewrite IH; [|done|].
  - f_equal. apply world_eq; try done. simpl. apply without_delete.
  - rewrite !list.Forall_forall in Hf |- *. intros f Hin.
    destruct (Hf f Hin) as (i' & d' & F1 & F2 & F3). exists i', d'. split; [|done].
    simpl. rewrite lookup_delete_ne; [done|]. intros E. apply Np. rewrite E.
    apply list_elem_of_In, (in_map (fun f => f.1.1)), list_elem_of_In, Hin.
Qed.

(** ** What eviction promises *)

(** [iterdir] lists each name of the directory once. *)
Hypothesis iterdir_perm : forall m, iterdir m ≡ₚ map_to_list m.

Lemma iterdir_nodup m : NoDup (map fst (iterdir m)).
Proof.
  change (NoDup (fst <$> iterdir m)). rewrite iterdir_perm. apply NoDup_fst_map_to_list.
Qed.

Lemma scan_entry_some e w x f :
  scan_entry e w x = Some f ->
  f.1.1 = x.1 /\ exists d, nodes w !! x.2 = Some (Reg d f.1.2) /\ f.2 = zlen d.
Proof.
  unfold scan_entry. intros E. repeat case_match; simplify_eq. simpl. eauto.
Qed.

Lemma scan_nodup e w : NoDup (map (fun f => f.1.1) (scan iterdir e w)).
Proof.
  unfold scan. pose proof (iterdir_nodup (names w)) as Nd. induction (iterdir (names w)) as [|x l IH].
  { constructor. }
  simpl in Nd. apply list.NoDup_cons in Nd as [Nx Nd]. simpl.
  destruct (scan_entry e w x) as [f|] eqn:E; [|by apply IH].
  apply scan_entry_some in E as [E _]. simpl. constructor; [|by apply IH].
  rewrite E. intros Hin. apply Nx.
  apply list_elem_of_In, in_map_iff in Hin as (g & Eg & Hg).
  apply list_elem_of_In, list_elem_of_omap in Hg as (y & Hy & Ey).
  apply scan_entry_some in Ey as [Ey _]. rewrite <- Eg, Ey.
  apply list_elem_of_In, in_map, list_elem_of_In, Hy.
Qed.

Lemma scan_files e w : Forall (is_file w) (scan iterdir e w).
Proof.
  apply list.Forall_forall. intros f Hf. unfold scan in Hf.
  apply list_elem_of_omap in Hf as ([q i] & Hq & E).
  apply scan_entry_some in E as (E & d & Hn & Hd). simpl in *.
  exists i, d. split; [|done]. rewrite E. rewrite iterdir_perm in Hq.
  by apply elem_of_map_to_list in Hq.
Qed.

Lemma insert_by_mtime_perm x l : insert_by_mtime x l ≡ₚ x :: l.
Proof.
  induction l as [|y l IH]; simpl; [done|]. destruct (flt _ _); [|done].
  rewrite IH. apply Permutation_swap.
Qed.

Lemma sort_perm l : sort_by_mtime l ≡ₚ l.
Proof. induction l as [|x l IH]; simpl; [done|]. by rewrite insert_by_mtime_perm, IH. Qed.

Definition older (f g : pystr * float * Z) : Prop := fle f.1.2 g.1.2 = true.

Definition mtimes_ok (l : list (pystr * float * Z)) : Prop :=
  Forall (fun f => isnan f.1.2 = false) l.

Lemma insert_sorted x l :
  isnan x.1.2 = false -> mtimes_ok l -> Sorted older l -> Sorted older (insert_by_mtime x l).
Proof.
  intros Hx Hl Hs. induction Hs as [|y l Hs IH Hd]; simpl; [by repeat constructor|].
  apply list.Forall_cons in Hl as [Hy Hl]. destruct (flt y.1.2 x.1.2) eqn:E.
  - constructor; [by apply IH|]. destruct l as [|z l]; simpl.
    + constructor. by apply flt_fle.
    + destruct (flt z.1.2 x.1.2); constructor; [by inversion Hd|by apply flt_fle].
  - constructor; [by constructor|]. constructor. unfold older.
    rewrite flt_negb_fle in E by done. by destruct (fle x.1.2 y.1.2).
Qed.

Lemma sort_sorted l : mtimes_ok l -> Sorted older (sort_by_mtime l).
Proof.
  induction 1 as [|x l Hx Hl IH]; simpl; [constructor|]. apply insert_sorted; [done| |done].
  unfold mtimes_ok. by rewrite sort_perm.
Qed.

(** Sizes in mebibytes are floats. *)
Definition sizes_ok (l : list (pystr * float * Z)) : Prop :=
  Forall (fun f => is_Ok (fdivZ f.2 MIB) = true) l.

(** The accounting after the first [k] evictions. *)
Definition size_after (files : list (pystr * float * Z)) (mb : float) (k : nat) : float :=
  foldl (fun a f => match fdivZ f.2 MIB with Ok d => fsub a d | Err _ => a end) mb (take k files).

(** Sizes are those of files: dividing by a mebibyte never fails. *)
Lemma victims_prefix tc files mb n :
  (forall f, f ∈ files -> is_Ok (fdivZ f.2 MIB) = true) ->
  exists k, (k <= length files)%nat /\ victims tc files mb n = take k files /\
    (k = length files \/ below_target cfg tc (size_after files mb k) (n - Z.of_nat k) = true) /\
    forall j, (j < k)%nat -> below_target cfg tc (size_after files mb j) (n - Z.of_nat j) = false.
Proof.
  revert mb n. induction files as [|f r IH]; intros mb n Hok.
  { exists O. split; [done|]. split; [done|]. split; [by left|lia]. }
  simpl. destruct (below_target cfg tc mb n) eqn:B.
  { exists O. split; [lia|]. split; [done|]. split; [right|lia]. unfold size_after. simpl.
    by rewrite Z.sub_0_r. }
  pose proof (Hok f ltac:(by left)) as Hf. destruct (fdivZ f.2 MIB) as [d|] eqn:Ed; [|done].
  destruct (IH (fsub mb d) (n - 1)) as (k & K1 & K2 & K3 & K4); [intros g Hg; apply Hok; by right|].
  exists (S k). split; [lia|]. split; [simpl; by rewrite K2|].
  assert (A : forall j, size_after (f :: r) mb (S j) = size_after r (fsub mb d) j)
    by (intros j; unfold size_after; simpl; by rewrite Ed).
  split.
  - destruct K3 as [->|K3]; [by left|right]. rewrite A.
    by replace (n - Z.of_nat (S k)) with (n - 1 - Z.of_nat k) by lia.
  - intros [|j] Hj; [unfold size_after; simpl; by rewrite Z.sub_0_r|]. rewrite A.
    replace (n - Z.of_nat (S j)) with (n - 1 - Z.of_nat j) by lia. apply K4. lia.
Qed.

Lemma sorted_split k l f g :
  Sorted older l -> mtimes_ok l -> f ∈ take k l -> g ∈ drop k l -> older f g.
Proof.
  intros Hs Hl. apply Sorted_StronglySorted in Hs; [|intros a b c; apply fle_trans].
  revert k. induction Hs as [|x l Hs IH Hx]; intros k; [by rewrite take_nil; intros ?%not_elem_of_nil|].
  apply list.Forall_cons in Hl as [_ Hl]. destruct k as [|k]; simpl; [by intros ?%not_elem_of_nil|].
  rewrite elem_of_cons. intros [->|Hf] Hg; [|by eapply IH].
  rewrite list.Forall_forall in Hx. apply Hx. by eapply subseteq_drop.
Qed.

(** Eviction is least-recently-written first and no more than needed: below
    the 90% trigger nothing happens; above it the entries unlinked are a
    prefix of the entries in the order of their mtimes, each removal happens
    only while a 70% target is exceeded, and at the end both targets hold (or
    no entry is left). *)
Theorem eviction_oldest_first e w tc :
  target_count cfg = Ok tc -> calm e -> mtimes_ok (scan iterdir e w) -> sizes_ok (scan iterdir e w) ->
  exists w', _maybe_evict iterdir cfg e w = (Ok tt, w') /\
    let sc := _calculate_cache_size iterdir e w in
    let files := sort_by_mtime (scan iterdir e w) in
    if evict_trigger cfg sc then
      exists k, w' = upd_names (without (map (fun f => f.1.1) (take k files))) w /\
        (k = length files \/ below_target cfg tc (size_after files sc.1 k) (sc.2 - Z.of_nat k) = true) /\
        (forall j, (j < k)%nat ->
           below_target cfg tc (size_after files sc.1 j) (sc.2 - Z.of_nat j) = false) /\
        (forall f g, f ∈ take k files -> g ∈ drop k files -> fle f.1.2 g.1.2 = true)
    else w' = w.
Proof.
  intros Ht C Hm Hz. unfold _maybe_evict, bind, reads. cbv zeta.
  destruct (evict_trigger cfg (_calculate_cache_size iterdir e w)) eqn:Et; simpl; [|by exists w].
  rewrite Ht. simpl. rewrite (proj1 C SysIterdir).
  set (files := sort_by_mtime (scan iterdir e w)).
  assert (P : files ≡ₚ scan iterdir e w) by apply sort_perm.
  assert (Nd : NoDup (map (fun f => f.1.1) files)).
  { change (NoDup ((fun f => f.1.1) <$> files)). rewrite P. apply scan_nodup. }
  assert (Hf : Forall (is_file w) files) by (rewrite P; apply scan_files).
  destruct (victims_prefix tc files (_calculate_cache_size iterdir e w).1
    (_calculate_cache_size iterdir e w).2) as (k & K1 & K2 & K3 & K4).
  { intros f Hin. unfold sizes_ok in Hz. rewrite <- P, list.Forall_forall in Hz. by apply Hz. }
  eexists. split; [by apply evict_loop_victims|]. exists k. rewrite K2.
  split; [done|]. split; [done|]. split; [done|].
  intros f g. apply sorted_split; [by apply sort_sorted|]. unfold mtimes_ok. by rewrite P.
Qed.

(** ** The entry limit *)

Definition entries (e : env) (w : world) : Z := zlen (scan iterdir e w).

Lemma entries_map e w : entries e w = zlen (omap (scan_entry e w) (map_to_list (names w))).
Proof. unfold entries, scan, zlen. by rewrite iterdir_perm. Qed.

Lemma entries_shrunk e w w' : shrunk w w' -> entries e w' <= entries e w.
Proof.
  intros (N & _ & S). rewrite !entries_map.
  destruct (submseteq_Permutation _ _ (map_to_list_submseteq _ _ S)) as [k P].
  rewrite P, omap_app. assert (E : scan_entry e w' = scan_entry e w) by (unfold scan_entry; by rewrite N).
  rewrite E, zlen_app. pose proof (zlen_nonneg (omap (scan_entry e w) k)). lia.
Qed.

Lemma scan_entry_reg e w q i d mt :
  calm e -> nodes w !! i = Some (Reg d mt) ->
  scan_entry e w (q, i) = if is_entry_name q then Some (q, mt, zlen d) else None.
Proof. intros C Hn. unfold scan_entry. simpl. rewrite (proj1 C), Hn. by destruct (is_entry_name q). Qed.

(** Committing a file leaves the other entries as they were scanned. *)
Lemma scan_entry_committed e p w d mt q i :
  is_Some (nodes w !! i) -> scan_entry e (committed p w d mt) (q, i) = scan_entry e w (q, i).
Proof.
  intros [nd Hn]. unfold scan_entry. simpl. rewrite lookup_insert_ne; [done|].
  intros <-. by rewrite fresh_ino in Hn.
Qed.

Lemma omap_committed e p w d mt (l : list (pystr * nat)) :
  Forall (fun x => is_Some (nodes w !! x.2)) l ->
  omap (scan_entry e (committed p w d mt)) l = omap (scan_entry e w) l.
Proof.
  induction 1 as [|[q i] l Hn _ IH]; [done|]. cbn [omap list_omap].
  rewrite scan_entry_committed by done. by rewrite IH.
Qed.

Lemma wf_listed w m :
  wf_world w -> m ⊆ names w -> Forall (fun x => is_Some (nodes w !! x.2)) (map_to_list m).
Proof.
  intros Wf Hm. apply list.Forall_forall. intros [q i] Hq. apply elem_of_map_to_list in Hq.
  apply (Wf q). by eapply lookup_weaken.
Qed.

(** A new name adds at most one entry, replacing a regular file none. *)
Lemma entries_committed e p w d mt :
  calm e -> wf_world w ->
  match lookup_node w p with
  | Some (Reg _ _) => entries e (committed p w d mt) <= entries e w
  | None => entries e (committed p w d mt) <= 1 + entries e w
  | _ => True
  end.
Proof.
  intros C Wf. unfold lookup_node. rewrite !entries_map. simpl names.
  destruct (names w !! p) as [j|] eqn:Ep.
  - destruct (nodes w !! j) as [[d' mt'| |]|] eqn:En; [|done..|destruct (Wf p j Ep); congruence].
    rewrite <- (insert_delete_id (names w) p j Ep) at 2. rewrite <- insert_delete_eq.
    rewrite !map_to_list_insert by apply lookup_delete_eq. cbn [omap list_omap].
    rewrite omap_committed by (apply wf_listed; [done|apply delete_subseteq]).
    rewrite (scan_entry_reg e w p j d' mt') by done.
    rewrite (scan_entry_reg e _ p _ d mt); [|done|simpl; apply lookup_insert_eq].
    destruct (is_entry_name p); simpl; [rewrite !zlen_cons|]; lia.
  - rewrite map_to_list_insert by done. cbn [omap list_omap].
    rewrite omap_committed by (by apply wf_listed).
    destruct (scan_entry e _ (p, _)); [rewrite zlen_cons|]; lia.
Qed.

Lemma capacity_ok e p w :
  calm e -> is_Ok (fdivZ (zsum (map snd (scan iterdir e w))) MIB) = true ->
  0 < max_entry_count cfg ->
  _check_entry_capacity iterdir cfg e p w = (Ok tt, w) ->
  path_exists p w = true \/ entries e w < max_entry_count cfg.
Proof.
  intros C Hz Hm. unfold _check_entry_capacity, bind, reads, _calculate_cache_size.
  rewrite (proj2 (Z.leb_gt _ _)) by done. rewrite (proj1 C).
  destruct (fdivZ _ _); [|done]. cbn [snd].
  destruct (path_exists p w); [by left|]. cbn [negb andb].
  destruct (Z.leb_spec (max_entry_count cfg) (zlen (scan iterdir e w))); [done|by right].
Qed.

(** The entry limit: a [set] or [set_streaming] that returns leaves at most
    [max_entry_count] entries when there were at most that many (the name is
    not squatted by a symlink or directory); and when the limit is reached, a
    [set] of a new key raises the permanent error and changes nothing. *)
Theorem entry_limit e now ns key v pr ttl w w' p :
  is_Ok (target_count cfg) = true -> wf_world w -> _key_to_path blake2b key w = (Ok p, w) ->
  calm e -> is_Ok (fdivZ (zsum (map snd (scan iterdir e w))) MIB) = true ->
  0 < max_entry_count cfg ->
  match lookup_node w p with Some (Symlink _) | Some Dir => False | _ => True end ->
  (entries e w <= max_entry_count cfg ->
   set blake2b iterdir cfg e now ns key v ttl w = (Ok tt, w') \/
   set_streaming blake2b iterdir cfg e now ns key pr ttl w = (Ok tt, w') ->
   entries e w' <= max_entry_count cfg) /\
  (names w !! p = None -> max_entry_count cfg <= entries e w ->
   zlen v <= max_value_mb cfg * 1024 * 1024 -> ttl = None ->
   exists m, set blake2b iterdir cfg e now ns key v ttl w
     = (Err (BackendE (backend_error m PERMANENT)), w)).
Proof.
  intros Ht Wf Hp C Hz Hm Hk. split.
  - intros He Hw.
    assert (exists d mt, _check_entry_capacity iterdir cfg e p w = (Ok tt, w) /\
              shrunk (committed p w d mt) w') as (d & mt & Cap & S).
    { destruct Hw as [Hw|Hw].
      - destruct (set_outcome _ _ _ _ _ _ _ _ _ _ _ _ _ Ht Hp Hw)
          as [(? & ? & _)|(_ & _ & x & h & _ & _ & Cap & _ & S)]; [done|].
        exists (written e (h ++ v)), (wtime e). by split.
      - destruct (stream_outcome _ _ _ _ _ _ _ _ _ _ _ _ _ Ht Hp Hw)
          as [(? & ? & _)|(_ & x & h & off & d & mt & _ & _ & _ & _ & Cap & S)]; [done|].
        by exists d, mt. }
    apply (entries_shrunk e) in S. pose proof (entries_committed e p w d mt C Wf) as Hc.
    destruct (capacity_ok e p w C Hz Hm Cap) as [Hx|Hx].
    + unfold path_exists in Hx. destruct (lookup_node w p) as [[]|]; try done; lia.
    + destruct (lookup_node w p) as [[]|]; try done; lia.
  - intros Hn He Hv ->. unfold set. rewrite (proj2 (Z.ltb_ge _ _)) by done.
    rewrite (bind_ok _ _ _ _ _ Hp). unfold _expiry_from_ttl.
    rewrite (bind_ok _ _ _ _ _ (eq_refl : mret 0 w = (Ok 0, w))).
    change (_build_header 0) with (Ok (E:=py_exn) (u "CK" ++ [1; 0; 0; 0] ++ be_bytes 8 0)).
    unfold lift at 1, bind at 1.
    assert (Cap : exists m, _check_entry_capacity iterdir cfg e p w
              = (Err (BackendE (backend_error m PERMANENT)), w)).
    { unfold _check_entry_capacity, bind, reads, _calculate_cache_size.
      rewrite (proj2 (Z.leb_gt _ _)) by done. rewrite (proj1 C).
      destruct (fdivZ _ _); [|done]. cbn [snd].
      unfold path_exists, lookup_node. rewrite Hn. cbn [negb andb].
      rewrite (proj2 (Z.leb_le _ _)) by done. by eexists. }
    destruct Cap as [m Cap]. exists m. unfold catch. by rewrite (bind_err _ _ _ _ _ Cap).
Qed.

(** ** Streaming in chunks *)

Lemma splice_end bs (d : pybytes) : splice (zlen d) bs d = d ++ bs.
Proof.
  unfold splice. rewrite Z.sub_diag. cbn [Z.to_nat replicate app].
  rewrite take_ge by (unfold zlen; lia). rewrite drop_ge by (unfold zlen; lia).
  by rewrite app_nil_r.
Qed.

Lemma ops_chunks e t w chunks d :
  calm e ->
  run_ops e (fresh (dom (fds w))) (map PWrite chunks) (temp_open t w (zlen d) d (wtime e)) =
    (Ok tt, temp_open t w (zlen (d ++ concat chunks)) (d ++ concat chunks) (wtime e)).
Proof.
  intros C. revert d. induction chunks as [|bs r IH]; intros d; cbn [map run_ops concat].
  { by rewrite app_nil_r. }
  unfold buffered_write. erewrite bind_ok.
  2:{ rewrite (bind_ok _ _ _ _ _ (sys_calm e SysWrite _ C)), temp_put, splice_end. reflexivity. }
  rewrite <- zlen_app, IH, <- app_assoc. done.
Qed.

(** A write nothing stands in the way of. *)
Record clear_write (e : env) (now : float) (ns : Z) (key : pystr) (size : Z) (ttl : option Z)
    (p : pystr) (x : Z) (h : pybytes) (w : world) : Prop := mkClear {
  cw_calm : calm e;
  cw_path : _key_to_path blake2b key w = (Ok p, w);
  cw_expiry : _expiry_from_ttl now ttl w = (Ok x, w);
  cw_header : _build_header x = Ok h;
  cw_capacity : _check_entry_capacity iterdir cfg e p w = (Ok tt, w);
  cw_temp : names w !! _generate_temp_path e p ns = None;
  cw_target : lookup_node w p <> Some Dir;
  cw_fresh_dir : p <> _generate_temp_path e p ns;
  cw_limit : size <= max_value_mb cfg * 1024 * 1024;
  cw_rw : HEADER_SIZE + size <= MAX_RW_COUNT
}.

Lemma rename_calm e t p w d mt :
  calm e -> names w !! t = None -> lookup_node w p <> Some Dir -> p <> t ->
  (forall i, names w !! p = Some i -> is_Some (nodes w !! i)) ->
  os_rename e t p (temp_done t w d mt) = (Ok tt, committed p w d mt).
Proof.
  intros C Ht Hd Hp Wf. destruct (rename_cases e t p w d mt Ht) as [[n E]|E]; [exfalso|done].
  unfold os_rename in E. rewrite (bind_ok _ _ _ _ _ (sys_calm e SysRename _ C)) in E.
  assert (L : names (temp_done t w d mt) !! t = Some (fresh (dom (nodes w)))) by apply lookup_insert_eq.
  rewrite L in E.
  assert (Q : lookup_node (temp_done t w d mt) p = lookup_node w p).
  { unfold lookup_node. simpl. rewrite lookup_insert_ne by done.
    destruct (names w !! p) as [i|] eqn:Ei; [|done]. destruct (Wf i eq_refl) as [nd Hn].
    rewrite lookup_insert_ne; [done|]. intros <-. by rewrite fresh_ino in Hn. }
  rewrite Q in E. by destruct (lookup_node w p) as [[]|].
Qed.

(** Creating, filling and renaming the temporary file. *)
Lemma write_calm_file e t p w (body : nat -> M unit) off d mt :
  calm e -> names w !! t = None -> lookup_node w p <> Some Dir -> p <> t -> wf_world w ->
  body (fresh (dom (fds w))) (temp_open t w 0 [] (wtime e)) = (Ok tt, temp_open t w off d mt) ->
  ((fd <-- os_open_excl e t ;; finally (body fd) (os_close fd)) ;;; os_rename e t p) w
    = (Ok tt, committed p w d mt).
Proof.
  intros C Ht Hd Hp Wf B. erewrite bind_ok; [by apply rename_calm; try done; apply Wf|].
  unfold os_open_excl. rewrite <- bind_assoc, (bind_ok _ _ _ _ _ (sys_calm e SysOpen _ C)).
  unfold bind. rewrite Ht. unfold finally. unfold temp_open in B at 1. rewrite B.
  by rewrite temp_close.
Qed.

Lemma temp_write_calm e t w bs mt :
  calm e -> zlen bs <= MAX_RW_COUNT ->
  os_write e (fresh (dom (fds w))) bs (temp_open t w 0 [] mt)
    = (Ok (zlen bs), temp_open t w (zlen bs) bs (wtime e)).
Proof.
  intros C Hl. unfold os_write. rewrite (bind_ok _ _ _ _ _ (sys_calm e _ _ C)).
  assert (A : accepted e bs = zlen bs).
  { unfold accepted. rewrite (proj2 C). simpl. pose proof (zlen_nonneg bs). lia. }
  rewrite A. assert (T : take (Z.to_nat (zlen bs)) bs = bs) by (apply take_ge; unfold zlen; lia).
  rewrite T. erewrite bind_ok by apply temp_put. by rewrite splice_empty.
Qed.

Lemma set_clear e now ns key v ttl p x h w :
  clear_write e now ns key (zlen v) ttl p x h w -> wf_world w ->
  exists r w', _maybe_evict iterdir cfg e (committed p w (h ++ v) (wtime e)) = (r, w') /\
    (r = Ok tt -> set blake2b iterdir cfg e now ns key v ttl w = (Ok tt, w')).
Proof.
  intros [C Hp Hx Hh Cap Ht Hd Hne Hl Hrw] Wf.
  destruct (_maybe_evict iterdir cfg e (committed p w (h ++ v) (wtime e))) as [r w'] eqn:Ev.
  exists r, w'. split; [done|]. intros ->. unfold set. rewrite (proj2 (Z.ltb_ge _ _)) by done.
  rewrite (bind_ok _ _ _ _ _ Hp), (bind_ok _ _ _ _ _ Hx). rewrite Hh.
  unfold lift at 1, bind at 1. apply catch_ok. rewrite (bind_ok _ _ _ _ _ Cap).
  rewrite bind_assoc, bind_assoc.
  erewrite bind_ok; [exact Ev|].
  eapply (write_calm_file e _ p w (fun fd => _acquire_file_lock e fd true ;;;
     finally (os_write e fd (h ++ v) ;;; os_fsync e) (_release_file_lock fd))); try done.
  rewrite (bind_ok _ _ _ _ _ (lock_calm e _ _ _ C)), release_finally.
  destruct (build_header_ok x h Hh) as (L & _).
  erewrite bind_ok; [apply (sys_calm e SysFsync _ C)|].
  apply temp_write_calm; [done|]. by rewrite zlen_app, L.
Qed.

Lemma stream_clear e now ns key chunks ttl p x h w :
  clear_write e now ns key (zlen (concat chunks)) ttl p x h w -> wf_world w ->
  exists r w', _maybe_evict iterdir cfg e (committed p w (h ++ concat chunks) (wtime e)) = (r, w') /\
    (r = Ok tt -> set_streaming blake2b iterdir cfg e now ns key
                    (mkProducer (map PWrite chunks) false) ttl w = (Ok tt, w')).
Proof.
  intros [C Hp Hx Hh Cap Ht Hd Hne Hl Hrw] Wf.
  destruct (_maybe_evict iterdir cfg e (committed p w (h ++ concat chunks) (wtime e))) as [r w'] eqn:Ev.
  exists r, w'. split; [done|]. intros ->. unfold set_streaming.
  rewrite (bind_ok _ _ _ _ _ Hx). rewrite Hh. unfold lift at 1, bind at 1.
  rewrite (bind_ok _ _ _ _ _ Hp). destruct (build_header_ok x h Hh) as (L & _).
  erewrite bind_ok; [apply catch_ok, Ev|]. apply catch_ok. rewrite (bind_ok _ _ _ _ _ Cap).
  rewrite bind_assoc.
  eapply (write_calm_file e _ p w (stream_write cfg e h (mkProducer (map PWrite chunks) false)));
    try done.
  unfold stream_write.
  rewrite (bind_ok _ _ _ _ _ (lock_calm e _ _ _ C)), release_finally.
  unfold buffered_write at 1.
  erewrite bind_ok; [|rewrite (bind_ok _ _ _ _ _ (sys_calm e SysWrite _ C)); apply temp_put].
  rewrite splice_empty, Z.add_0_l. unfold write_payload. cbn [p_ops p_raises].
  erewrite bind_ok; [|rewrite (bind_ok _ _ _ _ _ (ops_chunks e _ w chunks h C)); reflexivity].
  erewrite bind_ok.
  2:{ unfold os_fstat_size. rewrite (bind_ok _ _ _ _ _ (sys_calm e SysFstat _ C)).
      rewrite temp_node. reflexivity. }
  rewrite zlen_app, L. rewrite (proj2 (Z.ltb_ge _ _)) by lia.
  erewrite bind_ok; [|reflexivity]. apply (sys_calm e SysFsync _ C).
Qed.

(** Streaming a value in chunks does to the cache directory exactly what
    [set] of the whole value does: same entry, same evictions, same outcome. *)
Theorem stream_equals_set e now ns key chunks ttl p x h w :
  is_Ok (target_count cfg) = true -> wf_world w ->
  clear_write e now ns key (zlen (concat chunks)) ttl p x h w ->
  exists w', set blake2b iterdir cfg e now ns key (concat chunks) ttl w = (Ok tt, w') /\
    set_streaming blake2b iterdir cfg e now ns key (mkProducer (map PWrite chunks) false) ttl w
      = (Ok tt, w') /\
    shrunk (committed p w (h ++ concat chunks) (wtime e)) w'.
Proof.
  intros Ht Wf Cw.
  destruct (maybe_evict_shrunk iterdir cfg e (committed p w (h ++ concat chunks) (wtime e)) Ht)
    as (w' & Ev & S).
  destruct (set_clear _ _ _ _ _ _ _ _ _ _ Cw Wf) as (r & w1 & E1 & R1).
  destruct (stream_clear _ _ _ _ _ _ _ _ _ _ Cw Wf) as (r2 & w2 & E2 & R2).
  rewrite Ev in E1, E2. injection E1 as <- <-. injection E2 as <- <-.
  exists w'. auto.
Qed.

End Props.

(** ** Concrete runs *)

Definition listing (m : gmap pystr nat) : list (pystr * nat) := map_to_list m.

Lemma one_entry_wf : wf_world one_entry.
Proof.
  intros q i. unfold one_entry. simpl. rewrite lookup_singleton_Some. intros [<- <-].
  by eexists.
Qed.

(** A disk that is full. *)
Definition full_disk : env :=
  mkEnv (fun s => match s with SysWrite => Some ENOSPC | _ => None end) None (fofZ 50)
    (fun _ => u "No space left on device") (fun _ => []) 7.

Definition kpath : pystr := toy_path (u "k").

Definition outcome {A} (r : result exn A * world) : result exn A := r.1.
Definition after {A} (r : result exn A * world) : world := r.2.

Definition failing : result exn unit * world :=
  set toy_digest listing default_config full_disk (fofZ 10) 1 (u "k") (u "hello") (Some 60) one_entry.

Definition failing_exn : exn := match outcome failing with Err x => x | Ok _ => ProducerE end.

Lemma failed_write_keeps_entries_witness :
  is_Ok (outcome failing) = false /\ names (after failing) = names one_entry.
Proof.
  split; [vm_compute; reflexivity|].
  apply (failed_write_keeps_entries toy_digest listing default_config
    full_disk (fofZ 10) 1 (u "k") one_entry kpath (u "hello") (mkProducer [] false) (Some 60)
    failing_exn (after failing)).
  - vm_compute. reflexivity.
  - exact one_entry_wf.
  - vm_compute. reflexivity.
  - left. vm_compute. reflexivity.
  - vm_compute. reflexivity.
  - reflexivity.
  - discriminate.
Defined.

Definition storing : result exn unit * world :=
  set toy_digest listing default_config quiet (fofZ 10) 1 (u "k") (u "hello") (Some 60) one_entry.

Lemma set_then_get_witness :
  (get toy_digest quiet (fofZ 70) (u "k") (after storing)).1 = Ok (Some (u "hello")) /\
  (get toy_digest quiet (fofZ 71) (u "k") (after storing)).1 = Ok None.
Proof.
  pose proof (fun t => set_then_get toy_digest listing default_config quiet quiet
    (fofZ 10) t 1 (u "k") (u "hello") (Some 60) one_entry (after storing) kpath
    ltac:(vm_compute; reflexivity) ltac:(vm_compute; reflexivity) ltac:(reflexivity)
    ltac:(vm_compute; discriminate) quiet_calm ltac:(vm_compute; reflexivity)) as G.
  destruct (G (fofZ 70)) as (x & Ex & G1 & _). destruct (G (fofZ 71)) as (y & Ey & G2 & _).
  assert (x = 70) as -> by (vm_compute in Ex; congruence).
  assert (y = 70) as -> by (vm_compute in Ey; congruence).
  split; [rewrite G1; [vm_compute; reflexivity|]|rewrite G2; [vm_compute; reflexivity|]];
    exists 1%nat; vm_compute; reflexivity.
Defined.

(** A disk that takes sixteen bytes and then is full. *)
Definition short_disk : env :=
  mkEnv (fun _ => None) (Some 16) (fofZ 50) (fun _ => []) (fun _ => []) 7.

Definition storing_short : result exn unit * world :=
  set toy_digest listing default_config short_disk (fofZ 10) 1 (u "k") (u "hello") None one_entry.

Lemma set_truncates_witness :
  exists n, (n < 5)%nat /\
    (get toy_digest quiet (fofZ 70) (u "k") (after storing_short)).1 = Ok (Some (take n (u "hello"))).
Proof.
  apply (set_truncates toy_digest listing default_config short_disk quiet (fofZ 10) (fofZ 70) 1
    (u "k") (u "hello") None one_entry (after storing_short) kpath).
  - vm_compute. reflexivity.
  - vm_compute. reflexivity.
  - intros h Hh. unfold accepted. rewrite zlen_app, Hh. vm_compute. split; [discriminate|reflexivity].
  - by left.
  - apply quiet_calm.
  - vm_compute. reflexivity.
  - exists 1%nat. vm_compute. reflexivity.
Defined.

(** A cache of at most two entries, three files old. *)
Definition tiny : FileBackendConfig := mkConfig 1 1 2 (fofZ 5) 384 448.

Definition file_at (t : Z) : node := Reg (u "CK" ++ [1; 0; 0; 0] ++ be_bytes 8 0) (fofZ t).

Definition three_entries : world :=
  mkWorld {[ u "a" := O; u "b" := 1%nat; u "c" := 2%nat ]}
    {[ O := file_at 30; 1%nat := file_at 10; 2%nat := file_at 20 ]} ∅.

Lemma listing_perm m : listing m ≡ₚ map_to_list m.
Proof. done. Qed.

Lemma three_mtimes : mtimes_ok (scan listing quiet three_entries).
Proof. vm_compute. repeat (apply Forall_cons_2; [reflexivity|]). apply Forall_nil_2. Qed.

Lemma three_sizes : sizes_ok (scan listing quiet three_entries).
Proof.
  assert (scan listing quiet three_entries =
    [(u "c", fofZ 20, 14); (u "b", fofZ 10, 14); (u "a", fofZ 30, 14)]) as ->
    by (vm_compute; reflexivity).
  repeat (apply Forall_cons_2; [vm_compute; reflexivity|]). apply Forall_nil_2.
Qed.

Lemma eviction_oldest_first_witness :
  exists w', _maybe_evict listing tiny quiet three_entries = (Ok tt, w') /\
    names w' !! u "b" = None /\ is_Some (names w' !! u "a").
Proof.
  destruct (eviction_oldest_first listing tiny listing_perm quiet three_entries 1
    ltac:(vm_compute; reflexivity) quiet_calm
    three_mtimes three_sizes) as (w' & E & _).
  exists w'. split; [exact E|].
  assert (w' = after (_maybe_evict listing tiny quiet three_entries)) as -> by (by rewrite E).
  vm_compute. split; [reflexivity|by eexists].
Defined.

Definition storing_third : result exn unit * world :=
  set toy_digest listing tiny quiet (fofZ 10) 1 (u "k") (u "hello") None three_entries.

Lemma three_wf : wf_world three_entries.
Proof.
  intros q i E. unfold three_entries in *. simpl in *.
  rewrite !lookup_insert_Some, lookup_singleton_Some in E.
  destruct E as [[_ <-]|[_ [[_ <-]|[_ [_ <-]]]]]; by eexists.
Qed.

Lemma entry_limit_witness :
  exists m, storing_third = (Err (BackendE (backend_error m PERMANENT)), three_entries).
Proof.
  destruct (entry_limit toy_digest listing tiny listing_perm quiet (fofZ 10) 1 (u "k")
    (u "hello") (mkProducer [] false) None three_entries three_entries kpath
    ltac:(vm_compute; reflexivity) three_wf ltac:(vm_compute; reflexivity) quiet_calm
    ltac:(vm_compute; reflexivity) ltac:(vm_compute; reflexivity) ltac:(vm_compute; exact I))
    as [_ G].
  unfold storing_third. apply G; [vm_compute; reflexivity|vm_compute; discriminate
    |vm_compute; discriminate|reflexivity].
Defined.

Lemma stream_equals_set_witness :
  exists w', set_streaming toy_digest listing default_config quiet (fofZ 10) 1 (u "k")
    (mkProducer [PWrite (u "hel"); PWrite (u "lo")] false) None one_entry = (Ok tt, w') /\
    (get toy_digest quiet (fofZ 70) (u "k") w').1 = Ok (Some (u "hello")).
Proof.
  destruct (stream_equals_set toy_digest listing default_config quiet (fofZ 10) 1 (u "k")
    [u "hel"; u "lo"] None kpath 0 (u "CK" ++ [1; 0; 0; 0] ++ be_bytes 8 0) one_entry
    ltac:(vm_compute; reflexivity) one_entry_wf
    ltac:(constructor; [apply quiet_calm|vm_compute; (reflexivity || discriminate)..]))
    as (w' & _ & E & _).
  exists w'. split; [exact E|].
  assert (w' = after (set_streaming toy_digest listing default_config quiet (fofZ 10) 1 (u "k")
    (mkProducer [PWrite (u "hel"); PWrite (u "lo")] false) None one_entry)) as ->
    by (change ([PWrite (u "hel"); PWrite (u "lo")]) with (map PWrite [u "hel"; u "lo"]); by rewrite E).
  vm_compute. reflexivity.
Defined.
