(* ===== verification/FileSafety.v ===== *)
(** The file backend under arbitrary system faults: no descriptor leaks, a
    reader can only unlink its own entry, and the payload of a file never
    changes once committed, so a memory-mapped view stays valid. *)
From Stdlib Require Import ZArith Lia SpecFloat.
From stdpp Require Import base list numbers option gmap strings relations.
From S2P Require Import Prelude PyFloat Errors Bytes FileSystem FileBackend FileReaders FileWriters.

Local Open Scope Z_scope.
Local Open Scope fs_scope.

(** ** What operations may change *)

(** Every regular file keeps its payload and its size. *)
Definition stable (w w' : world) : Prop :=
  forall i d mt, nodes w !! i = Some (Reg d mt) ->
    exists d' mt', nodes w' !! i = Some (Reg d' mt') /\ payload d' = payload d /\ zlen d' = zlen d.

#[export] Instance stable_preorder : PreOrder stable.
Proof.
  split; [intros w i d mt E; by exists d, mt|].
  intros w1 w2 w3 S1 S2 i d mt E. destruct (S1 i d mt E) as (d1 & mt1 & E1 & P1 & L1).
  destruct (S2 i d1 mt1 E1) as (d2 & mt2 & E2 & P2 & L2). exists d2, mt2.
  split; [done|]. split; congruence.
Qed.

Lemma stable_nodes w w' : (forall i nd, nodes w !! i = Some nd -> nodes w' !! i = Some nd) -> stable w w'.
Proof. intros H i d mt E. exists d, mt. by rewrite (H i _ E). Qed.

(** The effect of a reader of path [p]. *)
Definition touched (p : pystr) (w w' : world) : Prop :=
  fds w' = fds w /\ stable w w' /\ (names w' = names w \/ names w' = base.delete p (names w)).

Lemma touched_refl p w : touched p w w.
Proof. split; [done|]. split; [reflexivity|by left]. Qed.

Lemma touched_delete p w : touched p w (upd_names (base.delete p) w).
Proof. split; [done|]. split; [by apply stable_nodes|by right]. Qed.

(** A body keeps its descriptor open, or answers with it closed. *)
Definition body_safe {A} (p : pystr) (m : M (bool * A)) (w : world) (ino : nat) : Prop :=
  forall off, match m (opened w ino off) with
  | (Ok (true, _), w') => touched p w w'
  | (_, w') => exists w1 off', w' = opened w1 ino off' /\ touched p w w1
  end.

Lemma opened_close_other w w1 ino off :
  fds w1 = fds w -> os_close (fresh (dom (fds w))) (opened w1 ino off) = (Ok tt, w1).
Proof. intros E. rewrite <- E. apply opened_close. Qed.

Lemma closing_safe {A} p (m : M (bool * A)) w ino off :
  body_safe p m w ino -> touched p w (closing (fresh (dom (fds w))) m (opened w ino off)).2.
Proof.
  intros B. specialize (B off). unfold closing. destruct (m (opened w ino off)) as [[[[] a]|x] w'].
  - exact B.
  - destruct B as (w1 & off' & -> & T). unfold bind. by rewrite opened_close_other by apply T.
  - destruct B as (w1 & off' & -> & T). unfold bind. by rewrite opened_close_other by apply T.
Qed.

Lemma open_cases e p w :
  (exists n, os_open e p w = (Err (OSErr n), w)) \/
  exists ino, os_open e p w = (Ok (fresh (dom (fds w))), opened w ino 0).
Proof.
  unfold os_open, bind, sys. destruct (fault e SysOpen) as [n|]; [left; by exists n|]. unfold mret.
  destruct (names w !! p) as [ino|]; [|left; by eexists].
  destruct (nodes w !! ino) as [[]|]; [right; by exists ino|left; by eexists|right; by exists ino|left; by eexists].
Qed.

Lemma missing_or_const {A} e what op key (a : A) x w0 :
  exists o, missing_or e what op key a x w0 = (o, w0).
Proof. unfold missing_or. destruct x as [[]|?|?|]; by eexists. Qed.

Lemma unlink_touched e p w w' : touched p w w' -> touched p w (_safe_unlink e p w').2.
Proof.
  intros (F & S & N). destruct (safe_unlink_cases e p w') as [E|E]; rewrite E; [done|].
  split; [done|]. split; [etransitivity; [exact S|by apply stable_nodes]|]. simpl. right.
  destruct N as [->| ->]; [done|apply delete_delete_eq].
Qed.

Section Safety.
Context (blake2b : Z -> pybytes -> pybytes).

(** Every reader of the form open, lock, read, close. *)
Lemma reader_safe {A} e key w (body : pystr -> nat -> M (bool * A)) excl what op (a : A) p :
  _key_to_path blake2b key w = (Ok p, w) ->
  (forall ino, body_safe p (body p (fresh (dom (fds w)))) w ino) ->
  touched p w
    ((path <-- _key_to_path blake2b key ;;
      catch
        (fd <-- os_open e path ;;
         closing fd
           (_acquire_file_lock e fd excl ;;;
            finally (body path fd) (_release_file_lock fd)))
        (missing_or e what op key a)) w).2.
Proof.
  intros Hp B. rewrite (bind_ok _ _ _ _ _ Hp). unfold catch.
  assert (T : forall o w', touched p w w' ->
    touched p w (match o with Ok b => (Ok b, w') | Err x => missing_or e what op key a x w' end).2).
  { intros [b|x] w' T; [done|]. destruct (missing_or_const e what op key a x w') as [o ->]. done. }
  destruct (open_cases e p w) as [[n E]|[ino E]].
  { rewrite (bind_err _ _ _ _ _ E). apply (T (Err (OSErr n)) w), touched_refl. }
  rewrite (bind_ok _ _ _ _ _ E).
  pose proof (closing_safe p (_acquire_file_lock e (fresh (dom (fds w))) excl ;;;
    finally (body p (fresh (dom (fds w)))) (_release_file_lock (fresh (dom (fds w))))) w ino 0) as C.
  revert C. destruct (closing _ _ _) as [o w']. intros C. apply (T o w'), C.
  intros off. unfold bind. destruct (lock_const e (fresh (dom (fds w))) excl (opened w ino off)) as [[[]|x] ->].
  - rewrite release_finally. apply B.
  - exists w, off. split; [done|apply touched_refl].
Qed.

(** Under faults a read either fails or returns a prefix of the file. *)
Lemma read_cases e w ino off n :
  (exists k, os_read e (fresh (dom (fds w))) n (opened w ino off) = (Err (OSErr k), opened w ino off)) \/
  exists d mt off', nodes w !! ino = Some (Reg d mt) /\
    os_read e (fresh (dom (fds w))) n (opened w ino off) =
      (Ok (slice off (off + Z.min n MAX_RW_COUNT) d), opened w ino off').
Proof.
  unfold os_read, bind, sys. destruct (fault e SysRead) as [k|]; [left; by exists k|]. unfold mret.
  destruct (nodes w !! ino) as [nd|] eqn:En.
  - rewrite (opened_node w ino off nd En). destruct nd as [d mt| |]; [right|left; by eexists..].
    exists d, mt. eexists. split; [done|]. f_equal. apply opened_again.
  - left. unfold fd_node, opened. simpl. rewrite lookup_insert_eq, En. by eexists.
Qed.

Lemma fstat_cases e w ino off :
  exists o, os_fstat_size e (fresh (dom (fds w))) (opened w ino off) = (o, opened w ino off).
Proof.
  unfold os_fstat_size, bind, sys. destruct (fault e SysFstat); [by eexists|]. unfold mret.
  destruct (fd_node _ _) as [[[? ?] []]|]; by eexists.
Qed.

Lemma drop_entry_safe {A} e p (a : A) w ino :
  body_safe p (drop_entry e (fresh (dom (fds w))) p a) w ino.
Proof.
  intros off. unfold drop_entry. rewrite (bind_ok _ _ _ _ _ (opened_close w ino off)).
  pose proof (unlink_touched e p w w (touched_refl p w)) as T. unfold bind.
  destruct (safe_unlink_cases e p w) as [E|E]; rewrite E in T |- *; exact T.
Qed.

Lemma ret_safe {A} p (a : A) w ino : body_safe p (mret (false, a)) w ino.
Proof. intros off. exists w, off. split; [done|apply touched_refl]. Qed.

Lemma read_safe {A} e p n (f : pybytes -> M (bool * A)) w ino :
  (forall d, body_safe p (f d) w ino) ->
  body_safe p (bs <-- os_read e (fresh (dom (fds w))) n ;; f bs) w ino.
Proof.
  intros Hf off. unfold bind. destruct (read_cases e w ino off n) as [[k ->]|(d & mt & off' & _ & ->)].
  - exists w, off. split; [done|apply touched_refl].
  - apply Hf.
Qed.

Lemma fstat_safe {A} e p (f : Z -> M (bool * A)) w ino :
  (forall d, body_safe p (f d) w ino) ->
  body_safe p (n <-- os_fstat_size e (fresh (dom (fds w))) ;; f n) w ino.
Proof.
  intros Hf off. unfold bind. destruct (fstat_cases e w ino off) as [[n|x] ->]; [apply Hf|].
  exists w, off. split; [done|apply touched_refl].
Qed.

Lemma lift_safe {A B} p (r : result py_exn B) (f : B -> M (bool * A)) w ino :
  (forall b, body_safe p (f b) w ino) -> body_safe p (b <-- lift r ;; f b) w ino.
Proof.
  intros Hf off. unfold bind, lift. destruct r as [b|x]; [apply Hf|].
  exists w, off. split; [done|apply touched_refl].
Qed.

(** Walk through the tests of a reader. *)
Ltac reader_tests :=
  repeat first
    [ apply drop_entry_safe | apply ret_safe
    | apply read_safe; intros ? | apply fstat_safe; intros ? | apply lift_safe; intros ?
    | match goal with |- body_safe _ (if ?c then _ else _) _ _ => destruct c end ].

Lemma get_touched e now key w p :
  _key_to_path blake2b key w = (Ok p, w) -> touched p w (get blake2b e now key w).2.
Proof. intros Hp. apply reader_safe; [done|]. intros ino. reader_tests. Qed.

Lemma exists_touched e now key w p :
  _key_to_path blake2b key w = (Ok p, w) -> touched p w (exists_ blake2b e now key w).2.
Proof. intros Hp. apply reader_safe; [done|]. intros ino. reader_tests. Qed.

Lemma get_ttl_touched e now key w p :
  _key_to_path blake2b key w = (Ok p, w) -> touched p w (get_ttl blake2b e now key w).2.
Proof. intros Hp. apply reader_safe; [done|]. intros ino. cbv zeta. reader_tests. Qed.

(** ** [refresh_ttl] writes eight bytes of the header *)

Lemma stable_splice w ino d mt bs mt' :
  nodes w !! ino = Some (Reg d mt) -> 14 <= zlen d -> zlen bs <= 8 ->
  touched [] w (upd_nodes (insert ino (Reg (splice 6 bs d) mt')) w).
Proof.
  intros En Hd Hb. split; [done|]. split; [|by left]. intros i d0 mt0 Ei. simpl.
  destruct (decide (i = ino)) as [->|Hi].
  - rewrite lookup_insert_eq. eexists _, _. split; [reflexivity|].
    rewrite Ei in En. injection En as -> ->. split.
    + unfold payload. apply splice_drop; unfold HEADER_SIZE; lia.
    + apply splice_length; lia.
  - rewrite lookup_insert_ne by done. by exists d0, mt0.
Qed.

Lemma slice_length a b (l : pybytes) : zlen (slice a b l) <= zlen l.
Proof. unfold slice, zlen. rewrite length_take, length_drop. lia. Qed.

Lemma refresh_write_safe e p w ino d mt x :
  nodes w !! ino = Some (Reg d mt) -> 14 <= zlen d ->
  body_safe p
    (os_lseek (fresh (dom (fds w))) 6 ;;;
     packed <-- lift (pack_Q x) ;;
     os_write e (fresh (dom (fds w))) packed ;;;
     os_fsync e ;;;
     mret (false, true)) w ino.
Proof.
  intros En Hd off. rewrite (bind_ok _ _ _ _ _ (lseek_opened w ino off 6)).
  assert (Stay : exists w1 off', opened w ino 6 = opened w1 ino off' /\ touched p w w1)
    by (exists w, 6; split; [done|apply touched_refl]).
  unfold bind, lift. destruct (pack_Q x) as [ts|] eqn:Ep; [|exact Stay].
  apply pack_Q_ok in Ep as (Lt & _). unfold os_write, bind, sys.
  destruct (fault e SysWrite); [exact Stay|]. unfold mret, put_at.
  rewrite (opened_node w ino 6 _ En).
  set (bs := take _ ts).
  assert (Hb : zlen bs <= 8) by (unfold bs, zlen; rewrite length_take; lia).
  destruct (stable_splice w ino d mt bs (wtime e) En Hd Hb) as (F & S & N).
  assert (Out : forall b : bool, exists w1 off',
    upd_fds (insert (fresh (dom (fds w))) (ino, 6 + zlen bs))
      (upd_nodes (insert ino (Reg (splice 6 bs d) (wtime e))) (opened w ino 6))
      = opened w1 ino off' /\ touched p w w1).
  { intros _. eexists (upd_nodes (insert ino (Reg (splice 6 bs d) (wtime e))) w), (6 + zlen bs).
    split; [apply world_eq; try done; unfold opened; simpl; by rewrite insert_insert_eq|].
    split; [done|]. split; [done|]. by left. }
  unfold os_fsync, sys. destruct (fault e SysFsync); exact (Out true).
Qed.

Lemma refresh_touched e now now' key ttl w p :
  _key_to_path blake2b key w = (Ok p, w) ->
  touched p w (refresh_ttl blake2b e now now' key ttl w).2.
Proof.
  intros Hp. unfold refresh_ttl.
  destruct (expiry_const now (Some ttl) w) as [[x|x] Ex];
    [rewrite (bind_ok _ _ _ _ _ Ex)|rewrite (bind_err _ _ _ _ _ Ex); apply touched_refl].
  apply reader_safe; [done|]. intros ino off. unfold bind at 1.
  destruct (read_cases e w ino off HEADER_SIZE) as [[k ->]|(d & mt & off' & En & ->)].
  { exists w, off. split; [done|apply touched_refl]. }
  set (h := slice _ _ d). destruct ((zlen h <? HEADER_SIZE) || bad_magic h) eqn:T; [apply drop_entry_safe|].
  destruct (expired now' h); [apply drop_entry_safe|].
  apply refresh_write_safe with d mt; [done|].
  apply orb_false_iff in T as [T _]. apply Z.ltb_ge in T. pose proof (slice_length off (off + Z.min HEADER_SIZE MAX_RW_COUNT) d) as L.
  fold h in L. unfold HEADER_SIZE in T. lia.
Qed.

Lemma delete_touched e key w p :
  _key_to_path blake2b key w = (Ok p, w) -> touched p w (delete blake2b e key w).2.
Proof.
  intros Hp. unfold delete. rewrite (bind_ok _ _ _ _ _ Hp). unfold catch, bind.
  destruct (unlink_cases e p w) as [[n ->]| ->]; [|apply touched_delete].
  destruct n; apply touched_refl.
Qed.

(** ** Memory-mapped reads *)

(** The handle maps all of a committed file. *)
Definition maps (h : mmap_handle) (w : world) : Prop :=
  h_open h = true /\ exists d mt, nodes w !! h_ino h = Some (Reg d mt) /\ h_size h = zlen d.

Definition buffer_safe (p : pystr) (m : M (option mmap_handle)) (w : world) (ino : nat) : Prop :=
  forall off, exists o w1 off', m (opened w ino off) = (o, opened w1 ino off') /\ touched p w w1 /\
    match o with Ok (Some h) => maps h w1 | _ => True end.

Lemma buffer_unlink e p w ino : buffer_safe p (_safe_unlink e p ;;; mret None) w ino.
Proof.
  intros off. unfold bind. destruct (safe_unlink_cases e p (opened w ino off)) as [-> | ->].
  - exists (Ok None), w, off. split; [done|]. split; [apply touched_refl|done].
  - exists (Ok None), (upd_names (base.delete p) w), off. split; [done|].
    split; [apply touched_delete|done].
Qed.

Lemma buffer_ret p w ino : buffer_safe p (mret None) w ino.
Proof. intros off. exists (Ok None), w, off. split; [done|]. split; [apply touched_refl|done]. Qed.

Lemma buffer_err p w ino x off : exists o w1 off',
  (Err x : result exn (option mmap_handle), opened w ino off) = (o, opened w1 ino off') /\
  touched p w w1 /\ match o with Ok (Some h) => maps h w1 | _ => True end.
Proof. exists (Err x), w, off. split; [done|]. split; [apply touched_refl|done]. Qed.

Lemma buffer_map_safe e p w ino d mt :
  nodes w !! ino = Some (Reg d mt) ->
  buffer_safe p
    (sys e SysMmap ;;;
     i <-- reads (fun w0 => default O (fst <$> fds w0 !! fresh (dom (fds w)))) ;;
     mret (Some (mkHandle i (zlen d) true))) w ino.
Proof.
  intros En off. unfold bind, sys. destruct (fault e SysMmap); [apply buffer_err|].
  unfold mret, reads, opened. simpl. rewrite lookup_insert_eq. simpl.
  eexists _, w, off. split; [reflexivity|]. split; [apply touched_refl|].
  split; [done|]. by exists d, mt.
Qed.

Lemma buffer_body_safe e now p w ino :
  buffer_safe p
    (_acquire_file_lock e (fresh (dom (fds w))) false ;;;
     finally
       (st_size <-- os_fstat_size e (fresh (dom (fds w))) ;;
        if st_size <? HEADER_SIZE then _safe_unlink e p ;;; mret None
        else
          header <-- os_read e (fresh (dom (fds w))) HEADER_SIZE ;;
          if bad_magic header then _safe_unlink e p ;;; mret None
          else if expired now header then _safe_unlink e p ;;; mret None
          else if (st_size <=? HEADER_SIZE) || (MMAP_MAX_BYTES <? st_size) then mret None
          else
            sys e SysMmap ;;;
            i <-- reads (fun w0 => default O (fst <$> fds w0 !! fresh (dom (fds w)))) ;;
            mret (Some (mkHandle i st_size true)))
       (_release_file_lock (fresh (dom (fds w))))) w ino.
Proof.
  intros off. unfold bind at 1.
  destruct (lock_const e (fresh (dom (fds w))) false (opened w ino off)) as [[[]|x] ->]; [|apply buffer_err].
  rewrite release_finally. unfold bind at 1.
  destruct (os_fstat_size e (fresh (dom (fds w))) (opened w ino off)) as [r wf] eqn:Ef.
  assert (wf = opened w ino off) as -> by (destruct (fstat_cases e w ino off) as [o E]; congruence).
  destruct r as [n|x]; [|apply buffer_err].
  destruct (n <? HEADER_SIZE); [apply buffer_unlink|]. unfold bind at 1.
  destruct (read_cases e w ino off HEADER_SIZE) as [[k ->]|(d & mt & off' & En & ->)]; [apply buffer_err|].
  destruct (bad_magic _); [apply buffer_unlink|].
  destruct (expired _ _); [apply buffer_unlink|].
  destruct (_ || _); [apply buffer_ret|].
  assert (n = zlen d) as ->; [|by apply buffer_map_safe with mt].
  unfold os_fstat_size, bind, sys in Ef. destruct (fault e SysFstat); [done|]. unfold mret in Ef.
  rewrite (opened_node w ino off _ En) in Ef. by simplify_eq.
Qed.

Lemma get_buffer_touched e now key w p r w' :
  _key_to_path blake2b key w = (Ok p, w) -> get_buffer blake2b e now key w = (r, w') ->
  touched p w w' /\ forall h, r = Ok (Some h) -> maps h w'.
Proof.
  intros Hp. unfold get_buffer. rewrite (bind_ok _ _ _ _ _ Hp). unfold bind at 1.
  unfold catch at 1. unfold bind at 1.
  destruct (open_cases e p w) as [[n E]|[ino E]]; rewrite E.
  { destruct n; intros [= <- <-]; (split; [apply touched_refl|done]). }
  unfold mret at 1. unfold finally at 1, catch.
  destruct (buffer_body_safe e now p w ino 0) as (o & w1 & off' & B & T & H). rewrite B.
  destruct o as [a|x].
  - rewrite opened_close_other by apply T. intros [= <- <-]. split; [exact T|].
    intros h [= ->]. exact H.
  - assert (X : forall y, exists z, (match y with
        | OSErr n => raise (os_failure e (u "Failed to mmap cache file") (u "get_buffer") (Some key) n false)
        | _ => raise y end : M (option mmap_handle)) (opened w1 ino off') = (Err z, opened w1 ino off')).
    { intros [] ; by eexists. }
    destruct (X x) as [z ->]. rewrite opened_close_other by apply T. intros [= <- <-].
    split; [exact T|done].
Qed.

(** ** Any sequence of calls *)

Context (iterdir : gmap pystr nat -> list (pystr * nat)).
Context (cfg : FileBackendConfig).

(** One call of a method, whatever the system does and whatever it returns. *)
Inductive call (w : world) : world -> Prop :=
  | call_init e now : call w (init iterdir e now w).2
  | call_get e now key : call w (get blake2b e now key w).2
  | call_get_buffer e now key : call w (get_buffer blake2b e now key w).2
  | call_set e now ns key v ttl : call w (set blake2b iterdir cfg e now ns key v ttl w).2
  | call_stream e now ns key pr ttl : call w (set_streaming blake2b iterdir cfg e now ns key pr ttl w).2
  | call_delete e key : call w (delete blake2b e key w).2
  | call_exists e now key : call w (exists_ blake2b e now key w).2
  | call_get_ttl e now key : call w (get_ttl blake2b e now key w).2
  | call_refresh e now now' key ttl : call w (refresh_ttl blake2b e now now' key ttl w).2.

Lemma key_path_cases key w :
  (exists p, _key_to_path blake2b key w = (Ok p, w)) \/
  exists x, _key_to_path blake2b key w = (Err x, w).
Proof.
  unfold _key_to_path, bind, lift. destruct (utf8_encode key); [left|right]; by eexists.
Qed.

(** No descriptor is left open and committed payloads stay. *)
Definition safe (w w' : world) : Prop := fds w' = fds w /\ stable w w'.

Lemma safe_refl w : safe w w.
Proof. by split. Qed.

Lemma safe_trans w1 w2 w3 : safe w1 w2 -> safe w2 w3 -> safe w1 w3.
Proof. intros [F1 S1] [F2 S2]. split; [congruence|by etransitivity]. Qed.

Lemma touched_safe p w w' : touched p w w' -> safe w w'.
Proof. intros (F & S & _). by split. Qed.

Lemma shrunk_safe w w' : shrunk w w' -> safe w w'.
Proof. intros (N & F & _). split; [done|]. apply stable_nodes. by rewrite N. Qed.

Lemma committed_safe p w d mt : safe w (committed p w d mt).
Proof.
  split; [done|]. apply stable_nodes. intros i nd Hi. simpl.
  rewrite lookup_insert_ne; [done|]. intros <-. by rewrite fresh_ino in Hi.
Qed.

Lemma harmless_safe e t b w w' : harmless e t b w w' -> safe w w'.
Proof. intros [(F & _ & D) _]. split; [done|]. by apply stable_nodes. Qed.

Lemma cleanup_safe e now w : safe w (_cleanup_temp_files iterdir e now w).2.
Proof.
  unfold _cleanup_temp_files. destruct (fault e SysIterdir); [apply safe_refl|].
  generalize (iterdir (names w)). intros l. revert w. induction l as [|x l IH]; intros w; [apply safe_refl|].
  simpl. unfold bind at 1.
  assert (C : exists w1, cleanup_temp e now x w = (Ok tt, w1) /\ safe w w1).
  { unfold cleanup_temp. destruct (negb _); [exists w; split; [done|apply safe_refl]|].
    destruct (fault e _); [exists w; split; [done|apply safe_refl]|].
    destruct (nodes w !! x.2) as [[d mt| |]|]; try (exists w; split; [done|apply safe_refl]).
    destruct (fgtZ _ _); [|exists w; split; [done|apply safe_refl]].
    destruct (safe_unlink_cases e x.1 w) as [-> | ->]; eexists; (split; [done|]);
      [apply safe_refl|apply shrunk_safe, delete_shrunk]. }
  destruct C as (w1 & -> & S). eapply safe_trans; [exact S|apply IH].
Qed.

Lemma call_safe w w' : is_Ok (target_count cfg) = true -> call w w' -> safe w w'.
Proof.
  intros Ht Hc.
  assert (K : forall {A} key (f : pystr -> M A),
    (forall p, _key_to_path blake2b key w = (Ok p, w) -> safe w (bind (_key_to_path blake2b key) f w).2) ->
    safe w (bind (_key_to_path blake2b key) f w).2).
  { intros A key f Hf. destruct (key_path_cases key w) as [[p Hp]|[x Hx]]; [by eapply Hf|].
    rewrite (bind_err _ _ _ _ _ Hx). apply safe_refl. }
  destruct Hc as [e now|e now key|e now key|e now ns key v ttl|e now ns key pr ttl|e key|e now key|e now key|e now now' key ttl].
  - unfold init, bind, catch, sys. destruct (fault e SysMkdir); [apply safe_refl|]. apply cleanup_safe.
  - apply K. intros p Hp. by eapply touched_safe, get_touched.
  - apply K. intros p Hp. destruct (get_buffer blake2b e now key w) as [r w'] eqn:E.
    pose proof (proj1 (get_buffer_touched e now key w p r w' Hp E)) as T.
    unfold get_buffer in E. rewrite E. by eapply touched_safe.
  - destruct (key_path_cases key w) as [[p Hp]|[x Hx]].
    + destruct (set blake2b iterdir cfg e now ns key v ttl w) as [o w'] eqn:E.
      destruct (set_outcome _ _ _ _ _ _ _ _ _ _ _ _ _ Ht Hp E)
        as [(? & _ & H)|(_ & _ & ? & ? & _ & _ & _ & _ & S)]; [by eapply harmless_safe|].
      eapply safe_trans; [apply committed_safe|by apply shrunk_safe].
    + unfold set. destruct (_ <? _); [apply safe_refl|]. rewrite (bind_err _ _ _ _ _ Hx). apply safe_refl.
  - destruct (key_path_cases key w) as [[p Hp]|[x Hx]].
    + destruct (set_streaming blake2b iterdir cfg e now ns key pr ttl w) as [o w'] eqn:E.
      destruct (stream_outcome _ _ _ _ _ _ _ _ _ _ _ _ _ Ht Hp E)
        as [(? & _ & H)|(_ & ? & ? & ? & ? & ? & _ & _ & _ & _ & _ & S)]; [by eapply harmless_safe|].
      eapply safe_trans; [apply committed_safe|by apply shrunk_safe].
    + unfold set_streaming. destruct (expiry_const now ttl w) as [[y|y] Ey];
        [rewrite (bind_ok _ _ _ _ _ Ey)|rewrite (bind_err _ _ _ _ _ Ey); apply safe_refl].
      unfold bind at 1, lift. destruct (_build_header y); [|apply safe_refl].
      rewrite (bind_err _ _ _ _ _ Hx). apply safe_refl.
  - apply K. intros p Hp. by eapply touched_safe, delete_touched.
  - apply K. intros p Hp. by eapply touched_safe, exists_touched.
  - apply K. intros p Hp. by eapply touched_safe, get_ttl_touched.
  - destruct (key_path_cases key w) as [[p Hp]|[x Hx]]; [by eapply touched_safe, refresh_touched|].
    unfold refresh_ttl. destruct (expiry_const now (Some ttl) w) as [[y|y] Ey];
      [rewrite (bind_ok _ _ _ _ _ Ey)|rewrite (bind_err _ _ _ _ _ Ey); apply safe_refl].
    rewrite (bind_err _ _ _ _ _ Hx). apply safe_refl.
Qed.

Lemma calls_safe w w' : is_Ok (target_count cfg) = true -> rtc call w w' -> safe w w'.
Proof. intros Ht. induction 1 as [w|w w1 w2 C _ IH]; [apply safe_refl|]. eapply safe_trans; [by apply call_safe|done]. Qed.

(** ** Properties *)

(** Every sequence of calls, under any faults of the operating system and
    any outcome, leaves exactly the descriptors open that were open before:
    each descriptor a method opens is closed once on every path. *)
Theorem no_descriptor_leak w w' :
  is_Ok (target_count cfg) = true -> rtc call w w' -> fds w' = fds w.
Proof. intros Ht R. apply (calls_safe w w' Ht R). Qed.

(** C21. A buffer handed out by [get_buffer] is the payload of the file it was
    opened on and keeps these very bytes whatever is called afterwards
    (overwriting, deleting, evicting or re-timing the same key included). *)
Theorem mapped_view_stable e now key w h w1 w2 :
  is_Ok (target_count cfg) = true ->
  get_buffer blake2b e now key w = (Ok (Some h), w1) -> rtc call w1 w2 ->
  exists d mt, nodes w1 !! h_ino h = Some (Reg d mt) /\
    view h w1 = Some (payload d) /\ view h w2 = Some (payload d).
Proof.
  intros Ht E R. destruct (key_path_cases key w) as [[p Hp]|[x Hx]].
  2:{ unfold get_buffer in E. by rewrite (bind_err _ _ _ _ _ Hx) in E. }
  destruct (get_buffer_touched e now key w p _ _ Hp E) as [_ M].
  destruct (M h eq_refl) as (Ho & d & mt & En & Hs). exists d, mt. split; [done|].
  destruct (calls_safe w1 w2 Ht R) as [_ S]. destruct (S _ _ _ En) as (d' & mt' & En' & P & L).
  unfold view. rewrite Ho, En, En', Hs.
  assert (W : forall l : pybytes, take (Z.to_nat (zlen l)) l = l)
    by (intros l; apply take_ge; unfold zlen; lia).
  rewrite W. split; [done|]. rewrite <- L, W. f_equal. exact P.
Qed.

End Safety.

(** ** Concrete runs *)

Definition list_all (m : gmap pystr nat) : list (pystr * nat) := map_to_list m.

(** A system on which every read fails. *)
Definition bad_disk : env :=
  mkEnv (fun s => match s with SysRead => Some EIO | _ => None end) None (fofZ 50)
    (fun _ => u "Input/output error") (fun _ => []) 7.

Definition read_failed : result exn (option pybytes) * world :=
  get toy_digest bad_disk (fofZ 20) (u "a") one_entry.

Lemma no_descriptor_leak_witness : is_Ok (read_failed.1) = false /\ fds (read_failed.2) = ∅.
Proof.
  split; [vm_compute; reflexivity|].
  apply (no_descriptor_leak toy_digest list_all default_config one_entry (read_failed.2)
    ltac:(vm_compute; reflexivity)).
  apply rtc_once. apply call_get.
Defined.

Definition mapped : result exn (option mmap_handle) * world :=
  get_buffer toy_digest quiet (fofZ 20) (u "a") one_entry.

Definition the_handle : mmap_handle := mkHandle 0 19 true.

Definition overwritten : world :=
  (set toy_digest list_all default_config quiet (fofZ 20) 1 (u "a") (u "other") None (mapped.2)).2.

Lemma mapped_view_stable_witness :
  mapped.1 = Ok (Some the_handle) /\ view the_handle overwritten = Some (u "value") /\
  (get toy_digest quiet (fofZ 20) (u "a") overwritten).1 = Ok (Some (u "other")).
Proof.
  split; [vm_compute; reflexivity|]. split; [|vm_compute; reflexivity].
  destruct (mapped_view_stable toy_digest list_all default_config quiet (fofZ 20) (u "a")
    one_entry the_handle (mapped.2) overwritten ltac:(vm_compute; reflexivity)
    ltac:(vm_compute; reflexivity)) as (d & mt & En & _ & V).
  - apply rtc_once. apply call_set.
  - rewrite V. vm_compute in En. injection En as <- _. vm_compute. reflexivity.
Defined.
