(* ===== verification/PyValue.v ===== *)
(** Python values as the key generators and the interop codec see them, and the
    order of Python strings and bytes.

    A value carries what the code inspects: an [Enum] member is its value, a
    path its POSIX text, a [UUID], [Decimal], [date] or [time] its text.  A
    [datetime] has its ISO text and, when it knows its offset, its distance
    from the epoch as the [timedelta] fields days, seconds, microseconds.  A set
    is its elements in iteration order. *)
From Stdlib Require Import ZArith Lia SpecFloat.
From stdpp Require Import base list numbers option strings sorting.
From S2P Require Import Prelude PyFloat.

Local Open Scope Z_scope.

(** Dictionary keys.  Keys of other types (floats, tuples, ...) are left out. *)
Inductive pykey :=
  | KStr (s : pystr)
  | KInt (z : Z)
  | KBytes (b : pybytes)
  | KNone.

(** What [tzinfo] says: absent, present without an offset, or an instant. *)
Inductive tzkind :=
  | Naive
  | NoOffset
  | Aware (days seconds microseconds : Z).

(** What the code reads of a NumPy array. *)
Record ndarray := mkArray {
  a_nbytes : Z;
  a_shape : list Z;
  a_dtype : pystr;
  a_content : pybytes  (* the elements, contiguous and little-endian *)
}.

Inductive pyval :=
  | PNone
  | PBool (b : bool)
  | PInt (z : Z)
  | PFloat (f : float)
  | PStr (s : pystr)
  | PBytes (b : pybytes)
  | PByteArray (b : pybytes)
  | PList (l : list pyval)
  | PTuple (l : list pyval)
  | PDict (l : list (pykey * pyval))
  | PSet (l : list pyval)
  | PEnum (v : pyval)
  | PPath (posix : pystr)
  | PUUID (s : pystr)
  | PDecimal (s : pystr)
  | PDatetime (tz : tzkind) (iso : pystr)
  | PDate (iso : pystr)
  | PTime (iso : pystr)
  | PArray (a : ndarray)
  | PPreEncoded (encoded_elements : list pybytes)
  | PObject (type_name : pystr).  (* any other object *)

Section Induction.
Context (P : pyval -> Prop).
Hypothesis Hnone : P PNone.
Hypothesis Hbool : forall b, P (PBool b).
Hypothesis Hint : forall z, P (PInt z).
Hypothesis Hfloat : forall f, P (PFloat f).
Hypothesis Hstr : forall s, P (PStr s).
Hypothesis Hbytes : forall b, P (PBytes b).
Hypothesis Hbytearray : forall b, P (PByteArray b).
Hypothesis Hlist : forall l, Forall P l -> P (PList l).
Hypothesis Htuple : forall l, Forall P l -> P (PTuple l).
Hypothesis Hdict : forall l, Forall (fun kv => P kv.2) l -> P (PDict l).
Hypothesis Hset : forall l, Forall P l -> P (PSet l).
Hypothesis Henum : forall v, P v -> P (PEnum v).
Hypothesis Hpath : forall s, P (PPath s).
Hypothesis Huuid : forall s, P (PUUID s).
Hypothesis Hdecimal : forall s, P (PDecimal s).
Hypothesis Hdatetime : forall tz s, P (PDatetime tz s).
Hypothesis Hdate : forall s, P (PDate s).
Hypothesis Htime : forall s, P (PTime s).
Hypothesis Harray : forall a, P (PArray a).
Hypothesis Hpre : forall l, P (PPreEncoded l).
Hypothesis Hobject : forall t, P (PObject t).

(** Induction through the lists and dictionaries a value holds. *)
Fixpoint pyval_deep (v : pyval) : P v :=
  let many := fix many (l : list pyval) : Forall P l :=
    match l with
    | [] => Forall_nil_2 P
    | x :: r => Forall_cons_2 P x r (pyval_deep x) (many r)
    end in
  let items := fix items (l : list (pykey * pyval)) : Forall (fun kv => P kv.2) l :=
    match l with
    | [] => Forall_nil_2 _
    | (k, x) :: r => Forall_cons_2 (fun kv => P kv.2) (k, x) r (pyval_deep x) (items r)
    end in
  match v with
  | PNone => Hnone | PBool b => Hbool b | PInt z => Hint z | PFloat f => Hfloat f
  | PStr s => Hstr s | PBytes b => Hbytes b | PByteArray b => Hbytearray b
  | PList l => Hlist l (many l) | PTuple l => Htuple l (many l)
  | PDict l => Hdict l (items l) | PSet l => Hset l (many l)
  | PEnum v => Henum v (pyval_deep v)
  | PPath s => Hpath s | PUUID s => Huuid s | PDecimal s => Hdecimal s
  | PDatetime tz s => Hdatetime tz s | PDate s => Hdate s | PTime s => Htime s
  | PArray a => Harray a | PPreEncoded l => Hpre l | PObject t => Hobject t
  end.
End Induction.

(** ** The order of strings and bytes: lexicographic *)

Fixpoint lex_leb (a b : list Z) : bool :=
  match a, b with
  | [], _ => true
  | _, [] => false
  | x :: a, y :: b => if x <? y then true else if y <? x then false else lex_leb a b
  end.

Definition lex_le (a b : list Z) : Prop := lex_leb a b = true.

#[export] Instance lex_le_dec a b : Decision (lex_le a b).
Proof. unfold lex_le. apply _. Defined.

Lemma lex_le_refl a : lex_le a a.
Proof. unfold lex_le. induction a as [|x a IH]; [done|]. simpl. by rewrite Z.ltb_irrefl. Qed.

#[export] Instance lex_le_total : Total lex_le.
Proof.
  intros a. unfold lex_le. induction a as [|x a IH]; intros [|y b]; simpl; try (by auto).
  destruct (Z.ltb_spec x y), (Z.ltb_spec y x); auto; try lia.
Qed.

#[export] Instance lex_le_trans : Transitive lex_le.
Proof.
  intros a. unfold lex_le. induction a as [|x a IH]; intros [|y b] [|z c]; simpl; try done.
  destruct (Z.ltb_spec x y), (Z.ltb_spec y z), (Z.ltb_spec x z); try done; try lia;
    destruct (Z.ltb_spec y x), (Z.ltb_spec z y), (Z.ltb_spec z x); try done; try lia.
  apply IH.
Qed.

#[export] Instance lex_le_antisymm : AntiSymm (=) lex_le.
Proof.
  intros a. unfold lex_le. induction a as [|x a IH]; intros [|y b]; simpl; try done.
  destruct (Z.ltb_spec x y), (Z.ltb_spec y x); try done; try lia.
  intros E1 E2. f_equal; [lia|by apply IH].
Qed.

(** [sorted(l)] for strings or bytes. *)
Definition sorted_strs (l : list (list Z)) : list (list Z) := merge_sort lex_le l.

Lemma sorted_strs_perm l : sorted_strs l ≡ₚ l.
Proof. apply merge_sort_Permutation. Qed.

(** Sorting forgets the order it is given. *)
Lemma sorted_strs_unique l l' : l ≡ₚ l' -> sorted_strs l = sorted_strs l'.
Proof.
  intros P. apply (Sorted_unique lex_le); [apply Sorted_merge_sort, _..|].
  by rewrite !sorted_strs_perm.
Qed.

(** The items of a dictionary all of whose keys are strings. *)
Definition str_items {A} (l : list (pykey * A)) : option (list (pystr * A)) :=
  mapM (fun kv => match kv.1 with KStr s => Some (s, kv.2) | _ => None end) l.

Fixpoint assoc {A} (k : pystr) (l : list (pystr * A)) : option A :=
  match l with
  | [] => None
  | (k', v) :: r => if decide (k = k') then Some v else assoc k r
  end.

(** The items in the order of their keys: [for k in sorted(v): ... v[k]]. *)
Definition sorted_items {A} (l : list (pystr * A)) : list (pystr * A) :=
  omap (fun k => match assoc k l with Some v => Some (k, v) | None => None end)
    (sorted_strs (map fst l)).

Lemma assoc_perm {A} k (l l' : list (pystr * A)) :
  NoDup (map fst l) -> l ≡ₚ l' -> assoc k l = assoc k l'.
Proof.
  intros Nd P. induction P as [|[k1 v1] l l' P IH|[k1 v1] [k2 v2] l|l1 l2 l3 P1 IH1 P2 IH2].
  - done.
  - simpl in *. apply list.NoDup_cons in Nd as [_ Nd]. destruct (decide (k = k1)); auto.
  - simpl in *. apply list.NoDup_cons in Nd as [N1 _].
    destruct (decide (k = k2)) as [E2|E2], (decide (k = k1)) as [E1|E1]; try done.
    subst. exfalso. apply N1. by left.
  - rewrite IH1 by done. apply IH2. change (NoDup (fst <$> l2)). by rewrite <- P1.
Qed.

(** A dictionary's items in key order do not depend on insertion order. *)
Lemma sorted_items_perm {A} (l l' : list (pystr * A)) :
  NoDup (map fst l) -> l ≡ₚ l' -> sorted_items l = sorted_items l'.
Proof.
  intros Nd P. unfold sorted_items.
  rewrite (sorted_strs_unique (map fst l) (map fst l')) by (change (fst <$> l ≡ₚ fst <$> l'); by rewrite P).
  induction (sorted_strs (map fst l')) as [|k r IH]; [done|]. cbn [omap list_omap].
  rewrite (assoc_perm k l l') by done. by rewrite IH.
Qed.

Lemma assoc_elem {A} k (v : A) l : assoc k l = Some v -> (k, v) ∈ l.
Proof.
  induction l as [|[k1 v1] l IH]; simpl; [done|].
  destruct (decide (k = k1)) as [->|]; [intros [= ->]; by left|right; auto].
Qed.

Lemma assoc_in {A} k (l : list (pystr * A)) : k ∈ map fst l -> exists v, assoc k l = Some v.
Proof.
  induction l as [|[k1 v1] l IH]; simpl; [by intros ?%not_elem_of_nil|].
  rewrite elem_of_cons. intros [->|Hk].
  - exists v1. by rewrite decide_True.
  - destruct (decide (k = k1)); eauto.
Qed.

Lemma sorted_items_elem {A} (l : list (pystr * A)) kv : kv ∈ sorted_items l -> kv ∈ l.
Proof.
  unfold sorted_items. rewrite list_elem_of_omap. intros (k & _ & E).
  destruct (assoc k l) as [v|] eqn:Ea; [|done]. injection E as <-. by apply assoc_elem.
Qed.

Lemma sorted_items_keys {A} (l : list (pystr * A)) :
  map fst (sorted_items l) = sorted_strs (map fst l).
Proof.
  unfold sorted_items.
  assert (G : forall ks, (forall k, k ∈ ks -> k ∈ map fst l) ->
    map fst (omap (fun k => match assoc k l with Some v => Some (k, v) | None => None end) ks) = ks).
  { induction ks as [|k ks IH]; intros Hk; [done|]. cbn [omap list_omap].
    destruct (assoc_in k l (Hk k ltac:(by left))) as [v Ev]. rewrite Ev. simpl. f_equal.
    apply IH. intros k' Hk'. apply Hk. by right. }
  apply G. intros k. by rewrite sorted_strs_perm.
Qed.

Lemma sorted_items_length {A} (l : list (pystr * A)) : length (sorted_items l) = length l.
Proof.
  rewrite <- (length_map fst (sorted_items l)), sorted_items_keys, sorted_strs_perm.
  apply length_map.
Qed.

(** ** Dictionaries under a map of their values *)

Definition on_value {K A B} (f : A -> B) (kv : K * A) : K * B := (kv.1, f kv.2).

Lemma str_items_map {A B} (f : A -> B) (l : list (pykey * A)) :
  str_items (map (fun kv => (kv.1, f kv.2)) l) = map (on_value f) <$> str_items l.
Proof.
  unfold str_items. induction l as [|[k v] l IH]; [done|]. simpl in *.
  destruct k; simpl; try done. rewrite IH. by destruct (mapM _ l).
Qed.

Lemma assoc_map {A B} (f : A -> B) k (l : list (pystr * A)) :
  assoc k (map (on_value f) l) = f <$> assoc k l.
Proof.
  induction l as [|[k' v] l IH]; [done|]. simpl. by destruct (decide (k = k')).
Qed.

Lemma sorted_items_map {A B} (f : A -> B) (l : list (pystr * A)) :
  sorted_items (map (on_value f) l) = map (on_value f) (sorted_items l).
Proof.
  unfold sorted_items. rewrite map_map. simpl.
  induction (sorted_strs (map (fun x => x.1) l)) as [|k r IH]; [done|]. cbn [omap list_omap].
  rewrite assoc_map. destruct (assoc k l); simpl; [f_equal; exact IH|exact IH].
Qed.

Lemma str_items_elem {A} (l : list (pykey * A)) its s v :
  str_items l = Some its -> (s, v) ∈ its -> (KStr s, v) ∈ l.
Proof.
  unfold str_items. revert its. induction l as [|[k x] l IH]; intros its; simpl.
  - intros [= <-]. by intros ?%not_elem_of_nil.
  - destruct k; simpl; try done. destruct (mapM _ l) as [r|] eqn:E; simpl; [|done].
    intros [= <-]. rewrite elem_of_cons. intros [[= -> ->]|Hin]; [by left|right]. by apply (IH r).
Qed.

Lemma str_items_length {A} (l : list (pykey * A)) its : str_items l = Some its -> length its = length l.
Proof. unfold str_items. intros E. symmetry. by eapply length_mapM. Qed.

Lemma str_items_keys {A} (l : list (pykey * A)) its :
  str_items l = Some its -> map fst l = map KStr (map fst its).
Proof.
  unfold str_items. revert its. induction l as [|[k x] l IH]; intros its; simpl.
  - by intros [= <-].
  - destruct k; simpl; try done. destruct (mapM _ l) as [r|] eqn:E; simpl; [|done].
    intros [= <-]. simpl. f_equal. by apply IH.
Qed.

Lemma assoc_nodup {A} (l : list (pystr * A)) k v :
  NoDup (map fst l) -> (k, v) ∈ l -> assoc k l = Some v.
Proof.
  induction l as [|[k1 v1] l IH]; simpl; intros Nd Hin; [by apply not_elem_of_nil in Hin|].
  apply list.NoDup_cons in Nd as [N1 Nd]. apply elem_of_cons in Hin as [[= -> ->]|Hin].
  - by rewrite decide_True.
  - rewrite decide_False; [by apply IH|]. intros ->. apply N1. by apply (list_elem_of_fmap_2 fst l (k1, v)).
Qed.

Lemma sorted_items_intro {A} (l : list (pystr * A)) kv :
  NoDup (map fst l) -> kv ∈ l -> kv ∈ sorted_items l.
Proof.
  destruct kv as [k v]. intros Nd Hin. unfold sorted_items. apply list_elem_of_omap. exists k.
  rewrite sorted_strs_perm. split; [by apply (list_elem_of_fmap_2 fst l (k, v))|].
  by rewrite (assoc_nodup l k v).
Qed.

Lemma str_items_intro {A} (l : list (pykey * A)) its k v :
  str_items l = Some its -> (k, v) ∈ l -> exists s, k = KStr s /\ (s, v) ∈ its.
Proof.
  unfold str_items. revert its. induction l as [|[k1 v1] l IH]; intros its; simpl.
  - intros _ Hin. by apply not_elem_of_nil in Hin.
  - destruct k1; simpl; try done. destruct (mapM _ l) as [r|]; simpl; [|done]. intros [= <-] Hin.
    apply elem_of_cons in Hin as [[= -> ->]|Hin]; [eexists; split; [done|by left]|].
    destruct (IH r eq_refl Hin) as (s' & -> & ?). eexists. split; [done|by right].
Qed.

Lemma u_code_points s : Forall is_code_point (u s).
Proof.
  induction s as [|a s IH]; simpl; [constructor|]. constructor; [|done].
  unfold is_code_point. pose proof (Ascii.nat_ascii_bounded a). lia.
Qed.

#[export] Hint Resolve u_code_points : pydb.
