(* ===== verification/Interop.v ===== *)
(** Interop mode ([src/src/cachekit/interop.py]): the canonical MessagePack
    encoder, the argument and value profiles, cross-SDK keys, the decoder's
    hook: definitions. *)
From Stdlib Require Import ZArith Lia SpecFloat.
From stdpp Require Import base list numbers option strings sorting.
From S2P Require Import Prelude PyFloat Bytes PyValue.

Local Open Scope Z_scope.
Local Open Scope py_scope.

Inductive ierr :=
  | InteropError
  | InteropDecodeError
  | ConfigurationError
  | PyErr (e : py_exn).

Definition UINT64_MAX : Z := 2 ^ 64 - 1.
Definition INT64_MIN : Z := - 2 ^ 63.

(** ** Encoder *)

(** [n.to_bytes(k, "big")] *)
Definition to_bytes (k : nat) (n : Z) : result ierr pybytes :=
  if (0 <=? n) && (n <? 256 ^ Z.of_nat k) then Ok (be_bytes k n) else Err (PyErr OverflowError).

(** [n.to_bytes(k, "big", signed=True)] *)
Definition to_bytes_signed (k : nat) (n : Z) : result ierr pybytes :=
  if (- (256 ^ Z.of_nat k / 2) <=? n) && (n <? 256 ^ Z.of_nat k / 2)
  then Ok (be_bytes k n) else Err (PyErr OverflowError).

(** A tag byte, a length or number, then a body. *)
Definition tagged (tag : Z) (r : result ierr pybytes) (body : pybytes) : result ierr pybytes :=
  b <-! r ; Ok (tag :: b ++ body).

Definition _encode_int (n : Z) : result ierr pybytes :=
  if negb ((INT64_MIN <=? n) && (n <=? UINT64_MAX)) then Err InteropError
  else if (0 <=? n) && (n <=? 0x7F) then Ok [n]
  else if (-32 <=? n) && (n <? 0) then Ok [Z.land n 0xFF]
  else if 0 <? n then
    if n <=? 0xFF then tagged 0xcc (to_bytes 1 n) []
    else if n <=? 0xFFFF then tagged 0xcd (to_bytes 2 n) []
    else if n <=? 0xFFFFFFFF then tagged 0xce (to_bytes 4 n) []
    else tagged 0xcf (to_bytes 8 n) []
  else if - 2 ^ 7 <=? n then tagged 0xd0 (to_bytes_signed 1 n) []
  else if - 2 ^ 15 <=? n then tagged 0xd1 (to_bytes_signed 2 n) []
  else if - 2 ^ 31 <=? n then tagged 0xd2 (to_bytes_signed 4 n) []
  else tagged 0xd3 (to_bytes_signed 8 n) [].

Definition _encode_str (s : pystr) : result ierr pybytes :=
  match utf8_encode s with
  | Err _ => Err InteropError
  | Ok b =>
      let n := zlen b in
      if n <=? 31 then Ok (Z.lor 0xA0 n :: b)
      else if n <=? 0xFF then tagged 0xd9 (to_bytes 1 n) b
      else if n <=? 0xFFFF then tagged 0xda (to_bytes 2 n) b
      else tagged 0xdb (to_bytes 4 n) b
  end.

Definition _encode_bin (b : pybytes) : result ierr pybytes :=
  let n := zlen b in
  if n <=? 0xFF then tagged 0xc4 (to_bytes 1 n) b
  else if n <=? 0xFFFF then tagged 0xc5 (to_bytes 2 n) b
  else tagged 0xc6 (to_bytes 4 n) b.

Definition _encode_array_header (n : Z) : result ierr pybytes :=
  if n <=? 15 then Ok [Z.lor 0x90 n]
  else if n <=? 0xFFFF then tagged 0xdc (to_bytes 2 n) []
  else tagged 0xdd (to_bytes 4 n) [].

Definition _encode_map_header (n : Z) : result ierr pybytes :=
  if n <=? 15 then Ok [Z.lor 0x80 n]
  else if n <=? 0xFFFF then tagged 0xde (to_bytes 2 n) []
  else tagged 0xdf (to_bytes 4 n) [].

(** [v.is_integer() and -(2^63) <= v < 2^64] *)
Definition collapses (f : float) : bool :=
  fis_integer f && fgeZ f (- 2 ^ 63) && fltZ f (2 ^ 64).

Definition _encode_float (collapse_floats : bool) (f : float) : result ierr pybytes :=
  if isnan f || isinf f then Err InteropError
  else if collapse_floats && collapses f then
    match ftrunc f with
    | Ok n => _encode_int n
    | Err e => Err (PyErr e)
    end
  else Ok (0xcb :: pack_d f).

(** One map item: the key, then the value already encoded (or its error). *)
Definition encode_item (kv : pystr * result ierr pybytes) : result ierr pybytes :=
  k <-! _encode_str kv.1 ; b <-! kv.2 ; Ok (k ++ b).

Fixpoint _encode (collapse_floats : bool) (v : pyval) : result ierr pybytes :=
  match v with
  | PNone => Ok [0xC0]
  | PBool b => Ok [if b then 0xC3 else 0xC2]
  | PInt n => _encode_int n
  | PFloat f => _encode_float collapse_floats f
  | PStr s => _encode_str s
  | PBytes b | PByteArray b => _encode_bin b
  | PPreEncoded es =>
      h <-! _encode_array_header (zlen es) ; Ok (h ++ concat es)
  | PList l | PTuple l =>
      h <-! _encode_array_header (zlen l) ;
      es <-! rmap (_encode collapse_floats) l ;
      Ok (h ++ concat es)
  | PDict l =>
      match str_items (map (fun kv => (kv.1, _encode collapse_floats kv.2)) l) with
      | None => Err InteropError
      | Some items =>
          h <-! _encode_map_header (zlen l) ;
          es <-! rmap encode_item (sorted_items items) ;
          Ok (h ++ concat es)
      end
  | _ => Err InteropError
  end.

Definition _encode_canonical (collapse_floats : bool) (v : pyval) : result ierr pybytes :=
  _encode collapse_floats v.

(** ** Argument profile *)

(** [sorted({...})]: deduplicated and sorted. *)
Definition sorted_set (l : list pybytes) : list pybytes := sorted_strs (remove_dups l).

(** A timestamp in seconds: integer microseconds, then one division. *)
Definition timestamp (days seconds microseconds : Z) : float :=
  fdiv (fofZ ((days * 86400 + seconds) * 10 ^ 6 + microseconds)) (fofZ 1000000).

(** An argument in the data model.  A [date] or [time] is not in it. *)
Fixpoint _normalize_arg (v : pyval) : result ierr pyval :=
  match v with
  | PNone | PBool _ | PInt _ | PFloat _ | PStr _ | PBytes _ | PByteArray _ => Ok v
  | PDatetime (Aware d s us) _ => Ok (PFloat (timestamp d s us))
  | PDatetime _ _ => Err InteropError
  | PUUID s => Ok (PStr s)
  | PSet l =>
      es <-! rmap (fun e => n <-! _normalize_arg e ; _encode_canonical true n) l ;
      Ok (PPreEncoded (sorted_set es))
  | PList l | PTuple l => l' <-! rmap _normalize_arg l ; Ok (PList l')
  | PDict l =>
      l' <-! rmap (fun kv =>
        match kv.1 with
        | KStr s => n <-! _normalize_arg kv.2 ; Ok (KStr s, n)
        | _ => Err InteropError
        end) l ;
      Ok (PDict l')
  | PEnum v => _normalize_arg v
  | PPath s => Ok (PStr s)
  | PDecimal s => Ok (PStr s)
  | _ => Err InteropError
  end.

Definition canonical_args_bytes (args : list pyval) : result ierr pybytes :=
  l <-! rmap _normalize_arg args ; _encode_canonical true (PList l).

(** ** Segments and keys *)

(** [[a-z0-9]] *)
Definition seg_start (c : Z) : bool := ((97 <=? c) && (c <=? 122)) || ((48 <=? c) && (c <=? 57)).

(** [[a-z0-9._-]] *)
Definition seg_char (c : Z) : bool := seg_start c || (c =? 46) || (c =? 95) || (c =? 45).

(** [SEGMENT_RE.fullmatch(s)] *)
Definition segment_ok (s : pystr) : bool :=
  match s with
  | [] => false
  | c :: r => seg_start c && forallb seg_char r && (zlen r <=? 63)
  end.

Definition validate_segment (segment : pyval) : result ierr pystr :=
  match segment with
  | PStr s => if segment_ok s then Ok s else Err InteropError
  | _ => Err InteropError
  end.

Definition validate_interop_config (operation namespace : pyval) (has_custom_key : bool)
  : result ierr (pystr * pystr) :=
  op <-! validate_segment operation ;
  match namespace with
  | PNone => Err InteropError
  | _ =>
      ns <-! validate_segment namespace ;
      if has_custom_key then Err InteropError else Ok (op, ns)
  end.

(** Values: temporal sentinels instead of timestamps. *)
Fixpoint _normalize_value (v : pyval) : result ierr pyval :=
  match v with
  | PNone | PBool _ | PInt _ | PFloat _ | PStr _ | PBytes _ | PByteArray _ => Ok v
  | PDatetime _ iso => Ok (PDict [(KStr (u "__datetime__"), PBool true); (KStr (u "value"), PStr iso)])
  | PDate iso => Ok (PDict [(KStr (u "__date__"), PBool true); (KStr (u "value"), PStr iso)])
  | PTime iso => Ok (PDict [(KStr (u "__time__"), PBool true); (KStr (u "value"), PStr iso)])
  | PList l | PTuple l => l' <-! rmap _normalize_value l ; Ok (PList l')
  | PDict l =>
      l' <-! rmap (fun kv =>
        match kv.1 with
        | KStr s => n <-! _normalize_value kv.2 ; Ok (KStr s, n)
        | _ => Err InteropError
        end) l ;
      Ok (PDict l')
  | _ => Err InteropError
  end.

Definition encode_interop_value (v : pyval) : result ierr pybytes :=
  n <-! _normalize_value v ; _encode_canonical false n.

Definition ends_with_z (s : pystr) : bool :=
  match last s with Some c => (c =? 90) || (c =? 122) | None => false end.

Definition _iso_utc (s : pystr) : pystr :=
  if ends_with_z s then take (length s - 1) s ++ u "+00:00" else s.

(** [obj.get(k)] on a dictionary. *)
Fixpoint dict_get {A} (k : pystr) (l : list (pykey * A)) : option A :=
  match l with
  | [] => None
  | (KStr k', v) :: r => if decide (k = k') then Some v else dict_get k r
  | _ :: r => dict_get k r
  end.

(** [obj.get(flag) is True and isinstance(obj.get("value"), str)] *)
Definition sentinel (flag : pystr) (l : list (pykey * pyval)) : option pystr :=
  match dict_get flag l, dict_get (u "value") l with
  | Some (PBool true), Some (PStr s) => Some s
  | _, _ => None
  end.

Section Interop.
Context (blake2b : Z -> pybytes -> pybytes).
(** [datetime.fromisoformat], [date.fromisoformat], [time.fromisoformat]. *)
Context (datetime_iso date_iso time_iso : pystr -> result py_exn pyval).
(** [msgpack.unpackb(raw, raw=False, strict_map_key=True)] without a hook. *)
Context (unpackb : pybytes -> option pyval).

Definition args_hash (args : list pyval) : result ierr pystr :=
  b <-! canonical_args_bytes args ; Ok (hexdigest (blake2b 32 b)).

Definition generate_interop_key (namespace operation : pystr) (args : list pyval) : result ierr pystr :=
  _ <-! validate_segment (PStr namespace) ;
  _ <-! validate_segment (PStr operation) ;
  h <-! args_hash args ;
  Ok (namespace ++ u ":" ++ operation ++ u ":" ++ h).

(** The [object_hook]. *)
Definition _revive_sentinels (l : list (pykey * pyval)) : result py_exn pyval :=
  match sentinel (u "__datetime__") l with
  | Some s => datetime_iso (_iso_utc s)
  | None =>
      match sentinel (u "__date__") l with
      | Some s => date_iso s
      | None =>
          match sentinel (u "__time__") l with
          | Some s => time_iso (_iso_utc s)
          | None => Ok (PDict l)
          end
      end
  end.

(** [unpackb] calls the hook on every map, innermost first. *)
Fixpoint revive (v : pyval) : result py_exn pyval :=
  match v with
  | PList l => l' <-! rmap revive l ; Ok (PList l')
  | PDict l =>
      l' <-! rmap (fun kv => x <-! revive kv.2 ; Ok (kv.1, x)) l ;
      _revive_sentinels l'
  | _ => Ok v
  end.

Definition decode_interop_value (raw : pybytes) : result ierr pyval :=
  if bool_decide (take 2 raw = u "CK") then Err InteropDecodeError
  else match unpackb raw with
       | None => Err InteropDecodeError
       | Some v =>
           match revive v with
           | Ok x => Ok x
           | Err _ => Err InteropDecodeError
           end
       end.

End Interop.

(** A backend's [key_prefix], then its [_key_prefix]: the first that is truthy. *)
Definition ensure_interop_backend_compatible (backend : option (option pystr * option pystr))
  : result ierr unit :=
  match backend with
  | None => Ok tt
  | Some (p, q) =>
      let truthy (s : option pystr) := match s with Some [] | None => false | _ => true end in
      if truthy p || truthy q then Err ConfigurationError else Ok tt
  end.
