(* ===== verification/Msgpack.v ===== *)
(** A reference MessagePack reader, and what the canonical encoder of
    [Interop] promises to it: whatever it writes is read back, with nothing
    left over and nothing lost. *)
From Stdlib Require Import ZArith Lia SpecFloat.
From stdpp Require Import base list numbers option strings sorting.
From S2P Require Import Prelude PyFloat Bytes PyValue Interop.

Local Open Scope Z_scope.

(** The values of a MessagePack document. *)
Inductive mval :=
  | MNil
  | MBool (b : bool)
  | MInt (z : Z)
  | MFloat (f : float)
  | MStr (s : pystr)
  | MBin (b : pybytes)
  | MArr (l : list mval)
  | MMap (l : list (pystr * mval)).

(** ** Reader *)

(** The next [n] bytes. *)
Definition take_n (n : Z) (bs : pybytes) : option (pybytes * pybytes) :=
  if n <=? zlen bs then Some (take (Z.to_nat n) bs, drop (Z.to_nat n) bs) else None.

(** A big-endian length or number of [k] bytes. *)
Definition take_num (k : nat) (bs : pybytes) : option (Z * pybytes) :=
  match take_n (Z.of_nat k) bs with Some (x, r) => Some (be_val x, r) | None => None end.

Definition signed (k : nat) (n : Z) : Z :=
  if n <? 256 ^ Z.of_nat k / 2 then n else n - 256 ^ Z.of_nat k.

Definition read_str (n : Z) (bs : pybytes) : option (mval * pybytes) :=
  match take_n n bs with
  | Some (x, r) => match utf8_decode x with Some s => Some (MStr s, r) | None => None end
  | None => None
  end.

Definition read_bin (n : Z) (bs : pybytes) : option (mval * pybytes) :=
  match take_n n bs with Some (x, r) => Some (MBin x, r) | None => None end.

Section Many.
Context (dec : pybytes -> option (mval * pybytes)).
Fixpoint read_many (n : nat) (bs : pybytes) : option (list mval * pybytes) :=
  match n with
  | O => Some ([], bs)
  | S n =>
      match dec bs with
      | Some (x, r) =>
          match read_many n r with Some (xs, r') => Some (x :: xs, r') | None => None end
      | None => None
      end
  end.
Fixpoint read_items (n : nat) (bs : pybytes) : option (list (pystr * mval) * pybytes) :=
  match n with
  | O => Some ([], bs)
  | S n =>
      match dec bs with
      | Some (MStr k, r) =>
          match dec r with
          | Some (x, r') =>
              match read_items n r' with
              | Some (xs, r'') => Some ((k, x) :: xs, r'')
              | None => None
              end
          | None => None
          end
      | _ => None
      end
  end.
Definition read_arr (n : Z) (bs : pybytes) : option (mval * pybytes) :=
  match read_many (Z.to_nat n) bs with Some (l, r) => Some (MArr l, r) | None => None end.
Definition read_map (n : Z) (bs : pybytes) : option (mval * pybytes) :=
  match read_items (Z.to_nat n) bs with Some (l, r) => Some (MMap l, r) | None => None end.
End Many.

(** A length, then what it counts. *)
Definition counted {A} (k : nat) (f : Z -> pybytes -> option A) (bs : pybytes) : option A :=
  match take_num k bs with Some (n, r) => f n r | None => None end.

Definition read_int (k : nat) (sgn : bool) (bs : pybytes) : option (mval * pybytes) :=
  counted k (fun n r => Some (MInt (if sgn then signed k n else n), r)) bs.

(** One document; the fuel bounds the nesting. *)
Fixpoint mdecode (fuel : nat) (bs : pybytes) : option (mval * pybytes) :=
  match fuel, bs with
  | S f, t :: r =>
      if t <? 0x80 then Some (MInt t, r)
      else if t <? 0x90 then read_map (mdecode f) (t - 0x80) r
      else if t <? 0xa0 then read_arr (mdecode f) (t - 0x90) r
      else if t <? 0xc0 then read_str (t - 0xa0) r
      else if t =? 0xc0 then Some (MNil, r)
      else if t =? 0xc2 then Some (MBool false, r)
      else if t =? 0xc3 then Some (MBool true, r)
      else if t =? 0xc4 then counted 1 read_bin r
      else if t =? 0xc5 then counted 2 read_bin r
      else if t =? 0xc6 then counted 4 read_bin r
      else if t =? 0xcb then counted 8 (fun n r => Some (MFloat (bits_float n), r)) r
      else if t =? 0xcc then read_int 1 false r
      else if t =? 0xcd then read_int 2 false r
      else if t =? 0xce then read_int 4 false r
      else if t =? 0xcf then read_int 8 false r
      else if t =? 0xd0 then read_int 1 true r
      else if t =? 0xd1 then read_int 2 true r
      else if t =? 0xd2 then read_int 4 true r
      else if t =? 0xd3 then read_int 8 true r
      else if t =? 0xd9 then counted 1 read_str r
      else if t =? 0xda then counted 2 read_str r
      else if t =? 0xdb then counted 4 read_str r
      else if t =? 0xdc then counted 2 (read_arr (mdecode f)) r
      else if t =? 0xdd then counted 4 (read_arr (mdecode f)) r
      else if t =? 0xde then counted 2 (read_map (mdecode f)) r
      else if t =? 0xdf then counted 4 (read_map (mdecode f)) r
      else if 0xe0 <=? t then Some (MInt (t - 256), r)
      else None
  | _, _ => None
  end.

(** A whole document and nothing else. *)
Definition mload (bs : pybytes) : option mval :=
  match mdecode (length bs) bs with Some (m, []) => Some m | _ => None end.

(** [bs] is one document, the value [m], in front of anything. *)
Definition reads_as (bs : pybytes) (m : mval) : Prop :=
  forall fuel r, (length bs <= fuel)%nat -> mdecode fuel (bs ++ r) = Some (m, r).

Lemma reads_as_load bs m : reads_as bs m -> mload bs = Some m.
Proof. intros R. unfold mload. specialize (R (length bs) [] ltac:(lia)). by rewrite app_nil_r in R; rewrite R. Qed.

Lemma reads_as_nonempty bs m : reads_as bs m -> bs <> [].
Proof. intros R ->. by specialize (R 0%nat [] ltac:(done)). Qed.

(** No document is a proper prefix of another: the encoding is prefix-free. *)
Lemma reads_as_prefix b1 b2 r1 r2 m1 m2 :
  reads_as b1 m1 -> reads_as b2 m2 -> b1 ++ r1 = b2 ++ r2 -> m1 = m2 /\ r1 = r2.
Proof.
  intros R1 R2 E. specialize (R1 (length b1 + length b2)%nat r1 ltac:(lia)).
  specialize (R2 (length b1 + length b2)%nat r2 ltac:(lia)). rewrite E, R2 in R1. by simplify_eq.
Qed.

(** ** Numbers *)

Lemma be_val_mod k w : be_val (be_bytes k w) = w mod 256 ^ Z.of_nat k.
Proof.
  revert w. induction k as [|k IH]; intros w; [by rewrite Z.mod_1_r|].
  simpl. rewrite be_val_snoc, IH, Nat2Z.inj_succ, Z.pow_succ_r by lia.
  rewrite Z.rem_mul_r by lia. lia.
Qed.

Lemma take_n_app n a r : zlen a = n -> take_n n (a ++ r) = Some (a, r).
Proof.
  intros <-. unfold take_n. rewrite zlen_app. pose proof (zlen_nonneg r).
  rewrite (proj2 (Z.leb_le _ _)) by lia. unfold zlen. rewrite Nat2Z.id.
  by rewrite take_app_length, drop_app_length.
Qed.

Lemma take_num_be k n r : take_num k (be_bytes k n ++ r) = Some (n mod 256 ^ Z.of_nat k, r).
Proof.
  unfold take_num. rewrite take_n_app by (unfold zlen; by rewrite be_bytes_length).
  by rewrite be_val_mod.
Qed.

Lemma to_bytes_num k n b r : to_bytes k n = Ok b -> take_num k (b ++ r) = Some (n, r) /\ length b = k.
Proof.
  unfold to_bytes. destruct (_ && _) eqn:E; [|done]. intros Hb.
  assert (b = be_bytes k n) as -> by congruence. zbool.
  rewrite take_num_be, Z.mod_small by lia. split; [done|apply be_bytes_length].
Qed.

Lemma to_bytes_signed_num k n b r :
  (0 < k)%nat -> to_bytes_signed k n = Ok b ->
  exists z, take_num k (b ++ r) = Some (z, r) /\ signed k z = n /\ length b = k.
Proof.
  intros Hk. unfold to_bytes_signed. destruct (_ && _) eqn:E; [|done]. intros Hb.
  assert (b = be_bytes k n) as -> by congruence. zbool.
  set (m := 256 ^ Z.of_nat k) in *.
  assert (Hm : m = 2 * (m / 2)).
  { unfold m. destruct k as [|k]; [lia|]. rewrite Nat2Z.inj_succ, Z.pow_succ_r by lia.
    replace (256 * 256 ^ Z.of_nat k) with (128 * 256 ^ Z.of_nat k * 2) by lia.
    rewrite Z.div_mul by lia. lia. }
  assert (0 < m) by (unfold m; lia).
  exists (n mod m). rewrite take_num_be. split; [done|]. split; [|apply be_bytes_length].
  unfold signed. fold m. destruct (Z.ltb_spec n 0) as [Hn|Hn].
  - replace (n mod m) with (n + m).
    + rewrite (proj2 (Z.ltb_ge _ _)) by lia. lia.
    + rewrite <- (Z.mod_add n 1 m) by lia. rewrite Z.mod_small by lia. lia.
  - rewrite Z.mod_small by lia. by rewrite (proj2 (Z.ltb_lt _ _)) by lia.
Qed.

Lemma tagged_inv tag r body b :
  tagged tag r body = Ok b -> exists x, r = Ok x /\ b = tag :: x ++ body.
Proof. unfold tagged. destruct r as [x|]; [|done]. simpl. intros [= <-]. eauto. Qed.

(** ** The scalars *)

Lemma lor_table a k n :
  forallb (fun i => Z.lor a i =? a + i) (seqZ 0 k) = true -> 0 <= n < k -> Z.lor a n = a + n.
Proof.
  intros F Hn. rewrite forallb_forall in F. apply Z.eqb_eq, F.
  apply list_elem_of_In, elem_of_seqZ. lia.
Qed.

(** Take one unit of fuel for a document that is not empty. *)
Ltac one_fuel := intros fuel r Hfuel; destruct fuel as [|fuel]; [simpl in Hfuel; lia|].

Lemma read_int_unsigned tag k x n :
  (forall f l, mdecode (S f) (tag :: l) = read_int k false l) ->
  to_bytes k n = Ok x -> reads_as (tag :: x ++ []) (MInt n).
Proof.
  intros Ht Hx. one_fuel. rewrite app_nil_r. cbn [app]. rewrite Ht. unfold read_int, counted.
  destruct (to_bytes_num k n x r Hx) as [-> _]. done.
Qed.

Lemma read_int_signed tag k x n :
  (0 < k)%nat -> (forall f l, mdecode (S f) (tag :: l) = read_int k true l) ->
  to_bytes_signed k n = Ok x -> reads_as (tag :: x ++ []) (MInt n).
Proof.
  intros Hk Ht Hx. one_fuel. rewrite app_nil_r. cbn [app]. rewrite Ht. unfold read_int, counted.
  destruct (to_bytes_signed_num k n x r Hk Hx) as (z & -> & <- & _). done.
Qed.

Lemma encode_int_reads n b : _encode_int n = Ok b -> reads_as b (MInt n).
Proof.
  unfold _encode_int. destruct (negb _); [done|].
  destruct ((0 <=? n) && (n <=? 127)) eqn:E1.
  { intros [= <-]. zbool. one_fuel. simpl. by ztests. }
  destruct ((-32 <=? n) && (n <? 0)) eqn:E2.
  { intros [= <-]. zbool. one_fuel. cbn [app].
    assert (L : Z.land n 255 = n + 256).
    { change 255 with (Z.ones 8). rewrite Z.land_ones by lia.
      rewrite <- (Z.mod_add n 1) by lia. apply Z.mod_small. lia. }
    rewrite L. simpl. ztests. do 3 f_equal. lia. }
  repeat match goal with |- context [if ?c then _ else _] => destruct c end;
    intros Hb; apply tagged_inv in Hb as (x & Hx & ->);
    (eapply read_int_unsigned; [|exact Hx]; done) ||
    (eapply read_int_signed; [| |exact Hx]; [lia|done]).
Qed.

(** A tagged length, then what it counts. *)
Lemma reads_counted tag k n x body m (f : Z -> pybytes -> option (mval * pybytes)) :
  (forall g l, mdecode (S g) (tag :: l) = counted k f l) -> to_bytes k n = Ok x ->
  (forall r, f n (body ++ r) = Some (m, r)) -> reads_as (tag :: x ++ body) m.
Proof.
  intros Ht Hx Hf. one_fuel. cbn [app]. rewrite <- app_assoc, Ht. unfold counted.
  destruct (to_bytes_num k n x (body ++ r) Hx) as [-> _]. apply Hf.
Qed.

Lemma read_bin_app b r : read_bin (zlen b) (b ++ r) = Some (MBin b, r).
Proof. unfold read_bin. by rewrite take_n_app. Qed.

Lemma read_str_app s b r :
  Forall is_code_point s -> utf8_encode s = Ok b -> read_str (zlen b) (b ++ r) = Some (MStr s, r).
Proof. intros Hs Hb. unfold read_str. rewrite take_n_app by done. by rewrite (utf8_roundtrip s b). Qed.

Lemma encode_bin_reads b bs : _encode_bin b = Ok bs -> reads_as bs (MBin b).
Proof.
  unfold _encode_bin. destruct (_ <=? _); [|destruct (_ <=? _)];
    intros Hb; apply tagged_inv in Hb as (x & Hx & ->);
    (eapply reads_counted; [|exact Hx|intros r; apply read_bin_app]; done).
Qed.

Lemma encode_str_reads s bs :
  Forall is_code_point s -> _encode_str s = Ok bs -> reads_as bs (MStr s).
Proof.
  unfold _encode_str. intros Hs. destruct (utf8_encode s) as [b|] eqn:Eb; [|done].
  cbv zeta. destruct (Z.leb_spec (zlen b) 31) as [Hl|Hl].
  { intros [= <-]. one_fuel. cbn [app]. pose proof (zlen_nonneg b).
    rewrite (lor_table 160 32) by (reflexivity || lia).
    cbn [mdecode]. ztests. replace (160 + zlen b - 160) with (zlen b) by lia.
    by apply read_str_app. }
  destruct (_ <=? _); [|destruct (_ <=? _)];
    intros Hb; apply tagged_inv in Hb as (x & Hx & ->);
    (eapply reads_counted; [|exact Hx|intros r; by apply read_str_app]; done).
Qed.

Lemma encode_float_reads c f b :
  valid_float f = true -> _encode_float c f = Ok b ->
  reads_as b (if c && collapses f then match ftrunc f with Ok n => MInt n | Err _ => MNil end
              else MFloat f).
Proof.
  unfold _encode_float. intros V. destruct (isnan f) eqn:En; [done|].
  destruct (isinf f); [done|]. simpl. destruct (c && collapses f).
  - destruct (ftrunc f) as [n|]; [apply encode_int_reads|done].
  - intros [= <-]. one_fuel. cbn [app].
    change (mdecode (S fuel) (203 :: pack_d f ++ r)) with
      (counted 8 (fun n r => Some (MFloat (bits_float n), r)) (pack_d f ++ r)).
    unfold counted, take_num. rewrite take_n_app by (unfold zlen; by rewrite pack_d_length).
    by rewrite pack_d_roundtrip.
Qed.

(** ** Arrays and maps *)

Lemma read_many_concat f es ms r :
  Forall2 reads_as es ms -> (length (concat es) <= f)%nat ->
  read_many (mdecode f) (length es) (concat es ++ r) = Some (ms, r).
Proof.
  induction 1 as [|e m es ms He _ IH]; intros Hf; [done|].
  cbn [concat] in *. rewrite length_app in Hf. cbn [length read_many].
  rewrite <- app_assoc, (He f _ ltac:(lia)), (IH ltac:(lia)). done.
Qed.

(** A map item: a string document, then another. *)
Definition item_reads (e : pybytes) (km : pystr * mval) : Prop :=
  exists k b, e = k ++ b /\ reads_as k (MStr km.1) /\ reads_as b km.2.

Lemma read_items_concat f es ms r :
  Forall2 item_reads es ms -> (length (concat es) <= f)%nat ->
  read_items (mdecode f) (length es) (concat es ++ r) = Some (ms, r).
Proof.
  induction 1 as [|e [s m] es ms (k & b & -> & Hk & Hb) _ IH]; intros Hf; [done|].
  cbn [concat] in *. rewrite !length_app in Hf. cbn [length read_items].
  rewrite <- !app_assoc, (Hk f _ ltac:(lia)), (Hb f _ ltac:(lia)), (IH ltac:(lia)). done.
Qed.

Lemma header_inv tag k n h :
  tagged tag (to_bytes k n) [] = Ok h -> exists x, to_bytes k n = Ok x /\ h = tag :: x.
Proof. intros Hh. apply tagged_inv in Hh as (x & Hx & ->). rewrite app_nil_r. eauto. Qed.

(** A header and the body it counts, for arrays and maps alike. *)
Lemma header_reads fixed tag2 tag4 (rd : (pybytes -> option (mval * pybytes)) -> Z -> pybytes ->
    option (mval * pybytes)) n h body m :
  (if n <=? 15 then Ok [Z.lor fixed n]
   else if n <=? 0xFFFF then tagged tag2 (to_bytes 2 n) [] else tagged tag4 (to_bytes 4 n) []) = Ok h ->
  0 <= n ->
  (forall f l, n <= 15 -> mdecode (S f) (Z.lor fixed n :: l) = rd (mdecode f) n l) ->
  (forall f l, mdecode (S f) (tag2 :: l) = counted 2 (rd (mdecode f)) l) ->
  (forall f l, mdecode (S f) (tag4 :: l) = counted 4 (rd (mdecode f)) l) ->
  (forall f r, (length body <= f)%nat -> rd (mdecode f) n (body ++ r) = Some (m, r)) ->
  reads_as (h ++ body) m.
Proof.
  intros Hh Hn H1 H2 H4 Hb. intros fuel r Hf. rewrite <- app_assoc.
  destruct (Z.leb_spec n 15) as [L|L]; [|destruct (n <=? 65535)];
    [injection Hh as <-|apply header_inv in Hh as (x & Hx & ->)..];
    (destruct fuel as [|fuel]; [simpl in Hf; lia|]); cbn [app length] in *;
    rewrite ?length_app in Hf.
  - rewrite H1 by done. apply Hb. lia.
  - rewrite H2. unfold counted. destruct (to_bytes_num 2 n x (body ++ r) Hx) as [-> _]. apply Hb. lia.
  - rewrite H4. unfold counted. destruct (to_bytes_num 4 n x (body ++ r) Hx) as [-> _]. apply Hb. lia.
Qed.

Lemma array_reads h es ms :
  _encode_array_header (zlen es) = Ok h -> Forall2 reads_as es ms ->
  reads_as (h ++ concat es) (MArr ms).
Proof.
  intros Hh He. unfold _encode_array_header in Hh. pose proof (zlen_nonneg es).
  eapply (header_reads 144 220 221 read_arr); [exact Hh|done| |done|done|].
  - intros f l L. rewrite (lor_table 144 16) by (reflexivity || lia). cbn [mdecode]. ztests.
    by replace (144 + zlen es - 144) with (zlen es) by lia.
  - intros f r Hf. unfold read_arr, zlen. rewrite Nat2Z.id.
    by rewrite (read_many_concat f es ms r He Hf).
Qed.

Lemma map_reads h es ms :
  _encode_map_header (zlen es) = Ok h -> Forall2 item_reads es ms ->
  reads_as (h ++ concat es) (MMap ms).
Proof.
  intros Hh He. unfold _encode_map_header in Hh. pose proof (zlen_nonneg es).
  eapply (header_reads 128 222 223 read_map); [exact Hh|done| |done|done|].
  - intros f l L. rewrite (lor_table 128 16) by (reflexivity || lia). cbn [mdecode]. ztests.
    by replace (128 + zlen es - 128) with (zlen es) by lia.
  - intros f r Hf. unfold read_map, zlen. rewrite Nat2Z.id.
    by rewrite (read_items_concat f es ms r He Hf).
Qed.

(** ** What a value denotes *)

Definition mnum (collapse_floats : bool) (f : float) : mval :=
  if collapse_floats && collapses f then match ftrunc f with Ok n => MInt n | Err _ => MNil end
  else MFloat f.

(** The document value of a Python value; [MNil] outside the data model. *)
Fixpoint denote (c : bool) (v : pyval) : mval :=
  match v with
  | PBool b => MBool b
  | PInt n => MInt n
  | PFloat f => mnum c f
  | PStr s => MStr s
  | PBytes b | PByteArray b => MBin b
  | PPreEncoded es => MArr (map (fun e => default MNil (mload e)) es)
  | PList l | PTuple l => MArr (map (denote c) l)
  | PDict l =>
      match str_items (map (fun kv => (kv.1, denote c kv.2)) l) with
      | Some items => MMap (sorted_items items)
      | None => MNil
      end
  | _ => MNil
  end.

(** The canonical form of a document value. *)
Fixpoint menc (m : mval) : result ierr pybytes :=
  match m with
  | MNil => Ok [0xC0]
  | MBool b => Ok [if b then 0xC3 else 0xC2]
  | MInt n => _encode_int n
  | MFloat f => Ok (0xcb :: pack_d f)
  | MStr s => _encode_str s
  | MBin b => _encode_bin b
  | MArr l =>
      rbind (_encode_array_header (zlen l)) (fun h =>
      rbind (rmap menc l) (fun es => Ok (h ++ concat es)))
  | MMap l =>
      rbind (_encode_map_header (zlen l)) (fun h =>
      rbind (rmap (fun kv => encode_item (kv.1, menc kv.2)) l) (fun es => Ok (h ++ concat es)))
  end.

(** Values Python can hold: Unicode strings, canonical floats, distinct keys;
    a pre-encoded set is made of canonical documents; a timestamp is a float. *)
Fixpoint wf_val (v : pyval) : Prop :=
  match v with
  | PFloat f => valid_float f = true
  | PStr s | PPath s | PUUID s | PDecimal s | PDate s | PTime s => Forall is_code_point s
  | PDatetime tz s =>
      Forall is_code_point s /\
      match tz with Aware d x us => valid_float (timestamp d x us) = true | _ => True end
  | PList l | PTuple l | PSet l => foldr (fun x P => wf_val x /\ P) True l
  | PDict l =>
      foldr (fun kv P => (match kv.1 with KStr s => Forall is_code_point s | _ => True end)
                         /\ wf_val kv.2 /\ P) True l /\ NoDup (map fst l)
  | PEnum v => wf_val v
  | PPreEncoded es => Forall (fun e => exists m, reads_as e m /\ menc m = Ok e) es
  | _ => True
  end.

Lemma wf_list (l : list pyval) : foldr (fun x P => wf_val x /\ P) True l <-> Forall wf_val l.
Proof.
  induction l as [|x l IH]; simpl; [by split|]. rewrite IH, list.Forall_cons. done.
Qed.

Definition wf_item (kv : pykey * pyval) : Prop :=
  (match kv.1 with KStr s => Forall is_code_point s | _ => True end) /\ wf_val kv.2.

Lemma wf_items (l : list (pykey * pyval)) :
  foldr (fun kv P => (match kv.1 with KStr s => Forall is_code_point s | _ => True end)
                     /\ wf_val kv.2 /\ P) True l <-> Forall wf_item l.
Proof.
  induction l as [|x l IH]; simpl; [by split|]. rewrite IH, list.Forall_cons. unfold wf_item. tauto.
Qed.

(** ** The encoder is read back *)

Lemma rmap_Forall2 {A B E} (f : A -> result E B) (R : B -> A -> Prop) l l' :
  rmap f l = Ok l' -> Forall (fun x => forall y, f x = Ok y -> R y x) l -> Forall2 R l' l.
Proof.
  revert l'. induction l as [|x l IH]; intros l' E1 F; simpl in E1.
  - simplify_eq. constructor.
  - apply list.Forall_cons in F as [Fx F]. destruct (f x) as [y|]; simpl in E1; [|done].
    destruct (rmap f l) as [ys|] eqn:E2; simpl in E1; [|done]. injection E1 as <-.
    constructor; [by apply Fx|by apply IH].
Qed.

Lemma rmap_map {A B C E} (f : B -> result E C) (g : A -> B) l :
  rmap f (map g l) = rmap (fun x => f (g x)) l.
Proof. induction l as [|x l IH]; [done|]. simpl. by rewrite IH. Qed.

Lemma encode_list_reads c l h es :
  Forall (fun v => forall b, wf_val v -> _encode c v = Ok b -> reads_as b (denote c v)) l ->
  Forall wf_val l -> _encode_array_header (zlen l) = Ok h -> rmap (_encode c) l = Ok es ->
  reads_as (h ++ concat es) (MArr (map (denote c) l)).
Proof.
  intros IH Wf Hh He. pose proof (rmap_length _ _ _ He) as L.
  apply array_reads; [unfold zlen in *; by rewrite L|].
  apply Forall2_fmap_r. apply (rmap_Forall2 _ _ _ _ He).
  rewrite list.Forall_forall in IH, Wf |- *. auto.
Qed.

Lemma encode_dict_reads c l its h es :
  Forall (fun kv => forall b, wf_val kv.2 -> _encode c kv.2 = Ok b -> reads_as b (denote c kv.2)) l ->
  Forall wf_item l -> str_items l = Some its ->
  _encode_map_header (zlen l) = Ok h ->
  rmap encode_item (map (on_value (_encode c)) (sorted_items its)) = Ok es ->
  reads_as (h ++ concat es) (MMap (map (on_value (denote c)) (sorted_items its))).
Proof.
  intros IH Wf Hits Hh He. pose proof (rmap_length _ _ _ He) as L.
  rewrite length_map, sorted_items_length, (str_items_length l its Hits) in L.
  apply map_reads; [unfold zlen in *; by rewrite L|].
  rewrite rmap_map in He. apply Forall2_fmap_r. apply (rmap_Forall2 _ _ _ _ He).
  apply list.Forall_forall. intros [s v] Hin y Hy.
  apply sorted_items_elem, (str_items_elem _ _ _ _ Hits) in Hin.
  rewrite list.Forall_forall in IH, Wf. specialize (IH _ Hin). specialize (Wf _ Hin).
  destruct Wf as [Ws Wv]. unfold encode_item in Hy. simpl in *.
  destruct (_encode_str s) as [k|] eqn:Ek; simpl in Hy; [|done].
  destruct (_encode c v) as [b|] eqn:Ev; simpl in Hy; [|done]. injection Hy as <-.
  exists k, b. split; [done|]. split; [by apply encode_str_reads|by apply IH].
Qed.

(** Every encoded value is read back as what it denotes, in front of anything. *)
Lemma encode_reads c v b : wf_val v -> _encode c v = Ok b -> reads_as b (denote c v).
Proof.
  revert b. induction v as [|x|z|f|s|x|x|l IH|l IH|l IH|l IH|v IH|s|s|s|tz s|s|s|a|es|t] using pyval_deep;
    intros b Wf Hb; try done.
  - injection Hb as <-. by one_fuel.
  - injection Hb as <-. one_fuel. by destruct x.
  - by apply encode_int_reads.
  - by apply encode_float_reads.
  - by apply encode_str_reads.
  - by apply encode_bin_reads.
  - by apply encode_bin_reads.
  - apply wf_list in Wf. simpl in Hb. destruct (_encode_array_header (zlen l)) as [h|] eqn:Hh; [|done].
    simpl in Hb. destruct (rmap (_encode c) l) as [es|] eqn:He; simpl in Hb; [|done].
    injection Hb as <-. by apply encode_list_reads.
  - apply wf_list in Wf. simpl in Hb. destruct (_encode_array_header (zlen l)) as [h|] eqn:Hh; [|done].
    simpl in Hb. destruct (rmap (_encode c) l) as [es|] eqn:He; simpl in Hb; [|done].
    injection Hb as <-. by apply encode_list_reads.
  - destruct Wf as [Wf _]. apply wf_items in Wf. simpl in Hb |- *.
    rewrite (str_items_map (_encode c)) in Hb. rewrite (str_items_map (denote c)). destruct (str_items l) as [its|] eqn:Hits; simpl in Hb |- *; [|done].
    rewrite !sorted_items_map in *.
    destruct (_encode_map_header (zlen l)) as [h|] eqn:Hh; [|done]. simpl in Hb.
    destruct (rmap encode_item _) as [es|] eqn:He; simpl in Hb; [|done].
    injection Hb as <-. by apply encode_dict_reads with l.
  - simpl in Hb. destruct (_encode_array_header (zlen es)) as [h|] eqn:Hh; [|done].
    simpl in Hb. injection Hb as <-. apply array_reads; [done|]. apply Forall2_fmap_r. simpl in Wf.
    clear Hh. induction Wf as [|e es [m [He _]] _ IH]; constructor; [|done].
    unfold compose. rewrite (reads_as_load e m He). exact He.
Qed.

(** ** The encoding is the canonical form of the denotation *)

Lemma rmap_canonical {A B E} (f : A -> result E B) (g : A -> result E B) l ys :
  Forall (fun x => forall y, f x = Ok y -> g x = Ok y) l -> rmap f l = Ok ys -> rmap g l = Ok ys.
Proof.
  revert ys. induction l as [|x l IH]; intros ys F E1; [done|]. simpl in *.
  apply list.Forall_cons in F as [Fx F]. destruct (f x) as [y|]; simpl in E1; [|done].
  rewrite (Fx y eq_refl). simpl. destruct (rmap f l) as [zs|]; simpl in E1; [|done].
  rewrite (IH zs F eq_refl). exact E1.
Qed.

Lemma encode_list_canonical c l b :
  Forall (fun v => forall b, wf_val v -> _encode c v = Ok b -> menc (denote c v) = Ok b) l ->
  Forall wf_val l ->
  rbind (_encode_array_header (zlen l)) (fun h =>
    rbind (rmap (_encode c) l) (fun es => Ok (h ++ concat es))) = Ok b ->
  menc (MArr (map (denote c) l)) = Ok b.
Proof.
  intros IH Wf Hb. simpl. unfold zlen in *. rewrite length_map.
  destruct (_encode_array_header _) as [h|]; simpl in *; [|done].
  destruct (rmap (_encode c) l) as [es|] eqn:He; simpl in Hb; [|done].
  rewrite rmap_map. erewrite (rmap_canonical _ (fun x => menc (denote c x))); [exact Hb| |exact He].
  rewrite list.Forall_forall in IH, Wf |- *. auto.
Qed.

Lemma encode_canonical c v b : wf_val v -> _encode c v = Ok b -> menc (denote c v) = Ok b.
Proof.
  revert b. induction v as [|x|z|f|s|x|x|l IH|l IH|l IH|l IH|v IH|s|s|s|tz s|s|s|a|es|t] using pyval_deep;
    intros b Wf Hb; try done.
  - simpl in Hb |- *. unfold _encode_float, mnum in *. destruct (_ || _); [done|].
    destruct (c && collapses f); [|done]. by destruct (ftrunc f).
  - apply wf_list in Wf. by apply encode_list_canonical.
  - apply wf_list in Wf. by apply encode_list_canonical.
  - destruct Wf as [Wf _]. apply wf_items in Wf. simpl in Hb |- *.
    rewrite (str_items_map (_encode c)) in Hb. rewrite (str_items_map (denote c)).
    destruct (str_items l) as [its|] eqn:Hits; simpl in Hb |- *; [|done].
    rewrite !sorted_items_map in *. unfold zlen in *.
    rewrite length_map, sorted_items_length, (str_items_length l its Hits).
    destruct (_encode_map_header _) as [h|]; simpl in *; [|done].
    destruct (rmap encode_item _) as [es|] eqn:He; simpl in Hb; [|done].
    rewrite rmap_map in He. rewrite rmap_map. simpl in *.
    erewrite (rmap_canonical _ (fun x => encode_item (x.1, menc (denote c x.2))));
      [exact Hb| |exact He].
    apply list.Forall_forall. intros [s v] Hin y Hy.
    apply sorted_items_elem, (str_items_elem _ _ _ _ Hits) in Hin.
    rewrite list.Forall_forall in IH, Wf. specialize (IH _ Hin). specialize (Wf _ Hin).
    destruct Wf as [Ws Wv]. unfold encode_item in *. simpl in *.
    destruct (_encode_str s); simpl in *; [|done]. destruct (_encode c v) as [b'|] eqn:Ev; simpl in *; [|done].
    by rewrite (IH b' Wv eq_refl).
  - simpl in Hb |- *. unfold zlen in *. rewrite length_map.
    destruct (_encode_array_header _) as [h|]; simpl in *; [|done].
    assert (R : rmap menc (map (fun e => default MNil (mload e)) es) = Ok es).
    { clear Hb. induction Wf as [|e es [m [He Hm]] _ IH]; [done|]. simpl.
      rewrite (reads_as_load e m He). simpl. by rewrite Hm, IH. }
    rewrite R. exact Hb.
Qed.
