(* ===== verification/InteropProps.v ===== *)
(** Interop mode: what the keys and the values guarantee across SDKs. *)
From Stdlib Require Import ZArith Lia SpecFloat.
From stdpp Require Import base list numbers option strings sorting.
From S2P Require Import Prelude PyFloat Bytes PyValue Interop Msgpack.

Local Open Scope Z_scope.

(** ** Arguments, normalized and encoded *)

Definition enc_arg (v : pyval) : result ierr pybytes :=
  rbind (_normalize_arg v) (_encode_canonical true).

Lemma rmap_inv_cons {E A B} (f : A -> result E B) x l ys :
  rmap f (x :: l) = Ok ys <-> exists y r, f x = Ok y /\ rmap f l = Ok r /\ ys = y :: r.
Proof.
  simpl. destruct (f x) as [y|]; simpl; [|split; [done|by intros (? & ? & ? & _)]].
  destruct (rmap f l) as [r|]; simpl; [|split; [done|by intros (? & ? & _ & ? & _)]].
  split; [intros [= <-]; eauto|intros (? & ? & ? & ? & ->); by simplify_eq].
Qed.

(** Two passes over a list are one. *)
Lemma rmap_compose {E A B C} (f : A -> result E B) (g : B -> result E C) l zs :
  (exists ys, rmap f l = Ok ys /\ rmap g ys = Ok zs) <-> rmap (fun x => rbind (f x) g) l = Ok zs.
Proof.
  revert zs. induction l as [|x l IH]; intros zs.
  { split; [intros (ys & [= <-] & E2); exact E2|intros E1; by exists []]. }
  rewrite rmap_inv_cons. split.
  - intros (ys & E1 & E2). apply rmap_inv_cons in E1 as (y & r & F1 & F2 & ->).
    apply rmap_inv_cons in E2 as (z & s & G1 & G2 & ->). exists z, s. rewrite F1. simpl.
    split; [done|]. split; [|done]. apply IH. eauto.
  - intros (z & s & E1 & E2 & ->). apply IH in E2 as (r & F2 & G2).
    destruct (f x) as [y|] eqn:F1; [|done]. simpl in E1. exists (y :: r).
    split; [apply rmap_inv_cons; eauto|]. apply rmap_inv_cons. eauto.
Qed.

Lemma enc_list l b :
  enc_arg (PList l) = Ok b <->
  exists h es, _encode_array_header (zlen l) = Ok h /\ rmap enc_arg l = Ok es /\ b = h ++ concat es.
Proof.
  unfold enc_arg at 1. rewrite rbind_ok. split.
  - intros (n & E1 & E2). apply rbind_ok in E1 as (l' & E1 & [= <-]).
    apply rbind_ok in E2 as (h & Hh & E2). apply rbind_ok in E2 as (es & E2 & [= <-]).
    pose proof (rmap_length _ _ _ E1) as L. unfold zlen in *. rewrite L in Hh.
    exists h, es. split; [done|]. split; [|done]. apply rmap_compose. by exists l'.
  - intros (h & es & Hh & He & ->). apply rmap_compose in He as (l' & E1 & E2).
    pose proof (rmap_length _ _ _ E1) as L. exists (PList l'). split; [simpl; by rewrite E1|].
    unfold _encode_canonical in *. apply rbind_ok. exists h. unfold zlen in *. rewrite L. split; [done|].
    apply rbind_ok. by exists es.
Qed.

(** One dictionary item, its value normalized by [f]. *)
Definition norm_item_with (f : pyval -> result ierr pyval) (kv : pykey * pyval)
  : result ierr (pykey * pyval) :=
  match kv.1 with
  | KStr s => rbind (f kv.2) (fun n => Ok (KStr s, n))
  | _ => Err InteropError
  end.

Definition norm_item : pykey * pyval -> result ierr (pykey * pyval) := norm_item_with _normalize_arg.

Lemma norm_items_with f l l' :
  rmap (norm_item_with f) l = Ok l' ->
  exists its its', str_items l = Some its /\ str_items l' = Some its' /\
    map fst its' = map fst its /\ Forall2 (fun x y => x.1 = y.1 /\ f x.2 = Ok y.2) its its'.
Proof.
  revert l'. induction l as [|[k v] l IH]; intros l' E.
  { injection E as <-. by exists [], []. }
  apply rmap_inv_cons in E as (y & r & E1 & E2 & ->). unfold norm_item_with in E1. simpl in E1.
  destruct k as [s| | |]; try done. destruct (f v) as [n|] eqn:En; simpl in E1; [|done].
  injection E1 as <-. destruct (IH r E2) as (its & its' & I1 & I2 & I3 & I4).
  exists ((s, v) :: its), ((s, n) :: its'). unfold str_items in *. simpl. rewrite I1, I2. simpl.
  split; [done|]. split; [done|]. split; [by rewrite I3|]. by constructor.
Qed.

Lemma norm_items l l' :
  rmap norm_item l = Ok l' ->
  exists its its', str_items l = Some its /\ str_items l' = Some its' /\
    map fst its' = map fst its /\
    Forall2 (fun x y => x.1 = y.1 /\ _normalize_arg x.2 = Ok y.2) its its'.
Proof. apply norm_items_with. Qed.

Lemma rmap_total {E A B} (f : A -> result E B) l :
  (forall x, x ∈ l -> exists y, f x = Ok y) -> exists ys, rmap f l = Ok ys.
Proof.
  induction l as [|x l IH]; intros F; [by exists []|].
  destruct (F x ltac:(by left)) as [y Ey]. destruct IH as [ys Eys]; [intros z Hz; apply F; by right|].
  exists (y :: ys). apply rmap_inv_cons. eauto.
Qed.

Lemma rmap_elem {E A B} (f : A -> result E B) l ys x :
  rmap f l = Ok ys -> x ∈ l -> exists y, f x = Ok y /\ y ∈ ys.
Proof.
  revert ys. induction l as [|z l IH]; intros ys E1 Hx; [by apply not_elem_of_nil in Hx|].
  apply rmap_inv_cons in E1 as (y & r & E1 & E2 & ->). apply elem_of_cons in Hx as [->|Hx].
  - exists y. split; [done|by left].
  - destruct (IH r E2 Hx) as (y' & ? & ?). exists y'. split; [done|by right].
Qed.

Lemma rmap_ext_ok {E A B} (f g : A -> result E B) l ys :
  (forall x y, x ∈ l -> f x = Ok y -> g x = Ok y) -> rmap f l = Ok ys -> rmap g l = Ok ys.
Proof.
  intros F. apply rmap_canonical. apply list.Forall_forall. auto.
Qed.

Lemma assoc_related {A B} (R : A -> B -> Prop) k (l : list (pystr * A)) (l' : list (pystr * B)) :
  Forall2 (fun x y => x.1 = y.1 /\ R x.2 y.2) l l' ->
  match assoc k l, assoc k l' with
  | Some v, Some v' => R v v'
  | None, None => True
  | _, _ => False
  end.
Proof.
  induction 1 as [|[k1 v1] [k2 v2] l l' [Hk Hv] _ IH]; simpl in *; [done|]. subst k2.
  by destruct (decide (k = k1)).
Qed.

Lemma sorted_related {A B} (R : A -> B -> Prop) (l : list (pystr * A)) (l' : list (pystr * B)) :
  map fst l = map fst l' -> Forall2 (fun x y => x.1 = y.1 /\ R x.2 y.2) l l' ->
  Forall2 (fun x y => x.1 = y.1 /\ R x.2 y.2) (sorted_items l) (sorted_items l').
Proof.
  intros Hk H. unfold sorted_items. rewrite Hk.
  induction (sorted_strs (map fst l')) as [|k r IH]; [constructor|]. cbn [omap list_omap].
  pose proof (assoc_related R k l l' H) as Ha.
  destruct (assoc k l), (assoc k l'); try done. by constructor.
Qed.

(** A dictionary argument: normalized, encoded, in key order. *)
Lemma enc_dict l b :
  enc_arg (PDict l) = Ok b ->
  exists its h es, str_items l = Some its /\ _encode_map_header (zlen l) = Ok h /\
    rmap (fun kv => encode_item (kv.1, enc_arg kv.2)) (sorted_items its) = Ok es /\
    b = h ++ concat es.
Proof.
  unfold enc_arg at 1. rewrite rbind_ok. intros (n & E1 & E2).
  apply rbind_ok in E1 as (l' & E1 & [= <-]). pose proof (rmap_length _ _ _ E1) as L.
  destruct (norm_items l l' E1) as (its & its' & I1 & I2 & I3 & I4).
  cbn [_encode_canonical _encode] in E2. rewrite (str_items_map (_encode true)), I2 in E2.
  cbn [fmap option_fmap option_map] in E2. apply rbind_ok in E2 as (h & Hh & E2).
  apply rbind_ok in E2 as (es & E2 & [= <-]). rewrite sorted_items_map, rmap_map in E2.
  exists its, h, es. unfold zlen in *. rewrite L in Hh. split; [done|]. split; [done|]. split; [|done].
  pose proof (sorted_related (fun v n => _normalize_arg v = Ok n) its its' (eq_sym I3) I4) as F.
  clear -F E2. revert es E2. induction F as [|[k v] [k' n] s s' [Hk Hv] _ IH]; intros es E; [done|].
  apply rmap_inv_cons in E as (y & r & E1 & E2 & ->). simpl in Hk, Hv. subst k'.
  apply rmap_inv_cons. exists y, r. split; [|split; [by apply IH|done]].
  unfold enc_arg. simpl. by rewrite Hv.
Qed.

Lemma enc_dict_ok l its h es :
  NoDup (map fst its) -> str_items l = Some its -> _encode_map_header (zlen l) = Ok h ->
  rmap (fun kv => encode_item (kv.1, enc_arg kv.2)) (sorted_items its) = Ok es ->
  enc_arg (PDict l) = Ok (h ++ concat es).
Proof.
  intros Nd Hits Hh He.
  assert (N : exists l', rmap norm_item l = Ok l').
  { apply rmap_total. intros [k v] Hin.
    destruct (str_items_intro l its k v Hits Hin) as (s & -> & Hs).
    pose proof (sorted_items_intro its (s, v) Nd Hs) as Hsv.
    destruct (rmap_elem _ _ _ _ He Hsv) as (y & Ey & _). unfold encode_item in Ey. simpl in Ey.
    apply rbind_ok in Ey as (kb & _ & Ey). apply rbind_ok in Ey as (vb & Ey & _).
    apply rbind_ok in Ey as (n & En & _). unfold norm_item, norm_item_with. simpl. rewrite En. by eexists. }
  destruct N as [l' N]. destruct (norm_items l l' N) as (its0 & its' & I1 & I2 & I3 & I4).
  rewrite Hits in I1. injection I1 as <-. unfold enc_arg. apply rbind_ok. exists (PDict l').
  split; [apply rbind_ok; by exists l'|]. pose proof (rmap_length _ _ _ N) as L.
  cbn [_encode_canonical _encode]. rewrite (str_items_map (_encode true)), I2.
  cbn [fmap option_fmap option_map]. apply rbind_ok. exists h. unfold zlen in *. rewrite L.
  split; [done|]. apply rbind_ok. exists es. split; [|done]. rewrite sorted_items_map, rmap_map.
  pose proof (sorted_related (fun v n => _normalize_arg v = Ok n) its its' (eq_sym I3) I4) as F.
  clear -F He. revert es He. induction F as [|[k v] [k' n] s s' [Hk Hv] _ IH]; intros es E; [done|].
  apply rmap_inv_cons in E as (y & r & E1 & E2 & ->). simpl in Hk, Hv. subst k'.
  apply rmap_inv_cons. exists y, r. split; [|split; [by apply IH|done]].
  unfold enc_arg in E1. simpl in E1. rewrite Hv in E1. exact E1.
Qed.

Lemma enc_set l b :
  enc_arg (PSet l) = Ok b <->
  exists es h, rmap enc_arg l = Ok es /\ _encode_array_header (zlen (sorted_set es)) = Ok h /\
    b = h ++ concat (sorted_set es).
Proof.
  unfold enc_arg at 1. rewrite rbind_ok. split.
  - intros (n & E1 & E2). apply rbind_ok in E1 as (es & E1 & [= <-]).
    apply rbind_ok in E2 as (h & Hh & [= <-]). by exists es, h.
  - intros (es & h & E1 & Hh & ->). exists (PPreEncoded (sorted_set es)).
    split; [apply rbind_ok; by exists es|]. apply rbind_ok. by exists h.
Qed.

(** ** Arguments that must give the same key *)

Inductive same_arg : pyval -> pyval -> Prop :=
  | same_number n f : valid_float f = true -> collapses f = true -> ftrunc f = Ok n ->
      same_arg (PInt n) (PFloat f)
  | same_tuple l : same_arg (PTuple l) (PList l)
  | same_bytearray b : same_arg (PByteArray b) (PBytes b)
  | same_enum v : same_arg (PEnum v) v
  | same_path s : same_arg (PPath s) (PStr s)
  | same_uuid s : same_arg (PUUID s) (PStr s)
  | same_dict l l' : l ≡ₚ l' -> same_arg (PDict l) (PDict l')
  | same_set l l' : l ≡ₚ l' -> same_arg (PSet l) (PSet l')
  | same_in_list pre v v' post : same_arg v v' ->
      same_arg (PList (pre ++ v :: post)) (PList (pre ++ v' :: post))
  | same_in_set pre v v' post : same_arg v v' ->
      same_arg (PSet (pre ++ v :: post)) (PSet (pre ++ v' :: post))
  | same_in_dict pre k v v' post : same_arg v v' ->
      same_arg (PDict (pre ++ (k, v) :: post)) (PDict (pre ++ (k, v') :: post))
  | same_refl v : same_arg v v
  | same_sym v v' : same_arg v v' -> same_arg v' v
  | same_trans v1 v2 v3 : same_arg v1 v2 -> same_arg v2 v3 -> same_arg v1 v3.

Lemma same_wf v v' : same_arg v v' -> wf_val v <-> wf_val v'.
Proof.
  induction 1; try (simpl; tauto).
  - simpl. rewrite !wf_items. by rewrite H.
  - simpl. rewrite !wf_list. by rewrite H.
  - simpl. rewrite !wf_list, !list.Forall_app, !list.Forall_cons. tauto.
  - simpl. rewrite !wf_list, !list.Forall_app, !list.Forall_cons. tauto.
  - simpl. rewrite !wf_items, !list.Forall_app, !list.Forall_cons. unfold wf_item. simpl.
    rewrite !map_app. simpl. tauto.
Qed.

Lemma str_items_perm {A} (l l' : list (pykey * A)) its :
  l ≡ₚ l' -> str_items l = Some its -> exists its', str_items l' = Some its' /\ its ≡ₚ its'.
Proof.
  intros P. revert its. induction P as [|[k v] l l' _ IH|[k1 v1] [k2 v2] l|l1 l2 l3 _ IH1 _ IH2];
    intros its; unfold str_items in *; simpl.
  - intros [= <-]. by exists [].
  - destruct k; simpl; try done. destruct (mapM _ l) as [r|] eqn:E; simpl; [|done]. intros [= <-].
    destruct (IH r eq_refl) as (r' & -> & P). simpl. eexists. split; [done|]. by constructor.
  - destruct k1, k2; simpl; try done; destruct (mapM _ l) as [r|]; simpl; try done.
    intros [= <-]. eexists. split; [done|]. constructor.
  - intros E. destruct (IH1 its E) as (i2 & E2 & P2). destruct (IH2 i2 E2) as (i3 & E3 & P3).
    exists i3. split; [done|]. by rewrite P2.
Qed.

Lemma str_items_related {A B} (R : A -> B -> Prop) (l : list (pykey * A)) (l' : list (pykey * B)) its :
  Forall2 (fun x y => x.1 = y.1 /\ R x.2 y.2) l l' -> str_items l = Some its ->
  exists its', str_items l' = Some its' /\ Forall2 (fun x y => x.1 = y.1 /\ R x.2 y.2) its its'.
Proof.
  intros F. revert its. induction F as [|[k v] [k' v'] l l' [Hk Hv] _ IH]; intros its; unfold str_items in *.
  - intros [= <-]. exists []. by split.
  - simpl in Hk, Hv. subst k'. simpl. destruct k; simpl; try done.
    destruct (mapM _ l) as [r|] eqn:E; simpl; [|done]. intros [= <-].
    destruct (IH r eq_refl) as (r' & -> & F'). simpl. eexists. split; [done|]. by constructor.
Qed.

Lemma rmap_perm {E A B} (f : A -> result E B) l l' ys :
  l ≡ₚ l' -> rmap f l = Ok ys -> exists ys', rmap f l' = Ok ys' /\ ys ≡ₚ ys'.
Proof.
  intros P. revert ys. induction P as [|x l l' _ IH|x1 x2 l|l1 l2 l3 _ IH1 _ IH2]; intros ys E1.
  - by exists ys.
  - apply rmap_inv_cons in E1 as (y & r & E1 & E2 & ->). destruct (IH r E2) as (r' & E3 & P).
    exists (y :: r'). split; [apply rmap_inv_cons; eauto|by constructor].
  - apply rmap_inv_cons in E1 as (y1 & r1 & E1 & E2 & ->).
    apply rmap_inv_cons in E2 as (y2 & r2 & E2 & E3 & ->).
    exists (y2 :: y1 :: r2). split; [|constructor].
    apply rmap_inv_cons. exists y2, (y1 :: r2). split; [done|]. split; [|done].
    apply rmap_inv_cons. eauto.
  - destruct (IH1 ys E1) as (y2 & E2 & P2). destruct (IH2 y2 E2) as (y3 & E3 & P3).
    exists y3. split; [done|]. by rewrite P2.
Qed.

Lemma rmap_related {E A B} (f : A -> result E B) l l' ys :
  Forall2 (fun x x' => forall y, f x = Ok y -> f x' = Ok y) l l' ->
  rmap f l = Ok ys -> rmap f l' = Ok ys.
Proof.
  intros F. revert ys. induction F as [|x x' l l' Hx _ IH]; intros ys E1; [done|].
  apply rmap_inv_cons in E1 as (y & r & E1 & E2 & ->). apply rmap_inv_cons. exists y, r. auto.
Qed.

Lemma sorted_set_perm l l' : l ≡ₚ l' -> sorted_set l = sorted_set l'.
Proof.
  intros P. apply sorted_strs_unique. apply NoDup_Permutation; [apply NoDup_remove_dups..|].
  intros x. by rewrite !elem_of_remove_dups, P.
Qed.

(** Replacing one element of a list by a related one. *)
Lemma Forall2_one {A} (R : A -> A -> Prop) pre x y post :
  (forall z, R z z) -> R x y -> Forall2 R (pre ++ x :: post) (pre ++ y :: post).
Proof.
  intros Rr Rxy. induction pre as [|z pre IH]; simpl; constructor; try done.
  induction post as [|z post IH]; constructor; done.
Qed.

Definition enc_le (v v' : pyval) : Prop := forall b, enc_arg v = Ok b -> enc_arg v' = Ok b.

Lemma enc_le_list l l' : Forall2 enc_le l l' -> enc_le (PList l) (PList l').
Proof.
  intros F b. rewrite !enc_list. intros (h & es & Hh & He & ->). exists h, es.
  unfold zlen in *. rewrite <- (Forall2_length _ _ _ F). split; [done|]. split; [|done].
  by eapply rmap_related.
Qed.

Lemma enc_le_set l l' : Forall2 enc_le l l' -> enc_le (PSet l) (PSet l').
Proof.
  intros F b. rewrite !enc_set. intros (es & h & He & Hh & ->). exists es, h.
  split; [by eapply rmap_related|done].
Qed.

Lemma dict_keys_nodup {A} (l : list (pykey * A)) its :
  NoDup (map fst l) -> str_items l = Some its -> NoDup (map fst its).
Proof.
  intros Nd E. rewrite (str_items_keys l its E) in Nd. by apply (NoDup_fmap_1 KStr).
Qed.

Lemma enc_le_dict l l' :
  NoDup (map fst l) -> Forall2 (fun x y => x.1 = y.1 /\ enc_le x.2 y.2) l l' ->
  enc_le (PDict l) (PDict l').
Proof.
  intros Nd F b Hb. apply enc_dict in Hb as (its & h & es & Hits & Hh & He & ->).
  destruct (str_items_related enc_le l l' its F Hits) as (its' & Hits' & F').
  pose proof (dict_keys_nodup l its Nd Hits) as Nd'.
  assert (K : map fst its = map fst its').
  { clear -F'. induction F' as [|x y l l' [Hk _] _ IH]; [done|]. simpl. by rewrite Hk, IH. }
  eapply enc_dict_ok; [by rewrite <- K|done| |].
  - unfold zlen in *. by rewrite <- (Forall2_length _ _ _ F).
  - pose proof (sorted_related enc_le its its' K F') as S. clear -S He. revert es He.
    induction S as [|[k v] [k' v'] s s' [Hk Hv] _ IH]; intros es E; [done|].
    simpl in Hk, Hv. subst k'. apply rmap_inv_cons in E as (y & r & E1 & E2 & ->).
    apply rmap_inv_cons. exists y, r. split; [|split; [by apply IH|done]].
    unfold encode_item in *. simpl in *. apply rbind_ok in E1 as (kb & -> & E1).
    apply rbind_ok in E1 as (vb & Ev & [= <-]). simpl. by rewrite (Hv vb Ev).
Qed.

Lemma enc_dict_perm l l' : NoDup (map fst l) -> l ≡ₚ l' -> enc_le (PDict l) (PDict l').
Proof.
  intros Nd P b Hb. apply enc_dict in Hb as (its & h & es & Hits & Hh & He & ->).
  destruct (str_items_perm l l' its P Hits) as (its' & Hits' & P').
  pose proof (dict_keys_nodup l its Nd Hits) as Nd'.
  eapply enc_dict_ok; [|exact Hits'| |].
  - by rewrite <- P'.
  - by rewrite <- P.
  - by rewrite <- (sorted_items_perm its its' Nd' P').
Qed.

Lemma enc_set_perm l l' : l ≡ₚ l' -> enc_le (PSet l) (PSet l').
Proof.
  intros P b. rewrite !enc_set. intros (es & h & He & Hh & ->).
  destruct (rmap_perm _ _ _ _ P He) as (es' & He' & P'). exists es', h.
  by rewrite <- (sorted_set_perm es es' P').
Qed.

Lemma enc_number n f : collapses f = true -> ftrunc f = Ok n -> enc_arg (PFloat f) = enc_arg (PInt n).
Proof.
  intros Hc Hn. unfold enc_arg. simpl. unfold _encode_float.
  assert (isnan f || isinf f = false) as -> by (by destruct f).
  simpl. by rewrite Hc, Hn.
Qed.

Lemma same_enc v v' : same_arg v v' -> wf_val v -> enc_le v v' /\ enc_le v' v.
Proof.
  induction 1 as [n f Hf Hc Hn|l|b|v|s|s|l l' P|l l' P|pre v v' post S IH|pre v v' post S IH
    |pre k v v' post S IH|v|v v' S IH|v1 v2 v3 S1 IH1 S2 IH2]; intros Wf;
    try (split; intros b0 Hb; exact Hb).
  - unfold enc_le. rewrite (enc_number n f Hc Hn). by split.
  - simpl in Wf. destruct Wf as [_ Nd]. split; apply enc_dict_perm; try done. by rewrite <- P.
  - split; by apply enc_set_perm.
  - simpl in Wf. rewrite wf_list, list.Forall_app, list.Forall_cons in Wf.
    destruct IH as [H1 H2]; [tauto|].
    split; apply enc_le_list, Forall2_one; try done; by intros ? ? ?.
  - simpl in Wf. rewrite wf_list, list.Forall_app, list.Forall_cons in Wf.
    destruct IH as [H1 H2]; [tauto|].
    split; apply enc_le_set, Forall2_one; try done; by intros ? ? ?.
  - simpl in Wf. rewrite wf_items, list.Forall_app, list.Forall_cons in Wf. unfold wf_item in Wf. simpl in Wf.
    destruct IH as [H1 H2]; [tauto|].
    split; apply enc_le_dict; rewrite ?map_app in *; simpl in *; try tauto;
      apply Forall2_one; try done; by split; [|intros ? ?].
  - apply same_wf in S. apply S in Wf. destruct (IH Wf). by split.
  - destruct (IH1 Wf) as [A1 A2]. apply (same_wf _ _ S1) in Wf. destruct (IH2 Wf) as [B1 B2].
    split; intros b Hb; auto.
Qed.

(** ** Normalization stays in the data model *)

Lemma rmap_back {E A B} (f : A -> result E B) l ys y :
  rmap f l = Ok ys -> y ∈ ys -> exists x, x ∈ l /\ f x = Ok y.
Proof.
  revert ys. induction l as [|x l IH]; intros ys E1 Hy.
  - injection E1 as <-. by apply not_elem_of_nil in Hy.
  - apply rmap_inv_cons in E1 as (z & r & E1 & E2 & ->). apply elem_of_cons in Hy as [->|Hy].
    + exists x. split; [by left|done].
    + destruct (IH r E2 Hy) as (x' & ? & ?). exists x'. split; [by right|done].
Qed.

Lemma norm_list_wf (f : pyval -> result ierr pyval) l l' :
  Forall (fun v => forall n, wf_val v -> f v = Ok n -> wf_val n) l ->
  Forall wf_val l -> rmap f l = Ok l' -> Forall wf_val l'.
Proof.
  intros IH Wf E. apply list.Forall_forall. intros y Hy.
  destruct (rmap_back _ _ _ _ E Hy) as (x & Hx & Ex).
  rewrite list.Forall_forall in IH, Wf. apply (IH x Hx y); [by apply Wf|done].
Qed.

Lemma norm_dict_wf (f : pyval -> result ierr pyval) l l' :
  Forall (fun kv => forall n, wf_val kv.2 -> f kv.2 = Ok n -> wf_val n) l ->
  Forall wf_item l -> NoDup (map fst l) -> rmap (norm_item_with f) l = Ok l' -> wf_val (PDict l').
Proof.
  intros IH Wf Nd E. simpl. rewrite wf_items. split.
  - apply list.Forall_forall. intros y Hy. destruct (rmap_back _ _ _ _ E Hy) as ([k v] & Hx & Ex).
    rewrite list.Forall_forall in IH, Wf. specialize (IH _ Hx). specialize (Wf _ Hx).
    unfold norm_item_with in Ex. destruct Wf as [Wk Wv]. simpl in *. destruct k; try done.
    apply rbind_ok in Ex as (n & En & [= <-]). split; [done|]. by apply IH.
  - assert (map fst l' = map fst l) as ->; [|done]. clear -E. revert l' E.
    induction l as [|[k v] l IH]; intros l' E; [by injection E as <-|].
    apply rmap_inv_cons in E as (y & r & E1 & E2 & ->). simpl. rewrite (IH r E2). f_equal.
    unfold norm_item_with in E1. simpl in E1. destruct k; try done.
    apply rbind_ok in E1 as (n & _ & [= <-]). done.
Qed.

Lemma norm_wf v n : wf_val v -> _normalize_arg v = Ok n -> wf_val n.
Proof.
  revert n. induction v as [|x|z|f|s|x|x|l IH|l IH|l IH|l IH|v IH|s|s|s|tz s|s|s|a|es|t] using pyval_deep;
    intros n Wf Hn; simpl in Hn; try done; try (by injection Hn as <-).
  - apply rbind_ok in Hn as (l' & E & [= <-]). simpl in *. rewrite wf_list in Wf |- *.
    by apply (norm_list_wf _normalize_arg l).
  - apply rbind_ok in Hn as (l' & E & [= <-]). simpl in *. rewrite wf_list in Wf |- *.
    by apply (norm_list_wf _normalize_arg l).
  - apply rbind_ok in Hn as (l' & E & [= <-]). simpl in Wf. rewrite wf_items in Wf. destruct Wf as [Wf Nd].
    by apply (norm_dict_wf _normalize_arg l).
  - apply rbind_ok in Hn as (es & E & [= <-]). simpl in Wf |- *. rewrite wf_list in Wf.
    apply list.Forall_forall. intros e He. unfold sorted_set in He.
    rewrite sorted_strs_perm, elem_of_remove_dups in He.
    destruct (rmap_back _ _ _ _ E He) as (x & Hx & Ex). apply rbind_ok in Ex as (m & Em & Ex).
    rewrite list.Forall_forall in IH, Wf. pose proof (IH x Hx m (Wf x Hx) Em) as Wm.
    exists (denote true m). split; [by apply encode_reads|by apply encode_canonical].
  - by apply IH.
  - destruct tz; try done. injection Hn as <-. simpl in *. tauto.
Qed.

(** ** The canonical form *)

Lemma args_reads args b :
  Forall wf_val args -> canonical_args_bytes args = Ok b ->
  exists l, rmap _normalize_arg args = Ok l /\ wf_val (PList l) /\
    _encode true (PList l) = Ok b.
Proof.
  intros Wf. unfold canonical_args_bytes. rewrite rbind_ok. intros (l & E & Hb).
  exists l. split; [done|]. split; [|done]. apply (norm_wf (PList args)).
  - simpl. by rewrite wf_list.
  - simpl. by rewrite E.
Qed.

(** C25. The encoding is a canonical form, in both profiles: a document is read
    back by a MessagePack reader as the value it stands for, with nothing left
    over whatever follows it, and two values have the same bytes exactly when
    they stand for the same document value. *)
Theorem canonical_form c v v' b b' :
  wf_val v -> wf_val v' -> _encode_canonical c v = Ok b -> _encode_canonical c v' = Ok b' ->
  (forall rest, mdecode (length b) (b ++ rest) = Some (denote c v, rest)) /\
  (b = b' <-> denote c v = denote c v').
Proof.
  intros W W' E E'. pose proof (encode_reads c v b W E) as R.
  pose proof (encode_reads c v' b' W' E') as R'. split; [intros rest; by apply R|]. split.
  - intros <-. apply (reads_as_prefix b b [] [] _ _ R R' eq_refl).
  - intros D. pose proof (encode_canonical c v b W E) as C.
    pose proof (encode_canonical c v' b' W' E') as C'. rewrite D, C' in C. by injection C.
Qed.

(** Arguments that are the same to another SDK give the same canonical
    bytes, hence the same key: the insertion order of dictionaries and the
    iteration order of sets do not matter at any depth, nor does an integer
    written as an integral float, a tuple as a list, a [bytearray] as bytes, an
    [Enum] member as its value, a path or UUID as its text. *)
Theorem same_args_same_bytes pre v v' post b :
  same_arg v v' -> Forall wf_val (pre ++ v :: post) ->
  canonical_args_bytes (pre ++ v :: post) = Ok b <-> canonical_args_bytes (pre ++ v' :: post) = Ok b.
Proof.
  intros S Wf.
  assert (A : forall l, canonical_args_bytes l = enc_arg (PList l)).
  { intros l. unfold canonical_args_bytes, enc_arg. simpl. by destruct (rmap _normalize_arg l). }
  rewrite !A. destruct (same_enc _ _ (same_in_list pre v v' post S)) as [H1 H2].
  - simpl. by rewrite wf_list.
  - split; [apply H1|apply H2].
Qed.

(** ** Segments and keys *)

Lemma validate_segment_ok v s :
  validate_segment v = Ok s -> v = PStr s /\ segment_ok s = true.
Proof.
  unfold validate_segment. destruct v; try done. destruct (segment_ok s0) eqn:E; [|done].
  by intros [= <-].
Qed.

Lemma segment_chars s :
  segment_ok s = true -> 1 <= zlen s <= 64 /\ Forall (fun c => seg_char c = true) s.
Proof.
  unfold segment_ok. destruct s as [|c r]; [done|]. intros E.
  apply andb_true_iff in E as [E L]. apply andb_true_iff in E as [Hc Hr]. zbool.
  rewrite zlen_cons. pose proof (zlen_nonneg r). split; [lia|].
  constructor; [unfold seg_char; by rewrite Hc|].
  apply list.Forall_forall. intros x Hx. rewrite forallb_forall in Hr.
  by apply Hr, list_elem_of_In.
Qed.

Lemma seg_char_not_colon c : seg_char c = true -> c <> 58.
Proof. intros H ->. discriminate H. Qed.

Section Keys.
Context (blake2b : Z -> pybytes -> pybytes).
Context {digest : Digest blake2b}.

Lemma interop_key_parts ns op args k :
  generate_interop_key blake2b ns op args = Ok k ->
  segment_ok ns = true /\ segment_ok op = true /\
  exists b, canonical_args_bytes args = Ok b /\
    k = ns ++ 58 :: op ++ 58 :: hexdigest (blake2b 32 b).
Proof.
  unfold generate_interop_key. intros E. apply rbind_ok in E as (s & Es & E).
  apply validate_segment_ok in Es as [[= <-] Hs]. apply rbind_ok in E as (o & Eo & E).
  apply validate_segment_ok in Eo as [[= <-] Ho]. apply rbind_ok in E as (h & Eh & [= <-]).
  apply rbind_ok in Eh as (b & Eb & [= <-]). split; [done|]. split; [done|]. by exists b.
Qed.

(** An interop key is at most 194 characters of [[a-z0-9._:-]]: it is
    [namespace:operation:hash] with two validated segments and 64 hex digits,
    so no backend limit ever truncates it. *)
Theorem interop_key_shape ns op args k :
  generate_interop_key blake2b ns op args = Ok k ->
  5 <= zlen k <= 194 /\ Forall (fun c => seg_char c = true \/ c = 58) k /\
  exists h, k = ns ++ u ":" ++ op ++ u ":" ++ h /\ zlen h = 64.
Proof.
  intros E. apply interop_key_parts in E as (Hs & Ho & b & _ & ->).
  apply segment_chars in Hs as [Ls Cs]. apply segment_chars in Ho as [Lo Co].
  assert (Lh : zlen (hexdigest (blake2b 32 b)) = 64) by (by apply digest_hex_length).
  split; [rewrite !zlen_app, zlen_cons, zlen_app, zlen_cons; lia|]. split.
  - rewrite list.Forall_app, list.Forall_cons, list.Forall_app, list.Forall_cons.
    split; [eapply list.Forall_impl; [exact Cs|by left]|]. split; [by right|].
    split; [eapply list.Forall_impl; [exact Co|by left]|]. split; [by right|].
    eapply list.Forall_impl; [by apply (digest_hex blake2b 32 b)|]. intros c Hc. left.
    unfold is_hex, seg_char, seg_start in *. destruct Hc as [Hc|Hc]; ztests; by rewrite ?orb_true_r.
  - by exists (hexdigest (blake2b 32 b)).
Qed.

(** C27. Key identity: two interop keys are equal only if they have the same
    namespace, the same operation, and argument lists that stand for the same
    document values, unless two different canonical byte strings have the same
    Blake2b-256 digest. *)
Theorem interop_key_identity ns op args ns' op' args' k :
  Forall wf_val args -> Forall wf_val args' ->
  generate_interop_key blake2b ns op args = Ok k ->
  generate_interop_key blake2b ns' op' args' = Ok k ->
  ns = ns' /\ op = op' /\
  exists l l' b b', rmap _normalize_arg args = Ok l /\ rmap _normalize_arg args' = Ok l' /\
    canonical_args_bytes args = Ok b /\ canonical_args_bytes args' = Ok b' /\
    (map (denote true) l = map (denote true) l' \/ b <> b' /\ blake2b 32 b = blake2b 32 b').
Proof.
  intros W W' E E'. apply interop_key_parts in E as (Hs & Ho & b & Eb & ->).
  apply interop_key_parts in E' as (Hs' & Ho' & b' & Eb' & E).
  assert (NC : forall s, segment_ok s = true -> Forall (fun c => c <> 58) s).
  { intros s H. apply segment_chars in H as [_ H]. eapply list.Forall_impl; [exact H|].
    apply seg_char_not_colon. }
  apply split_at in E as [-> E]; [|by apply NC..]. apply split_at in E as [-> E]; [|by apply NC..].
  apply hexdigest_inj in E; [|apply digest_bytes..].
  split; [done|]. split; [done|].
  destruct (args_reads args b W Eb) as (l & El & Wl & Cl).
  destruct (args_reads args' b' W' Eb') as (l' & El' & Wl' & Cl').
  exists l, l', b, b'. split_and!; try done.
  destruct (decide (b = b')) as [->|Hne]; [left|right; done].
  destruct (reads_as_prefix b' b' [] [] _ _ (encode_reads true _ _ Wl Cl) (encode_reads true _ _ Wl' Cl') eq_refl)
    as [D _]. simpl in D. by injection D.
Qed.

End Keys.

(** ** Values *)

(** The Python objects a MessagePack reader makes of a document. *)
Fixpoint to_py (m : mval) : pyval :=
  match m with
  | MNil => PNone
  | MBool b => PBool b
  | MInt n => PInt n
  | MFloat f => PFloat f
  | MStr s => PStr s
  | MBin b => PBytes b
  | MArr l => PList (map to_py l)
  | MMap l => PDict (map (fun kv => (KStr kv.1, to_py kv.2)) l)
  end.

(** The form a value comes back in: tuples are lists, bytearrays are bytes,
    dictionaries are in key order. *)
Fixpoint canon_value (v : pyval) : pyval :=
  match v with
  | PByteArray b => PBytes b
  | PList l | PTuple l => PList (map canon_value l)
  | PDict l =>
      match str_items (map (fun kv => (kv.1, canon_value kv.2)) l) with
      | Some its => PDict (map (fun kv => (KStr kv.1, kv.2)) (sorted_items its))
      | None => v
      end
  | _ => v
  end.

Section Values.
Context (datetime_iso date_iso time_iso : pystr -> result py_exn pyval).
Context (unpackb : pybytes -> option pyval).
(** The library reads a well-formed document as its value. *)
Hypothesis unpack_spec : forall bs m, mload bs = Some m -> unpackb bs = Some (to_py m).

Local Abbreviation revive_map := (_revive_sentinels datetime_iso date_iso time_iso).

(** The temporal values in [v] are read back from their ISO text, and no
    dictionary of [v] looks like a temporal sentinel. *)
Fixpoint revivable (v : pyval) : Prop :=
  match v with
  | PDatetime _ iso => datetime_iso (_iso_utc iso) = Ok v
  | PDate iso => date_iso iso = Ok v
  | PTime iso => time_iso (_iso_utc iso) = Ok v
  | PList l | PTuple l => foldr (fun x P => revivable x /\ P) True l
  | PDict l =>
      foldr (fun kv P => revivable kv.2 /\ P) True l /\
      match canon_value v with PDict l' => revive_map l' = Ok (PDict l') | _ => True end
  | _ => True
  end.

Lemma revivable_list l : foldr (fun x P => revivable x /\ P) True l <-> Forall revivable l.
Proof. induction l as [|x l IH]; simpl; [by split|]. by rewrite IH, list.Forall_cons. Qed.

Lemma revivable_items (l : list (pykey * pyval)) :
  foldr (fun kv P => revivable kv.2 /\ P) True l <-> Forall (fun kv => revivable kv.2) l.
Proof. induction l as [|x l IH]; simpl; [by split|]. by rewrite IH, list.Forall_cons. Qed.

Local Abbreviation revive_all := (revive datetime_iso date_iso time_iso).

(** What a value is read back as: tuples as lists, bytearrays as bytes, dictionaries
    in the order of their keys, and temporal values from their ISO text; also a
    dictionary with the shape of a temporal value. *)
Fixpoint read_back (v : pyval) : result py_exn pyval :=
  match v with
  | PByteArray b => Ok (PBytes b)
  | PDatetime _ iso => datetime_iso (_iso_utc iso)
  | PDate iso => date_iso iso
  | PTime iso => time_iso (_iso_utc iso)
  | PList l | PTuple l => rbind (rmap read_back l) (fun l' => Ok (PList l'))
  | PDict l =>
      match str_items (map (fun kv => (kv.1, read_back kv.2)) l) with
      | Some its =>
          rbind (rmap (fun kv => rbind kv.2 (fun x => Ok (KStr kv.1, x))) (sorted_items its)) revive_map
      | None => Ok v
      end
  | _ => Ok v
  end.

Definition comes_back (v : pyval) : Prop :=
  forall n, _normalize_value v = Ok n -> revive_all (to_py (denote false n)) = read_back v.

Lemma list_comes_back l l' :
  Forall comes_back l -> rmap _normalize_value l = Ok l' ->
  revive_all (to_py (denote false (PList l'))) = rbind (rmap read_back l) (fun l' => Ok (PList l')).
Proof.
  intros IH E. simpl. rewrite map_map, rmap_map. f_equal.
  revert l' E. induction IH as [|x l Hx _ IH]; intros l' E; [by injection E as <-|].
  apply rmap_inv_cons in E as (y & r & E1 & E2 & ->). simpl. by rewrite (Hx y E1), (IH r E2).
Qed.

Lemma dict_comes_back l l' :
  Forall (fun kv => comes_back kv.2) l -> rmap (norm_item_with _normalize_value) l = Ok l' ->
  revive_all (to_py (denote false (PDict l'))) = read_back (PDict l).
Proof.
  intros IH E. destruct (norm_items_with _ l l' E) as (its & its' & I1 & I2 & I3 & I4).
  cbn [denote read_back]. rewrite (str_items_map (denote false)), I2. rewrite (str_items_map read_back), I1.
  cbn [fmap option_fmap option_map]. rewrite !sorted_items_map. cbn [to_py revive].
  rewrite !map_map, !rmap_map. cbn [on_value fst snd].
  pose proof (sorted_related (fun v n => _normalize_value v = Ok n) its its' (eq_sym I3) I4) as F.
  assert (Hin : forall kv, kv ∈ sorted_items its -> (KStr kv.1, kv.2) ∈ l).
  { intros [k v] Hk. apply (str_items_elem l its); [done|]. by apply sorted_items_elem. }
  f_equal. clear -IH F Hin. induction F as [|[k v] [k' n] s s' [Hk Hv] _ IHs]; [done|].
  simpl in Hk, Hv. subst k'. assert (Hl : (KStr k, v) ∈ l) by (apply (Hin (k, v)); by left).
  rewrite list.Forall_forall in IH. pose proof (IH _ Hl n Hv) as Ev.
  assert (IHs' := IHs (fun kv H => Hin kv (list_elem_of_further _ _ _ H))). simpl in *. by rewrite Ev, IHs'.
Qed.

Lemma value_comes_back v : comes_back v.
Proof.
  induction v as [|x|z|f|s|x|x|l IH|l IH|l IH|l IH|v IH|s|s|s|tz s|s|s|a|es|t] using pyval_deep;
    intros n Hn; simpl in Hn; try done; try (by injection Hn as <-).
  - apply rbind_ok in Hn as (l' & E & [= <-]). by apply list_comes_back.
  - apply rbind_ok in Hn as (l' & E & [= <-]). by apply list_comes_back.
  - apply rbind_ok in Hn as (l' & E & [= <-]). by apply dict_comes_back.
Qed.

(** Nothing is lost of a value whose dictionaries do not look like temporal values. *)
Lemma rmap_read_back l : Forall (fun v => revivable v -> read_back v = Ok (canon_value v)) l -> Forall revivable l ->
  rmap read_back l = Ok (map canon_value l).
Proof. induction 1 as [|x l Hx _ IH]; [done|]. intros [Rx Rl]%list.Forall_cons. simpl. by rewrite Hx, IH. Qed.

Lemma revivable_read_back v : revivable v -> read_back v = Ok (canon_value v).
Proof.
  induction v as [|x|z|f|s|x|x|l IH|l IH|l IH|l IH|v IH|s|s|s|tz s|s|s|a|es|t] using pyval_deep; intros Rv; try done.
  1-2: simpl in Rv |- *; apply revivable_list in Rv; by rewrite rmap_read_back.
  destruct Rv as [Rv Ns]. apply revivable_items in Rv. cbn [read_back canon_value] in *.
  rewrite (str_items_map read_back). rewrite (str_items_map canon_value) in *.
  destruct (str_items l) as [its|] eqn:I1; [|done]. cbn [fmap option_fmap option_map] in *.
  rewrite sorted_items_map, rmap_map. rewrite (sorted_items_map canon_value), map_map in Ns |- *. cbn [on_value fst snd] in *.
  assert (Hin : forall kv, kv ∈ sorted_items its -> (KStr kv.1, kv.2) ∈ l).
  { intros [k v] Hk. apply (str_items_elem l its); [done|]. by apply sorted_items_elem. }
  assert (G : rmap (fun x => rbind (read_back x.2) (fun y => Ok (KStr x.1, y))) (sorted_items its) =
    Ok (map (fun x => (KStr x.1, canon_value x.2)) (sorted_items its))).
  { clear -IH Rv Hin. induction (sorted_items its) as [|[k v] s IHs]; [done|].
    assert (Hl : (KStr k, v) ∈ l) by (apply (Hin (k, v)); by left). rewrite list.Forall_forall in IH, Rv.
    pose proof (IH _ Hl (Rv _ Hl)) as Ev. assert (IHs' := IHs (fun kv H => Hin kv (list_elem_of_further _ _ _ H))).
    simpl in *. by rewrite Ev, IHs'. }
  rewrite G. exact Ns.
Qed.

(** No document starts like a Python-internal frame. *)
Lemma document_not_ck b m : reads_as b m -> take 2 b <> u "CK".
Proof.
  intros R. destruct b as [|x [|y r]]; [done|done|]. intros [= -> ->].
  specialize (R (length (67 :: 75 :: r)) [] (Nat.le_refl _)). rewrite app_nil_r in R. discriminate R.
Qed.

Lemma sentinel_wf flag iso : Forall is_code_point flag -> flag <> u "value" -> Forall is_code_point iso ->
  wf_val (PDict [(KStr flag, PBool true); (KStr (u "value"), PStr iso)]).
Proof.
  intros Hf Hne Hi. simpl. split.
  - split; [done|]. split; [done|]. split; [apply (u_code_points "value")|done].
  - apply list.NoDup_cons. split; [|apply NoDup_singleton].
    rewrite list_elem_of_singleton. intros E. apply Hne. by injection E.
Qed.

Lemma norm_value_wf v n : wf_val v -> _normalize_value v = Ok n -> wf_val n.
Proof.
  revert n. induction v as [|x|z|f|s|x|x|l IH|l IH|l IH|l IH|v IH|s|s|s|tz s|s|s|a|es|t] using pyval_deep;
    intros n Wf Hn; cbn [_normalize_value] in Hn; try done; try (apply Ok_inj in Hn; subst n);
    try exact Wf; try (apply sentinel_wf; [apply u_code_points|vm_compute; discriminate|simpl in Wf; tauto]).
  - apply rbind_ok in Hn as (l' & E & [= <-]). simpl in *. rewrite wf_list in Wf |- *.
    by apply (norm_list_wf _normalize_value l).
  - apply rbind_ok in Hn as (l' & E & [= <-]). simpl in *. rewrite wf_list in Wf |- *.
    by apply (norm_list_wf _normalize_value l).
  - apply rbind_ok in Hn as (l' & E & [= <-]). simpl in Wf. rewrite wf_items in Wf. destruct Wf as [Wf Nd].
    by apply (norm_dict_wf _normalize_value l).
Qed.

(** C28. Value round trip: what [encode_interop_value] writes, [decode_interop_value]
    reads as [read_back] says, and it is never taken for a Python-internal frame: the
    value with tuples as lists, bytearrays as bytes, dictionaries in key order and
    temporal values read from their ISO text, provided these parse and no dictionary
    has the shape of a temporal value; one that has is read as that temporal value, or
    refused when its text is none. *)
Theorem value_roundtrip v b :
  wf_val v -> encode_interop_value v = Ok b ->
  decode_interop_value datetime_iso date_iso time_iso unpackb b =
    match read_back v with Ok x => Ok x | Err _ => Err InteropDecodeError end /\
  (revivable v -> decode_interop_value datetime_iso date_iso time_iso unpackb b = Ok (canon_value v)) /\
  take 2 b <> u "CK".
Proof.
  intros Wf E. unfold encode_interop_value in E. apply rbind_ok in E as (n & En & Eb).
  pose proof (encode_reads false n b (norm_value_wf v n Wf En) Eb) as R.
  assert (D : decode_interop_value datetime_iso date_iso time_iso unpackb b =
    match read_back v with Ok x => Ok x | Err _ => Err InteropDecodeError end).
  { unfold decode_interop_value. rewrite bool_decide_false by (by eapply document_not_ck).
    rewrite (unpack_spec b _ (reads_as_load b _ R)). by rewrite (value_comes_back v n En). }
  split_and!; [done| |by eapply document_not_ck]. intros Rv. by rewrite D, revivable_read_back.
Qed.

End Values.

(** ** Concrete values *)

(** [{"b": 2, "a": [True, {3, 1}]}] and the same with other orders and types. *)
Definition dict_ba : pyval :=
  PDict [(KStr (u "b"), PInt 2); (KStr (u "a"), PList [PBool true; PSet [PInt 3; PInt 1]])].
Definition dict_ab : pyval :=
  PDict [(KStr (u "a"), PList [PBool true; PSet [PInt 3; PInt 1]]); (KStr (u "b"), PInt 2)].

Lemma dict_ba_wf : wf_val dict_ba.
Proof.
  simpl. split_and!; try done; try apply (u_code_points "b"); try apply (u_code_points "a").
  apply list.NoDup_cons. split; [|apply NoDup_singleton].
  rewrite list_elem_of_singleton. vm_compute. discriminate.
Qed.

Definition arg_bytes : pybytes := match canonical_args_bytes [dict_ba] with Ok b => b | Err _ => [] end.

Lemma same_args_same_bytes_witness :
  canonical_args_bytes [dict_ba] = Ok arg_bytes /\ canonical_args_bytes [dict_ab] = Ok arg_bytes.
Proof.
  split; [vm_compute; reflexivity|].
  apply (same_args_same_bytes [] dict_ba dict_ab [] arg_bytes).
  - apply same_dict. apply Permutation_swap.
  - apply Forall_singleton, dict_ba_wf.
  - vm_compute. reflexivity.
Defined.

Lemma canonical_form_witness :
  denote true (PFloat (fofZ 2)) = denote true (PInt 2) /\
  denote false (PFloat (fofZ 2)) <> denote false (PInt 2).
Proof.
  split.
  - apply (canonical_form true (PFloat (fofZ 2)) (PInt 2) [2] [2]); vm_compute; reflexivity || exact I.
  - intros E. apply (canonical_form false (PFloat (fofZ 2)) (PInt 2)
      (203 :: pack_d (fofZ 2)) [2]) in E; [discriminate E|vm_compute; reflexivity|exact I
      |vm_compute; reflexivity|vm_compute; reflexivity].
Defined.

Definition sample_key : pystr :=
  match generate_interop_key toy_digest (u "users") (u "get_user") [PInt 42] with
  | Ok k => k | Err _ => [] end.

Lemma interop_key_shape_witness : zlen sample_key = 79 /\ zlen sample_key <= 194.
Proof.
  split; [vm_compute; reflexivity|].
  apply (interop_key_shape toy_digest (u "users") (u "get_user")
    [PInt 42] sample_key).
  vm_compute. reflexivity.
Defined.

Lemma interop_key_identity_witness :
  generate_interop_key toy_digest (u "users") (u "get_user") [PFloat (fofZ 42)] = Ok sample_key /\
  exists l l', rmap _normalize_arg [PInt 42] = Ok l /\ rmap _normalize_arg [PFloat (fofZ 42)] = Ok l' /\
    map (denote true) l = map (denote true) l'.
Proof.
  split; [vm_compute; reflexivity|].
  destruct (interop_key_identity toy_digest (u "users") (u "get_user") [PInt 42]
    (u "users") (u "get_user") [PFloat (fofZ 42)] sample_key)
    as (_ & _ & l & l' & b & b' & El & El' & Eb & Eb' & [D|[Hne _]]).
  - repeat constructor.
  - repeat constructor.
  - vm_compute. reflexivity.
  - vm_compute. reflexivity.
  - exists l, l'. auto.
  - exfalso. apply Hne. vm_compute in Eb, Eb'. congruence.
Defined.

(** [fromisoformat] at the one text used below. *)
Definition iso_sample : pystr := u "2020-01-01T00:00:00+00:00".
Definition some_datetime : pyval := PDatetime (Aware 18262 0 0) iso_sample.
Definition read_iso (s : pystr) : result py_exn pyval :=
  if decide (s = iso_sample) then Ok some_datetime else Err ValueError.

Definition sample_value : pyval :=
  PDict [(KStr (u "when"), some_datetime); (KStr (u "ids"), PTuple [PInt 1; PFloat (fofZ 2)])].

Definition sample_bytes : pybytes :=
  match encode_interop_value sample_value with Ok b => b | Err _ => [] end.

Definition load_py (bs : pybytes) : option pyval := to_py <$> mload bs.

Lemma load_py_spec bs m : mload bs = Some m -> load_py bs = Some (to_py m).
Proof. unfold load_py. by intros ->. Qed.

Lemma sample_value_wf : wf_val sample_value.
Proof.
  unfold sample_value, some_datetime. cbn [wf_val foldr fst snd map].
  split; [|apply list.NoDup_cons; split; [|apply NoDup_singleton];
    rewrite list_elem_of_singleton; vm_compute; discriminate].
  split_and!; try apply u_code_points; try exact I; vm_compute; reflexivity.
Qed.

(** A dictionary with the shape of a date is read as the date. *)
Definition dated : pyval := PDict [(KStr (u "__date__"), PBool true); (KStr (u "value"), PStr (u "2024-01-02"))].
Definition dated_bytes : pybytes := match encode_interop_value dated with Ok b => b | Err _ => [] end.

Lemma value_roundtrip_witness :
  decode_interop_value read_iso read_iso read_iso load_py sample_bytes =
    Ok (PDict [(KStr (u "ids"), PList [PInt 1; PFloat (fofZ 2)]); (KStr (u "when"), some_datetime)]) /\
  decode_interop_value read_iso (fun s => Ok (PDate s)) read_iso load_py dated_bytes = Ok (PDate (u "2024-01-02")).
Proof.
  split.
  - destruct (value_roundtrip read_iso read_iso read_iso load_py load_py_spec sample_value sample_bytes) as (_ & H & _);
      [exact sample_value_wf|vm_compute; reflexivity|]. rewrite H; vm_compute; [reflexivity|repeat split].
  - destruct (value_roundtrip read_iso (fun s => Ok (PDate s)) read_iso load_py load_py_spec dated dated_bytes) as (H & _);
      [|vm_compute; reflexivity|rewrite H; vm_compute; reflexivity].
    apply (sentinel_wf (u "__date__") (u "2024-01-02")); [apply u_code_points|vm_compute; discriminate|apply u_code_points].
Defined.
