(* ===== verification/Signature.v ===== *)
(** Binding a call to a function's signature, for interop keys: [bind_flat_args] of
    [src/src/cachekit/interop.py], with [inspect.Signature.bind] and
    [BoundArguments.apply_defaults] as Python 3.9 to 3.12 define them. *)
From Stdlib Require Import ZArith Lia SpecFloat.
From stdpp Require Import base list sets numbers option strings.
From S2P Require Import Prelude PyFloat PyDict PyValue Interop.

Local Open Scope Z_scope.
Local Open Scope py_scope.

Inductive param_kind :=
  | POSITIONAL_ONLY
  | POSITIONAL_OR_KEYWORD
  | VAR_POSITIONAL
  | KEYWORD_ONLY
  | VAR_KEYWORD.

#[export] Instance param_kind_eq_dec : EqDecision param_kind.
Proof. solve_decision. Defined.

Record parameter := mkParameter {
  p_name : pystr;
  p_kind : param_kind;
  p_default : option pyval
}.

(** What a parameter is bound to. *)
Inductive bound_value :=
  | One (v : pyval)
  | Args (vs : list pyval)
  | Kwargs (kw : list (pystr * pyval)).

Abbreviation kwargs := (list (pystr * pyval)).
Abbreviation arguments := (list (pystr * bound_value)).

(** The first loop of [bind]: positional arguments, and the parameters left for
    the second loop. *)
Fixpoint bind_positional (params : list parameter) (args : list pyval) (kw : kwargs) (bound : arguments)
  : result py_exn (arguments * list parameter) :=
  match args, params with
  | [], [] => Ok (bound, [])
  | [], p :: ps =>
      match p_kind p with
      | VAR_POSITIONAL => Ok (bound, ps)
      | k =>
          if od_mem (p_name p) kw then
            if bool_decide (k = POSITIONAL_ONLY) then Err TypeError else Ok (bound, p :: ps)
          else if bool_decide (k = VAR_KEYWORD) || bool_decide (is_Some (p_default p)) then Ok (bound, p :: ps)
          else Err TypeError
      end
  | _ :: _, [] => Err TypeError
  | a :: rest, p :: ps =>
      match p_kind p with
      | VAR_KEYWORD | KEYWORD_ONLY => Err TypeError
      | VAR_POSITIONAL => Ok (od_set (p_name p) (Args args) bound, ps)
      | k =>
          if od_mem (p_name p) kw && negb (bool_decide (k = POSITIONAL_ONLY)) then Err TypeError
          else bind_positional ps rest kw (od_set (p_name p) (One a) bound)
      end
  end.

(** The second loop: keyword arguments; the last [**] parameter, if any, and the
    keywords nothing took. *)
Fixpoint bind_keywords (params : list parameter) (kw : kwargs) (bound : arguments) (star : option parameter)
  : result py_exn (arguments * kwargs * option parameter) :=
  match params with
  | [] => Ok (bound, kw, star)
  | p :: ps =>
      match p_kind p with
      | VAR_KEYWORD => bind_keywords ps kw bound (Some p)
      | VAR_POSITIONAL => bind_keywords ps kw bound star
      | k =>
          match od_get (p_name p) kw with
          | Some v =>
              if bool_decide (k = POSITIONAL_ONLY) then Err TypeError
              else bind_keywords ps (od_pop (p_name p) kw) (od_set (p_name p) (One v) bound) star
          | None =>
              match p_default p with
              | None => Err TypeError
              | Some _ => bind_keywords ps kw bound star
              end
          end
      end
  end.

Definition bind (params : list parameter) (args : list pyval) (kw : kwargs) : result py_exn arguments :=
  r <-! bind_positional params args kw [] ;
  r2 <-! bind_keywords r.2 kw r.1 None ;
  match r2.1.2, r2.2 with
  | [], _ => Ok r2.1.1
  | rest, Some p => Ok (od_set (p_name p) (Kwargs rest) r2.1.1)
  | _, None => Err TypeError
  end.

(** [bound.apply_defaults()] *)
Definition with_default (bound : arguments) (p : parameter) : option (pystr * bound_value) :=
  match od_get (p_name p) bound with
  | Some v => Some (p_name p, v)
  | None =>
      match p_default p, p_kind p with
      | Some d, _ => Some (p_name p, One d)
      | None, VAR_POSITIONAL => Some (p_name p, Args [])
      | None, VAR_KEYWORD => Some (p_name p, Kwargs [])
      | None, _ => None
      end
  end.

Definition apply_defaults (params : list parameter) (bound : arguments) : arguments :=
  omap (with_default bound) params.

Definition keyed (kw : kwargs) : list (pykey * pyval) := (fun p => (KStr p.1, p.2)) <$> kw.

(** [list(...)], [dict(...)] or the argument itself. *)
Definition flat_value (bound : arguments) (p : parameter) : result py_exn pyval :=
  match p_kind p, od_get (p_name p) bound with
  | VAR_POSITIONAL, Some (Args vs) => Ok (PList vs)
  | VAR_POSITIONAL, None => Ok (PList [])
  | VAR_KEYWORD, Some (Kwargs kw) => Ok (PDict (keyed kw))
  | VAR_KEYWORD, None => Ok (PDict [])
  | _, Some (One v) => Ok v
  | _, _ => Err KeyError
  end.

Definition bind_flat_args (params : list parameter) (args : list pyval) (kw : kwargs) : result ierr (list pyval) :=
  match bind params args kw with
  | Err _ => Err InteropError
  | Ok bound =>
      match rmap (flat_value (apply_defaults params bound)) params with
      | Ok vs => Ok vs
      | Err e => Err (PyErr e)
      end
  end.

(** ** What binding means *)

(** What [inspect.Signature] sees to: no two parameters of one name, none behind
    [**kwargs], and no default for [*args] and [**kwargs]. *)
Definition param_names (ps : list parameter) : list pystr := p_name <$> ps.
Definition is_var (k : param_kind) : bool := bool_decide (k = VAR_POSITIONAL \/ k = VAR_KEYWORD).

Fixpoint kinds_ok (ps : list parameter) : Prop :=
  match ps with
  | [] => True
  | p :: r => (is_var (p_kind p) = true -> p_default p = None) /\ (p_kind p = VAR_KEYWORD -> r = []) /\ kinds_ok r
  end.

Definition wf_signature (ps : list parameter) : Prop := NoDup (param_names ps) /\ kinds_ok ps.

(** What the first parameter takes of the positional and of the keyword arguments
    of a call: what is bound to its name, the value it has then, and the arguments
    left.  [None]: the language refuses the call. *)
Definition take_args (p : parameter) (args : list pyval) (kw : kwargs)
  : option (option bound_value * pyval * list pyval * kwargs) :=
  match p_kind p, args with
  | VAR_POSITIONAL, [] => Some (None, PList [], [], kw)
  | VAR_POSITIONAL, _ => Some (Some (Args args), PList args, [], kw)
  | VAR_KEYWORD, [] => Some (match kw with [] => None | _ => Some (Kwargs kw) end, PDict (keyed kw), [], [])
  | VAR_KEYWORD, _ :: _ | KEYWORD_ONLY, _ :: _ => None
  | k, a :: rest =>
      (* a filled parameter has no keyword, unless that is one of [**kwargs] *)
      if od_mem (p_name p) kw && negb (bool_decide (k = POSITIONAL_ONLY)) then None
      else Some (Some (One a), a, rest, kw)
  | k, [] =>
      match od_get (p_name p) kw with
      | Some v => if bool_decide (k = POSITIONAL_ONLY) then None else Some (Some (One v), v, [], od_pop (p_name p) kw)
      | None => (fun d => (None, d, [], kw)) <$> p_default p
      end
  end.

(** The language's rule, parameter by parameter: no argument is left in the end. *)
Fixpoint bound_values (params : list parameter) (args : list pyval) (kw : kwargs) : option (list pyval) :=
  match params with
  | [] => match args, kw with [], [] => Some [] | _, _ => None end
  | p :: ps =>
      match take_args p args kw with
      | Some (_, v, args', kw') => (v ::.) <$> bound_values ps args' kw'
      | None => None
      end
  end.

(** ** The two loops implement the rule *)

(** [bind] from a dictionary on. *)
Definition keyword_part (ps : list parameter) (kw : kwargs) (bound : arguments) : result py_exn arguments :=
  r2 <-! bind_keywords ps kw bound None ;
  match r2.1.2, r2.2 with
  | [], _ => Ok r2.1.1
  | rest, Some p => Ok (od_set (p_name p) (Kwargs rest) r2.1.1)
  | _, None => Err TypeError
  end.

Definition bind_from (ps : list parameter) (args : list pyval) (kw : kwargs) (bound : arguments) : result py_exn arguments :=
  r <-! bind_positional ps args kw bound ; keyword_part r.2 kw r.1.

(** Without positional arguments the first loop finds nothing the second does not. *)
Lemma bind_from_keywords ps kw bound : bind_from ps [] kw bound = keyword_part ps kw bound.
Proof.
  unfold bind_from. destruct ps as [|p ps]; [done|]. cbn [bind_positional]. unfold od_mem, keyword_part. cbn [bind_keywords].
  destruct (p_kind p) eqn:Ek, (od_get (p_name p) kw) eqn:Eg, (p_default p) eqn:Ed; repeat case_bool_decide; try done;
    try (match goal with H : is_Some None |- _ => by destruct H | H : ~ is_Some (Some _) |- _ => by destruct H end);
    cbn; rewrite ?Ek, ?Eg, ?Ed; reflexivity.
Qed.

Definition bind_in (p : parameter) (o : option bound_value) (bound : arguments) : arguments :=
  match o with Some x => od_set (p_name p) x bound | None => bound end.

Lemma keyword_step p ps kw bound : kinds_ok (p :: ps) ->
  keyword_part (p :: ps) kw bound =
    match take_args p [] kw with
    | Some (o, _, _, kw') => keyword_part ps kw' (bind_in p o bound)
    | None => Err TypeError
    end.
Proof.
  intros (_ & Last & _). unfold keyword_part, take_args. cbn [bind_keywords].
  destruct (p_kind p) eqn:Ek, (od_get (p_name p) kw) eqn:Eg, (p_default p) eqn:Ed; try done;
    rewrite (Last eq_refl); by destruct kw.
Qed.

(** A parameter of [bind] is a parameter of the rule. *)
Lemma bind_step p ps args kw bound : kinds_ok (p :: ps) ->
  bind_from (p :: ps) args kw bound =
    match take_args p args kw with
    | Some (o, _, args', kw') => bind_from ps args' kw' (bind_in p o bound)
    | None => Err TypeError
    end.
Proof.
  intros K. destruct args as [|a args].
  - rewrite bind_from_keywords, keyword_step by done. destruct (take_args p [] kw) as [[[[o v] args'] kw']|] eqn:E; [|done].
    assert (args' = []) as -> by (unfold take_args in E; destruct (p_default p); repeat case_match; by simplify_eq/=).
    by rewrite bind_from_keywords.
  - unfold bind_from at 1, take_args. cbn [bind_positional].
    destruct (p_kind p) eqn:Ek; cbn; rewrite ?andb_false_r, ?andb_true_r; try done.
    + by destruct (od_mem (p_name p) kw).
    + by rewrite bind_from_keywords.
Qed.

(** ** What the parameters have in the end *)

Definition value_of (p : parameter) (o : option bound_value) : result py_exn pyval :=
  match p_kind p, o with
  | VAR_POSITIONAL, Some (Args vs) => Ok (PList vs)
  | VAR_POSITIONAL, None => Ok (PList [])
  | VAR_KEYWORD, Some (Kwargs kw) => Ok (PDict (keyed kw))
  | VAR_KEYWORD, None => Ok (PDict [])
  | (POSITIONAL_ONLY | POSITIONAL_OR_KEYWORD | KEYWORD_ONLY), None =>
      match p_default p with Some d => Ok d | None => Err KeyError end
  | _, Some (One v) => Ok v
  | _, _ => Err KeyError
  end.

Definition value_in (bound : arguments) (p : parameter) : result py_exn pyval := value_of p (od_get (p_name p) bound).

Lemma take_value p args kw o v args' kw' : take_args p args kw = Some (o, v, args', kw') -> value_of p o = Ok v.
Proof.
  unfold take_args, value_of. intros E. destruct (p_kind p), args, (p_default p); repeat (case_match; simplify_eq/=); done.
Qed.

(** Binding leaves the names of other parameters alone. *)
Definition frame (ps : list parameter) (bound bound' : arguments) : Prop :=
  forall n, n ∉ param_names ps -> od_get n bound' = od_get n bound.

(** The parameters a loop has not reached are unbound. *)
Definition unbound (ps : list parameter) (bound : arguments) : Prop :=
  forall n, n ∈ param_names ps -> od_get n bound = None.

Lemma frame_step p ps o bound b : frame ps (bind_in p o bound) b -> frame (p :: ps) bound b.
Proof.
  intros Fr n [H1 H2]%not_elem_of_cons. rewrite Fr by done. destruct o; [|done]. cbn. by rewrite od_get_set_ne.
Qed.

Lemma unbound_step p ps o bound : p_name p ∉ param_names ps -> unbound (p :: ps) bound -> unbound ps (bind_in p o bound).
Proof.
  intros Np F n Hn. destruct o; cbn; [rewrite od_get_set_ne by congruence|]; apply F; by right.
Qed.

Lemma bound_in p ps o bound : unbound (p :: ps) bound -> od_get (p_name p) (bind_in p o bound) = o.
Proof. intros F. destruct o; cbn; [apply od_get_set_eq|]. apply F. by left. Qed.

Lemma bind_implements ps args kw bound : wf_signature ps -> unbound ps bound ->
  match bound_values ps args kw with
  | Some vs => exists b, bind_from ps args kw bound = Ok b /\ rmap (value_in b) ps = Ok vs /\ frame ps bound b
  | None => bind_from ps args kw bound = Err TypeError
  end.
Proof.
  intros [N K]. revert args kw bound N K. induction ps as [|p ps IH]; intros args kw bound N K F.
  - cbn. destruct args; [|done]. destruct kw; [|done]. by exists bound.
  - cbn in N. apply list.NoDup_cons in N as [Np N]. cbn [bound_values]. rewrite bind_step by done.
    destruct (take_args p args kw) as [[[[o v] args'] kw']|] eqn:E; [|done].
    specialize (IH args' kw' (bind_in p o bound) N (proj2 (proj2 K)) (unbound_step _ _ _ _ Np F)).
    destruct (bound_values ps args' kw') as [vs|]; [|exact IH]. cbn. destruct IH as (b & -> & R & Fr). exists b.
    split; [done|]. split; [|by eapply frame_step]. unfold value_in at 1. rewrite Fr by done.
    by rewrite (bound_in p ps) by done; rewrite (take_value _ _ _ _ _ _ _ E); cbn; rewrite R.
Qed.

(** *** Defaults *)

Lemma defaults_get bound ps p : NoDup (param_names ps) -> p ∈ ps ->
  od_get (p_name p) (apply_defaults ps bound) = snd <$> with_default bound p.
Proof.
  intros N H. induction ps as [|q ps IH]; [by apply not_elem_of_nil in H|].
  cbn in N. apply list.NoDup_cons in N as [Nq N]. unfold apply_defaults. cbn [omap list_omap].
  assert (Q : forall x, with_default bound q = Some x -> x.1 = p_name q).
  { unfold with_default. intros x. repeat case_match; intros [= <-]; done. }
  apply elem_of_cons in H as [->|H].
  - destruct (with_default bound q) as [[n v]|] eqn:E; cbn.
    + specialize (Q _ eq_refl). cbn in Q. subst n. by rewrite decide_True.
    + apply od_get_None. intros K. apply list_elem_of_fmap in K as ([n v] & K1 & K). cbn in K1.
      apply list_elem_of_omap in K as (r & Hr & Er). destruct Nq. apply list_elem_of_fmap. exists r. split; [|done].
      unfold with_default in Er. repeat case_match; simplify_eq/=; done.
  - assert (D : p_name p <> p_name q).
    { intros E. destruct Nq. rewrite <- E. apply list_elem_of_fmap. by exists p. }
    destruct (with_default bound q) as [[n v]|] eqn:E; cbn; [|by apply IH].
    specialize (Q _ eq_refl). cbn in Q. subst n. rewrite decide_False by congruence. by apply IH.
Qed.

Lemma kinds_default ps p : kinds_ok ps -> p ∈ ps -> is_var (p_kind p) = true -> p_default p = None.
Proof.
  induction ps as [|q ps IH]; [by intros _ ?%not_elem_of_nil|]. intros (D & _ & K) [->|H]%elem_of_cons; [done|by apply IH].
Qed.

Lemma flat_value_in bound ps p : wf_signature ps -> p ∈ ps ->
  flat_value (apply_defaults ps bound) p = value_in bound p.
Proof.
  intros [N K] H. pose proof (kinds_default ps p K H) as D. unfold flat_value, value_in, value_of.
  rewrite (defaults_get bound ps p N H). unfold with_default.
  destruct (p_kind p), (od_get (p_name p) bound) as [[]|]; try done; try (by rewrite D); by destruct (p_default p).
Qed.

Lemma rmap_eq {E A B} (f g : A -> result E B) l : (forall x, x ∈ l -> f x = g x) -> rmap f l = rmap g l.
Proof.
  induction l as [|x l IH]; intros H; [done|]. cbn. rewrite (H x) by set_solver. destruct (g x); [|done].
  cbn. by rewrite IH by set_solver.
Qed.

(** C32. The flat list is what the language's rule gives the parameters, kind by
    kind: those to the left take the positional arguments, [*args] the positional
    arguments that are left, as one list; the others their keyword or their default,
    [**kwargs] the keywords that are left, as one map.  Positional, keyword and
    defaulted forms of one call give one list; a call the rule does not admit (a value
    too many, an unknown or doubled keyword, a value missing) is an [InteropError]. *)
Theorem bind_flat_args_spec ps args kw : wf_signature ps ->
  bind_flat_args ps args kw =
    match bound_values ps args kw with Some vals => Ok vals | None => Err InteropError end.
Proof.
  intros Wf. pose proof (bind_implements ps args kw [] Wf (fun n _ => eq_refl)) as H.
  assert (E : bind ps args kw = bind_from ps args kw []) by done. unfold bind_flat_args. rewrite E.
  destruct (bound_values ps args kw) as [vs|]; [|by rewrite H]. destruct H as (b & -> & R & _).
  rewrite (rmap_eq _ (value_in b)); [by rewrite R|]. intros p Hp. by apply flat_value_in.
Qed.

(** [def f(user_id, flag=False)], and [def g(a, /, b, *rest, c=None, **more)]. *)
Definition demo_params : list parameter :=
  [mkParameter (u "user_id") POSITIONAL_OR_KEYWORD None;
   mkParameter (u "flag") POSITIONAL_OR_KEYWORD (Some (PBool false))].
Definition every_kind : list parameter :=
  [mkParameter (u "a") POSITIONAL_ONLY None; mkParameter (u "b") POSITIONAL_OR_KEYWORD None;
   mkParameter (u "rest") VAR_POSITIONAL None; mkParameter (u "c") KEYWORD_ONLY (Some PNone);
   mkParameter (u "more") VAR_KEYWORD None].

Lemma bind_flat_args_spec_witness :
  bind_flat_args demo_params [PInt 42] [] = Ok [PInt 42; PBool false] /\
  bind_flat_args demo_params [] [(u "flag", PBool false); (u "user_id", PInt 42)] = Ok [PInt 42; PBool false] /\
  bind_flat_args demo_params [PInt 42] [(u "user_id", PInt 1)] = Err InteropError /\
  bind_flat_args every_kind [PInt 1; PInt 2; PInt 3; PInt 4] [(u "d", PInt 5); (u "c", PInt 6); (u "a", PInt 7)] =
    Ok [PInt 1; PInt 2; PList [PInt 3; PInt 4]; PInt 6; PDict [(KStr (u "d"), PInt 5); (KStr (u "a"), PInt 7)]].
Proof.
  assert (W : wf_signature demo_params) by (split; [apply (bool_decide_unpack _); by vm_compute|by repeat split]).
  assert (W' : wf_signature every_kind) by (split; [apply (bool_decide_unpack _); by vm_compute|by repeat split]).
  split_and!; rewrite bind_flat_args_spec by done; vm_compute; reflexivity.
Defined.
