(* ===== verification/KeyGenerator.v ===== *)
(** Automatic cache keys ([src/src/cachekit/key_generator.py]): normalization of
    the arguments, the function name, the key.  [packb] is [msgpack.packb],
    [blake2b] is [hashlib.blake2b]; the fast hashes of
    [src/src/cachekit/hash_utils.py] are over [blake3]. *)
From Stdlib Require Import ZArith Lia SpecFloat.
From stdpp Require Import base list numbers option strings sorting.
From S2P Require Import Prelude PyFloat Bytes PyValue.

Local Open Scope Z_scope.
Local Open Scope py_scope.

Definition ARRAY_MAX_BYTES : Z := 100000.
Definition ARRAY_AGGREGATE_MAX : Z := 5000000.
Definition DTYPE_MAP : list (pystr * pystr) :=
  [(u "int32", u "i32"); (u "int64", u "i64"); (u "float32", u "f32"); (u "float64", u "f64")].

Definition MAX_KEY_LENGTH : Z := 250.
Definition KEY_PREFIX_LENGTH : Z := 50.
Definition FUNC_NAME_MAX : Z := 200.
Definition SERIALIZER_CODES : list (pystr * pystr) :=
  [(u "std", u "s"); (u "auto", u "a"); (u "orjson", u "o"); (u "arrow", u "w"); (u "local", u "l")].

(** ** Ordering dictionary items *)

(** Keys of different kinds never reach the sort; they are ranked by kind here
    to make this a total order. *)
Definition key_rank (k : pykey) : Z :=
  match k with KStr _ => 0 | KInt _ => 1 | KBytes _ => 2 | KNone => 3 end.

Definition key_leb (a b : pykey) : bool :=
  match a, b with
  | KStr x, KStr y => lex_leb x y
  | KInt x, KInt y => x <=? y
  | KBytes x, KBytes y => lex_leb x y
  | _, _ => key_rank a <=? key_rank b
  end.

(** Keys Python can order against each other. *)
Definition comparable (a b : pykey) : bool :=
  match a, b with
  | KStr _, KStr _ | KInt _, KInt _ | KBytes _, KBytes _ => true
  | _, _ => false
  end.

Definition key_le {A} (x y : pykey * A) : Prop := key_leb x.1 y.1 = true.

#[export] Instance key_le_dec {A} (x y : pykey * A) : Decision (key_le x y).
Proof. unfold key_le. apply _. Defined.

(** [sorted(d.items())]; keys of different kinds raise a [TypeError]. *)
Definition sorted_dict {A} (l : list (pykey * A)) : result py_exn (list (pykey * A)) :=
  match l with
  | [] | [_] => Ok l
  | (k, _) :: _ => if forallb (fun x => comparable k x.1) l then Ok (merge_sort key_le l) else Err TypeError
  end.

(** ** Running normalizations in order, threading the array counter *)

Definition counting (A : Type) : Type := Z -> result py_exn (A * Z).

Fixpoint in_order {A} (l : list (counting A)) : counting (list A) := fun seen =>
  match l with
  | [] => Ok ([], seen)
  | m :: r =>
      p <-! m seen ;
      q <-! in_order r p.2 ;
      Ok (p.1 :: q.1, q.2)
  end.

(** ** Function names *)

Definition func_char (c : Z) : bool :=
  ((65 <=? c) && (c <=? 90)) || ((97 <=? c) && (c <=? 122)) || ((48 <=? c) && (c <=? 57))
  || (c =? 95) || (c =? 46).

(** [re.sub("\.{2,}", ".", s)] *)
Fixpoint collapse_dots (s : pystr) : pystr :=
  match s with
  | [] => []
  | c :: r =>
      match r with
      | d :: _ => if (c =? 46) && (d =? 46) then collapse_dots r else c :: collapse_dots r
      | [] => [c]
      end
  end.

Definition _sanitize_func_name (module qualname : pystr) : pystr :=
  let raw := module ++ u "." ++ qualname in
  let sanitized := map (fun c => if func_char c then c else 95) raw in
  take (Z.to_nat FUNC_NAME_MAX) (collapse_dots sanitized).

(** [key.replace(" ", "_").replace("\n", "_").replace("\r", "_")] *)
Definition replace_chars (key : pystr) : pystr :=
  map (fun c => if (c =? 32) || (c =? 10) || (c =? 13) then 95 else c) key.

Section KeyGenerator.
Context (blake2b : Z -> pybytes -> pybytes).
Context (packb : pyval -> result py_exn pybytes).

Definition _normalize_array (a : ndarray) : counting pyval := fun seen =>
  if ARRAY_MAX_BYTES <? a_nbytes a then Err TypeError
  else
    let seen' := seen + a_nbytes a in
    if ARRAY_AGGREGATE_MAX <? seen' then Err TypeError
    else if negb (zlen (a_shape a) =? 1) then Err TypeError
    else match assoc (a_dtype a) DTYPE_MAP with
         | None => Err TypeError
         | Some d =>
             Ok (PList [PStr (u "__array_v1__"); PList (map PInt (a_shape a)); PStr d;
                        PStr (hexdigest (blake2b 32 (a_content a)))], seen')
         end.

Definition pure {A} (x : A) : counting A := fun seen => Ok (x, seen).

(** The branches only choose the message. *)
Definition _raise_unsupported_type : counting pyval := fun _ => Err TypeError.

Fixpoint _normalize (obj : pyval) : counting pyval :=
  match obj with
  | PDict l => fun seen =>
      items <-! sorted_dict (map (fun kv => (kv.1, _normalize kv.2)) l) ;
      r <-! in_order (map snd items) seen ;
      Ok (PDict (zip (map fst items) r.1), r.2)
  | PList l | PTuple l => fun seen =>
      r <-! in_order (map _normalize l) seen ; Ok (PList r.1, r.2)
  | PFloat f => pure (PFloat (if feq f (S754_zero false) then S754_zero false else f))
  | PPath s | PUUID s | PDecimal s => pure (PStr s)
  | PEnum v => _normalize v
  | PDatetime Naive _ => fun _ => Err TypeError
  | PDatetime _ iso => pure (PStr iso)
  | PArray a => _normalize_array a
  | PInt _ | PStr _ | PBytes _ | PBool _ | PNone => pure obj
  | PByteArray _ | PSet _ | PDate _ | PTime _ | PPreEncoded _ | PObject _ => _raise_unsupported_type
  end.

(** The normalized arguments the hash is taken of. *)
Definition normalized_call (args : list pyval) (kwargs : list (pykey * pyval))
  : result py_exn (pyval * Z) :=
  a <-! in_order (map _normalize args) 0 ;
  items <-! sorted_dict kwargs ;
  k <-! in_order (map (fun kv => _normalize kv.2) items) a.2 ;
  Ok (PList [PList a.1; PDict (zip (map fst items) k.1)], k.2).

Definition _blake2b_hash (args : list pyval) (kwargs : list (pykey * pyval)) : result py_exn pystr :=
  n <-! normalized_call args kwargs ;
  b <-! packb n.1 ;
  Ok (hexdigest (blake2b 32 b)).

Definition _normalize_key (key : pystr) : result py_exn pystr :=
  let normalized := replace_chars key in
  if MAX_KEY_LENGTH <? zlen normalized then
    bs <-! utf8_encode normalized ;
    let key_hash := hexdigest (blake2b 32 bs) in
    let prefix := if KEY_PREFIX_LENGTH <? zlen normalized
                  then take (Z.to_nat KEY_PREFIX_LENGTH) normalized else normalized in
    Ok (prefix ++ u ":" ++ take 32 key_hash)
  else Ok normalized.

(** The key before [_normalize_key]; [if namespace:] skips an empty one. *)
Definition raw_key (namespace : option pystr) (func_name args_hash : pystr)
    (integrity_checking : bool) (serializer_type : pystr) : pystr :=
  (match namespace with Some (c :: r) => u "ns:" ++ (c :: r) ++ u ":" | _ => [] end)
  ++ u "func:" ++ func_name ++ u ":"
  ++ u "args:" ++ args_hash ++ u ":"
  ++ (if integrity_checking then u "1" else u "0")
  ++ default (u "s") (assoc serializer_type SERIALIZER_CODES).

Definition generate_key (module qualname : pystr) (args : list pyval)
    (kwargs : list (pykey * pyval)) (namespace : option pystr) (integrity_checking : bool)
    (serializer_type : pystr) : result py_exn pystr :=
  h <-! _blake2b_hash args kwargs ;
  _normalize_key (raw_key namespace (_sanitize_func_name module qualname) h
                    integrity_checking serializer_type).

End KeyGenerator.

(** ** The hashes of [hash_utils] *)

Section HashUtils.
(** [blake3.blake3(data).digest()] *)
Context (blake3 : pybytes -> pybytes).

Definition fast_hash (data : pystr + pybytes) (digest_size : Z) : result py_exn pystr :=
  bs <-! match data with inl s => utf8_encode s | inr b => Ok b end ;
  Ok (take (Z.to_nat (digest_size * 2)) (hexdigest (blake3 bs))).

Definition function_hash (func_name : pystr) : result py_exn pystr := fast_hash (inl func_name) 4.
Definition cache_key_hash (s : pystr) : result py_exn pystr := fast_hash (inl s) 16.
End HashUtils.
