(* ===== verification/KeyProps.v ===== *)
(** Properties of the automatic cache keys: what a key looks like, what it
    depends on, what it tells apart. *)
From Stdlib Require Import ZArith Lia SpecFloat.
From stdpp Require Import base list numbers option strings sorting.
From S2P Require Import Prelude PyFloat Bytes PyValue Interop KeyGenerator.

Local Open Scope Z_scope.
Local Open Scope py_scope.

(** ** Sorting the items of a dictionary *)

#[export] Instance key_le_total {A} : Total (@key_le A).
Proof.
  intros [[a|a|a|] x] [[b|b|b|] y]; unfold key_le, key_leb, key_rank; simpl;
    try (by left); try (by right); try apply (lex_le_total a b).
  rewrite !Z.leb_le. lia.
Qed.

#[export] Instance key_le_trans {A} : Transitive (@key_le A).
Proof.
  intros [[a|a|a|] x] [[b|b|b|] y] [[c|c|c|] z]; unfold key_le, key_leb, key_rank; simpl;
    try done; try apply (lex_le_trans a b c); rewrite ?Z.leb_le; lia.
Qed.

Lemma key_leb_antisymm a b : key_leb a b = true -> key_leb b a = true -> a = b.
Proof.
  destruct a as [a|a|a|], b as [b|b|b|]; unfold key_leb, key_rank; simpl; try done.
  - intros. f_equal. by apply (lex_le_antisymm a b).
  - rewrite !Z.leb_le. intros. f_equal. lia.
  - intros. f_equal. by apply (lex_le_antisymm a b).
Qed.

Lemma nodup_keys {A} (l : list (pykey * A)) x y :
  NoDup (map fst l) -> x ∈ l -> y ∈ l -> x.1 = y.1 -> x = y.
Proof.
  induction l as [|z l IH]; simpl; [by intros _ ?%not_elem_of_nil|].
  intros [N1 Nd]%list.NoDup_cons. rewrite !elem_of_cons.
  intros [->|Hx] [->|Hy] E; [done|..]; [..|by apply IH].
  - exfalso. apply N1. rewrite E. by apply (list_elem_of_fmap_2 fst l y).
  - exfalso. apply N1. rewrite <- E. by apply (list_elem_of_fmap_2 fst l x).
Qed.

(** The sorted list is the only sorted permutation. *)
Lemma merge_sort_unique {A} (l s : list (pykey * A)) :
  NoDup (map fst l) -> s ≡ₚ l -> Sorted key_le s -> merge_sort key_le l = s.
Proof.
  intros Nd P S. apply (Sorted_unique_strong key_le); [|apply Sorted_merge_sort, _|done|].
  - intros x y Hx Hy Lx Ly. rewrite merge_sort_Permutation in Hx. rewrite P in Hy.
    apply (nodup_keys l); [done..|by apply key_leb_antisymm].
  - by rewrite P, merge_sort_Permutation.
Qed.

Lemma map_fst_on_value {K A B} (f : A -> B) (l : list (K * A)) : map fst (map (on_value f) l) = map fst l.
Proof. rewrite map_map. by apply map_ext. Qed.

Lemma merge_sort_map {A B} (f : A -> B) (l : list (pykey * A)) :
  NoDup (map fst l) ->
  merge_sort key_le (map (on_value f) l) = map (on_value f) (merge_sort key_le l).
Proof.
  intros Nd. apply merge_sort_unique.
  - by rewrite map_fst_on_value.
  - change (on_value f <$> merge_sort key_le l ≡ₚ on_value f <$> l). by rewrite merge_sort_Permutation.
  - apply (Sorted_fmap (on_value f) key_le key_le); [by intros [] []|]. apply Sorted_merge_sort, _.
Qed.

Lemma comparable_map {A B} (f : A -> B) k (l : list (pykey * A)) :
  forallb (fun x => comparable k x.1) (map (on_value f) l) = forallb (fun x => comparable k x.1) l.
Proof. induction l as [|x l IH]; [done|]. simpl. by rewrite IH. Qed.

Definition result_map {E A B} (f : A -> B) (r : result E A) : result E B :=
  match r with Ok a => Ok (f a) | Err e => Err e end.

Lemma sorted_dict_cons2 {A} (x y : pykey * A) l :
  sorted_dict (x :: y :: l) =
  if forallb (fun z => comparable x.1 z.1) (x :: y :: l)
  then Ok (merge_sort key_le (x :: y :: l)) else Err TypeError.
Proof. by destruct x. Qed.

Lemma sorted_dict_map {A B} (f : A -> B) (l : list (pykey * A)) :
  NoDup (map fst l) ->
  sorted_dict (map (on_value f) l) = result_map (map (on_value f)) (sorted_dict l).
Proof.
  intros Nd. destruct l as [|x [|y l]]; [done|by destruct x|].
  pose proof (comparable_map f x.1 (x :: y :: l)) as C. pose proof (merge_sort_map f _ Nd) as M.
  cbn [map] in C, M |- *. rewrite !sorted_dict_cons2. change ((on_value f x).1) with x.1.
  rewrite C, M. destruct (forallb _ (x :: y :: l)); reflexivity.
Qed.

Lemma comparable_trans a b c : comparable a b = true -> comparable a c = true -> comparable b c = true.
Proof. by destruct a, b, c. Qed.

Lemma comparable_sym a b : comparable a b = comparable b a.
Proof. by destruct a, b. Qed.

Lemma comparable_perm {A} (x y : pykey * A) l l' : x :: l ≡ₚ y :: l' ->
  forallb (fun z => comparable x.1 z.1) (x :: l) = true ->
  forallb (fun z => comparable y.1 z.1) (y :: l') = true.
Proof.
  intros P H. rewrite forallb_forall in *. setoid_rewrite <- list_elem_of_In in H.
  intros z Hz%list_elem_of_In. apply (comparable_trans x.1).
  - apply H. rewrite P. by left.
  - apply H. by rewrite P.
Qed.

Lemma sorted_dict_perm {A} (l l' : list (pykey * A)) :
  NoDup (map fst l) -> l ≡ₚ l' -> sorted_dict l = sorted_dict l'.
Proof.
  intros Nd P. destruct l as [|x [|x2 l]]; [by apply Permutation_nil in P as ->|by apply Permutation_length_1_inv in P as ->|].
  destruct l' as [|y [|y2 l']]; [by apply Permutation_length in P..|].
  assert (M : merge_sort key_le (x :: x2 :: l) = merge_sort key_le (y :: y2 :: l')).
  { apply merge_sort_unique; [done|by rewrite merge_sort_Permutation, P|apply Sorted_merge_sort, _]. }
  rewrite !sorted_dict_cons2. destruct (forallb (fun z => comparable x.1 z.1) _) eqn:E1.
  - by rewrite (comparable_perm _ _ _ _ P E1), M.
  - destruct (forallb (fun z => comparable y.1 z.1) _) eqn:E2; [|done].
    symmetry in P. apply (comparable_perm _ _ _ _ P) in E2. congruence.
Qed.

(** ** What normalization forgets *)

(** Two calls of the normalizer agree whatever the array counter. *)
Definition agree {A} (m m' : counting A) : Prop := forall seen, m seen = m' seen.

#[export] Instance agree_equiv A : Equivalence (@agree A).
Proof.
  split; [by intros m s|intros m m' H s; by rewrite H|].
  intros m1 m2 m3 H1 H2 s. by rewrite H1, H2.
Qed.

Lemma in_order_agree {A} (l l' : list (counting A)) :
  Forall2 agree l l' -> agree (in_order l) (in_order l').
Proof.
  induction 1 as [|m m' l l' Hm _ IH]; intros seen; [done|]. simpl. rewrite Hm.
  destruct (m' seen) as [[x s]|e]; simpl; [|done]. by rewrite IH.
Qed.

Section Norm.
Context (blake2b : Z -> pybytes -> pybytes).
Notation norm := (_normalize blake2b).

(** Dictionaries are sorted first, then their values normalized in key order. *)
Lemma normalize_dict l seen : NoDup (map fst l) ->
  norm (PDict l) seen =
  (items <-! sorted_dict l ;
   r <-! in_order (map (fun kv => norm kv.2) items) seen ;
   Ok (PDict (zip (map fst items) r.1), r.2)).
Proof.
  intros Nd. cbn [_normalize]. change (fun kv : pykey * pyval => (kv.1, norm kv.2)) with (on_value (K:=pykey) norm).
  rewrite sorted_dict_map by done. destruct (sorted_dict l) as [s|e]; simpl; [|done].
  rewrite map_fst_on_value. f_equal. by rewrite map_map.
Qed.

(** Values that give the same key: dictionaries in another insertion order,
    tuples for lists, an [Enum] member for its value, paths, UUIDs, decimals and
    instants for their texts, negative for positive zero. *)
Inductive same_for_key : pyval -> pyval -> Prop :=
  | key_dict l l' : NoDup (map fst l) -> l ≡ₚ l' -> same_for_key (PDict l) (PDict l')
  | key_tuple l : same_for_key (PTuple l) (PList l)
  | key_enum v : same_for_key (PEnum v) v
  | key_path s : same_for_key (PPath s) (PStr s)
  | key_uuid s : same_for_key (PUUID s) (PStr s)
  | key_decimal s : same_for_key (PDecimal s) (PStr s)
  | key_datetime tz s : tz <> Naive -> same_for_key (PDatetime tz s) (PStr s)
  | key_zero : same_for_key (PFloat (S754_zero true)) (PFloat (S754_zero false))
  | key_in_list pre v v' post : same_for_key v v' ->
      same_for_key (PList (pre ++ v :: post)) (PList (pre ++ v' :: post))
  | key_in_dict pre k v v' post : NoDup (map fst (pre ++ (k, v) :: post)) -> same_for_key v v' ->
      same_for_key (PDict (pre ++ (k, v) :: post)) (PDict (pre ++ (k, v') :: post))
  | key_refl v : same_for_key v v
  | key_sym v v' : same_for_key v v' -> same_for_key v' v
  | key_trans v1 v2 v3 : same_for_key v1 v2 -> same_for_key v2 v3 -> same_for_key v1 v3.

Lemma agree_all {A} (l : list (counting A)) : Forall2 agree l l.
Proof. induction l; by constructor. Qed.

Lemma agree_in pre v v' post : agree (norm v) (norm v') ->
  Forall2 agree (map norm (pre ++ v :: post)) (map norm (pre ++ v' :: post)).
Proof.
  intros H. rewrite !map_app. apply Forall2_app; [by apply agree_all|]. by constructor; [|apply agree_all].
Qed.

(** Two dictionaries with the same keys are maps of one with pairs of values. *)
Lemma normalize_dict_related (z : list (pykey * (pyval * pyval))) :
  NoDup (map fst z) -> Forall (fun x => agree (norm x.2.1) (norm x.2.2)) z ->
  agree (norm (PDict (map (on_value fst) z))) (norm (PDict (map (on_value snd) z))).
Proof.
  intros Nd Hz seen. rewrite !normalize_dict by (by rewrite map_fst_on_value).
  rewrite !sorted_dict_map by done.
  assert (Hs : forall s, sorted_dict z = Ok s -> s ≡ₚ z).
  { intros s. destruct z as [|x [|y z']]; [by intros [= <-]|by destruct x; intros [= <-]|].
    rewrite sorted_dict_cons2. destruct (forallb _ (x :: y :: z')); [|done].
    intros [= <-]. apply merge_sort_Permutation. }
  destruct (sorted_dict z) as [s|e]; simpl; [|done]. specialize (Hs s eq_refl).
  rewrite !map_fst_on_value, !map_map. simpl.
  assert (A : agree (in_order (map (fun x => norm x.2.1) s)) (in_order (map (fun x => norm x.2.2) s))).
  { apply in_order_agree. rewrite <- Hs in Hz. clear - Hz. induction Hz; constructor; done. }
  by rewrite A.
Qed.

Definition twice (l : list (pykey * pyval)) : list (pykey * (pyval * pyval)) :=
  map (on_value (fun x => (x, x))) l.

Lemma twice_fst l : map (on_value fst) (twice l) = l.
Proof. induction l as [|[k v] l IH]; [done|]. unfold twice in *. simpl. by rewrite IH. Qed.

Lemma twice_snd l : map (on_value snd) (twice l) = l.
Proof. induction l as [|[k v] l IH]; [done|]. unfold twice in *. simpl. by rewrite IH. Qed.

Lemma twice_agree l : Forall (fun x => agree (norm x.2.1) (norm x.2.2)) (twice l).
Proof. by induction l; constructor. Qed.

Lemma same_agree v v' : same_for_key v v' -> agree (norm v) (norm v').
Proof.
  induction 1 as [l l' Nd P|l|v|s|s|s|tz s N| |pre v v' post _ IH|pre k v v' post Nd _ IH|v|v v' _ IH|v1 v2 v3 _ IH1 _ IH2];
    try (by intros seen).
  - intros seen. rewrite !normalize_dict by (try done; change (NoDup (fst <$> l')); by rewrite <- P).
    by rewrite (sorted_dict_perm l l').
  - intros seen. by destruct tz.
  - intros seen. cbn [_normalize]. by rewrite (in_order_agree _ _ (agree_in pre v v' post IH)).
  - pose (z := twice pre ++ (k, (v, v')) :: twice post).
    assert (E1 : pre ++ (k, v) :: post = map (on_value fst) z)
      by (unfold z; rewrite map_app; simpl; by rewrite !twice_fst).
    assert (E2 : pre ++ (k, v') :: post = map (on_value snd) z)
      by (unfold z; rewrite map_app; simpl; by rewrite !twice_snd).
    rewrite E1, E2. apply normalize_dict_related.
    + by rewrite E1, map_fst_on_value in Nd.
    + unfold z. rewrite list.Forall_app, list.Forall_cons. auto using twice_agree.
  - intros seen. by rewrite IH1.
Qed.

Context (packb : pyval -> result py_exn pybytes).

(** The hashed document is made of two normalized values. *)
Lemma normalized_call_values args kwargs : NoDup (map fst kwargs) ->
  normalized_call blake2b args kwargs =
  (a <-! norm (PList args) 0 ;
   k <-! norm (PDict kwargs) a.2 ;
   Ok (PList [a.1; k.1], k.2)).
Proof.
  intros Nd. unfold normalized_call. cbn [_normalize].
  destruct (in_order (map norm args) 0) as [[a n]|e]; simpl; [|done].
  pose proof (normalize_dict kwargs n Nd) as E. cbn [_normalize] in E. rewrite E.
  destruct (sorted_dict kwargs) as [s|e]; simpl; [|done]. by destruct (in_order _ n).
Qed.

(** A cache key depends on what is passed, not on how it is written: keyword
    arguments and dictionaries in any insertion order, at any depth, tuples for
    lists, [Enum] members for their values, paths, UUIDs, decimals and datetimes
    for their texts and [-0.0] for [0.0] give the same key, or the same error. *)
Theorem key_ignores_order m q args args' kwargs kwargs' ns ic st :
  NoDup (map fst kwargs) -> NoDup (map fst kwargs') ->
  same_for_key (PList args) (PList args') -> same_for_key (PDict kwargs) (PDict kwargs') ->
  generate_key blake2b packb m q args kwargs ns ic st =
  generate_key blake2b packb m q args' kwargs' ns ic st.
Proof.
  intros Nd Nd' Sa Sk. unfold generate_key, _blake2b_hash.
  rewrite !normalized_call_values, (same_agree _ _ Sa 0) by done.
  destruct (norm (PList args') 0) as [[a n]|e]; cbn [rbind fst snd]; [|done].
  by rewrite (same_agree _ _ Sk n).
Qed.
End Norm.

(** ** What a key looks like *)

(** [[a-zA-Z0-9_.:-]], the characters a key may have. *)
Definition key_char (c : Z) : bool := func_char c || (c =? 58) || (c =? 45).

(** No [".."] in the string. *)
Fixpoint no_double_dot (s : pystr) : bool :=
  match s with
  | c :: ((d :: _) as r) => negb ((c =? 46) && (d =? 46)) && no_double_dot r
  | _ => true
  end.

Lemma no_double_dot_cons c s : no_double_dot (c :: s) = true <->
  ~ (c = 46 /\ head s = Some 46) /\ no_double_dot s = true.
Proof.
  destruct s as [|d s]; [simpl; naive_solver|]. cbn [no_double_dot head].
  rewrite andb_true_iff, negb_true_iff, andb_false_iff, !Z.eqb_neq.
  split; intros [H1 H2]; (split; [|done]).
  - intros [-> [= ->]]. by destruct H1.
  - destruct (decide (c = 46)), (decide (d = 46)); subst; naive_solver.
Qed.

Lemma no_double_dot_app a b : no_double_dot a = true -> no_double_dot b = true ->
  head b <> Some 46 -> no_double_dot (a ++ b) = true.
Proof.
  intros Ha Hb Hd. induction a as [|c a IH]; [done|]. apply no_double_dot_cons in Ha as [H1 Ha].
  simpl app. apply no_double_dot_cons. split; [|by apply IH].
  intros [-> H]. destruct a; [done|]. by apply H1.
Qed.

Lemma no_double_dot_free s : Forall (fun c => c <> 46) s -> no_double_dot s = true.
Proof. induction 1; [done|]. apply no_double_dot_cons. split; [by intros [? _]|done]. Qed.

Lemma no_double_dot_take n s : no_double_dot s = true -> no_double_dot (take n s) = true.
Proof.
  revert n. induction s as [|c s IH]; intros [|n]; try done. simpl take.
  rewrite !no_double_dot_cons. intros [H1 H2]. split; [|by apply IH].
  intros [-> H]. apply H1. split; [done|]. by destruct n, s.
Qed.

Lemma collapse_dots_cons2 c d s : collapse_dots (c :: d :: s) =
  if (c =? 46) && (d =? 46) then collapse_dots (d :: s) else c :: collapse_dots (d :: s).
Proof. done. Qed.

Lemma collapse_dots_head s : head (collapse_dots s) = head s.
Proof.
  induction s as [|c [|d s] IH]; [done..|]. rewrite collapse_dots_cons2.
  destruct ((c =? 46) && (d =? 46)) eqn:E; [|done]. zbool. subst. exact IH.
Qed.

Lemma collapse_dots_single s : no_double_dot (collapse_dots s) = true.
Proof.
  induction s as [|c [|d s] IH]; [done..|]. rewrite collapse_dots_cons2.
  destruct ((c =? 46) && (d =? 46)) eqn:E; [exact IH|].
  apply no_double_dot_cons. split; [|exact IH]. rewrite collapse_dots_head. simpl.
  intros [-> [= ->]]. done.
Qed.

Lemma collapse_dots_forall (P : Z -> Prop) s : Forall P s -> Forall P (collapse_dots s).
Proof.
  induction 1 as [|c s Hc Hs IH]; [constructor|].
  destruct s as [|d s]; [by repeat constructor|]. rewrite collapse_dots_cons2.
  destruct ((c =? 46) && (d =? 46)); [exact IH|by constructor].
Qed.

(** [[a-zA-Z0-9_.]{1,200}] without [".."]. *)
Lemma sanitized_ok m q :
  let f := _sanitize_func_name m q in
  1 <= zlen f <= 200 /\ Forall (fun c => func_char c = true) f /\ no_double_dot f = true.
Proof.
  unfold _sanitize_func_name.
  set (s := map _ (m ++ u "." ++ q)).
  assert (Hs : Forall (fun c => func_char c = true) s).
  { unfold s. apply Forall_map, list.Forall_forall. intros c _. destruct (func_char c) eqn:E; done. }
  assert (Hn : s <> []) by (unfold s; rewrite map_app; by destruct m).
  assert (Hl : (1 <= length (collapse_dots s))%nat).
  { pose proof (collapse_dots_head s). destruct s, (collapse_dots _); simpl in *; done || lia. }
  cbv zeta. unfold zlen. rewrite length_take. split; [unfold FUNC_NAME_MAX; lia|]. split.
  - by apply Forall_take, collapse_dots_forall.
  - apply no_double_dot_take, collapse_dots_single.
Qed.

Definition key_ok (s : pystr) : Prop := Forall (fun c => key_char c = true) s /\ no_double_dot s = true.

Lemma key_ok_sep a b : key_ok a -> key_ok b -> key_ok (a ++ 58 :: b).
Proof.
  intros [Ca Da] [Cb Db]. split.
  - rewrite list.Forall_app, list.Forall_cons. done.
  - apply no_double_dot_app; [done| |done]. apply no_double_dot_cons. split; [by intros [? _]|done].
Qed.

Lemma key_ok_take n s : key_ok s -> key_ok (take n s).
Proof. intros [C D]. split; [by apply Forall_take|by apply no_double_dot_take]. Qed.

Lemma key_ok_hex s : Forall is_hex s -> key_ok s.
Proof.
  intros H. split; [|apply no_double_dot_free]; (eapply list.Forall_impl; [exact H|]);
    unfold is_hex; intros c Hc; [|lia].
  unfold key_char, func_char. rewrite !orb_true_iff, !andb_true_iff, !Z.leb_le, !Z.eqb_eq. lia.
Qed.

Lemma key_ok_func m q : key_ok (_sanitize_func_name m q).
Proof.
  destruct (sanitized_ok m q) as (_ & C & D). split; [|exact D].
  eapply list.Forall_impl; [exact C|]. intros c Hc. unfold key_char. by rewrite Hc.
Qed.

Lemma key_ok_one c : key_char c = true -> key_ok [c].
Proof. intros Hc. split; [by constructor|done]. Qed.

Lemma key_ok_literal s : forallb key_char s && no_double_dot s = true -> key_ok s.
Proof.
  intros [C D]%andb_true_iff. split; [|done]. apply list.Forall_forall.
  rewrite forallb_forall in C. intros c Hc. by apply C, list_elem_of_In.
Qed.

Definition serializer_code (st : pystr) : pystr := default (u "s") (assoc st SERIALIZER_CODES).

Lemma serializer_code_char st : exists c, serializer_code st = [c] /\ key_ok [c] /\ c <> 58.
Proof.
  unfold serializer_code. destruct (assoc st _) as [code|] eqn:E; [|exists 115; by split_and!; [|apply key_ok_one|]].
  apply assoc_elem in E. unfold SERIALIZER_CODES in E. simpl in E.
  rewrite !elem_of_cons in E.
  destruct E as [[= _ ->]|[[= _ ->]|[[= _ ->]|[[= _ ->]|[[= _ ->]|E]]]]]; [eexists; by split_and!; [|apply key_ok_one|]..|].
  by apply not_elem_of_nil in E.
Qed.

Definition flag (integrity_checking : bool) : Z := if integrity_checking then 49 else 48.

(** The parts of a key before it is normalized, between colons. *)
Lemma raw_key_parts ns f h ic st :
  raw_key ns f h ic st =
  (match ns with Some (c :: r) => u "ns" ++ 58 :: (c :: r) ++ [58] | _ => [] end) ++
  u "func" ++ 58 :: f ++ 58 :: u "args" ++ 58 :: h ++ 58 :: flag ic :: serializer_code st.
Proof.
  unfold raw_key, flag, serializer_code. destruct ns as [[|c r]|]; by destruct ic.
Qed.

(** A namespace that is absent or made of key characters. *)
Definition namespace_ok (ns : option pystr) : Prop :=
  match ns with Some s => key_ok s | None => True end.

Lemma raw_key_ok ns f h ic st :
  namespace_ok ns -> key_ok f -> key_ok h -> key_ok (raw_key ns f h ic st).
Proof.
  intros Hn Hf Hh. rewrite raw_key_parts.
  assert (T : key_ok (u "func" ++ 58 :: f ++ 58 :: u "args" ++ 58 :: h ++ 58 :: flag ic :: serializer_code st)).
  { repeat apply key_ok_sep; try done; try by apply key_ok_literal.
    destruct (serializer_code_char st) as (c & -> & [C D] & _). split.
    - constructor; [by destruct ic|done].
    - apply no_double_dot_cons. split; [by destruct ic; intros [? _]|done]. }
  destruct ns as [[|c r]|]; [done| |done].
  rewrite <- app_assoc. simpl app. apply (key_ok_sep (u "ns")); [by apply key_ok_literal|].
  rewrite <- app_assoc. by apply (key_ok_sep (c :: r)).
Qed.

Lemma replace_chars_ok s : key_ok s -> replace_chars s = s.
Proof.
  intros [C _]. unfold replace_chars. induction C as [|c s Hc _ IH]; [done|]. simpl. rewrite IH.
  f_equal. destruct ((c =? 32) || (c =? 10) || (c =? 13)) eqn:E; [|done].
  repeat (apply orb_true_iff in E as [E|E]); zbool; by subst.
Qed.

Lemma replace_chars_clean s : Forall (fun c => c <> 32 /\ c <> 10 /\ c <> 13) (replace_chars s).
Proof.
  unfold replace_chars. apply Forall_map, list.Forall_forall. intros c _.
  destruct ((c =? 32) || (c =? 10) || (c =? 13)) eqn:E; zbool; lia.
Qed.

(** The replacement only reaches the namespace. *)
Lemma raw_key_clean ns f h ic st : key_ok f -> key_ok h ->
  replace_chars (raw_key ns f h ic st) = raw_key (replace_chars <$> ns) f h ic st.
Proof.
  intros Hf Hh.
  assert (T : replace_chars (raw_key None f h ic st) = raw_key None f h ic st)
    by (by apply replace_chars_ok, raw_key_ok).
  assert (R : forall a b, replace_chars (a ++ b) = replace_chars a ++ replace_chars b)
    by (intros; apply map_app).
  destruct ns as [[|c r]|]; [exact T| |exact T]. rewrite raw_key_parts in T. rewrite !raw_key_parts.
  change ([] ++ ?x) with x in T.
  rewrite R, T. f_equal. rewrite R. change (58 :: (c :: r) ++ [58]) with ([58] ++ (c :: r) ++ [58]).
  by rewrite !R.
Qed.

Lemma namespace_part_inj ns ns' :
  (match ns with Some (c :: r) => u "ns" ++ 58 :: (c :: r) ++ [58] | _ => [] end) =
  (match ns' with Some (c :: r) => u "ns" ++ 58 :: (c :: r) ++ [58] | _ => [] end) ->
  default [] ns = default [] ns'.
Proof.
  destruct ns as [[|c r]|], ns' as [[|c' r']|]; simpl; try done.
  intros [= -> E]. by apply app_inj_tail in E as [-> _].
Qed.

(** A key before normalization has only one reading. *)
Lemma raw_key_inj ns f h ic st ns' f' h' ic' st' :
  Forall (fun c => c <> 58) f -> Forall (fun c => c <> 58) f' -> length h = length h' ->
  raw_key ns f h ic st = raw_key ns' f' h' ic' st' ->
  default [] ns = default [] ns' /\ f = f' /\ h = h' /\ ic = ic' /\
  serializer_code st = serializer_code st'.
Proof.
  intros Hf Hf' Lh. rewrite !raw_key_parts.
  destruct (serializer_code_char st) as (c & -> & _), (serializer_code_char st') as (c' & -> & _).
  set (N := match ns with Some (_ :: _) => _ | _ => _ end).
  set (N' := match ns' with Some (_ :: _) => _ | _ => _ end). intros E.
  assert (E2 : (N ++ u "func" ++ 58 :: f) ++ (58 :: u "args" ++ 58 :: h ++ [58; flag ic; c]) =
               (N' ++ u "func" ++ 58 :: f') ++ (58 :: u "args" ++ 58 :: h' ++ [58; flag ic'; c'])).
  { rewrite <- !app_assoc. simpl in *. by rewrite <- ?app_assoc. }
  apply app_inj_2 in E2 as [E1 E2]; [|simpl; rewrite !length_app, Lh; done].
  simpl in E2. injection E2 as E2. apply app_inj_1 in E2 as [-> E2]; [|done].
  injection E2 as Ef ->.
  assert (E3 : rev f ++ 58 :: rev (N ++ u "func") = rev f' ++ 58 :: rev (N' ++ u "func")).
  { apply (f_equal (@rev Z)) in E1. rewrite !app_assoc in E1. rewrite !rev_app_distr in E1.
    simpl in E1. rewrite <- !app_assoc in E1. by rewrite !rev_app_distr. }
  apply split_at in E3 as [E3 E4]; [|by apply Stdlib.Lists.List.Forall_rev..].
  apply (f_equal (@rev Z)) in E3. apply (f_equal (@rev Z)) in E4. rewrite !rev_involutive in E3, E4.
  apply app_inj_2 in E4 as [E4 _]; [|done]. apply namespace_part_inj in E4.
  split_and!; try done. destruct ic, ic'; done.
Qed.

Lemma hexdigest_take n l : take (2 * n) (hexdigest l) = hexdigest (take n l).
Proof.
  revert n. induction l as [|b l IH]; intros [|n]; [done..|].
  replace (2 * S n)%nat with (S (S (2 * n))) by lia. simpl take. simpl hexdigest. simpl take.
  f_equal. f_equal. apply IH.
Qed.

Lemma hex_not_colon s : Forall is_hex s -> Forall (fun c => c <> 58) s.
Proof. intros H. eapply list.Forall_impl; [exact H|]. unfold is_hex. lia. Qed.

Lemma func_not_colon m q : Forall (fun c => c <> 58) (_sanitize_func_name m q).
Proof.
  destruct (sanitized_ok m q) as (_ & C & _). eapply list.Forall_impl; [exact C|].
  intros c Hc ->. discriminate Hc.
Qed.

Section Keys.
Context (blake2b : Z -> pybytes -> pybytes).
Context {digest : Digest blake2b}.
Context (packb : pyval -> result py_exn pybytes).

(** A call, as the generator sees it. *)
Record call := mkCall {
  c_module : pystr;
  c_qualname : pystr;
  c_args : list pyval;
  c_kwargs : list (pykey * pyval);
  c_namespace : option pystr;
  c_integrity : bool;
  c_serializer : pystr
}.

Definition key_of (c : call) : result py_exn pystr :=
  generate_key blake2b packb (c_module c) (c_qualname c) (c_args c) (c_kwargs c) (c_namespace c)
    (c_integrity c) (c_serializer c).

(** The bytes of the arguments that are hashed. *)
Definition packed_args (c : call) : result py_exn pybytes :=
  n <-! normalized_call blake2b (c_args c) (c_kwargs c) ; packb n.1.

(** The key before normalization, from the bytes of the arguments. *)
Definition full_key (c : call) (b : pybytes) : pystr :=
  raw_key (c_namespace c) (_sanitize_func_name (c_module c) (c_qualname c))
    (hexdigest (blake2b 32 b)) (c_integrity c) (c_serializer c).

Lemma generate_key_parts c k : key_of c = Ok k ->
  exists b, packed_args c = Ok b /\ _normalize_key blake2b (full_key c b) = Ok k.
Proof.
  intros E. apply rbind_ok in E as (h & Eh & E). apply rbind_ok in Eh as (n & En & Eb).
  apply rbind_ok in Eb as (b & Eb & Eh). apply Ok_inj in Eh as <-. exists b. split; [|exact E].
  unfold packed_args. by rewrite En.
Qed.

(** [prefix:digest], for keys over the limit. *)
Definition shortened (key : pystr) (bs : pybytes) : pystr :=
  take 50 key ++ 58 :: hexdigest (take 16 (blake2b 32 bs)).

Lemma normalize_key_cases key k : _normalize_key blake2b key = Ok k ->
  (zlen key <= 250 /\ k = replace_chars key) \/
  (250 < zlen key /\ exists bs, utf8_encode (replace_chars key) = Ok bs /\
     k = shortened (replace_chars key) bs).
Proof.
  unfold _normalize_key, MAX_KEY_LENGTH, KEY_PREFIX_LENGTH.
  assert (L : zlen (replace_chars key) = zlen key) by (unfold zlen, replace_chars; by rewrite length_map).
  rewrite L. destruct (250 <? zlen key) eqn:E; zbool; [|intros [= <-]; by left].
  intros H. apply rbind_ok in H as (bs & Eb & H). apply Ok_inj in H as <-.
  right. split; [done|]. exists bs. split; [done|]. unfold shortened.
  ztests. by rewrite <- hexdigest_take.
Qed.

Lemma short_digest_length bs : zlen (hexdigest (take 16 (blake2b 32 bs))) = 32.
Proof.
  rewrite hexdigest_length. pose proof (digest_size 32 bs). unfold zlen in *. rewrite length_take. lia.
Qed.

Lemma short_digest_hex bs : Forall is_hex (hexdigest (take 16 (blake2b 32 bs))).
Proof. apply hexdigest_hex, Forall_take, digest_bytes. Qed.

(** Every generated key is at most 250 characters without space or line
    break; and when the namespace keeps to the key characters, so does the key,
    whatever the function is called: only [[a-zA-Z0-9_.:-]] and never [..]. *)
Theorem generated_key_valid c k : key_of c = Ok k ->
  zlen k <= 250 /\ Forall (fun x => x <> 32 /\ x <> 10 /\ x <> 13) k /\
  (namespace_ok (c_namespace c) ->
   Forall (fun x => key_char x = true) k /\ no_double_dot k = true).
Proof.
  intros E. apply generate_key_parts in E as (b & _ & E).
  assert (V : namespace_ok (c_namespace c) -> key_ok (full_key c b)).
  { intros Hn. apply raw_key_ok; [done|apply key_ok_func|]. by apply key_ok_hex, digest_hex. }
  apply normalize_key_cases in E as [[L ->]|(L & bs & _ & ->)].
  - unfold zlen, replace_chars in *. rewrite length_map. split; [done|]. split; [apply replace_chars_clean|].
    intros Hn. change (key_ok (replace_chars (full_key c b))). rewrite replace_chars_ok; auto.
  - unfold shortened. rewrite zlen_app, zlen_cons, short_digest_length.
    split; [unfold zlen; rewrite length_take; lia|]. split.
    + rewrite list.Forall_app, list.Forall_cons. split; [by apply Forall_take, replace_chars_clean|].
      split; [done|]. eapply list.Forall_impl; [apply short_digest_hex|]. unfold is_hex. lia.
    + intros Hn. rewrite replace_chars_ok by auto. apply key_ok_sep; [by apply key_ok_take, V|].
      apply key_ok_hex, short_digest_hex.
Qed.

(** The call in the namespace that reaches the key. *)
Definition in_key (c : call) : call :=
  mkCall (c_module c) (c_qualname c) (c_args c) (c_kwargs c) (replace_chars <$> c_namespace c)
    (c_integrity c) (c_serializer c).

Lemma full_key_clean c b : replace_chars (full_key c b) = full_key (in_key c) b.
Proof. apply raw_key_clean; [apply key_ok_func|by apply key_ok_hex, digest_hex]. Qed.

Lemma full_key_length c b : zlen (full_key (in_key c) b) = zlen (full_key c b).
Proof. rewrite <- full_key_clean. unfold zlen, replace_chars. by rewrite length_map. Qed.

(** The namespace as it stands in the key. *)
Definition key_namespace (c : call) : pystr := replace_chars (default [] (c_namespace c)).

Lemma in_key_namespace c : default [] (c_namespace (in_key c)) = key_namespace c.
Proof. unfold key_namespace, in_key. cbn. by destruct (c_namespace c). Qed.

(** A shortened key never looks like a whole one: its third character from the
    end is a digit, not the colon before the flags. *)
Lemma shortened_differs c b key bs : full_key c b <> shortened key bs.
Proof.
  unfold full_key, shortened. rewrite raw_key_parts.
  destruct (serializer_code_char (c_serializer c)) as (s & -> & _).
  set (H := hexdigest (take 16 _)). set (N := match c_namespace c with Some (_ :: _) => _ | _ => _ end).
  intros E. pose proof (short_digest_length bs) as L. fold H in L.
  assert (E2 : (N ++ u "func" ++ 58 :: _sanitize_func_name (c_module c) (c_qualname c) ++ 58 :: u "args"
      ++ 58 :: hexdigest (blake2b 32 b)) ++ [58; flag (c_integrity c); s] =
      (take 50 key ++ 58 :: take 29 H) ++ drop 29 H).
  { repeat first [rewrite <- app_assoc | progress cbn [app]]. rewrite take_drop. exact E. }
  apply app_inj_2 in E2 as [_ E2]; [|rewrite length_drop; unfold zlen in L; simpl; lia].
  assert (Hx : Forall is_hex (drop 29 H)) by apply Forall_drop, short_digest_hex.
  rewrite <- E2 in Hx. apply Forall_inv in Hx. unfold is_hex in Hx. lia.
Qed.

Lemma full_key_inj c c' b b' : full_key c b = full_key c' b' ->
  default [] (c_namespace c) = default [] (c_namespace c') /\
  _sanitize_func_name (c_module c) (c_qualname c) = _sanitize_func_name (c_module c') (c_qualname c') /\
  c_integrity c = c_integrity c' /\
  serializer_code (c_serializer c) = serializer_code (c_serializer c') /\
  blake2b 32 b = blake2b 32 b'.
Proof.
  intros E. apply raw_key_inj in E as (E1 & E2 & E3 & E4 & E5); try apply func_not_colon.
  - apply hexdigest_inj in E3; [done|apply digest_bytes..].
  - pose proof (digest_hex_length blake2b 32 b digest). pose proof (digest_hex_length blake2b 32 b' digest).
    unfold zlen in *. lia.
Qed.

(** C26. Key identity: two calls with the same key have namespaces that agree once
    spaces and line breaks are underscores, the same sanitized function name, the same
    integrity flag and serializer code, and the same normalized arguments byte for
    byte, unless two different argument documents have the same Blake2b-256 digest, or
    two keys longer than 250 characters have digests that agree on 128 bits.  (The
    namespaces [a b] and [a_b] do share their keys, [namespaces_merge].) *)
Theorem key_identity c c' k : key_of c = Ok k -> key_of c' = Ok k ->
  exists b b', packed_args c = Ok b /\ packed_args c' = Ok b' /\
    ((key_namespace c = key_namespace c' /\
      _sanitize_func_name (c_module c) (c_qualname c) =
        _sanitize_func_name (c_module c') (c_qualname c') /\
      c_integrity c = c_integrity c' /\
      serializer_code (c_serializer c) = serializer_code (c_serializer c') /\
      (b = b' \/ b <> b' /\ blake2b 32 b = blake2b 32 b')) \/
     (let key := replace_chars (full_key c b) in let key' := replace_chars (full_key c' b') in
      key <> key' /\ 250 < zlen key /\ 250 < zlen key' /\
      exists x x', utf8_encode key = Ok x /\ utf8_encode key' = Ok x' /\
        take 16 (blake2b 32 x) = take 16 (blake2b 32 x'))).
Proof.
  intros E E'. apply generate_key_parts in E as (b & Pb & E).
  apply generate_key_parts in E' as (b' & Pb' & E'). exists b, b'. split; [done|]. split; [done|].
  apply normalize_key_cases in E, E'. rewrite !full_key_clean in *. cbv zeta. rewrite !full_key_length.
  destruct (decide (full_key (in_key c) b = full_key (in_key c') b')) as [Eq|Ne].
  { left. apply full_key_inj in Eq as (En & ? & ? & ? & ?). rewrite !in_key_namespace in En.
    split_and!; try done. destruct (decide (b = b')); auto. }
  right. split; [done|].
  destruct E as [[L ->]|(L & x & Ex & ->)], E' as [[L' Ek]|(L' & x' & Ex' & Ek)].
  - done.
  - by apply shortened_differs in Ek.
  - symmetry in Ek. by apply shortened_differs in Ek.
  - split; [done|]. split; [done|]. exists x, x'. split; [done|]. split; [done|].
    unfold shortened in Ek. apply app_inj_2 in Ek as [_ Ek].
    + injection Ek as Ek. apply hexdigest_inj in Ek; [done|apply Forall_take, digest_bytes..].
    + simpl. pose proof (short_digest_length x). pose proof (short_digest_length x').
      unfold zlen in *. lia.
Qed.

(** Namespaces that differ in spaces and underscores only have the same keys. *)
Lemma namespaces_merge c : key_of (in_key c) = key_of c.
Proof.
  unfold key_of, generate_key, in_key. cbn [c_module c_qualname c_args c_kwargs c_namespace c_integrity c_serializer].
  destruct (_blake2b_hash _ _ _ _) as [h|] eqn:Eh; [|done]. cbn [rbind].
  assert (Hh : exists b, h = hexdigest (blake2b 32 b)).
  { apply rbind_ok in Eh as (n & _ & Eh). apply rbind_ok in Eh as (b & _ & [= <-]). by exists b. }
  destruct Hh as [b ->]. fold (full_key c b). change (raw_key (replace_chars <$> c_namespace c) _ _ _ _) with (full_key (in_key c) b).
  rewrite <- full_key_clean. unfold _normalize_key.
  assert (R : forall s, replace_chars (replace_chars s) = replace_chars s).
  { intros s. unfold replace_chars. rewrite map_map. apply map_ext. intros x. by destruct ((x =? 32) || (x =? 10) || (x =? 13)) eqn:Ex; rewrite ?Ex. }
  by rewrite R.
Qed.

End Keys.

(** The digests of [hash_utils] have the length their callers promise. *)
Lemma fast_hash_length blake3 data n h : (forall bs, zlen (blake3 bs) = 32) -> 0 <= n <= 32 ->
  fast_hash blake3 data n = Ok h -> zlen h = 2 * n.
Proof.
  intros L Hn E. unfold fast_hash in E. apply rbind_ok in E as (bs & _ & E). apply Ok_inj in E as <-.
  pose proof (hexdigest_length (blake3 bs)). rewrite L in *. unfold zlen in *. rewrite length_take. lia.
Qed.

(** ** Concrete keys *)

(** MessagePack, from the canonical encoder. *)
Definition toy_pack (v : pyval) : result py_exn pybytes :=
  match _encode_canonical false v with Ok b => Ok b | Err _ => Err TypeError end.

Definition ab : list (pykey * pyval) := [(KStr (u "a"), PInt 1); (KStr (u "b"), PBool true)].
Definition ba : list (pykey * pyval) := [(KStr (u "b"), PBool true); (KStr (u "a"), PInt 1)].

Lemma ab_nodup : NoDup (map fst ab).
Proof.
  apply list.NoDup_cons. split; [|apply NoDup_singleton].
  rewrite list_elem_of_singleton. discriminate.
Qed.

Lemma ba_nodup : NoDup (map fst ba).
Proof. change (NoDup (fst <$> ba)). rewrite (Permutation_swap (KStr (u "a"), PInt 1) (KStr (u "b"), PBool true) []). apply ab_nodup. Qed.

Definition call_ab : call :=
  mkCall (u "app") (u "outer.<locals>..inner") [PTuple [PFloat (S754_zero true)]; PDict ab] ab
    (Some (u "users")) true (u "auto").
Definition call_ba : call :=
  mkCall (u "app") (u "outer.<locals>..inner") [PTuple [PFloat (S754_zero false)]; PDict ba] ba
    (Some (u "users")) true (u "auto").

Lemma call_args_same : same_for_key (PList (c_args call_ab)) (PList (c_args call_ba)).
Proof.
  eapply key_trans.
  - apply (key_in_list [] _ (PTuple [PFloat (S754_zero false)]) [PDict ab]).
    eapply key_trans; [apply key_tuple|]. eapply key_trans; [|apply key_sym, key_tuple].
    apply (key_in_list [] _ _ []), key_zero.
  - apply (key_in_list [PTuple [PFloat (S754_zero false)]] (PDict ab) (PDict ba) []).
    apply key_dict; [apply ab_nodup|apply Permutation_swap].
Qed.

Definition key_ab : pystr := match key_of toy_digest toy_pack call_ab with Ok k => k | Err _ => [] end.

Lemma key_ignores_order_witness :
  is_Ok (key_of toy_digest toy_pack call_ab) = true /\
  key_of toy_digest toy_pack call_ab = key_of toy_digest toy_pack call_ba.
Proof.
  split; [vm_compute; reflexivity|].
  apply (key_ignores_order toy_digest toy_pack (u "app") (u "outer.<locals>..inner") (c_args call_ab)
    (c_args call_ba) ab ba (Some (u "users")) true (u "auto") ab_nodup ba_nodup call_args_same).
  apply key_dict; [apply ab_nodup|apply Permutation_swap].
Defined.

Lemma generated_key_valid_witness :
  zlen key_ab = 111 /\ zlen key_ab <= 250 /\ no_double_dot key_ab = true.
Proof.
  split; [vm_compute; reflexivity|].
  destruct (generated_key_valid toy_digest toy_pack call_ab key_ab) as (L & _ & V);
    [vm_compute; reflexivity|]. split; [exact L|].
  apply V. apply key_ok_literal. vm_compute. reflexivity.
Defined.

Lemma key_identity_witness :
  exists b b', packed_args toy_digest toy_pack call_ab = Ok b /\
    packed_args toy_digest toy_pack call_ba = Ok b' /\ b = b'.
Proof.
  destruct (key_identity toy_digest toy_pack call_ab call_ba key_ab) as (b & b' & Hb & Hb' & H).
  - vm_compute. reflexivity.
  - vm_compute. reflexivity.
  - exists b, b'. split; [exact Hb|]. split; [exact Hb'|].
    vm_compute in Hb, Hb'. congruence.
Defined.
