(* ===== verification/Effects.v ===== *)
(** Exceptions of the cache layers above a backend, and computations that change
    a state and may raise one of them. *)
From Stdlib Require Import ZArith Lia.
From stdpp Require Import base list numbers option strings.
From S2P Require Import Prelude Errors.

(** The classes below [SerializationError]. *)
Inductive serialization_error :=
  | PlainSerializationError
  | SuspiciousCacheEntryError
  | EncryptionError
  | DecryptionAuthenticationError  (* an EncryptionError *)
  | InteropDecodeError.

(** Every class of [Exception] the handlers tell apart. *)
Inductive exn :=
  | BackendExn (e : BackendError)
  | SerializationExn (k : serialization_error)
  | KeyringConfigurationError      (* a ValueError *)
  | InteropError                   (* a ValueError *)
  | PyExn (e : py_exn)
  | RuntimeError
  | ConfigurationError
  | OSError
  | IndexError
  | AttributeError
  | UnpackException                (* msgpack's *)
  | ArrowInvalid                   (* pyarrow's, a ValueError *)
  | ArrowTypeError                 (* pyarrow's, a TypeError *)
  | ArrowSerializationError
  | OtherError.

#[export] Instance serialization_error_eq_dec : EqDecision serialization_error.
Proof. solve_decision. Defined.

Definition SerializationError : exn := SerializationExn PlainSerializationError.

(** Every class of exception in turn. *)
Ltac each_exn x :=
  destruct x; repeat match goal with k : serialization_error |- _ => destruct k end.

(** The error a Python operation raises, as an exception. *)
Definition py {A} (r : result py_exn A) : result exn A :=
  match r with Ok a => Ok a | Err e => Err (PyExn e) end.

(** [try: r except Exception as x: h x], for a computation without state. *)
Definition recover {A} (r : result exn A) (h : exn -> result exn A) : result exn A :=
  match r with Ok a => Ok a | Err x => h x end.

(** [isinstance(x, ValueError)] *)
Definition is_value_error (x : exn) : bool :=
  match x with
  | KeyringConfigurationError | InteropError | ArrowInvalid | PyExn ValueError | PyExn UnicodeEncodeError => true
  | _ => false
  end.

(** [isinstance(x, TypeError)] *)
Definition is_type_error (x : exn) : bool :=
  match x with ArrowTypeError | PyExn TypeError => true | _ => false end.

(** [except p as e: raise SerializationError(...) from e] *)
Definition relabel {A} (p : exn -> bool) (r : result exn A) : result exn A :=
  recover r (fun x => Err (if p x then SerializationError else x)).

Section Effects.
Context {W : Type}.

Definition eff (A : Type) : Type := W -> result exn A * W.

Definition ret {A} (a : A) : eff A := fun w => (Ok a, w).
Definition throw {A} (x : exn) : eff A := fun w => (Err x, w).
Definition lift {A} (r : result exn A) : eff A := fun w => (r, w).
Definition andthen {A B} (m : eff A) (f : A -> eff B) : eff B := fun w =>
  match m w with
  | (Ok a, w') => f a w'
  | (Err x, w') => (Err x, w')
  end.
(** [try: m except Exception as x: h x] *)
Definition trying {A} (m : eff A) (h : exn -> eff A) : eff A := fun w =>
  match m w with
  | (Ok a, w') => (Ok a, w')
  | (Err x, w') => h x w'
  end.
(** [try: m finally: f] *)
Definition finally {A} (m : eff A) (f : eff unit) : eff A := fun w =>
  let (o, w') := m w in
  match f w' with
  | (Ok _, w'') => (o, w'')
  | (Err x, w'') => (Err x, w'')
  end.

(** The outcome of [m] as a value, for the handlers that tell outcomes apart. *)
Definition attempt {A} (m : eff A) : eff (result exn A) := fun w =>
  let (o, w') := m w in (Ok o, w').
(** A part of the state, read. *)
Definition gets {A} (f : W -> A) : eff A := fun w => (Ok (f w), w).
Definition modify (f : W -> W) : eff unit := fun w => (Ok tt, f w).

(** A computation that raises only what [P] allows. *)
Definition raises_only {A} (P : exn -> Prop) (m : eff A) : Prop :=
  forall w x w', m w = (Err x, w') -> P x.

Definition never_raises {A} (m : eff A) : Prop := raises_only (fun _ => False) m.

Lemma raises_only_ret {A} P (a : A) : raises_only P (ret a).
Proof. by intros w x w'. Qed.

Lemma raises_only_throw {A} (P : exn -> Prop) x : P x -> raises_only P (@throw A x).
Proof. by intros Hx w x' w' [= -> _]. Qed.

Lemma raises_only_andthen {A B} P (m : eff A) (f : A -> eff B) :
  raises_only P m -> (forall a, raises_only P (f a)) -> raises_only P (andthen m f).
Proof.
  intros Hm Hf w x w' E. unfold andthen in E. destruct (m w) as [[a|x1] w1] eqn:E1.
  - by eapply Hf.
  - injection E as -> ->. by eapply Hm.
Qed.

(** Whatever the body raises, only the handler counts. *)
Lemma raises_only_trying {A} P (m : eff A) h :
  (forall x, raises_only P (h x)) -> raises_only P (trying m h).
Proof.
  intros Hh w x w' E. unfold trying in E. destruct (m w) as [[a|x1] w1]; [done|]. by eapply Hh.
Qed.

(** Handlers that look at what was raised. *)
Lemma raises_only_handled {A} (Q P : exn -> Prop) (m : eff A) h :
  raises_only Q m -> (forall x, Q x -> raises_only P (h x)) -> raises_only P (trying m h).
Proof.
  intros Hm Hh w x w' E. unfold trying in E. destruct (m w) as [[a|x1] w1] eqn:E1; [done|].
  by eapply Hh; [eapply Hm|].
Qed.

Lemma raises_only_attempt {A B} (Q P : exn -> Prop) (m : eff A) (f : result exn A -> eff B) :
  raises_only Q m -> (forall a, raises_only P (f (Ok a))) -> (forall x, Q x -> raises_only P (f (Err x))) ->
  raises_only P (andthen (attempt m) f).
Proof.
  intros Hm Ho Hx w x w' E. unfold andthen, attempt in E. destruct (m w) as [[a|x1] w1] eqn:E1.
  - by eapply Ho.
  - by eapply Hx; [eapply Hm|].
Qed.

Lemma raises_only_finally {A} (P : exn -> Prop) (m : eff A) f :
  raises_only P m -> raises_only P f -> raises_only P (finally m f).
Proof.
  intros Hm Hf w x w' E. unfold finally in E. destruct (m w) as [o w1] eqn:E1. destruct (f w1) as [[[]|y] w2] eqn:E2.
  - injection E as -> <-. by eapply Hm.
  - injection E as -> <-. by eapply Hf.
Qed.

Lemma raises_only_weaken {A} (P Q : exn -> Prop) (m : eff A) :
  raises_only P m -> (forall x, P x -> Q x) -> raises_only Q m.
Proof. intros H HPQ w x w' E. by eapply HPQ, H. Qed.

(** A computation that keeps an invariant of the state, whatever its outcome. *)
Definition keeps {A} (I : W -> Prop) (m : eff A) : Prop := forall w, I w -> I (m w).2.

Lemma keeps_ret {A} I (a : A) : keeps I (ret a).
Proof. by intros w. Qed.

Lemma keeps_throw {A} I x : keeps I (@throw A x).
Proof. by intros w. Qed.

Lemma keeps_lift {A} I (r : result exn A) : keeps I (lift r).
Proof. by intros w. Qed.

Lemma keeps_andthen {A B} I (m : eff A) (f : A -> eff B) :
  keeps I m -> (forall a, keeps I (f a)) -> keeps I (andthen m f).
Proof.
  intros Hm Hf w Hw. unfold andthen. specialize (Hm w Hw). destruct (m w) as [[a|x] w']; [|done]. by apply Hf.
Qed.

Lemma keeps_trying {A} I (m : eff A) h : keeps I m -> (forall x, keeps I (h x)) -> keeps I (trying m h).
Proof.
  intros Hm Hh w Hw. unfold trying. specialize (Hm w Hw). destruct (m w) as [[a|x] w']; [done|]. by apply Hh.
Qed.

Lemma keeps_finally {A} I (m : eff A) f : keeps I m -> keeps I f -> keeps I (finally m f).
Proof.
  intros Hm Hf w Hw. unfold finally. specialize (Hm w Hw). destruct (m w) as [o w']. cbn in Hm.
  specialize (Hf w' Hm). by destruct (f w') as [[]].
Qed.

Lemma keeps_attempt {A} I (m : eff A) : keeps I m -> keeps I (attempt m).
Proof. intros Hm w Hw. unfold attempt. specialize (Hm w Hw). by destruct (m w). Qed.

Lemma keeps_gets {A} I (f : W -> A) : keeps I (gets f).
Proof. by intros w. Qed.

(** ** Triples *)

(** From a state [P] allows, [m] ends with an outcome and a state [Q] allows. *)
Definition triple {A} (P : W -> Prop) (m : eff A) (Q : result exn A -> W -> Prop) : Prop :=
  forall w, P w -> Q (m w).1 (m w).2.

Lemma triple_weaken {A} (P P' : W -> Prop) (m : eff A) (Q Q' : result exn A -> W -> Prop) :
  triple P m Q -> (forall w, P' w -> P w) -> (forall r w, Q r w -> Q' r w) -> triple P' m Q'.
Proof. intros H HP HQ w Hw. by apply HQ, H, HP. Qed.

Lemma triple_ret {A} (a : A) (Q : result exn A -> W -> Prop) : triple (Q (Ok a)) (ret a) Q.
Proof. by intros w. Qed.

Lemma triple_throw {A} x (Q : result exn A -> W -> Prop) : triple (Q (Err x)) (throw x) Q.
Proof. by intros w. Qed.

Lemma triple_lift {A} (r : result exn A) (Q : result exn A -> W -> Prop) : triple (Q r) (lift r) Q.
Proof. by intros w. Qed.

Lemma triple_gets {A} (f : W -> A) (Q : result exn A -> W -> Prop) : triple (fun w => Q (Ok (f w)) w) (gets f) Q.
Proof. by intros w. Qed.

Lemma triple_modify f (Q : result exn unit -> W -> Prop) : triple (fun w => Q (Ok tt) (f w)) (modify f) Q.
Proof. by intros w. Qed.

Lemma triple_andthen {A B} P (m : eff A) (f : A -> eff B) M Q :
  triple P m M -> (forall a, triple (M (Ok a)) (f a) Q) -> (forall x w, M (Err x) w -> Q (Err x) w) ->
  triple P (andthen m f) Q.
Proof.
  intros Hm Hf Hx w Hw. unfold andthen. specialize (Hm w Hw). destruct (m w) as [[a|x] w1]; cbn in *; [by apply Hf|by apply Hx].
Qed.

Lemma triple_attempt {A} P (m : eff A) M : triple P m M ->
  triple P (attempt m) (fun o w => match o with Ok r => M r w | Err _ => False end).
Proof. intros Hm w Hw. unfold attempt. specialize (Hm w Hw). by destruct (m w). Qed.

Lemma triple_trying {A} P (m : eff A) h M Q :
  triple P m M -> (forall a w, M (Ok a) w -> Q (Ok a) w) -> (forall x, triple (M (Err x)) (h x) Q) -> triple P (trying m h) Q.
Proof.
  intros Hm Ho Hx w Hw. unfold trying. specialize (Hm w Hw). destruct (m w) as [[a|x] w1]; cbn in *; [by apply Ho|by apply Hx].
Qed.

Lemma triple_finally {A} P (m : eff A) f M Q :
  triple P m M -> (forall o, triple (M o) f (fun r w => Q (match r with Ok _ => o | Err x => Err x end) w)) ->
  triple P (finally m f) Q.
Proof.
  intros Hm Hf w Hw. unfold finally. specialize (Hm w Hw). destruct (m w) as [o w1]. cbn in Hm.
  specialize (Hf o w1 Hm). by destruct (f w1) as [[u|x] w2].
Qed.

Lemma raises_only_lift {A} (P : exn -> Prop) (r : result exn A) : (forall x, r = Err x -> P x) -> raises_only P (lift r).
Proof. intros H w x w' E. injection E as -> _. by apply H. Qed.

Lemma andthen_ok {A B} (m : eff A) (f : A -> eff B) w b w2 : andthen m f w = (Ok b, w2) ->
  exists a w1, m w = (Ok a, w1) /\ f a w1 = (Ok b, w2).
Proof. unfold andthen. destruct (m w) as [[a|x] w1]; [|done]. by exists a, w1. Qed.

(** A handler that always raises does not add results. *)
Lemma trying_ok {A} (m : eff A) (h : exn -> eff A) w a w' : (forall x, exists y, h x = throw y) ->
  trying m h w = (Ok a, w') -> m w = (Ok a, w').
Proof.
  intros Hh. unfold trying. destruct (m w) as [[b|x] w1]; [done|]. by destruct (Hh x) as [y ->].
Qed.

(** ** Computations that succeed *)

(** From every state [I] allows, [m] returns a value [Q] allows, and [I] holds again. *)
Definition yields {A} (I : W -> Prop) (m : eff A) (Q : A -> Prop) : Prop :=
  forall w, I w -> exists a w', m w = (Ok a, w') /\ Q a /\ I w'.

Lemma yields_ret {A} I (a : A) (Q : A -> Prop) : Q a -> yields I (ret a) Q.
Proof. intros Ha w Hw. by exists a, w. Qed.

Lemma yields_andthen {A B} I (m : eff A) (f : A -> eff B) M Q :
  yields I m M -> (forall a, M a -> yields I (f a) Q) -> yields I (andthen m f) Q.
Proof.
  intros Hm Hf w Hw. destruct (Hm w Hw) as (a & w1 & E & Ha & H1). unfold andthen. rewrite E. by apply Hf.
Qed.

Lemma yields_trying {A} I (m : eff A) h Q : yields I m Q -> yields I (trying m h) Q.
Proof. intros Hm w Hw. destruct (Hm w Hw) as (a & w1 & E & H). exists a, w1. unfold trying. by rewrite E. Qed.

Lemma yields_attempt {A} I (m : eff A) Q : yields I m Q -> yields I (attempt m) (fun r => exists a, r = Ok a /\ Q a).
Proof.
  intros Hm w Hw. destruct (Hm w Hw) as (a & w1 & E & Ha & H). exists (Ok a), w1. unfold attempt. rewrite E.
  split_and!; [done|by exists a|done].
Qed.

Lemma yields_finally {A} I (m : eff A) f Q : yields I m Q -> yields I f (fun _ => True) -> yields I (finally m f) Q.
Proof.
  intros Hm Hf w Hw. destruct (Hm w Hw) as (a & w1 & E & Ha & H). destruct (Hf w1 H) as (u & w2 & E2 & _ & H2).
  exists a, w2. unfold finally. by rewrite E, E2.
Qed.

Lemma yields_modify I (f : W -> W) : (forall w, I w -> I (f w)) -> yields I (modify f) (fun _ => True).
Proof. intros H w Hw. exists tt, (f w). split_and!; [done|done|by apply H]. Qed.

(** A handler for every exception that itself returns. *)
Lemma yields_always {A} I (m : eff A) h (Q : A -> Prop) : keeps I m -> (forall w a w', I w -> m w = (Ok a, w') -> Q a) ->
  (forall x, yields I (h x) Q) -> yields I (trying m h) Q.
Proof.
  intros Hm Ho Hh w Hw. unfold trying. specialize (Hm w Hw). destruct (m w) as [[a|x] w1] eqn:E; cbn in Hm; [|by apply Hh].
  exists a, w1. split_and!; [done|by eapply Ho|done].
Qed.

(** One step of a run. *)
Lemma run_andthen {A B} (m : eff A) (f : A -> eff B) w a w' : m w = (Ok a, w') -> andthen m f w = f a w'.
Proof. unfold andthen. by intros ->. Qed.
Lemma run_andthen_err {A B} (m : eff A) (f : A -> eff B) w x w' : m w = (Err x, w') -> andthen m f w = (Err x, w').
Proof. unfold andthen. by intros ->. Qed.
Lemma run_trying {A} (m : eff A) h w a w' : m w = (Ok a, w') -> trying m h w = (Ok a, w').
Proof. unfold trying. by intros ->. Qed.
Lemma run_trying_err {A} (m : eff A) h w x w' : m w = (Err x, w') -> trying m h w = h x w'.
Proof. unfold trying. by intros ->. Qed.
Lemma run_attempt {A} (m : eff A) w o w' : m w = (o, w') -> attempt m w = (Ok o, w').
Proof. unfold attempt. by intros ->. Qed.
Lemma run_finally {A} (m : eff A) f w o w' w'' : m w = (o, w') -> f w' = (Ok tt, w'') -> finally m f w = (o, w'').
Proof. unfold finally. by intros -> ->. Qed.

Lemma lift_ok {A} (r : result exn A) w a w' : lift r w = (Ok a, w') -> r = Ok a /\ w' = w.
Proof. by intros [= -> ->]. Qed.

Lemma never_raises_ok {A} (m : eff A) w : never_raises m -> exists a, m w = (Ok a, (m w).2).
Proof.
  intros H. destruct (m w) as [[a|x] w'] eqn:E; [by exists a|]. by apply H in E.
Qed.
End Effects.
Arguments eff W A : clear implicits.

(** A computation on one part of a state. *)
Definition on_fst {W1 W2 A} (m : eff W1 A) : eff (W1 * W2) A := fun w =>
  let (r, w1) := m w.1 in (r, (w1, w.2)).
Definition on_snd {W1 W2 A} (m : eff W2 A) : eff (W1 * W2) A := fun w =>
  let (r, w2) := m w.2 in (r, (w.1, w2)).

Declare Scope eff_scope.
Delimit Scope eff_scope with eff.
Notation "x <~ m ;; k" := (andthen m (fun x => k))
  (at level 100, m at next level, right associativity) : eff_scope.
Notation "m ;;~ k" := (andthen m (fun _ => k))
  (at level 100, right associativity) : eff_scope.

#[export] Hint Resolve keeps_ret keeps_throw keeps_lift keeps_andthen keeps_trying keeps_finally keeps_attempt keeps_gets : pydb.
#[export] Hint Resolve raises_only_ret raises_only_throw raises_only_andthen raises_only_trying : pydb.
