(* ===== verification/Orchestrator.v ===== *)
(** [FeatureOrchestrator] ([src/src/cachekit/decorators/orchestrator.py]): what a
    decorated function does with its circuit breaker, and its health report.

    Metrics, records and correlation identifiers are in [Reporting]; spans do nothing; [now] is what [time.time()] returns. *)
From Stdlib Require Import ZArith Lia SpecFloat.
From stdpp Require Import base list numbers option strings.
From S2P Require Import Prelude PyFloat Errors CircuitBreaker LoadControl.
From S2P Require Import Effects.

Local Open Scope Z_scope.

(** [FeatureOrchestrator(circuit_breaker_enabled, circuit_breaker_config, ...)] *)
Definition init (circuit_breaker_enabled : bool) (config : option CircuitBreakerConfig)
  : result py_exn (option CircuitBreaker) :=
  if circuit_breaker_enabled then
    match make_config (default default_config config) with
    | Ok c => Ok (Some (CircuitBreaker.init c))
    | Err e => Err e
    end
  else Ok None.

(** What the breaker is told of an exception. *)
Definition of_exn (x : exn) : exception :=
  match x with BackendExn e => Errors.BackendExn e | _ => OtherExn end.

Definition should_allow_request (b : option CircuitBreaker) : bool :=
  match b with
  | None => true
  | Some b => negb (bool_decide (get_state b = OPEN))
  end.

Definition record_success (b : option CircuitBreaker) : option CircuitBreaker := _on_success <$> b.

Definition record_failure (now : float) (x : exn) (b : option CircuitBreaker) : option CircuitBreaker :=
  _on_failure now (of_exn x) <$> b.

(** [handle_cache_error]: apart from reporting, a recorded failure. *)
Definition handle_cache_error := record_failure.

(** [get_health_status] *)
Record health_status := mkHealth {
  hs_namespace : pystr;
  hs_overall_healthy : bool;
  hs_healthy : bool;
  hs_circuit_breaker : option CircuitBreaker.Stats;
  hs_load_control : option LoadControl.Stats
}.

Definition lower_state (s : CircuitState) : pystr :=
  match s with CLOSED => u "closed" | OPEN => u "open" | HALF_OPEN => u "half_open" end.

(** [cb_status["state"] = state.name.lower()] *)
Definition breaker_status (namespace : pystr) (b : CircuitBreaker) : CircuitBreaker.Stats :=
  let s := CircuitBreaker.get_stats namespace b in
  CircuitBreaker.mkStats (lower_state (get_state b)) (s_failure_count s) (s_success_count s) (s_half_open_permits s)
    (s_last_failure_time s) (s_namespace s) (s_config s).

Definition get_health_status (namespace : pystr) (b : option CircuitBreaker) (lc : option LoadControl.Stats)
  : health_status :=
  let ok := should_allow_request b in
  mkHealth namespace ok ok (breaker_status namespace <$> b) lc.

(** [check_health]: the status word, the namespace and the components. *)
Definition check_health (namespace : pystr) (b : option CircuitBreaker) (lc : option LoadControl.Stats)
  : pystr * health_status :=
  let s := get_health_status namespace b lc in
  (if hs_healthy s then u "healthy" else u "unhealthy", s).

(** The report agrees with the gate. *)
Lemma healthy_iff_allowed namespace b lc :
  (check_health namespace b lc).1 = u "healthy" <-> should_allow_request b = true.
Proof. unfold check_health. cbn. by destruct (should_allow_request b). Qed.
