(* ===== verification/Json.v ===== *)
(** Python's [json]: [json.dumps(x, ensure_ascii=False)] for strings, booleans,
    [None], lists and dictionaries, and [json.loads] for any text; what is
    written is read back.

    A number is kept as the text of its literal.  There is no recursion limit. *)
From Stdlib Require Import ZArith Lia.
From stdpp Require Import base list numbers option strings.
From S2P Require Import Prelude PyDict Bytes PyValue Errors.

Local Open Scope Z_scope.

Inductive jval :=
  | JNull
  | JBool (b : bool)
  | JNum (literal : pystr)
  | JStr (s : pystr)
  | JArr (l : list jval)
  | JObj (l : list (pystr * jval)).

(** ** Writing *)

Definition escape (c : Z) : pystr :=
  if c =? 34 then [92; 34]
  else if c =? 92 then [92; 92]
  else if c =? 8 then [92; 98]
  else if c =? 12 then [92; 102]
  else if c =? 10 then [92; 110]
  else if c =? 13 then [92; 114]
  else if c =? 9 then [92; 116]
  else if c <? 32 then [92; 117; 48; 48; hex_digit (c / 16); hex_digit (c mod 16)]
  else [c].

Definition dump_str (s : pystr) : pystr := [34] ++ concat (map escape s) ++ [34].

Fixpoint dumps (j : jval) : pystr :=
  match j with
  | JNull => u "null"
  | JBool b => if b then u "true" else u "false"
  | JNum t => t
  | JStr s => dump_str s
  | JArr l => [91] ++ join (u ", ") (map dumps l) ++ [93]
  | JObj l => [123] ++ join (u ", ") (map (fun kv => dump_str kv.1 ++ u ": " ++ dumps kv.2) l) ++ [125]
  end.

(** ** Reading *)

Definition is_ws (c : Z) : bool := (c =? 32) || (c =? 9) || (c =? 10) || (c =? 13).

Fixpoint skip_ws (l : pystr) : pystr :=
  match l with c :: r => if is_ws c then skip_ws r else l | [] => [] end.

Definition hex_value (c : Z) : option Z :=
  if (48 <=? c) && (c <=? 57) then Some (c - 48)
  else if (97 <=? c) && (c <=? 102) then Some (c - 87)
  else if (65 <=? c) && (c <=? 70) then Some (c - 55)
  else None.

Definition hex4 (a b c d : Z) : option Z :=
  match hex_value a, hex_value b, hex_value c, hex_value d with
  | Some a, Some b, Some c, Some d => Some (((a * 16 + b) * 16 + c) * 16 + d)
  | _, _, _, _ => None
  end.

(** The character an escape letter stands for. *)
Definition unescape (e : Z) : option Z :=
  if e =? 34 then Some 34 else if e =? 92 then Some 92 else if e =? 47 then Some 47
  else if e =? 98 then Some 8 else if e =? 102 then Some 12 else if e =? 110 then Some 10
  else if e =? 114 then Some 13 else if e =? 116 then Some 9 else None.

Definition is_high (c : Z) : bool := (0xD800 <=? c) && (c <=? 0xDBFF).
Definition is_low (c : Z) : bool := (0xDC00 <=? c) && (c <=? 0xDFFF).
Definition join_surrogates (h l : Z) : Z := 0x10000 + (h - 0xD800) * 1024 + (l - 0xDC00).

Definition pushed (c : Z) (r : option (pystr * pystr)) : option (pystr * pystr) :=
  match r with Some (s, rest) => Some (c :: s, rest) | None => None end.

(** After the opening quote, up to and past the closing one; control characters
    are refused (strict mode). *)
Fixpoint scan_str (l : pystr) : option (pystr * pystr) :=
  match l with
  | [] => None
  | c :: r =>
      if c =? 34 then Some ([], r)
      else if c =? 92 then
        match r with
        | e :: r1 =>
            if e =? 117 then
              match r1 with
              | a :: b :: c :: d :: r2 =>
                  match hex4 a b c d with
                  | Some v =>
                      match r2 with
                      | b1 :: b2 :: a' :: b' :: c' :: d' :: r3 =>
                          if is_high v && (b1 =? 92) && (b2 =? 117) then
                            match hex4 a' b' c' d' with
                            | Some w =>
                                if is_low w then pushed (join_surrogates v w) (scan_str r3)
                                else pushed v (scan_str r2)
                            | None => None
                            end
                          else pushed v (scan_str r2)
                      | _ => pushed v (scan_str r2)
                      end
                  | None => None
                  end
              | _ => None
              end
            else match unescape e with
                 | Some x => pushed x (scan_str r1)
                 | None => None
                 end
        | [] => None
        end
      else if c <? 32 then None
      else pushed c (scan_str r)
  end.

Definition is_digit (c : Z) : bool := (48 <=? c) && (c <=? 57).

Fixpoint digits (l : pystr) : pystr * pystr :=
  match l with
  | c :: r => if is_digit c then let (d, r') := digits r in (c :: d, r') else ([], l)
  | [] => ([], [])
  end.

(** An optional part of a number: nothing when it is not well formed. *)
Definition fraction (l : pystr) : pystr * pystr :=
  match l with
  | 46 :: r => match digits r with ([], _) => ([], l) | (d, r') => (46 :: d, r') end
  | _ => ([], l)
  end.

Definition exponent (l : pystr) : pystr * pystr :=
  match l with
  | e :: r =>
      if (e =? 69) || (e =? 101) then
        let (sg, r1) := match r with
                        | x :: r' => if (x =? 43) || (x =? 45) then ([x], r') else ([], r)
                        | [] => ([], r)
                        end in
        match digits r1 with ([], _) => ([], l) | (d, r2) => (e :: sg ++ d, r2) end
      else ([], l)
  | [] => ([], l)
  end.

Definition natural (l : pystr) : option (pystr * pystr) :=
  match l with
  | 48 :: r => Some ([48], r)
  | _ => match digits l with ([], _) => None | p => Some p end
  end.

Definition scan_num (l : pystr) : option (jval * pystr) :=
  let (sg, l1) := match l with 45 :: r => ([45], r) | _ => ([], l) end in
  match natural l1 with
  | None => None
  | Some (n, l2) =>
      let (f, l3) := fraction l2 in
      let (x, l4) := exponent l3 in
      Some (JNum (sg ++ n ++ f ++ x), l4)
  end.

(** [l] after the literal [p]. *)
Fixpoint after (p l : pystr) : option pystr :=
  match p, l with
  | [], _ => Some l
  | x :: p, y :: l => if x =? y then after p l else None
  | _, _ => None
  end.

Section Containers.
Context (value : pystr -> option (jval * pystr)).

(** The items of an array, from the first one; [n] bounds their number. *)
Fixpoint elements (n : nat) (l : pystr) : option (list jval * pystr) :=
  match n with
  | O => None
  | S n =>
      match value l with
      | Some (v, r) =>
          match skip_ws r with
          | c :: r1 =>
              if c =? 93 then Some ([v], r1)
              else if c =? 44 then
                match elements n (skip_ws r1) with
                | Some (vs, r2) => Some (v :: vs, r2)
                | None => None
                end
              else None
          | [] => None
          end
      | None => None
      end
  end.

(** The items of an object, from the opening quote of the first key. *)
Fixpoint members (n : nat) (l : pystr) : option (list (pystr * jval) * pystr) :=
  match n with
  | O => None
  | S n =>
      match l with
      | q :: r0 =>
          if negb (q =? 34) then None else
          match scan_str r0 with
          | Some (k, r) =>
              match skip_ws r with
              | c :: r1 =>
                  if negb (c =? 58) then None else
                  match value (skip_ws r1) with
                  | Some (v, r2) =>
                      match skip_ws r2 with
                      | d :: r3 =>
                          if d =? 125 then Some ([(k, v)], r3)
                          else if d =? 44 then
                            match members n (skip_ws r3) with
                            | Some (kvs, r4) => Some ((k, v) :: kvs, r4)
                            | None => None
                            end
                          else None
                      | [] => None
                      end
                  | None => None
                  end
              | [] => None
              end
          | None => None
          end
      | [] => None
      end
  end.
End Containers.

(** A dictionary from its items in textual order: the last one wins. *)
Definition of_pairs (l : list (pystr * jval)) : list (pystr * jval) :=
  foldl (fun d kv => od_set kv.1 kv.2 d) [] l.

Fixpoint value (fuel : nat) (l : pystr) : option (jval * pystr) :=
  match fuel, l with
  | S f, c :: r =>
      if c =? 34 then match scan_str r with Some (s, r') => Some (JStr s, r') | None => None end
      else if c =? 123 then
        match skip_ws r with
        | 125 :: r' => Some (JObj [], r')
        | r' => match members (value f) (length r') r' with
                | Some (kvs, r2) => Some (JObj (of_pairs kvs), r2)
                | None => None
                end
        end
      else if c =? 91 then
        match skip_ws r with
        | 93 :: r' => Some (JArr [], r')
        | r' => match elements (value f) (length r') r' with
                | Some (vs, r2) => Some (JArr vs, r2)
                | None => None
                end
        end
      else match after (u "null") l, after (u "true") l, after (u "false") l,
                 after (u "NaN") l, after (u "Infinity") l, after (u "-Infinity") l with
           | Some r', _, _, _, _, _ => Some (JNull, r')
           | _, Some r', _, _, _, _ => Some (JBool true, r')
           | _, _, Some r', _, _, _ => Some (JBool false, r')
           | _, _, _, Some r', _, _ => Some (JNum (u "NaN"), r')
           | _, _, _, _, Some r', _ => Some (JNum (u "Infinity"), r')
           | _, _, _, _, _, Some r' => Some (JNum (u "-Infinity"), r')
           | _, _, _, _, _, _ => scan_num l
           end
  | _, _ => None
  end.

(** One value and nothing else; the fuel is the length of the text. *)
Definition loads_text (s : pystr) : option jval :=
  match value (length s) (skip_ws s) with
  | Some (j, r) => match skip_ws r with [] => Some j | _ => None end
  | None => None
  end.

(** The encoding [json.loads] detects in bytes: UTF-8, UTF-8 after a byte order
    mark, or UTF-16 or UTF-32. *)
Inductive json_encoding := JUtf8 | JUtf8Sig | JWide.

Definition detect_encoding (b : pybytes) : json_encoding :=
  match b with
  | 0xFE :: 0xFF :: _ | 0xFF :: 0xFE :: _ => JWide
  | 0 :: 0 :: 0xFE :: 0xFF :: _ => JWide
  | 0xEF :: 0xBB :: 0xBF :: _ => JUtf8Sig
  | [x; y] => if (x =? 0) || (y =? 0) then JWide else JUtf8
  | x :: y :: _ :: _ :: _ => if (x =? 0) || (y =? 0) then JWide else JUtf8
  | _ => JUtf8
  end.

Section Loads.
(** [bytes.decode] for UTF-16 and UTF-32 with ["surrogatepass"]. *)
Context (decode_wide : pybytes -> option pystr).

(** [json.loads] on bytes; every failure is a [ValueError]. *)
Definition loads (b : pybytes) : result py_exn jval :=
  match
    match detect_encoding b with
    | JUtf8 => utf8_decode_with true b
    | JUtf8Sig => utf8_decode_with true (drop 3 b)
    | JWide => decode_wide b
    end
  with
  | Some s => match loads_text s with Some j => Ok j | None => Err ValueError end
  | None => Err ValueError
  end.
End Loads.

(** [json.dumps(j, ensure_ascii=False).encode("utf-8")] *)
Definition dump_bytes (j : jval) : result py_exn pybytes := utf8_encode (dumps j).

(** [bool(x)]; [num_truthy] is [bool] of the number a literal stands for. *)
Definition truthy (num_truthy : pystr -> bool) (j : jval) : bool :=
  match j with
  | JNull => false
  | JBool b => b
  | JNum t => num_truthy t
  | JStr s => match s with [] => false | _ => true end
  | JArr l => match l with [] => false | _ => true end
  | JObj l => match l with [] => false | _ => true end
  end.

(** ** What is written is read back *)

(** Strings, constants and nested dictionaries. *)
Fixpoint writable (j : jval) : Prop :=
  match j with
  | JNull | JBool _ => True
  | JStr s => Forall is_code_point s
  | JObj l =>
      NoDup (map fst l) /\ Forall (fun kv => Forall is_code_point kv.1) l /\
      foldr (fun kv P => writable kv.2 /\ P) True l
  | JNum _ | JArr _ => False
  end.

Section Induction.
Context (P : jval -> Prop).
Hypothesis Hnull : P JNull.
Hypothesis Hbool : forall b, P (JBool b).
Hypothesis Hnum : forall t, P (JNum t).
Hypothesis Hstr : forall s, P (JStr s).
Hypothesis Harr : forall l, P (JArr l).
Hypothesis Hobj : forall l, Forall (fun kv => P kv.2) l -> P (JObj l).

Fixpoint jval_deep (j : jval) : P j :=
  let items := fix items (l : list (pystr * jval)) : Forall (fun kv => P kv.2) l :=
    match l with
    | [] => Forall_nil_2 _
    | (k, x) :: r => Forall_cons_2 (fun kv => P kv.2) (k, x) r (jval_deep x) (items r)
    end in
  match j with
  | JNull => Hnull | JBool b => Hbool b | JNum t => Hnum t | JStr s => Hstr s
  | JArr l => Harr l | JObj l => Hobj l (items l)
  end.
End Induction.

Lemma hex_value_digit d : 0 <= d < 16 -> hex_value (hex_digit d) = Some d.
Proof.
  intros Hd. unfold hex_digit. destruct (d <? 10) eqn:E; zbool; unfold hex_value; ztests; simpl; f_equal; lia.
Qed.

Lemma scan_plain c l : c <> 34 -> c <> 92 -> 32 <= c -> scan_str (c :: l) = pushed c (scan_str l).
Proof. intros. cbn [scan_str]. by ztests. Qed.

Lemma scan_unicode v a b c d l : hex4 a b c d = Some v -> is_high v = false ->
  scan_str (92 :: 117 :: a :: b :: c :: d :: l) = pushed v (scan_str l).
Proof.
  intros H Hv. cbn [scan_str]. simpl Z.eqb. cbv iota. rewrite H, Hv.
  by destruct l as [|? [|? [|? [|? [|? [|? ?]]]]]].
Qed.

Lemma scan_escape c l : is_code_point c -> scan_str (escape c ++ l) = pushed c (scan_str l).
Proof.
  intros Hc. unfold is_code_point in Hc. unfold escape.
  destruct (c =? 34) eqn:E1; zbool; [by subst|]. destruct (c =? 92) eqn:E2; zbool; [by subst|].
  destruct (c =? 8) eqn:E3; zbool; [by subst|]. destruct (c =? 12) eqn:E4; zbool; [by subst|].
  destruct (c =? 10) eqn:E5; zbool; [by subst|]. destruct (c =? 13) eqn:E6; zbool; [by subst|].
  destruct (c =? 9) eqn:E7; zbool; [by subst|]. destruct (c <? 32) eqn:E8; zbool; [|by apply scan_plain].
  cbn [app]. apply scan_unicode.
  - pose proof (Z.mod_pos_bound c 16). pose proof (Z.div_mod c 16).
    assert (0 <= c / 16 < 16) by (split; [apply Z.div_pos|apply Z.div_lt_upper_bound]; lia).
    unfold hex4. rewrite !hex_value_digit by lia. simpl. f_equal. lia.
  - unfold is_high. by ztests.
Qed.

Lemma scan_dumped s l : Forall is_code_point s ->
  scan_str (concat (map escape s) ++ 34 :: l) = Some (s, l).
Proof.
  induction 1 as [|c s Hc _ IH]; [done|]. simpl concat. rewrite <- app_assoc, scan_escape by done.
  by rewrite IH.
Qed.

Lemma of_pairs_nodup l : NoDup (map fst l) -> of_pairs l = l.
Proof.
  intros Nd. unfold of_pairs.
  assert (G : forall acc, NoDup (map fst (acc ++ l)) ->
    foldl (fun d kv => od_set kv.1 kv.2 d) acc l = acc ++ l).
  { clear Nd. induction l as [|[k v] l IH]; intros acc Nd; simpl; [by rewrite app_nil_r|].
    rewrite od_set_None.
    - rewrite IH; rewrite <- app_assoc; done.
    - apply od_get_None. rewrite map_app in Nd. simpl in Nd. apply NoDup_app in Nd as (_ & Nd & _).
      intros Hk. apply (Nd k); [exact Hk|by left]. }
  by apply (G []).
Qed.

(** One item as it is written. *)
Definition item (kv : pystr * jval) : pystr := dump_str kv.1 ++ u ": " ++ dumps kv.2.

Lemma dumps_head j : writable j -> exists c t, dumps j = c :: t /\ is_ws c = false.
Proof. destruct j as [|[]| | | |]; try done; intros _; simpl; eexists _, _; done. Qed.

Lemma skip_dumps j l : writable j -> skip_ws (dumps j ++ l) = dumps j ++ l.
Proof. intros Wf. destruct (dumps_head j Wf) as (c & t & -> & Hc). simpl. by rewrite Hc. Qed.

Lemma members_dumped (pv : pystr -> option (jval * pystr)) kvs n rest :
  kvs <> [] -> (length kvs <= n)%nat -> Forall (fun kv => Forall is_code_point kv.1) kvs ->
  Forall (fun kv => writable kv.2 /\ forall l, pv (dumps kv.2 ++ l) = Some (kv.2, l)) kvs ->
  members pv n (join (u ", ") (map item kvs) ++ 125 :: rest) = Some (kvs, rest).
Proof.
  revert n. induction kvs as [|[k v] kvs IH]; intros n Hne Hn Hk Hv; [done|].
  destruct n as [|n]; [simpl in Hn; lia|].
  apply list.Forall_cons in Hk as [Hk1 Hk]. apply list.Forall_cons in Hv as [[Wv Pv] Hv].
  assert (Step : forall l, members pv (S n) (item (k, v) ++ l) =
    match skip_ws l with
    | d :: r3 =>
        if d =? 125 then Some ([(k, v)], r3)
        else if d =? 44 then
          match members pv n (skip_ws r3) with Some (x, r4) => Some ((k, v) :: x, r4) | None => None end
        else None
    | [] => None
    end).
  { intros l. unfold item, dump_str. cbn [fst snd]. rewrite <- !app_assoc. cbn [app members].
    change (negb (34 =? 34)) with false. cbv iota.
    rewrite scan_dumped by done. change (u ": ") with [58; 32]. cbn [app].
    change (skip_ws (58 :: ?x)) with (58 :: x). cbv iota.
    change (negb (58 =? 58)) with false. cbv iota.
    change (skip_ws (32 :: ?x)) with (skip_ws x). by rewrite skip_dumps, Pv. }
  destruct kvs as [|kv2 kvs].
  - simpl join. by rewrite Step.
  - change (join (u ", ") (map item ((k, v) :: kv2 :: kvs)))
      with (item (k, v) ++ u ", " ++ join (u ", ") (map item (kv2 :: kvs))).
    rewrite <- !app_assoc, Step. change (u ", " ++ ?x) with (44 :: 32 :: x).
    change (skip_ws (44 :: ?x)) with (44 :: x). cbv iota. change (44 =? 125) with false.
    change (44 =? 44) with true. cbv iota. change (skip_ws (32 :: ?x)) with (skip_ws x).
    assert (S2 : skip_ws (join (u ", ") (map item (kv2 :: kvs)) ++ 125 :: rest) =
                 join (u ", ") (map item (kv2 :: kvs)) ++ 125 :: rest) by (by destruct kvs).
    rewrite S2, IH; [done|done|simpl in *; lia|done|done].
Qed.

Lemma item_length kv : (1 <= length (item kv))%nat.
Proof. unfold item, dump_str. simpl. lia. Qed.

Lemma join_items_length kvs : (length kvs <= length (join (u ", ") (map item kvs)))%nat.
Proof.
  induction kvs as [|kv [|kv2 kvs] IH]; [done|simpl; apply item_length|].
  change (join (u ", ") (map item (kv :: kv2 :: kvs)))
    with (item kv ++ u ", " ++ join (u ", ") (map item (kv2 :: kvs))).
  rewrite !length_app. pose proof (item_length kv). simpl length in *. lia.
Qed.

Lemma item_in_join kv kvs : kv ∈ kvs -> (length (dumps kv.2) <= length (join (u ", ") (map item kvs)))%nat.
Proof.
  assert (L : forall x, (length (dumps x.2) <= length (item x))%nat)
    by (intros x; unfold item; rewrite !length_app; lia).
  induction kvs as [|x kvs IH]; [by intros ?%not_elem_of_nil|].
  destruct kvs as [|y kvs].
  - intros ->%list_elem_of_singleton. apply L.
  - change (join (u ", ") (map item (x :: y :: kvs)))
      with (item x ++ u ", " ++ join (u ", ") (map item (y :: kvs))).
    rewrite !length_app, elem_of_cons. intros [->|H]; [pose proof (L x); lia|].
    specialize (IH H). lia.
Qed.

Lemma writable_items l : foldr (fun kv P => writable kv.2 /\ P) True l <-> Forall (fun kv : pystr * jval => writable kv.2) l.
Proof.
  induction l as [|x l IH]; simpl; [by split|]. rewrite list.Forall_cons, IH. done.
Qed.

Lemma value_dumped j fuel rest : writable j -> (length (dumps j) <= fuel)%nat ->
  value fuel (dumps j ++ rest) = Some (j, rest).
Proof.
  revert fuel rest. induction j as [|b|t|s|l|l IH] using jval_deep; intros fuel rest Wf Hf; try done.
  - destruct fuel; [simpl in Hf; lia|]. done.
  - destruct fuel; [destruct b; simpl in Hf; lia|]. by destruct b.
  - destruct fuel; [simpl in Hf; lia|]. cbn [dumps]. unfold dump_str. rewrite <- !app_assoc. cbn [app value].
    change (34 =? 34) with true. cbv iota. by rewrite scan_dumped.
  - destruct fuel as [|f]; [simpl in Hf; lia|]. destruct Wf as (Nd & Hk & Wv).
    apply writable_items in Wv. cbn [dumps] in *. rewrite !length_app in Hf. cbn [length] in Hf.
    rewrite <- !app_assoc.
    change (map (fun kv => dump_str kv.1 ++ u ": " ++ dumps kv.2) l) with (map item l) in *.
    cbn [app value]. change (123 =? 34) with false. change (123 =? 123) with true. cbv iota.
    destruct l as [|kv l]; [done|].
    set (txt := join (u ", ") (map item (kv :: l)) ++ 125 :: rest).
    assert (Hd : exists t, txt = 34 :: t) by (unfold txt; destruct l; by eexists).
    destruct Hd as [t Ht].
    assert (M : members (value f) (length txt) txt = Some (kv :: l, rest)).
    { apply members_dumped; [done| |done|].
      - unfold txt. rewrite length_app. pose proof (join_items_length (kv :: l)). lia.
      - rewrite list.Forall_forall in *. intros x Hx. split; [by apply Wv|]. intros l'.
        apply IH; [done|by apply Wv|]. pose proof (item_in_join x (kv :: l) Hx). lia. }
    rewrite Ht in *. change (skip_ws (34 :: t)) with (34 :: t). cbv iota. rewrite M.
    by rewrite of_pairs_nodup.
Qed.

Lemma escape_code_points c : is_code_point c -> Forall is_code_point (escape c).
Proof.
  intros Hc. unfold escape. assert (L : forall x, 0 <= x < 128 -> is_code_point x) by (unfold is_code_point; lia).
  repeat case_match; repeat (constructor; [try (apply L; lia)|]); try done; try constructor;
    try (unfold is_code_point in *; zbool; lia).
  all: pose proof (Z.mod_pos_bound c 16); unfold is_code_point in Hc; zbool;
    assert (0 <= c / 16 < 16) by (split; [apply Z.div_pos|apply Z.div_lt_upper_bound]; lia).
  all: apply L; unfold hex_digit; case_match; zbool; lia.
Qed.

Lemma dump_str_code_points s : Forall is_code_point s -> Forall is_code_point (dump_str s).
Proof.
  intros H. unfold dump_str. rewrite !list.Forall_app. split_and!; try (repeat constructor; done).
  induction H as [|c s Hc _ IH]; [constructor|]. simpl. apply list.Forall_app. by split; [apply escape_code_points|].
Qed.

Lemma join_code_points l : Forall (Forall is_code_point) l -> Forall is_code_point (join (u ", ") l).
Proof.
  induction 1 as [|x [|y l] Hx Hl IH]; [constructor|done|].
  change (Forall is_code_point (x ++ u ", " ++ join (u ", ") (y :: l))).
  rewrite !list.Forall_app. split_and!; [done|apply u_code_points|done].
Qed.

Lemma dumps_code_points j : writable j -> Forall is_code_point (dumps j).
Proof.
  induction j as [|b|t|s|l|l IH] using jval_deep; try done; intros Wf.
  - apply (u_code_points "null").
  - destruct b; [apply (u_code_points "true")|apply (u_code_points "false")].
  - by apply dump_str_code_points.
  - destruct Wf as (_ & Hk & Wv). apply writable_items in Wv. cbn [dumps]. rewrite !list.Forall_app.
    split_and!; try (repeat constructor; done). apply join_code_points, Forall_map, list.Forall_forall.
    rewrite list.Forall_forall in *. intros x Hx. rewrite !list.Forall_app.
    split_and!; [by apply dump_str_code_points, Hk|apply u_code_points|by apply IH, Wv].
Qed.

Lemma dict_dump_head l : exists x t, dumps (JObj l) = 123 :: x :: t /\ (x = 34 \/ x = 125).
Proof.
  cbn [dumps]. destruct l as [|kv l]; [by eexists _, _; split; [|right]|].
  destruct l; eexists _, _; (split; [reflexivity|by left]).
Qed.

(** [json.loads(json.dumps(d).encode())] is [d], for a dictionary. *)
Lemma loads_dumped decode_wide l b : writable (JObj l) ->
  dump_bytes (JObj l) = Ok b -> loads decode_wide b = Ok (JObj l).
Proof.
  intros Wf E. pose proof (dumps_code_points _ Wf) as Hc. unfold dump_bytes in E.
  assert (D : detect_encoding b = JUtf8).
  { destruct (dict_dump_head l) as (x & t & Ed & Hx). rewrite Ed in E. simpl in E.
    assert (utf8_char x = Some [x]) as Ux by (by destruct Hx as [->| ->]). rewrite Ux in E.
    destruct (utf8_encode t) as [bs|]; [|done]. simpl in E. injection E as <-.
    destruct Hx as [->| ->]; by destruct bs as [|? [|? ?]]. }
  unfold loads. rewrite D, (utf8_roundtrip_with true _ _ Hc E). unfold loads_text.
  assert (S : skip_ws (dumps (JObj l)) = dumps (JObj l)).
  { rewrite <- (app_nil_r (dumps _)). by apply skip_dumps. }
  rewrite S. rewrite <- (app_nil_r (dumps (JObj l))) at 2.
  by rewrite value_dumped.
Qed.
