(* ===== verification/Envelope.v ===== *)
(** The frame around a stored value ([src/src/cachekit/serializers/wrapper.py]) and
    the metadata it carries ([src/src/cachekit/serializers/base.py]): definitions,
    and what is framed is read back. *)
From Stdlib Require Import ZArith Lia.
From stdpp Require Import base list numbers option strings.
From S2P Require Import Prelude PyDict Bytes PyValue Errors Effects Json.

Local Open Scope Z_scope.
Local Open Scope py_scope.

(** ** Metadata *)

Inductive SerializationFormat := MSGPACK | ORJSON | ARROW.

#[export] Instance SerializationFormat_eq_dec : EqDecision SerializationFormat.
Proof. solve_decision. Defined.

(** [SerializationFormat.value] *)
Definition format_value (f : SerializationFormat) : pystr :=
  match f with MSGPACK => u "msgpack" | ORJSON => u "orjson" | ARROW => u "arrow" end.

(** [SerializationFormat(x)] *)
Definition to_format (x : jval) : result py_exn SerializationFormat :=
  match x with
  | JStr s =>
      if bool_decide (s = u "msgpack") then Ok MSGPACK
      else if bool_decide (s = u "orjson") then Ok ORJSON
      else if bool_decide (s = u "arrow") then Ok ARROW
      else Err ValueError
  | _ => Err ValueError
  end.

(** A header is not validated: every field but the format may hold any JSON value. *)
Record SerializationMetadata := mkMetadata {
  format : SerializationFormat;
  encoding : jval;
  compressed : jval;
  original_type : jval;
  encrypted : jval;
  tenant_id : jval;
  encryption_algorithm : jval;
  key_fingerprint : jval
}.

(** The constructor with its defaults. *)
Definition metadata (f : SerializationFormat) (compressed : bool) (original_type : jval)
  : SerializationMetadata :=
  mkMetadata f (JStr (u "utf-8")) (JBool compressed) original_type (JBool false) JNull JNull JNull.

(** [data.get(key, default)] *)
Definition field (d : list (pystr * jval)) (key : pystr) (default : jval) : jval :=
  match od_get key d with Some v => v | None => default end.

Section Frame.
(** [bool] of the number a literal stands for. *)
Context (num_truthy : pystr -> bool).

Definition to_dict (m : SerializationMetadata) : list (pystr * jval) :=
  [(u "format", JStr (format_value (format m))); (u "encoding", encoding m);
   (u "compressed", compressed m); (u "original_type", original_type m)] ++
  (if truthy num_truthy (encrypted m)
   then [(u "encrypted", encrypted m); (u "tenant_id", tenant_id m);
         (u "encryption_algorithm", encryption_algorithm m); (u "key_fingerprint", key_fingerprint m)]
   else []).

Definition from_dict (data : jval) : result py_exn SerializationMetadata :=
  match data with
  | JObj d =>
      match od_get (u "format") d with
      | None => Err KeyError
      | Some x =>
          f <-! to_format x ;
          Ok (mkMetadata f (field d (u "encoding") (JStr (u "utf-8")))
                (field d (u "compressed") (JBool false)) (field d (u "original_type") JNull)
                (field d (u "encrypted") (JBool false)) (field d (u "tenant_id") JNull)
                (field d (u "encryption_algorithm") JNull) (field d (u "key_fingerprint") JNull))
      end
  | _ => Err TypeError
  end.

(** ** The v3 frame *)

Definition _MAGIC : pybytes := u "CK".
Definition _FRAME_VERSION : Z := 3.
Definition _HEADER_LEN_BYTES : nat := 4.
Definition _PREFIX_LEN : Z := zlen _MAGIC + 1 + Z.of_nat _HEADER_LEN_BYTES.

Definition wrap_prefix (metadata : list (pystr * jval)) (serializer_name version : pystr)
  : result py_exn pybytes :=
  header <-! dump_bytes (JObj [(u "s", JStr serializer_name); (u "m", JObj metadata); (u "v", JStr version)]) ;
  if zlen header <? 256 ^ Z.of_nat _HEADER_LEN_BYTES
  then Ok (_MAGIC ++ [_FRAME_VERSION] ++ be_bytes _HEADER_LEN_BYTES (zlen header) ++ header)
  else Err OverflowError.

Definition wrap (data : pybytes) (metadata : list (pystr * jval)) (serializer_name version : pystr)
  : result py_exn pybytes :=
  prefix <-! wrap_prefix metadata serializer_name version ; Ok (prefix ++ data).

(** What a backend hands back: text or bytes. *)
Inductive raw := RawStr (s : pystr) | RawBytes (b : pybytes).

(** ** The legacy envelope *)

(** The value of a base64 character. *)
Definition b64_value (c : Z) : option Z :=
  if (65 <=? c) && (c <=? 90) then Some (c - 65)
  else if (97 <=? c) && (c <=? 122) then Some (c - 71)
  else if (48 <=? c) && (c <=? 57) then Some (c + 4)
  else if c =? 43 then Some 62
  else if c =? 47 then Some 63
  else None.

(** [base64.b64decode(s)], not validating: characters outside the alphabet are
    skipped, a completed padding ends the text.  [quad] characters of the current
    group of four have been read, [left] are the bits not yet output, [pads] the
    padding characters since the last data character. *)
Fixpoint b64decode_from (quad left pads : Z) (s : pybytes) : option pybytes :=
  match s with
  | [] => if quad =? 0 then Some [] else None
  | c :: r =>
      if c =? 61 then
        if 2 <=? quad
        then if 4 <=? quad + (pads + 1) then Some [] else b64decode_from quad left (pads + 1) r
        else b64decode_from quad left pads r
      else match b64_value c with
           | None => b64decode_from quad left pads r
           | Some v =>
               if quad =? 0 then b64decode_from 1 v 0 r
               else let out x q l := match b64decode_from q l 0 r with
                                     | Some bs => Some (x :: bs)
                                     | None => None
                                     end in
                    if quad =? 1 then out (left * 4 + v / 16) 2 (v mod 16)
                    else if quad =? 2 then out (left * 16 + v / 4) 3 (v mod 4)
                    else out (left * 64 + v) 0 0
           end
  end.

Definition b64decode (s : pybytes) : result py_exn pybytes :=
  match b64decode_from 0 0 0 s with Some b => Ok b | None => Err ValueError end.

(** [s.encode("ascii")] *)
Definition encode_ascii (s : pystr) : result py_exn pybytes :=
  if forallb (fun c => c <? 128) s then Ok s else Err UnicodeEncodeError.

(** A dictionary, or the error of the method call [.get] on anything else. *)
Definition as_dict (j : jval) (e : exn) : result exn (list (pystr * jval)) :=
  match j with JObj d => Ok d | _ => Err e end.

Definition unwrap_legacy (text : pystr) : result exn (pybytes * jval * jval) :=
  match loads_text text with
  | None => Err (PyExn ValueError)
  | Some wrapper =>
      d <-! as_dict wrapper (PyExn TypeError) ;
      match od_get (u "data") d with
      | None => Err (PyExn KeyError)
      | Some (JStr s) =>
          b <-! py (encode_ascii s) ;
          data <-! py (b64decode b) ;
          Ok (data, field d (u "metadata") (JObj []), field d (u "serializer") (JStr (u "unknown")))
      | Some _ => Err OtherError
      end
  end.

(** ** Reading either format *)

(** [bytes.decode] for UTF-16 and UTF-32, as [json.loads] uses it. *)
Context (decode_wide : pybytes -> option pystr).

Definition unwrap_frame (b : pybytes) : result exn (pybytes * jval * jval) :=
  if zlen b <? _PREFIX_LEN then Err (PyExn ValueError)
  else if negb (be_val (take 1 (drop 2 b)) =? _FRAME_VERSION) then Err (PyExn ValueError)
  else
    let hdr_len := be_val (take 4 (drop 3 b)) in
    let header_end := _PREFIX_LEN + hdr_len in
    if zlen b <? header_end then Err (PyExn ValueError)
    else
      header <-! py (loads decode_wide (take (Z.to_nat hdr_len) (drop (Z.to_nat _PREFIX_LEN) b))) ;
      d <-! as_dict header OtherError ;
      Ok (drop (Z.to_nat header_end) b, field d (u "m") (JObj []), field d (u "s") (JStr (u "unknown"))).

(** The payload, the metadata and the serializer name. *)
Definition unwrap (wrapped_data : raw) : result exn (pybytes * jval * jval) :=
  match wrapped_data with
  | RawBytes b =>
      if bool_decide (take 2 b = _MAGIC) then unwrap_frame b
      else match utf8_decode b with
           | None => Err (PyExn ValueError)
           | Some text => unwrap_legacy text
           end
  | RawStr text => unwrap_legacy text
  end.

(** ** Lemmas *)

(** Metadata the serializers make: text, booleans and [None]; the fields of an
    unencrypted value are unset. *)
Definition plain (j : jval) : Prop :=
  match j with JNull | JBool _ => True | JStr s => Forall is_code_point s | _ => False end.

Definition wf_metadata (m : SerializationMetadata) : Prop :=
  plain (encoding m) /\ plain (compressed m) /\ plain (original_type m) /\ plain (tenant_id m) /\
  plain (encryption_algorithm m) /\ plain (key_fingerprint m) /\
  (encrypted m = JBool true \/
   encrypted m = JBool false /\ tenant_id m = JNull /\ encryption_algorithm m = JNull /\
   key_fingerprint m = JNull).

Lemma plain_writable j : plain j -> writable j.
Proof. by destruct j. Qed.

Lemma to_format_value f : to_format (JStr (format_value f)) = Ok f.
Proof. by destruct f. Qed.

Lemma metadata_roundtrip m : wf_metadata m -> from_dict (JObj (to_dict m)) = Ok m.
Proof.
  intros (_ & _ & _ & _ & _ & _ & H). destruct m as [f e c o x t a k]. unfold to_dict, from_dict.
  cbn [format encoding compressed original_type encrypted tenant_id encryption_algorithm key_fingerprint] in *.
  destruct H as [->|(-> & -> & -> & ->)]; by destruct f.
Qed.

Lemma to_dict_writable m : wf_metadata m -> writable (JObj (to_dict m)).
Proof.
  intros (H1 & H2 & H3 & H4 & H5 & H6 & H). apply plain_writable in H1, H2, H3, H4, H5, H6.
  assert (writable (JStr (format_value (format m)))) by (destruct (format m); apply u_code_points).
  assert (writable (encrypted m)) by (by destruct H as [->|[-> _]]).
  unfold to_dict. destruct (truthy num_truthy (encrypted m)); cbn [app map fst snd writable foldr];
    (split; [apply (bool_decide_unpack _); vm_compute; exact I|]);
    (split; [repeat (apply list.Forall_cons; split; [apply u_code_points|]); apply Forall_nil_2|]); by repeat split.
Qed.

Lemma wrap_prefix_inv d n v p : wrap_prefix d n v = Ok p ->
  exists h, dump_bytes (JObj [(u "s", JStr n); (u "m", JObj d); (u "v", JStr v)]) = Ok h /\
    zlen h < 2 ^ 32 /\ p = _MAGIC ++ [_FRAME_VERSION] ++ be_bytes 4 (zlen h) ++ h.
Proof.
  unfold wrap_prefix. destruct (dump_bytes _) as [h|]; [|done]. simpl rbind.
  destruct (_ <? _) eqn:E; [|done]. intros [= <-]. exists h. split_and!; [done|by zbool|done].
Qed.

(** The bytes of a frame. *)
Lemma frame_shape data d n v b : wrap data d n v = Ok b ->
  exists b1 b2 b3 b4 h, b = 67 :: 75 :: _FRAME_VERSION :: b1 :: b2 :: b3 :: b4 :: h ++ data /\
    be_val [b1; b2; b3; b4] = zlen h /\
    dump_bytes (JObj [(u "s", JStr n); (u "m", JObj d); (u "v", JStr v)]) = Ok h.
Proof.
  intros E. unfold wrap in E. destruct (wrap_prefix d n v) as [p|] eqn:Ep; [|done].
  simpl in E. injection E as <-. apply wrap_prefix_inv in Ep as (h & Eh & Hh & ->).
  pose proof (be_bytes_length 4 (zlen h)) as L4.
  assert (Hz : be_val (be_bytes 4 (zlen h)) = zlen h).
  { apply be_roundtrip. split; [unfold zlen; lia|exact Hh]. }
  set (hb := be_bytes 4 (zlen h)) in *.
  destruct hb as [|b1 [|b2 [|b3 [|b4 [|? ?]]]]]; try done.
  exists b1, b2, b3, b4, h. split_and!; [|done|done].
  change _MAGIC with [67; 75]. cbn [app]. by rewrite <- ?app_assoc.
Qed.

Lemma frame_length b1 b2 b3 b4 (h data : pybytes) :
  zlen (67 :: 75 :: _FRAME_VERSION :: b1 :: b2 :: b3 :: b4 :: h ++ data) = 7 + zlen h + zlen data.
Proof. unfold zlen. cbn [length]. rewrite length_app. lia. Qed.

(** A frame is taken apart into the parts it was put together from. *)
Lemma unwrap_wrap data d n v b : writable (JObj d) -> Forall is_code_point n -> Forall is_code_point v ->
  wrap data d n v = Ok b -> unwrap (RawBytes b) = Ok (data, JObj d, JStr n).
Proof.
  intros Wd Wn Wv E. apply frame_shape in E as (b1 & b2 & b3 & b4 & h & -> & Hz & Eh).
  assert (L : loads decode_wide h = Ok (JObj [(u "s", JStr n); (u "m", JObj d); (u "v", JStr v)])).
  { apply loads_dumped; [|done]. cbn [writable map fst snd foldr] in Wd |- *.
    split; [apply (bool_decide_unpack _); vm_compute; exact I|].
    split; [repeat (apply list.Forall_cons; split; [apply u_code_points|]); apply Forall_nil_2|].
    exact (conj Wn (conj Wd (conj Wv I))). }
  unfold unwrap. rewrite bool_decide_eq_true_2 by reflexivity.
  unfold unwrap_frame. cbn [skipn firstn]. rewrite take_0, Hz, frame_length.
  pose proof (zlen_nonneg h). pose proof (zlen_nonneg data). change _PREFIX_LEN with 7. ztests.
  change (be_val [_FRAME_VERSION] =? _FRAME_VERSION) with true. cbn [negb].
  change (Z.to_nat 7) with 7%nat. cbn [skipn]. unfold zlen.
  rewrite Nat2Z.id, drop_0, take_app_length, L.
  replace (Z.to_nat (7 + Z.of_nat (length h))) with (7 + length h)%nat by lia.
  cbn [py rbind as_dict Nat.add skipn]. by rewrite drop_app_length.
Qed.

(** A frame cut anywhere before its payload is a ValueError. *)
Lemma unwrap_truncated data d n v b k : wrap data d n v = Ok b -> Z.of_nat k < zlen b - zlen data ->
  unwrap (RawBytes (take k b)) = Err (PyExn ValueError).
Proof.
  intros E Hk. apply frame_shape in E as (b1 & b2 & b3 & b4 & h & -> & Hz & _). rewrite frame_length in Hk.
  destruct k as [|[|k]]; [reflexivity|reflexivity|]. unfold unwrap. cbn [firstn].
  rewrite take_0, bool_decide_eq_true_2 by reflexivity. unfold unwrap_frame. change _PREFIX_LEN with 7.
  destruct k as [|[|[|[|[|k]]]]]; try reflexivity. cbn [firstn skipn]. rewrite ?take_0, ?drop_0.
  change (be_val [_FRAME_VERSION] =? _FRAME_VERSION) with true. cbn [negb]. rewrite Hz.
  destruct (_ <? 7); [done|].
  assert (Hl : zlen (67 :: 75 :: _FRAME_VERSION :: b1 :: b2 :: b3 :: b4 :: take k (h ++ data)) < 7 + zlen h).
  { unfold zlen in *. cbn [length]. rewrite length_take. lia. }
  by rewrite (proj2 (Z.ltb_lt _ _) Hl).
Qed.

End Frame.
