(* ===== verification/Serializers.v ===== *)
(** The serializers a handler can use and their registry
    ([src/src/cachekit/serializers/]: [standard_serializer.py],
    [orjson_serializer.py], [interop_serializer.py], [__init__.py], and
    [_get_cached_serializer_instance] of [cache_handler.py]).

    msgpack, orjson, xxhash and the compressed storage of the Rust extension are
    parameters. *)
From Stdlib Require Import ZArith Lia SpecFloat.
From stdpp Require Import base list numbers option strings sorting.
From S2P Require Import Prelude PyFloat PyDict Bytes PyValue Effects Json Envelope Interop.

Local Open Scope Z_scope.
Local Open Scope py_scope.

(** [SerializerProtocol]; the attributes a handler reads besides. *)
Record serializer (V : Type) := mkSerializer {
  s_serialize : V -> result exn (pybytes * SerializationMetadata);
  s_deserialize : pybytes -> SerializationMetadata -> result exn V;
  return_format : option pystr;
  cross_sdk_compatible : bool
}.
Arguments mkSerializer {V}.
Arguments s_serialize {V}.
Arguments s_deserialize {V}.
Arguments return_format {V}.
Arguments cross_sdk_compatible {V}.

Definition is_unpack_exception (x : exn) : bool := match x with UnpackException => true | _ => false end.

(** ** [InteropSerializer] *)

Definition of_ierr (e : ierr) : exn :=
  match e with
  | Interop.InteropError => Effects.InteropError
  | Interop.InteropDecodeError => SerializationExn Effects.InteropDecodeError
  | Interop.ConfigurationError => Effects.ConfigurationError
  | PyErr e => PyExn e
  end.

Definition of_interop {A} (r : result ierr A) : result exn A :=
  match r with Ok a => Ok a | Err e => Err (of_ierr e) end.

Module InteropSerializer.
Section InteropSerializer.
Context (datetime_iso date_iso time_iso : pystr -> result py_exn pyval).
Context (unpackb : pybytes -> option pyval).

Definition serialize (obj : pyval) : result exn (pybytes * SerializationMetadata) :=
  data <-! relabel (fun x => negb (is_value_error x)) (of_interop (encode_interop_value obj)) ;
  Ok (data, metadata MSGPACK false JNull).

Definition deserialize (data : pybytes) (_ : SerializationMetadata) : result exn pyval :=
  of_interop (decode_interop_value datetime_iso date_iso time_iso unpackb data).

Definition instance : serializer pyval := mkSerializer serialize deserialize None true.
End InteropSerializer.
End InteropSerializer.

(** ** [StandardSerializer] *)

Module StandardSerializer.

(** [{flag: True, "value": iso}] *)
Definition marked (flag iso : pystr) : pyval := PDict [(KStr flag, PBool true); (KStr (u "value"), PStr iso)].

(** Called on what msgpack cannot pack by itself. *)
Definition _standard_default (obj : pyval) : result py_exn pyval :=
  match obj with
  | PDatetime _ iso => Ok (marked (u "__datetime__") iso)
  | PDate iso => Ok (marked (u "__date__") iso)
  | PTime iso => Ok (marked (u "__time__") iso)
  | _ => Err TypeError
  end.

(** [bool(x)] of an unpacked value. *)
Definition is_true (v : pyval) : bool :=
  match v with
  | PNone => false
  | PBool b => b
  | PInt z => negb (z =? 0)
  | PFloat f => negb (feq f (fofZ 0))
  | PStr l | PBytes l => match l with [] => false | _ => true end
  | PList l => match l with [] => false | _ => true end
  | PDict l => match l with [] => false | _ => true end
  | _ => true
  end.

Definition flagged (flag : pystr) (l : list (pykey * pyval)) : bool :=
  match dict_get flag l with Some v => is_true v | None => false end.

Section StandardSerializer.
Context (datetime_iso date_iso time_iso : pystr -> result py_exn pyval).

(** [cls.fromisoformat(obj.get("value"))] *)
Definition restored (fromisoformat : pystr -> result py_exn pyval) (l : list (pykey * pyval)) : result exn pyval :=
  match dict_get (u "value") l with
  | None | Some PNone => Err SerializationError
  | Some (PStr s) => py (fromisoformat s)
  | Some _ => Err (PyExn TypeError)
  end.

Definition _standard_object_hook (l : list (pykey * pyval)) : result exn pyval :=
  if flagged (u "__datetime__") l then restored datetime_iso l
  else if flagged (u "__date__") l then restored date_iso l
  else if flagged (u "__time__") l then restored time_iso l
  else Ok (PDict l).

(** [msgpack.packb] and [msgpack.unpackb] with a hook, [ByteStorage]. *)
Context (packb : (pyval -> result py_exn pyval) -> pyval -> result exn pybytes).
Context (unpackb : (list (pykey * pyval) -> result exn pyval) -> pybytes -> result exn pyval).
Context (store retrieve : pybytes -> result exn pybytes).

Definition serialize (enable_integrity_checking : bool) (obj : pyval)
  : result exn (pybytes * SerializationMetadata) :=
  relabel is_value_error
    (msgpack_data <-! packb _standard_default obj ;
     envelope <-! (if enable_integrity_checking then store msgpack_data else Ok msgpack_data) ;
     Ok (envelope, metadata MSGPACK enable_integrity_checking (JStr (u "msgpack")))).

Definition deserialize (enable_integrity_checking : bool) (data : pybytes) (_ : SerializationMetadata)
  : result exn pyval :=
  relabel (fun x => is_unpack_exception x || is_value_error x || is_type_error x)
    (msgpack_data <-! (if enable_integrity_checking then retrieve data else Ok data) ;
     unpackb _standard_object_hook msgpack_data).

Definition instance (enable_integrity_checking : bool) : serializer pyval :=
  mkSerializer (serialize enable_integrity_checking) (deserialize enable_integrity_checking) None true.
End StandardSerializer.
End StandardSerializer.

(** ** [OrjsonSerializer] *)

Module OrjsonSerializer.
Section OrjsonSerializer.
Context {V : Type}.
(** [orjson.dumps] with the configured options, [orjson.loads] and
    [xxhash.xxh3_64_digest]. *)
Context (dumps : V -> result exn pybytes).
Context (loads : pybytes -> result exn V).
Context (xxh3_64_digest : pybytes -> pybytes).

Definition serialize (enable_integrity_checking : bool) (obj : V)
  : result exn (pybytes * SerializationMetadata) :=
  relabel is_value_error
    (json_data <-! dumps obj ;
     let envelope := if enable_integrity_checking then xxh3_64_digest json_data ++ json_data else json_data in
     Ok (envelope, metadata ORJSON false (JStr (u "orjson")))).

Definition deserialize (enable_integrity_checking : bool) (data : pybytes) (_ : SerializationMetadata)
  : result exn V :=
  relabel is_value_error
    (if enable_integrity_checking then
       if zlen data <? 10 then Err SerializationError
       else
         let expected_checksum := take 8 data in
         let json_data := drop 8 data in
         if bool_decide (xxh3_64_digest json_data <> expected_checksum) then Err SerializationError
         else loads json_data
     else loads data).

Definition instance (enable_integrity_checking : bool) : serializer V :=
  mkSerializer (serialize enable_integrity_checking) (deserialize enable_integrity_checking) None true.
End OrjsonSerializer.
End OrjsonSerializer.

(** ** The registry *)

Section Registry.
Context {I : Type}.
(** A class of the registry called with [enable_integrity_checking], or without
    arguments; importing it may fail.  Every class satisfies the protocol. *)
Context (construct : pystr -> option bool -> result exn I).

Definition SERIALIZER_REGISTRY : list pystr :=
  [u "auto"; u "pythonic"; u "default"; u "std"; u "arrow"; u "orjson"; u "encrypted"].

(** The names whose classes take the flag. *)
Definition core_names : list pystr :=
  [u "default"; u "std"; u "auto"; u "pythonic"; u "arrow"; u "orjson"].

(** [f"{name}:{enable_integrity_checking}"] *)
Definition cache_key (name : pystr) (enable_integrity_checking : bool) : pystr :=
  name ++ u ":" ++ (if enable_integrity_checking then u "True" else u "False").

(** The instances are kept in a dictionary under that key. *)
Definition get_serializer (name : pystr) (enable_integrity_checking : bool)
  : eff (list (pystr * I)) I := fun cache =>
  match od_get (cache_key name enable_integrity_checking) cache with
  | Some i => (Ok i, cache)
  | None =>
      if bool_decide (name ∈ SERIALIZER_REGISTRY) then
        match construct name (if bool_decide (name ∈ core_names) then Some enable_integrity_checking else None) with
        | Ok i => (Ok i, od_set (cache_key name enable_integrity_checking) i cache)
        | Err x => (Err x, cache)
        end
      else (Err (PyExn ValueError), cache)
  end.

(** A name, or an instance (with whether it satisfies the protocol). *)
Inductive serializer_choice := ByName (name : pystr) | ByInstance (i : I) (is_protocol : bool).

(** The handler's own cache on top of the registry's: a state of both. *)
Definition _get_cached_serializer_instance (c : serializer_choice) (enable_integrity_checking : bool)
  : eff (list (pystr * I) * list (pystr * I)) I := fun st =>
  match c with
  | ByInstance i ok => if ok then (Ok i, st) else (Err (PyExn TypeError), st)
  | ByName name =>
      match od_get (cache_key name enable_integrity_checking) st.1 with
      | Some i => (Ok i, st)
      | None =>
          match get_serializer name enable_integrity_checking st.2 with
          | (Ok i, c2) => (Ok i, (od_set (cache_key name enable_integrity_checking) i st.1, c2))
          | (Err x, c2) => (Err (if is_value_error x then PyExn ValueError else x), (st.1, c2))
          end
      end
  end.

End Registry.
Arguments serializer_choice I : clear implicits.

Lemma cache_key_inj n b n' b' : cache_key n b = cache_key n' b' -> n = n' /\ b = b'.
Proof.
  unfold cache_key. intros E.
  assert (b = b').
  { assert (L : forall (s t : pystr) x y, s ++ [x] = t ++ [y] -> x = y) by (intros; by simplify_list_eq).
    destruct b, b'; try done; exfalso.
    all: change (u "True") with [84; 114; 117; 101] in E; change (u "False") with [70; 97; 108; 115; 101] in E.
    all: apply (f_equal (fun l => nth 3 (rev l) 0)) in E; rewrite !rev_app_distr in E; simpl in E; discriminate. }
  subst. split; [|done]. by simplify_list_eq.
Qed.
