(* ===== verification/Arrow.v ===== *)
(** [ArrowSerializer] ([src/src/cachekit/serializers/arrow_serializer.py]): record
    batches of bounded size, the checksummed envelope, written in memory or
    streamed into a file.

    pandas, pyarrow, polars and xxhash are parameters. *)
From Stdlib Require Import ZArith Lia SpecFloat.
From stdpp Require Import base list numbers option strings.
From S2P Require Import Prelude FileSystem FileBackend.
From S2P Require Import Bytes Effects Json Envelope Serializers.

Local Open Scope Z_scope.
Local Open Scope py_scope.

Definition _TARGET_BATCH_BYTES : Z := 8 * 1024 * 1024.

Section Arrow.
(** The data frames callers hold, Arrow tables, the values returned. *)
Context {D T V : Type}.
Context (num_rows : T -> Z) (slice_nbytes : T -> Z -> Z -> Z).

(** ** Batches *)

(** The largest row count in [lo..hi] whose slice at [offset] fits the target,
    by bisection; [rows] is the best found so far.  [None]: still searching. *)
Fixpoint widest (fuel : nat) (t : T) (offset lo hi rows : Z) : option Z :=
  match fuel with
  | O => None
  | S f =>
      if lo <=? hi then
        let mid := (lo + hi) / 2 in
        if slice_nbytes t offset mid <=? _TARGET_BATCH_BYTES
        then widest f t offset (mid + 1) hi mid
        else widest f t offset lo (mid - 1) rows
      else Some rows
  end.

(** The slices written, as offset and row count.  [None]: still writing. *)
Fixpoint batches_from (fuel : nat) (t : T) (offset : Z) : option (list (Z * Z)) :=
  match fuel with
  | O => None
  | S f =>
      if offset <? num_rows t then
        let hi := num_rows t - offset in
        match widest (S (Z.to_nat hi)) t offset 2 hi 1 with
        | Some rows => ((offset, rows) ::.) <$> batches_from f t (offset + rows)
        | None => None
        end
      else Some []
  end.

(** The loops end: the interval shrinks with every probe, the offset grows with
    every batch. *)
Lemma midpoint lo hi : lo <= hi -> lo <= (lo + hi) / 2 <= hi.
Proof. intros L. split; [apply Z.div_le_lower_bound; lia|apply Z.div_le_upper_bound; lia]. Qed.

Lemma widest_stops t o lo hi rows fuel : Z.max 0 (hi + 1 - lo) < Z.of_nat fuel -> 1 <= rows -> 1 <= lo ->
  exists w, widest fuel t o lo hi rows = Some w /\ 1 <= w.
Proof.
  revert lo hi rows. induction fuel as [|f IH]; intros lo hi rows Hf Hr Hl; cbn [widest].
  - lia.
  - destruct (lo <=? hi) eqn:E; zbool; [|by exists rows]. pose proof (midpoint lo hi E).
    destruct (_ <=? _); apply IH; lia.
Qed.

Lemma batches_stop t o fuel : Z.max 0 (num_rows t - o) < Z.of_nat fuel -> is_Some (batches_from fuel t o).
Proof.
  revert o. induction fuel as [|f IH]; intros o Hf; cbn [batches_from].
  - lia.
  - destruct (o <? num_rows t) eqn:E; zbool; [|by exists []].
    destruct (widest_stops t o 2 (num_rows t - o) 1 (S (Z.to_nat (num_rows t - o)))) as (w & -> & Hw); [lia..|].
    apply fmap_is_Some, IH. lia.
Qed.

Lemma enough_fuel t : Z.max 0 (num_rows t - 0) < Z.of_nat (S (Z.to_nat (num_rows t))).
Proof. lia. Qed.

Definition _write_bounded_batches (t : T) : list (Z * Z) := is_Some_proj (batches_stop t 0 _ (enough_fuel t)).

(** ** Serialization *)

(** What the object is: a pandas frame, an object with an Arrow stream, a
    dictionary, or anything else. *)
Inductive tabular := DataFrame (d : D) | ArrowStream (d : D) | Columns (d : D) | NotTabular.

Context (from_pandas table : D -> result exn T).
(** The writes of the IPC writer for these batches, and the error it stops with. *)
Context (ipc_writes : option pystr -> T -> list (Z * Z) -> list pybytes * option exn).
Context (read_all : pybytes -> result exn T).
Context (to_pandas : T -> result exn V).
(** [None]: polars is not installed. *)
Context (from_arrow : option (T -> result exn V)).
Context (as_table : T -> V).
Context (xxh3_64_digest : pybytes -> pybytes).

Record ArrowSerializer := mkArrow {
  return_format : pystr;
  compression : option pystr
}.

(** [auto] stands for the configured codec. *)
Definition _resolve_compression (arrow_compression : option pystr) (compression : option pystr)
  : result py_exn (option pystr) :=
  let c := if bool_decide (compression = Some (u "auto")) then arrow_compression else compression in
  match c with
  | None => Ok None
  | Some c =>
      if bool_decide (c = u "none") then Ok None
      else if bool_decide (c = u "zstd") || bool_decide (c = u "lz4") then Ok (Some c)
      else Err ValueError
  end.

Definition init (arrow_compression : option pystr) (return_format : pystr) (compression : option pystr)
  : result py_exn ArrowSerializer :=
  if bool_decide (return_format ∈ [u "pandas"; u "polars"; u "arrow"]) then
    c <-! _resolve_compression arrow_compression compression ; Ok (mkArrow return_format c)
  else Err ValueError.

Definition _to_table (obj : tabular) : result exn T :=
  match obj with
  | DataFrame d => from_pandas d
  | ArrowStream d => table d
  | Columns d =>
      recover (table d) (fun x => Err (if is_value_error x || is_type_error x then PyExn TypeError else x))
  | NotTabular => Err (PyExn TypeError)
  end.

Definition serialization_metadata (s : ArrowSerializer) : SerializationMetadata :=
  metadata ARROW (bool_decide (is_Some (compression s))) (JStr (u "arrow")).

(** [pa.BufferOutputStream]: the writes put together. *)
Definition ipc_bytes (s : ArrowSerializer) (t : T) : result exn pybytes :=
  match ipc_writes (compression s) t (_write_bounded_batches t) with
  | (chunks, None) => Ok (concat chunks)
  | (_, Some x) => Err x
  end.

Definition is_arrow_error (x : exn) : bool :=
  match x with ArrowInvalid | ArrowTypeError => true | _ => false end.

Definition serialize (s : ArrowSerializer) (obj : tabular) : result exn (pybytes * SerializationMetadata) :=
  relabel (fun x => is_arrow_error x || is_value_error x)
    (t <-! _to_table obj ;
     buf <-! ipc_bytes s t ;
     Ok (xxh3_64_digest buf ++ buf, serialization_metadata s)).

(** ** Streaming *)

(** What was hashed is what was forwarded. *)
Record _HashingSink := mkSink {
  _budget : option Z;
  _written : Z;
  _hashed : pybytes;
  forwarded : list producer_op
}.

Definition sink_write (data : pybytes) : eff _HashingSink Z := fun s =>
  let n := zlen data in
  let written := _written s + n in
  if match _budget s with Some b => b <? written | None => false end
  then (Err (PyExn ValueError), mkSink (_budget s) written (_hashed s) (forwarded s))
  else (Ok n, mkSink (_budget s) written (_hashed s ++ data) (forwarded s ++ [PWrite data])).

(** The IPC writer writes its chunks until one of its writes fails. *)
Fixpoint sink_writes (chunks : list pybytes) : eff _HashingSink unit :=
  match chunks with
  | [] => ret tt
  | c :: r => andthen (sink_write c) (fun _ => sink_writes r)
  end.

(** What is done to a sink that stands at [start], and the outcome. *)
Definition serialize_to_sink (s : ArrowSerializer) (obj : tabular) (start : Z) (max_bytes : option Z)
  : list producer_op * result exn SerializationMetadata :=
  match _to_table obj with
  | Err x => ([], Err (if is_arrow_error x then SerializationError else x))
  | Ok t =>
      let placeholder := PWrite (replicate 8 0) in
      let fresh := mkSink (match max_bytes with Some m => Some (m - 8) | None => None end) 0 [] [] in
      let (chunks, stop) := ipc_writes (compression s) t (_write_bounded_batches t) in
      match sink_writes chunks fresh, stop with
      | (Err x, k), _ | (Ok _, k), Some x =>
          (placeholder :: forwarded k, Err (if is_arrow_error x then SerializationError else x))
      | (Ok _, k), None =>
          (placeholder :: forwarded k ++
             [PSeek start; PWrite (xxh3_64_digest (_hashed k)); PSeek (start + 8 + _written k)],
           Ok (serialization_metadata s))
      end
  end.

(** ** Deserialization *)

Definition is_arrow_magic (b : pybytes) : bool := bool_decide (b = u "ARROW1").

(** The IPC bytes: after a checksum that must match, or from the beginning. *)
Definition arrow_body (data : pybytes) : result exn pybytes :=
  let n := zlen data in
  if (14 <=? n) && is_arrow_magic (take 6 (drop 8 data)) then
    if bool_decide (xxh3_64_digest (drop 8 data) <> take 8 data) then Err SerializationError
    else Ok (drop 8 data)
  else if (6 <=? n) && is_arrow_magic (take 6 data) then Ok data
  else Err SerializationError.

Definition converted (s : ArrowSerializer) (t : T) : result exn V :=
  if bool_decide (return_format s = u "pandas") then to_pandas t
  else if bool_decide (return_format s = u "polars") then
    match from_arrow with Some f => f t | None => Err SerializationError end
  else Ok (as_table t).

Definition deserialize (s : ArrowSerializer) (data : pybytes) : result exn V :=
  relabel (fun x => match x with ArrowInvalid | ArrowSerializationError | OSError => true | _ => false end)
    (body <-! arrow_body data ;
     t <-! read_all body ;
     converted s t).

End Arrow.
