(* ===== verification/AutoSerializer.v ===== *)
(** [AutoSerializer] ([src/src/cachekit/serializers/auto_serializer.py]): the
    type markers, the NumPy frame, the columnar form of tables, and the order in
    which [deserialize] tries the formats.

    msgpack, xxhash, NumPy, pandas, the text forms of the standard library's
    dates and UUIDs, and the compressed storage of the Rust extension are
    parameters. *)
From Stdlib Require Import ZArith Lia SpecFloat.
From stdpp Require Import base list numbers option strings.
From S2P Require Import Prelude PyFloat PyDict Bytes PyValue Interop Effects Json Envelope.

Local Open Scope Z_scope.
Local Open Scope py_scope.

(** ** Values *)

(** What the serializer tells apart.  A set is a listing of its elements; an
    object of any other class is [AObject]. *)
Inductive aval :=
  | ANone
  | ABool (b : bool)
  | AInt (z : Z)
  | AFloat (f : float)
  | AStr (s : pystr)
  | ABytes (b : pybytes)
  | AList (l : list aval)
  | ATuple (l : list aval)
  | ADict (l : list (pykey * aval))
  | ASet (frozen : bool) (l : list aval)
  | ADatetime (tz : tzkind) (iso : pystr)
  | ADate (iso : pystr)
  | ATime (iso : pystr)
  | AUUID (s : pystr)
  | AArray (a : ndarray)
  | AObject.

Section AvalInduction.
Context (P : aval -> Prop).
Hypothesis Hleaf : forall v,
  match v with AList _ | ATuple _ | ADict _ | ASet _ _ => False | _ => True end -> P v.
Hypothesis Hlist : forall l, Forall P l -> P (AList l).
Hypothesis Htuple : forall l, Forall P l -> P (ATuple l).
Hypothesis Hdict : forall l, Forall (fun kv => P kv.2) l -> P (ADict l).
Hypothesis Hset : forall f l, Forall P l -> P (ASet f l).

(** Induction through the containers. *)
Fixpoint aval_deep (v : aval) : P v :=
  let many := fix many (l : list aval) : Forall P l :=
    match l with
    | [] => Forall_nil_2 P
    | x :: r => Forall_cons_2 P x r (aval_deep x) (many r)
    end in
  let items := fix items (l : list (pykey * aval)) : Forall (fun kv => P kv.2) l :=
    match l with
    | [] => Forall_nil_2 _
    | (k, x) :: r => Forall_cons_2 (fun kv => P kv.2) (k, x) r (aval_deep x) (items r)
    end in
  match v with
  | AList l => Hlist l (many l)
  | ATuple l => Htuple l (many l)
  | ADict l => Hdict l (items l)
  | ASet f l => Hset f l (many l)
  | v => Hleaf v I
  end.
End AvalInduction.

(** [hash(v)] succeeds. *)
Fixpoint hashable (v : aval) : bool :=
  match v with
  | AList _ | ADict _ | AArray _ => false
  | ATuple l => forallb hashable l
  | ASet frozen _ => frozen
  | _ => true
  end.

(** The numbers, of which [True] is 1. *)
Definition num_eqb (a b : aval) : bool :=
  let num v := match v with
    | ABool b => Some (inl (if b then 1 else 0))
    | AInt z => Some (inl z)
    | AFloat f => Some (inr f)
    | _ => None
    end in
  match num a, num b with
  | Some (inl m), Some (inl n) => m =? n
  | Some (inl m), Some (inr f) | Some (inr f), Some (inl m) =>
      match fcmpZ f m with Some Eq => true | _ => false end
  | Some (inr f), Some (inr g) => feq f g
  | _, _ => false
  end.

(** [a == b] on hashable values: aware datetimes are compared as instants, times
    by their text. *)
Fixpoint py_eqb (a b : aval) : bool :=
  let pairwise := fix pairwise (l m : list aval) : bool :=
    match l, m with
    | [], [] => true
    | x :: l, y :: m => py_eqb x y && pairwise l m
    | _, _ => false
    end in
  match a, b with
  | ANone, ANone => true
  | AStr s, AStr t => bool_decide (s = t)
  | ABytes s, ABytes t => bool_decide (s = t)
  | ATuple l, ATuple m => pairwise l m
  | ASet _ l, ASet _ m =>
      (zlen l =? zlen m) && forallb (fun x => existsb (fun y => py_eqb x y) m) l
  | ADatetime (Aware d s us) _, ADatetime (Aware d' s' us') _ => (d =? d') && (s =? s') && (us =? us')
  | ADatetime (Aware _ _ _) _, ADatetime _ _ | ADatetime _ _, ADatetime (Aware _ _ _) _ => false
  | ADatetime _ i, ADatetime _ j => bool_decide (i = j)
  | ADate i, ADate j => bool_decide (i = j)
  | ATime i, ATime j => bool_decide (i = j)
  | AUUID i, AUUID j => bool_decide (i = j)
  | _, _ => num_eqb a b
  end.

(** The elements of a set made from [l]. *)
Definition distinct (l : list aval) : list aval :=
  rev (foldl (fun seen x => if existsb (fun y => py_eqb y x) seen then seen else x :: seen) [] l).

(** [set(l)] and [frozenset(l)] *)
Definition py_set (frozen : bool) (l : list aval) : result exn aval :=
  if forallb hashable l then Ok (ASet frozen (distinct l)) else Err (PyExn TypeError).

(** [bool(v)] of what msgpack reads or the hook restores; an array of several
    elements has no truth value. *)
Definition truthy (v : aval) : result exn bool :=
  match v with
  | ANone => Ok false
  | ABool b => Ok b
  | AInt z => Ok (negb (z =? 0))
  | AFloat f => Ok (negb (feq f (fofZ 0)))
  | AStr l | ABytes l => Ok (match l with [] => false | _ => true end)
  | AList l | ATuple l | ASet _ l => Ok (match l with [] => false | _ => true end)
  | ADict l => Ok (match l with [] => false | _ => true end)
  | AArray _ => Err (PyExn ValueError)
  | _ => Ok true
  end.

(** ** Markers *)

(** [{flag: True, "value": v}] *)
Definition marked (flag : pystr) (v : aval) : aval :=
  ADict [(KStr flag, ABool true); (KStr (u "value"), v)].

Fixpoint _wrap_tuples (obj : aval) : aval :=
  match obj with
  | ATuple l => marked (u "__tuple__") (AList (map _wrap_tuples l))
  | AList l => AList (map _wrap_tuples l)
  | ADict l => ADict (map (fun kv => (kv.1, _wrap_tuples kv.2)) l)
  | v => v
  end.

(** [default]: called on what msgpack cannot pack by itself. *)
Definition _auto_default (HAS_NUMPY : bool) (obj : aval) : result exn aval :=
  match obj with
  | ADatetime _ iso => Ok (marked (u "__datetime__") (AStr iso))
  | ADate iso => Ok (marked (u "__date__") (AStr iso))
  | ATime iso => Ok (marked (u "__time__") (AStr iso))
  | AUUID s => Ok (marked (u "__uuid__") (AStr s))
  | ASet frozen l =>
      Ok (ADict [(KStr (u "__set__"), ABool true); (KStr (u "value"), AList l);
                 (KStr (u "frozen"), ABool frozen)])
  | AArray a =>
      if HAS_NUMPY then
        Ok (ADict [(KStr (u "__ndarray__"), ABool true); (KStr (u "data"), ABytes (a_content a));
                   (KStr (u "shape"), AList (map AInt (a_shape a))); (KStr (u "dtype"), AStr (a_dtype a))])
      else Err (PyExn TypeError)
  | _ => Err (PyExn TypeError)
  end.

(** [obj.get(flag) is True] *)
Definition flagged (flag : pystr) (l : list (pykey * aval)) : bool :=
  match dict_get flag l with Some (ABool b) => b | _ => false end.

(** [obj["value"]], which must be there. *)
Definition value_of (l : list (pykey * aval)) : result exn aval :=
  match dict_get (u "value") l with Some v => Ok v | None => Err SerializationError end.

Definition list_of (v : aval) : result exn (list aval) :=
  match v with AList l => Ok l | _ => Err SerializationError end.

(** [obj[key]] for a value read from the cache. *)
Definition subscript (v : aval) (key : pystr) : result exn aval :=
  match v with
  | ADict l => match dict_get key l with Some w => Ok w | None => Err (PyExn KeyError) end
  | AArray _ => Err IndexError
  | _ => Err (PyExn TypeError)
  end.

(** [n.to_bytes(k, "little")] and [int.from_bytes(b, "little")] *)
Definition to_bytes_le (k : nat) (n : Z) : result exn pybytes :=
  if (0 <=? n) && (n <? 256 ^ Z.of_nat k) then Ok (rev (be_bytes k n)) else Err (PyExn OverflowError).

Definition from_bytes_le (b : pybytes) : Z := be_val (rev b).

(** [data[i : i + 4]] for [i] in [range(0, len(data), 4)] *)
Fixpoint chunks4 (l : list Z) : list (list Z) :=
  match l with
  | [] => []
  | a :: b :: c :: d :: r => [a; b; c; d] :: chunks4 r
  | l => [l]
  end.

Definition NUMPY_RAW : pybytes := u "NUMPY_RAW".

(** [data.startswith(b"NUMPY_RAW")] *)
Definition raw_frame (data : pybytes) : bool := bool_decide (take 9 data = NUMPY_RAW).

(** [len(data) >= 17 and data[8:17] == b"NUMPY_RAW"] *)
Definition checked_frame (data : pybytes) : bool := (17 <=? zlen data) && raw_frame (drop 8 data).

(** ** Tables, as far as the code reads them *)

Record dtype := mkDtype { dtype_str : pystr; dtype_kind : Z; is_extension : bool }.

(** [values.tobytes()], and for each cell whether [isna()] and its object. *)
Record column := mkColumn { c_dtype : dtype; c_bytes : pybytes; c_cells : list (bool * aval) }.

(** Whether the index has a name, equals the default one, and its labels. *)
Record index := mkIndex { ix_named : bool; ix_default : bool; ix_list : list aval }.

Record series := mkSeries { se_name : aval; se_index : index; se_column : column }.

(** The names of the columns are different. *)
Record frame := mkFrame { fr_columns : list (pykey * column); fr_index : index }.

(** [kind] is one of [i], [u], [f]. *)
Definition _is_plain_numpy_numeric (HAS_PANDAS : bool) (d : dtype) : bool :=
  HAS_PANDAS && negb (is_extension d) &&
  ((dtype_kind d =? 105) || (dtype_kind d =? 117) || (dtype_kind d =? 102)).

Definition _na_safe_object_list (c : column) : list aval :=
  map (fun cell : bool * aval => if cell.1 then ANone else cell.2) (c_cells c).

Definition key_value (k : pykey) : aval :=
  match k with KStr s => AStr s | KInt z => AInt z | KBytes b => ABytes b | KNone => ANone end.

(** The index is written when it is not the default one. *)
Definition index_value (i : index) : aval :=
  if ix_named i || negb (ix_default i) then AList (ix_list i) else ANone.

(** The entries of a column. *)
Definition column_items (HAS_PANDAS : bool) (c : column) : list (pykey * aval) :=
  if _is_plain_numpy_numeric HAS_PANDAS (c_dtype c) then
    [(KStr (u "type"), AStr (u "numeric")); (KStr (u "data"), ABytes (c_bytes c));
     (KStr (u "dtype"), AStr (dtype_str (c_dtype c)))]
  else [(KStr (u "type"), AStr (u "object")); (KStr (u "data"), AList (_na_safe_object_list c))].

(** A column read back: the array of its buffer, or the objects. *)
Inductive cells := Buffer (a : ndarray) | Objects (v : aval).

Definition is_serialization_error (x : exn) : bool :=
  match x with SerializationExn _ => true | _ => false end.

(** What [serialize] is given and [deserialize] returns. *)
Inductive aobj := AValue (v : aval) | AFrame (f : frame) | ASeries (s : series).

Definition as_value (obj : aobj) : aval := match obj with AValue v => v | _ => AObject end.

Section AutoSerializer.
(** The packages that could be imported. *)
Context (HAS_NUMPY HAS_PANDAS : bool).
(** [datetime.fromisoformat], [date.fromisoformat], [time.fromisoformat], [UUID]. *)
Context (datetime_fromisoformat date_fromisoformat time_fromisoformat uuid : aval -> result exn aval).
(** [np.frombuffer(data, dtype)] and [arr.reshape(shape)]. *)
Context (frombuffer : aval -> aval -> result exn ndarray) (reshape : ndarray -> aval -> result exn ndarray).

(** [object_hook]: called on every map msgpack reads. *)
Definition _auto_object_hook (l : list (pykey * aval)) : result exn aval :=
  if flagged (u "__datetime__") l then v <-! value_of l ; datetime_fromisoformat v
  else if flagged (u "__date__") l then v <-! value_of l ; date_fromisoformat v
  else if flagged (u "__time__") l then v <-! value_of l ; time_fromisoformat v
  else if flagged (u "__uuid__") l then
    v <-! value_of l ; relabel (fun x => is_value_error x || is_type_error x) (uuid v)
  else if flagged (u "__tuple__") l then
    v <-! value_of l ; value_list <-! list_of v ; Ok (ATuple value_list)
  else if flagged (u "__set__") l then
    v <-! value_of l ; value_list <-! list_of v ;
    frozen <-! (match dict_get (u "frozen") l with Some f => truthy f | None => Ok false end) ;
    py_set frozen value_list
  else if flagged (u "__ndarray__") l then
    if HAS_NUMPY then
      match dict_get (u "data") l, dict_get (u "shape") l, dict_get (u "dtype") l with
      | Some data, Some shape, Some dt =>
          flat <-! frombuffer data dt ; arr <-! reshape flat shape ; Ok (AArray arr)
      | _, _, _ => Err SerializationError
      end
    else Err SerializationError
  else Ok (ADict l).

(** [msgpack.packb] with a [default], [msgpack.unpackb] with an [object_hook]. *)
Context (packb : (aval -> result exn aval) -> aval -> result exn pybytes).
Context (unpackb : (list (pykey * aval) -> result exn aval) -> pybytes -> result exn aval).
Context (xxh3_64_digest : pybytes -> pybytes).

Definition pack : aval -> result exn pybytes := packb (_auto_default HAS_NUMPY).
Definition unpack : pybytes -> result exn aval := unpackb _auto_object_hook.

(** ** The NumPy frame *)

Definition _serialize_numpy (integrity : bool) (arr : ndarray) : result exn pybytes :=
  if HAS_NUMPY then
    dtype_str <-! py (utf8_encode (a_dtype arr)) ;
    dtype_len <-! to_bytes_le 2 (zlen dtype_str) ;
    dims <-! rmap (to_bytes_le 4) (a_shape arr) ;
    let shape_data := concat dims in
    shape_len <-! to_bytes_le 2 (zlen shape_data) ;
    let raw := NUMPY_RAW ++ dtype_len ++ dtype_str ++ shape_len ++ shape_data ++ a_content arr in
    Ok (if integrity then xxh3_64_digest raw ++ raw else raw)
  else Err RuntimeError.

(** The fields behind the header: data type, shape, elements. *)
Definition numpy_fields (data : pybytes) : result exn (pystr * list Z * pybytes) :=
  let after_magic := drop 9 data in
  let dtype_len := Z.to_nat (from_bytes_le (take 2 after_magic)) in
  let after_len := drop 2 after_magic in
  match utf8_decode (take dtype_len after_len) with
  | None => Err (PyExn ValueError)  (* UnicodeDecodeError *)
  | Some dtype_str =>
      let after_dtype := drop dtype_len after_len in
      let shape_len := Z.to_nat (from_bytes_le (take 2 after_dtype)) in
      let after_shape_len := drop 2 after_dtype in
      Ok (dtype_str, map from_bytes_le (chunks4 (take shape_len after_shape_len)),
          drop shape_len after_shape_len)
  end.

(** The frame, its checksum verified and removed if it has one. *)
Definition numpy_body (data : pybytes) : result exn pybytes :=
  body <-! (if negb (raw_frame data) && checked_frame data then
              if bool_decide (xxh3_64_digest (drop 8 data) <> take 8 data) then Err SerializationError
              else Ok (drop 8 data)
            else Ok data) ;
  if raw_frame body then Ok body else Err SerializationError.

Definition is_numpy_error (x : exn) : bool :=
  match x with IndexError => true | x => is_value_error x end.

Definition _deserialize_numpy (data : pybytes) : result exn aobj :=
  if HAS_NUMPY then
    body <-! numpy_body data ;
    relabel is_numpy_error
      (fields <-! numpy_fields body ;
       let '(dtype_str, shape, raw_bytes) := fields in
       arr <-! frombuffer (ABytes raw_bytes) (AStr dtype_str) ;
       arr <-! reshape arr (ATuple (map AInt shape)) ;
       Ok (AValue (AArray arr)))
  else Err RuntimeError.

(** ** Tables without Arrow, and everything else *)

(** [ByteStorage.store] and [retrieve], which also gives the format stored. *)
Context (store : pybytes -> pystr -> result exn pybytes) (retrieve : pybytes -> result exn (pybytes * pystr)).
(** [pd.DataFrame(columns_data, columns=columns)], [pd.Series(values, name=name)],
    and setting the index to [pd.Index(labels)]. *)
Context (DataFrame : list (pykey * cells) -> aval -> result exn frame).
Context (frame_index : frame -> aval -> result exn frame).
Context (Series : cells -> aval -> result exn series) (series_index : series -> aval -> result exn series).

(** The bytes, in a compressed envelope when integrity is checked. *)
Definition enveloped (integrity : bool) (format : pystr) (data : pybytes) : result exn pybytes :=
  if integrity then store data format else Ok data.

Definition _serialize_dataframe (integrity : bool) (df : frame) : result exn pybytes :=
  if HAS_PANDAS then
    msgpack_data <-! pack (ADict
      [(KStr (u "columns"), AList (map (fun c : pykey * column => key_value c.1) (fr_columns df)));
       (KStr (u "index"), index_value (fr_index df));
       (KStr (u "data"), ADict (map (fun c : pykey * column => (c.1, ADict (column_items HAS_PANDAS c.2)))
                                    (fr_columns df)))]) ;
    enveloped integrity (u "dataframe") msgpack_data
  else Err RuntimeError.

Definition _serialize_series (integrity : bool) (s : series) : result exn pybytes :=
  if HAS_PANDAS then
    msgpack_data <-! pack (ADict
      ([(KStr (u "name"), se_name s); (KStr (u "index"), index_value (se_index s))]
       ++ column_items HAS_PANDAS (se_column s))) ;
    enveloped integrity (u "series") msgpack_data
  else Err RuntimeError.

Definition _serialize_msgpack (integrity : bool) (obj : aval) : result exn pybytes :=
  msgpack_data <-! pack (_wrap_tuples obj) ;
  enveloped integrity (u "msgpack") msgpack_data.

(** The dictionary of a table; anything else is unpacked once more. *)
Definition unpacked_table (data : aval) : result exn aval :=
  match data with
  | ADict l => Ok (ADict l)
  | ABytes b => unpack b
  | _ => Err (PyExn TypeError)
  end.

(** The values a column or a series stands for. *)
Definition cells_of (info : aval) : result exn cells :=
  type <-! subscript info (u "type") ;
  data <-! subscript info (u "data") ;
  if py_eqb type (AStr (u "numeric")) then
    dt <-! subscript info (u "dtype") ; arr <-! frombuffer data dt ; Ok (Buffer arr)
  else Ok (Objects data).

Definition _deserialize_dataframe (data : aval) : result exn aobj :=
  if HAS_PANDAS then
    serialized <-! unpacked_table data ;
    columns <-! subscript serialized (u "data") ;
    items <-! (match columns with ADict l => Ok l | _ => Err AttributeError end) ;
    columns_data <-! rmap (fun c : pykey * aval => v <-! cells_of c.2 ; Ok (c.1, v)) items ;
    names <-! subscript serialized (u "columns") ;
    df <-! DataFrame columns_data names ;
    labels <-! subscript serialized (u "index") ;
    df <-! (match labels with ANone => Ok df | _ => frame_index df labels end) ;
    Ok (AFrame df)
  else Err RuntimeError.

Definition _deserialize_series (data : aval) : result exn aobj :=
  if HAS_PANDAS then
    serialized <-! unpacked_table data ;
    values <-! cells_of serialized ;
    name <-! subscript serialized (u "name") ;
    s <-! Series values name ;
    labels <-! subscript serialized (u "index") ;
    s <-! (match labels with ANone => Ok s | _ => series_index s labels end) ;
    Ok (ASeries s)
  else Err RuntimeError.

(** ** The class *)

(** The Arrow serializer, when it could be imported. *)
Context (arrow : option ((frame -> result exn (pybytes * SerializationMetadata)) *
                         (pybytes -> option SerializationMetadata -> result exn aobj))).

(** [__init__]: the deprecated [use_rust] wins; the flag is the object's state. *)
Definition init (default_format : pystr) (enable_integrity_checking : bool) (use_rust : option bool)
  : result exn bool :=
  let integrity := match use_rust with Some b => b | None => enable_integrity_checking end in
  if bool_decide (default_format = u "msgpack") then Ok integrity else Err (PyExn ValueError).

Definition serialize (integrity : bool) (obj : aobj) : result exn (pybytes * SerializationMetadata) :=
  let msgpack_path :=
    data <-! _serialize_msgpack integrity (as_value obj) ;
    Ok (data, metadata MSGPACK integrity (JStr (u "msgpack"))) in
  match obj with
  | AValue (AArray arr) =>
      if HAS_NUMPY then
        data <-! _serialize_numpy integrity arr ; Ok (data, metadata MSGPACK false (JStr (u "numpy")))
      else msgpack_path
  | AFrame df =>
      if HAS_PANDAS then
        match arrow with
        | Some (arrow_serialize, _) => arrow_serialize df
        | None =>
            data <-! _serialize_dataframe integrity df ;
            Ok (data, metadata MSGPACK integrity (JStr (u "dataframe")))
        end
      else msgpack_path
  | ASeries s =>
      if HAS_PANDAS then
        data <-! _serialize_series integrity s ;
        Ok (data, metadata MSGPACK integrity (JStr (u "series")))
      else msgpack_path
  | AValue _ => msgpack_path
  end.

Definition arrow_deserialize (data : pybytes) (m : option SerializationMetadata) : result exn aobj :=
  match arrow with Some (_, f) => f data m | None => Err SerializationError end.

(** The metadata's type. *)
Definition typed (m : option SerializationMetadata) (name : pystr) : bool :=
  match original_type <$> m with Some (JStr s) => bool_decide (s = name) | _ => false end.

(** [retrieve], whose error means a corrupted entry, then [unpackb]. *)
Definition table_of (integrity : bool) (data : pybytes) (build : aval -> result exn aobj)
  : result exn aobj :=
  original_data <-! (if integrity && (4 <? zlen data)
                     then r <-! relabel (fun x => is_value_error x || is_serialization_error x) (retrieve data) ; Ok r.1
                     else Ok data) ;
  unpacked <-! unpack original_data ; build unpacked.

(** The envelope opened and its content read as the type the metadata names, or
    the envelope itself. *)
Definition envelope_read (data : pybytes) (m : option SerializationMetadata) : result exn aobj :=
  r <-! retrieve data ;
  let has name := match m with Some _ => typed m name | None => bool_decide (r.2 = name) end in
  if has (u "numpy") then _deserialize_numpy r.1
  else
    unpacked <-! unpack r.1 ;
    if has (u "dataframe") then _deserialize_dataframe unpacked
    else if has (u "series") then _deserialize_series unpacked
    else Ok (AValue unpacked).

(** The formats tried without the envelope: Arrow, msgpack, NumPy. *)
Definition direct_read (data : pybytes) (m : option SerializationMetadata) : result exn aobj :=
  if ((14 <=? zlen data) && bool_decide (take 6 (drop 8 data) = u "ARROW1"))
     || ((6 <=? zlen data) && bool_decide (take 6 data = u "ARROW1"))
  then arrow_deserialize data m
  else
    match unpack data with
    | Ok v => Ok (AValue v)
    | Err x => if is_serialization_error x then Err x else _deserialize_numpy data
    end.

Definition deserialize (integrity : bool) (data : pybytes) (m : option SerializationMetadata)
  : result exn aobj :=
  if raw_frame data || checked_frame data then _deserialize_numpy data
  else if typed m (u "numpy") then _deserialize_numpy data
  else if typed m (u "arrow") then arrow_deserialize data m
  else if typed m (u "dataframe") then table_of integrity data _deserialize_dataframe
  else if typed m (u "series") then table_of integrity data _deserialize_series
  else if integrity then
    match envelope_read data m with
    | Ok v => Ok v
    | Err x => if is_serialization_error x then Err x else direct_read data m
    end
  else direct_read data m.

(** [ByteStorage.estimate_compression] and [ByteStorage.validate]. *)
Context (estimate_compression : pybytes -> result exn float) (validate : pybytes -> bool).

Definition estimate_compression_ratio (integrity : bool) (obj : aobj) : result exn float :=
  if negb integrity then Ok (fofZ 1)
  else
    temp_data <-! pack (match obj with
      | AValue (AArray arr) =>
          if HAS_NUMPY then
            ADict [(KStr (u "data"), ABytes (a_content arr));
                   (KStr (u "shape"), ATuple (map AInt (a_shape arr)));
                   (KStr (u "dtype"), AStr (a_dtype arr))]
          else AArray arr
      | obj => as_value obj
      end) ;
    estimate_compression temp_data.

Definition validate_data (integrity : bool) (data : pybytes) : result exn bool :=
  if integrity then Ok (validate data)
  else
    match unpack data with
    | Ok _ => Ok true
    | Err x =>
        if match x with UnpackException | AttributeError => true
           | x => is_value_error x || is_type_error x end
        then Ok false else Err x
    end.

End AutoSerializer.
