(* ===== verification/AutoProps.v ===== *)
(** What [AutoSerializer] gives back: the values and arrays that survive, and
    those that do not. *)
From Stdlib Require Import ZArith Lia SpecFloat.
From stdpp Require Import base list numbers option strings countable.
From S2P Require Import Prelude PyFloat PyDict Bytes PyValue Interop Effects Json Envelope AutoSerializer.

Local Open Scope Z_scope.
Local Open Scope py_scope.

(** ** msgpack, as documented *)

(** The values of a document. *)
Inductive doc :=
  | DNil
  | DBool (b : bool)
  | DInt (z : Z)
  | DFloat (f : float)
  | DStr (s : pystr)
  | DBin (b : pybytes)
  | DArr (l : list doc)
  | DMap (l : list (pykey * doc)).

Definition scalar (v : aval) : option doc :=
  match v with
  | ANone => Some DNil
  | ABool b => Some (DBool b)
  | AInt z => Some (DInt z)
  | AFloat f => Some (DFloat f)
  | AStr s => Some (DStr s)
  | ABytes b => Some (DBin b)
  | _ => None
  end.

(** What msgpack hands to [default]. *)
Definition foreign (v : aval) : bool :=
  match v with
  | ASet _ _ | ADatetime _ _ | ADate _ | ATime _ | AUUID _ | AArray _ | AObject => true
  | _ => false
  end.

(** [packb] writes the document of a value: tuples are arrays, the rest goes
    through [default]. *)
Inductive packs (default : aval -> result exn aval) : aval -> doc -> Prop :=
  | packs_scalar v d : scalar v = Some d -> packs default v d
  | packs_list l ds : Forall2 (packs default) l ds -> packs default (AList l) (DArr ds)
  | packs_tuple l ds : Forall2 (packs default) l ds -> packs default (ATuple l) (DArr ds)
  | packs_dict l ds : Forall2 (fun kv kd => kv.1 = kd.1 /\ packs default kv.2 kd.2) l ds ->
      packs default (ADict l) (DMap ds)
  | packs_foreign v w d : foreign v = true -> default v = Ok w -> packs default w d -> packs default v d.

(** Keys must be strings or bytes ([strict_map_key] is on by default). *)
Definition text_key (k : pykey) : bool := match k with KStr _ | KBytes _ => true | _ => false end.

(** [unpackb] builds lists and dictionaries and hands every dictionary to the
    hook, the inner ones first. *)
Fixpoint rebuild (hook : list (pykey * aval) -> result exn aval) (d : doc) : result exn aval :=
  match d with
  | DNil => Ok ANone
  | DBool b => Ok (ABool b)
  | DInt z => Ok (AInt z)
  | DFloat f => Ok (AFloat f)
  | DStr s => Ok (AStr s)
  | DBin b => Ok (ABytes b)
  | DArr l => vs <-! rmap (rebuild hook) l ; Ok (AList vs)
  | DMap l =>
      items <-! rmap (fun kd : pykey * doc =>
        if text_key kd.1 then v <-! rebuild hook kd.2 ; Ok (kd.1, v) else Err (PyExn ValueError)) l ;
      hook items
  end.

Class Msgpack (packb : (aval -> result exn aval) -> aval -> result exn pybytes)
    (unpackb : (list (pykey * aval) -> result exn aval) -> pybytes -> result exn aval) : Prop :=
  packed_reads default v b : packb default v = Ok b ->
    exists d, packs default v d /\ forall hook, unpackb hook b = rebuild hook d.

(** [ByteStorage] gives back what it was given. *)
Class Storage (store : pybytes -> pystr -> result exn pybytes)
    (retrieve : pybytes -> result exn (pybytes * pystr)) : Prop :=
  stored_reads data f e : store data f = Ok e -> retrieve e = Ok (data, f).

(** Bytes that start as an Arrow file does, with or without a checksum. *)
Definition arrow_like (b : pybytes) : bool :=
  ((14 <=? zlen b) && bool_decide (take 6 (drop 8 b) = u "ARROW1"))
  || ((6 <=? zlen b) && bool_decide (take 6 b = u "ARROW1")).

(** Bytes [deserialize] takes for an array. *)
Definition frame_like (b : pybytes) : bool := raw_frame b || checked_frame b.

(** ** Reading back what a value packs to *)

Section Reading.
Context (default : aval -> result exn aval) (hook : list (pykey * aval) -> result exn aval).

(** Whatever [v] packs to is read as [w]. *)
Definition read_back (v : aval) (r : result exn aval) : Prop :=
  forall d, packs default v d -> rebuild hook d = r.

Definition restores (v w : aval) : Prop := read_back v (Ok w).

Lemma restores_scalar v d : scalar v = Some d -> restores v v.
Proof.
  intros E d' P. inversion P as [? ? E'|? ? ?|? ? ?|? ? ?|? ? ? F]; subst; try done.
  - destruct v; simplify_eq/=; by simplify_eq.
  - by destruct v.
Qed.

Lemma restores_ints l : Forall2 restores (map AInt l) (map AInt l).
Proof. induction l; constructor; [by eapply restores_scalar|done]. Qed.

Lemma restores_many l ds l' : Forall2 (packs default) l ds -> Forall2 restores l l' ->
  rmap (rebuild hook) ds = Ok l'.
Proof.
  intros P. revert l'. induction P as [|v d l ds Pv _ IH]; intros l' R; inversion R; subst; simpl; [done|].
  by erewrite H1, IH.
Qed.

Lemma restores_list l l' : Forall2 restores l l' -> restores (AList l) (AList l').
Proof.
  intros R d P. inversion P as [? ? E|? ? F|? ? ?|? ? ?|? ? ? E]; subst; try done.
  simpl. by erewrite restores_many.
Qed.

(** Two entries with one key, the second what the first is read as. *)
Definition item_restores (kv kw : pykey * aval) : Prop :=
  text_key kv.1 = true /\ kv.1 = kw.1 /\ restores kv.2 kw.2.

Lemma restores_dict l l' r : Forall2 item_restores l l' -> hook l' = r -> read_back (ADict l) r.
Proof.
  intros R <- d P. inversion P as [? ? E|? ? F|? ? ?|? ds F|? ? ? E]; subst; try done.
  cbn [rebuild]. enough (E : rmap (fun kd : pykey * doc =>
    if text_key kd.1 then v <-! rebuild hook kd.2 ; Ok (kd.1, v) else Err (PyExn ValueError)) ds = Ok l')
    by (by rewrite E).
  clear P. revert l' R. induction F as [|[k v] [k2 d] l ds [E Pv] _ IH]; intros l' R;
    inversion R as [|? [k' w'] ? ? (T & E' & Rv)]; subst; [done|]. simpl in *. subst.
  rewrite T, (Rv d Pv). simpl. by erewrite IH.
Qed.

Lemma restores_foreign v w r : foreign v = true -> default v = Ok w -> read_back w r -> read_back v r.
Proof.
  intros Fv E R d P. inversion P as [? ? E'|? ? ?|? ? ?|? ? ?|? w' ? _ E' Pw]; subst; try done.
  - by destruct v.
  - rewrite E in E'. simplify_eq. by apply R.
Qed.

(** The first key that is not text stops the reader. *)
Lemma key_refused l : Forall (fun kv => is_Some (scalar kv.2)) l -> existsb (fun kv => negb (text_key kv.1)) l = true ->
  read_back (ADict l) (Err (PyExn ValueError)).
Proof.
  intros Sc K d P. inversion P as [? ? E|? ? F|? ? ?|? ds F|? ? ? E]; subst; try done.
  cbn [rebuild]. enough (E : rmap (fun kd : pykey * doc =>
    if text_key kd.1 then v <-! rebuild hook kd.2 ; Ok (kd.1, v) else Err (PyExn ValueError)) ds
      = Err (PyExn ValueError)) by (by rewrite E).
  clear P. induction F as [|[k v] [k2 d] l ds [E Pv] _ IH]; [done|]. inversion Sc as [|? ? [d' Ed] Sc']; subst.
  simpl in *. subst. destruct (text_key k2); [|done].
  rewrite (restores_scalar v d' Ed d Pv). simpl. by rewrite IH.
Qed.

(** A tuple reaches msgpack only inside a set: it is read as a list. *)
Lemma restores_tuple l l' : Forall2 restores l l' -> restores (ATuple l) (AList l').
Proof.
  intros R d P. inversion P as [? ? E|? ? ?|? ? F|? ? ?|? ? ? E]; subst; try done.
  simpl. by erewrite restores_many.
Qed.

Lemma restores_marked flag v v' w : restores v v' ->
  hook [(KStr flag, ABool true); (KStr (u "value"), v')] = Ok w -> restores (marked flag v) w.
Proof.
  intros R. apply restores_dict. constructor; [|constructor; [|constructor]]; split; split; try done.
  by eapply restores_scalar.
Qed.
End Reading.

(** ** Values that come back *)

Definition markers : list pystr :=
  [u "__datetime__"; u "__date__"; u "__time__"; u "__uuid__"; u "__tuple__"; u "__set__"; u "__ndarray__"].

(** No key of the dictionary is taken for a marker. *)
Definition unmarked (l : list (pykey * aval)) : Prop := Forall (fun m => flagged m l = false) markers.

(** What a set may hold: tuples inside a set are not marked. *)
Definition member (v : aval) : bool := match v with ATuple _ => false | v => hashable v end.

Section Values.
Context (HAS_NUMPY : bool).
Context (datetime_fromisoformat date_fromisoformat time_fromisoformat uuid : aval -> result exn aval).
Context (frombuffer : aval -> aval -> result exn ndarray) (reshape : ndarray -> aval -> result exn ndarray).

(** The array of these bytes, this type and this shape. *)
Definition array_of (content : pybytes) (dt : pystr) (shape : aval) : result exn ndarray :=
  flat <-! frombuffer (ABytes content) (AStr dt) ; reshape flat shape.

(** The values whose own text or bytes are read back as themselves. *)
Inductive restorable : aval -> Prop :=
  | r_scalar v d : scalar v = Some d -> restorable v
  | r_list l : Forall restorable l -> restorable (AList l)
  | r_tuple l : Forall restorable l -> restorable (ATuple l)
  | r_dict l : Forall (fun kv => text_key kv.1 = true /\ restorable kv.2) l -> unmarked l ->
      restorable (ADict l)
  | r_set f l : Forall (fun v => restorable v /\ member v = true) l -> distinct l = l ->
      restorable (ASet f l)
  | r_datetime tz iso : datetime_fromisoformat (AStr iso) = Ok (ADatetime tz iso) ->
      restorable (ADatetime tz iso)
  | r_date iso : date_fromisoformat (AStr iso) = Ok (ADate iso) -> restorable (ADate iso)
  | r_time iso : time_fromisoformat (AStr iso) = Ok (ATime iso) -> restorable (ATime iso)
  | r_uuid s : uuid (AStr s) = Ok (AUUID s) -> restorable (AUUID s)
  | r_array a : HAS_NUMPY ->
      array_of (a_content a) (a_dtype a) (AList (map AInt (a_shape a))) = Ok a -> restorable (AArray a).

Let hook := _auto_object_hook HAS_NUMPY datetime_fromisoformat date_fromisoformat time_fromisoformat uuid
  frombuffer reshape.
Let packed := packs (_auto_default HAS_NUMPY).

(** ** The hook on each marker *)

Lemma hook_unmarked l : unmarked l -> hook l = Ok (ADict l).
Proof.
  unfold unmarked, markers. intros U. rewrite !list.Forall_cons in U.
  destruct U as (E1 & E2 & E3 & E4 & E5 & E6 & E7 & _). unfold hook, _auto_object_hook.
  by rewrite E1, E2, E3, E4, E5, E6, E7.
Qed.

Lemma hook_datetime v : hook [(KStr (u "__datetime__"), ABool true); (KStr (u "value"), v)] = datetime_fromisoformat v.
Proof. reflexivity. Qed.
Lemma hook_date v : hook [(KStr (u "__date__"), ABool true); (KStr (u "value"), v)] = date_fromisoformat v.
Proof. reflexivity. Qed.
Lemma hook_time v : hook [(KStr (u "__time__"), ABool true); (KStr (u "value"), v)] = time_fromisoformat v.
Proof. reflexivity. Qed.
Lemma hook_uuid v : hook [(KStr (u "__uuid__"), ABool true); (KStr (u "value"), v)]
  = relabel (fun x => is_value_error x || is_type_error x) (uuid v).
Proof. reflexivity. Qed.
Lemma hook_tuple l : hook [(KStr (u "__tuple__"), ABool true); (KStr (u "value"), AList l)] = Ok (ATuple l).
Proof. reflexivity. Qed.
Lemma hook_set f l :
  hook [(KStr (u "__set__"), ABool true); (KStr (u "value"), AList l); (KStr (u "frozen"), ABool f)]
  = py_set f l.
Proof. reflexivity. Qed.
Lemma hook_array data shape dt : HAS_NUMPY ->
  hook [(KStr (u "__ndarray__"), ABool true); (KStr (u "data"), data); (KStr (u "shape"), shape);
        (KStr (u "dtype"), dt)]
  = (flat <-! frombuffer data dt ; arr <-! reshape flat shape ; Ok (AArray arr)).
Proof. unfold hook, _auto_object_hook. cbn. by intros ->%Is_true_true. Qed.

Lemma default_array a : HAS_NUMPY ->
  _auto_default HAS_NUMPY (AArray a) = Ok (ADict
    [(KStr (u "__ndarray__"), ABool true); (KStr (u "data"), ABytes (a_content a));
     (KStr (u "shape"), AList (map AInt (a_shape a))); (KStr (u "dtype"), AStr (a_dtype a))]).
Proof. by intros ->%Is_true_true. Qed.

Let restored := restores (_auto_default HAS_NUMPY) hook.

(** Inside a set nothing is marked. *)
Lemma member_unwrapped v : member v = true -> _wrap_tuples v = v.
Proof. by destruct v. Qed.

Lemma unwrapped_members l : Forall (fun v => restorable v /\ member v = true) l -> map _wrap_tuples l = l.
Proof. induction 1 as [|v l [_ M] _ IH]; simpl; [done|]. by rewrite (member_unwrapped v M), IH. Qed.

Lemma hook_set_members f l : Forall (fun v => restorable v /\ member v = true) l -> distinct l = l ->
  py_set f l = Ok (ASet f l).
Proof.
  intros M D. unfold py_set. rewrite D.
  enough (E : forallb hashable l = true) by (by rewrite E). clear D.
  induction M as [|v l [_ M] _ IH]; simpl; [done|]. rewrite IH, andb_true_r. by destruct v.
Qed.

Lemma all_restored l : Forall (fun v => restorable v -> restored (_wrap_tuples v) v) l ->
  Forall restorable l -> Forall2 restored (map _wrap_tuples l) l.
Proof. intros IH R. induction IH; inversion R; subst; constructor; auto. Qed.

Lemma restorable_restored v : restorable v -> restored (_wrap_tuples v) v.
Proof.
  unfold restored. induction v as [v Hv|l IH|l IH|l IH|f l IH] using aval_deep; intros R;
    inversion R as [? d Es|? Rl|? Rl|? Rl U|? ? Rl D|? ? E|? E|? E|? E|? Hn E]; subst; try done; simpl.
  - destruct v; try done; by eapply restores_scalar.
  - eapply restores_foreign; [done..|]. eapply restores_marked; [by eapply restores_scalar|]. by rewrite hook_datetime.
  - eapply restores_foreign; [done..|]. eapply restores_marked; [by eapply restores_scalar|]. by rewrite hook_date.
  - eapply restores_foreign; [done..|]. eapply restores_marked; [by eapply restores_scalar|]. by rewrite hook_time.
  - eapply restores_foreign; [done..|]. eapply restores_marked; [by eapply restores_scalar|].
    by rewrite hook_uuid, E.
  - eapply restores_foreign; [done|by apply default_array|]. eapply restores_dict; [|rewrite hook_array by done].
    + repeat apply Forall2_cons; [..|by apply Forall2_nil]; split_and!; try done; try by eapply restores_scalar.
      apply restores_list, restores_ints.
    + unfold array_of in E. destruct (frombuffer _ _) as [flat|]; [|done]. simpl in *. by rewrite E.
  - apply restores_list. by apply all_restored.
  - eapply restores_marked; [by apply restores_list, all_restored|]. by rewrite hook_tuple.
  - eapply restores_dict; [|by apply hook_unmarked]. clear R U.
    induction IH as [|[k v] l IHv _ IH]; inversion Rl as [|? ? [T Rv]]; subst; constructor; [|by apply IH].
    split_and!; [done..|]. by apply IHv.
  - eapply restores_foreign; [done..|]. eapply restores_dict; [|rewrite hook_set; by apply hook_set_members].
    repeat apply Forall2_cons; [..|by apply Forall2_nil]; split_and!; try done; try by eapply restores_scalar.
    apply restores_list. rewrite <- (unwrapped_members l Rl) at 1. apply all_restored; [done|].
    apply (list.Forall_impl _ _ _ Rl). by intros ? [].
Qed.

End Values.

(** ** The NumPy frame *)

Lemma to_bytes_le_ok k n : 0 <= n < 256 ^ Z.of_nat k -> to_bytes_le k n = Ok (rev (be_bytes k n)).
Proof. intros. unfold to_bytes_le. rewrite andb_true_intro; [done|]. split; [apply Z.leb_le|apply Z.ltb_lt]; lia. Qed.

Lemma to_bytes_le_inv k n b : to_bytes_le k n = Ok b ->
  0 <= n < 256 ^ Z.of_nat k /\ b = rev (be_bytes k n).
Proof. unfold to_bytes_le. intros. case_all. zbool. split; [lia|done]. Qed.

Lemma from_to_bytes_le k n : 0 <= n < 256 ^ Z.of_nat k -> from_bytes_le (rev (be_bytes k n)) = n.
Proof. intros. unfold from_bytes_le. rewrite rev_involutive. by apply be_roundtrip. Qed.

Lemma length_le k n : length (rev (be_bytes k n)) = k.
Proof. by rewrite length_rev, be_bytes_length. Qed.

Lemma chunks4_le dims shape : rmap (to_bytes_le 4) shape = Ok dims ->
  map from_bytes_le (chunks4 (concat dims)) = shape /\ zlen (concat dims) = 4 * zlen shape
  /\ Forall (fun d => 0 <= d < 2 ^ 32) shape.
Proof.
  revert dims. induction shape as [|d shape IH]; simpl; intros dims E.
  - by injection E as <-.
  - apply rbind_ok in E as (b & Eb & E). apply rbind_ok in E as (bs & Ebs & [= <-]).
    apply to_bytes_le_inv in Eb as [R ->]. destruct (IH bs Ebs) as (E1 & E2 & F).
    pose proof (length_le 4 d) as L. destruct (rev (be_bytes 4 d)) as [|a [|b [|c [|e [|]]]]] eqn:Er; try done.
    simpl. rewrite E1, <- Er, from_to_bytes_le by lia. split_and!; [done|unfold zlen in *; simpl; lia|].
    constructor; [lia|done].
Qed.

Lemma rmap_to_bytes shape : Forall (fun d => 0 <= d < 2 ^ 32) shape ->
  exists dims, rmap (to_bytes_le 4) shape = Ok dims.
Proof.
  induction 1 as [|d shape R _ [dims IH]]; [by exists []|]. simpl.
  rewrite to_bytes_le_ok by lia. rewrite IH. by eexists.
Qed.

Lemma take_2_le n r : take 2 (rev (be_bytes 2 n) ++ r) = rev (be_bytes 2 n).
Proof. by rewrite take_app_length' by (by rewrite length_le). Qed.

Lemma drop_2_le n r : drop 2 (rev (be_bytes 2 n) ++ r) = r.
Proof. by rewrite drop_app_length' by (by rewrite length_le). Qed.

Definition numpy_frame (s : pybytes) (shape_data content : pybytes) : pybytes :=
  NUMPY_RAW ++ rev (be_bytes 2 (zlen s)) ++ s ++ rev (be_bytes 2 (zlen shape_data)) ++ shape_data ++ content.

Lemma numpy_frame_fields dt s shape dims content :
  Forall is_code_point dt -> utf8_encode dt = Ok s -> rmap (to_bytes_le 4) shape = Ok dims ->
  zlen s < 256 ^ 2 -> zlen (concat dims) < 256 ^ 2 ->
  numpy_fields (numpy_frame s (concat dims) content) = Ok (dt, shape, content).
Proof.
  intros C Es Ed L1 L2. destruct (chunks4_le dims shape Ed) as (Ec & _ & _).
  assert (D9 : forall r, drop 9 (NUMPY_RAW ++ r) = r) by done.
  assert (N : forall l : list Z, Z.to_nat (zlen l) = length l) by (intros; unfold zlen; lia).
  pose proof (zlen_nonneg s). pose proof (zlen_nonneg (concat dims)).
  unfold numpy_fields, numpy_frame. cbv zeta.
  rewrite !D9, !take_2_le, !drop_2_le, from_to_bytes_le, N, take_app_length, drop_app_length by lia.
  rewrite (utf8_roundtrip dt s) by done.
  by rewrite !take_2_le, !drop_2_le, from_to_bytes_le, N, take_app_length, drop_app_length, Ec by lia.
Qed.

Section Frames.
Context (xxh3_64_digest : pybytes -> pybytes).
Context (frombuffer : aval -> aval -> result exn ndarray) (reshape : ndarray -> aval -> result exn ndarray).

Definition digest_is_8_bytes : Prop := forall b, length (xxh3_64_digest b) = 8%nat.

(** What is written: the fields fit their widths. *)
Lemma serialize_numpy_inv integrity a b :
  _serialize_numpy true xxh3_64_digest integrity a = Ok b ->
  exists s dims, utf8_encode (a_dtype a) = Ok s /\ rmap (to_bytes_le 4) (a_shape a) = Ok dims /\
    zlen s < 256 ^ 2 /\ zlen (concat dims) < 256 ^ 2 /\
    let raw := numpy_frame s (concat dims) (a_content a) in
    b = if integrity then xxh3_64_digest raw ++ raw else raw.
Proof.
  unfold _serialize_numpy. intros E. apply rbind_ok in E as (s & Es & E).
  apply rbind_ok in E as (dl & Edl & E). apply rbind_ok in E as (dims & Ed & E).
  apply rbind_ok in E as (sl & Esl & [= <-]). unfold py in Es. destruct (utf8_encode (a_dtype a)) as [s'|]; simplify_eq/=.
  apply to_bytes_le_inv in Edl as [? ->]. apply to_bytes_le_inv in Esl as [? ->].
  exists s, dims. split_and!; try done; lia.
Qed.

Lemma frame_starts s sd c : raw_frame (numpy_frame s sd c) = true.
Proof. unfold raw_frame, numpy_frame. by rewrite take_app_length'. Qed.

(** A checksum in front does not look like the header. *)
Lemma checked_starts s sd c : digest_is_8_bytes ->
  let raw := numpy_frame s sd c in
  raw_frame (xxh3_64_digest raw ++ raw) = false /\ checked_frame (xxh3_64_digest raw ++ raw) = true.
Proof.
  intros D raw. assert (L : length (xxh3_64_digest raw) = 8%nat) by apply D.
  unfold raw_frame, checked_frame. rewrite drop_app_length' by done. split.
  - apply bool_decide_eq_false_2. intros E. apply (f_equal (fun l => l !! 8%nat)) in E. revert E.
    rewrite lookup_take_lt, lookup_app_r, L by lia. done.
  - assert (F : raw_frame raw = true) by apply frame_starts. rewrite F, andb_true_r. apply Z.leb_le. rewrite zlen_app. unfold zlen at 1. rewrite L.
    unfold raw, numpy_frame. rewrite zlen_app. pose proof (zlen_nonneg (rev (be_bytes 2 (zlen s)) ++ s ++ rev (be_bytes 2 (zlen sd)) ++ sd ++ c)).
    change (zlen NUMPY_RAW) with 9. lia.
Qed.

(** Only the frame that was written passes. *)
Lemma numpy_body_written integrity s sd c : digest_is_8_bytes ->
  let raw := numpy_frame s sd c in
  numpy_body xxh3_64_digest (if integrity : bool then xxh3_64_digest raw ++ raw else raw) = Ok raw.
Proof.
  intros D raw. pose proof (D raw) as L.
  assert (F : raw_frame raw = true) by apply frame_starts. destruct integrity.
  - destruct (checked_starts s sd c D) as [E1 E2]. fold raw in E1, E2. clearbody raw. unfold numpy_body.
    rewrite E1, E2. simpl. rewrite take_app_length', drop_app_length' by done.
    rewrite bool_decide_eq_false_2 by (by intros []). simpl. by rewrite F.
  - clearbody raw. unfold numpy_body. rewrite F. simpl. by rewrite F.
Qed.

Let deserialize_numpy := _deserialize_numpy true frombuffer reshape xxh3_64_digest.

Lemma deserialize_frame integrity a b : digest_is_8_bytes -> Forall is_code_point (a_dtype a) ->
  _serialize_numpy true xxh3_64_digest integrity a = Ok b ->
  array_of frombuffer reshape (a_content a) (a_dtype a) (ATuple (map AInt (a_shape a))) = Ok a ->
  frame_like b = true /\ deserialize_numpy b = Ok (AValue (AArray a)).
Proof.
  intros D C (s & dims & Es & Ed & L1 & L2 & ->)%serialize_numpy_inv A. split.
  - unfold frame_like. destruct integrity; [|by rewrite frame_starts].
    destruct (checked_starts s (concat dims) (a_content a) D) as [_ ->]. apply orb_true_r.
  - unfold deserialize_numpy, _deserialize_numpy. rewrite numpy_body_written by done. cbn [rbind].
    rewrite (numpy_frame_fields (a_dtype a) s (a_shape a) dims) by done. cbn [rbind].
    unfold array_of in A. destruct (frombuffer _ _) as [flat|]; [|done]. cbn [rbind] in *. by rewrite A.
Qed.

End Frames.

(** ** The serializer *)

Section Serializer.
Context (HAS_NUMPY HAS_PANDAS : bool).
Context (datetime_fromisoformat date_fromisoformat time_fromisoformat uuid : aval -> result exn aval).
Context (frombuffer : aval -> aval -> result exn ndarray) (reshape : ndarray -> aval -> result exn ndarray).
Context (packb : (aval -> result exn aval) -> aval -> result exn pybytes).
Context (unpackb : (list (pykey * aval) -> result exn aval) -> pybytes -> result exn aval).
Context (xxh3_64_digest : pybytes -> pybytes).
Context (store : pybytes -> pystr -> result exn pybytes) (retrieve : pybytes -> result exn (pybytes * pystr)).
Context (DataFrame : list (pykey * cells) -> aval -> result exn frame).
Context (frame_index : frame -> aval -> result exn frame).
Context (Series : cells -> aval -> result exn series) (series_index : series -> aval -> result exn series).
Context (arrow : option ((frame -> result exn (pybytes * SerializationMetadata)) *
                         (pybytes -> option SerializationMetadata -> result exn aobj))).

Abbreviation serialize := (serialize HAS_NUMPY HAS_PANDAS packb xxh3_64_digest store arrow).
Abbreviation unpack := (unpack HAS_NUMPY datetime_fromisoformat date_fromisoformat time_fromisoformat uuid
  frombuffer reshape unpackb).
Abbreviation deserialize := (deserialize HAS_NUMPY HAS_PANDAS datetime_fromisoformat date_fromisoformat
  time_fromisoformat uuid frombuffer reshape unpackb xxh3_64_digest retrieve DataFrame frame_index Series
  series_index arrow).
Abbreviation restorable := (restorable HAS_NUMPY datetime_fromisoformat date_fromisoformat
  time_fromisoformat uuid frombuffer reshape).

Definition msgpack_meta (integrity : bool) : SerializationMetadata :=
  metadata MSGPACK integrity (JStr (u "msgpack")).

(** The metadata of a value, or none. *)
Definition value_meta (m : option SerializationMetadata) : Prop :=
  m = None \/ exists integrity, m = Some (msgpack_meta integrity).

(** A value that is not an array by itself goes through msgpack. *)
Lemma serialize_value integrity v b m :
  match v with AArray _ => False | _ => True end ->
  serialize integrity (AValue v) = Ok (b, m) ->
  m = msgpack_meta integrity /\
  exists p, pack HAS_NUMPY packb (_wrap_tuples v) = Ok p /\ enveloped store integrity (u "msgpack") p = Ok b.
Proof.
  intros Hv E. assert (E' : (data <-! _serialize_msgpack HAS_NUMPY packb store integrity v ;
    Ok (data, msgpack_meta integrity)) = Ok (b, m)) by (destruct v; done).
  apply rbind_ok in E' as (d & Ed & [= -> ->]). split; [done|]. by apply rbind_ok in Ed.
Qed.

Abbreviation direct_read := (direct_read HAS_NUMPY datetime_fromisoformat date_fromisoformat time_fromisoformat
  uuid frombuffer reshape unpackb xxh3_64_digest arrow).

(** A value's metadata leads past the branches for arrays and tables. *)
Lemma value_typed m name : value_meta m -> name <> u "msgpack" -> typed m name = false.
Proof.
  intros [->|[i ->]] N; [done|]. unfold typed. cbn. by apply bool_decide_eq_false_2.
Qed.

Lemma deserialize_value integrity b m : frame_like b = false -> value_meta m ->
  deserialize integrity b m =
    if integrity then
      match envelope_read HAS_NUMPY HAS_PANDAS datetime_fromisoformat date_fromisoformat time_fromisoformat uuid
        frombuffer reshape unpackb xxh3_64_digest retrieve DataFrame frame_index Series series_index b m with
      | Ok v => Ok v
      | Err x => if is_serialization_error x then Err x else direct_read b m
      end
    else direct_read b m.
Proof.
  unfold frame_like. intros F M. unfold AutoSerializer.deserialize. rewrite F.
  by rewrite !value_typed by (done || by intros [=]).
Qed.

Lemma read_envelope b m p : frame_like b = false -> value_meta m -> retrieve b = Ok (p, u "msgpack") ->
  deserialize true b m =
    match unpack p with
    | Ok v => Ok (AValue v)
    | Err x => if is_serialization_error x then Err x else direct_read b m
    end.
Proof.
  intros F M R. rewrite deserialize_value by done. unfold envelope_read. rewrite R. cbn [rbind fst snd].
  assert (N : forall name, name <> u "msgpack" ->
    match m with Some _ => typed m name | None => bool_decide (u "msgpack" = name) end = false).
  { intros name Hn. destruct m; [by apply value_typed|by apply bool_decide_eq_false_2]. }
  rewrite (N (u "numpy")), (N (u "dataframe")), (N (u "series")) by (by intros [=]).
  by destruct (unpack p).
Qed.

Lemma read_refused b m x : frame_like b = false -> value_meta m -> retrieve b = Err x ->
  is_serialization_error x = false -> deserialize true b m = direct_read b m.
Proof.
  intros F M R S. rewrite deserialize_value by done. unfold envelope_read. rewrite R. simpl. by rewrite S.
Qed.

Lemma direct_value b m v : arrow_like b = false -> unpack b = Ok v -> direct_read b m = Ok (AValue v).
Proof. unfold arrow_like. intros A E. unfold AutoSerializer.direct_read. by rewrite A, E. Qed.

Context {msgpack_laws : Msgpack packb unpackb} {storage_laws : Storage store retrieve}.

Lemma restorable_unpacked v p : restorable v -> pack HAS_NUMPY packb (_wrap_tuples v) = Ok p ->
  unpack p = Ok v.
Proof.
  intros R E. destruct (packed_reads _ _ _ E) as (d & P & L). unfold AutoSerializer.unpack. rewrite L.
  eapply (restorable_restored HAS_NUMPY); [exact R|exact P].
Qed.

(** C19. A stored value comes back as the same value: dates, UUIDs, tuples, sets
    and nested arrays included, with or without integrity checking and metadata,
    provided no dictionary of it carries a marker, its keys are strings or
    bytes, its sets hold no tuples, and its bytes do not look like an array or
    an Arrow file. *)
Theorem auto_value_roundtrip integrity v b m m' :
  restorable v -> match v with AArray _ => False | _ => True end ->
  serialize integrity (AValue v) = Ok (b, m) ->
  frame_like b = false -> (integrity = false -> arrow_like b = false) ->
  m' = None \/ m' = Some m ->
  deserialize integrity b m' = Ok (AValue v).
Proof.
  intros R Hv E F A M. apply serialize_value in E as (-> & p & Ep & Eb); [|done].
  assert (V : value_meta m') by (destruct M; [by left|right; by eexists]).
  pose proof (restorable_unpacked v p R Ep) as U. destruct integrity; simpl in Eb.
  - rewrite (read_envelope b m' p) by (done || by apply stored_reads). by rewrite U.
  - injection Eb as ->. rewrite deserialize_value by done. apply direct_value; auto.
Qed.

(** An array comes back as the same array, whatever the metadata and the
    flag of the reader, when NumPy rebuilds it from its bytes, type and shape. *)
Theorem numpy_roundtrip integrity integrity' a b m m' :
  HAS_NUMPY -> digest_is_8_bytes xxh3_64_digest -> Forall is_code_point (a_dtype a) ->
  array_of frombuffer reshape (a_content a) (a_dtype a) (ATuple (map AInt (a_shape a))) = Ok a ->
  serialize integrity (AValue (AArray a)) = Ok (b, m) ->
  deserialize integrity' b m' = Ok (AValue (AArray a)).
Proof.
  intros N%Is_true_true D C A E. unfold AutoSerializer.serialize in E. rewrite N in E.
  apply rbind_ok in E as (d & Ed & [= -> <-]).
  destruct (deserialize_frame xxh3_64_digest frombuffer reshape integrity a b D C Ed A) as [F R].
  unfold AutoSerializer.deserialize, frame_like in *. by rewrite F, N.
Qed.

(** Which arrays can be written: those whose type's text fits 65535 bytes and
    whose dimensions are below 2^32, at most 16383 of them; any other raises. *)
Theorem numpy_writable integrity a s : HAS_NUMPY -> utf8_encode (a_dtype a) = Ok s ->
  is_Ok (serialize integrity (AValue (AArray a))) = true <->
  zlen s < 2 ^ 16 /\ Forall (fun d => 0 <= d < 2 ^ 32) (a_shape a) /\ 4 * zlen (a_shape a) < 2 ^ 16.
Proof.
  intros N%Is_true_true Es. unfold AutoSerializer.serialize. rewrite N. split.
  - destruct (_serialize_numpy _ _ _ _) as [b|] eqn:E; [|done]. intros _.
    apply serialize_numpy_inv in E as (s' & dims & Es' & Ed & L1 & L2 & _).
    rewrite Es in Es'. simplify_eq. destruct (chunks4_le dims _ Ed) as (_ & L & F).
    split_and!; [done..|]. by rewrite <- L.
  - intros (L1 & F & L2). unfold _serialize_numpy. rewrite Es. cbn [py rbind].
    rewrite to_bytes_le_ok by (pose proof (zlen_nonneg s); lia). cbn [rbind].
    destruct (rmap_to_bytes (a_shape a) F) as [dims Ed]. rewrite Ed. cbn [rbind].
    destruct (chunks4_le dims _ Ed) as (_ & L & _).
    by rewrite to_bytes_le_ok by (pose proof (zlen_nonneg (concat dims)); lia).
Qed.

(** A checksummed frame whose checksum does not match its content is refused,
    whatever the flag and the metadata. *)
Theorem altered_array_refused integrity b m :
  HAS_NUMPY -> checked_frame b = true -> raw_frame b = false -> xxh3_64_digest (drop 8 b) <> take 8 b ->
  deserialize integrity b m = Err SerializationError.
Proof.
  intros N%Is_true_true C R X. unfold AutoSerializer.deserialize, _deserialize_numpy, numpy_body.
  by rewrite C, R, N, bool_decide_eq_true_2.
Qed.

(** C23. Integrity checking does not protect a plain value: an envelope the
    storage refuses is read again as bare msgpack, and if its bytes are a
    document (an intact envelope is one, a list of four elements) the caller
    gets that document as the cached value.  A table with the same bytes is
    refused. *)
Theorem corrupted_value_served b x v m :
  retrieve b = Err x -> is_value_error x = true ->
  frame_like b = false -> arrow_like b = false -> unpack b = Ok v -> value_meta m ->
  deserialize true b m = Ok (AValue v) /\
  (4 < zlen b -> forall m', typed (Some m') (u "numpy") = false -> typed (Some m') (u "arrow") = false ->
     typed (Some m') (u "dataframe") || typed (Some m') (u "series") = true ->
     deserialize true b (Some m') = Err SerializationError).
Proof.
  intros R X F A U M. assert (S : is_serialization_error x = false) by (by destruct x).
  split; [rewrite (read_refused b m x) by done; by apply direct_value|].
  intros L m' T1 T2 T3. unfold AutoSerializer.deserialize, frame_like in *.
  assert (T : forall build, table_of HAS_NUMPY datetime_fromisoformat date_fromisoformat time_fromisoformat uuid
    frombuffer reshape unpackb retrieve true b build = Err SerializationError).
  { intros build. unfold table_of. apply Z.ltb_lt in L. rewrite L, R. simpl. by rewrite X. }
  rewrite F, T1, T2, !T. destruct (typed (Some m') (u "dataframe")); [done|]. cbn [orb] in T3. by rewrite T3.
Qed.

(** Values [serialize] accepts and cannot be read: a dictionary of scalars with a
    key that is neither a string nor bytes, a set of scalars and of tuples of
    scalars. *)
Inductive unreadable : aval -> Prop :=
  | u_key l : Forall (fun kv => is_Some (scalar kv.2)) l ->
      existsb (fun kv => negb (text_key kv.1)) l = true -> unreadable (ADict l)
  | u_tuple f l : Forall (fun v => is_Some (scalar v) \/ exists t, v = ATuple t /\ Forall (fun x => is_Some (scalar x)) t) l ->
      Exists (fun v => exists t, v = ATuple t) l -> unreadable (ASet f l).

Lemma scalar_unwrapped v d : scalar v = Some d -> _wrap_tuples v = v.
Proof. by destruct v. Qed.

Lemma scalar_items (l : list (pykey * aval)) : Forall (fun kv => is_Some (scalar kv.2)) l ->
  map (fun kv => (kv.1, _wrap_tuples kv.2)) l = l.
Proof.
  induction 1 as [|[k v] l [d E] _ IH]; simpl; [done|]. by rewrite IH, (scalar_unwrapped v d).
Qed.

Lemma scalars_restored default hook l : Forall (fun x => is_Some (scalar x)) l ->
  Forall2 (restores default hook) l l.
Proof. induction 1 as [|v l [d E] _ IH]; constructor; [by eapply restores_scalar|done]. Qed.

Lemma tuples_read default hook l :
  Forall (fun v => is_Some (scalar v) \/ exists t, v = ATuple t /\ Forall (fun x => is_Some (scalar x)) t) l ->
  Exists (fun v => exists t, v = ATuple t) l ->
  exists l', Forall2 (restores default hook) l l' /\ forallb hashable l' = false.
Proof.
  intros F X.
  assert (E : exists l', Forall2 (restores default hook) l l' /\
    (Exists (fun v => exists t, v = ATuple t) l -> forallb hashable l' = false)).
  { clear X. induction F as [|v l [[d E]|(t & -> & Ft)] _ (l' & R & H)].
    - exists []. split; [constructor|by inversion 1].
    - exists (v :: l'). split; [constructor; [by eapply restores_scalar|done]|].
      inversion 1 as [? ? [t ->]|? ? X]; subst; [done|]. simpl. by rewrite (H X), andb_false_r.
    - exists (AList t :: l'). split; [|done]. constructor; [|done].
      by apply restores_tuple, scalars_restored. }
  destruct E as (l' & R & H). eauto.
Qed.

Lemma unreadable_refused v p : unreadable v -> pack HAS_NUMPY packb (_wrap_tuples v) = Ok p ->
  exists x, unpack p = Err x /\ is_serialization_error x = false.
Proof.
  intros B E. destruct (packed_reads _ _ _ E) as (d & P & L). unfold AutoSerializer.unpack. rewrite L.
  destruct B as [l Sc K|f l F X]; simpl in P.
  - rewrite scalar_items in P by done. exists (PyExn ValueError). split; [|done].
    by eapply key_refused.
  - exists (PyExn TypeError). split; [|done].
    destruct (tuples_read (_auto_default HAS_NUMPY)
      (_auto_object_hook HAS_NUMPY datetime_fromisoformat date_fromisoformat time_fromisoformat uuid frombuffer
        reshape) l F X) as (l' & R & H).
    refine (restores_foreign _ _ _ _ _ _ _ _ d P); [done..|].
    eapply restores_dict; [|rewrite hook_set; unfold py_set; by rewrite H].
    repeat apply Forall2_cons; [..|by apply Forall2_nil]; split_and!; try done; try by eapply restores_scalar.
    by apply restores_list.
Qed.

(** What [serialize] accepts is not always readable: a dictionary with an
    integer key, or a set of tuples, is stored, and the next call gets the
    storage's envelope, read as a bare document, in its place. *)
Theorem unreadable_value_served v b m e :
  unreadable v -> serialize true (AValue v) = Ok (b, m) ->
  frame_like b = false -> arrow_like b = false -> unpack b = Ok e ->
  deserialize true b (Some m) = Ok (AValue e).
Proof.
  intros B E F A U. apply serialize_value in E as (-> & p & Ep & Eb); [|by destruct B].
  destruct (unreadable_refused v p B Ep) as (x & Ux & Sx).
  rewrite (read_envelope b _ p) by (done || (by right; eexists) || by apply stored_reads).
  rewrite Ux, Sx. by apply direct_value.
Qed.

(** Without integrity checking, a value whose document has [NUMPY_RAW] at its
    ninth byte is stored and then refused as a corrupted array. *)
Theorem taken_for_array v p m : HAS_NUMPY ->
  match v with AArray _ => False | _ => True end ->
  pack HAS_NUMPY packb (_wrap_tuples v) = Ok p ->
  checked_frame p = true -> raw_frame p = false -> xxh3_64_digest (drop 8 p) <> take 8 p ->
  serialize false (AValue v) = Ok (p, msgpack_meta false) /\ deserialize false p m = Err SerializationError.
Proof.
  intros N Hv Ep C R X. split.
  - assert (E : (data <-! _serialize_msgpack HAS_NUMPY packb store false v ; Ok (data, msgpack_meta false))
      = Ok (p, msgpack_meta false)) by (unfold _serialize_msgpack; by rewrite Ep).
    by destruct v.
  - unfold AutoSerializer.deserialize, _deserialize_numpy, numpy_body. apply Is_true_true in N.
    by rewrite C, R, N, bool_decide_eq_true_2.
Qed.
End Serializer.
