(* ===== verification/AutoExample.v ===== *)
(** A msgpack and a storage that satisfy the laws of [AutoProps], and the
    theorems of [AutoProps] at concrete values. *)
From Stdlib Require Import ZArith Lia SpecFloat.
From stdpp Require Import base list numbers option strings countable.
From S2P Require Import Prelude PyFloat PyDict Bytes PyValue Interop Effects Json Envelope AutoSerializer AutoProps.

Local Open Scope Z_scope.
Local Open Scope py_scope.

(** ** A concrete msgpack and storage, for the examples *)

Section DocInduction.
Context (P : doc -> Prop).
Hypothesis Hleaf : forall d, match d with DArr _ | DMap _ => False | _ => True end -> P d.
Hypothesis Harr : forall l, Forall P l -> P (DArr l).
Hypothesis Hmap : forall l, Forall (fun kd => P kd.2) l -> P (DMap l).
Fixpoint doc_deep (d : doc) : P d :=
  let many := fix many (l : list doc) : Forall P l :=
    match l with
    | [] => Forall_nil_2 P
    | x :: r => Forall_cons_2 P x r (doc_deep x) (many r)
    end in
  let items := fix items (l : list (pykey * doc)) : Forall (fun kd => P kd.2) l :=
    match l with
    | [] => Forall_nil_2 _
    | (k, x) :: r => Forall_cons_2 (fun kd => P kd.2) (k, x) r (doc_deep x) (items r)
    end in
  match d with
  | DArr l => Harr l (many l)
  | DMap l => Hmap l (items l)
  | d => Hleaf d I
  end.
End DocInduction.

(** A document as a tree of numbers. *)
Definition leaves (n : nat) (l : list Z) : gen_tree Z := GenNode n (map GenLeaf l).

Definition key_tree (k : pykey) : gen_tree Z :=
  match k with KStr s => leaves 0 s | KInt z => leaves 1 [z] | KBytes b => leaves 2 b | KNone => leaves 3 [] end.

Definition float_leaves (f : float) : list Z :=
  let sign (s : bool) := if s then 1 else 0 in
  match f with
  | S754_zero s => [0; sign s]
  | S754_infinity s => [1; sign s]
  | S754_nan => [2]
  | S754_finite s m e => [3; sign s; Z.pos m; e]
  end.

Fixpoint doc_tree (d : doc) : gen_tree Z :=
  match d with
  | DNil => leaves 0 []
  | DBool b => leaves 1 [if b then 1 else 0]
  | DInt z => leaves 2 [z]
  | DFloat f => leaves 3 (float_leaves f)
  | DStr s => leaves 4 s
  | DBin b => leaves 5 b
  | DArr l => GenNode 6 (map doc_tree l)
  | DMap l => GenNode 7 (map (fun kd : pykey * doc => GenNode 0 [key_tree kd.1; doc_tree kd.2]) l)
  end.

Definition tree_leaves (l : list (gen_tree Z)) : list Z := omap (fun t => match t with GenLeaf z => Some z | _ => None end) l.

Definition tree_key (t : gen_tree Z) : pykey :=
  match t with
  | GenNode 0 l => KStr (tree_leaves l)
  | GenNode 1 l => KInt (zsum (tree_leaves l))
  | GenNode 2 l => KBytes (tree_leaves l)
  | _ => KNone
  end.

Definition leaves_float (l : list Z) : float :=
  match l with
  | [0; s] => S754_zero (s =? 1)
  | [1; s] => S754_infinity (s =? 1)
  | [3; s; m; e] => S754_finite (s =? 1) (Z.to_pos m) e
  | _ => S754_nan
  end.

Fixpoint tree_doc (t : gen_tree Z) : doc :=
  match t with
  | GenNode 1 l => DBool (zsum (tree_leaves l) =? 1)
  | GenNode 2 l => DInt (zsum (tree_leaves l))
  | GenNode 3 l => DFloat (leaves_float (tree_leaves l))
  | GenNode 4 l => DStr (tree_leaves l)
  | GenNode 5 l => DBin (tree_leaves l)
  | GenNode 6 l => DArr (map tree_doc l)
  | GenNode 7 l =>
      DMap (map (fun t => match t with GenNode _ [k; x] => (tree_key k, tree_doc x) | _ => (KNone, DNil) end) l)
  | _ => DNil
  end.

Lemma tree_leaves_map l : tree_leaves (map GenLeaf l) = l.
Proof. unfold tree_leaves. induction l as [|z l IH]; [done|]. cbn. by f_equal. Qed.

Lemma tree_key_back k : tree_key (key_tree k) = k.
Proof. destruct k; simpl; rewrite ?tree_leaves_map; try done. cbn. f_equal. lia. Qed.

Lemma leaves_float_back f : leaves_float (float_leaves f) = f.
Proof. by destruct f as [[]|[]| |[] m e]. Qed.

Lemma tree_doc_back d : tree_doc (doc_tree d) = d.
Proof.
  induction d as [d Hd|l IH|l IH] using doc_deep; simpl.
  - destruct d as [|[]| | | | | |]; simpl; rewrite ?tree_leaves_map, ?leaves_float_back; try done. cbn. f_equal. lia.
  - f_equal. rewrite map_map. induction IH as [|d l E _ IH]; simpl; [done|]. by rewrite E, IH.
  - f_equal. rewrite map_map. induction IH as [|[k d] l E _ IH]; simpl in *; [done|].
    by rewrite tree_key_back, E, IH.
Qed.

(** The tree as a number, the number as octets, low bits first. *)
Fixpoint bits (p : positive) : list bool :=
  match p with xH => [true] | xO p => false :: bits p | xI p => true :: bits p end.

Fixpoint from_bits (l : list bool) : option positive :=
  match l with
  | [] => None
  | b :: r =>
      match from_bits r with
      | None => if b then Some xH else None
      | Some p => Some (if b then xI p else xO p)
      end
  end.

Definition octet (l : list bool) : Z := foldr (fun (b : bool) a => (if b then 1 else 0) + 2 * a) 0 l.

Fixpoint octets (l : list bool) : pybytes :=
  match l with
  | [] => []
  | a :: b :: c :: d :: e :: f :: g :: h :: r => octet [a; b; c; d; e; f; g; h] :: octets r
  | l => [octet l]
  end.

Definition octet_bits (z : Z) : list bool := map (Z.testbit z) [0; 1; 2; 3; 4; 5; 6; 7].

Lemma octet_back l : (length l <= 8)%nat -> octet_bits (octet l) = l ++ replicate (8 - length l) false.
Proof.
  intros H. destruct l as [|[] [|[] [|[] [|[] [|[] [|[] [|[] [|[] [|? ?]]]]]]]]]; try reflexivity; simpl in H; lia.
Qed.

Lemma octets_back l : exists n, concat (map octet_bits (octets l)) = l ++ replicate n false.
Proof.
  induction l as [l IH] using (induction_ltof1 _ (@length bool)). unfold ltof in IH.
  assert (Short : (0 < length l < 8)%nat -> octets l = [octet l] ->
    exists n, concat (map octet_bits (octets l)) = l ++ replicate n false).
  { intros H E. rewrite E. cbn [map concat]. rewrite octet_back, app_nil_r by lia. by eexists. }
  destruct l as [|a [|b [|c [|d [|e [|f [|g [|h r]]]]]]]]; try (apply Short; simpl; [lia|done]); [by exists 0%nat|].
  destruct (IH r) as [n E]; [simpl; lia|]. exists n.
  change (concat (octet_bits (octet [a; b; c; d; e; f; g; h]) :: map octet_bits (octets r))
    = [a; b; c; d; e; f; g; h] ++ r ++ replicate n false).
  cbn [concat]. by rewrite octet_back, E by (simpl; lia).
Qed.

Lemma from_bits_pad p n : from_bits (bits p ++ replicate n false) = Some p.
Proof.
  induction p as [p IH|p IH|]; simpl; try by rewrite IH.
  assert (E : from_bits (replicate n false) = None) by (induction n as [|n IH]; simpl; [done|by rewrite IH]).
  by rewrite E.
Qed.

Definition doc_bytes (d : doc) : pybytes := octets (bits (encode (doc_tree d))).

Definition bytes_doc (b : pybytes) : option doc :=
  match from_bits (concat (map octet_bits b)) with Some p => tree_doc <$> decode p | None => None end.

Lemma bytes_doc_back d : bytes_doc (doc_bytes d) = Some d.
Proof.
  unfold bytes_doc, doc_bytes. destruct (octets_back (bits (encode (doc_tree d)))) as [n E].
  rewrite E, from_bits_pad, decode_encode. simpl. by rewrite tree_doc_back.
Qed.

(** What [packb] writes, up to a nesting depth. *)
Fixpoint document (fuel : nat) (default : aval -> result exn aval) (v : aval) : option doc :=
  match fuel, scalar v with
  | O, _ => None
  | _, Some d => Some d
  | S f, None =>
      match v with
      | AList l | ATuple l => DArr <$> mapM (document f default) l
      | ADict l => DMap <$> mapM (fun kv : pykey * aval => pair kv.1 <$> document f default kv.2) l
      | v => match default v with Ok w => document f default w | Err _ => None end
      end
  end.

Lemma document_packs default fuel v d : document fuel default v = Some d -> packs default v d.
Proof.
  revert v d. induction fuel as [|f IH]; intros v d; [done|]. cbn [document].
  destruct (scalar v) as [d'|] eqn:Es; [intros [= <-]; by apply packs_scalar|].
  assert (L : forall l d, DArr <$> mapM (document f default) l = Some d ->
    exists ds, d = DArr ds /\ Forall2 (packs default) l ds).
  { intros l d' (ds & E & ->)%fmap_Some. exists ds. split; [done|]. apply mapM_Some_1 in E.
    eapply list.Forall2_impl; [exact E|exact IH]. }
  assert (G : forall w, foreign v = true -> default v = Ok w -> document f default w = Some d -> packs default v d).
  { intros w Fv Ew Ed. eapply packs_foreign; eauto. }
  destruct v as [| | | | | |l|l|l|fr l|tz i|i|i|i|a|]; try done;
    try (intros E; destruct (default _) as [w|]; [by eapply G|done]).
  - intros (ds & -> & F)%L. by apply packs_list.
  - intros (ds & -> & F)%L. by apply packs_tuple.
  - intros (ds & E & ->)%fmap_Some. apply packs_dict. apply mapM_Some_1 in E.
    eapply list.Forall2_impl; [exact E|]. intros [k x] [k' d'] (d'' & Ed & [= -> ->])%fmap_Some. split; [done|].
    by apply IH.
Qed.

Definition tree_packb (default : aval -> result exn aval) (v : aval) : result exn pybytes :=
  match document 50 default v with Some d => Ok (doc_bytes d) | None => Err (PyExn TypeError) end.

Definition tree_unpackb (hook : list (pykey * aval) -> result exn aval) (b : pybytes) : result exn aval :=
  match bytes_doc b with Some d => rebuild hook d | None => Err UnpackException end.

#[export] Instance tree_msgpack : Msgpack tree_packb tree_unpackb.
Proof.
  intros default v b. unfold tree_packb. destruct (document _ _ v) as [d|] eqn:E; [|done].
  intros [= <-]. exists d. split; [by eapply document_packs|]. intros hook.
  unfold tree_unpackb. by rewrite bytes_doc_back.
Qed.

(** The envelope is a document of four elements: content, checksum, size, format. *)
Definition checksum (b : pybytes) : pybytes := be_bytes 8 (zsum b).

Definition tree_store (data : pybytes) (format : pystr) : result exn pybytes :=
  Ok (doc_bytes (DArr [DBin data; DArr (map DInt (checksum data)); DInt (zlen data); DStr format])).

Definition ints (l : list doc) : list Z := omap (fun d => match d with DInt z => Some z | _ => None end) l.

Lemma ints_back l : ints (map DInt l) = l.
Proof. unfold ints. induction l as [|z l IH]; [done|]. cbn. by f_equal. Qed.

Definition tree_retrieve (b : pybytes) : result exn (pybytes * pystr) :=
  match bytes_doc b with
  | Some (DArr [DBin data; DArr c; DInt _; DStr format]) =>
      if bool_decide (ints c = checksum data)
      then Ok (data, format) else Err (PyExn ValueError)
  | _ => Err (PyExn ValueError)
  end.

#[export] Instance tree_storage : Storage tree_store tree_retrieve.
Proof.
  intros data f e E. apply Ok_inj in E as <-. unfold tree_retrieve. rewrite bytes_doc_back. cbv beta iota.
  by rewrite ints_back, bool_decide_eq_true_2.
Qed.

(** NumPy on one-dimensional buffers, given the shape back. *)
Definition toy_frombuffer (data dt : aval) : result exn ndarray :=
  match data, dt with
  | ABytes b, AStr t => Ok (mkArray (zlen b) [zlen b] t b)
  | _, _ => Err (PyExn TypeError)
  end.

Definition toy_reshape (a : ndarray) (shape : aval) : result exn ndarray :=
  match shape with
  | AList l | ATuple l =>
      Ok (mkArray (a_nbytes a) (omap (fun v => match v with AInt z => Some z | _ => None end) l)
            (a_dtype a) (a_content a))
  | _ => Err (PyExn TypeError)
  end.

Definition toy_text (restore : pystr -> aval) (v : aval) : result exn aval :=
  match v with AStr s => Ok (restore s) | _ => Err (PyExn TypeError) end.

Definition toy_frame (_ : list (pykey * cells)) (_ : aval) : result exn frame := Ok (mkFrame [] (mkIndex false true [])).
Definition toy_series (_ : cells) (name : aval) : result exn series :=
  Ok (mkSeries name (mkIndex false true []) (mkColumn (mkDtype (u "int64") 105 false) [] [])).

Definition auto_serialize := serialize true true tree_packb checksum tree_store None.
Definition auto_unpack := unpack true (toy_text (ADatetime Naive)) (toy_text ADate) (toy_text ATime)
  (toy_text AUUID) toy_frombuffer toy_reshape tree_unpackb.
Definition auto_deserialize := deserialize true true (toy_text (ADatetime Naive)) (toy_text ADate) (toy_text ATime)
  (toy_text AUUID) toy_frombuffer toy_reshape tree_unpackb checksum tree_retrieve toy_frame (fun f _ => Ok f)
  toy_series (fun s _ => Ok s) None.

Definition written (integrity : bool) (v : aval) : pybytes :=
  match auto_serialize integrity (AValue v) with Ok (b, _) => b | Err _ => [] end.

(** ** The theorems at work *)

Definition small_array : ndarray := mkArray 2 [2; 1] (u "uint8") [7; 9].

Definition some_value : aval :=
  ADict [(KStr (u "when"), ADatetime Naive (u "2020-01-01T00:00:00"));
         (KStr (u "tags"), ASet true [AStr (u "a"); AInt 1]);
         (KBytes [1], ATuple [AUUID (u "id"); AList [ATuple []; ANone]]);
         (KStr (u "m"), AArray small_array)].

Lemma some_value_restorable :
  restorable true (toy_text (ADatetime Naive)) (toy_text ADate) (toy_text ATime) (toy_text AUUID)
    toy_frombuffer toy_reshape some_value.
Proof.
  apply r_dict; [|repeat (constructor; [reflexivity|]); constructor].
  repeat (constructor; [split; [reflexivity|]|]); [..|constructor].
  - by apply r_datetime.
  - apply r_set; [|reflexivity]. repeat (constructor; [split; [by eapply r_scalar|reflexivity]|]). constructor.
  - apply r_tuple. constructor; [by apply r_uuid|]. constructor; [|constructor].
    apply r_list. constructor; [by apply r_tuple|]. constructor; [by eapply r_scalar|constructor].
  - by apply r_array.
Qed.

Lemma auto_value_roundtrip_witness :
  auto_deserialize true (written true some_value) None = Ok (AValue some_value).
Proof.
  apply (auto_value_roundtrip true true (toy_text (ADatetime Naive)) (toy_text ADate) (toy_text ATime)
    (toy_text AUUID) toy_frombuffer toy_reshape tree_packb tree_unpackb checksum tree_store tree_retrieve
    toy_frame (fun f _ => Ok f) toy_series (fun s _ => Ok s) None true some_value
    (written true some_value) (msgpack_meta true) None).
  - apply some_value_restorable.
  - exact I.
  - vm_compute. reflexivity.
  - vm_compute. reflexivity.
  - intros E. discriminate E.
  - left. reflexivity.
Defined.

Lemma numpy_roundtrip_witness :
  zlen (written true (AArray small_array)) = 8 + 9 + 2 + 5 + 2 + 8 + 2 /\
  auto_deserialize false (written true (AArray small_array)) None = Ok (AValue (AArray small_array)).
Proof.
  split; [vm_compute; reflexivity|].
  apply (numpy_roundtrip true true (toy_text (ADatetime Naive)) (toy_text ADate) (toy_text ATime)
    (toy_text AUUID) toy_frombuffer toy_reshape tree_packb tree_unpackb checksum tree_store tree_retrieve
    toy_frame (fun f _ => Ok f) toy_series (fun s _ => Ok s) None true false small_array
    (written true (AArray small_array)) (metadata MSGPACK false (JStr (u "numpy"))) None).
  - exact I.
  - intros b. apply be_bytes_length.
  - apply u_code_points.
  - reflexivity.
  - vm_compute. reflexivity.
Defined.

(** A dimension of 2^32 is refused. *)
Lemma numpy_writable_witness :
  is_Ok (auto_serialize true (AValue (AArray small_array))) = true /\
  is_Ok (auto_serialize true (AValue (AArray (mkArray 0 [0; 2 ^ 32] (u "uint8") [])))) <> true.
Proof.
  split.
  - apply (numpy_writable true true tree_packb checksum tree_store None true small_array (u "uint8") I eq_refl).
    split; [reflexivity|]. split; [|reflexivity]. repeat (constructor; [split; [discriminate|reflexivity]|]). constructor.
  - intros (_ & F & _)%(numpy_writable true true tree_packb checksum tree_store None true
      (mkArray 0 [0; 2 ^ 32] (u "uint8") []) (u "uint8") I eq_refl).
    apply list.Forall_cons in F as [_ F]. apply list.Forall_cons in F as [[_ F] _]. discriminate F.
Defined.

(** The last byte of the stored array changed. *)
Definition altered : pybytes := take 35 (written true (AArray small_array)) ++ [8].

Lemma altered_array_refused_witness :
  zlen (written true (AArray small_array)) = 36 /\
  auto_deserialize false altered None = Err SerializationError.
Proof.
  split; [vm_compute; reflexivity|].
  apply (altered_array_refused true true (toy_text (ADatetime Naive)) (toy_text ADate) (toy_text ATime)
    (toy_text AUUID) toy_frombuffer toy_reshape tree_unpackb checksum tree_retrieve
    toy_frame (fun f _ => Ok f) toy_series (fun s _ => Ok s) None false altered None I).
  - vm_compute. reflexivity.
  - vm_compute. reflexivity.
  - vm_compute. intros E. discriminate E.
Defined.

(** An envelope whose checksum is wrong. *)
Definition bad_envelope : pybytes :=
  doc_bytes (DArr [DBin [1; 2]; DArr (map DInt (checksum [1; 3])); DInt 2; DStr (u "msgpack")]).

Lemma corrupted_value_served_witness :
  auto_deserialize true bad_envelope (Some (msgpack_meta true))
    = Ok (AValue (AList [ABytes [1; 2]; AList (map AInt [0; 0; 0; 0; 0; 0; 0; 4]); AInt 2; AStr (u "msgpack")])) /\
  auto_deserialize true bad_envelope (Some (metadata MSGPACK true (JStr (u "series")))) = Err SerializationError.
Proof.
  destruct (corrupted_value_served true true (toy_text (ADatetime Naive)) (toy_text ADate) (toy_text ATime)
    (toy_text AUUID) toy_frombuffer toy_reshape tree_unpackb checksum tree_retrieve
    toy_frame (fun f _ => Ok f) toy_series (fun s _ => Ok s) None bad_envelope (PyExn ValueError)
    (AList [ABytes [1; 2]; AList (map AInt [0; 0; 0; 0; 0; 0; 0; 4]); AInt 2; AStr (u "msgpack")])
    (Some (msgpack_meta true))) as [H1 H2]; [vm_compute; reflexivity..|right; by exists true|].
  split; [exact H1|]. apply H2; vm_compute; reflexivity.
Defined.

Definition by_number : aval := ADict [(KInt 1, AStr (u "a"))].

Lemma unreadable_value_served_witness : exists e,
  auto_unpack (written true by_number) = Ok (AList e) /\ length e = 4%nat /\
  auto_deserialize true (written true by_number) (Some (msgpack_meta true)) = Ok (AValue (AList e)).
Proof.
  destruct (auto_unpack (written true by_number)) as [[| | | | | |e| | | | | | | | |]|] eqn:E;
    try (vm_compute in E; discriminate E).
  exists e. split; [done|]. split; [vm_compute in E; by injection E as <-|].
  apply (unreadable_value_served true true (toy_text (ADatetime Naive)) (toy_text ADate) (toy_text ATime)
    (toy_text AUUID) toy_frombuffer toy_reshape tree_packb tree_unpackb checksum tree_store tree_retrieve
    toy_frame (fun f _ => Ok f) toy_series (fun s _ => Ok s) None by_number).
  - apply u_key; [|reflexivity]. constructor; [by eexists|constructor].
  - vm_compute. reflexivity.
  - vm_compute. reflexivity.
  - vm_compute. reflexivity.
  - exact E.
Defined.

(** MessagePack's own form of a short string. *)
Definition str_packb (_ : aval -> result exn aval) (v : aval) : result exn pybytes :=
  match v with
  | AStr s => match _encode_str s with Ok b => Ok b | Err _ => Err (PyExn ValueError) end
  | _ => Err (PyExn TypeError)
  end.

Lemma taken_for_array_witness :
  let s := AStr (u "1234567NUMPY_RAW") in
  str_packb (_auto_default true) s = Ok (0xb0 :: u "1234567NUMPY_RAW") /\
  auto_deserialize false (0xb0 :: u "1234567NUMPY_RAW") (Some (msgpack_meta false)) = Err SerializationError.
Proof.
  split; [vm_compute; reflexivity|].
  apply (taken_for_array true true (toy_text (ADatetime Naive)) (toy_text ADate) (toy_text ATime)
    (toy_text AUUID) toy_frombuffer toy_reshape str_packb tree_unpackb checksum tree_store tree_retrieve
    toy_frame (fun f _ => Ok f) toy_series (fun s _ => Ok s) None (AStr (u "1234567NUMPY_RAW"))
    (0xb0 :: u "1234567NUMPY_RAW") (Some (msgpack_meta false)) I I).
  - vm_compute. reflexivity.
  - vm_compute. reflexivity.
  - vm_compute. reflexivity.
  - vm_compute. intros E. discriminate E.
Defined.
