(* ===== verification/Tenant.v ===== *)
(** Tenant identifiers: [uuid.UUID(text)] as Python parses it, and the extractors
    ([src/src/cachekit/decorators/tenant_context.py]). *)
From Stdlib Require Import ZArith Lia SpecFloat.
From stdpp Require Import base list numbers option strings.
From S2P Require Import Prelude Bytes PyValue Effects Json.

Local Open Scope Z_scope.
Local Open Scope py_scope.
Local Open Scope eff_scope.

(** ** [uuid.UUID] *)

(** [s.replace(p, "")] for a non-empty [p], from left to right. *)
Fixpoint remove_all (fuel : nat) (p s : pystr) : pystr :=
  match fuel, s with
  | S f, c :: r =>
      match after p s with
      | Some rest => remove_all f p rest
      | None => c :: remove_all f p r
      end
  | _, _ => []
  end.

Definition without (p s : pystr) : pystr := remove_all (length s) p s.

Fixpoint lstrip (chars : Z -> bool) (s : pystr) : pystr :=
  match s with c :: r => if chars c then lstrip chars r else s | [] => [] end.

Definition strip (chars : Z -> bool) (s : pystr) : pystr := rev (lstrip chars (rev (lstrip chars s))).

Definition is_brace (c : Z) : bool := (c =? 123) || (c =? 125).
Definition is_dash (c : Z) : bool := c =? 45.
(** White space around an ASCII number. *)
Definition is_space (c : Z) : bool := (c =? 32) || ((9 <=? c) && (c <=? 13)).
(** [str.isspace], what [str.strip()] removes. *)
Definition is_unicode_space (c : Z) : bool :=
  is_space c || ((28 <=? c) && (c <=? 31)) || (c =? 0x85) || (c =? 0xA0) || (c =? 0x1680) ||
  ((0x2000 <=? c) && (c <=? 0x200A)) || (c =? 0x2028) || (c =? 0x2029) || (c =? 0x202F) ||
  (c =? 0x205F) || (c =? 0x3000).

(** Digits in base 16, single underscores between them. *)
Fixpoint hex_digits (acc : Z) (s : pystr) : option Z :=
  match s with
  | [] => None
  | c :: r =>
      match hex_value c with
      | None => None
      | Some d =>
          match r with
          | [] => Some (acc * 16 + d)
          | 95 :: r' => hex_digits (acc * 16 + d) r'
          | _ => hex_digits (acc * 16 + d) r
          end
      end
  end.

(** [int(s, 16)] on ASCII text: white space around, a sign, a prefix [0x]. *)
Definition int16 (s : pystr) : option Z :=
  let unsigned (t : pystr) :=
    match t with
    | 48 :: x :: r =>
        if (x =? 120) || (x =? 88) then hex_digits 0 (match r with 95 :: r' => r' | _ => r end)
        else hex_digits 0 t
    | _ => hex_digits 0 t
    end in
  match strip is_space s with
  | 43 :: t => unsigned t
  | 45 :: t => match unsigned t with Some n => Some (- n) | None => None end
  | t => unsigned t
  end.

(** The 128-bit value of [uuid.UUID(hex)]; every failure is a [ValueError]. *)
Definition uuid_value (text : pystr) : option Z :=
  let h := List.filter (fun c => negb (is_dash c))
             (strip is_brace (without (u "uuid:") (without (u "urn:") text))) in
  if zlen h =? 32 then
    match int16 h with
    | Some n => if (0 <=? n) && (n <? 2 ^ 128) then Some n else None
    | None => None
    end
  else None.

(** The last [k] hexadecimal digits of [n]. *)
Fixpoint hex_text (k : nat) (n : Z) : pystr :=
  match k with
  | O => []
  | S k => hex_text k (n / 16) ++ [hex_digit (n mod 16)]
  end.

(** [str(uuid.UUID(int=n))] *)
Definition uuid_text (n : Z) : pystr :=
  let h := hex_text 32 n in
  take 8 h ++ [45] ++ take 4 (drop 8 h) ++ [45] ++ take 4 (drop 12 h) ++ [45] ++ take 4 (drop 16 h) ++ [45] ++ drop 20 h.

(** ** Extractors *)

(** A value that is not text has no [replace] and is refused too. *)
Definition _validate_tenant_id_format (tenant_id : pyval) : result exn pystr :=
  match tenant_id with
  | PStr t => match uuid_value t with Some _ => Ok t | None => Err (PyExn ValueError) end
  | _ => Err (PyExn ValueError)
  end.

Section Extractors.
(** [str] of any other value. *)
Context (str_of : pyval -> pystr).

Definition py_text (v : pyval) : pystr :=
  match v with PStr s | PUUID s => s | _ => str_of v end.

Inductive extractor :=
  | ArgumentNameExtractor (arg_name : pystr)
  | CallableExtractor (extractor_fn : list pyval -> list (pystr * pyval) -> result exn pyval)
  | ContextVarExtractor.

(** The state is the context variable. *)
Definition extract (x : extractor) (args : list pyval) (kwargs : list (pystr * pyval)) : eff (option pystr) pystr :=
  match x with
  | ArgumentNameExtractor arg_name =>
      match assoc arg_name kwargs with
      | Some v => lift (_validate_tenant_id_format (PStr (py_text v)))
      | None => throw (PyExn ValueError)
      end
  | CallableExtractor fn =>
      tenant_id <~ lift (fn args kwargs) ;; lift (_validate_tenant_id_format tenant_id)
  | ContextVarExtractor => fun v =>
      match v with
      | Some t => (Ok t, v)
      | None => (Err (PyExn ValueError), v)
      end
  end.

Definition set_tenant_id (tenant_id : pyval) : eff (option pystr) unit := fun v =>
  match _validate_tenant_id_format tenant_id with
  | Ok t => (Ok tt, Some t)
  | Err x => (Err x, v)
  end.

Definition DEFAULT_TENANT_EXTRACTOR : extractor := ArgumentNameExtractor (u "tenant_id").

End Extractors.

(** ** Only valid identifiers *)

Definition valid_context (v : option pystr) : Prop :=
  match v with Some t => is_Some (uuid_value t) | None => True end.

Lemma validated tenant_id t : _validate_tenant_id_format tenant_id = Ok t -> is_Some (uuid_value t).
Proof.
  unfold _validate_tenant_id_format. destruct tenant_id; try done.
  destruct (uuid_value s) eqn:E; [|done]. intros [= <-]. by rewrite E.
Qed.

Lemma set_tenant_id_keeps tenant_id : keeps valid_context (set_tenant_id tenant_id).
Proof.
  intros v Hv. unfold set_tenant_id. destruct (_validate_tenant_id_format tenant_id) eqn:E; [|done].
  by eapply validated.
Qed.

(** Whatever the extractor, an extracted tenant is a UUID; extraction changes no
    context. *)
Lemma extracted_valid str_of x args kwargs v t v' : valid_context v ->
  extract str_of x args kwargs v = (Ok t, v') -> v' = v /\ is_Some (uuid_value t).
Proof.
  intros Hv. destruct x as [a|fn|]; cbn [extract].
  - destruct (assoc a kwargs) as [p|]; [|done]. intros E. apply lift_ok in E as [E ->].
    split; [done|]. by eapply validated.
  - intros E. apply andthen_ok in E as (p & v1 & E1 & E). apply lift_ok in E1 as [_ ->].
    apply lift_ok in E as [E ->]. split; [done|]. by eapply validated.
  - destruct v as [x|]; [|done]. by intros [= <- <-].
Qed.

(** ** The text of an identifier is read back *)

Lemma without_other x p s : Forall (fun c => c <> x) s -> without (x :: p) s = s.
Proof.
  unfold without. intros H. generalize (le_n (length s)). generalize (length s) at 2 3 as f.
  induction H as [|c s Hc _ IH]; intros f Hf; [by destruct f|]. destruct f as [|f]; [simpl in Hf; lia|].
  cbn [remove_all after]. rewrite (proj2 (Z.eqb_neq x c)) by auto. f_equal. apply IH. simpl in Hf. lia.
Qed.

Lemma lstrip_none f s : Forall (fun c => f c = false) s -> lstrip f s = s.
Proof. destruct 1 as [|c s Hc _]; simpl; [done|]. by rewrite Hc. Qed.

Lemma strip_none f s : Forall (fun c => f c = false) s -> strip f s = s.
Proof.
  intros H. unfold strip. rewrite (lstrip_none f s H), lstrip_none; [apply rev_involutive|].
  by apply Stdlib.Lists.List.Forall_rev.
Qed.

Lemma filter_keeps (f : Z -> bool) s : Forall (fun c => f c = true) s -> List.filter f s = s.
Proof. induction 1 as [|c s Hc _ IH]; simpl; [done|]. by rewrite Hc, IH. Qed.

Lemma hex_text_hex k n : Forall is_hex (hex_text k n).
Proof.
  revert n. induction k as [|k IH]; intros n; simpl; [constructor|]. apply Forall_app. split; [done|].
  apply Forall_singleton, hex_digit_is_hex, Z.mod_pos_bound. lia.
Qed.

Lemma hex_text_length k n : length (hex_text k n) = k.
Proof. revert n. induction k as [|k IH]; intros n; simpl; [done|]. rewrite length_app, IH. simpl. lia. Qed.

(** The value of a hexadecimal character. *)
Definition digit_of (c : Z) : Z := match hex_value c with Some d => d | None => 0 end.

Lemma hex_value_hex c : is_hex c -> hex_value c = Some (digit_of c).
Proof. intros H. unfold digit_of, hex_value. destruct H; ztests; done. Qed.

Lemma hex_digits_step acc c x l : is_hex c -> is_hex x ->
  hex_digits acc (c :: x :: l) = hex_digits (acc * 16 + digit_of c) (x :: l).
Proof.
  intros Hc Hx. pose proof (hex_value_hex c Hc) as E. unfold is_hex in Hx.
  destruct x as [|p|p]; [lia| |lia]. destruct (Pos.eq_dec p 95%positive) as [->|Hp]; [lia|].
  transitivity (match hex_value c with
                | None => None
                | Some d => hex_digits (acc * 16 + d) (Z.pos p :: l)
                end); [|by rewrite E].
  clear - Hp. by repeat (destruct p as [p|p|]; try done).
Qed.

Lemma hex_digits_fold acc c l : Forall is_hex (c :: l) ->
  hex_digits acc (c :: l) = Some (foldl (fun a c => a * 16 + digit_of c) acc (c :: l)).
Proof.
  revert acc c. induction l as [|x l IH]; intros acc c H; apply list.Forall_cons in H as [Hc Hl].
  - cbn [hex_digits]. by rewrite (hex_value_hex c Hc).
  - pose proof Hl as Hl'. apply list.Forall_cons in Hl' as [Hx _]. rewrite hex_digits_step by done.
    by rewrite (IH _ _ Hl).
Qed.

Lemma hex_text_value k n acc :
  foldl (fun a c => a * 16 + digit_of c) acc (hex_text k n) = acc * 16 ^ Z.of_nat k + n mod 16 ^ Z.of_nat k.
Proof.
  revert n. induction k as [|k IH]; intros n.
  - simpl. rewrite Z.mod_1_r. lia.
  - cbn [hex_text]. rewrite foldl_app, IH. cbn [foldl]. unfold digit_of.
    rewrite hex_value_digit by (apply Z.mod_pos_bound; lia).
    rewrite Nat2Z.inj_succ, Z.pow_succ_r by lia.
    rewrite (Z.rem_mul_r n 16 (16 ^ Z.of_nat k)) by lia. lia.
Qed.

Lemma uuid_chars n : Forall (fun c => is_hex c \/ c = 45) (uuid_text n).
Proof.
  pose proof (hex_text_hex 32 n) as H. unfold uuid_text.
  assert (forall a b, Forall (fun c => is_hex c \/ c = 45) (take a (drop b (hex_text 32 n)))) as Hp.
  { intros a b. apply Forall_take, Forall_drop. eapply list.Forall_impl; [exact H|]. auto. }
  pose proof (Hp 8%nat 0%nat) as H0. rewrite drop_0 in H0.
  repeat (apply Forall_app; split); try apply Hp; try exact H0; try (apply Forall_singleton; by right).
  apply Forall_drop. eapply list.Forall_impl; [exact H|]. auto.
Qed.

Lemma hex_kept l : Forall is_hex l -> List.filter (fun c => negb (is_dash c)) l = l.
Proof.
  intros H. apply filter_keeps. eapply list.Forall_impl; [exact H|].
  unfold is_hex, is_dash. intros c Hc. by ztests.
Qed.

Lemma uuid_digits n : List.filter (fun c => negb (is_dash c)) (uuid_text n) = hex_text 32 n.
Proof.
  pose proof (hex_text_hex 32 n) as H. unfold uuid_text. set (h := hex_text 32 n) in *. cbv zeta.
  rewrite !List.filter_app. cbn [List.filter is_dash Z.eqb Pos.eqb negb app].
  rewrite !hex_kept by auto using Forall_take, Forall_drop.
  assert (E : forall a b, take b (drop a h) ++ drop (a + b) h = drop a h).
  { intros a b. rewrite <- drop_drop. apply take_drop. }
  pose proof (E 16%nat 4%nat) as E1. pose proof (E 12%nat 4%nat) as E2. pose proof (E 8%nat 4%nat) as E3.
  cbn [Nat.add] in E1, E2, E3. rewrite E1, E2, E3. apply take_drop.
Qed.

Lemma int16_hex h : Forall is_hex h -> h <> [] -> int16 h = hex_digits 0 h.
Proof.
  intros H Hne. unfold int16. rewrite strip_none.
  2:{ eapply list.Forall_impl; [exact H|]. unfold is_hex, is_space. intros c Hc. by ztests. }
  destruct h as [|c [|d r]]; [done| |].
  - apply list.Forall_cons in H as [Hc _]. unfold is_hex in Hc.
    destruct (decide (c = 43)) as [->|]; [lia|]. destruct (decide (c = 45)) as [->|]; [lia|].
    destruct c as [|p|p]; try done. by repeat (destruct p as [p|p|]; try done).
  - apply list.Forall_cons in H as [Hc H]. apply list.Forall_cons in H as [Hd _]. unfold is_hex in Hc, Hd.
    assert (Hx : (d =? 120) || (d =? 88) = false) by (by ztests).
    destruct (decide (c = 48)) as [->|]; [by rewrite Hx|].
    destruct (decide (c = 43)) as [->|]; [lia|]. destruct (decide (c = 45)) as [->|]; [lia|].
    destruct c as [|p|p]; try done. by repeat (destruct p as [p|p|]; try done).
Qed.

(** [uuid.UUID(str(u)) = u] *)
Lemma uuid_roundtrip n : 0 <= n < 2 ^ 128 -> uuid_value (uuid_text n) = Some n.
Proof.
  intros Hn. pose proof (uuid_chars n) as C. unfold uuid_value.
  assert (W : forall x p, ~ (is_hex x \/ x = 45) -> without (x :: p) (uuid_text n) = uuid_text n).
  { intros x p Hx. apply without_other. eapply list.Forall_impl; [exact C|]. intros c Hc ->. done. }
  change (u "urn:") with [117; 114; 110; 58]. change (u "uuid:") with [117; 117; 105; 100; 58].
  rewrite !W by (unfold is_hex; lia). rewrite strip_none.
  2:{ eapply list.Forall_impl; [exact C|]. unfold is_hex, is_brace. intros c Hc. by ztests. }
  rewrite uuid_digits. unfold zlen. rewrite hex_text_length. change (Z.of_nat 32 =? 32) with true. cbv iota.
  pose proof (hex_text_hex 32 n) as H. rewrite int16_hex; [|done|].
  2:{ intros E. apply (f_equal length) in E. by rewrite hex_text_length in E. }
  pose proof (hex_text_value 32 n 0) as V. change (16 ^ Z.of_nat 32) with (2 ^ 128) in V.
  rewrite Z.mod_small in V by done.
  pose proof (hex_text_length 32 n) as L. destruct (hex_text 32 n) as [|c l]; [done|].
  rewrite hex_digits_fold by done. rewrite V. by rewrite (proj2 (Z.leb_le _ _)), (proj2 (Z.ltb_lt _ _)) by lia.
Qed.

Example uuid_sample :
  option_map uuid_text (uuid_value (u "{550E8400-e29b-41d4-a716-446655440000}")) =
  Some (u "550e8400-e29b-41d4-a716-446655440000").
Proof. reflexivity. Qed.
