(* ===== verification/Encryption.v ===== *)
(** [EncryptionWrapper] ([src/src/cachekit/serializers/encryption_wrapper.py]): the
    key material of a tenant, the associated data that binds a ciphertext to its
    cache key, encryption and decryption around a serializer: definitions.

    Key derivation, the keyring and the cipher belong to the Rust extension and are
    a parameter. *)
From Stdlib Require Import ZArith Lia.
From stdpp Require Import base list numbers option strings.
From S2P Require Import Prelude PyDict Bytes Effects Json Envelope Serializers.

Local Open Scope Z_scope.
Local Open Scope py_scope.
Local Open Scope eff_scope.

Definition EncryptionErr : exn := SerializationExn EncryptionError.
Definition AuthenticationErr : exn := SerializationExn DecryptionAuthenticationError.

(** [bytes.fromhex]: white space is allowed between the bytes. *)
Fixpoint fromhex (s : pystr) : option pybytes :=
  match s with
  | [] => Some []
  | c :: r =>
      if (c =? 32) || ((9 <=? c) && (c <=? 13)) then fromhex r
      else match r with
           | d :: r' =>
               match hex_value c, hex_value d, fromhex r' with
               | Some a, Some b, Some bs => Some (a * 16 + b :: bs)
               | _, _, _ => None
               end
           | [] => None
           end
  end.

Definition from_hex (s : pystr) : result exn pybytes :=
  match fromhex s with Some b => Ok b | None => Err (PyExn ValueError) end.

(** The classes of [_rust_serializer]: tenant keys [K], keyrings [KR], and the
    state [R] the nonces are drawn from. *)
Record crypto (K KR R : Type) := mkCrypto {
  new_encryptor : result exn unit;
  derive_tenant_keys : pybytes -> pystr -> result exn K;
  encryption_fingerprint : K -> pybytes;
  new_keyring : pybytes -> list pybytes -> result exn KR;
  encryption_fingerprints : KR -> pystr -> result exn (list pybytes);
  encrypt_with_keys : pybytes -> pybytes -> K -> eff R pybytes;
  decrypt_with_keys : pybytes -> pybytes -> K -> result exn pybytes;
  decrypt_at : KR -> nat -> pybytes -> pystr -> pybytes -> result exn pybytes;
  decrypt : KR -> pybytes -> pystr -> pybytes -> result exn pybytes
}.
Arguments new_encryptor {K KR R}.
Arguments derive_tenant_keys {K KR R}.
Arguments encryption_fingerprint {K KR R}.
Arguments new_keyring {K KR R}.
Arguments encryption_fingerprints {K KR R}.
Arguments encrypt_with_keys {K KR R}.
Arguments decrypt_with_keys {K KR R}.
Arguments decrypt_at {K KR R}.
Arguments decrypt {K KR R}.

(** What the wrapper reads of the settings: keys in hexadecimal. *)
Record key_settings := mkKeySettings {
  set_master_key : option pystr;
  set_previous_master_keys : list pystr
}.

Section Encryption.
Context {V K KR R : Type}.
Context (num_truthy : pystr -> bool).
(** [str] of a number, a list or a dictionary. *)
Context (str_of : jval -> pystr).
Context (rust : crypto K KR R).

Record EncryptionWrapper := mkWrapper {
  w_tenant_id : pystr;
  w_serializer : serializer V;
  w_fail_closed : bool;
  w_keyring : KR;
  w_tenant_keys : K;
  w_fingerprint : pystr;
  w_keyring_fingerprints : list pystr
}.

(** ** Construction *)

Definition is_empty {A} (o : option (list A)) : bool :=
  match o with Some (_ :: _) => false | _ => true end.

Definition current_key (settings : key_settings) (master_key : option pybytes) : result exn pybytes :=
  key <-! (match master_key with
           | Some k => Ok k
           | None =>
               match set_master_key settings with
               | Some ((_ :: _) as hex) => recover (from_hex hex) (fun x => Err (if is_value_error x then EncryptionErr else x))
               | _ => Err EncryptionErr
               end
           end) ;
  if zlen key <? 32 then Err EncryptionErr else Ok key.

Definition previous_keys (settings : key_settings) (previous : option (list pybytes)) : result exn (list pybytes) :=
  keys <-! (match previous with
            | Some l => Ok l
            | None => rmap from_hex (set_previous_master_keys settings)
            end) ;
  if forallb (fun k => 32 <=? zlen k) keys then Ok keys else Err (PyExn ValueError).

(** [derive_tenant_keys], relabelled; a tenant that is not a string is refused. *)
Definition tenant_material (key : pybytes) (tenant : jval) : result exn (pystr * K) :=
  match tenant with
  | JStr t => recover (k <-! derive_tenant_keys rust key t ; Ok (t, k)) (fun _ => Err EncryptionErr)
  | _ => Err EncryptionErr
  end.

Definition init (settings : key_settings) (serializer : serializer V) (master_key : option pybytes)
    (tenant : jval) (fail_closed : bool) (previous_master_keys : option (list pybytes))
  : result exn EncryptionWrapper :=
  key <-! current_key settings master_key ;
  previous <-! previous_keys settings previous_master_keys ;
  _ <-! new_encryptor rust ;
  ring <-! new_keyring rust key previous ;
  tk <-! tenant_material key tenant ;
  fps <-! encryption_fingerprints rust ring tk.1 ;
  let fp := hexdigest (encryption_fingerprint rust tk.2) in
  match map hexdigest fps with
  | [] => Err OtherError
  | f :: r =>
      if bool_decide (f <> fp) then Err (PyExn ValueError)
      else Ok (mkWrapper tk.1 serializer fail_closed ring tk.2 fp (f :: r))
  end.

(** ** Associated data *)

(** [str(x)] of a header value. *)
Definition py_str (j : jval) : pystr :=
  match j with
  | JNull => u "None"
  | JBool b => if b then u "True" else u "False"
  | JStr s => s
  | _ => str_of j
  end.

(** [len(c).to_bytes(4, "big") + c] *)
Definition length_prefixed (c : pybytes) : result exn pybytes :=
  if zlen c <? 2 ^ 32 then Ok (be_bytes 4 (zlen c) ++ c) else Err (PyExn OverflowError).

Definition aad_components (tenant : pystr) (m : SerializationMetadata) (cache_key : pystr)
  : result exn (list pybytes) :=
  t <-! py (utf8_encode tenant) ;
  k <-! py (utf8_encode cache_key) ;
  f <-! py (utf8_encode (format_value (format m))) ;
  c <-! py (utf8_encode (py_str (compressed m))) ;
  if truthy num_truthy (original_type m) then
    match original_type m with
    | JStr o => o <-! py (utf8_encode o) ; Ok [t; k; f; c; o]
    | _ => Err OtherError
    end
  else Ok [t; k; f; c].

Definition _create_aad (tenant : pystr) (m : SerializationMetadata) (cache_key : pystr) : result exn pybytes :=
  cs <-! aad_components tenant m cache_key ;
  ps <-! rmap length_prefixed cs ;
  Ok (3 :: concat ps).

Record parsed_aad := mkParsed {
  p_tenant_id : pystr;
  p_cache_key : pystr;
  p_format : pystr;
  p_compressed : pystr;
  p_original_type : option pystr
}.

(** The components behind the version byte. *)
Fixpoint parse_components (fuel : nat) (b : pybytes) : result exn (list pystr) :=
  match fuel, b with
  | _, [] => Ok []
  | O, _ => Err (PyExn ValueError)
  | S f, _ =>
      if zlen b <? 4 then Err (PyExn ValueError)
      else
        let n := be_val (take 4 b) in
        let rest := drop 4 b in
        if zlen rest <? n then Err (PyExn ValueError)
        else match utf8_decode (take (Z.to_nat n) rest) with
             | None => Err (PyExn ValueError)
             | Some c => cs <-! parse_components f (drop (Z.to_nat n) rest) ; Ok (c :: cs)
             end
  end.

Definition _parse_aad (aad : pybytes) : result exn parsed_aad :=
  match aad with
  | [] => Err (PyExn ValueError)
  | v :: b =>
      if negb (v =? 3) then Err (PyExn ValueError)
      else
        cs <-! parse_components (length b) b ;
        let item i := match cs !! i with Some c => c | None => [] end in
        Ok (mkParsed (item 0%nat) (item 1%nat) (item 2%nat) (item 3%nat) (cs !! 4%nat))
  end.

(** ** Writing *)

Definition serialize (w : EncryptionWrapper) (obj : V) (cache_key : pystr)
  : eff R (pybytes * SerializationMetadata) :=
  if bool_decide (cache_key = []) then throw (PyExn ValueError)
  else
    raw <~ lift (relabel (fun x => negb (is_value_error x)) (s_serialize (w_serializer w) obj)) ;;
    trying
      (let (raw_data, raw_metadata) := raw in
       aad <~ lift (_create_aad (w_tenant_id w) raw_metadata cache_key) ;;
       encrypted_data <~ encrypt_with_keys rust raw_data aad (w_tenant_keys w) ;;
       ret (encrypted_data,
            mkMetadata (format raw_metadata) (encoding raw_metadata) (compressed raw_metadata)
              (original_type raw_metadata) (JBool true) (JStr (w_tenant_id w))
              (JStr (u "AES-256-GCM")) (JStr (w_fingerprint w))))
      (fun _ => throw EncryptionErr).

(** ** Reading *)

(** [l.index(x)] *)
Fixpoint index_of (x : jval) (l : list pystr) : option nat :=
  match l with
  | [] => None
  | s :: r =>
      if match x with JStr t => bool_decide (t = s) | _ => false end then Some 0%nat
      else match index_of x r with Some i => Some (S i) | None => None end
  end.

(** [x[:12] if x else "unknown"], for its errors only. *)
Definition abbreviated (fp : jval) : result exn unit :=
  if truthy num_truthy fp then
    match fp with JStr _ | JArr _ => Ok tt | _ => Err (PyExn TypeError) end
  else Ok tt.

Definition inner_metadata (m : SerializationMetadata) : SerializationMetadata :=
  mkMetadata (format m) (encoding m) (compressed m) (original_type m) (JBool false) JNull JNull JNull.

(** [except KeyringConfigurationError: raise; except Exception: raise
    DecryptionAuthenticationError] around the cipher, then the serializer on the
    authenticated bytes. *)
Definition opened (w : EncryptionWrapper) (m : SerializationMetadata) (decrypted : result exn pybytes) : result exn V :=
  data <-! recover decrypted
             (fun x => Err (match x with KeyringConfigurationError => x | _ => AuthenticationErr end)) ;
  recover (s_deserialize (w_serializer w) data (inner_metadata m)) (fun _ => Err EncryptionErr).

Definition deserialize (w : EncryptionWrapper) (data : pybytes) (m : SerializationMetadata) (cache_key : pystr)
  : result exn V :=
  if negb (truthy num_truthy (encrypted m)) then Err AuthenticationErr
  else if bool_decide (cache_key = []) then Err (PyExn ValueError)
  else if match tenant_id m with JStr t => bool_decide (t <> w_tenant_id w) | _ => true end
  then Err AuthenticationErr
  else
    let keyring_index := index_of (key_fingerprint m) (w_keyring_fingerprints w) in
    _ <-! (match keyring_index with
           | Some _ => Ok tt
           | None => _ <-! abbreviated (key_fingerprint m) ;
                     if w_fail_closed w then Err AuthenticationErr else Ok tt
           end) ;
    opened w m
      (aad <-! _create_aad (w_tenant_id w) (inner_metadata m) cache_key ;
       match keyring_index with
       | Some ((S _) as i) => decrypt_at rust (w_keyring w) i data (w_tenant_id w) aad
       | _ => decrypt_with_keys rust data aad (w_tenant_keys w)
       end).

(** Without a stored fingerprint the keys are tried in order. *)
Definition deserialize_without_key_identity (w : EncryptionWrapper) (data : pybytes)
    (m : SerializationMetadata) (cache_key : pystr) : result exn V :=
  if bool_decide (cache_key = []) then Err (PyExn ValueError)
  else
    opened w m
      (aad <-! _create_aad (w_tenant_id w) (inner_metadata m) cache_key ;
       if (length (w_keyring_fingerprints w) =? 1)%nat
       then decrypt_with_keys rust data aad (w_tenant_keys w)
       else decrypt rust (w_keyring w) data (w_tenant_id w) aad).

End Encryption.
Arguments EncryptionWrapper V K KR : clear implicits.
