(* ===== verification/Configuration.v ===== *)
(** The decorator's configuration ([src/src/cachekit/config/nested.py],
    [config/decorator.py], [config/validation.py]): the nested groups and their
    validation, the presets, the resolution of the backend. *)
From Stdlib Require Import ZArith Lia SpecFloat.
From stdpp Require Import base list numbers option strings.
From S2P Require Import Prelude PyFloat PyValue Interop Effects Encryption.

Local Open Scope Z_scope.
Local Open Scope py_scope.

(** ** Numbers given where the annotation says [int] *)

Inductive num := NInt (z : Z) | NFloat (f : float).

(** [float(z)] *)
Definition to_float (z : Z) : result exn float :=
  if isfinite (fofZ z) then Ok (fofZ z) else Err (PyExn OverflowError).

(** [math.isfinite(n)] *)
Definition num_isfinite (n : num) : result exn bool :=
  match n with NInt z => f <-! to_float z ; Ok (isfinite f) | NFloat f => Ok (isfinite f) end.

Definition num_ltZ (n : num) (z : Z) : bool := match n with NInt m => m <? z | NFloat f => fltZ f z end.
Definition num_leZ (n : num) (z : Z) : bool := match n with NInt m => m <=? z | NFloat f => fleZ f z end.
Definition num_gtZ (n : num) (z : Z) : bool := match n with NInt m => z <? m | NFloat f => fgtZ f z end.

(** [n + z] and [z - n] *)
Definition num_addZ (n : num) (z : Z) : result exn num :=
  match n with
  | NInt m => Ok (NInt (m + z))
  | NFloat f => g <-! to_float z ; Ok (NFloat (fadd f g))
  end.
Definition num_subZ (z : Z) (n : num) : result exn num :=
  match n with
  | NInt m => Ok (NInt (z - m))
  | NFloat f => g <-! to_float z ; Ok (NFloat (fsub g f))
  end.

(** [a < b] on two numbers of one kind. *)
Definition num_lt (a b : num) : bool :=
  match a, b with
  | NInt m, NInt n => m <? n
  | NFloat f, NInt n => fltZ f n
  | NInt m, NFloat g => fgtZ g m
  | NFloat f, NFloat g => flt f g
  end.

(** [raise ConfigurationError] unless [b]. *)
Definition require (b : bool) : result exn unit := if b then Ok tt else Err Effects.ConfigurationError.

(** [bool(s)] of an optional string. *)
Definition given (s : option pystr) : bool := match s with None | Some [] => false | _ => true end.

(** ** Nested groups *)

Record L1CacheConfig := mkL1Config {
  l1_enabled : bool;
  max_size_mb : option Z;
  swr_enabled : bool;
  swr_threshold_ratio : float
}.

Definition one_half : float := S754_finite false 4503599627370496 (-53).

Definition default_l1 : L1CacheConfig := mkL1Config true None true one_half.

Definition validate_l1 (c : L1CacheConfig) : result exn unit :=
  _ <-! require (match max_size_mb c with Some m => 1 <=? m | None => true end) ;
  require (fgtZ (swr_threshold_ratio c) 0 && fleZ (swr_threshold_ratio c) 1).

Record CircuitBreakerConfig := mkBreakerConfig {
  breaker_enabled : bool;
  failure_threshold : Z;
  success_threshold : Z;
  recovery_timeout : Z;
  half_open_requests : Z;
  excluded_exceptions : list pystr
}.

Definition default_breaker : CircuitBreakerConfig := mkBreakerConfig true 5 3 30 3 [].

Definition validate_breaker (c : CircuitBreakerConfig) : result exn unit :=
  _ <-! require (1 <=? failure_threshold c) ;
  _ <-! require (1 <=? success_threshold c) ;
  require (1 <=? half_open_requests c).

Record BackpressureConfig := mkBackpressureConfig {
  backpressure_enabled : bool;
  max_concurrent_requests : Z;
  queue_size : Z;
  timeout : float
}.

(** [timeout] is 0.1. *)
Definition default_backpressure : BackpressureConfig :=
  mkBackpressureConfig true 100 1000 (S754_finite false 7205759403792794 (-56)).

Definition validate_backpressure (c : BackpressureConfig) : result exn unit :=
  require (1 <=? max_concurrent_requests c).

Record MonitoringConfig := mkMonitoringConfig {
  collect_stats : bool;
  enable_tracing : bool;
  enable_structured_logging : bool;
  enable_prometheus_metrics : bool
}.

Definition default_monitoring : MonitoringConfig := mkMonitoringConfig true true true true.

Section Configuration.
(** Backends, key functions, tenant extractors, serializers. *)
Context {B K X S : Type}.

Record EncryptionConfig := mkEncryptionConfig {
  enc_enabled : option bool;
  enc_master_key : option pystr;
  tenant_extractor : option X;
  single_tenant_mode : bool;
  deployment_uuid : option pystr;
  fail_closed : option bool
}.

Definition default_encryption : EncryptionConfig := mkEncryptionConfig None None None false None None.

(** [get_settings().master_key], as text. *)
Context (settings_key : option pystr).

Definition _resolve_master_key (c : EncryptionConfig) : option pystr :=
  if given (enc_master_key c) then enc_master_key c
  else if given settings_key then settings_key else None.

Definition validate_encryption (c : EncryptionConfig) : result exn unit :=
  match enc_enabled c with
  | Some true =>
      _ <-! require (given (_resolve_master_key c)) ;
      _ <-! require (bool_decide (is_Some (tenant_extractor c)) || single_tenant_mode c) ;
      require (negb (bool_decide (is_Some (tenant_extractor c)) && single_tenant_mode c))
  | _ => Ok tt
  end.

(** [validate_encryption_config(encryption, master_key)] *)
Definition validate_encryption_config (encryption : option bool) (master_key : option pystr) : result exn unit :=
  match encryption with
  | Some true =>
      match (if given master_key then master_key else if given settings_key then settings_key else None) with
      | None => Err Effects.ConfigurationError
      | Some key =>
          match fromhex key with
          | None => Err Effects.ConfigurationError
          | Some key_bytes => require (32 <=? zlen key_bytes)
          end
      end
  | _ => Ok tt
  end.

(** ** [DecoratorConfig] *)

(** [stale_ttl] as it is given. *)
Inductive stale_value := StaleBool (b : bool) | StaleInt (z : Z) | StaleOther.

Record DecoratorConfig := mkConfig {
  ttl : option num;
  stale_ttl : option stale_value;
  swr_by_default : bool;
  namespace : option pystr;
  serializer : S;
  integrity_checking : bool;
  key : option K;
  interop : option pystr;
  refresh_ttl_on_get : bool;
  ttl_refresh_threshold : float;
  backend : option B;
  l1 : L1CacheConfig;
  circuit_breaker : CircuitBreakerConfig;
  backpressure : BackpressureConfig;
  monitoring : MonitoringConfig;
  (* a configuration, or the bare flag of a caller who passed one *)
  encryption : option bool + EncryptionConfig
}.

Definition text (s : option pystr) : pyval := match s with Some s => PStr s | None => PNone end.

(** [validate_interop_config] with [InteropError] as a [ConfigurationError]. *)
Definition checked_interop (operation namespace : option pystr) (has_key : bool) : result exn unit :=
  match operation with
  | None => Ok tt
  | Some _ =>
      match validate_interop_config (text operation) (text namespace) has_key with
      | Ok _ => Ok tt
      | Err _ => Err Effects.ConfigurationError
      end
  end.

Definition validate_ttl (t : option num) : result exn unit :=
  match t with
  | None => Ok tt
  | Some n =>
      finite <-! num_isfinite n ;
      if negb finite then Err (PyExn ValueError)
      else if num_ltZ n 0 then Err (PyExn ValueError) else Ok tt
  end.

Definition _validate_config (c : DecoratorConfig) : result exn unit :=
  _ <-! validate_ttl (ttl c) ;
  _ <-! require (fgeZ (ttl_refresh_threshold c) 0 && fleZ (ttl_refresh_threshold c) 1) ;
  _ <-! checked_interop (interop c) (namespace c) (bool_decide (is_Some (key c))) ;
  _ <-! validate_l1 (l1 c) ;
  _ <-! validate_breaker (circuit_breaker c) ;
  _ <-! validate_backpressure (backpressure c) ;
  match encryption c with inl _ => Err AttributeError | inr e => validate_encryption e end.

(** A keyword argument of [cache] or [DecoratorConfig]. *)
Inductive kwarg :=
  | kw_ttl (v : option num)
  | kw_stale_ttl (v : option stale_value)
  | kw_swr_by_default (b : bool)
  | kw_namespace (v : option pystr)
  | kw_serializer (s : S)
  | kw_integrity_checking (b : bool)
  | kw_key (v : option K)
  | kw_interop (v : option pystr)
  | kw_refresh_ttl_on_get (b : bool)
  | kw_ttl_refresh_threshold (f : float)
  | kw_backend (v : option B)
  | kw_l1 (c : L1CacheConfig)
  | kw_circuit_breaker (c : CircuitBreakerConfig)
  | kw_backpressure (c : BackpressureConfig)
  | kw_monitoring (c : MonitoringConfig)
  | kw_encryption (v : option bool + EncryptionConfig)
  | kw_l1_enabled (b : bool)
  | kw_master_key (v : option pystr)
  | kw_tenant_extractor (v : option X)
  | kw_single_tenant_mode (v : option bool)
  | kw_deployment_uuid (v : option pystr)
  | kw_fail_closed (v : option bool)
  | kw_other (name : pystr).

(** The field a keyword sets, if there is one. *)
Definition assign (c : DecoratorConfig) (k : kwarg) : option DecoratorConfig :=
  match k with
  | kw_ttl v => Some (mkConfig v (stale_ttl c) (swr_by_default c) (namespace c) (serializer c) (integrity_checking
      c) (key c) (interop c) (refresh_ttl_on_get c) (ttl_refresh_threshold c) (backend c) (l1 c)
      (circuit_breaker c) (backpressure c) (monitoring c) (encryption c))
  | kw_stale_ttl v => Some (mkConfig (ttl c) v (swr_by_default c) (namespace c) (serializer c) (integrity_checking
      c) (key c) (interop c) (refresh_ttl_on_get c) (ttl_refresh_threshold c) (backend c) (l1 c)
      (circuit_breaker c) (backpressure c) (monitoring c) (encryption c))
  | kw_swr_by_default b => Some (mkConfig (ttl c) (stale_ttl c) b (namespace c) (serializer c) (integrity_checking
      c) (key c) (interop c) (refresh_ttl_on_get c) (ttl_refresh_threshold c) (backend c) (l1 c)
      (circuit_breaker c) (backpressure c) (monitoring c) (encryption c))
  | kw_namespace v => Some (mkConfig (ttl c) (stale_ttl c) (swr_by_default c) v (serializer c) (integrity_checking
      c) (key c) (interop c) (refresh_ttl_on_get c) (ttl_refresh_threshold c) (backend c) (l1 c)
      (circuit_breaker c) (backpressure c) (monitoring c) (encryption c))
  | kw_serializer s => Some (mkConfig (ttl c) (stale_ttl c) (swr_by_default c) (namespace c) s (integrity_checking
      c) (key c) (interop c) (refresh_ttl_on_get c) (ttl_refresh_threshold c) (backend c) (l1 c)
      (circuit_breaker c) (backpressure c) (monitoring c) (encryption c))
  | kw_integrity_checking b => Some (mkConfig (ttl c) (stale_ttl c) (swr_by_default c) (namespace c) (serializer
      c) b (key c) (interop c) (refresh_ttl_on_get c) (ttl_refresh_threshold c) (backend c) (l1 c)
      (circuit_breaker c) (backpressure c) (monitoring c) (encryption c))
  | kw_key v => Some (mkConfig (ttl c) (stale_ttl c) (swr_by_default c) (namespace c) (serializer c)
      (integrity_checking c) v (interop c) (refresh_ttl_on_get c) (ttl_refresh_threshold c) (backend c) (l1 c)
      (circuit_breaker c) (backpressure c) (monitoring c) (encryption c))
  | kw_interop v => Some (mkConfig (ttl c) (stale_ttl c) (swr_by_default c) (namespace c) (serializer c)
      (integrity_checking c) (key c) v (refresh_ttl_on_get c) (ttl_refresh_threshold c) (backend c) (l1 c)
      (circuit_breaker c) (backpressure c) (monitoring c) (encryption c))
  | kw_refresh_ttl_on_get b => Some (mkConfig (ttl c) (stale_ttl c) (swr_by_default c) (namespace c) (serializer
      c) (integrity_checking c) (key c) (interop c) b (ttl_refresh_threshold c) (backend c) (l1 c)
      (circuit_breaker c) (backpressure c) (monitoring c) (encryption c))
  | kw_ttl_refresh_threshold v => Some (mkConfig (ttl c) (stale_ttl c) (swr_by_default c) (namespace c)
      (serializer c) (integrity_checking c) (key c) (interop c) (refresh_ttl_on_get c) v (backend c) (l1 c)
      (circuit_breaker c) (backpressure c) (monitoring c) (encryption c))
  | kw_backend v => Some (mkConfig (ttl c) (stale_ttl c) (swr_by_default c) (namespace c) (serializer c)
      (integrity_checking c) (key c) (interop c) (refresh_ttl_on_get c) (ttl_refresh_threshold c) v (l1 c)
      (circuit_breaker c) (backpressure c) (monitoring c) (encryption c))
  | kw_l1 v => Some (mkConfig (ttl c) (stale_ttl c) (swr_by_default c) (namespace c) (serializer c)
      (integrity_checking c) (key c) (interop c) (refresh_ttl_on_get c) (ttl_refresh_threshold c) (backend c) v
      (circuit_breaker c) (backpressure c) (monitoring c) (encryption c))
  | kw_circuit_breaker v => Some (mkConfig (ttl c) (stale_ttl c) (swr_by_default c) (namespace c) (serializer c)
      (integrity_checking c) (key c) (interop c) (refresh_ttl_on_get c) (ttl_refresh_threshold c) (backend c)
      (l1 c) v (backpressure c) (monitoring c) (encryption c))
  | kw_backpressure v => Some (mkConfig (ttl c) (stale_ttl c) (swr_by_default c) (namespace c) (serializer c)
      (integrity_checking c) (key c) (interop c) (refresh_ttl_on_get c) (ttl_refresh_threshold c) (backend c)
      (l1 c) (circuit_breaker c) v (monitoring c) (encryption c))
  | kw_monitoring v => Some (mkConfig (ttl c) (stale_ttl c) (swr_by_default c) (namespace c) (serializer c)
      (integrity_checking c) (key c) (interop c) (refresh_ttl_on_get c) (ttl_refresh_threshold c) (backend c)
      (l1 c) (circuit_breaker c) (backpressure c) v (encryption c))
  | kw_encryption v => Some (mkConfig (ttl c) (stale_ttl c) (swr_by_default c) (namespace c) (serializer c)
      (integrity_checking c) (key c) (interop c) (refresh_ttl_on_get c) (ttl_refresh_threshold c) (backend c)
      (l1 c) (circuit_breaker c) (backpressure c) (monitoring c) v)
  | _ => None
  end.

(** The constructor, and [dataclasses.replace]: every keyword must name a field;
    the result is validated. *)
Definition construct (base : DecoratorConfig) (kws : list kwarg) : result exn DecoratorConfig :=
  match foldl (fun c k => match c with Some c => assign c k | None => None end) (Some base) kws with
  | None => Err (PyExn TypeError)
  | Some c => _ <-! _validate_config c ; Ok c
  end.

(** ** Presets *)

Context (default_serializer : S).

Definition defaults : DecoratorConfig :=
  mkConfig None None false None default_serializer true None None false one_half None
    default_l1 default_breaker default_backpressure default_monitoring (inr default_encryption).

(** The keywords every preset passes itself: one given twice is refused. *)
Definition preset_keyword (k : kwarg) : bool :=
  match k with
  | kw_integrity_checking _ | kw_l1 _ | kw_circuit_breaker _ | kw_backpressure _ | kw_monitoring _ => true
  | _ => false
  end.

Definition preset (own : list kwarg) (also : kwarg -> bool) (kwargs : list kwarg) : result exn DecoratorConfig :=
  if existsb (fun k => preset_keyword k || also k) kwargs then Err (PyExn TypeError)
  else construct defaults (own ++ kwargs).

(** [CircuitBreakerConfig(enabled=b)] and the like. *)
Definition breaker (b : bool) : CircuitBreakerConfig := mkBreakerConfig b 5 3 30 3 [].
Definition pressure (b : bool) : BackpressureConfig :=
  mkBackpressureConfig b 100 1000 (timeout default_backpressure).
Definition l1_swr (b : bool) : L1CacheConfig := mkL1Config true None b (swr_threshold_ratio default_l1).
Definition observed (prometheus b : bool) : MonitoringConfig := mkMonitoringConfig b b b prometheus.

Definition profile (integrity swr circuit pressured monitored prometheus : bool) : list kwarg :=
  [kw_integrity_checking integrity; kw_l1 (l1_swr swr); kw_circuit_breaker (breaker circuit);
   kw_backpressure (pressure pressured); kw_monitoring (observed prometheus monitored)].

Definition minimal : list kwarg -> result exn DecoratorConfig :=
  preset (profile false false false true false false) (fun _ => false).
Definition production : list kwarg -> result exn DecoratorConfig :=
  preset (profile true true true true true true) (fun _ => false).
Definition dev : list kwarg -> result exn DecoratorConfig :=
  preset (profile true true true true true false) (fun _ => false).
Definition test : list kwarg -> result exn DecoratorConfig :=
  preset (profile false false false false false false) (fun _ => false).

(** [kwargs.pop(name, None)], by what the keyword carries. *)
Definition take_kw {A} (f : kwarg -> option A) (kws : list kwarg) : option A * list kwarg :=
  (head (omap f kws), List.filter (fun k => match f k with Some _ => false | None => true end) kws).

Definition as_single_tenant_mode (k : kwarg) := match k with kw_single_tenant_mode v => Some v | _ => None end.
Definition as_deployment_uuid (k : kwarg) := match k with kw_deployment_uuid v => Some v | _ => None end.
Definition as_fail_closed (k : kwarg) := match k with kw_fail_closed v => Some v | _ => None end.
Definition as_integrity_checking (k : kwarg) := match k with kw_integrity_checking b => Some b | _ => None end.

Definition secure (master_key : option pystr) (extractor : option X) (kwargs : list kwarg)
  : result exn DecoratorConfig :=
  let (explicit_single_tenant, kwargs) := take_kw as_single_tenant_mode kwargs in
  let (uuid, kwargs) := take_kw as_deployment_uuid kwargs in
  let (closed, kwargs) := take_kw as_fail_closed kwargs in
  let (_, kwargs) := take_kw as_integrity_checking kwargs in
  let single := match mjoin explicit_single_tenant with
    | Some b => b
    | None => bool_decide (extractor = None)
    end in
  preset
    (profile true true true true true true ++
     [kw_encryption (inr (mkEncryptionConfig (Some true) master_key extractor single (mjoin uuid) (mjoin closed)))])
    (fun k => match k with kw_encryption _ => true | _ => false end) kwargs.

(** [CACHEKIT_API_KEY] is set; what [CachekitIOBackend()] does. *)
Definition io (api_key : bool) (new_backend : result exn B) (kwargs : list kwarg) : result exn DecoratorConfig :=
  if negb api_key then Err Effects.ConfigurationError
  else
    b <-! new_backend ;
    preset (profile true true true true true true ++ [kw_backend (Some b); kw_swr_by_default true])
      (fun k => match k with kw_backend _ | kw_swr_by_default _ => true | _ => false end) kwargs.

(** ** The backend *)

(** [set_default_backend], [get_default_backend]: the module's default is the state. *)
Definition set_default_backend (b : option B) : eff (option B) unit := fun _ => (Ok tt, b).
Definition get_default_backend : eff (option B) (option B) := fun s => (Ok s, s).

(** [_resolve_backend]: given, else the module's default, else from the
    environment ([RedisBackend()], when a URL is set). *)
Definition _resolve_backend (explicit : option (option B)) (default_backend : option B)
    (redis_url : bool) (new_redis : result exn B) : result exn (option B) :=
  match explicit, default_backend with
  | Some b, _ => Ok b
  | None, Some b => Ok (Some b)
  | None, None => if redis_url then b <-! new_redis ; Ok (Some b) else Err Effects.ConfigurationError
  end.

End Configuration.
Arguments EncryptionConfig : clear implicits.
Arguments DecoratorConfig : clear implicits.
Arguments kwarg : clear implicits.
