(* ===== verification/MetricsStore.v ===== *)
(** The fallback metrics ([src/src/cachekit/reliability/metrics_collection.py]): the
    module's store of counters and gauges by name and labels, the collector with a
    queue and a worker thread over it, the global collector and the registry.

    A call is one step, an iteration of the worker another; [now] is the reading of
    the clock a call makes.  Values are numbers as Python has them ([num]). *)
From Stdlib Require Import ZArith Lia SpecFloat.
From stdpp Require Import base list numbers option strings gmap sorting.
From S2P Require Import Prelude PyFloat PyDict PyValue Errors Effects Configuration.

Local Open Scope Z_scope.
Local Open Scope py_scope.

(** ** Labels *)

Abbreviation labels := (list (pystr * pystr)) (only parsing).

(** [{**first, **over}] *)
Definition merged (first over : labels) : labels := foldl (fun d kv => od_set kv.1 kv.2 d) first over.

(** The order of pairs of strings. *)
Definition item_le (a b : pystr * pystr) : Prop := if decide (a.1 = b.1) then lex_le a.2 b.2 else lex_le a.1 b.1.
#[export] Instance item_le_dec a b : Decision (item_le a b).
Proof. unfold item_le. case_decide; apply _. Defined.

Definition label_text (kv : pystr * pystr) : pystr := kv.1 ++ u "=" ++ kv.2.

Definition _make_key (l : labels) : pystr :=
  match l with
  | [] => u "default"
  | _ => join (u "|") (map label_text (merge_sort item_le l))
  end.

(** ** The store *)

Abbreviation table := (list (pystr * list (pystr * num))) (only parsing).

Record store := mkStore {
  _metrics_data : table;
  _metrics_timestamps : list (pystr * float)
}.

(** [d[name]] of a [defaultdict]: a missing entry is made. *)
Definition inner (name : pystr) (d : table) : list (pystr * num) := default [] (od_get name d).
Definition put (name key : pystr) (v : num) (d : table) : table := od_set name (od_set key v (inner name d)) d.

Definition zero : num := NFloat (fofZ 0).

Definition stamp (name key : pystr) (now : float) (s : store) : store :=
  mkStore (_metrics_data s) (od_set (name ++ u ":" ++ key) now (_metrics_timestamps s)).

(** [d[name][key] += 1] *)
Definition plus_one (n : num) : num := match n with NInt z => NInt (z + 1) | NFloat x => NFloat (fadd x (fofZ 1)) end.

Record MetricsCollector := mkCollector { name : pystr; _labels : labels }.

Definition collector (name : pystr) : MetricsCollector := mkCollector name [].

(** [labels] with its keywords; the method's own parameter is called [self]. *)
Definition labels_of (c : MetricsCollector) (kwargs : labels) : result exn MetricsCollector :=
  if od_mem (u "self") kwargs then Err (PyExn TypeError) else Ok (mkCollector (name c) kwargs).

Definition key_of (c : MetricsCollector) (l : labels) : pystr := _make_key (merged (_labels c) l).

Definition inc (c : MetricsCollector) (l : labels) (now : float) (s : store) : store :=
  let key := key_of c l in
  stamp (name c) key now
    (mkStore (put (name c) key (plus_one (default zero (od_get key (inner (name c) (_metrics_data s))))) (_metrics_data s))
       (_metrics_timestamps s)).

Definition set (c : MetricsCollector) (value : num) (l : labels) (now : float) (s : store) : store :=
  let key := key_of c l in
  stamp (name c) key now (mkStore (put (name c) key value (_metrics_data s)) (_metrics_timestamps s)).

Definition observe (c : MetricsCollector) (value : num) (l : labels) (now : float) (s : store) : store := set c value l now s.

(** Reading makes the entry of the name, too. *)
Definition get (c : MetricsCollector) (l : labels) (s : store) : num * store :=
  (default (NInt 0) (od_get (key_of c l) (inner (name c) (_metrics_data s))),
   mkStore (if od_mem (name c) (_metrics_data s) then _metrics_data s else od_set (name c) [] (_metrics_data s))
     (_metrics_timestamps s)).

Definition cache_operations : MetricsCollector := collector (u "cache_operations_total").
Definition cache_latency : MetricsCollector := collector (u "cache_operation_duration_seconds").
Definition circuit_breaker_state : MetricsCollector := collector (u "circuit_breaker_state").

(** ** The collector with a worker *)

Inductive metric_type := TCounter | THistogram | TGauge.

Record metric_data := mkMetric {
  m_type : metric_type;
  m_name : pystr;
  m_value : num;
  m_labels : labels
}.

(** What processing a metric changes: the local metrics and the module's store. *)
Record tables := mkTables { _metrics : table; the_store : store }.

(** [bool(value)] *)
Definition truthy_num (n : num) : bool :=
  match n with NInt z => negb (z =? 0) | NFloat (S754_zero _) => false | NFloat _ => true end.

(** [_try_prometheus_metric]: the value of a counter is passed to [inc] as its
    labels, so that a true one is a [TypeError], which is caught. *)
Definition _try_prometheus_metric (m : metric_data) (now : float) (s : store) : bool * store :=
  if bool_decide (m_name m = u "redis_cache_operations_total") then
    match labels_of cache_operations (m_labels m) with
    | Ok c => if truthy_num (m_value m) then (false, s) else (true, inc c [] now s)
    | Err _ => (false, s)
    end
  else if bool_decide (m_name m = u "redis_cache_operation_duration_seconds") then
    match labels_of cache_latency (m_labels m) with
    | Ok c => (true, observe c (m_value m) [] now s)
    | Err _ => (false, s)
    end
  else if bool_decide (m_name m = u "redis_circuit_breaker_state") then
    match labels_of circuit_breaker_state (m_labels m) with
    | Ok c => (true, set c (m_value m) [] now s)
    | Err _ => (false, s)
    end
  else (false, s).

(** [a + b] *)
Definition num_add (a b : num) : result exn num :=
  match a, b with
  | NInt x, _ => num_addZ b x
  | NFloat _, NInt y => num_addZ a y
  | NFloat x, NFloat y => Ok (NFloat (fadd x y))
  end.

(** [self._metrics[name][key] += value]; the entry is made before the addition. *)
Definition add_local (name key : pystr) (value : num) (d : table) : table :=
  let old := default zero (od_get key (inner name d)) in
  match num_add old value with
  | Ok v => put name key v d
  | Err _ => put name key old d
  end.

Definition _process_metric (m : metric_data) (now : float) (t : tables) : tables :=
  let (recorded, s) := _try_prometheus_metric m now (the_store t) in
  if recorded then mkTables (_metrics t) s
  else
    let key := _make_key (m_labels m) in
    mkTables
      (match m_type m with
       | TCounter => add_local (m_name m) key (m_value m) (_metrics t)
       | THistogram | TGauge => put (m_name m) key (m_value m) (_metrics t)
       end) s.

Record AsyncMetricsCollector := mkAsync {
  _tables : tables;
  _metric_queue : list metric_data;
  _shutdown_event : bool;
  (* [_worker_thread.is_alive()] *)
  worker_alive : bool;
  processed_count : Z;
  dropped_count : Z;
  queue_size : Z
}.

Definition _start_worker (c : AsyncMetricsCollector) : AsyncMetricsCollector :=
  if worker_alive c then c
  else mkAsync (_tables c) (_metric_queue c) false true (processed_count c) (dropped_count c) (queue_size c).

Definition init (s : store) : AsyncMetricsCollector :=
  _start_worker (mkAsync (mkTables [] s) [] false false 0 0 0).

(** One iteration of [_worker_loop]: an empty queue is waited for and the event looked
    at again. *)
Definition _worker_loop (now : float) (c : AsyncMetricsCollector) : AsyncMetricsCollector :=
  if negb (worker_alive c) then c
  else if _shutdown_event c
  then mkAsync (_tables c) (_metric_queue c) true false (processed_count c) (dropped_count c) (queue_size c)
  else
    match _metric_queue c with
    | [] => c
    | m :: q =>
        mkAsync (_process_metric m now (_tables c)) q false true (processed_count c + 1) (dropped_count c) (zlen q)
    end.

Section Collector.
Context (max_queue_size : Z).

(** [queue.Queue(maxsize)]: none of zero or less is ever full. *)
Definition full (q : list metric_data) : bool := (0 <? max_queue_size) && (max_queue_size <=? zlen q).

Definition _enqueue_metric (m : metric_data) (c : AsyncMetricsCollector) : AsyncMetricsCollector :=
  if full (_metric_queue c)
  then mkAsync (_tables c) (_metric_queue c) (_shutdown_event c) (worker_alive c) (processed_count c) (dropped_count c + 1) (queue_size c)
  else mkAsync (_tables c) (_metric_queue c ++ [m]) (_shutdown_event c) (worker_alive c) (processed_count c) (dropped_count c)
         (zlen (_metric_queue c ++ [m])).

Definition record_counter (name : pystr) (l : option labels) (value : num) : AsyncMetricsCollector -> AsyncMetricsCollector :=
  _enqueue_metric (mkMetric TCounter name value (default [] l)).
Definition record_histogram (name : pystr) (value : num) (l : option labels) : AsyncMetricsCollector -> AsyncMetricsCollector :=
  _enqueue_metric (mkMetric THistogram name value (default [] l)).
Definition record_gauge (name : pystr) (value : num) (l : option labels) : AsyncMetricsCollector -> AsyncMetricsCollector :=
  _enqueue_metric (mkMetric TGauge name value (default [] l)).
Definition record_operation (operation : pystr) (duration : num) (l : option labels) : AsyncMetricsCollector -> AsyncMetricsCollector :=
  record_histogram (operation ++ u "_duration") duration l.

(** The counts, the length of the queue and the local metrics. *)
Definition get_stats (c : AsyncMetricsCollector) : Z * Z * Z * table :=
  (processed_count c, dropped_count c, zlen (_metric_queue c), _metrics (_tables c)).

Definition clear (c : AsyncMetricsCollector) : AsyncMetricsCollector :=
  mkAsync (mkTables [] (the_store (_tables c))) (_metric_queue c) (_shutdown_event c) (worker_alive c) 0 0 (queue_size c).

(** Without the wait for the thread to end. *)
Definition shutdown (c : AsyncMetricsCollector) : AsyncMetricsCollector :=
  if _shutdown_event c then c
  else mkAsync (_tables c) (_metric_queue c) true (worker_alive c) (processed_count c) (dropped_count c) (queue_size c).

(** [get_async_metrics_collector()], over the global instance. *)
Definition get_async_metrics_collector (s : store) (g : option AsyncMetricsCollector) : AsyncMetricsCollector :=
  match g with
  | None => init s
  | Some c => if worker_alive c then c else _start_worker c
  end.

(** *** Runs *)

Inductive event := Record_ (m : metric_data) | Work (now : float) | Shutdown | Get | Clear.

Definition step (e : event) (c : AsyncMetricsCollector) : AsyncMetricsCollector :=
  match e with
  | Record_ m => _enqueue_metric m c
  | Work now => _worker_loop now c
  | Shutdown => shutdown c
  | Get => get_async_metrics_collector (the_store (_tables c)) (Some c)
  | Clear => clear c
  end.

Definition run (es : list event) (c : AsyncMetricsCollector) : AsyncMetricsCollector := foldl (fun c e => step e c) c es.
End Collector.

(** ** The registry *)

Section Registry.
(** Metrics of [prometheus_client], made over [W]. *)
Context {H W : Type}.

Inductive registered := Made (h : H) | Fallback (c : MetricsCollector).

Definition get_or_create_metric (make : eff W H) (metric : pystr) : eff (list (pystr * registered) * W) registered := fun rw =>
  let (registry, w) := rw in
  match od_get metric registry with
  | Some h => (Ok h, (registry, w))
  | None =>
      let (r, w) := make w in
      let h := match r with Ok h => Made h | Err _ => Fallback (collector metric) end in
      (Ok h, (od_set metric h registry, w))
  end.
End Registry.

(** ** Keys of labels *)

#[export] Instance item_le_total : Total item_le.
Proof.
  intros a b. unfold item_le. destruct (decide (a.1 = b.1)) as [E|N].
  - rewrite E, decide_True by done. apply lex_le_total.
  - rewrite (decide_False (P := b.1 = a.1)) by congruence. apply lex_le_total.
Qed.

#[export] Instance item_le_trans : Transitive item_le.
Proof.
  intros [a1 a2] [b1 b2] [c1 c2]. unfold item_le. cbn. intros H1 H2.
  destruct (decide (a1 = c1)) as [->|N].
  - destruct (decide (c1 = b1)) as [->|N1].
    + rewrite decide_True in H2 by done. by etrans.
    + rewrite decide_False in H2 by congruence. by destruct N1; apply (anti_symm lex_le).
  - destruct (decide (a1 = b1)) as [->|N1]; [by rewrite decide_False in H2|].
    destruct (decide (b1 = c1)) as [<-|N2]; [done|by etrans].
Qed.

#[export] Instance item_le_antisymm : AntiSymm (=) item_le.
Proof.
  intros [a1 a2] [b1 b2]. unfold item_le. cbn. destruct (decide (a1 = b1)) as [->|N].
  - rewrite decide_True by done. intros H1 H2. f_equal. by apply (anti_symm lex_le).
  - rewrite decide_False by congruence. intros H1 H2. destruct N. by apply (anti_symm lex_le).
Qed.

(** Labels that keep their separators apart: no [=] in a name, no [|] anywhere. *)
Definition plain_label (kv : pystr * pystr) : Prop :=
  Forall (fun c => c <> 61) kv.1 /\ Forall (fun c => c <> 124) kv.1 /\ Forall (fun c => c <> 124) kv.2.
Definition plain (l : labels) : Prop := Forall plain_label l.

Lemma label_text_inj a b : plain_label a -> plain_label b -> label_text a = label_text b -> a = b.
Proof.
  destruct a as [a1 a2], b as [b1 b2]. intros (Ha & _) (Hb & _) E. unfold label_text in E. cbn in *.
  by apply (split_at 61) in E as [-> ->].
Qed.

Lemma label_text_plain a : plain_label a -> Forall (fun c => c <> 124) (label_text a).
Proof. intros (_ & H1 & H2). apply list.Forall_app. split; [done|by constructor]. Qed.

Lemma join_inj (sep : Z) ps qs : Forall (Forall (fun c => c <> sep)) ps -> Forall (Forall (fun c => c <> sep)) qs ->
  ps <> [] -> qs <> [] -> join [sep] ps = join [sep] qs -> ps = qs.
Proof.
  assert (No : forall (p : pystr) q r, Forall (fun c => c <> sep) p -> p <> q ++ sep :: r).
  { intros p q r Hp ->. apply list.Forall_app in Hp as [_ Hp]. by inversion Hp. }
  intros Hp. revert qs. induction Hp as [|p [|p2 ps] Hp0 Hps IH]; intros qs Hq Np Nq E; [done|..];
    destruct Hq as [|q [|q2 qs] Hq0 Hqs]; try done.
  - by cbn in E; rewrite E.
  - by destruct (No p q (join [sep] (q2 :: qs)) Hp0).
  - symmetry in E. by destruct (No q p (join [sep] (p2 :: ps)) Hq0).
  - apply (split_at sep) in E as [-> E]; [|done..]. f_equal. by apply IH.
Qed.

Lemma make_key_sorted l : l <> [] -> _make_key l = join (u "|") (map label_text (merge_sort item_le l)).
Proof. by destruct l. Qed.

Lemma sort_nonempty l : l <> [] -> merge_sort item_le l <> [].
Proof. intros N E. apply N. pose proof (merge_sort_Permutation item_le l) as P. rewrite E in P. by apply Permutation_nil in P. Qed.

Lemma make_key_perm l l' : l ≡ₚ l' -> _make_key l = _make_key l'.
Proof.
  intros P. destruct l as [|a l]; [by apply Permutation_nil in P as ->|].
  destruct l' as [|b l']; [by apply Permutation_sym, Permutation_nil in P|].
  rewrite !make_key_sorted by done. do 2 f_equal. apply (StronglySorted_unique item_le); [by apply (StronglySorted_merge_sort _)..|].
  by rewrite !merge_sort_Permutation.
Qed.

Lemma label_texts_inj l l' : plain l -> plain l' -> map label_text l = map label_text l' -> l = l'.
Proof.
  intros Hl. revert l'. induction Hl as [|a l Ha _ IH]; intros [|b l'] Hl' E; try done.
  injection E as E1 E2. inversion Hl'; subst. f_equal; [by apply label_text_inj|by apply IH].
Qed.

Lemma plain_sort l : plain l -> plain (merge_sort item_le l).
Proof. unfold plain. by rewrite merge_sort_Permutation. Qed.

Lemma texts_plain l : plain l -> Forall (Forall (fun c => c <> 124)) (map label_text l).
Proof. intros H. apply Forall_map. eapply list.Forall_impl; [exact H|apply label_text_plain]. Qed.

Lemma join_cons sep p ps : join sep (p :: ps) = p ++ match ps with [] => [] | _ => sep ++ join sep ps end.
Proof. destruct ps; [by rewrite app_nil_r|done]. Qed.

Lemma default_not_joined l : plain l -> l <> [] -> u "default" <> join (u "|") (map label_text l).
Proof.
  intros H N E. destruct l as [|a l]; [done|]. assert (E61 : 61 ∈ u "default").
  { rewrite E. cbn [map]. rewrite join_cons. unfold label_text. apply elem_of_app. left. apply elem_of_app. right. by left. }
  by apply (bool_decide_unpack (61 ∉ u "default")).
Qed.

(** The key determines the labels, whatever their order. *)
Lemma make_key_inj l l' : plain l -> plain l' -> _make_key l = _make_key l' -> l ≡ₚ l'.
Proof.
  intros Hl Hl' E. destruct (decide (l = [])) as [->|N], (decide (l' = [])) as [->|N']; [done|..].
  - rewrite (make_key_sorted l') in E by done. by destruct (default_not_joined _ (plain_sort _ Hl') (sort_nonempty _ N') E).
  - rewrite (make_key_sorted l) in E by done. symmetry in E. by destruct (default_not_joined _ (plain_sort _ Hl) (sort_nonempty _ N) E).
  - rewrite !make_key_sorted in E by done.
    apply (join_inj 124) in E; [|by apply texts_plain, plain_sort|by apply texts_plain, plain_sort|by intros F%map_eq_nil%sort_nonempty..].
    apply label_texts_inj in E; [|by apply plain_sort|by apply plain_sort].
    by rewrite <- (merge_sort_Permutation item_le l), E, merge_sort_Permutation.
Qed.

(** A separator in a value makes different labels share a key. *)
Example keys_collide : _make_key [(u "a", u "1|b=2")] = _make_key [(u "a", u "1"); (u "b", u "2")].
Proof. vm_compute. reflexivity. Qed.

(** ** The store as a map from names and sets of labels *)

Lemma inner_put n k v d n' : inner n' (put n k v d) = if decide (n' = n) then od_set k v (inner n d) else inner n' d.
Proof.
  unfold inner, put. destruct (decide (n' = n)) as [->|N]; [by rewrite od_get_set_eq|by rewrite od_get_set_ne].
Qed.

Lemma value_put n k v d n' k' :
  od_get k' (inner n' (put n k v d)) = if decide (n' = n /\ k' = k) then Some v else od_get k' (inner n' d).
Proof.
  rewrite inner_put. destruct (decide (n' = n)) as [->|N]; [|by rewrite decide_False by tauto].
  destruct (decide (k' = k)) as [->|N]; [by rewrite od_get_set_eq, decide_True|].
  by rewrite od_get_set_ne, decide_False by tauto.
Qed.

Lemma merged_wf a b : od_wf a -> od_wf (merged a b).
Proof. unfold merged. revert a. induction b as [|kv b IH]; intros a Ha; [done|]. by apply IH, od_wf_set. Qed.

Lemma merged_plain a b : plain a -> plain b -> plain (merged a b).
Proof.
  unfold plain, merged. intros Ha Hb. revert a Ha. induction Hb as [|[k v] b H _ IH]; intros a Ha; [done|].
  apply IH, od_Forall_set; [done|by intros k0 <-].
Qed.

Lemma od_set_map (k v : pystr) d : od_wf d -> list_to_map (M := gmap pystr pystr) (od_set k v d) = <[k := v]> (list_to_map d).
Proof.
  induction d as [|[k' v'] d IH]; intros W; [done|]. cbn. apply NoDup_cons in W as [N W].
  destruct (decide (k = k')) as [->|Hne]; cbn; [by rewrite insert_insert_eq|]. rewrite IH by done. by rewrite insert_insert_ne.
Qed.

(** [{**a, **b}] is the union of the two, the second first. *)
Lemma merged_map a b : od_wf a -> od_wf b ->
  list_to_map (M := gmap pystr pystr) (merged a b) = list_to_map b ∪ list_to_map a.
Proof.
  unfold merged. intros Ha Hb. revert a Ha. induction b as [|[k v] b IH]; intros a Ha; cbn; [by rewrite map_empty_union|].
  apply NoDup_cons in Hb as [N Hb]. rewrite IH by (try done; by apply od_wf_set). rewrite od_set_map by done.
  rewrite <- insert_union_l. apply map_eq. intros i. destruct (decide (i = k)) as [->|Ni].
  - rewrite lookup_insert_eq, lookup_union, lookup_insert_eq.
    rewrite (proj1 (not_elem_of_list_to_map b k)) by done. done.
  - by rewrite lookup_insert_ne, !lookup_union, lookup_insert_ne by done.
Qed.

Lemma same_key_same_map (n n' : pystr) (l l' : labels) : od_wf l -> od_wf l' -> plain l -> plain l' ->
  (n' = n /\ _make_key l' = _make_key l <-> (n', list_to_map (M := gmap pystr pystr) l') = (n, list_to_map l)).
Proof.
  intros W W' P P'. split.
  - intros [-> E]. apply make_key_inj in E; [|done..]. f_equal. by apply list_to_map_proper.
  - intros [= -> E]. split; [done|]. apply make_key_perm. by apply (list_to_map_inj (M := gmap pystr)).
Qed.

(** What callers do with the store, each collector with its own labels. *)
Inductive store_op :=
  | Inc_ (c : MetricsCollector) (l : labels) (now : float)
  | Set_ (c : MetricsCollector) (value : num) (l : labels) (now : float)
  | Read_ (c : MetricsCollector) (l : labels).

Definition store_step (o : store_op) (s : store) : option num * store :=
  match o with
  | Inc_ c l now => (None, inc c l now s)
  | Set_ c v l now => (None, set c v l now s)
  | Read_ c l => let (n, s) := get c l s in (Some n, s)
  end.

(** The specification: numbers by name and labels. *)
Abbreviation counters := (gmap (pystr * gmap pystr pystr) num) (only parsing).

Definition at_labels (c : MetricsCollector) (l : labels) : pystr * gmap pystr pystr :=
  (name c, list_to_map l ∪ list_to_map (_labels c)).

Definition counters_step (o : store_op) (m : counters) : option num * counters :=
  match o with
  | Inc_ c l _ => (None, <[at_labels c l := plus_one (default zero (m !! at_labels c l))]> m)
  | Set_ c v l _ => (None, <[at_labels c l := v]> m)
  | Read_ c l => (Some (default (NInt 0) (m !! at_labels c l)), m)
  end.

Fixpoint answers {S} (step : store_op -> S -> option num * S) (os : list store_op) (s : S) : list (option num) :=
  match os with [] => [] | o :: os => let (a, s) := step o s in a :: answers step os s end.

Definition op_labels (o : store_op) : MetricsCollector * labels :=
  match o with Inc_ c l _ | Set_ c _ l _ | Read_ c l => (c, l) end.
Definition plain_op (o : store_op) : Prop :=
  let (c, l) := op_labels o in od_wf (_labels c) /\ od_wf l /\ plain (_labels c) /\ plain l.

Definition represents (s : store) (m : counters) : Prop :=
  forall n l, od_wf l -> plain l -> od_get (_make_key l) (inner n (_metrics_data s)) = m !! (n, list_to_map l).

Lemma represents_put s m c l v t : represents s m -> plain_op (Inc_ c l (fofZ 0)) ->
  represents (mkStore (put (name c) (key_of c l) v (_metrics_data s)) t) (<[at_labels c l := v]> m).
Proof.
  intros R (Wc & Wl & Pc & Pl) n l' W P. cbn [_metrics_data]. unfold at_labels, key_of. rewrite value_put, <- merged_map by done.
  assert (W2 : od_wf (merged (_labels c) l)) by (by apply merged_wf).
  assert (P2 : plain (merged (_labels c) l)) by (by apply merged_plain).
  pose proof (same_key_same_map (name c) n _ l' W2 W P2 P) as K.
  case_decide as E; [apply K in E as ->; by rewrite lookup_insert_eq|].
  rewrite lookup_insert_ne by (intros F; by apply E, K). by apply R.
Qed.

Lemma represents_at s m c l : represents s m -> plain_op (Read_ c l) ->
  od_get (key_of c l) (inner (name c) (_metrics_data s)) = m !! at_labels c l.
Proof.
  intros R (Wc & Wl & Pc & Pl). unfold key_of, at_labels. rewrite <- merged_map by done.
  apply R; [by apply merged_wf|by apply merged_plain].
Qed.

Lemma store_step_represents o s m : represents s m -> plain_op o ->
  (store_step o s).1 = (counters_step o m).1 /\ represents (store_step o s).2 (counters_step o m).2.
Proof.
  intros R P. destruct o as [c l now|c v l now|c l]; cbn.
  - split; [done|]. unfold inc, stamp. cbn. rewrite (represents_at s m) by done. by apply represents_put.
  - split; [done|]. by apply represents_put.
  - rewrite (represents_at s m) by done. split; [done|]. intros n l' W' P'. rewrite <- R by done. cbn.
    destruct (od_mem _ _) eqn:M; [done|]. apply od_mem_false in M. unfold inner.
    destruct (decide (n = name c)) as [->|N]; [by rewrite od_get_set_eq, M|by rewrite od_get_set_ne].
Qed.

(** The store is a map from metric names and sets of labels to numbers: as long
    as no label name has an = and no label name or value a |, whatever is counted,
    set and read through whatever collectors, with labels of their own and of the
    call, in whatever order they are given, every reading is what a map with the
    union of the labels for its key would give. *)
Theorem store_refines_labelled_map os : Forall plain_op os ->
  answers store_step os (mkStore [] []) = answers counters_step os ∅.
Proof.
  assert (R0 : represents (mkStore [] []) ∅) by (intros n l _ _; by rewrite lookup_empty).
  revert R0. generalize (mkStore [] []) (∅ : counters). intros s m R F. revert s m R.
  induction F as [|o os P F IH]; intros s m R; [done|]. cbn [answers].
  pose proof (store_step_represents o s m R P) as [E R']. destruct (store_step o s) as [a s'], (counters_step o m) as [b m'].
  cbn in *. f_equal; [done|]. by apply IH.
Qed.

Lemma store_refines_labelled_map_witness :
  let hits := mkCollector (u "hits") [(u "op", u "get"); (u "ns", u "a")] in
  let os := [Inc_ hits [] (fofZ 1); Inc_ (collector (u "hits")) [(u "ns", u "a"); (u "op", u "get")] (fofZ 2);
             Inc_ hits [(u "ns", u "b")] (fofZ 3); Read_ hits []; Read_ (collector (u "hits")) []] in
  answers store_step os (mkStore [] []) = [None; None; None; Some (NFloat (fofZ 2)); Some (NInt 0)] /\
  answers store_step os (mkStore [] []) = answers counters_step os ∅.
Proof.
  set (hits := mkCollector (u "hits") [(u "op", u "get"); (u "ns", u "a")]).
  set (os := [Inc_ hits [] (fofZ 1); Inc_ (collector (u "hits")) [(u "ns", u "a"); (u "op", u "get")] (fofZ 2);
             Inc_ hits [(u "ns", u "b")] (fofZ 3); Read_ hits []; Read_ (collector (u "hits")) []]).
  split; [vm_compute; reflexivity|]. apply (store_refines_labelled_map os).
  apply (bool_decide_unpack (Forall plain_op os)). vm_compute. exact I.
Defined.

(** ** What the worker does with what was recorded *)

Section Runs.
Context (max_queue_size : Z).
Local Abbreviation full := (full max_queue_size).
Local Abbreviation step := (step max_queue_size).
Local Abbreviation run := (run max_queue_size).

(** The metrics a run records and the queue takes, in order. *)
Definition taken (e : event) (c : AsyncMetricsCollector) : list metric_data :=
  match e with Record_ m => if full (_metric_queue c) then [] else [m] | _ => [] end.
Fixpoint accepted (es : list event) (c : AsyncMetricsCollector) : list metric_data :=
  match es with [] => [] | e :: es => taken e c ++ accepted es (step e c) end.

Definition recorded (es : list event) : Z := zsum (map (fun e => match e with Record_ _ => 1 | _ => 0 end) es).

(** Metrics processed one after the other by their caller. *)
Definition process_all (ms : list (metric_data * float)) (t : tables) : tables :=
  foldl (fun t mn => _process_metric mn.1 mn.2 t) t ms.

(** What [d], processed, has made of [c], from which [new] were taken. *)
Definition moved (d : list (metric_data * float)) (new : list metric_data) (c c' : AsyncMetricsCollector) : Prop :=
  _metric_queue c ++ new = map fst d ++ _metric_queue c' /\
  _tables c' = process_all d (_tables c) /\
  processed_count c' = processed_count c + zlen d /\
  (queue_size c = zlen (_metric_queue c) -> queue_size c' = zlen (_metric_queue c')) /\
  (0 < max_queue_size -> zlen (_metric_queue c) <= max_queue_size -> zlen (_metric_queue c') <= max_queue_size).

Lemma moved_trans d1 d2 n1 n2 c1 c2 c3 : moved d1 n1 c1 c2 -> moved d2 n2 c2 c3 -> moved (d1 ++ d2) (n1 ++ n2) c1 c3.
Proof.
  intros (Q1 & T1 & P1 & S1 & B1) (Q2 & T2 & P2 & S2 & B2). split_and!.
  - by rewrite app_assoc, Q1, map_app, <- !app_assoc, <- Q2.
  - rewrite T2, T1. symmetry. apply foldl_app.
  - rewrite zlen_app. lia.
  - auto.
  - auto.
Qed.

Lemma moved_same c c' : _metric_queue c' = _metric_queue c -> _tables c' = _tables c ->
  processed_count c' = processed_count c -> queue_size c' = queue_size c -> moved [] [] c c'.
Proof. unfold moved. intros -> -> -> ->. cbn. rewrite app_nil_r. change (zlen []) with 0. split_and!; (done || lia). Qed.

(** A step processes at most the first metric and takes at most one. *)
Lemma step_moves e c : e <> Clear -> exists d, moved d (taken e c) c (step e c).
Proof.
  intros Nc. destruct e as [m|now| | |]; [..|done]; cbn [MetricsStore.step taken].
  - unfold _enqueue_metric. destruct (full (_metric_queue c)) eqn:F; exists []; [by apply moved_same|].
    unfold moved. cbn. change (zlen []) with 0. split_and!; try (done || lia). intros P B.
    unfold MetricsStore.full in F. rewrite zlen_app. change (zlen [m]) with 1. apply andb_false_iff in F as [F|F]; zbool; lia.
  - unfold _worker_loop. destruct (worker_alive c) eqn:A; [|exists []; by apply moved_same]. cbn [negb].
    destruct (_shutdown_event c); [exists []; by apply moved_same|].
    destruct (_metric_queue c) as [|m q] eqn:Q; [exists []; by apply moved_same|].
    exists [(m, now)]. unfold moved. cbn. rewrite Q, app_nil_r. split_and!; try done. intros P B. rewrite zlen_cons in B. lia.
  - exists []. apply moved_same; by unfold shutdown; destruct (_shutdown_event c).
  - exists []. apply moved_same; unfold get_async_metrics_collector, _start_worker; by destruct (worker_alive c) eqn:A.
Qed.

Lemma run_moves es c : Clear ∉ es -> exists d, moved d (accepted es c) c (run es c).
Proof.
  revert c. induction es as [|e es IH]; intros c N; [exists []; by apply moved_same|].
  apply not_elem_of_cons in N as [Ne N]. destruct (step_moves e c) as [d1 M1]; [congruence|].
  destruct (IH (step e c) N) as [d2 M2]. exists (d1 ++ d2). by apply (moved_trans _ _ _ _ _ (step e c)).
Qed.

Lemma run_drops es c : Clear ∉ es -> dropped_count (run es c) + zlen (accepted es c) = dropped_count c + recorded es.
Proof.
  revert c. induction es as [|e es IH]; intros c N; [cbn; change (zlen []) with 0; lia|].
  apply not_elem_of_cons in N as [Ne N]. specialize (IH (step e c) N). cbn [accepted] in *. rewrite zlen_app.
  change (recorded (e :: es)) with (match e with Record_ _ => 1 | _ => 0 end + recorded es).
  change (run (e :: es) c) with (run es (step e c)).
  assert (D : dropped_count (step e c) + zlen (taken e c) = dropped_count c + match e with Record_ _ => 1 | _ => 0 end); [|lia].
  destruct e; cbn [MetricsStore.step taken]; change (zlen []) with 0; try done.
  - unfold _enqueue_metric. destruct (full _); cbn; [change (zlen []) with 0|change (zlen [m]) with 1]; lia.
  - unfold _worker_loop. repeat case_match; cbn; lia.
  - unfold shutdown. case_match; cbn; lia.
  - unfold get_async_metrics_collector, _start_worker. repeat case_match; cbn; lia.
Qed.

(** The queue only delays: whatever threads record, however the worker is
    scheduled, stopped and started again, what the tables hold is what processing
    the first of the accepted metrics one by one, in the order they were accepted,
    would have given; the others are in the queue, which never exceeds its size;
    every metric recorded is counted as dropped, processed or waiting. *)
Theorem async_is_a_prefix_of_sync es s : Clear ∉ es ->
  let c := run es (init s) in
  exists d, accepted es (init s) = map fst d ++ _metric_queue c /\
    _tables c = process_all d (mkTables [] s) /\ processed_count c = zlen d /\ queue_size c = zlen (_metric_queue c) /\
    (0 < max_queue_size -> zlen (_metric_queue c) <= max_queue_size) /\
    dropped_count c + processed_count c + queue_size c = recorded es.
Proof.
  intros N c. destruct (run_moves es (init s) N) as (d & Q & T & P & S & B). pose proof (run_drops es (init s) N) as D.
  exists d. fold c in Q, T, P, S, B, D. cbn in Q, T, P, D. specialize (S eq_refl). split_and!; try done.
  - intros M. apply B; [done|]. change (zlen (_metric_queue (init s))) with 0. lia.
  - rewrite S, P. rewrite Q, zlen_app in D. unfold zlen in *. rewrite length_map in D. lia.
Qed.

(** ** Stopping and starting again *)

(** A worker that is not being stopped empties the queue. *)
Lemma works_empty ts c : worker_alive c = true -> _shutdown_event c = false -> (length (_metric_queue c) <= length ts)%nat ->
  _metric_queue (run (map Work ts) c) = [] /\
  _tables (run (map Work ts) c) = process_all (zip (_metric_queue c) ts) (_tables c).
Proof.
  revert c. induction ts as [|t ts IH]; intros c A E L.
  - destruct (_metric_queue c) eqn:Q; [|cbn in L; lia]. by cbn.
  - change (run (map Work (t :: ts)) c) with (run (map Work ts) (_worker_loop t c)). unfold _worker_loop. rewrite A, E. cbn [negb].
    destruct (_metric_queue c) as [|m q] eqn:Q.
    + destruct (IH c A E) as [H1 H2]; [rewrite Q; cbn; lia|]. rewrite H1, H2, Q. done.
    + destruct (IH (mkAsync (_process_metric m t (_tables c)) q false true (processed_count c + 1) (dropped_count c) (zlen q)))
        as [H1 H2]; [done|done|cbn in *; lia|]. by rewrite H1, H2.
Qed.

(** Nothing is stranded by a shutdown: from any state, with the worker running,
    being stopped or stopped, asking for the collector before and after one more
    iteration of its thread gives a worker that processes every metric that waits,
    in order, within as many iterations as there are metrics. *)
Theorem collector_is_revived c t ts : (length (_metric_queue c) <= length ts)%nat ->
  let c' := run (Get :: Work t :: Get :: map Work ts) c in
  _metric_queue c' = [] /\ worker_alive c' = true /\
  exists times, _tables c' = process_all (zip (_metric_queue c) times) (_tables c) /\
    (length (_metric_queue c) <= length times)%nat.
Proof.
  intros L. assert (G : exists c0, run [Get; Work t; Get] c = c0 /\ worker_alive c0 = true /\ _shutdown_event c0 = false /\
    (_metric_queue c0 = _metric_queue c /\ _tables c0 = _tables c \/
     exists m q, _metric_queue c = m :: q /\ _metric_queue c0 = q /\ _tables c0 = _process_metric m t (_tables c))).
  { eexists. split; [done|]. cbn. unfold get_async_metrics_collector, _start_worker, _worker_loop.
    destruct (worker_alive c) eqn:A; cbn; rewrite ?A; cbn.
    - destruct (_shutdown_event c) eqn:E; cbn; [split_and!; auto|].
      destruct (_metric_queue c) as [|m q] eqn:Q; cbn; rewrite ?A; cbn; [split_and!; auto|split_and!; [done..|]]. right. by exists m, q.
    - destruct (_metric_queue c) as [|m q] eqn:Q; cbn; split_and!; auto. right. by exists m, q. }
  destruct G as (c0 & E0 & A & E & M). intros c'. change c' with (run (map Work ts) (run [Get; Work t; Get] c)). rewrite E0. clear c' E0.
  assert (L0 : (length (_metric_queue c0) <= length ts)%nat).
  { destruct M as [[-> _]|(m & q & Q & -> & _)]; [done|]. rewrite Q in L. cbn in L. lia. }
  destruct (works_empty ts c0 A E L0) as [H1 H2]. split; [done|]. split.
  - clear - A E. revert c0 A E. induction ts as [|t ts IH]; intros c A E; [done|]. apply IH; unfold _worker_loop; cbn;
      unfold _worker_loop; rewrite A, E; cbn; by destruct (_metric_queue c).
  - rewrite H2. destruct M as [[-> ->]|(m & q & Q & -> & ->)]; [by exists ts|].
    exists (t :: ts). rewrite Q in *. split; [done|]. cbn in *. lia.
Qed.

(** ** What becomes of the counters of operations *)

Definition redis_operations : pystr := u "redis_cache_operations_total".

(** A counter of operations with a value that is not zero leaves the module's alone. *)
Lemma process_keeps_operations m now t : (m_name m = redis_operations -> truthy_num (m_value m) = true) ->
  inner (name cache_operations) (_metrics_data (the_store (_process_metric m now t))) =
  inner (name cache_operations) (_metrics_data (the_store t)).
Proof.
  intros H. unfold _process_metric, _try_prometheus_metric.
  assert (Other : forall c v, name c <> name cache_operations ->
    inner (name cache_operations) (_metrics_data (set c v [] now (the_store t))) =
    inner (name cache_operations) (_metrics_data (the_store t))).
  { intros c v N. unfold set, stamp. cbn [_metrics_data]. by rewrite inner_put, decide_False by congruence. }
  unfold labels_of. case_bool_decide as E1.
  { rewrite (H E1). destruct (od_mem _ _); reflexivity. }
  repeat case_bool_decide; try reflexivity; destruct (od_mem _ _); try reflexivity; refine (Other _ _ _); by vm_compute.
Qed.

(** Operations recorded through the collector are never counted where they are
    meant to be: in every run in which no counter of them is recorded with the value
    zero, the table of [cache_operations] stays what it was. *)
Theorem operations_never_counted es s : Clear ∉ es ->
  (forall m, Record_ m ∈ es -> m_name m = redis_operations -> truthy_num (m_value m) = true) ->
  inner (name cache_operations) (_metrics_data (the_store (_tables (run es (init s))))) =
  inner (name cache_operations) (_metrics_data s).
Proof.
  intros N H. destruct (run_moves es (init s) N) as (d & Q & T & _). rewrite T. clear T.
  assert (Hd : forall m, m ∈ map fst d -> m_name m = redis_operations -> truthy_num (m_value m) = true).
  { intros m Hm. apply H. assert (Ha : m ∈ accepted es (init s)).
    { change (accepted es (init s) = map fst d ++ _metric_queue (run es (init s))) in Q. rewrite Q. apply elem_of_app. by left. }
    clear - Ha. revert Ha. generalize (init s). induction es as [|e es IH]; intros c Ha; [by apply elem_of_nil in Ha|].
    cbn in Ha. apply elem_of_cons. apply elem_of_app in Ha as [Ha|Ha]; [left|right; by apply (IH (step e c))].
    destruct e; cbn in Ha; try by apply elem_of_nil in Ha. destruct (full _); [by apply elem_of_nil in Ha|].
    by apply list_elem_of_singleton in Ha as ->. }
  change (_metrics_data s) with (_metrics_data (the_store (_tables (init s)))). clear Q. revert Hd. generalize (_tables (init s)).
  induction d as [|[m now] d IH]; intros t Hd; [done|]. change (process_all ((m, now) :: d) t) with (process_all d (_process_metric m now t)).
  rewrite IH by (intros m' Hm; apply Hd, elem_of_cons; by right). apply process_keeps_operations, Hd, elem_of_cons. by left.
Qed.
End Runs.

(** ** Examples *)

Definition operation_count (value : num) : event := Record_ (mkMetric TCounter (u "redis_cache_operations_total") value [(u "operation", u "get")]).

(** A zero is counted as one. *)
Example zero_counts_one :
  let c := run 10 [operation_count (NInt 0); Work (fofZ 1)] (init (mkStore [] [])) in
  (get cache_operations [(u "operation", u "get")] (the_store (_tables c))).1 = NFloat (fofZ 1) /\ _metrics (_tables c) = [].
Proof. vm_compute. split; reflexivity. Qed.

Lemma async_is_a_prefix_of_sync_witness :
  let es := [operation_count (NInt 1); operation_count (NInt 2); operation_count (NInt 3); Work (fofZ 1); Shutdown; Work (fofZ 2); Get] in
  let c := run 2 es (init (mkStore [] [])) in
  length (accepted 2 es (init (mkStore [] []))) = 2%nat /\ (dropped_count c = 1 /\ processed_count c = 1) /\
  exists d, accepted 2 es (init (mkStore [] [])) = map fst d ++ _metric_queue c /\ _tables c = process_all d (mkTables [] (mkStore [] [])).
Proof.
  set (es := [operation_count (NInt 1); operation_count (NInt 2); operation_count (NInt 3); Work (fofZ 1); Shutdown; Work (fofZ 2); Get]).
  split; [vm_compute; reflexivity|]. split; [vm_compute; split; reflexivity|].
  assert (N : Clear ∉ es) by (unfold es; intros H; repeat (apply elem_of_cons in H as [H|H]; [done|]); by apply elem_of_nil in H).
  destruct (async_is_a_prefix_of_sync 2 es (mkStore [] []) N) as (d & A & T & _). exists d. split; [exact A|exact T].
Defined.

Lemma collector_is_revived_witness :
  let c := run 9 [operation_count (NInt 1); operation_count (NInt 2); Shutdown; Work (fofZ 1)] (init (mkStore [] [])) in
  worker_alive c = false /\ length (_metric_queue c) = 2%nat /\
  _metric_queue (run 9 (Get :: Work (fofZ 2) :: Get :: map Work [fofZ 3; fofZ 4]) c) = [].
Proof.
  set (c := run 9 [operation_count (NInt 1); operation_count (NInt 2); Shutdown; Work (fofZ 1)] (init (mkStore [] []))).
  split; [vm_compute; reflexivity|]. split; [vm_compute; reflexivity|].
  assert (L : (length (_metric_queue c) <= length [fofZ 3; fofZ 4])%nat) by (vm_compute; lia).
  exact (proj1 (collector_is_revived 9 c (fofZ 2) [fofZ 3; fofZ 4] L)).
Defined.

Lemma operations_never_counted_witness :
  let c := run 9 [operation_count (NInt 5); Work (fofZ 1)] (init (mkStore [] [])) in
  _metrics (_tables c) = [(u "redis_cache_operations_total", [(u "operation=get", NFloat (fofZ 5))])] /\
  inner (name cache_operations) (_metrics_data (the_store (_tables c))) = [].
Proof.
  set (es := [operation_count (NInt 5); Work (fofZ 1)]).
  split; [vm_compute; reflexivity|].
  apply (operations_never_counted 9 es (mkStore [] [])).
  - unfold es. intros H. repeat (apply elem_of_cons in H as [H|H]; [done|]). by apply elem_of_nil in H.
  - intros m H _. unfold es in H. apply elem_of_cons in H as [[= ->]|H]; [done|]. apply elem_of_cons in H as [H|H]; [done|].
    by apply elem_of_nil in H.
Defined.
