(* ===== verification/Settings.v ===== *)
(** The settings of the process ([src/src/cachekit/config/settings.py],
    [config/singleton.py]): the constraints a configuration must meet, the
    keyring among them, and the instance the process keeps.

    [CachekitConfig(...)] is pydantic's: here the values it has read and
    converted are given, and checked as the class declares. *)
From Stdlib Require Import ZArith Lia SpecFloat.
From stdpp Require Import base list numbers option strings.
From S2P Require Import Prelude PyFloat Effects Tenant Encryption.

Local Open Scope Z_scope.
Local Open Scope py_scope.

Definition MAX_PREVIOUS_MASTER_KEYS : Z := 3.

Record CachekitConfig := mkSettings {
  max_retries : Z;
  retry_delay_ms : Z;
  early_refresh_ratio : float;
  default_ttl : Z;
  ttl_min : Z;
  ttl_max : Z;
  max_key_size : Z;
  max_value_size : Z;
  l1_max_size_mb : Z;
  l1_cleanup_interval_seconds : Z;
  log_sampling_rate : float;
  log_buffer_size : Z;
  log_batch_size : Z;
  log_flush_interval : float;
  master_key : option pystr;
  previous_master_keys : list pystr
}.

(** The [Field] bounds. *)
Definition within_bounds (c : CachekitConfig) : bool :=
  (0 <=? max_retries c) && (0 <? retry_delay_ms c) &&
  fgeZ (early_refresh_ratio c) 0 && fleZ (early_refresh_ratio c) 1 &&
  (0 <? default_ttl c) && (0 <? ttl_min c) && (0 <? ttl_max c) &&
  (0 <? max_key_size c) && (0 <? max_value_size c) &&
  (0 <? l1_max_size_mb c) && (0 <? l1_cleanup_interval_seconds c) &&
  fgeZ (log_sampling_rate c) 0 && fleZ (log_sampling_rate c) 1 &&
  (0 <? log_buffer_size c) && (0 <? log_batch_size c) && fgtZ (log_flush_interval c) 0.

(** [value.split(",")] *)
Fixpoint split_commas (s : pystr) : list pystr :=
  match s with
  | [] => [[]]
  | c :: r =>
      if c =? 44 then [] :: split_commas r
      else match split_commas r with
           | [] => [[c]]
           | w :: ws => (c :: w) :: ws
           end
  end.

(** The text of the environment, or a list as it is. *)
Definition _split_previous_master_keys (value : pystr + list pystr) : list pystr :=
  match value with
  | inl s => List.filter (fun w => match w with [] => false | _ => true end) (map (strip is_unicode_space) (split_commas s))
  | inr l => l
  end.

(** A previous key: hexadecimal, 32 bytes at least. *)
Definition previous_key (s : pystr) : result exn pybytes :=
  match fromhex s with
  | None => Err (PyExn ValueError)
  | Some b => if zlen b <? 32 then Err (PyExn ValueError) else Ok b
  end.

Definition validate_previous_master_keys (c : CachekitConfig) : result exn unit :=
  if MAX_PREVIOUS_MASTER_KEYS <? zlen (previous_master_keys c) then Err (PyExn ValueError)
  else
    previous_key_bytes <-! rmap previous_key (previous_master_keys c) ;
    match master_key c with
    | None => Ok tt
    | Some key =>
        match fromhex key with
        | None => Ok tt
        | Some master_key_bytes =>
            if bool_decide (master_key_bytes ∈ previous_key_bytes) then Err (PyExn ValueError) else Ok tt
        end
    end.

Definition validate_interdependent_fields (c : CachekitConfig) : result exn unit :=
  if default_ttl c <? ttl_min c then Err (PyExn ValueError)
  else if ttl_max c <? default_ttl c then Err (PyExn ValueError) else Ok tt.

(** A [ValidationError] is a [ValueError]. *)
Definition construct (c : CachekitConfig) : result exn CachekitConfig :=
  if within_bounds c then
    _ <-! validate_previous_master_keys c ;
    _ <-! validate_interdependent_fields c ;
    Ok c
  else Err (PyExn ValueError).

(** ** The singleton *)

(** The environment: whether [CACHEKIT_MASTER_KEY] is set, and the values read. *)
Record environ := mkEnviron { has_master_key : bool; values : CachekitConfig }.

Definition from_env (e : environ) : result exn CachekitConfig := construct (values e).

(** [_settings_instance] is the state. *)
Definition get_settings (e : environ) : eff (option CachekitConfig) CachekitConfig := fun s =>
  let build := match from_env e with Ok c => (Ok c, Some c) | Err x => (Err x, s) end in
  match s with
  | Some instance =>
      if bool_decide (master_key instance = None) && has_master_key e then build else (Ok instance, s)
  | None => build
  end.

Definition reset_settings : eff (option CachekitConfig) unit := fun _ => (Ok tt, None).

(** ** What is accepted *)

Lemma Forall2_partner {A C} (R : A -> C -> Prop) l k : Forall2 R l k -> Forall (fun x => exists y, R x y /\ y ∈ k) l.
Proof.
  induction 1 as [|x y l k H _ IH]; constructor; [exists y; split; [done|by left]|].
  eapply list.Forall_impl; [exact IH|]. intros z (w & ? & ?). exists w. split; [done|by right].
Qed.

(** Settings that load have at most three previous keys of 32 bytes or more;
    the master key is none of them, however its hexadecimal is written; and the
    default TTL is within its bounds. *)
Theorem accepted_settings c : construct c = Ok c ->
  zlen (previous_master_keys c) <= 3 /\
  Forall (fun s => exists b, fromhex s = Some b /\ 32 <= zlen b) (previous_master_keys c) /\
  (forall k b, master_key c = Some k -> fromhex k = Some b ->
     Forall (fun s => fromhex s <> Some b) (previous_master_keys c)) /\
  0 < ttl_min c <= default_ttl c /\ default_ttl c <= ttl_max c.
Proof.
  unfold construct. destruct (within_bounds c) eqn:Eb; [|done]. intros E.
  apply rbind_ok in E as (? & Ek & E). apply rbind_ok in E as (? & Ei & _).
  unfold validate_previous_master_keys in Ek. destruct (_ <? _) eqn:El; [done|].
  apply rbind_ok in Ek as (bs & Ebs & Ek). unfold validate_interdependent_fields in Ei.
  destruct (default_ttl c <? ttl_min c) eqn:E1; [done|]. destruct (ttl_max c <? default_ttl c) eqn:E2; [done|].
  unfold within_bounds in Eb. zbool. unfold MAX_PREVIOUS_MASTER_KEYS in El.
  assert (F : Forall2 (fun s b => fromhex s = Some b /\ 32 <= zlen b) (previous_master_keys c) bs).
  { clear - Ebs. revert bs Ebs. induction (previous_master_keys c) as [|s l IH]; simpl; intros bs E; [by simplify_eq|].
    apply rbind_ok in E as (b & Eb & E). apply rbind_ok in E as (r & Er & [= <-]). constructor; [|by apply IH].
    unfold previous_key in Eb. destruct (fromhex s) as [b'|]; [|done]. destruct (zlen b' <? 32) eqn:L; [done|].
    zbool. simplify_eq. done. }
  apply Forall2_partner in F. split_and!; try lia.
  - eapply list.Forall_impl; [exact F|]. intros w (b & [Ex Lx] & _). by exists b.
  - intros k b Em Hk. rewrite Em, Hk in Ek. destruct (bool_decide _) eqn:Hb; [done|]. apply bool_decide_eq_false in Hb.
    eapply list.Forall_impl; [exact F|]. intros w (b' & [Ex _] & Hin) Ex'. rewrite Ex in Ex'. by injection Ex' as ->.
Qed.

(** A process that built its settings before the master key was in the
    environment picks the key up: from then on every reading has it, and nothing
    is rebuilt again. *)
Theorem key_picked_up e s i s' : has_master_key e = true ->
  (forall c, from_env e = Ok c -> master_key c <> None) ->
  get_settings e s = (Ok i, s') ->
  master_key i <> None /\ s' = Some i /\ forall e', get_settings e' s' = (Ok i, s').
Proof.
  intros He Hk E. unfold get_settings in E.
  assert (B : match from_env e with Ok c => (Ok c, Some c) | Err x => (Err x, s) end = (Ok i, s') ->
    master_key i <> None /\ s' = Some i).
  { destruct (from_env e) as [c|x]; [|done]. intros [= -> <-]. auto. }
  assert (K : master_key i <> None /\ s' = Some i).
  { destruct s as [j|]; [|by apply B]. rewrite He, andb_true_r in E. destruct (bool_decide (master_key j = None)) eqn:Ej; [by apply B|].
    injection E as -> <-. apply bool_decide_eq_false in Ej. done. }
  destruct K as [K ->]. split_and!; [done..|]. intros e'. unfold get_settings.
  by rewrite bool_decide_eq_false_2.
Qed.

(** ** Examples *)

Definition hex64 (c : Z) : pystr := replicate 64 c.
Definition rotated : CachekitConfig :=
  mkSettings 3 100 (fofZ 1) 3600 60 86400 1024 104857600 100 30 (fofZ 0) 10000 100 (fofZ 1)
    (Some (hex64 98)) (_split_previous_master_keys (inl (hex64 97 ++ u " , ," ++ hex64 99))).
Definition keyless : CachekitConfig :=
  mkSettings 3 100 (fofZ 1) 3600 60 86400 1024 104857600 100 30 (fofZ 0) 10000 100 (fofZ 1) None [].

Lemma accepted_settings_witness : construct rotated = Ok rotated /\ zlen (previous_master_keys rotated) <= 3.
Proof.
  assert (E : construct rotated = Ok rotated) by (vm_compute; reflexivity).
  split; [exact E|]. exact (proj1 (accepted_settings rotated E)).
Defined.

Lemma key_picked_up_witness :
  get_settings (mkEnviron false keyless) None = (Ok keyless, Some keyless) /\
  get_settings (mkEnviron true rotated) (Some keyless) = (Ok rotated, Some rotated) /\
  get_settings (mkEnviron false keyless) (Some rotated) = (Ok rotated, Some rotated).
Proof.
  split; [vm_compute; reflexivity|].
  assert (E : get_settings (mkEnviron true rotated) (Some keyless) = (Ok rotated, Some rotated)) by (vm_compute; reflexivity).
  split; [exact E|].
  apply (key_picked_up (mkEnviron true rotated) (Some keyless) rotated (Some rotated) eq_refl); [|exact E].
  assert (F : from_env (mkEnviron true rotated) = Ok rotated) by (vm_compute; reflexivity).
  rewrite F. intros c Ec. injection Ec as <-. discriminate.
Defined.
