(* ===== verification/Decoration.v ===== *)
(** Decorating a function ([src/src/cachekit/decorators/intent.py] and the part
    of [create_cache_wrapper], [decorators/wrapper.py], that runs once): from
    keyword arguments to a configuration, from the configuration to what the
    wrapper is built of. *)
From Stdlib Require Import ZArith Lia SpecFloat.
From stdpp Require Import base list numbers option strings.
From S2P Require Import Prelude PyFloat PyValue Interop Effects Configuration.

Local Open Scope Z_scope.
Local Open Scope py_scope.

Inductive intent := Bare | Minimal | Production | Secure | Dev | Test | Io | Local.

Section Decoration.
Context {B K X S : Type}.
Local Abbreviation DecoratorConfig := (DecoratorConfig B K X S).
Local Abbreviation kwarg := (kwarg B K X S).

(** The process: the module's default backend, the master key and the L1 budget of
    the settings, [CACHEKIT_API_KEY], and [CachekitIOBackend()]. *)
Record environment := mkEnv {
  default_backend : option B;
  settings_key : option pystr;
  settings_l1_max_size_mb : Z;
  api_key : bool;
  new_io_backend : result exn B
}.

Context (default_serializer : S) (env : environment).

Local Abbreviation construct := (construct (settings_key env)).
Local Abbreviation defaults := (defaults default_serializer).

(** ** [cache]: the inner function [decorator] *)

Definition as_backend (k : kwarg) := match k with kw_backend v => Some v | _ => None end.
Definition as_l1_enabled (k : kwarg) := match k with kw_l1_enabled b => Some b | _ => None end.
Definition as_l1 (k : kwarg) := match k with kw_l1 c => Some c | _ => None end.
Definition as_encryption (k : kwarg) := match k with kw_encryption v => Some v | _ => None end.
Definition as_master_key (k : kwarg) := match k with kw_master_key v => Some v | _ => None end.
Definition as_tenant_extractor (k : kwarg) := match k with kw_tenant_extractor v => Some v | _ => None end.

(** [replace(existing_l1, enabled=l1_enabled)] *)
Definition nest_l1_enabled (kws : list kwarg) : list kwarg :=
  match take_kw as_l1_enabled kws with
  | (None, _) => kws
  | (Some b, kws) =>
      let (existing, kws) := take_kw as_l1 kws in
      let c := default default_l1 existing in
      kws ++ [kw_l1 (mkL1Config b (max_size_mb c) (swr_enabled c) (swr_threshold_ratio c))]
  end.

(** The flattened encryption keywords as one [EncryptionConfig]; a keyword that
    is one already passes through, and the others with it. *)
Definition nest_encryption (kws : list kwarg) : list kwarg :=
  match take_kw as_encryption kws with
  | (Some (inr _), _) => kws
  | (flag, rest) =>
      let (key, rest) := take_kw as_master_key rest in
      let (extractor, rest) := take_kw as_tenant_extractor rest in
      let (single, rest) := take_kw as_single_tenant_mode rest in
      let (uuid, rest) := take_kw as_deployment_uuid rest in
      let (closed, rest) := take_kw as_fail_closed rest in
      let enabled := match flag with Some (inl b) => b | _ => None end in
      match flag, key, extractor, single, uuid, closed with
      | None, None, None, None, None, None => kws
      | _, _, _, _, _, _ =>
          rest ++ [kw_encryption (inr (mkEncryptionConfig enabled (mjoin key) (mjoin extractor)
                     (default false (mjoin single)) (mjoin uuid) (mjoin closed)))]
      end
  end.

(** The configuration, and the keywords left in the dictionary of the decorator. *)
Definition resolve (i : intent) (config : option DecoratorConfig) (backend : option B) (kws : list kwarg)
  : result exn DecoratorConfig * list kwarg :=
  match config, i with
  | Some c, _ =>
      (match kws, backend with
       | [], None => Ok c
       | _, _ => construct c (kws ++ match backend with Some b => [kw_backend (Some b)] | None => [] end)
       end, kws)
  | None, Minimal => (minimal (settings_key env) default_serializer (kw_backend backend :: kws), kws)
  | None, Production => (production (settings_key env) default_serializer (kw_backend backend :: kws), kws)
  | None, Secure =>
      let (key, kws) := take_kw as_master_key kws in
      let (extractor, kws) := take_kw as_tenant_extractor kws in
      let key := if given (mjoin key) then mjoin key else settings_key env in
      (if given key
       then secure (settings_key env) default_serializer key (mjoin extractor) (kw_backend backend :: kws)
       else Err (PyExn ValueError), kws)
  | None, Dev => (dev (settings_key env) default_serializer (kw_backend backend :: kws), kws)
  | None, Test => (test (settings_key env) default_serializer (kw_backend backend :: kws), kws)
  | None, Io => (io (settings_key env) default_serializer (api_key env) (new_io_backend env) kws, kws)
  | None, _ => (construct defaults (kw_backend backend :: kws), kws)
  end.

(** Whether [backend=None] was written, and the backend to use. *)
Definition chosen_backend (given_backend : option (option B)) : bool * option B :=
  match given_backend with
  | Some None => (true, None)
  | Some (Some b) => (false, Some b)
  | None => (false, default_backend env)
  end.

Inductive outcome := LocalCache (kws : list kwarg) | Cached (c : DecoratorConfig) (l1_only : bool).

(** One application of the decorator.  [manual_overrides] is the dictionary the
    decorator closes over: what is popped stays popped. *)
Definition decorator (i : intent) (config : option DecoratorConfig) (manual_overrides : list kwarg)
  : result exn outcome * list kwarg :=
  match i, config with
  | Local, Some _ => (Err (PyExn TypeError), manual_overrides)
  | Local, None => (Ok (LocalCache manual_overrides), manual_overrides)
  | _, _ =>
      let (given_backend, kws) := take_kw as_backend manual_overrides in
      let (l1_only, backend) := chosen_backend given_backend in
      let kws := nest_l1_enabled kws in
      let kws := match config, i with None, Bare => nest_encryption kws | _, _ => kws end in
      let (r, kws) := resolve i config backend kws in
      (c <-! r ; Ok (Cached c l1_only), kws)
  end.

(** ** [create_cache_wrapper], before the wrappers are defined *)

(** The parameters; [custom_key_func] and [l1_max_size_mb] come from a configuration. *)
Record parameters := mkParameters {
  p_ttl : option num;
  p_stale_ttl : option stale_value;
  p_namespace : option pystr;
  p_serializer : S;
  p_integrity_checking : bool;
  p_encryption : option bool;
  p_tenant_extractor : option X;
  p_single_tenant_mode : bool;
  p_deployment_uuid : option pystr;
  p_master_key : option pystr;
  p_encryption_fail_closed : option bool;
  p_refresh_ttl_on_get : bool;
  p_ttl_refresh_threshold : float;
  p_l1_enabled : bool;
  p_backend : option B;
  p_circuit_breaker : bool;
  p_backpressure : bool;
  p_max_concurrent_requests : Z;
  p_collect_stats : bool;
  p_enable_structured_logging : bool;
  p_interop : option pystr;
  custom_key_func : option K;
  l1_max_size_mb : option Z
}.

(** The defaults of the signature. *)
Definition no_parameters : parameters :=
  mkParameters None None None default_serializer true None None false None None None false
    one_half true None true true 100 true true None None None.

(** [x if parameter is None else parameter] *)
Definition unless_given {A} (parameter config : option A) : option A :=
  match parameter with None => config | Some _ => parameter end.

(** A configuration overrides every parameter, four of them only when not given. *)
Definition override (config : option DecoratorConfig) (p : parameters) : result exn parameters :=
  match config with
  | None => Ok p
  | Some c =>
      _ <-! _validate_config (settings_key env) c ;
      match encryption c with
      | inl _ => Err AttributeError
      | inr e =>
          Ok (mkParameters (unless_given (p_ttl p) (ttl c)) (unless_given (p_stale_ttl p) (stale_ttl c))
                (unless_given (p_namespace p) (namespace c)) (serializer c) (integrity_checking c)
                (enc_enabled e) (tenant_extractor e) (single_tenant_mode e) (deployment_uuid e)
                (enc_master_key e) (fail_closed e) (refresh_ttl_on_get c) (ttl_refresh_threshold c)
                (l1_enabled (l1 c)) (unless_given (p_backend p) (backend c))
                (breaker_enabled (circuit_breaker c)) (backpressure_enabled (backpressure c))
                (max_concurrent_requests (backpressure c)) (collect_stats (monitoring c))
                (enable_structured_logging (monitoring c)) (unless_given (p_interop p) (interop c))
                (key c) (max_size_mb (l1 c)))
      end
  end.

(** What [FeatureOrchestrator] is given; [D] the dictionary of breaker settings. *)
Record features (D : Type) := mkFeatures {
  f_namespace : pystr;
  circuit_breaker_enabled : bool;
  circuit_breaker_config : option D;
  backpressure_config : option Z;  (* max_concurrent, when enabled *)
  f_collect_stats : bool;
  f_enable_structured_logging : bool
}.

Definition namespace_or_default (n : option pystr) : pystr :=
  match n with None | Some [] => u "default" | Some s => s end.

Definition feature_arguments {D} (p : parameters) (fast_mode : bool) (breaker_config : option D) : features D :=
  mkFeatures D (namespace_or_default (p_namespace p)) (p_circuit_breaker p && negb fast_mode) breaker_config
    (if p_backpressure p && negb fast_mode then Some (p_max_concurrent_requests p) else None)
    (p_collect_stats p && negb fast_mode) (p_enable_structured_logging p && negb fast_mode).

(** A backend's [key_prefix] and [_key_prefix], and whether it has
    [get_with_freshness]. *)
Context (prefixes : B -> option pystr * option pystr) (has_freshness : B -> bool).

Definition check_interop (p : parameters) (fast_mode l1_only : bool) : result exn unit :=
  match p_interop p with
  | None => Ok tt
  | Some _ =>
      _ <-! checked_interop (p_interop p) (p_namespace p) (bool_decide (is_Some (custom_key_func p))) ;
      _ <-! require (negb fast_mode) ;
      _ <-! require (negb l1_only) ;
      match ensure_interop_backend_compatible (prefixes <$> p_backend p) with
      | Ok _ => Ok tt
      | Err _ => Err Effects.ConfigurationError
      end
  end.

Definition _max_total_ttl : Z := 2592000.

Definition swr_capable (p : parameters) : bool :=
  match p_backend p with Some b => has_freshness b | None => false end.

Definition positive (t : option num) : bool := match t with Some n => num_gtZ n 0 | None => false end.

(** [ttl is None or ttl <= 0] *)
Definition not_positive (t : option num) : bool := match t with Some n => num_leZ n 0 | None => true end.

(** The stale window of the wrapper. *)
Definition stale_window (p : parameters) (by_default : bool) : result exn (option num) :=
  match p_stale_ttl p with
  | Some (StaleBool _) | Some StaleOther => Err Effects.ConfigurationError
  | Some (StaleInt z) =>
      if z <? 0 then Err Effects.ConfigurationError
      else if z =? 0 then Ok None
      else if not_positive (p_ttl p) then Err Effects.ConfigurationError
      else
        match p_ttl p with
        | None => Err Effects.ConfigurationError
        | Some t =>
            total <-! num_addZ t z ;
            _ <-! require (negb (num_gtZ total _max_total_ttl)) ;
            _ <-! require (swr_capable p) ;
            Ok (Some (NInt z))
        end
  | None =>
      match p_ttl p with
      | Some t =>
          if by_default && num_gtZ t 0 && swr_capable p then
            rest <-! num_subZ _max_total_ttl t ;
            let window := if num_lt rest t then rest else t in
            Ok (if num_gtZ window 0 then Some window else None)
          else Ok None
      | None => Ok None
      end
  end.

(** The object cache of the L1-only mode: its bytes and its refresh threshold. *)
Definition object_cache_arguments (config : option DecoratorConfig) (p : parameters) (l1_only : bool)
  : option (Z * float) :=
  let c := match config with Some c => l1 c | None => default_l1 end in
  let budget := default (settings_l1_max_size_mb env) (max_size_mb c) in
  if l1_only && p_l1_enabled p then Some (budget * 1024 * 1024, swr_threshold_ratio c) else None.

Record prepared (D H : Type) := mkPrepared {
  w_parameters : parameters;
  w_handler : H;
  w_features : features D;
  w_objects : option (Z * float);
  _l1_swr_active : bool;
  _stale_ttl : option num
}.

(** [CacheSerializationHandler(...)], which may refuse its arguments. *)
Context {D H : Type} (new_handler : parameters -> result exn H).

Definition create_cache_wrapper (config : option DecoratorConfig) (p : parameters) (fast_mode : bool)
    (breaker_config : option D) (l1_only : bool) : result exn (prepared D H) :=
  p <-! override config p ;
  _ <-! check_interop p fast_mode l1_only ;
  handler <-! new_handler p ;
  _ <-! validate_encryption_config (settings_key env) (p_encryption p) (p_master_key p) ;
  let objects := object_cache_arguments config p l1_only in
  let swr := match config with Some c => swr_enabled (l1 c) | None => swr_enabled default_l1 end in
  window <-! stale_window p (match config with Some c => swr_by_default c | None => false end) ;
  Ok (mkPrepared D H p handler (feature_arguments p fast_mode breaker_config) objects
        (bool_decide (is_Some objects) && swr && positive (p_ttl p)) window).

(** [_apply_cache_logic]: the wrapper of a resolved configuration. *)
Definition _apply_cache_logic (c : DecoratorConfig) (l1_only : bool) : result exn (prepared D H) :=
  create_cache_wrapper (Some c) no_parameters false None l1_only.

End Decoration.
Arguments environment : clear implicits.
Arguments outcome : clear implicits.
Arguments parameters : clear implicits.
