(* ===== verification/DecorationProps.v ===== *)
(** What decorating a function guarantees, and what it forgets. *)
From Stdlib Require Import ZArith Lia SpecFloat.
From stdpp Require Import base list numbers option strings.
From S2P Require Import Prelude PyFloat PyValue Interop Effects Configuration Decoration.

Local Open Scope Z_scope.
Local Open Scope py_scope.

Section Props.
Context {B K X S : Type}.
Local Abbreviation DecoratorConfig := (DecoratorConfig B K X S).
Local Abbreviation kwarg := (kwarg B K X S).
Context (default_serializer : S) (env : environment B).
Local Abbreviation decorator := (decorator (K := K) (X := X) default_serializer env).
Local Abbreviation construct := (construct (settings_key env)).

(** ** Valid configurations *)

Definition number_ok (t : option num) : Prop :=
  match t with
  | None => True
  | Some (NInt z) => 0 <= z
  | Some (NFloat f) => isfinite f = true /\ fltZ f 0 = false
  end.

(** One way of telling tenants apart, and a key, when encryption is forced on. *)
Definition encryption_ok (e : EncryptionConfig X) : Prop :=
  enc_enabled e = Some true ->
  given (_resolve_master_key (settings_key env) e) = true /\
  (tenant_extractor e = None <-> single_tenant_mode e = true).

Definition well_formed (c : DecoratorConfig) : Prop :=
  number_ok (ttl c) /\
  (fgeZ (ttl_refresh_threshold c) 0 = true /\ fleZ (ttl_refresh_threshold c) 1 = true) /\
  (fgtZ (swr_threshold_ratio (l1 c)) 0 = true /\ fleZ (swr_threshold_ratio (l1 c)) 1 = true) /\
  (forall m, max_size_mb (l1 c) = Some m -> 1 <= m) /\
  1 <= failure_threshold (circuit_breaker c) /\ 1 <= success_threshold (circuit_breaker c) /\
  1 <= half_open_requests (circuit_breaker c) /\ 1 <= max_concurrent_requests (backpressure c) /\
  (forall op, interop c = Some op -> exists ns, namespace c = Some ns /\ key c = None /\
     segment_ok op = true /\ segment_ok ns = true) /\
  exists e, encryption c = inr e /\ encryption_ok e.

Lemma require_ok b u : require b = Ok u -> b = true.
Proof. by destruct b. Qed.

Lemma validate_ttl_ok t u : validate_ttl t = Ok u -> number_ok t.
Proof.
  destruct t as [[z|f]|]; [| |done]; unfold validate_ttl, num_isfinite, to_float, number_ok; intros E; case_all; try lia.
  by destruct (isfinite f).
Qed.

Lemma checked_interop_ok op ns has_key u : checked_interop (Some op) ns has_key = Ok u ->
  exists s, ns = Some s /\ has_key = false /\ segment_ok op = true /\ segment_ok s = true.
Proof.
  unfold checked_interop, text, validate_interop_config, validate_segment. simpl.
  destruct (segment_ok op) eqn:E1; [|done]. destruct ns as [s|]; [|done]. simpl.
  destruct (segment_ok s) eqn:E2; [|done]. simpl. destruct has_key; [done|]. intros _. by exists s.
Qed.

Lemma validate_encryption_ok e u : validate_encryption (settings_key env) e = Ok u -> encryption_ok e.
Proof.
  unfold validate_encryption, encryption_ok. intros E En. rewrite En in E.
  apply rbind_ok in E as ([] & E1%require_ok & E). apply rbind_ok in E as ([] & E2%require_ok & E3%require_ok).
  split; [done|]. destruct (tenant_extractor e), (single_tenant_mode e); naive_solver.
Qed.

Lemma config_validated c u : _validate_config (settings_key env) c = Ok u -> well_formed c.
Proof.
  unfold _validate_config, validate_l1, validate_breaker, validate_backpressure. intros E.
  apply rbind_ok in E as (? & E1%validate_ttl_ok & E). apply rbind_ok in E as (? & E2%require_ok & E).
  apply rbind_ok in E as (? & E3 & E). apply rbind_ok in E as (? & E4 & E).
  apply rbind_ok in E4 as (? & E4%require_ok & E5%require_ok). apply rbind_ok in E as (? & E6 & E).
  apply rbind_ok in E6 as (? & E6%require_ok & E7). apply rbind_ok in E7 as (? & E7%require_ok & E8%require_ok).
  apply rbind_ok in E as (? & E9%require_ok & E). apply andb_prop in E2 as [], E5 as []. zbool.
  unfold well_formed. split_and!; try done.
  - intros m Em. rewrite Em in E4. lia.
  - intros op Eo. rewrite Eo in E3. apply checked_interop_ok in E3 as (s & -> & Ek & ? & ?).
    exists s. split_and!; try done. destruct (key c); [done|done].
  - destruct (encryption c) as [|e]; [done|]. exists e. split; [done|]. by eapply validate_encryption_ok.
Qed.

Lemma constructed base kws c : construct base kws = Ok c -> well_formed c.
Proof.
  unfold Configuration.construct. destruct (foldl _ _ _) as [d|]; [|done]. intros E.
  apply rbind_ok in E as (? & V%config_validated & [= <-]). done.
Qed.

Lemma preset_constructed own also kws c : preset (settings_key env) default_serializer own also kws = Ok c -> well_formed c.
Proof. unfold preset. destruct (existsb _ _); [done|]. apply constructed. Qed.

Lemma resolved i config b kws c kws' : (forall c0, config = Some c0 -> well_formed c0) ->
  resolve default_serializer env i config b kws = (Ok c, kws') -> well_formed c.
Proof.
  intros H0 E. unfold resolve in E. destruct config as [c0|].
  - destruct kws, b; simplify_eq/=; eauto using constructed.
  - destruct i; unfold minimal, production, dev, test, io, secure in E; repeat case_match; simplify_eq/=;
      eauto using constructed, preset_constructed.
    apply rbind_ok in H1 as (? & _ & ?). eauto using preset_constructed.
Qed.

(** An application that succeeds, step by step. *)
Lemma decorated i config kws c l1_only kws' : decorator i config kws = (Ok (Cached c l1_only), kws') ->
  exists given_backend kws1 backend,
    take_kw as_backend kws = (given_backend, kws1) /\ chosen_backend env given_backend = (l1_only, backend) /\
    let nested := nest_l1_enabled kws1 in
    resolve default_serializer env i config backend
      (match config, i with None, Bare => nest_encryption nested | _, _ => nested end) = (Ok c, kws').
Proof.
  unfold Decoration.decorator. destruct (take_kw as_backend kws) as [given_backend kws1].
  destruct (chosen_backend env given_backend) as [l b] eqn:Eb.
  intros E. exists given_backend, kws1, b. rewrite Eb.
  destruct i, config; try done; cbv zeta in E |- *;
    match type of E with context [let (_, _) := ?r in _] => destruct r as [[c'|x] k'] eqn:Er end; by simplify_eq/=.
Qed.

(** C12. Whatever keywords and preset are used, a function is decorated with a
    valid configuration: a finite TTL that is not negative, ratios and limits in
    range, interop with a namespace and no custom key, and forced encryption with
    a key and exactly one way of telling tenants apart. *)
Theorem resolved_config_valid i config kws c l1_only kws' :
  (forall c0, config = Some c0 -> well_formed c0) ->
  decorator i config kws = (Ok (Cached c l1_only), kws') -> well_formed c.
Proof. intros H0 (g & k1 & b & _ & _ & E)%decorated. by eapply resolved. Qed.

(** ** Applying a decorator twice *)

Lemma take_kw_absent {A} (f : kwarg -> option A) kws : Forall (fun k => f k = None) kws -> take_kw f kws = (None, kws).
Proof.
  intros H. unfold take_kw. assert (E1 : omap f kws = []).
  { induction H as [|k kws E _ IH]; [done|]. cbn. by rewrite E. }
  rewrite E1. f_equal. clear E1. induction H as [|k kws E _ IH]; [done|]. simpl. by rewrite E, IH.
Qed.

Lemma take_kw_none {A} (f : kwarg -> option A) kws r : take_kw f kws = (None, r) -> Forall (fun k => f k = None) kws.
Proof.
  unfold take_kw. intros E. apply (f_equal fst) in E. cbn [fst] in E.
  induction kws as [|k kws IH]; [constructor|]. cbn in E.
  destruct (f k) eqn:Ek; [done|]. constructor; [done|]. by apply IH.
Qed.

Lemma take_kw_left {A} (f : kwarg -> option A) kws : Forall (fun k => f k = None) (take_kw f kws).2.
Proof.
  unfold take_kw. simpl. induction kws as [|k kws IH]; [constructor|]. simpl.
  destruct (f k) eqn:E; [done|]. by constructor.
Qed.

Lemma take_kw_keeps {A} (f : kwarg -> option A) (P : kwarg -> Prop) kws : Forall P kws -> Forall P (take_kw f kws).2.
Proof.
  unfold take_kw. simpl. induction 1 as [|k kws Hk _ IH]; [constructor|]. simpl. destruct (f k); [done|]. by constructor.
Qed.

Lemma take_kw_some {A} (f : kwarg -> option A) kws v r : take_kw f kws = (Some v, r) -> exists k, k ∈ kws /\ f k = Some v.
Proof.
  unfold take_kw. intros [= E _]. induction kws as [|k kws IH]; [done|]. cbn in E.
  destruct (f k) as [w|] eqn:Ek.
  - injection E as <-. exists k. split; [by left|done].
  - destruct (IH E) as (k' & Hk & E'). exists k'. split; [by right|done].
Qed.

Local Abbreviation no_backend := (Forall (fun k : kwarg => as_backend k = None)).
Local Abbreviation no_l1_enabled := (Forall (fun k : kwarg => as_l1_enabled k = None)).

Lemma nest_l1_keeps (P : kwarg -> Prop) kws : (forall c, P (kw_l1 c)) -> Forall P kws -> Forall P (nest_l1_enabled kws).
Proof.
  intros Hc H. unfold nest_l1_enabled. pose proof (take_kw_keeps as_l1_enabled P kws H) as H1.
  destruct (take_kw as_l1_enabled kws) as [[b|] kws1]; [|done]. simpl in H1.
  pose proof (take_kw_keeps as_l1 P kws1 H1) as H2. destruct (take_kw as_l1 kws1) as [e kws2]. simpl in H2.
  apply list.Forall_app. split; [done|]. by constructor.
Qed.

Lemma nest_l1_left (kws : list kwarg) : no_l1_enabled (nest_l1_enabled kws).
Proof.
  unfold nest_l1_enabled. pose proof (take_kw_left as_l1_enabled kws) as H1.
  destruct (take_kw as_l1_enabled kws) as [[b|] kws1] eqn:E; simpl in H1.
  - pose proof (take_kw_keeps as_l1 _ kws1 H1) as H2. destruct (take_kw as_l1 kws1) as [e kws2]. simpl in H2.
    apply list.Forall_app. split; [done|]. by constructor.
  - by eapply take_kw_none.
Qed.

Lemma nest_l1_again (kws : list kwarg) : nest_l1_enabled (nest_l1_enabled kws) = nest_l1_enabled kws.
Proof. unfold nest_l1_enabled at 1. by rewrite take_kw_absent by apply nest_l1_left. Qed.
Lemma nest_encryption_keeps (P : kwarg -> Prop) kws : (forall e, P (kw_encryption (inr e))) -> Forall P kws ->
  Forall P (nest_encryption kws).
Proof.
  intros Hc H. unfold nest_encryption.
  pose proof (take_kw_keeps as_encryption P kws H) as H0. destruct (take_kw as_encryption kws) as [flag k0].
  pose proof (take_kw_keeps as_master_key P k0 H0) as H1. destruct (take_kw as_master_key k0) as [key k1].
  pose proof (take_kw_keeps as_tenant_extractor P k1 H1) as H2. destruct (take_kw as_tenant_extractor k1) as [ex k2].
  pose proof (take_kw_keeps as_single_tenant_mode P k2 H2) as H3. destruct (take_kw as_single_tenant_mode k2) as [st k3].
  pose proof (take_kw_keeps as_deployment_uuid P k3 H3) as H4. destruct (take_kw as_deployment_uuid k3) as [uuid k4].
  pose proof (take_kw_keeps as_fail_closed P k4 H4) as H5. destruct (take_kw as_fail_closed k4) as [fc k5].
  cbn [snd] in *. assert (G : forall e, Forall P (k5 ++ [kw_encryption (inr e)])).
  { intros e. apply list.Forall_app. split; [done|]. by constructor. }
  destruct flag as [[b|e]|]; [apply G|done|]. destruct key, ex, st, uuid, fc; try apply G; done.
Qed.

(** What is nested passes through unchanged the next time. *)
Lemma nest_encryption_again (kws : list kwarg) : nest_encryption (nest_encryption kws) = nest_encryption kws.
Proof.
  assert (G : forall (k : list kwarg) e, Forall (fun k => as_encryption k = None) k ->
    nest_encryption (k ++ [kw_encryption (inr e)]) = k ++ [kw_encryption (inr e)]).
  { intros k e H. unfold nest_encryption, take_kw at 1.
    assert (E : omap as_encryption (k ++ [kw_encryption (inr e)]) = [inr e]).
    { induction H as [|x k Hx _ IH]; [done|]. cbn. rewrite Hx. exact IH. }
    by rewrite E. }
  unfold nest_encryption at 2 3. pose proof (take_kw_left as_encryption kws) as H0.
  destruct (take_kw as_encryption kws) as [flag k0] eqn:E0. cbn [snd] in H0.
  pose proof (take_kw_keeps as_master_key _ k0 H0) as H1. destruct (take_kw as_master_key k0) as [key k1] eqn:E1.
  pose proof (take_kw_keeps as_tenant_extractor _ k1 H1) as H2. destruct (take_kw as_tenant_extractor k1) as [ex k2] eqn:E2.
  pose proof (take_kw_keeps as_single_tenant_mode _ k2 H2) as H3. destruct (take_kw as_single_tenant_mode k2) as [st k3] eqn:E3.
  pose proof (take_kw_keeps as_deployment_uuid _ k3 H3) as H4. destruct (take_kw as_deployment_uuid k3) as [uuid k4] eqn:E4.
  pose proof (take_kw_keeps as_fail_closed _ k4 H4) as H5. destruct (take_kw as_fail_closed k4) as [fc k5] eqn:E5.
  cbn [snd] in *. destruct flag as [[b|e]|]; [by apply G| |].
  - unfold nest_encryption. by rewrite E0.
  - destruct key, ex, st, uuid, fc; try by apply G.
    unfold nest_encryption. by rewrite E0, E1, E2, E3, E4, E5.
Qed.

(** ** One keyword changed *)

Definition with_backend (b : option B) (c : DecoratorConfig) : DecoratorConfig :=
  mkConfig (ttl c) (stale_ttl c) (swr_by_default c) (namespace c) (serializer c) (integrity_checking c) (key c)
    (interop c) (refresh_ttl_on_get c) (ttl_refresh_threshold c) b (l1 c) (circuit_breaker c) (backpressure c)
    (monitoring c) (encryption c).

Definition with_encryption e (c : DecoratorConfig) : DecoratorConfig :=
  mkConfig (ttl c) (stale_ttl c) (swr_by_default c) (namespace c) (serializer c) (integrity_checking c) (key c)
    (interop c) (refresh_ttl_on_get c) (ttl_refresh_threshold c) (Configuration.backend c) (l1 c) (circuit_breaker c)
    (backpressure c) (monitoring c) e.

Definition assign_all (c : option DecoratorConfig) (kws : list kwarg) : option DecoratorConfig :=
  foldl (fun c k => match c with Some c => assign c k | None => None end) c kws.

Lemma assign_all_none kws : assign_all None kws = None.
Proof. by induction kws. Qed.

(** An update that no keyword touches commutes with all of them. *)
Lemma assign_all_commutes (up : DecoratorConfig -> DecoratorConfig) kws c :
  Forall (fun k => forall c, assign (up c) k = up <$> assign c k) kws ->
  assign_all (Some (up c)) kws = up <$> assign_all (Some c) kws.
Proof.
  intros H. revert c. induction H as [|k kws Hk _ IH]; intros c; [done|]. cbn [assign_all foldl].
  rewrite Hk. destruct (assign c k) as [d|]; [apply IH|]. cbn. by rewrite !assign_all_none.
Qed.

Lemma backend_commutes b k : as_backend k = None -> forall c, assign (with_backend b c) k = with_backend b <$> assign c k.
Proof. by destruct k. Qed.

Lemma encryption_commutes e k : as_encryption k = None ->
  forall c, assign (with_encryption e c) k = with_encryption e <$> assign c k.
Proof. by destruct k. Qed.

Lemma construct_backend base b b' kws c : no_backend kws ->
  construct base (kw_backend b :: kws) = Ok c -> construct base (kw_backend b' :: kws) = Ok (with_backend b' c).
Proof.
  intros N. unfold Configuration.construct. change (foldl _ (Some base) (kw_backend ?x :: kws))
    with (assign_all (Some (with_backend x base)) kws).
  assert (C : forall x, assign_all (Some (with_backend x base)) kws = with_backend x <$> assign_all (Some base) kws).
  { intros x. apply assign_all_commutes. eapply list.Forall_impl; [exact N|]. intros k. apply backend_commutes. }
  rewrite !C. destruct (assign_all (Some base) kws) as [d|]; [|done]. simpl.
  intros E. apply rbind_ok in E as ([] & V & [= <-]). unfold _validate_config in V |- *. cbn in V |- *. by rewrite V.
Qed.

(** A decorator made with [backend=None] is in-process only the first time it
    is applied: the keyword is popped from the dictionary it closes over, so the
    next function it decorates gets the module's default backend, or the one of
    the provider, with everything else unchanged. *)
Theorem decorator_forgets_backend kws c kws' :
  decorator Bare None kws = (Ok (Cached c true), kws') ->
  decorator Bare None kws' = (Ok (Cached (with_backend (default_backend env) c) false), kws').
Proof.
  intros (g & k1 & b & Et & Ec & Er)%decorated.
  destruct g as [[b0|]|]; [done| |done]. simpl in Ec. simplify_eq.
  pose proof (take_kw_left as_backend kws) as N. rewrite Et in N. cbn [snd] in N.
  cbv zeta in Er. cbn [resolve] in Er. set (nested := nest_encryption (nest_l1_enabled k1)) in *.
  assert (Nb : no_backend nested) by (apply nest_encryption_keeps, nest_l1_keeps; done).
  assert (Nl : no_l1_enabled nested) by (apply nest_encryption_keeps, nest_l1_left; done).
  injection Er as Er <-. unfold Decoration.decorator.
  rewrite (take_kw_absent as_backend nested Nb). cbn [chosen_backend].
  assert (El : nest_l1_enabled nested = nested) by (unfold nest_l1_enabled; by rewrite take_kw_absent).
  rewrite El. cbv zeta. assert (Ee : nest_encryption nested = nested) by apply nest_encryption_again.
  rewrite Ee. cbn [resolve]. by rewrite (construct_backend _ None _ nested c Nb Er).
Qed.

Lemma take_kw_cons {A} (f : kwarg -> option A) k kws : f k = None ->
  take_kw f (k :: kws) = let (v, r) := take_kw f kws in (v, k :: r).
Proof. intros E. unfold take_kw. cbn. by rewrite E. Qed.

(** What [secure] leaves of its keywords. *)
Definition secure_rest (kws : list kwarg) : list kwarg :=
  (take_kw as_integrity_checking (take_kw as_fail_closed (take_kw as_deployment_uuid
     (take_kw as_single_tenant_mode kws).2).2).2).2.

Definition secured (key : option pystr) (extractor : option X) (single : bool) uuid closed : EncryptionConfig X :=
  mkEncryptionConfig (Some true) key extractor single uuid closed.

(** The configuration of [secure] but for its backend and encryption. *)
Definition secure_base : DecoratorConfig :=
  mkConfig None None false None default_serializer true None None false one_half None
    (l1_swr true) (breaker true) (pressure true) (observed true true) (inr default_encryption).

Local Abbreviation secure := (Configuration.secure (settings_key env) default_serializer).

Definition secure_taken (k : kwarg) : bool :=
  preset_keyword k || match k with kw_encryption _ => true | _ => false end.

Lemma not_taken kws : existsb secure_taken kws = false -> Forall (fun k => as_encryption k = None) kws.
Proof.
  induction kws as [|k kws IH]; [constructor|]. simpl. intros [E1 E2]%orb_false_iff.
  constructor; [by destruct k|by apply IH].
Qed.

(** [secure] as an update of one configuration by the backend and the encryption. *)
Lemma secure_spec key extractor b (kws : list kwarg) : no_backend kws -> Forall (fun k => as_single_tenant_mode k = None) kws ->
  secure key extractor (kw_backend b :: kws) =
    let rest := secure_rest kws in
    let uuid := mjoin (take_kw as_deployment_uuid kws).1 in
    let closed := mjoin (take_kw as_fail_closed (take_kw as_deployment_uuid kws).2).1 in
    if existsb secure_taken rest then Err (PyExn TypeError)
    else
      match assign_all (Some secure_base) rest with
      | None => Err (PyExn TypeError)
      | Some d =>
          let c := with_backend b
            (with_encryption (inr (secured key extractor (bool_decide (extractor = None)) uuid closed)) d) in
          _ <-! _validate_config (settings_key env) c ; Ok c
      end.
Proof.
  intros Nb Ns. unfold Configuration.secure, secure_rest.
  rewrite take_kw_cons, (take_kw_absent as_single_tenant_mode kws Ns) by done. cbn [snd].
  rewrite take_kw_cons by done.
  pose proof (take_kw_keeps as_deployment_uuid _ kws Nb) as N1.
  destruct (take_kw as_deployment_uuid kws) as [uuid k1]. cbn [fst snd] in *. rewrite take_kw_cons by done.
  pose proof (take_kw_keeps as_fail_closed _ k1 N1) as N2.
  destruct (take_kw as_fail_closed k1) as [closed k2]. cbn [fst snd] in *. rewrite take_kw_cons by done.
  pose proof (take_kw_keeps as_integrity_checking _ k2 N2) as N3.
  destruct (take_kw as_integrity_checking k2) as [ic rest]. cbn [snd] in *. cbv zeta.
  unfold preset. cbn [existsb]. change (preset_keyword (kw_backend b) || false) with false. cbn [orb].
  fold secure_taken. change (existsb (fun k => _) rest) with (existsb secure_taken rest).
  destruct (existsb secure_taken rest) eqn:Ex; [done|]. apply not_taken in Ex.
  unfold Configuration.construct, profile. set (e := inr (mkEncryptionConfig _ _ _ _ _ _)).
  change (foldl _ (Some (defaults default_serializer)) (_ ++ kw_backend b :: rest))
    with (assign_all (Some (with_backend b (with_encryption e secure_base))) rest).
  rewrite (assign_all_commutes (fun c => with_backend b (with_encryption e c))).
  - by destruct (assign_all (Some secure_base) rest).
  - apply list.Forall_forall. intros k Hk d. apply (proj1 (list.Forall_forall _ _) N3) in Hk as H1.
    apply (proj1 (list.Forall_forall _ _) Ex) in Hk as H2. by destruct k.
Qed.

(** The validation of one and the same configuration under another encryption. *)
Lemma revalidated b b' e e' d : _validate_config (settings_key env) (with_backend b (with_encryption (inr e) d)) = Ok tt ->
  validate_encryption (settings_key env) e' = Ok tt ->
  _validate_config (settings_key env) (with_backend b' (with_encryption (inr e') d)) = Ok tt.
Proof.
  unfold _validate_config. cbn. intros E V.
  repeat (apply rbind_ok in E as (? & E1 & E); rewrite E1; cbn [rbind]; clear E1). done.
Qed.

(** C24. The decorator [cache.secure(tenant_extractor=...)] forgets its extractor
    (and its key) after the first function it decorates: with a master key in the
    environment, the next one is encrypted in single-tenant mode, its tenants
    sharing one key. *)
Theorem decorator_forgets_tenants kws c l1_only kws' e x :
  Forall (fun k => as_single_tenant_mode k = None) kws -> given (settings_key env) = true ->
  decorator Secure None kws = (Ok (Cached c l1_only), kws') ->
  encryption c = inr e -> tenant_extractor e = Some x ->
  exists c' e', decorator Secure None kws' = (Ok (Cached c' false), kws') /\
    encryption c' = inr e' /\ tenant_extractor e' = None /\ single_tenant_mode e' = true /\
    enc_master_key e' = settings_key env.
Proof.
  intros Ns Gk (g & k1 & b & Et & Ec & Er)%decorated Ee Ex.
  pose proof (take_kw_left as_backend kws) as Nb. pose proof (take_kw_keeps as_backend _ kws Ns) as Ns1.
  rewrite Et in Nb, Ns1. cbn [snd] in Nb, Ns1. cbv zeta in Er.
  pose proof (nest_l1_left k1) as Nl. pose proof (nest_l1_keeps _ k1 (fun _ => eq_refl) Nb) as Nb1.
  pose proof (nest_l1_keeps _ k1 (fun _ => eq_refl) Ns1) as Ns2. clear Nb Ns1 Et.
  set (n := nest_l1_enabled k1) in *. clearbody n. cbn [resolve] in Er.
  pose proof (take_kw_left as_master_key n) as Nk.
  pose proof (take_kw_keeps as_master_key _ n Nb1) as Nb2. pose proof (take_kw_keeps as_master_key _ n Ns2) as Ns3.
  pose proof (take_kw_keeps as_master_key _ n Nl) as Nl1.
  destruct (take_kw as_master_key n) as [key n1]. cbn [snd] in *.
  pose proof (take_kw_left as_tenant_extractor n1) as Nx. pose proof (take_kw_keeps as_tenant_extractor _ n1 Nk) as Nk1.
  pose proof (take_kw_keeps as_tenant_extractor _ n1 Nb2) as Nb3.
  pose proof (take_kw_keeps as_tenant_extractor _ n1 Ns3) as Ns4.
  pose proof (take_kw_keeps as_tenant_extractor _ n1 Nl1) as Nl2.
  destruct (take_kw as_tenant_extractor n1) as [ex n2]. cbn [snd] in *.
  destruct (given (if given (mjoin key) then mjoin key else settings_key env)); [|done].
  injection Er as Er <-. rewrite secure_spec in Er by done. cbv zeta in Er.
  destruct (existsb secure_taken (secure_rest n2)) eqn:E1; [done|].
  destruct (assign_all (Some secure_base) (secure_rest n2)) as [d|] eqn:E2; [|done].
  apply rbind_ok in Er as ([] & V & [= <-]).
  unfold Decoration.decorator. rewrite (take_kw_absent as_backend n2 Nb3). cbn [chosen_backend].
  assert (El : nest_l1_enabled n2 = n2) by (unfold nest_l1_enabled; by rewrite take_kw_absent).
  rewrite El. cbn [resolve]. rewrite (take_kw_absent as_master_key n2 Nk1), (take_kw_absent as_tenant_extractor n2 Nx).
  cbn [mjoin option_join given]. rewrite Gk, secure_spec by done. cbv zeta. rewrite E1, E2.
  eexists _, _. split.
  - erewrite revalidated; [reflexivity|exact V|]. by destruct (settings_key env) as [[|? ?]|].
  - split; [reflexivity|done].
Qed.

Lemma untouched (kws : list kwarg) c d : existsb secure_taken kws = false -> assign_all (Some c) kws = Some d ->
  integrity_checking d = integrity_checking c /\ encryption d = encryption c.
Proof.
  revert c. induction kws as [|k kws IH]; intros c Ex E; [by simplify_eq/=|].
  simpl in Ex. apply orb_false_iff in Ex as [E1 E2]. cbn [assign_all foldl] in E.
  destruct (assign c k) as [c'|] eqn:Ec; [|by rewrite assign_all_none in E].
  destruct (IH c' E2 E) as [-> ->]. destruct k; simplify_eq/=; done.
Qed.

(** [secure] fixes the integrity checks and the encryption. *)
Lemma secured_well key extractor (kws : list kwarg) c : secure key extractor kws = Ok c ->
  integrity_checking c = true /\ exists e, encryption c = inr e /\ enc_enabled e = Some true /\ enc_master_key e = key.
Proof.
  unfold Configuration.secure. destruct (take_kw as_single_tenant_mode kws) as [st k1].
  destruct (take_kw as_deployment_uuid k1) as [uuid k2]. destruct (take_kw as_fail_closed k2) as [closed k3].
  destruct (take_kw as_integrity_checking k3) as [ic rest]. unfold preset.
  change (existsb _ rest) with (existsb secure_taken rest). destruct (existsb secure_taken rest) eqn:Ex; [done|].
  unfold Configuration.construct, profile. set (e := mkEncryptionConfig _ _ _ _ _ _).
  change (foldl _ (Some (defaults default_serializer)) (_ ++ rest))
    with (assign_all (Some (with_encryption (inr e) secure_base)) rest).
  destruct (assign_all _ rest) as [d|] eqn:E; [|done]. intros Ec. apply rbind_ok in Ec as (? & _ & [= <-]).
  destruct (untouched _ _ _ Ex E) as [-> ->]. split; [done|]. by exists e.
Qed.

(** C11. [cache.secure] decides: without a configuration of the caller's own, every
    configuration it gives has integrity checks on and encryption forced on, with a
    key and exactly one way of telling tenants apart, whatever keywords are passed
    with it.  With [config=], the intent is not looked at: it is [cache(config=...)],
    and a configuration without encryption is used as it is. *)
Theorem secure_is_secure kws :
  (forall c l1_only kws', decorator Secure None kws = (Ok (Cached c l1_only), kws') ->
     integrity_checking c = true /\ exists e, encryption c = inr e /\ enc_enabled e = Some true /\
       given (enc_master_key e) = true /\ (tenant_extractor e = None <-> single_tenant_mode e = true)) /\
  (forall c, decorator Secure (Some c) kws = decorator Bare (Some c) kws) /\
  (forall c, default_backend env = None -> decorator Secure (Some c) [] = (Ok (Cached c false), [])).
Proof.
  split_and!; [|done|intros c E; unfold Decoration.decorator; cbn; by rewrite E].
  intros c l1_only kws' (g & k1 & b & _ & _ & E)%decorated. cbv zeta in E. cbn [resolve] in E.
  destruct (take_kw as_master_key _) as [key n1]. destruct (take_kw as_tenant_extractor n1) as [ex n2].
  destruct (given (if given (mjoin key) then mjoin key else settings_key env)) eqn:G; [|done].
  injection E as E _. pose proof (secured_well _ _ _ _ E) as (I & e & Ee & En & Ek). split; [done|].
  exists e. split_and!; [done..|by rewrite Ek|].
  assert (W : well_formed c) by (unfold Configuration.secure in E; repeat case_match; by eapply preset_constructed).
  destruct W as (_ & _ & _ & _ & _ & _ & _ & _ & _ & e' & Ee' & Ok').
  rewrite Ee in Ee'. injection Ee' as <-. by apply Ok'.
Qed.

Lemma omap_take {A C} (f : kwarg -> option A) (g : kwarg -> option C) kws : (forall k, f k = None \/ g k = None) ->
  omap g (take_kw f kws).2 = omap g kws.
Proof.
  intros Hd. unfold take_kw. cbn [snd]. induction kws as [|k kws IH]; [done|]. simpl.
  destruct (Hd k) as [E|E]; rewrite E; cbn; [by rewrite IH|]. destruct (f k); cbn; by rewrite ?E, IH.
Qed.

Lemma nest_l1_encryption (kws : list kwarg) : omap as_encryption (nest_l1_enabled kws) = omap as_encryption kws.
Proof.
  unfold nest_l1_enabled. pose proof (omap_take as_l1_enabled as_encryption kws (fun k => ltac:(destruct k; auto))) as E.
  destruct (take_kw as_l1_enabled kws) as [[b|] k1]; [|done]. cbn [snd] in E.
  pose proof (omap_take as_l1 as_encryption k1 (fun k => ltac:(destruct k; auto))) as E1.
  destruct (take_kw as_l1 k1) as [e k2]. cbn [snd] in E1. rewrite list.omap_app, E1, E. simpl. by rewrite app_nil_r.
Qed.

(** The flag is nested into a configuration of its own. *)
Lemma nest_flag (kws : list kwarg) flag : omap as_encryption kws = [inl flag] ->
  exists rest e, nest_encryption kws = rest ++ [kw_encryption (inr e)] /\ enc_enabled e = flag.
Proof.
  intros E. unfold nest_encryption, take_kw at 1. rewrite E. cbn [head].
  destruct (take_kw as_master_key _) as [key k1], (take_kw as_tenant_extractor k1) as [ex k2],
    (take_kw as_single_tenant_mode k2) as [st k3], (take_kw as_deployment_uuid k3) as [uuid k4],
    (take_kw as_fail_closed k4) as [fc k5]. by eexists _, _.
Qed.

(** [cache(encryption=False)] is an opt-out: the flag given to the bare
    decorator is the wrapper's, whatever the environment says (and so for [True]
    and [None]). *)
Theorem encryption_flag_kept kws flag c l1_only kws' p p' : omap as_encryption kws = [inl flag] ->
  decorator Bare None kws = (Ok (Cached c l1_only), kws') ->
  override env (Some c) p = Ok p' -> p_encryption p' = flag.
Proof.
  intros E (g & k1 & b & Et & _ & Er)%decorated Eo. cbv zeta in Er. cbn [resolve] in Er.
  pose proof (omap_take as_backend as_encryption kws (fun k => ltac:(destruct k; auto))) as E1. rewrite Et in E1. cbn [snd] in E1.
  destruct (nest_flag (nest_l1_enabled k1) flag) as (rest & e & En & Ef); [by rewrite nest_l1_encryption, E1|].
  rewrite En in Er. injection Er as Er _. unfold Configuration.construct in Er.
  change (foldl _ ?base (?k :: rest ++ [?x])) with (assign_all base ((k :: rest) ++ [x])) in Er.
  unfold assign_all in Er. rewrite foldl_app in Er. cbn [foldl] in Er.
  destruct (foldl _ _ _) as [d|]; [|done]. cbn [assign] in Er. apply rbind_ok in Er as (? & _ & [= <-]).
  unfold override in Eo. apply rbind_ok in Eo as (? & _ & [= <-]). done.
Qed.

(** ** The wrapper *)

Section Wrapped.
Context (prefixes : B -> option pystr * option pystr) (has_freshness : B -> bool).
Context {D H : Type} (new_handler : parameters B K X S -> result exn H).

(** An accepted stale window is positive and stays, together with the TTL,
    within the thirty days the storage keeps an entry; only a backend that
    reports freshness has one. *)
Theorem stale_window_bounds (p : parameters B K X S) by_default t w :
  p_ttl p = Some (NInt t) -> stale_window has_freshness p by_default = Ok (Some w) ->
  exists z, w = NInt z /\ 0 < z /\ 0 < t /\ t + z <= _max_total_ttl /\ swr_capable has_freshness p = true.
Proof.
  intros Et E. unfold stale_window in E. rewrite Et in E. destruct (p_stale_ttl p) as [[b|z|]|]; try done.
  - destruct (z <? 0) eqn:E1; [done|]. destruct (z =? 0) eqn:E2; [done|]. cbn [not_positive num_leZ] in E.
    destruct (t <=? 0) eqn:E3; [done|]. cbn [num_addZ rbind num_gtZ] in E.
    apply rbind_ok in E as (? & E4%require_ok & E). apply rbind_ok in E as (? & E5%require_ok & [= <-]).
    zbool. exists z. split_and!; try done; lia.
  - destruct (by_default && num_gtZ (NInt t) 0 && swr_capable has_freshness p) eqn:E1; [|done].
    cbn in E1. zbool. cbn [num_subZ rbind num_lt] in E. unfold _max_total_ttl in *.
    destruct (2592000 - t <? t) eqn:E2; cbn [num_gtZ] in E.
    + destruct (0 <? 2592000 - t) eqn:E3; [|done]. injection E as <-. zbool. eexists. split_and!; try done; lia.
    + destruct (0 <? t) eqn:E3; [|done]. injection E as <-. zbool. eexists. split_and!; try done; lia.
Qed.

(** The configuration with other numbers for the breaker and the queue. *)
Definition with_thresholds (failures successes recovery half_open : Z) (excluded : list pystr) (queue : Z)
    (wait : float) (c : DecoratorConfig) : DecoratorConfig :=
  mkConfig (ttl c) (stale_ttl c) (swr_by_default c) (namespace c) (serializer c) (integrity_checking c) (key c)
    (interop c) (refresh_ttl_on_get c) (ttl_refresh_threshold c) (Configuration.backend c) (l1 c)
    (mkBreakerConfig (breaker_enabled (circuit_breaker c)) failures successes recovery half_open excluded)
    (mkBackpressureConfig (backpressure_enabled (backpressure c)) (max_concurrent_requests (backpressure c)) queue wait)
    (monitoring c) (encryption c).

Local Abbreviation apply_logic := (_apply_cache_logic default_serializer env prefixes has_freshness (D := D) new_handler).

(** The thresholds and the recovery timeout a configuration gives for the
    circuit breaker, and the queue it gives for backpressure, have no effect: the
    wrapper is the same for any valid numbers. *)
Theorem thresholds_ignored failures successes recovery half_open excluded queue wait c l1_only :
  1 <= failures -> 1 <= successes -> 1 <= half_open -> _validate_config (settings_key env) c = Ok tt ->
  apply_logic (with_thresholds failures successes recovery half_open excluded queue wait c) l1_only =
    apply_logic c l1_only.
Proof.
  intros F1 F2 F3 V.
  assert (V' : _validate_config (settings_key env)
    (with_thresholds failures successes recovery half_open excluded queue wait c) = Ok tt).
  { unfold _validate_config in V |- *.
    apply rbind_ok in V as (? & E1 & V). apply rbind_ok in V as (? & E2 & V). apply rbind_ok in V as (? & E3 & V).
    apply rbind_ok in V as (? & E4 & V). apply rbind_ok in V as (? & _ & V). apply rbind_ok in V as (? & E6 & V).
    unfold validate_breaker, validate_backpressure in *. apply Z.leb_le in F1, F2, F3. cbn in *.
    rewrite E1, E2, E3, E4, F1, F2, F3, E6. cbn. done. }
  unfold _apply_cache_logic, create_cache_wrapper. f_equal.
  unfold override. rewrite V, V'. done.
Qed.
End Wrapped.
End Props.

(** ** Examples *)

(** Backends, key functions, extractors and serializers are numbers here. *)
Definition a_key : pystr := replicate 64 97.
Definition some_env : environment nat := mkEnv (Some 1%nat) (Some a_key) 100 true (Ok 2%nat).
Local Abbreviation kw := (kwarg nat nat nat nat).
Definition apply_once (i : intent) (kws : list kw) := decorator 0%nat some_env i None kws.
Definition result_of (i : intent) (kws : list kw) : option (DecoratorConfig nat nat nat nat) :=
  match (apply_once i kws).1 with Ok (Cached c _) => Some c | _ => None end.
Definition plain : DecoratorConfig nat nat nat nat := defaults 0%nat.
Definition config_of (i : intent) (kws : list kw) : DecoratorConfig nat nat nat nat := default plain (result_of i kws).

Definition five_minutes : list kw := [kw_ttl (Some (NInt 300))].

Lemma resolved_config_valid_witness : well_formed some_env (config_of Production five_minutes).
Proof.
  apply (resolved_config_valid 0%nat some_env Production None five_minutes (config_of Production five_minutes) false
    five_minutes); [|vm_compute; reflexivity].
  intros c0 E. discriminate E.
Defined.

Definition in_process : list kw := [kw_backend None; kw_ttl (Some (NInt 300))].

Lemma decorator_forgets_backend_witness :
  apply_once Bare in_process = (Ok (Cached (config_of Bare in_process) true), five_minutes) /\
  backend (config_of Bare five_minutes) = Some 1%nat /\
  apply_once Bare five_minutes = (Ok (Cached (with_backend (Some 1%nat) (config_of Bare in_process)) false), five_minutes).
Proof.
  split; [vm_compute; reflexivity|]. split; [vm_compute; reflexivity|].
  apply (decorator_forgets_backend 0%nat some_env in_process (config_of Bare in_process) five_minutes).
  vm_compute. reflexivity.
Defined.

Definition per_tenant : list kw := [kw_tenant_extractor (Some 7%nat); kw_ttl (Some (NInt 300))].

Lemma decorator_forgets_tenants_witness :
  (exists e, encryption (config_of Secure per_tenant) = inr e /\ tenant_extractor e = Some 7%nat) /\
  exists c' e', apply_once Secure five_minutes = (Ok (Cached c' false), five_minutes) /\
    encryption c' = inr e' /\ tenant_extractor e' = None /\ single_tenant_mode e' = true /\ enc_master_key e' = Some a_key.
Proof.
  split; [eexists; split; vm_compute; reflexivity|].
  apply (decorator_forgets_tenants 0%nat some_env per_tenant (config_of Secure per_tenant) false five_minutes
    (mkEncryptionConfig (Some true) (Some a_key) (Some 7%nat) false None None) 7%nat).
  - repeat (constructor; [reflexivity|]). constructor.
  - reflexivity.
  - vm_compute. reflexivity.
  - vm_compute. reflexivity.
  - reflexivity.
Defined.

(** Turning the integrity checks off is not possible with [cache.secure]. *)
Definition unchecked : list kw := [kw_integrity_checking false; kw_ttl (Some (NInt 300))].

(** The default configuration: neither key nor encryption of its own. *)
Definition no_backend_env : environment nat := mkEnv (None : option nat) (settings_key some_env) 100 true (Ok 2%nat).

Lemma secure_is_secure_witness :
  (integrity_checking (config_of Secure unchecked) = true /\
   exists e, encryption (config_of Secure unchecked) = inr e /\ enc_enabled e = Some true /\
     given (enc_master_key e) = true /\ (tenant_extractor e = None <-> single_tenant_mode e = true)) /\
  decorator 0%nat no_backend_env Secure (Some plain) [] = (Ok (Cached plain false), []) /\
  (exists e, encryption plain = inr e /\ enc_enabled e <> Some true).
Proof.
  split; [|split].
  - destruct (secure_is_secure 0%nat some_env unchecked) as [H _].
    apply (H (config_of Secure unchecked) false unchecked). vm_compute. reflexivity.
  - destruct (secure_is_secure 0%nat no_backend_env ([] : list kw)) as (_ & _ & H). apply H. reflexivity.
  - eexists. split; [vm_compute; reflexivity|vm_compute; discriminate].
Defined.

Definition opted_out : list kw := [kw_encryption (inl (Some false)); kw_ttl (Some (NInt 300))].

Lemma encryption_flag_kept_witness :
  match override some_env (Some (config_of Bare opted_out)) (no_parameters 0%nat) with
  | Ok p => p_encryption p = Some false
  | Err _ => False
  end.
Proof.
  destruct (override some_env (Some (config_of Bare opted_out)) (no_parameters 0%nat)) as [p|] eqn:E;
    [|vm_compute in E; discriminate E].
  apply (encryption_flag_kept 0%nat some_env opted_out (Some false) (config_of Bare opted_out) false
    (apply_once Bare opted_out).2 (no_parameters 0%nat) p); [reflexivity| |exact E].
  vm_compute. reflexivity.
Defined.

(** An hour, and an hour of grace. *)
Definition with_grace : parameters nat nat nat nat :=
  match override some_env
    (Some (config_of Bare [kw_ttl (Some (NInt 3600)); kw_stale_ttl (Some (StaleInt 3600))])) (no_parameters 0%nat) with
  | Ok p => p
  | Err _ => no_parameters 0%nat
  end.

Lemma stale_window_bounds_witness : exists z, NInt 3600 = NInt z /\ 0 < z /\ 0 < 3600 /\ 3600 + z <= _max_total_ttl /\
  swr_capable (fun _ => true) with_grace = true.
Proof.
  apply (stale_window_bounds (fun _ => true) with_grace false 3600 (NInt 3600)); vm_compute; reflexivity.
Defined.

Lemma thresholds_ignored_witness :
  _apply_cache_logic 0%nat some_env (fun _ => (None, None)) (fun _ => true) (D := unit) (fun _ => Ok tt)
    (with_thresholds 1 1 1 1 [] 1 (fofZ 1) (config_of Production five_minutes)) false =
  _apply_cache_logic 0%nat some_env (fun _ => (None, None)) (fun _ => true) (fun _ => Ok tt)
    (config_of Production five_minutes) false.
Proof.
  apply (thresholds_ignored 0%nat some_env (fun _ => (None, None)) (fun _ => true) (fun _ => Ok tt) 1 1 1 1 [] 1 (fofZ 1)
    (config_of Production five_minutes) false); vm_compute; first [reflexivity|discriminate].
Defined.
