(* ===== verification/Serialization.v ===== *)
(** [CacheSerializationHandler] ([src/src/cachekit/cache_handler.py]): which
    serializer, whether and for which tenant a value is encrypted, and the read
    path that never lets the stored bytes decide that: definitions. *)
From Stdlib Require Import ZArith Lia SpecFloat.
From stdpp Require Import base list numbers option strings.
From S2P Require Import Prelude FileSystem FileBackend.
From S2P Require Import PyFloat PyDict Bytes PyValue Effects Json Envelope Serializers Tenant Encryption.

Local Open Scope Z_scope.
Local Open Scope py_scope.
Local Open Scope eff_scope.

Definition SuspiciousErr : exn := SerializationExn SuspiciousCacheEntryError.

Definition CROSS_SDK_SERIALIZER_NAMES : list pystr :=
  [u "default"; u "std"; u "standard"; u "orjson"; u "arrow"].

(** [_SERIALIZER_NAME_ALIASES.get(name, name)] *)
Definition canonical_name (name : pystr) : pystr :=
  if bool_decide (name = u "std") || bool_decide (name = u "standard") then u "default"
  else if bool_decide (name = u "pythonic") then u "auto"
  else name.

(** What is read of the settings. *)
Record settings := mkSettings {
  keys : key_settings;
  max_value_size : Z;
  set_fail_closed : bool;
  set_deployment_uuid : option pystr
}.

(** ** The deployment UUID *)

Section DeploymentUuid.
(** [str(uuid.UUID(text))] when it is valid and, in interop mode, already in that
    form up to white space; otherwise a [ConfigurationError] or, for a stored
    text, a new one. *)
Inductive checked := Valid (uuid : pystr) | NotCanonical | Malformed.

Definition check_uuid (interop_mode : bool) (text : pystr) : checked :=
  match uuid_value text with
  | None => Malformed
  | Some n =>
      if interop_mode && negb (bool_decide (strip is_unicode_space text = uuid_text n)) then NotCanonical
      else Valid (uuid_text n)
  end.

(** The persisted file: absent, unreadable, or its text; [uuid4] is the fresh
    identifier and [persists] whether writing the file succeeds. *)
Record uuid_file := mkUuidFile {
  stored : option (option pystr);
  uuid4 : pystr;
  persists : bool
}.

(** The identifier and what the file holds afterwards. *)
Definition _get_deterministic_deployment_uuid (interop_mode : bool) (s : settings) (file : uuid_file)
    (provided_uuid : option pystr) : result exn (pystr * option (option pystr)) :=
  let given (t : pystr) :=
    match check_uuid interop_mode t with Valid x => Ok (x, stored file) | _ => Err ConfigurationError end in
  match provided_uuid, set_deployment_uuid s with
  | Some ((_ :: _) as t), _ => given t
  | _, Some ((_ :: _) as t) => given t
  | _, _ =>
      if interop_mode then Err ConfigurationError
      else
        let regenerate := Ok (uuid4 file, if persists file then Some (Some (uuid4 file)) else stored file) in
        match stored file with
        | Some None => Err OSError
        | Some (Some t) =>
            match check_uuid interop_mode (strip is_unicode_space t) with
            | Valid x => Ok (x, stored file)
            | _ => regenerate
            end
        | None => regenerate
        end
  end.
End DeploymentUuid.

Section Handler.
Context {V K KR R A : Type}.
Context (num_truthy : pystr -> bool) (str_of : jval -> pystr).
Context (decode_wide : pybytes -> option pystr).
Context (rust : crypto K KR R).

(** What streaming needs of an [ArrowSerializer]. *)
Record streaming := mkStreaming {
  st_metadata : SerializationMetadata;
  st_to_sink : V -> Z -> option Z -> list producer_op * result exn SerializationMetadata
}.

Record CacheSerializationHandler := mkHandler {
  _serializer_string_name : pystr;
  _base_serializer : serializer V;
  base_streaming : option streaming;
  encryption : bool;
  tenant_extractor : option (A -> result exn pystr);
  _deployment_uuid_value : option pystr;
  master_key : option pystr;
  fail_closed : bool;
  interop_mode : bool
}.

(** ** Construction *)

(** A name, or an instance with its class. *)
Inductive serializer_arg := Named (name : pystr) | Instance (s : serializer V) (class_name : pystr).

Record arguments := mkArguments {
  a_serializer : serializer_arg;
  a_encryption : option bool;
  a_tenant_extractor : option (A -> result exn pystr);
  a_single_tenant_mode : bool;
  a_deployment_uuid : option pystr;
  a_master_key : option pystr;
  a_fail_closed : option bool;
  a_interop_mode : bool
}.

Definition string_name (s : serializer_arg) : pystr :=
  match s with Named n => canonical_name n | Instance _ c => c end.

Definition interop_allowed (a : arguments) : bool :=
  match a_tenant_extractor a, a_serializer a with
  | None, Named n => bool_decide (canonical_name n = u "default")
  | _, _ => false
  end.

(** [None] is decided by the settings' master key: encryption, the master key
    and the single-tenant mode. *)
Definition resolve_encryption (s : settings) (a : arguments) : bool * option pystr * bool :=
  match a_encryption a with
  | Some e => (e, a_master_key a, a_single_tenant_mode a)
  | None =>
      match a_master_key a, a_tenant_extractor a, set_master_key (keys s) with
      | None, None, Some ((_ :: _) as k) => (true, Some k, true)
      | _, _, _ => (false, a_master_key a, a_single_tenant_mode a)
      end
  end.

Definition cross_sdk (s : serializer_arg) : bool :=
  match s with
  | Named n => bool_decide (n ∈ CROSS_SDK_SERIALIZER_NAMES)
  | Instance i _ => cross_sdk_compatible i
  end.

(** [instance] looks a name up ([_get_cached_serializer_instance]); the interop
    serializer replaces it in interop mode. *)
Definition init (interop : serializer V) (instance : serializer_arg -> result exn (serializer V * option streaming))
    (s : settings) (file : uuid_file) (a : arguments)
  : result exn (CacheSerializationHandler * option (option pystr)) :=
  if a_interop_mode a && negb (interop_allowed a) then Err ConfigurationError
  else
    let '(enc, key, single) := resolve_encryption s a in
    let closed := match a_fail_closed a with Some b => b | None => set_fail_closed s end in
    du <-! (if enc then
              match a_tenant_extractor a, single with
              | None, false | Some _, true => Err ConfigurationError
              | x, _ =>
                  if negb (cross_sdk (a_serializer a)) then Err ConfigurationError
                  else if single then
                    r <-! _get_deterministic_deployment_uuid (a_interop_mode a) s file (a_deployment_uuid a) ;
                    Ok (Some r.1, r.2)
                  else Ok (None, stored file)
              end
            else Ok (None, stored file)) ;
    base <-! (if a_interop_mode a then Ok (interop, None) else instance (a_serializer a)) ;
    Ok (mkHandler (string_name (a_serializer a)) base.1 base.2 enc (a_tenant_extractor a) du.1 key closed
          (a_interop_mode a), du.2).

(** ** The wrappers of the tenants *)

Definition _encryption_cache_maxsize : nat := 256.

Record state := mkState {
  _encryption_wrapper_cache : list (pystr * EncryptionWrapper V K KR);
  _drift_warned_keys : list pystr;
  rng : R
}.

Definition with_wrappers (st : state) c : state := mkState c (_drift_warned_keys st) (rng st).

(** Run a computation on the nonce state. *)
Definition on_rng {B} (m : eff R B) : eff state B := fun st =>
  let (r, g) := m (rng st) in (r, mkState (_encryption_wrapper_cache st) (_drift_warned_keys st) g).

Definition new_wrapper (s : settings) (h : CacheSerializationHandler) (tenant : jval)
  : result exn (EncryptionWrapper V K KR) :=
  key <-! (match master_key h with
           | Some ((_ :: _) as hex) => k <-! from_hex hex ; Ok (Some k)
           | _ => Ok None
           end) ;
  Encryption.init rust (keys s) (_base_serializer h) key tenant (fail_closed h) None.

(** A least-recently-used cache.  For a tenant that is not a string no wrapper
    can be made, so none is ever kept. *)
Definition _get_cached_encryption_wrapper (s : settings) (h : CacheSerializationHandler) (tenant : jval)
  : eff state (EncryptionWrapper V K KR) := fun st =>
  let cache := _encryption_wrapper_cache st in
  match tenant with
  | JStr t =>
      match od_get t cache with
      | Some w => (Ok w, with_wrappers st (od_move_to_end t cache))
      | None =>
          match new_wrapper s h tenant with
          | Err x => (Err x, st)
          | Ok w =>
              let kept := if (_encryption_cache_maxsize <=? length cache)%nat then drop 1 cache else cache in
              (Ok w, with_wrappers st (od_set t w kept))
          end
      end
  | JArr _ | JObj _ => (Err (PyExn TypeError), st)
  | _ => (new_wrapper s h tenant, st)
  end.

(** ** Writing *)

(** [except ValueError: raise; except Exception: raise SerializationError] *)
Definition refused_or_failed {B} (x : exn) : eff state B :=
  throw (if is_value_error x then x else SerializationError).

Definition write_tenant (h : CacheSerializationHandler) (call : A) : result exn pystr :=
  match tenant_extractor h with
  | Some extract => extract call
  | None => match _deployment_uuid_value h with Some t => Ok t | None => Err RuntimeError end
  end.

(** The serializer's bytes, encrypted for the tenant when encryption is on. *)
Definition serialized (s : settings) (h : CacheSerializationHandler) (data : V) (call : A) (cache_key : pystr)
  : eff state (pybytes * SerializationMetadata) :=
  if encryption h then
    tenant <~ lift (write_tenant h call) ;;
    w <~ _get_cached_encryption_wrapper s h (JStr tenant) ;;
    on_rng (Encryption.serialize num_truthy str_of rust w data cache_key)
  else lift (s_serialize (_base_serializer h) data).

(** Interop entries are the bytes themselves. *)
Definition enveloped (h : CacheSerializationHandler) (sm : pybytes * SerializationMetadata) : result exn pybytes :=
  if interop_mode h then Ok sm.1
  else py (wrap sm.1 (to_dict num_truthy sm.2) (_serializer_string_name h) (u "2.0")).

Definition serialize_data (s : settings) (h : CacheSerializationHandler) (data : V) (call : A) (cache_key : pystr)
  : eff state pybytes :=
  wrapped <~ trying (sm <~ serialized s h data call cache_key ;; lift (enveloped h sm)) refused_or_failed ;;
  if max_value_size s <? zlen wrapped then throw (PyExn ValueError) else ret wrapped.

Definition supports_mmap_read (h : CacheSerializationHandler) : bool :=
  negb (encryption h) && bool_decide (_serializer_string_name h = u "arrow") &&
  bool_decide (return_format (_base_serializer h) = Some (u "pandas")).

Definition supports_streaming_write (h : CacheSerializationHandler) : bool :=
  negb (encryption h) && negb (interop_mode h) && bool_decide (_serializer_string_name h = u "arrow").

(** What is written to a sink that stands at [start]. *)
Definition write_serialized_to (s : settings) (h : CacheSerializationHandler) (start : Z) (data : V)
  : list producer_op * result exn unit :=
  match base_streaming h with
  | None => ([], Err SerializationError)
  | Some a =>
      match py (wrap_prefix (to_dict num_truthy (st_metadata a)) (_serializer_string_name h) (u "2.0")) with
      | Err x => ([], Err x)
      | Ok prefix =>
          let budget := max_value_size s - zlen prefix in
          let (ops, r) := st_to_sink a data (start + zlen prefix) (Some budget) in
          (PWrite prefix :: ops, match r with Ok _ => Ok tt | Err x => Err x end)
      end
  end.

(** ** Reading *)

(** Warned keys are remembered, 1024 at most. *)
Definition warn_drift (cache_key : pystr) : eff state unit := fun st =>
  let warned := _drift_warned_keys st in
  (Ok tt, if bool_decide (cache_key ∈ warned) || (1024 <=? length warned)%nat then st
          else mkState (_encryption_wrapper_cache st) (cache_key :: warned) (rng st)).

(** [except (ValueError, SerializationError): raise; except Exception: raise
    SerializationError] *)
Definition read_failed {B} (x : exn) : eff state B :=
  throw (match x with
         | SerializationExn _ => x
         | _ => if is_value_error x then x else SerializationError
         end).

(** The metadata an interop entry is read under. *)
Definition interop_metadata (tenant : pystr) : SerializationMetadata :=
  mkMetadata MSGPACK (JStr (u "utf-8")) (JBool false) JNull (JBool true) (JStr tenant)
    (JStr (u "AES-256-GCM")) JNull.

Definition _deserialize_interop (s : settings) (h : CacheSerializationHandler) (data : raw) (cache_key : pystr)
  : eff state V :=
  match data with
  | RawStr _ => throw SerializationError
  | RawBytes b =>
      trying
        (if encryption h then
           match _deployment_uuid_value h with
           | None => throw SerializationError
           | Some tenant =>
               w <~ _get_cached_encryption_wrapper s h (JStr tenant) ;;
               lift (deserialize_without_key_identity num_truthy str_of rust w b (interop_metadata tenant) cache_key)
           end
         else lift (s_deserialize (_base_serializer h) b (metadata MSGPACK false JNull)))
        read_failed
  end.

(** The branch for an entry whose header claims encryption, and for plaintext. *)
Definition read_payload (s : settings) (h : CacheSerializationHandler) (payload : pybytes)
    (m : SerializationMetadata) (cache_key : pystr) : eff state V :=
  let claims := truthy num_truthy (encrypted m) in
  if encryption h && negb claims then throw SuspiciousErr
  else if claims then
    (if encryption h then ret tt else warn_drift cache_key) ;;~
    if negb (truthy num_truthy (tenant_id m)) then throw SuspiciousErr
    else
      w <~ _get_cached_encryption_wrapper s h (tenant_id m) ;;
      lift (Encryption.deserialize num_truthy str_of rust w payload m cache_key)
  else lift (s_deserialize (_base_serializer h) payload m).

(** The name a frame was written under, or ["unknown"]. *)
Definition compatible (h : CacheSerializationHandler) (name : jval) : bool :=
  match name with
  | JStr n => bool_decide (n = _serializer_string_name h) || bool_decide (n = u "unknown")
  | _ => false
  end.

Definition deserialize_data (s : settings) (h : CacheSerializationHandler) (data : raw) (cache_key : pystr)
  : eff state V :=
  if interop_mode h then _deserialize_interop s h data cache_key
  else
    trying
      (parts <~ lift (unwrap decode_wide data) ;;
       let '(payload, d, name) := parts in
       m <~ lift (py (from_dict d)) ;;
       if negb (compatible h name) then throw SerializationError
       else read_payload s h payload m cache_key)
      read_failed.

End Handler.
Arguments CacheSerializationHandler V A : clear implicits.
Arguments state V K KR R : clear implicits.
Arguments serializer_arg V : clear implicits.
Arguments streaming V : clear implicits.
Arguments arguments V A : clear implicits.
