(* ===== verification/SerializerProps.v ===== *)
(** What the serializers do ([Serializers.v], [Arrow.v]): batches, streaming,
    checksums, and the registry. *)
From Stdlib Require Import ZArith Lia SpecFloat.
From stdpp Require Import base list numbers option strings.
From S2P Require Import Prelude FileSystem FileBackend.
From S2P Require Import PyDict Bytes PyValue Effects Json Envelope Serializers Arrow.

Local Open Scope Z_scope.
Local Open Scope py_scope.

(** ** Frames *)

(** A framed value is taken apart into the payload, the metadata and the
    serializer name it was framed with; a frame cut anywhere before the end of its
    header is a ValueError. *)
Theorem frame_roundtrip num_truthy decode_wide data m n v b :
  wf_metadata m -> Forall is_code_point n -> Forall is_code_point v ->
  wrap data (to_dict num_truthy m) n v = Ok b ->
  (exists d, unwrap decode_wide (RawBytes b) = Ok (data, d, JStr n) /\ from_dict d = Ok m) /\
  forall k, Z.of_nat k < zlen b - zlen data ->
    unwrap decode_wide (RawBytes (take k b)) = Err (PyExn ValueError).
Proof.
  intros Wf Hn Hv E. split.
  - exists (JObj (to_dict num_truthy m)). split; [|by apply metadata_roundtrip].
    eapply unwrap_wrap; [by apply to_dict_writable|exact Hn|exact Hv|exact E].
  - intros k Hk. by eapply unwrap_truncated.
Qed.

Definition ck_metadata : SerializationMetadata := metadata MSGPACK true (JStr (u "msgpack")).
Definition ck_frame : pybytes :=
  match wrap [1; 2; 3] (to_dict (fun _ => false) ck_metadata) (u "default") (u "2.0") with Ok b => b | Err _ => [] end.

Lemma frame_roundtrip_witness :
  (exists d, unwrap (fun _ => None) (RawBytes ck_frame) = Ok ([1; 2; 3], d, JStr (u "default")) /\
     from_dict d = Ok ck_metadata) /\
  unwrap (fun _ => None) (RawBytes (take 20 ck_frame)) = Err (PyExn ValueError).
Proof.
  destruct (frame_roundtrip (fun _ => false) (fun _ => None) [1; 2; 3] ck_metadata (u "default") (u "2.0") ck_frame)
    as [R T].
  - split_and!; try exact I; [exact (u_code_points "utf-8")|exact (u_code_points "msgpack")|by right].
  - apply u_code_points.
  - apply u_code_points.
  - vm_compute. reflexivity.
  - split; [exact R|]. apply T. vm_compute. reflexivity.
Defined.

(** ** Batches *)

Section Batches.
Context {T : Type} (num_rows : T -> Z) (slice_nbytes : T -> Z -> Z -> Z).

Definition fits (t : T) (o r : Z) : Prop := slice_nbytes t o r <= _TARGET_BATCH_BYTES.

(** More rows take at least as many bytes. *)
Definition monotone (t : T) : Prop :=
  forall o r r', 1 <= r <= r' -> slice_nbytes t o r <= slice_nbytes t o r'.

(** The slices follow each other from row [o] to row [e]. *)
Fixpoint tiles (o e : Z) (bs : list (Z * Z)) : Prop :=
  match bs with
  | [] => o = e
  | (o', r) :: bs => o' = o /\ 1 <= r /\ tiles (o + r) e bs
  end.

(** A slice fits, or is a single row; no wider one from the same row fits. *)
Definition greedy (t : T) (b : Z * Z) : Prop :=
  (b.2 = 1 \/ fits t b.1 b.2) /\
  forall r, b.2 < r -> b.1 + r <= num_rows t -> ~ fits t b.1 r.

Lemma is_Some_proj_some {X} (m : option X) (H : is_Some m) : m = Some (is_Some_proj H).
Proof. destruct m; [done|]. by destruct (is_Some_None H). Qed.

Lemma widest_spec t o n lo hi rows fuel w : monotone t ->
  2 <= lo -> lo <= hi + 1 -> hi <= n -> rows = lo - 1 -> (rows = 1 \/ fits t o rows) ->
  (forall r, hi < r <= n -> ~ fits t o r) -> widest slice_nbytes fuel t o lo hi rows = Some w ->
  1 <= w <= n /\ (w = 1 \/ fits t o w) /\ forall r, w < r <= n -> ~ fits t o r.
Proof.
  intros Mono. revert lo hi rows. induction fuel as [|f IH]; intros lo hi rows H1 H2 H3 -> H4 H5; [done|].
  cbn [widest]. destruct (lo <=? hi) eqn:E; zbool.
  2:{ intros [= <-]. split_and!; [lia|lia|done|]. intros r Hr. apply H5. lia. }
  pose proof (midpoint lo hi E). set (mid := (lo + hi) / 2) in *.
  destruct (slice_nbytes t o mid <=? _TARGET_BATCH_BYTES) eqn:F; zbool; apply IH; try lia; try done; [by right|].
  intros r Hr Hf. unfold fits in Hf. pose proof (Mono o mid r). lia.
Qed.

Lemma batches_from_spec t fuel o bs : monotone t -> 0 <= o <= num_rows t ->
  batches_from num_rows slice_nbytes fuel t o = Some bs -> tiles o (num_rows t) bs /\ Forall (greedy t) bs.
Proof.
  intros Mono. revert o bs. induction fuel as [|f IH]; intros o bs Ho; [done|].
  cbn [batches_from]. destruct (o <? num_rows t) eqn:E; zbool.
  2:{ intros [= <-]. split; [simpl; lia|constructor]. }
  destruct (widest _ _ _ _ _ _ _) as [w|] eqn:Ew; [|done].
  apply (widest_spec t o (num_rows t - o)) in Ew as (W1 & W2 & W3); [|done|lia|lia|lia|done|by left|intros; lia].
  intros (bs' & Eb & ->)%fmap_Some_1. apply IH in Eb as [Ti G]; [|lia].
  split; [simpl; split_and!; [done|lia|done]|]. constructor; [|done].
  split; [exact W2|]. cbn [fst snd]. intros r Hr Hn'. apply W3. lia.
Qed.

Lemma batches_more t o f f' bs : batches_from num_rows slice_nbytes f t o = Some bs -> (f <= f')%nat ->
  batches_from num_rows slice_nbytes f' t o = Some bs.
Proof.
  revert o f' bs. induction f as [|f IH]; intros o f' bs; [done|]. destruct f' as [|f']; [lia|].
  cbn [batches_from]. intros E L. case_match; [|done]. case_match; [|done].
  apply fmap_Some_1 in E as (bs' & Eb & ->). apply (IH _ f') in Eb; [|lia]. by rewrite Eb.
Qed.

Lemma batches_some t :
  batches_from num_rows slice_nbytes (S (Z.to_nat (num_rows t))) t 0 = Some (_write_bounded_batches num_rows slice_nbytes t).
Proof. apply is_Some_proj_some. Qed.

(** C34. The loops terminate, whatever the sizes of the slices are: with more fuel
    than the table has rows the search for each batch and the writing of all of them
    have come to their end.  The batches cover the table: consecutive, non-empty
    slices from the first row to the last; when more rows take no fewer bytes, each
    is a single row or fits the byte target, and is as wide as the target allows. *)
Theorem batches_cover t :
  (forall fuel, (Z.to_nat (num_rows t) < fuel)%nat ->
     batches_from num_rows slice_nbytes fuel t 0 = Some (_write_bounded_batches num_rows slice_nbytes t)) /\
  (monotone t -> 0 <= num_rows t ->
     tiles 0 (num_rows t) (_write_bounded_batches num_rows slice_nbytes t) /\
     Forall (greedy t) (_write_bounded_batches num_rows slice_nbytes t)).
Proof.
  split.
  - intros fuel L. eapply batches_more; [apply batches_some|lia].
  - intros Mono Hn. eapply batches_from_spec; [done|lia|apply batches_some].
Qed.

End Batches.

(** ** Streaming *)

Definition sink_step (st : pybytes * Z) (op : producer_op) : pybytes * Z :=
  match op with
  | PWrite bs => (splice st.2 bs st.1, st.2 + zlen bs)
  | PSeek off => (st.1, off)
  end.

(** The content and position after what a producer did. *)
Definition sink_run (ops : list producer_op) (st : pybytes * Z) : pybytes * Z := foldl sink_step st ops.

Lemma splice_snoc bs l : splice (zlen l) bs l = l ++ bs.
Proof.
  unfold splice, zlen. rewrite Nat2Z.id, firstn_all, Z.sub_diag. simpl.
  rewrite drop_ge, app_nil_r by (rewrite Z2Nat.inj_add, Nat2Z.id; lia). done.
Qed.

Lemma splice_middle a b b' c : length b = length b' -> splice (zlen a) b' (a ++ b ++ c) = a ++ b' ++ c.
Proof.
  intros L. unfold splice, zlen. rewrite Nat2Z.id, take_app_length, length_app.
  replace (Z.to_nat (Z.of_nat (length a) - Z.of_nat (length a + length (b ++ c)))) with 0%nat by lia.
  replace (Z.to_nat (Z.of_nat (length a) + Z.of_nat (length b'))) with (length a + length b)%nat by lia.
  rewrite drop_app_add', drop_app_length by done. done.
Qed.

Lemma sink_appends chunks c :
  sink_run (map PWrite chunks) (c, zlen c) = (c ++ concat chunks, zlen c + zlen (concat chunks)).
Proof.
  revert c. induction chunks as [|x r IH]; intros c; simpl.
  - unfold sink_run. simpl. rewrite app_nil_r. unfold zlen. simpl. f_equal. lia.
  - unfold sink_run. simpl. rewrite splice_snoc.
    replace (zlen c + zlen x) with (zlen (c ++ x)) by (unfold zlen; rewrite length_app; lia).
    etrans; [apply IH|]. rewrite <- app_assoc. unfold zlen. rewrite !length_app. f_equal. lia.
Qed.

Section Sink.
(** Without an error everything is hashed and forwarded. *)
Lemma sink_writes_ok chunks s :
  match _budget s with Some b => _written s + zlen (concat chunks) <= b | None => True end ->
  sink_writes chunks s =
    (Ok tt, mkSink (_budget s) (_written s + zlen (concat chunks)) (_hashed s ++ concat chunks)
              (forwarded s ++ map PWrite chunks)).
Proof.
  revert s. induction chunks as [|c r IH]; intros s Hb; simpl in Hb |- *.
  - unfold ret, zlen. simpl. rewrite !app_nil_r, Z.add_0_r. by destruct s.
  - unfold andthen, sink_write. unfold zlen in Hb. rewrite length_app in Hb.
    replace (match _budget s with Some b => b <? _written s + zlen c | None => false end) with false.
    2:{ destruct (_budget s); [|done]. symmetry. apply Z.ltb_ge. unfold zlen. lia. }
    rewrite IH; simpl.
    + rewrite <- !app_assoc. simpl. unfold zlen. rewrite length_app. do 2 f_equal. lia.
    + destruct (_budget s); [|done]. unfold zlen in *. lia.
Qed.

(** Over the budget the writes stop, with no byte past it forwarded. *)
Lemma sink_writes_over chunks s b :
  _budget s = Some b -> _written s <= b -> b < _written s + zlen (concat chunks) ->
  exists s' pre, sink_writes chunks s = (Err (PyExn ValueError), s') /\
    forwarded s' = forwarded s ++ map PWrite pre /\ _written s + zlen (concat pre) <= b.
Proof.
  revert s. induction chunks as [|c r IH]; intros s Hb H1 H2; simpl in H2.
  - unfold zlen in H2. simpl in H2. lia.
  - cbn [sink_writes]. unfold andthen, sink_write. rewrite Hb. destruct (b <? _written s + zlen c) eqn:E; zbool.
    + eexists _, []. split; [done|]. simpl. rewrite app_nil_r. split; [done|]. unfold zlen. simpl. lia.
    + unfold zlen in H2. rewrite length_app in H2.
      destruct (IH (mkSink (Some b) (_written s + zlen c) (_hashed s ++ c) (forwarded s ++ [PWrite c])))
        as (s' & pre & E1 & E2 & E3); [done|done|unfold zlen in *; simpl; lia|].
      exists s', (c :: pre). split; [exact E1|]. split.
      * rewrite E2. simpl. by rewrite <- app_assoc.
      * simpl in E3 |- *. unfold zlen in *. rewrite length_app. lia.
Qed.
End Sink.

Section Streaming.
Context {D T V : Type}.
Context (num_rows : T -> Z) (slice_nbytes : T -> Z -> Z -> Z).
Context (from_pandas table : D -> result exn T).
Context (ipc_writes : option pystr -> T -> list (Z * Z) -> list pybytes * option exn).
Context (xxh3_64_digest : pybytes -> pybytes).
Hypothesis digest_8 : forall b, length (xxh3_64_digest b) = 8%nat.

Local Abbreviation ser := (serialize num_rows slice_nbytes from_pandas table ipc_writes xxh3_64_digest).
Local Abbreviation to_sink := (serialize_to_sink num_rows slice_nbytes from_pandas table ipc_writes xxh3_64_digest).

Lemma serialize_inv s obj b m : ser s obj = Ok (b, m) ->
  exists t chunks, _to_table from_pandas table obj = Ok t /\
    ipc_writes (compression s) t (_write_bounded_batches num_rows slice_nbytes t) = (chunks, None) /\
    b = xxh3_64_digest (concat chunks) ++ concat chunks /\ m = serialization_metadata s.
Proof.
  unfold serialize, relabel, recover. destruct (_to_table _ _ obj) as [t|x]; [|done]. simpl.
  unfold ipc_bytes. destruct (ipc_writes _ _ _) as [chunks [x|]] eqn:E; [done|]. simpl.
  intros [= <- <-]. exists t, chunks. done.
Qed.

(** Streaming equals buffering: into a sink that stands at its end, a value
    within the byte budget is streamed as exactly the bytes [serialize] returns,
    checksum included, with the same metadata; one over the budget is refused with
    a ValueError and never more than the budget reaches the sink. *)
Theorem stream_equals_buffer s obj b m content max_bytes :
  ser s obj = Ok (b, m) ->
  match max_bytes with Some n => 8 <= n | None => True end ->
  let over := match max_bytes with Some n => n <? zlen b | None => false end in
  let out := to_sink s obj (zlen content) max_bytes in
  let st := sink_run out.1 (content, zlen content) in
  if over then
    out.2 = Err (PyExn ValueError) /\
    match max_bytes with Some n => zlen st.1 <= zlen content + n | None => False end
  else out.2 = Ok m /\ st = (content ++ b, zlen content + zlen b).
Proof.
  intros E Hm. apply serialize_inv in E as (t & chunks & Et & Ei & -> & ->). cbv zeta.
  set (body := concat chunks). assert (Hl : zlen (xxh3_64_digest body ++ body) = 8 + zlen body).
  { unfold zlen. rewrite length_app, digest_8. lia. }
  rewrite Hl. unfold serialize_to_sink. rewrite Et, Ei.
  set (fresh := mkSink _ 0 [] []).
  assert (P8 : sink_step (content, zlen content) (PWrite (replicate 8 0)) =
               (content ++ replicate 8 0, zlen (content ++ replicate 8 0))).
  { cbn [sink_step fst snd]. rewrite splice_snoc. f_equal. unfold zlen. rewrite length_app. lia. }
  destruct (match max_bytes with Some n => n <? 8 + zlen body | None => false end) eqn:Eo.
  - destruct max_bytes as [n|]; [|done]. zbool.
    destruct (sink_writes_over chunks fresh (n - 8)) as (s' & pre & E1 & E2 & E3);
      [done|simpl; lia|simpl; fold body; lia|].
    rewrite E1. cbn [fst snd]. split; [done|]. rewrite E2. cbn [forwarded app fresh].
    unfold sink_run. cbn [foldl]. rewrite P8. pose proof (sink_appends pre (content ++ replicate 8 0)) as A.
    unfold sink_run in A. rewrite A. simpl in E3 |- *. unfold zlen in *. rewrite !length_app. simpl. lia.
  - rewrite (sink_writes_ok chunks fresh).
    2:{ simpl. destruct max_bytes; [|done]. zbool. simpl. fold body. lia. }
    cbn [fst snd forwarded fresh app _written _hashed]. split; [done|]. fold body.
    unfold sink_run. cbn [foldl]. rewrite P8, foldl_app.
    pose proof (sink_appends chunks (content ++ replicate 8 0)) as A. unfold sink_run in A. rewrite A. clear A.
    fold body. cbn [foldl sink_step fst snd]. rewrite <- app_assoc.
    rewrite splice_middle by (by rewrite digest_8). f_equal. lia.
Qed.

(** ** Reading a frame back *)

Context (read_all : pybytes -> result exn T) (to_pandas : T -> result exn V).
Context (from_arrow : option (T -> result exn V)) (as_table : T -> V).

Local Abbreviation deser := (deserialize read_all to_pandas from_arrow as_table xxh3_64_digest).

(** [pa.ipc] files begin with their magic and are read back. *)
Hypothesis ipc_magic : forall c t bs chunks, ipc_writes c t bs = (chunks, None) ->
  take 6 (concat chunks) = u "ARROW1" /\ 6 <= zlen (concat chunks).
Hypothesis ipc_read : forall c t bs chunks, ipc_writes c t bs = (chunks, None) ->
  read_all (concat chunks) = Ok t.

Lemma checksummed_body b : take 6 (drop 8 b) = u "ARROW1" -> 14 <= zlen b ->
  arrow_body xxh3_64_digest b =
    (if bool_decide (xxh3_64_digest (drop 8 b) <> take 8 b) then Err SerializationError else Ok (drop 8 b)).
Proof.
  intros Hm Hl. unfold arrow_body, is_arrow_magic. rewrite Hm, bool_decide_eq_true_2 by done.
  by rewrite (proj2 (Z.leb_le _ _) Hl).
Qed.

(** What [serialize] stored is read back as the same table, converted to the
    configured format; after a change of the stored bytes behind their checksum
    (the magic kept) the read is an error unless the checksum collides. *)
Theorem arrow_roundtrip s s' obj t b m : _to_table from_pandas table obj = Ok t ->
  ser s obj = Ok (b, m) ->
  deser s' b = relabel (fun x => match x with ArrowInvalid | ArrowSerializationError | OSError => true | _ => false end)
                 (converted to_pandas from_arrow as_table s' t) /\
  forall body', take 6 body' = u "ARROW1" -> 6 <= zlen body' -> xxh3_64_digest body' <> take 8 b ->
    deser s' (take 8 b ++ body') = Err SerializationError.
Proof.
  intros Et E. apply serialize_inv in E as (t' & chunks & Et' & Ei & -> & ->).
  rewrite Et in Et'. injection Et' as <-. destruct (ipc_magic _ _ _ _ Ei) as [Hm Hl].
  set (body := concat chunks) in *.
  assert (T8 : forall r, take 8 (xxh3_64_digest body ++ r) = xxh3_64_digest body).
  { intros r. rewrite <- (digest_8 body). apply take_app_length. }
  assert (D8 : forall r, drop 8 (xxh3_64_digest body ++ r) = r).
  { intros r. rewrite <- (digest_8 body). apply drop_app_length. }
  assert (L8 : forall r, zlen (xxh3_64_digest body ++ r) = 8 + zlen r).
  { intros r. unfold zlen. rewrite length_app, digest_8. lia. }
  rewrite T8. unfold deserialize. split.
  - rewrite checksummed_body by (rewrite ?D8, ?L8; first [done|lia]). rewrite D8, T8, bool_decide_eq_false_2 by auto.
    pose proof (ipc_read _ _ _ _ Ei) as R. fold body in R. simpl. by rewrite R.
  - intros body' Hm' Hl' Hne. rewrite checksummed_body by (rewrite ?D8, ?L8; first [done|lia]).
    by rewrite D8, T8, bool_decide_eq_true_2.
Qed.
End Streaming.

(** ** JSON *)

Section Json.
Context {V : Type} (dumps : V -> result exn pybytes) (loads : pybytes -> result exn V).
Context (xxh3_64_digest : pybytes -> pybytes).
Hypothesis digest_8 : forall b, length (xxh3_64_digest b) = 8%nat.

(** A value JSON can express is read back, except that with integrity checking
    a one-character document (the integers 0 to 9) is stored and then refused as
    too short. *)
Theorem orjson_roundtrip flag v doc : dumps v = Ok doc -> loads doc = Ok v ->
  exists b m, OrjsonSerializer.serialize dumps xxh3_64_digest flag v = Ok (b, m) /\
    forall m', OrjsonSerializer.deserialize loads xxh3_64_digest flag b m' =
      if flag && (zlen doc <? 2) then Err SerializationError else Ok v.
Proof.
  intros Ed El. unfold OrjsonSerializer.serialize, OrjsonSerializer.deserialize. rewrite Ed.
  eexists _, _. split; [reflexivity|]. intros _. destruct flag; simpl; [|by rewrite El].
  assert (L : zlen (xxh3_64_digest doc ++ doc) = 8 + zlen doc).
  { unfold zlen. rewrite length_app, digest_8. lia. }
  rewrite L. destruct (zlen doc <? 2) eqn:E; zbool.
  - rewrite (proj2 (Z.ltb_lt _ _)) by lia. done.
  - rewrite (proj2 (Z.ltb_ge _ _)) by lia. rewrite <- (digest_8 doc).
    rewrite take_app_length, drop_app_length, bool_decide_eq_false_2 by auto. by rewrite El.
Qed.
End Json.

(** ** Concrete runs *)

(** A table is the sizes of its rows. *)
Definition rows_nbytes (t : list Z) (o n : Z) : Z :=
  zsum (map (Z.max 0) (take (Z.to_nat n) (drop (Z.to_nat o) t))).

Lemma rows_monotone t : monotone rows_nbytes t.
Proof.
  intros o r r' Hr. unfold rows_nbytes. set (l := drop _ t).
  replace (Z.to_nat r') with (Z.to_nat r + (Z.to_nat r' - Z.to_nat r))%nat by lia.
  rewrite <- take_take_drop, map_app, zsum_app.
  assert (0 <= zsum (map (Z.max 0) (take (Z.to_nat r' - Z.to_nat r) (drop (Z.to_nat r) l)))); [|lia].
  apply zsum_nonneg, Forall_map, Forall_true. intros x. simpl. lia.
Qed.

Definition mb (n : Z) : Z := n * 1024 * 1024.

Lemma batches_cover_witness :
  _write_bounded_batches zlen rows_nbytes [mb 3; mb 4; mb 9; mb 1; mb 8] = [(0, 2); (2, 1); (3, 1); (4, 1)] /\
  Forall (greedy zlen rows_nbytes [mb 3; mb 4; mb 9; mb 1; mb 8])
    (_write_bounded_batches zlen rows_nbytes [mb 3; mb 4; mb 9; mb 1; mb 8]).
Proof.
  split; [reflexivity|].
  apply (proj2 (batches_cover zlen rows_nbytes [mb 3; mb 4; mb 9; mb 1; mb 8])); [apply rows_monotone|vm_compute; discriminate].
Defined.

(** A file is the magic and the rows, one write each. *)
Definition toy_ipc (_ : option pystr) (t : list Z) (_ : list (Z * Z)) : list pybytes * option exn :=
  (u "ARROW1" :: map (fun x => [x]) t, None).
Definition toy_read (b : pybytes) : result exn (list Z) := Ok (drop 6 b).
Definition toy_xxh (b : pybytes) : pybytes := be_bytes 8 (zsum b).
Definition toy_from (d : list Z) : result exn (list Z) := Ok d.

Lemma toy_xxh_8 b : length (toy_xxh b) = 8%nat.
Proof. apply be_bytes_length. Qed.

Lemma toy_ipc_concat (t : list Z) : concat (map (fun x => [x]) t) = t.
Proof. induction t; simpl; congruence. Qed.

Lemma toy_ipc_magic c t bs chunks : toy_ipc c t bs = (chunks, None) ->
  take 6 (concat chunks) = u "ARROW1" /\ 6 <= zlen (concat chunks).
Proof.
  intros [= <-]. simpl. rewrite take_0. split; [done|]. unfold zlen. simpl. lia.
Qed.

Lemma toy_ipc_read c t bs chunks : toy_ipc c t bs = (chunks, None) -> toy_read (concat chunks) = Ok t.
Proof. intros [= <-]. unfold toy_read. simpl. by rewrite toy_ipc_concat. Qed.

Definition arrow_zstd : ArrowSerializer := mkArrow (u "pandas") (Some (u "zstd")).
Definition toy_serialize := serialize zlen rows_nbytes toy_from toy_from toy_ipc toy_xxh.
Definition toy_to_sink := serialize_to_sink zlen rows_nbytes toy_from toy_from toy_ipc toy_xxh.
Definition toy_frame : pybytes :=
  match toy_serialize arrow_zstd (DataFrame [5; 6]) with Ok (b, _) => b | Err _ => [] end.

Lemma stream_equals_buffer_witness :
  (toy_to_sink arrow_zstd (DataFrame [5; 6]) 2 (Some 16)).2 = Ok (serialization_metadata arrow_zstd) /\
  (toy_to_sink arrow_zstd (DataFrame [5; 6]) 2 (Some 15)).2 = Err (PyExn ValueError).
Proof.
  split.
  - apply (stream_equals_buffer zlen rows_nbytes toy_from toy_from toy_ipc toy_xxh toy_xxh_8
      arrow_zstd (DataFrame [5; 6]) toy_frame _ [1; 2] (Some 16)); [vm_compute; reflexivity|vm_compute; discriminate].
  - apply (stream_equals_buffer zlen rows_nbytes toy_from toy_from toy_ipc toy_xxh toy_xxh_8
      arrow_zstd (DataFrame [5; 6]) toy_frame (serialization_metadata arrow_zstd) [1; 2] (Some 15));
      [vm_compute; reflexivity|vm_compute; discriminate].
Defined.

Lemma arrow_roundtrip_witness :
  deserialize toy_read (fun t => Ok t) None id toy_xxh arrow_zstd toy_frame = Ok [5; 6] /\
  deserialize toy_read (fun t => Ok t) None id toy_xxh arrow_zstd (take 8 toy_frame ++ u "ARROW1" ++ [5; 7])
    = Err SerializationError.
Proof.
  destruct (arrow_roundtrip zlen rows_nbytes toy_from toy_from toy_ipc toy_xxh toy_xxh_8 toy_read
    (fun t => Ok t) None id toy_ipc_magic toy_ipc_read arrow_zstd arrow_zstd (DataFrame [5; 6]) [5; 6]
    toy_frame (serialization_metadata arrow_zstd)) as [R C]; [reflexivity|vm_compute; reflexivity|].
  split; [rewrite R; reflexivity|].
  apply C; [reflexivity|vm_compute; discriminate|vm_compute; discriminate].
Defined.

(** The integers as JSON documents of one or more characters. *)
Definition int_dumps (n : Z) : result exn pybytes := Ok [48 + n].
Definition int_loads (b : pybytes) : result exn Z := match b with [c] => Ok (c - 48) | _ => Err (PyExn ValueError) end.

Lemma orjson_roundtrip_witness :
  exists b m, OrjsonSerializer.serialize int_dumps toy_xxh true 7 = Ok (b, m) /\
    OrjsonSerializer.deserialize int_loads toy_xxh true b m = Err SerializationError.
Proof.
  destruct (orjson_roundtrip int_dumps int_loads toy_xxh toy_xxh_8 true 7 (u "7")) as (b & m & E & H);
    [reflexivity|reflexivity|].
  exists b, m. split; [exact E|]. rewrite H. reflexivity.
Defined.
