(* ===== verification/EncryptionProps.v ===== *)
(** What [EncryptionWrapper] guarantees ([Encryption.v]): the associated data can
    be parsed back, a ciphertext is only read where it was written, and the
    keyring serves the entries of retired keys. *)
From Stdlib Require Import ZArith Lia.
From stdpp Require Import base list numbers option strings.
From S2P Require Import Prelude PyDict Bytes PyValue Effects Json Envelope Serializers Encryption.

Local Open Scope Z_scope.
Local Open Scope py_scope.

(** ** Associated data *)

Section Aad.
Context (num_truthy : pystr -> bool) (str_of : jval -> pystr).

Local Abbreviation aad_of := (_create_aad num_truthy str_of).

(** The original type the associated data carries: a non-empty text. *)
Definition bound_original_type (m : SerializationMetadata) : option pystr :=
  match original_type m with JStr ((_ :: _) as s) => Some s | _ => None end.

Definition wf_text (m : SerializationMetadata) : Prop :=
  Forall is_code_point (py_str str_of (compressed m)) /\
  match original_type m with JStr s => Forall is_code_point s | _ => True end.

Lemma length_prefixed_inv c p : length_prefixed c = Ok p -> p = be_bytes 4 (zlen c) ++ c /\ zlen c < 2 ^ 32.
Proof. unfold length_prefixed. destruct (_ <? _) eqn:E; [|done]. intros [= <-]. by zbool. Qed.

Lemma parse_step f s c rest : Forall is_code_point s -> utf8_encode s = Ok c -> zlen c < 2 ^ 32 ->
  parse_components (S f) (be_bytes 4 (zlen c) ++ c ++ rest) =
    (cs <-! parse_components f rest ; Ok (s :: cs)).
Proof.
  intros Hs Hc Hl. pose proof (be_bytes_length 4 (zlen c)) as L.
  assert (Hv : be_val (be_bytes 4 (zlen c)) = zlen c).
  { apply be_roundtrip. split; [apply zlen_nonneg|exact Hl]. }
  set (p := be_bytes 4 (zlen c)) in *.
  assert (T : take 4 (p ++ c ++ rest) = p) by (rewrite <- L; apply take_app_length).
  assert (D : drop 4 (p ++ c ++ rest) = c ++ rest) by (rewrite <- L; apply drop_app_length).
  assert (H4 : 4 <= zlen (p ++ c ++ rest)).
  { unfold zlen. rewrite length_app. lia. }
  destruct p as [|x p]; [done|]. cbn [app] in *. cbn [parse_components].
  rewrite (proj2 (Z.ltb_ge _ _) H4), T, D, Hv.
  rewrite (proj2 (Z.ltb_ge _ _)) by (unfold zlen; rewrite length_app; lia).
  replace (Z.to_nat (zlen c)) with (length c) by (unfold zlen; lia).
  rewrite take_app_length, drop_app_length. by rewrite (utf8_roundtrip _ _ Hs Hc).
Qed.

Lemma components_parse ss cs ps fuel :
  Forall2 (fun s c => utf8_encode s = Ok c) ss cs -> Forall (Forall is_code_point) ss ->
  rmap length_prefixed cs = Ok ps -> (length (concat ps) <= fuel)%nat ->
  parse_components fuel (concat ps) = Ok ss.
Proof.
  intros H. revert ps fuel. induction H as [|s c ss cs Hc _ IH]; intros ps fuel Hs E Hf.
  - injection E as <-. by destruct fuel.
  - cbn [rmap] in E. destruct (length_prefixed c) as [p|] eqn:Ep; [|done]. simpl in E.
    destruct (rmap length_prefixed cs) as [ps'|] eqn:Er; [|done]. injection E as <-.
    apply length_prefixed_inv in Ep as [-> Hl]. apply list.Forall_cons in Hs as [Hs1 Hs2].
    cbn [concat] in *. rewrite !length_app, be_bytes_length in Hf. destruct fuel as [|fuel]; [lia|].
    rewrite <- app_assoc, (parse_step _ s) by done. rewrite IH; [done|done|done|lia].
Qed.

Lemma components_inv tenant m key cs : aad_components num_truthy str_of tenant m key = Ok cs ->
  Forall2 (fun s c => utf8_encode s = Ok c)
    ([tenant; key; format_value (format m); py_str str_of (compressed m)] ++
     match bound_original_type m with Some o => [o] | None => [] end) cs.
Proof.
  unfold aad_components. destruct (utf8_encode tenant) as [t|] eqn:E1; [|done]. cbn [py rbind].
  destruct (utf8_encode key) as [k|] eqn:E2; [|done]. cbn [py rbind].
  destruct (utf8_encode (format_value _)) as [f|] eqn:E3; [|done]. cbn [py rbind].
  destruct (utf8_encode (py_str _ _)) as [c|] eqn:E4; [|done]. cbn [py rbind].
  unfold bound_original_type. destruct (truthy num_truthy (original_type m)) eqn:Et.
  - destruct (original_type m) as [| | |[|x o]| |]; try done.
    destruct (utf8_encode (x :: o)) as [b|] eqn:E5; [|done]. cbn [py rbind]. intros [= <-].
    cbn [app]. repeat (apply Forall2_cons_2; [done|]). apply Forall2_nil_2.
  - intros [= <-]. destruct (original_type m) as [| | |[|x o]| |]; try done;
      cbn [app]; repeat (apply Forall2_cons_2; [done|]); apply Forall2_nil_2.
Qed.

Lemma format_code_points f : Forall is_code_point (format_value f).
Proof. destruct f; apply u_code_points. Qed.

Lemma create_parse tenant m key aad :
  Forall is_code_point tenant -> Forall is_code_point key -> wf_text m ->
  aad_of tenant m key = Ok aad ->
  _parse_aad aad = Ok (mkParsed tenant key (format_value (format m)) (py_str str_of (compressed m))
                         (bound_original_type m)).
Proof.
  intros Ht Hk [Hc Ho] E. unfold _create_aad in E.
  destruct (aad_components _ _ tenant m key) as [cs|] eqn:Ec; [|done]. simpl in E.
  destruct (rmap length_prefixed cs) as [ps|] eqn:Ep; [|done]. injection E as <-.
  apply components_inv in Ec. unfold _parse_aad. cbn [negb Z.eqb Pos.eqb].
  rewrite (components_parse _ _ _ _ Ec); [|clear Ec|exact Ep|lia].
  - cbn [rbind app]. by destruct (bound_original_type m).
  - cbn [app]. repeat (apply list.Forall_cons; split; [first [done|apply format_code_points]|]).
    unfold bound_original_type. destruct (original_type m) as [| | |[|x o]| |];
      first [apply Forall_nil_2|by apply Forall_singleton].
Qed.

(** Equal associated data bind equal components. *)
Lemma aad_inj tenant m key tenant' m' key' aad :
  Forall is_code_point tenant -> Forall is_code_point key -> wf_text m ->
  Forall is_code_point tenant' -> Forall is_code_point key' -> wf_text m' ->
  aad_of tenant m key = Ok aad -> aad_of tenant' m' key' = Ok aad ->
  tenant = tenant' /\ key = key' /\ format m = format m' /\
  py_str str_of (compressed m) = py_str str_of (compressed m') /\
  bound_original_type m = bound_original_type m'.
Proof.
  intros H1 H2 H3 H4 H5 H6 E E'. apply create_parse in E, E'; try done. rewrite E in E'.
  injection E' as -> -> Ef -> ->. split_and!; try done.
  by destruct (format m), (format m').
Qed.

(** The associated data of a ciphertext can be parsed back into its components
    (tenant, cache key, format, compression flag, original type), so two different
    sets of components never have the same associated data. *)
Theorem aad_roundtrip tenant m key aad tenant' m' key' :
  Forall is_code_point tenant -> Forall is_code_point key -> wf_text m ->
  Forall is_code_point tenant' -> Forall is_code_point key' -> wf_text m' ->
  aad_of tenant m key = Ok aad ->
  _parse_aad aad = Ok (mkParsed tenant key (format_value (format m)) (py_str str_of (compressed m))
                         (bound_original_type m)) /\
  ((tenant, key, format m, py_str str_of (compressed m), bound_original_type m) <>
   (tenant', key', format m', py_str str_of (compressed m'), bound_original_type m') ->
   aad_of tenant' m' key' <> Ok aad).
Proof.
  intros H1 H2 H3 H4 H5 H6 E. split; [by apply create_parse|]. intros Hne E'. apply Hne.
  destruct (aad_inj tenant m key tenant' m' key' aad) as (-> & -> & -> & -> & ->); done.
Qed.
End Aad.

(** ** The Rust extension *)

(** Authenticated encryption: a ciphertext opens under its key and associated data
    and, forgeries set aside, under nothing else.  A keyring is the current master
    key and the previous ones, whose tenant keys it uses in that order. *)
Class Aead {K KR R} (rust : crypto K KR R) : Prop := {
  aead_open p aad k g c g' :
    encrypt_with_keys rust p aad k g = (Ok c, g') -> decrypt_with_keys rust c aad k = Ok p;
  aead_bind p aad k g c g' aad' k' p' :
    encrypt_with_keys rust p aad k g = (Ok c, g') ->
    decrypt_with_keys rust c aad' k' = Ok p' -> aad' = aad /\ k' = k;
  aead_error c aad k x : decrypt_with_keys rust c aad k = Err x -> x <> KeyringConfigurationError;
  fingerprint_bytes k : Forall is_byte (encryption_fingerprint rust k);
  ring_fingerprints cur prevs ring t fps :
    new_keyring rust cur prevs = Ok ring -> encryption_fingerprints rust ring t = Ok fps ->
    Forall2 (fun m fp => exists k, derive_tenant_keys rust m t = Ok k /\ encryption_fingerprint rust k = fp)
      (cur :: prevs) fps;
  ring_at cur prevs ring i m t k c aad :
    new_keyring rust cur prevs = Ok ring -> (cur :: prevs) !! i = Some m ->
    derive_tenant_keys rust m t = Ok k ->
    decrypt_at rust ring i c t aad = decrypt_with_keys rust c aad k;
  ring_current cur prevs ring t k c aad p :
    new_keyring rust cur prevs = Ok ring -> derive_tenant_keys rust cur t = Ok k ->
    decrypt_with_keys rust c aad k = Ok p -> decrypt rust ring c t aad = Ok p;
  ring_any cur prevs ring t c aad p :
    new_keyring rust cur prevs = Ok ring -> decrypt rust ring c t aad = Ok p ->
    exists m k, m ∈ cur :: prevs /\ derive_tenant_keys rust m t = Ok k /\ decrypt_with_keys rust c aad k = Ok p
}.

Lemma index_of_spec x l i : index_of x l = Some i -> exists s, x = JStr s /\ l !! i = Some s.
Proof.
  revert i. induction l as [|s l IH]; intros i; cbn [index_of]; [done|].
  destruct (match x with JStr t => _ | _ => _ end) eqn:E.
  - intros [= <-]. destruct x; try done. apply bool_decide_eq_true in E as ->. eauto.
  - destruct (index_of x l) as [j|]; [|done]. intros [= <-]. by apply IH.
Qed.

Lemma index_of_in s l : s ∈ l -> exists i, index_of (JStr s) l = Some i.
Proof.
  induction l as [|x l IH]; [by intros ?%not_elem_of_nil|]. intros H. cbn [index_of].
  case_bool_decide; [eauto|]. apply elem_of_cons in H as [->|H]; [done|].
  destruct (IH H) as [i ->]. eauto.
Qed.

Section Wrapper.
Context {V K KR R : Type} (num_truthy : pystr -> bool) (str_of : jval -> pystr).
Context (rust : crypto K KR R) `{!Aead rust}.

Local Abbreviation wrapper := (EncryptionWrapper V K KR).
Local Abbreviation write := (serialize num_truthy str_of rust).
Local Abbreviation read := (deserialize num_truthy str_of rust).
Local Abbreviation read_unidentified := (deserialize_without_key_identity num_truthy str_of rust).

(** A wrapper made from a current and previous master keys. *)
Definition made_from (w : wrapper) (cur : pybytes) (prevs : list pybytes) : Prop :=
  32 <= zlen cur /\ Forall (fun k => 32 <= zlen k) prevs /\
  new_keyring rust cur prevs = Ok (w_keyring w) /\
  derive_tenant_keys rust cur (w_tenant_id w) = Ok (w_tenant_keys w) /\
  w_fingerprint w = hexdigest (encryption_fingerprint rust (w_tenant_keys w)) /\
  head (w_keyring_fingerprints w) = Some (w_fingerprint w) /\
  exists fps, encryption_fingerprints rust (w_keyring w) (w_tenant_id w) = Ok fps /\
    w_keyring_fingerprints w = map hexdigest fps.

Lemma init_made settings ser key tenant closed previous (w : wrapper) :
  init rust settings ser key tenant closed previous = Ok w ->
  w_serializer w = ser /\ w_fail_closed w = closed /\ tenant = JStr (w_tenant_id w) /\
  exists cur prevs, made_from w cur prevs.
Proof.
  unfold init. destruct (current_key settings key) as [cur|] eqn:E1; [|done]. cbn [rbind].
  destruct (previous_keys settings previous) as [prevs|] eqn:E2; [|done]. cbn [rbind].
  destruct (new_encryptor rust) as [[]|]; [|done]. cbn [rbind].
  destruct (new_keyring rust cur prevs) as [ring|] eqn:E3; [|done]. cbn [rbind].
  destruct (tenant_material rust cur tenant) as [[t k]|] eqn:E4; [|done]. cbn [rbind fst snd].
  destruct (encryption_fingerprints rust ring t) as [fps|] eqn:E5; [|done]. cbn [rbind].
  destruct (map hexdigest fps) as [|f r] eqn:E6; [done|]. case_bool_decide as Hf; [done|].
  intros [= <-]. assert (f = hexdigest (encryption_fingerprint rust k)) as -> by (by destruct (decide (f = hexdigest (encryption_fingerprint rust k)))).
  cbn.
  unfold tenant_material in E4. destruct tenant as [| | |s| |]; try done.
  destruct (derive_tenant_keys rust cur s) as [k'|] eqn:E7; [|done]. injection E4 as -> ->.
  split_and!; [done|done|done|]. exists cur, prevs. unfold made_from. cbn. split_and!; try done.
  - unfold current_key in E1. destruct (match key with Some k0 => _ | None => _ end) as [k0|]; [|done].
    simpl in E1. destruct (_ <? _) eqn:L; [done|]. injection E1 as ->. by zbool.
  - unfold previous_keys in E2. destruct (match previous with Some l => _ | None => _ end) as [l|]; [|done].
    simpl in E2. destruct (forallb _ l) eqn:L; [|done]. injection E2 as ->.
    apply list.Forall_forall. intros k' Hk. rewrite forallb_forall in L. setoid_rewrite <- list_elem_of_In in L.
    apply L in Hk. by zbool.
  - eauto.
Qed.

Lemma write_inv (w : wrapper) obj key g c md g' : write w obj key g = (Ok (c, md), g') ->
  key <> [] /\ exists raw m aad,
    s_serialize (w_serializer w) obj = Ok (raw, m) /\
    _create_aad num_truthy str_of (w_tenant_id w) m key = Ok aad /\
    encrypt_with_keys rust raw aad (w_tenant_keys w) g = (Ok c, g') /\
    md = mkMetadata (format m) (encoding m) (compressed m) (original_type m) (JBool true)
           (JStr (w_tenant_id w)) (JStr (u "AES-256-GCM")) (JStr (w_fingerprint w)).
Proof.
  unfold serialize. case_bool_decide as Hk; [done|]. intros E. split; [done|].
  unfold andthen, lift, relabel, recover in E.
  destruct (s_serialize (w_serializer w) obj) as [[raw m]|x] eqn:Es; [|done].
  exists raw, m. unfold trying, andthen, lift in E.
  destruct (_create_aad num_truthy str_of (w_tenant_id w) m key) as [aad|x] eqn:Ea; [|done].
  exists aad. destruct (encrypt_with_keys rust raw aad (w_tenant_keys w) g) as [[ct|x] g1] eqn:Ec; [|done].
  unfold ret in E. by injection E as <- <- <-.
Qed.

Lemma opened_inv (w : wrapper) m d v : opened w m d = Ok v ->
  exists p, d = Ok p /\ s_deserialize (w_serializer w) p (inner_metadata m) = Ok v.
Proof.
  unfold opened, recover. destruct d as [p|x]; [|done]. simpl.
  destruct (s_deserialize _ _ _) as [v'|] eqn:E; [|done]. intros [= ->]. exists p. by rewrite E.
Qed.

(** A successful read opened the bytes with a key of the ring, under associated
    data for this tenant, key and header. *)
Definition read_with (w : wrapper) (cur : pybytes) (prevs : list pybytes) (c : pybytes)
    (md : SerializationMetadata) (key : pystr) (v : V) : Prop :=
  exists aad p m k,
    _create_aad num_truthy str_of (w_tenant_id w) (inner_metadata md) key = Ok aad /\
    m ∈ cur :: prevs /\ derive_tenant_keys rust m (w_tenant_id w) = Ok k /\
    decrypt_with_keys rust c aad k = Ok p /\
    s_deserialize (w_serializer w) p (inner_metadata md) = Ok v.

Lemma ring_length (w : wrapper) cur prevs : made_from w cur prevs ->
  length (w_keyring_fingerprints w) = length (cur :: prevs).
Proof.
  intros (_ & _ & Hr & _ & _ & _ & fps & Hf & ->). rewrite length_map.
  symmetry. eapply Forall2_length. by eapply ring_fingerprints.
Qed.

Lemma read_identified (w : wrapper) cur prevs c md key v : made_from w cur prevs ->
  read w c md key = Ok v -> tenant_id md = JStr (w_tenant_id w) /\ read_with w cur prevs c md key v.
Proof.
  intros M E. pose proof (ring_length _ _ _ M) as L.
  destruct M as (_ & _ & Hr & Hk & _ & _ & fps & Hf & Hm). unfold deserialize in E.
  destruct (negb _); [done|]. case_bool_decide; [done|].
  destruct (tenant_id md) as [| | |t| |] eqn:Et; try done.
  case_bool_decide as Ht; [done|]. assert (t = w_tenant_id w) as -> by (by destruct (decide (t = w_tenant_id w))).
  split; [done|]. destruct (index_of _ _) as [i|] eqn:Ei.
  - cbn [rbind] in E. apply opened_inv in E as (p & Ed & Es).
    destruct (_create_aad _ _ _ _ _) as [aad|] eqn:Ea; [|done]. cbn [rbind] in Ed.
    exists aad, p. destruct i as [|i].
    + exists cur, (w_tenant_keys w). split_and!; try done. by left.
    + apply index_of_spec in Ei as (s & _ & Hi). assert (Hl : is_Some ((cur :: prevs) !! S i)).
      { apply lookup_lt_is_Some. rewrite <- L. by eapply lookup_lt_Some. }
      destruct Hl as [m Hl]. pose proof (ring_fingerprints _ _ _ _ _ Hr Hf) as F.
      destruct (Forall2_lookup_l _ _ _ _ _ F Hl) as (fp & _ & k & Hd & _).
      rewrite (ring_at _ _ _ _ _ _ _ _ _ Hr Hl Hd) in Ed.
      exists m, k. split_and!; try done. by eapply list_elem_of_lookup_2.
  - destruct (_ <-! abbreviated _ _; _); [|done]. cbn [rbind] in E.
    apply opened_inv in E as (p & Ed & Es).
    destruct (_create_aad _ _ _ _ _) as [aad|] eqn:Ea; [|done]. cbn [rbind] in Ed.
    exists aad, p, cur, (w_tenant_keys w). split_and!; try done. by left.
Qed.

Lemma read_without_identity (w : wrapper) cur prevs c md key v : made_from w cur prevs ->
  read_unidentified w c md key = Ok v -> read_with w cur prevs c md key v.
Proof.
  intros (_ & _ & Hr & Hk & _) E. unfold deserialize_without_key_identity in E.
  case_bool_decide; [done|]. apply opened_inv in E as (p & Ed & Es).
  destruct (_create_aad _ _ _ _ _) as [aad|] eqn:Ea; [|done]. cbn [rbind] in Ed.
  exists aad, p. destruct (_ =? _)%nat.
  - exists cur, (w_tenant_keys w). split_and!; try done. by left.
  - destruct (ring_any _ _ _ _ _ _ _ Hr Ed) as (m & k & Hm & Hd & Hp). by exists m, k.
Qed.

(** C1. A ciphertext is bound to where it was written: whatever header an attacker
    puts before it and under whatever cache key it is read, by fingerprint or by
    trying the keyring, a successful read is one for the same tenant and the same
    cache key, with the format, compression flag and original type of the writer,
    and yields the decoding of the bytes the writer serialized. *)
Theorem ciphertext_bound (w0 : wrapper) obj key0 g c md0 g' (w : wrapper) cur prevs md key v :
  made_from w cur prevs ->
  Forall is_code_point (w_tenant_id w0) -> Forall is_code_point key0 -> wf_text str_of md0 ->
  Forall is_code_point (w_tenant_id w) -> Forall is_code_point key -> wf_text str_of md ->
  write w0 obj key0 g = (Ok (c, md0), g') ->
  read w c md key = Ok v \/ read_unidentified w c md key = Ok v ->
  w_tenant_id w = w_tenant_id w0 /\ key = key0 /\ format md = format md0 /\
  py_str str_of (compressed md) = py_str str_of (compressed md0) /\
  bound_original_type md = bound_original_type md0 /\
  exists raw m, s_serialize (w_serializer w0) obj = Ok (raw, m) /\
    s_deserialize (w_serializer w) raw (inner_metadata md) = Ok v.
Proof.
  intros M H1 H2 H3 H4 H5 H6 Ew Er.
  assert (Rw : read_with w cur prevs c md key v).
  { destruct Er as [Er|Er]; [by eapply read_identified|by eapply read_without_identity]. }
  apply write_inv in Ew as (_ & raw & m & aad & Es & Ea & Ec & ->).
  destruct Rw as (aad' & p & mk & k & Ea' & _ & _ & Ed & Ev).
  destruct (aead_bind _ _ _ _ _ _ _ _ _ Ec Ed) as [-> ->].
  pose proof (aead_open _ _ _ _ _ _ Ec) as Eo. rewrite Eo in Ed. injection Ed as <-.
  destruct (aad_inj num_truthy str_of _ _ _ _ _ _ _ H4 H5 H6 H1 H2 H3 Ea' Ea) as (E1 & E2 & E3 & E4 & E5).
  split_and!; try done. exists raw, m. done.
Qed.

(** The key at the position the fingerprint of [k0] selects is [k0]. *)
Lemma selected_key (w : wrapper) cur prevs k0 i :
  made_from w cur prevs ->
  (forall m k, m ∈ cur :: prevs -> derive_tenant_keys rust m (w_tenant_id w) = Ok k ->
    encryption_fingerprint rust k = encryption_fingerprint rust k0 -> k = k0) ->
  index_of (JStr (hexdigest (encryption_fingerprint rust k0))) (w_keyring_fingerprints w) = Some i ->
  exists m, (cur :: prevs) !! i = Some m /\ derive_tenant_keys rust m (w_tenant_id w) = Ok k0.
Proof.
  intros (_ & _ & Hr & _ & _ & _ & fps & Hf & ->) Hc Hi. apply index_of_spec in Hi as (s & [= <-] & Hi).
  rewrite list_lookup_fmap in Hi. destruct (fps !! i) as [fp|] eqn:Ei; [|done]. injection Hi as Hi.
  pose proof (ring_fingerprints _ _ _ _ _ Hr Hf) as F.
  destruct (Forall2_lookup_r _ _ _ _ _ F Ei) as (m & Em & k & Hd & <-).
  exists m. split; [done|]. rewrite Hd. f_equal. apply (Hc m); [by eapply list_elem_of_lookup_2|done|].
  apply hexdigest_inj; [apply fingerprint_bytes|apply fingerprint_bytes|done].
Qed.

Lemma selected_exists (w : wrapper) cur prevs k0 m : made_from w cur prevs ->
  m ∈ cur :: prevs -> derive_tenant_keys rust m (w_tenant_id w) = Ok k0 ->
  exists i, index_of (JStr (hexdigest (encryption_fingerprint rust k0))) (w_keyring_fingerprints w) = Some i.
Proof.
  intros (_ & _ & Hr & _ & _ & _ & fps & Hf & ->) Hm Hd. apply index_of_in.
  pose proof (ring_fingerprints _ _ _ _ _ Hr Hf) as F. apply list_elem_of_lookup in Hm as [i Hm].
  destruct (Forall2_lookup_l _ _ _ _ _ F Hm) as (fp & Hfp & k & Hd' & <-).
  rewrite Hd in Hd'. injection Hd' as <-. apply list_elem_of_fmap. eexists. split; [done|].
  by eapply list_elem_of_lookup_2.
Qed.

(** C10. Key rotation: an entry is read by any wrapper of the tenant whose keyring
    holds the writer's master key, as current or previous key, whatever the other
    keys and the fail policy; once the key has left the ring the read is an
    authentication failure, fail-open or not. *)
Theorem keyring_rotation (w0 : wrapper) cur0 prevs0 obj key g c md g' (w : wrapper) cur prevs :
  made_from w0 cur0 prevs0 -> made_from w cur prevs -> w_tenant_id w = w_tenant_id w0 ->
  (forall m k, m ∈ cur :: prevs -> derive_tenant_keys rust m (w_tenant_id w) = Ok k ->
    encryption_fingerprint rust k = encryption_fingerprint rust (w_tenant_keys w0) -> k = w_tenant_keys w0) ->
  write w0 obj key g = (Ok (c, md), g') ->
  exists raw m, s_serialize (w_serializer w0) obj = Ok (raw, m) /\
    (cur0 ∈ cur :: prevs ->
     read w c md key =
       recover (s_deserialize (w_serializer w) raw (inner_metadata md)) (fun _ => Err EncryptionErr)) /\
    ((forall mk, mk ∈ cur :: prevs -> derive_tenant_keys rust mk (w_tenant_id w) <> Ok (w_tenant_keys w0)) ->
     read w c md key = Err AuthenticationErr).
Proof.
  intros M0 M Ht Hc Ew. apply write_inv in Ew as (Hk & raw & m & aad & Es & Ea & Ec & ->).
  exists raw, m. split; [done|].
  destruct M0 as (_ & _ & _ & Hk0 & Hf0 & _).
  assert (Hcur : derive_tenant_keys rust cur (w_tenant_id w) = Ok (w_tenant_keys w)) by apply M.
  assert (Hring : new_keyring rust cur prevs = Ok (w_keyring w)) by apply M.
  assert (Ha : _create_aad num_truthy str_of (w_tenant_id w)
    (inner_metadata (mkMetadata (format m) (encoding m) (compressed m) (original_type m) (JBool true)
      (JStr (w_tenant_id w0)) (JStr (u "AES-256-GCM")) (JStr (w_fingerprint w0)))) key = Ok aad).
  { rewrite Ht. exact Ea. }
  unfold deserialize. cbn [encrypted tenant_id key_fingerprint truthy negb].
  rewrite bool_decide_eq_false_2, bool_decide_eq_false_2 by auto. rewrite Ha, Hf0. cbn [rbind].
  rewrite Ht in Hcur. split.
  - intros Hin. rewrite <- Ht in Hk0.
    destruct (selected_exists w cur prevs _ cur0 M Hin Hk0) as [i Hi]. rewrite Hi. cbn [rbind].
    destruct (selected_key w cur prevs _ i M Hc Hi) as (mk & Hmk & Hd).
    assert (D : match i with
                | O => decrypt_with_keys rust c aad (w_tenant_keys w)
                | S _ => decrypt_at rust (w_keyring w) i c (w_tenant_id w) aad
                end = Ok raw).
    { destruct i as [|i].
      - injection Hmk as <-. rewrite Ht, Hcur in Hd. injection Hd as ->. by eapply aead_open.
      - rewrite (ring_at _ _ _ _ _ _ _ _ _ Hring Hmk Hd). by eapply aead_open. }
    unfold opened. destruct i; rewrite D; reflexivity.
  - intros Hno. destruct (index_of _ _) as [i|] eqn:Hi.
    + destruct (selected_key w cur prevs _ i M Hc Hi) as (mk & Hmk & Hd).
      exfalso. apply (Hno mk); [by eapply list_elem_of_lookup_2|done].
    + unfold abbreviated. destruct (truthy _ _); cbn [rbind]; (destruct (w_fail_closed w); [done|]).
      all: cbn [rbind]; unfold opened; destruct (decrypt_with_keys rust c aad (w_tenant_keys w)) as [p|x] eqn:Ed.
      1,3: destruct (aead_bind _ _ _ _ _ _ _ _ _ Ec Ed) as [_ E]; exfalso;
        apply (Hno cur); [by left|by rewrite Ht, Hcur, E].
      all: simpl; apply aead_error in Ed; by destruct x.
Qed.

(** A wrapper reads what it wrote: with the header it wrote, or without a key
    identity under any header with the same authenticated fields. *)
Lemma own_read (w : wrapper) cur prevs obj key g c md g' :
  made_from w cur prevs -> write w obj key g = (Ok (c, md), g') ->
  exists raw m, s_serialize (w_serializer w) obj = Ok (raw, m) /\
    md = mkMetadata (format m) (encoding m) (compressed m) (original_type m) (JBool true)
           (JStr (w_tenant_id w)) (JStr (u "AES-256-GCM")) (JStr (w_fingerprint w)) /\
    read w c md key = recover (s_deserialize (w_serializer w) raw (inner_metadata md)) (fun _ => Err EncryptionErr) /\
    forall md', format md' = format m -> compressed md' = compressed m -> original_type md' = original_type m ->
      read_unidentified w c md' key =
        recover (s_deserialize (w_serializer w) raw (inner_metadata md')) (fun _ => Err EncryptionErr).
Proof.
  intros (_ & _ & Hr & Hk & Hf & Hh & _) E. apply write_inv in E as (Hne & raw & m & aad & Es & Ea & Ec & ->).
  exists raw, m. split_and!; [done|done| |].
  - unfold deserialize. cbn [encrypted tenant_id key_fingerprint truthy negb].
    rewrite bool_decide_eq_false_2, bool_decide_eq_false_2 by auto.
    destruct (w_keyring_fingerprints w) as [|f r]; [done|]. injection Hh as ->. cbn [index_of].
    rewrite bool_decide_eq_true_2 by done. cbn [rbind].
    assert (Ha : _create_aad num_truthy str_of (w_tenant_id w)
      (inner_metadata (mkMetadata (format m) (encoding m) (compressed m) (original_type m) (JBool true)
        (JStr (w_tenant_id w)) (JStr (u "AES-256-GCM")) (JStr (w_fingerprint w)))) key = Ok aad) by exact Ea.
    rewrite Ha. cbn [rbind]. unfold opened. by rewrite (aead_open _ _ _ _ _ _ Ec).
  - intros md' E1 E2 E3. unfold deserialize_without_key_identity. rewrite bool_decide_eq_false_2 by auto.
    assert (Ha : _create_aad num_truthy str_of (w_tenant_id w) (inner_metadata md') key = Ok aad).
    { rewrite <- Ea. unfold _create_aad, aad_components, inner_metadata. cbn. by rewrite E1, E2, E3. }
    rewrite Ha. cbn [rbind]. pose proof (aead_open _ _ _ _ _ _ Ec) as Eo. unfold opened.
    destruct (_ =? _)%nat; [by rewrite Eo|]. by rewrite (ring_current _ _ _ _ _ _ _ _ Hr Hk Eo).
Qed.

Lemma fingerprint_code_points (w : wrapper) cur prevs : made_from w cur prevs ->
  Forall is_code_point (w_fingerprint w).
Proof.
  intros (_ & _ & _ & _ & -> & _). apply list.Forall_impl with is_hex; [apply hexdigest_hex, fingerprint_bytes|].
  unfold is_hex, is_code_point. intros c. lia.
Qed.

End Wrapper.

(** ** Concrete runs *)

(** A transparent cipher: key, tenant and associated data precede the text. *)
Definition toy_header (k : pybytes * pystr) (aad : pybytes) : pybytes :=
  zlen k.1 :: k.1 ++ zlen k.2 :: k.2 ++ zlen aad :: aad.

Arguments toy_header : simpl never.

Definition toy_open (c aad : pybytes) (k : pybytes * pystr) : result exn pybytes :=
  let h := toy_header k aad in
  if bool_decide (take (length h) c = h) then Ok (drop (length h) c) else Err (PyExn ValueError).

Arguments toy_open : simpl never.

Definition toy_fingerprint (k : pybytes * pystr) : pybytes := map (fun b => b mod 256) k.1.

Fixpoint toy_try (ring : list pybytes) (c : pybytes) (t : pystr) (aad : pybytes) : result exn pybytes :=
  match ring with
  | [] => Err (PyExn ValueError)
  | m :: r => match toy_open c aad (m, t) with Ok p => Ok p | Err _ => toy_try r c t aad end
  end.

Definition toy_crypto : crypto (pybytes * pystr) (list pybytes) Z := {|
  new_encryptor := Ok tt;
  derive_tenant_keys m t := Ok (m, t);
  encryption_fingerprint := toy_fingerprint;
  new_keyring cur prevs :=
    if (3 <? length prevs)%nat || bool_decide (cur ∈ prevs) then Err (PyExn ValueError) else Ok (cur :: prevs);
  encryption_fingerprints ring t := Ok (map (fun m => toy_fingerprint (m, t)) ring);
  encrypt_with_keys p aad k g := (Ok (toy_header k aad ++ p), g + 1);
  decrypt_with_keys := toy_open;
  decrypt_at ring i c t aad :=
    match ring !! i with Some m => toy_open c aad (m, t) | None => Err KeyringConfigurationError end;
  decrypt ring c t aad := toy_try ring c t aad
|}.

Lemma counted_inj (a b x y : pybytes) : zlen a :: a ++ x = zlen b :: b ++ y -> a = b /\ x = y.
Proof. intros E. injection E as El E. apply app_inj_1 in E; [done|]. unfold zlen in El. lia. Qed.

Lemma toy_open_inv c aad k p : toy_open c aad k = Ok p -> c = toy_header k aad ++ p.
Proof.
  unfold toy_open. cbv zeta. case_bool_decide as E; [|done]. intros [= <-]. rewrite <- E at 1.
  symmetry. apply take_drop.
Qed.

#[export] Instance toy_aead : Aead toy_crypto.
Proof.
  split; cbn.
  - intros p aad k g c g' E. assert (c = toy_header k aad ++ p) as -> by congruence. unfold toy_open. cbv zeta.
    by rewrite take_app_length, drop_app_length, bool_decide_eq_true_2.
  - intros p aad [m t] g c g' aad' [m' t'] p' Ec E. apply toy_open_inv in E.
    assert (c = toy_header (m, t) aad ++ p) as -> by congruence. unfold toy_header in E. cbn [fst snd] in E. rewrite !app_comm_cons, <- !app_assoc in E.
    apply counted_inj in E as [-> E]. apply counted_inj in E as [-> E]. apply counted_inj in E as [-> E]. done.
  - intros c aad k x. unfold toy_open. cbv zeta. case_bool_decide; [done|]. by intros [= <-].
  - intros k. apply Forall_map, Forall_true. intros b. apply Z.mod_pos_bound. lia.
  - intros cur prevs ring t fps E [= <-]. destruct (_ || _); [done|]. injection E as <-.
    generalize (cur :: prevs) as ring. induction ring; [constructor|].
    simpl. constructor; [by eexists|done].
  - intros cur prevs ring i m t k c aad E Hi [= <-]. destruct (_ || _); [done|]. injection E as <-. by rewrite Hi.
  - intros cur prevs ring t k c aad p E [= <-] Ed. destruct (_ || _); [done|]. injection E as <-.
    cbn [toy_try]. by rewrite Ed.
  - intros cur prevs ring t c aad p E Ed. destruct (_ || _); [done|]. injection E as <-.
    revert Ed. generalize (cur :: prevs) as ring. induction ring as [|m r IH]; [done|]. cbn [toy_try].
    destruct (toy_open c aad (m, t)) as [p'|] eqn:Eo.
    + intros [= ->]. exists m, (m, t). split_and!; [by left|done|done].
    + intros Ed. destruct (IH Ed) as (m' & k & Hm & Hk). exists m', k. split; [by right|done].
Qed.

(** Text stored as it is. *)
Definition toy_serializer : serializer pybytes :=
  mkSerializer (fun v => Ok (v, metadata MSGPACK true (JStr (u "msgpack")))) (fun b _ => Ok b) None true.

Definition no_keys : key_settings := mkKeySettings None [].
Definition toy_of (master : Z) (previous : list Z) (closed : bool) :=
  mkWrapper (u "acme") toy_serializer closed (map (replicate 32) (master :: previous))
    (replicate 32 master, u "acme") (hexdigest (replicate 32 (master mod 256)))
    (map (fun m => hexdigest (replicate 32 (m mod 256))) (master :: previous)).

Definition no_numbers (_ : pystr) : bool := false.
Definition no_repr (_ : jval) : pystr := [].

Definition sealed : pybytes * SerializationMetadata :=
  match (serialize no_numbers no_repr toy_crypto (toy_of 1 [] false) (u "pin 1234") (u "users:1") 0).1 with
  | Ok r => r
  | Err _ => ([], metadata MSGPACK false JNull)
  end.

Lemma writer_made : made_from toy_crypto (toy_of 1 [] false) (replicate 32 1) [].
Proof.
  unfold made_from. split_and!; [vm_compute; discriminate|constructor|reflexivity|reflexivity|reflexivity|reflexivity|].
  eexists. split; reflexivity.
Qed.

Lemma rotated_made closed : made_from toy_crypto (toy_of 2 [1] closed) (replicate 32 2) [replicate 32 1].
Proof.
  unfold made_from. split_and!; [vm_compute; discriminate|repeat constructor; vm_compute; discriminate|
    reflexivity|reflexivity|reflexivity|reflexivity|].
  eexists. split; reflexivity.
Qed.

Lemma outsider_made closed : made_from toy_crypto (toy_of 3 [] closed) (replicate 32 3) [].
Proof.
  unfold made_from. split_and!; [vm_compute; discriminate|constructor|reflexivity|reflexivity|reflexivity|reflexivity|].
  eexists. split; reflexivity.
Qed.

Lemma aad_roundtrip_witness :
  exists aad, _create_aad no_numbers no_repr (u "acme") (metadata MSGPACK true JNull) (u "users:1") = Ok aad /\
    _parse_aad aad = Ok (mkParsed (u "acme") (u "users:1") (u "msgpack") (u "True") None) /\
    _create_aad no_numbers no_repr (u "acme") (metadata MSGPACK true JNull) (u "users:2") <> Ok aad.
Proof.
  eexists. split; [vm_compute; reflexivity|].
  destruct (aad_roundtrip no_numbers no_repr (u "acme") (metadata MSGPACK true JNull) (u "users:1")
    (match _create_aad no_numbers no_repr (u "acme") (metadata MSGPACK true JNull) (u "users:1") with
     | Ok a => a | Err _ => [] end)
    (u "acme") (metadata MSGPACK true JNull) (u "users:2")) as [P N];
    [apply u_code_points|apply u_code_points|split; [apply u_code_points|exact I]|
     apply u_code_points|apply u_code_points|split; [apply u_code_points|exact I]|vm_compute; reflexivity|].
  split; [exact P|]. apply N. vm_compute. discriminate.
Defined.

Lemma keyring_rotation_witness :
  deserialize no_numbers no_repr toy_crypto (toy_of 2 [1] true) sealed.1 sealed.2 (u "users:1") = Ok (u "pin 1234") /\
  deserialize no_numbers no_repr toy_crypto (toy_of 3 [] false) sealed.1 sealed.2 (u "users:1") = Err AuthenticationErr.
Proof.
  assert (E : serialize no_numbers no_repr toy_crypto (toy_of 1 [] false) (u "pin 1234") (u "users:1") 0
              = (Ok (sealed.1, sealed.2), 1)) by (vm_compute; reflexivity).
  split.
  - destruct (keyring_rotation no_numbers no_repr toy_crypto (toy_of 1 [] false) (replicate 32 1) []
      (u "pin 1234") (u "users:1") 0 sealed.1 sealed.2 1 (toy_of 2 [1] true) (replicate 32 2) [replicate 32 1]
      writer_made (rotated_made true) eq_refl) as (raw & m & Es & R & _); [|exact E|].
    + intros mk k Hm [= <-]. apply elem_of_cons in Hm as [->|Hm]; [vm_compute; discriminate|].
      apply list_elem_of_singleton in Hm as ->. reflexivity.
    + injection Es as <- <-. apply R. right. left.
  - destruct (keyring_rotation no_numbers no_repr toy_crypto (toy_of 1 [] false) (replicate 32 1) []
      (u "pin 1234") (u "users:1") 0 sealed.1 sealed.2 1 (toy_of 3 [] false) (replicate 32 3) []
      writer_made (outsider_made false) eq_refl) as (raw & m & Es & _ & R); [|exact E|].
    + intros mk k Hm [= <-]. apply list_elem_of_singleton in Hm as ->. vm_compute. discriminate.
    + apply R. intros mk Hm. apply list_elem_of_singleton in Hm as ->. vm_compute. discriminate.
Defined.

Lemma sealed_text : wf_text no_repr sealed.2.
Proof. split; [exact (u_code_points "True")|exact (u_code_points "msgpack")]. Qed.

Lemma ciphertext_bound_witness :
  deserialize no_numbers no_repr toy_crypto (toy_of 1 [] false) sealed.1 sealed.2 (u "users:1") = Ok (u "pin 1234") /\
  exists raw m, s_serialize toy_serializer (u "pin 1234") = Ok (raw, m) /\
    s_deserialize toy_serializer raw (inner_metadata sealed.2) = Ok (u "pin 1234").
Proof.
  split; [vm_compute; reflexivity|].
  destruct (ciphertext_bound no_numbers no_repr toy_crypto (toy_of 1 [] false) (u "pin 1234") (u "users:1") 0
    sealed.1 sealed.2 1 (toy_of 1 [] false) (replicate 32 1) [] sealed.2 (u "users:1") (u "pin 1234") writer_made)
    as (_ & _ & _ & _ & _ & R);
    [apply u_code_points|apply u_code_points|apply sealed_text|apply u_code_points|apply u_code_points|apply sealed_text|
     vm_compute; reflexivity|left; vm_compute; reflexivity|exact R].
Defined.
