(* ===== verification/SerializationProps.v ===== *)
(** What [CacheSerializationHandler] guarantees ([Serialization.v]): the wrapper
    cache is transparent, an encrypting handler never accepts plaintext, what is
    written is read back, and what a constructed handler's configuration is. *)
From Stdlib Require Import ZArith Lia SpecFloat.
From stdpp Require Import base list numbers option strings.
From S2P Require Import Prelude FileSystem FileBackend.
From S2P Require Import PyFloat PyDict Bytes PyValue Effects Json Envelope Serializers Tenant Encryption EncryptionProps Serialization.

Local Open Scope Z_scope.
Local Open Scope py_scope.
Local Open Scope eff_scope.

Section Props.
Context {V K KR R A : Type}.
Context (num_truthy : pystr -> bool) (str_of : jval -> pystr).
Context (decode_wide : pybytes -> option pystr).
Context (rust : crypto K KR R).
Context (s : settings).

Local Abbreviation handler := (CacheSerializationHandler V A).
Local Abbreviation wrapper_of := (_get_cached_encryption_wrapper rust s).
Local Abbreviation store := (serialize_data num_truthy str_of rust s).
Local Abbreviation load := (deserialize_data num_truthy str_of decode_wide rust s).

(** ** The wrapper cache *)

(** Distinct tenants, at most 256, each with the wrapper made for it; at most 1024
    warned keys. *)
Definition wf_state (h : handler) (st : state V K KR R) : Prop :=
  od_wf (_encryption_wrapper_cache st) /\ (length (_encryption_wrapper_cache st) <= 256)%nat /\
  (length (_drift_warned_keys st) <= 1024)%nat /\
  Forall (fun tw => new_wrapper rust s h (JStr tw.1) = Ok tw.2) (_encryption_wrapper_cache st).

Lemma new_wrapper_tenant (h : handler) tenant w : new_wrapper rust s h tenant = Ok w -> tenant = JStr (w_tenant_id w).
Proof.
  unfold new_wrapper. destruct (match master_key h with Some _ => _ | None => _ end) as [key|]; [|done].
  cbn [rbind]. intros E. by apply init_made in E as (_ & _ & E & _).
Qed.

Lemma wrapper_of_spec (h : handler) tenant st : wf_state h st ->
  (wrapper_of h tenant st).1 =
    match tenant with JArr _ | JObj _ => Err (PyExn TypeError) | _ => new_wrapper rust s h tenant end /\
  wf_state h (wrapper_of h tenant st).2.
Proof.
  intros (Wf & Len & Drift & F). unfold _get_cached_encryption_wrapper.
  destruct tenant as [| | |t| |]; try (split; [reflexivity|split_and!; done]).
  destruct (od_get t (_encryption_wrapper_cache st)) as [w|] eqn:E.
  - pose proof (od_Forall_get _ _ _ _ F E) as Hw. cbn [fst snd] in *. split; [done|].
    split_and!; cbn; [by apply od_wf_move|by rewrite od_length_move|done|by apply od_Forall_move].
  - destruct (new_wrapper rust s h (JStr t)) as [w|x] eqn:Ew; cbn [fst snd]; [|split; [done|split_and!; done]].
    split; [done|]. set (kept := if (_ <=? _)%nat then _ else _).
    assert (Hk : od_wf kept /\ (length kept <= 255)%nat /\ od_get t kept = None /\
      Forall (fun tw : pystr * _ => new_wrapper rust s h (JStr tw.1) = Ok tw.2) kept).
    { unfold kept, _encryption_cache_maxsize. destruct (256 <=? _)%nat eqn:L.
      - split_and!; [by apply od_wf_drop|rewrite length_drop; lia| |by apply Forall_drop].
        destruct (od_get t (drop 1 _)) eqn:G; [|done].
        apply od_get_drop in G; [|done]. by rewrite E in G.
      - apply Nat.leb_gt in L. split_and!; [done|lia|done|done]. }
    destruct Hk as (K1 & K2 & K3 & K4). split_and!; cbn; [by apply od_wf_set| |done|].
    + rewrite (od_set_None _ _ _ K3), length_app. simpl. lia.
    + apply od_Forall_set; [done|]. by intros t' <-.
Qed.

Lemma wrapper_of_keeps (h : handler) tenant : keeps (wf_state h) (wrapper_of h tenant).
Proof. intros st Wf. by apply wrapper_of_spec. Qed.

Lemma on_rng_keeps (h : handler) {B} (m : eff R B) : keeps (wf_state h) (on_rng m).
Proof. intros st Wf. unfold on_rng. by destruct (m (rng st)). Qed.

Lemma warn_drift_keeps (h : handler) key : keeps (wf_state h) (warn_drift key).
Proof.
  intros st (H1 & H2 & H3 & H4). unfold warn_drift. cbv zeta. cbn [snd].
  destruct (_ || _) eqn:E; [done|].
  apply orb_false_iff in E as [_ E]. apply Nat.leb_gt in E. split_and!; cbn [_encryption_wrapper_cache _drift_warned_keys]; try done.
Qed.

Hint Resolve wrapper_of_keeps on_rng_keeps warn_drift_keeps : pydb.

Lemma store_keeps (h : handler) data call key : keeps (wf_state h) (store h data call key).
Proof.
  unfold serialize_data. apply keeps_andthen.
  - apply keeps_trying; [|intros; apply keeps_throw]. apply keeps_andthen; [|eauto with pydb].
    unfold serialized. destruct (encryption h); eauto with pydb.
  - intros b. destruct (_ <? _); eauto with pydb.
Qed.

Lemma load_keeps (h : handler) data key : keeps (wf_state h) (load h data key).
Proof.
  unfold deserialize_data. destruct (interop_mode h).
  - unfold _deserialize_interop. destruct data as [t|b]; [eauto with pydb|].
    apply keeps_trying; [|intros; apply keeps_throw].
    destruct (encryption h); [|eauto with pydb]. destruct (_deployment_uuid_value h); eauto with pydb.
  - apply keeps_trying; [|intros; apply keeps_throw]. apply keeps_andthen; [eauto with pydb|].
    intros [[payload d] name]. apply keeps_andthen; [eauto with pydb|]. intros m.
    destruct (negb _); [eauto with pydb|]. unfold read_payload.
    destruct (encryption h && _); [eauto with pydb|]. destruct (truthy _ _); [|eauto with pydb].
    apply keeps_andthen; [destruct (encryption h); eauto with pydb|]. intros _.
    destruct (negb _); eauto with pydb.
Qed.

(** Calls on a handler. *)
Inductive call_on := Store (data : V) (call : A) (key : pystr) | Load (data : raw) (key : pystr).

Definition perform (h : handler) (c : call_on) (st : state V K KR R) : state V K KR R :=
  match c with
  | Store data call key => (store h data call key st).2
  | Load data key => (load h data key st).2
  end.

Lemma fresh_wf (h : handler) g : wf_state h (mkState [] [] g).
Proof. split_and!; [apply od_wf_nil|apply Nat.le_0_l|apply Nat.le_0_l|constructor]. Qed.

Lemma run_wf (h : handler) calls st : wf_state h st -> wf_state h (foldl (fun st c => perform h c st) st calls).
Proof.
  revert st. induction calls as [|c calls IH]; intros st Wf; [done|]. apply IH.
  destruct c; [by apply store_keeps|by apply load_keeps].
Qed.

(** After any calls the cache of encryption wrappers holds at most 256 distinct
    tenants (and 1024 warned keys), and asking it for a tenant gives exactly the
    wrapper, or the error, that making one for this tenant gives. *)
Theorem wrapper_cache_transparent (h : handler) calls g tenant :
  let st := foldl (fun st c => perform h c st) (mkState [] [] g) calls in
  (length (_encryption_wrapper_cache st) <= 256)%nat /\
  NoDup (od_keys (_encryption_wrapper_cache st)) /\
  (length (_drift_warned_keys st) <= 1024)%nat /\
  (wrapper_of h tenant st).1 =
    match tenant with JArr _ | JObj _ => Err (PyExn TypeError) | _ => new_wrapper rust s h tenant end.
Proof.
  intros st. assert (Wf : wf_state h st) by apply run_wf, fresh_wf.
  destruct (wrapper_of_spec h tenant st Wf) as [E _]. destruct Wf as (H1 & H2 & H3 & _). done.
Qed.

(** ** Reading under encryption *)

Context `{!Aead rust}.

(** The value came out of the cipher: some bytes decrypted with a key of the
    handler, under associated data for this cache key. *)
Definition authenticated (h : handler) (key : pystr) (v : V) : Prop :=
  exists w cur prevs c md,
    made_from rust w cur prevs /\ w_serializer w = _base_serializer h /\
    read_with num_truthy str_of rust w cur prevs c md key v /\
    (interop_mode h = true -> _deployment_uuid_value h = Some (w_tenant_id w)).

Lemma new_wrapper_made (h : handler) tenant w : new_wrapper rust s h tenant = Ok w ->
  w_serializer w = _base_serializer h /\ exists cur prevs, made_from rust w cur prevs.
Proof.
  unfold new_wrapper. destruct (match master_key h with Some _ => _ | None => _ end) as [key|]; [|done].
  cbn [rbind]. intros E. by apply init_made in E as (E1 & _ & _ & E2).
Qed.

Lemma wrapper_of_ok (h : handler) tenant st w st' : wf_state h st -> wrapper_of h tenant st = (Ok w, st') ->
  new_wrapper rust s h tenant = Ok w.
Proof.
  intros Wf E. destruct (wrapper_of_spec h tenant st Wf) as [S _]. rewrite E in S. cbn in S.
  by destruct tenant.
Qed.

Lemma payload_authenticated (h : handler) payload m key st v st' : encryption h = true -> wf_state h st ->
  interop_mode h = false -> read_payload num_truthy str_of rust s h payload m key st = (Ok v, st') ->
  authenticated h key v.
Proof.
  intros He Wf Hi E. unfold read_payload in E. rewrite He in E. cbn [andb] in E.
  destruct (truthy num_truthy (encrypted m)); cbn [negb] in E; [|done].
  unfold andthen in E at 1. cbn [ret] in E. destruct (negb _); [done|].
  unfold andthen in E. destruct (wrapper_of h (tenant_id m) st) as [[w|x] st1] eqn:Ew; [|done].
  apply wrapper_of_ok in Ew; [|done]. injection E as E _.
  destruct (new_wrapper_made _ _ _ Ew) as (Es & cur & prevs & M).
  destruct (read_identified num_truthy str_of rust w cur prevs _ _ _ _ M E) as [_ Rw].
  exists w, cur, prevs, payload, m. split_and!; try done. by rewrite Hi.
Qed.

(** C2. A handler with encryption on never returns unauthenticated bytes: whatever
    is stored, a read that succeeds decrypted it with a key of the handler under
    associated data for the key being read.  A frame whose header claims plaintext
    is refused as a suspicious entry before any serializer sees its payload. *)
Theorem no_downgrade (h : handler) data key st : encryption h = true -> wf_state h st ->
  (forall v st', load h data key st = (Ok v, st') -> authenticated h key v) /\
  (forall payload d name m, interop_mode h = false -> unwrap decode_wide data = Ok (payload, d, name) ->
    from_dict d = Ok m -> compatible h name = true -> truthy num_truthy (encrypted m) = false ->
    load h data key st = (Err SuspiciousErr, st)).
Proof.
  intros He Wf. split.
  - intros v st' E. unfold deserialize_data in E. destruct (interop_mode h) eqn:Hi.
    + unfold _deserialize_interop in E. destruct data as [t|b]; [done|]. apply trying_ok in E; [|by eexists]. rewrite He in E.
      destruct (_deployment_uuid_value h) as [tenant|] eqn:Hu; [|done].
      unfold andthen in E. destruct (wrapper_of h (JStr tenant) st) as [[w|x] st1] eqn:Ew; [|done].
      apply wrapper_of_ok in Ew; [|done]. injection E as E _.
      destruct (new_wrapper_made _ _ _ Ew) as (Es & cur & prevs & M).
      pose proof (read_without_identity num_truthy str_of rust w cur prevs _ _ _ _ M E) as Rw.
      exists w, cur, prevs, b, (interop_metadata tenant). split_and!; try done.
      intros _. apply new_wrapper_tenant in Ew. injection Ew as Ew. congruence.
    + apply trying_ok in E; [|by eexists]. unfold andthen, lift in E.
      destruct (unwrap decode_wide data) as [[[payload d] name]|]; [|done].
      destruct (from_dict d) as [m|]; [|done]. cbn [py] in E. destruct (negb _); [done|].
      by eapply payload_authenticated.
  - intros payload d name m Hi Eu Ed Hc Ht. unfold deserialize_data. rewrite Hi.
    unfold trying, andthen, lift. rewrite Eu, Ed. cbn [py]. rewrite Hc. cbn [negb].
    unfold read_payload. rewrite He, Ht. reflexivity.
Qed.

(** ** What is written is read back *)

(** The serializer reads [v] back, whatever metadata it is handed. *)
Definition reads_back (ser : serializer V) (v : V) : Prop :=
  forall b m, s_serialize ser v = Ok (b, m) ->
    wf_metadata m /\ encrypted m = JBool false /\ forall m', s_deserialize ser b m' = Ok v.

(** What construction ensures of an interop handler. *)
Definition interop_shape (h : handler) : Prop :=
  interop_mode h = true -> tenant_extractor h = None /\
    forall v b m, s_serialize (_base_serializer h) v = Ok (b, m) -> m = metadata MSGPACK false JNull.

Lemma store_inv (h : handler) data call key st b st' : store h data call key st = (Ok b, st') ->
  zlen b <= max_value_size s /\ exists sd md,
    (if encryption h
     then exists t w st1, write_tenant h call = Ok t /\ wrapper_of h (JStr t) st = (Ok w, st1) /\
            on_rng (serialize num_truthy str_of rust w data key) st1 = (Ok (sd, md), st')
     else s_serialize (_base_serializer h) data = Ok (sd, md) /\ st' = st) /\
    (if interop_mode h then b = sd
     else wrap sd (to_dict num_truthy md) (_serializer_string_name h) (u "2.0") = Ok b).
Proof.
  intros E. apply andthen_ok in E as (b1 & st1 & Em & E).
  destruct (_ <? _) eqn:Es; [done|]. injection E as -> ->. split; [by zbool|].
  apply trying_ok in Em; [|by eexists]. apply andthen_ok in Em as ([sd md] & st2 & E2 & Em).
  apply lift_ok in Em as [Ee ->]. exists sd, md. split.
  - unfold serialized in E2. destruct (encryption h).
    + apply andthen_ok in E2 as (t & st3 & E3 & E2). apply lift_ok in E3 as [Et ->].
      apply andthen_ok in E2 as (w & st3 & E3 & E2). by exists t, w, st3.
    + apply lift_ok in E2 as [-> ->]. done.
  - unfold enveloped in Ee. cbn [fst snd] in Ee. destruct (interop_mode h); [congruence|].
    destruct (wrap _ _ _ _); [|done]. cbn in Ee. congruence.
Qed.

(** In every mode (plain or encrypted, framed or interop) a value that was accepted
    for storage within the size limit is read back under its key, after any calls
    in between. *)
Lemma stored_bytes_read_back (h : handler) v call key st b st' calls :
  wf_state h st -> interop_shape h -> Forall is_code_point (_serializer_string_name h) ->
  reads_back (_base_serializer h) v ->
  (forall t, write_tenant h call = Ok t -> t <> [] /\ Forall is_code_point t) ->
  store h v call key st = (Ok b, st') ->
  (load h (RawBytes b) key (foldl (fun st c => perform h c st) st' calls)).1 = Ok v.
Proof.
  intros Wf Hi Hn Hr Ht E. assert (Wf' : wf_state h st').
  { replace st' with (store h v call key st).2 by (by rewrite E). by apply store_keeps. }
  apply (run_wf h calls) in Wf'. set (st2 := foldl _ st' calls) in *. clearbody st2.
  apply store_inv in E as (_ & sd & md & Hm & Hw).
  assert (Hwrap : wf_metadata md -> interop_mode h = false ->
    load h (RawBytes b) key st2 =
      trying (read_payload num_truthy str_of rust s h sd md key) read_failed st2).
  { intros Wm Ei. rewrite Ei in Hw. unfold deserialize_data. rewrite Ei. unfold trying, andthen, lift.
    rewrite (unwrap_wrap decode_wide _ _ _ _ _ (to_dict_writable num_truthy _ Wm) Hn (u_code_points "2.0") Hw).
    rewrite (metadata_roundtrip num_truthy md Wm). cbn [py compatible].
    by rewrite bool_decide_eq_true_2. }
  destruct (encryption h) eqn:He.
  - destruct Hm as (t & w & st1 & Et & Ew & Es). destruct (Ht t Et) as [Hne Hcp].
    apply wrapper_of_ok in Ew; [|done].
    pose proof (new_wrapper_tenant _ _ _ Ew) as Ewt. injection Ewt as ->.
    destruct (new_wrapper_made _ _ _ Ew) as (Eb & cur & prevs & M).
    unfold on_rng in Es. destruct (serialize _ _ _ _ _ _ _) as [r g'] eqn:Eser. injection Es as -> Est.
    destruct (own_read num_truthy str_of rust w cur prevs _ _ _ _ _ _ M Eser)
      as (raw & m & Ers & Emd & Eread & Eun).
    rewrite Eb in Ers. destruct (Hr _ _ Ers) as (Wm & _ & Hd). rewrite Eb in Eread, Eun.
    assert (Ew2 : exists st3, wrapper_of h (JStr (w_tenant_id w)) st2 = (Ok w, st3)).
    { destruct (wrapper_of_spec h (JStr (w_tenant_id w)) st2 Wf') as [S _]. rewrite Ew in S.
      destruct (wrapper_of h _ st2) as [r st3]. cbn in S. subst. by exists st3. }
    destruct Ew2 as [st3 Ew2]. destruct (interop_mode h) eqn:Ei.
    + subst b. destruct (Hi Ei) as [Hx Hmd]. unfold write_tenant in Et. rewrite Hx in Et.
      destruct (_deployment_uuid_value h) as [t|] eqn:Eu; [|done]. injection Et as ->.
      unfold deserialize_data. rewrite Ei. unfold _deserialize_interop. rewrite He, Eu.
      unfold trying, andthen. rewrite Ew2. unfold lift.
      rewrite (Hmd _ _ _ Ers) in Eun. rewrite Eun by done. unfold recover. by rewrite Hd.
    + rewrite Hwrap; [|subst md|done].
      * assert (Ht1 : truthy num_truthy (JStr (w_tenant_id w)) = true) by (by destruct (w_tenant_id w)).
        unfold trying, read_payload. assert (H1 : encrypted md = JBool true) by (by subst md).
        assert (H2 : tenant_id md = JStr (w_tenant_id w)) by (by subst md).
        rewrite He, H1, H2, Ht1. cbn [truthy negb andb]. unfold andthen. cbn [ret]. rewrite Ew2. unfold lift.
        rewrite Eread. unfold recover. by rewrite Hd.
      * destruct Wm as (P1 & P2 & P3 & _). split_and!; [exact P1|exact P2|exact P3|exact Hcp|
          exact (u_code_points "AES-256-GCM")|by eapply fingerprint_code_points|by left].
  - destruct Hm as [Es ->]. destruct (Hr _ _ Es) as (Wm & Hne & Hd). destruct (interop_mode h) eqn:Ei.
    + subst b. unfold deserialize_data. rewrite Ei. unfold _deserialize_interop. rewrite He.
      unfold trying, lift. by rewrite Hd.
    + rewrite Hwrap by done. unfold trying, read_payload. rewrite He, Hne. cbn [truthy negb andb].
      unfold lift. by rewrite Hd.
Qed.

End Props.

(** ** Configuration *)

(** A configured identifier is used in its canonical form. *)
Lemma check_uuid_valid i t x : check_uuid i t = Valid x ->
  (exists n, uuid_value t = Some n /\ x = uuid_text n) /\ (i = true -> strip is_unicode_space t = x).
Proof.
  unfold check_uuid. destruct (uuid_value t) as [n|]; [|done]. destruct (i && _) eqn:E; [done|].
  intros [= <-]. split; [by exists n|]. intros ->. cbn in E. apply negb_false_iff in E. by apply bool_decide_eq_true in E.
Qed.

(** Without a configured identifier a single-tenant deployment keeps the one it
    persisted: started again, whatever fresh identifier it draws, it uses the same
    tenant and leaves the file as it is. *)
Theorem deployment_uuid_stable s n file x stored' fresh persists' :
  0 <= n < 2 ^ 128 -> set_deployment_uuid s = None ->
  persists file = true -> uuid4 file = uuid_text n ->
  _get_deterministic_deployment_uuid false s file None = Ok (x, stored') ->
  (exists t, stored' = Some (Some t)) /\
  _get_deterministic_deployment_uuid false s (mkUuidFile stored' fresh persists') None = Ok (x, stored').
Proof.
  intros Hn Hs Hp Hu E. unfold _get_deterministic_deployment_uuid in *. rewrite Hs in *. cbn [persists uuid4] in *.
  assert (S : strip is_unicode_space (uuid_text n) = uuid_text n).
  { apply strip_none. eapply list.Forall_impl; [apply uuid_chars|]. unfold is_hex. intros c Hc.
    unfold is_unicode_space, is_space. by ztests. }
  assert (C : check_uuid false (strip is_unicode_space (uuid_text n)) = Valid (uuid_text n)).
  { unfold check_uuid. by rewrite S, uuid_roundtrip. }
  rewrite Hp, Hu in E. destruct (stored file) as [[t|]|]; [|done|].
  - destruct (check_uuid false (strip is_unicode_space t)) as [y| |] eqn:Ey; injection E as <- <-;
      (split; [by eexists|]); cbn [stored]; [by rewrite Ey|by rewrite C|by rewrite C].
  - injection E as <- <-. split; [by eexists|]. cbn [stored]. by rewrite C.
Qed.

Section Configuration.
Context {V A : Type} (interop : serializer V).
Context (instance : serializer_arg V -> result exn (serializer V * option (streaming V))).

Local Abbreviation make := (init (A := A) interop instance).

(** A constructed handler has a coherent configuration: encryption is on exactly
    when asked for, or when left open and a master key is configured; then the
    serializer is readable by other SDKs and there is either a tenant extractor or a
    deployment identifier, not both.  An interop handler has no extractor, uses the
    interop serializer and, encrypting, an identifier configured in canonical form;
    it never touches the identifier file. *)
Theorem handler_configuration s file a (h : CacheSerializationHandler V A) stored' :
  make s file a = Ok (h, stored') ->
  (encryption h = true <->
     a_encryption a = Some true \/
     a_encryption a = None /\ a_master_key a = None /\ a_tenant_extractor a = None /\
       is_empty (set_master_key (keys s)) = false) /\
  (encryption h = true -> cross_sdk (a_serializer a) = true /\
     ((exists x, tenant_extractor h = Some x /\ _deployment_uuid_value h = None) \/
      (exists t, tenant_extractor h = None /\ _deployment_uuid_value h = Some t))) /\
  (interop_mode h = true -> tenant_extractor h = None /\ _base_serializer h = interop /\
     _serializer_string_name h = u "default" /\ stored' = stored file /\
     (encryption h = true -> exists t n, strip is_unicode_space t = uuid_text n /\
        _deployment_uuid_value h = Some (uuid_text n) /\
        (a_deployment_uuid a = Some t \/ set_deployment_uuid s = Some t))).
Proof.
  unfold init. destruct (a_interop_mode a && negb (interop_allowed a)) eqn:Ei; [done|].
  destruct (resolve_encryption s a) as [[enc key] single] eqn:Er. intros E.
  destruct (if enc then _ else _) as [[du f]|] eqn:Ed; [|done]. cbn [rbind fst snd] in E.
  destruct (if a_interop_mode a then _ else _) as [[b st]|] eqn:Eb; [|done].
  cbn [rbind fst snd] in E. injection E as <- <-.
  cbn [encryption tenant_extractor _deployment_uuid_value interop_mode _base_serializer _serializer_string_name].
  split; [|split].
  - unfold resolve_encryption in Er. destruct (a_encryption a) as [e|].
    + injection Er as -> _ _. split; [by left; congruence|]. intros [E|[E _]]; [congruence|done].
    + destruct (a_master_key a) as [k0|], (a_tenant_extractor a) as [x0|], (set_master_key (keys s)) as [[|z0 l0]|];
        injection Er as <- _ _; split; try done; try (intros [E|(_ & E1 & E2 & E3)]; done); auto.
  - intros ->. destruct (a_tenant_extractor a) as [x|], single; try done.
    + destruct (cross_sdk _) eqn:C; [|done]. cbn in Ed. injection Ed as <- <-. split; [done|]. left. by exists x.
    + destruct (cross_sdk _) eqn:C; [|done]. cbn in Ed.
      destruct (_get_deterministic_deployment_uuid _ _ _ _) as [[t f']|]; [|done]. injection Ed as <- <-.
      split; [done|]. right. by exists t.
  - intros Hi. rewrite Hi in *. cbn [andb] in Ei. apply negb_false_iff in Ei. injection Eb as <- <-.
    unfold interop_allowed in Ei. destruct (a_tenant_extractor a) as [x|]; [done|].
    destruct (a_serializer a) as [nm|]; [|done]. apply bool_decide_eq_true in Ei.
    assert (G : forall t x f', match check_uuid true t with Valid x => Ok (x, stored file) | _ => Err ConfigurationError end
      = Ok (x, f') -> f' = stored file /\ exists n, strip is_unicode_space t = uuid_text n /\ x = uuid_text n).
    { intros t x f'. destruct (check_uuid true t) as [y| |] eqn:Ey; try done. intros [= <- <-]. split; [done|].
      apply check_uuid_valid in Ey as [(n & _ & ->) Es]. exists n. by rewrite Es. }
    assert (Hdu : f = stored file /\ (enc = true -> exists t n, strip is_unicode_space t = uuid_text n /\
      du = Some (uuid_text n) /\ (a_deployment_uuid a = Some t \/ set_deployment_uuid s = Some t))).
    { destruct enc; [|by injection Ed as <- <-]. destruct single; [|done].
      destruct (negb _); [done|]. unfold _get_deterministic_deployment_uuid in Ed.
      destruct (a_deployment_uuid a) as [[|c l]|] eqn:Ea; [destruct (set_deployment_uuid s) as [[|c l]|] eqn:Es| |
        destruct (set_deployment_uuid s) as [[|c l]|] eqn:Es]; try done.
      all: destruct (match check_uuid true _ with Valid _ => _ | _ => _ end) as [[x f']|] eqn:Ex; [|done].
      all: injection Ed as <- <-; apply G in Ex as (-> & n & Ex & ->); split; [done|]; intros _.
      all: eexists _, n; split; [exact Ex|]; auto. }
    destruct Hdu as [-> Hdu]. split_and!; done.
Qed.
End Configuration.

(** ** Concrete runs *)

Definition hex_key : pystr := concat (replicate 32 (u "01")).
Definition some_settings : settings := mkSettings no_keys 1000 false None.
Definition no_wide (_ : pybytes) : option pystr := None.

(** An encrypting single-tenant handler of framed entries. *)
Definition vault : CacheSerializationHandler pybytes unit :=
  mkHandler (u "default") toy_serializer None true None (Some (u "acme")) (Some hex_key) true false.

Definition fresh_state : state pybytes (pybytes * pystr) (list pybytes) Z := mkState [] [] 0.
Definition vault_store := serialize_data no_numbers no_repr toy_crypto some_settings vault (u "pin 1234") tt (u "users:1").
Definition vault_load (b : pybytes) := deserialize_data no_numbers no_repr no_wide toy_crypto some_settings vault (RawBytes b).

Definition stored_bytes : pybytes := match (vault_store fresh_state).1 with Ok b => b | Err _ => [] end.
Definition plain_frame : pybytes :=
  match wrap (u "evil") (to_dict no_numbers (metadata MSGPACK true (JStr (u "msgpack")))) (u "default") (u "2.0") with
  | Ok b => b | Err _ => [] end.

Lemma fresh_vault : wf_state toy_crypto some_settings vault fresh_state.
Proof. apply fresh_wf. Qed.

Lemma toy_reads_back v : reads_back toy_serializer v.
Proof.
  intros b m [= <- <-]. split_and!; [|done|done].
  split_and!; try exact I; [exact (u_code_points "utf-8")|exact (u_code_points "msgpack")|by right].
Qed.

Lemma no_downgrade_witness :
  authenticated (A := unit) no_numbers no_repr toy_crypto vault (u "users:1") (u "pin 1234") /\
  vault_load plain_frame (u "users:1") fresh_state = (Err SuspiciousErr, fresh_state).
Proof.
  split.
  - destruct (no_downgrade no_numbers no_repr no_wide toy_crypto some_settings vault (RawBytes stored_bytes)
      (u "users:1") fresh_state eq_refl fresh_vault) as [P _].
    apply (P _ (vault_load stored_bytes (u "users:1") fresh_state).2). vm_compute. reflexivity.
  - destruct (no_downgrade no_numbers no_repr no_wide toy_crypto some_settings vault (RawBytes plain_frame)
      (u "users:1") fresh_state eq_refl fresh_vault) as [_ P].
    eapply P; vm_compute; reflexivity.
Defined.

Lemma deployment_uuid_stable_witness :
  _get_deterministic_deployment_uuid false some_settings
    (mkUuidFile (Some (Some (uuid_text 5))) (uuid_text 7) false) None = Ok (uuid_text 5, Some (Some (uuid_text 5))).
Proof.
  destruct (deployment_uuid_stable some_settings 5 (mkUuidFile None (uuid_text 5) true) (uuid_text 5)
    (Some (Some (uuid_text 5))) (uuid_text 7) false) as [_ E];
    [split; [discriminate|reflexivity]|reflexivity|reflexivity|reflexivity|reflexivity|exact E].
Defined.

Definition interop_arguments : arguments pybytes unit :=
  mkArguments (Named (u "std")) (Some true) None true (Some (uuid_text 5)) (Some hex_key) None true.

Lemma handler_configuration_witness :
  exists h f, init toy_serializer (fun _ => Err OtherError) some_settings (mkUuidFile None [] false) interop_arguments
                = Ok (h, f) /\ f = None /\ _deployment_uuid_value h = Some (uuid_text 5).
Proof.
  eexists _, _. split; [reflexivity|].
  destruct (handler_configuration toy_serializer (fun _ => Err OtherError) some_settings (mkUuidFile None [] false)
    interop_arguments _ _ eq_refl) as (_ & _ & H).
  destruct (H eq_refl) as (_ & _ & _ & Hf & _). split; [exact Hf|reflexivity].
Defined.
