(* ===== verification/Handler.v ===== *)
(** The read and write paths between a decorated function and a backend
    ([src/src/cachekit/cache_handler.py], from [handle_decrypt_failure] and the
    capability guards to [CacheOperationHandler], [CacheInvalidator] and
    [StandardCacheHandler]).

    A backend and a serialization handler are records of the operations the code
    calls; an optional capability the code probes with [hasattr] is an option.
    [W] is the state the backend and the serialization handler act on, [V] the
    values, [Hd] the handles of memory-mapped entries, [P] what a streaming producer
    writes, [A] the call a tenant is extracted from.  The text of log messages, and
    a failure to make it, are left out. *)
From Stdlib Require Import ZArith Lia SpecFloat.
From stdpp Require Import base list numbers option strings.
From S2P Require Import Prelude PyFloat Bytes PyValue Errors Effects KeyGenerator.

Local Open Scope Z_scope.
Local Open Scope eff_scope.

Section Handler.
Context {W V Hd P A : Type}.

(** ** Interfaces *)

(** An asynchronous context manager that yields a boolean.  Leaving it with the
    exception the block raised, if any, gives the one that propagates. *)
Record async_context := mkContext {
  aenter : eff W bool;
  aexit : bool -> option exn -> eff W (option exn)
}.

(** [BaseBackend] and the optional protocols. *)
Record backend := mkBackend {
  b_get : pystr -> eff W (option pybytes);
  b_set : pystr -> pybytes -> option Z -> eff W unit;
  b_delete : pystr -> eff W bool;
  b_get_buffer : option (pystr -> eff W (option Hd));
  b_view : Hd -> W -> pybytes;
  b_close : Hd -> eff W unit;
  b_set_streaming : option (pystr -> P -> option Z -> eff W unit);
  (* get_with_freshness, and set with a stale_ttl *)
  b_swr : option ((pystr -> eff W (option (pybytes * bool))) *
                  (pystr -> pybytes -> option Z -> Z -> eff W unit));
  (* get_ttl and refresh_ttl *)
  b_ttl : option ((pystr -> eff W (option Z)) * (pystr -> Z -> eff W bool));
  (* acquire_lock: whether to wait, and the key *)
  b_lock : option (bool -> pystr -> async_context)
}.

(** What the operation handler uses of [CacheSerializationHandler]. *)
Record serialization := mkSerialization {
  supports_mmap_read : bool;
  supports_streaming : bool;
  encryption_fail_closed : bool;
  serialize_data : V -> A -> pystr -> eff W pybytes;
  deserialize_data : pybytes -> pystr -> eff W V;
  write_serialized_to : V -> P
}.

Definition supports_ttl_inspection (b : backend) : bool := bool_decide (is_Some (b_ttl b)).
Definition supports_buffer_read (b : backend) : bool := bool_decide (is_Some (b_get_buffer b)).
Definition supports_streaming_write (b : backend) : bool := bool_decide (is_Some (b_set_streaming b)).
Definition supports_swr (b : backend) : bool := bool_decide (is_Some (b_swr b)).

(** ** The read-path security policy *)

Definition failure_reason (k : serialization_error) : pystr :=
  match k with
  | DecryptionAuthenticationError => u "auth_tamper"
  | SuspiciousCacheEntryError => u "suspicious_envelope"
  | _ => u "corruption"
  end.

Definition handle_decrypt_failure (k : serialization_error) (fail_closed : bool) : result exn pystr :=
  if fail_closed && bool_decide (k = DecryptionAuthenticationError)
  then Err (SerializationExn k) else Ok (failure_reason k).

(** ** [StandardCacheHandler] *)

(** [permit] is the outcome of [backpressure_controller.acquire()]: granted, or
    the error it raises. *)
Record StandardCacheHandler := mkHandler {
  h_backend : backend;
  permit : W -> option BackendError;
  ttl_refresh_threshold : float
}.

Definition _with_backpressure_and_timeout {B} (h : StandardCacheHandler) (operation : eff W B) : eff W B :=
  fun w => match permit h w with
           | Some e => (Err (BackendExn e), w)
           | None => operation w
           end.

(** [except BackendError: ... except Exception: ...], both of which return [d]. *)
Definition degrading {B} (d : B) (m : eff W B) : eff W B := trying m (fun _ => ret d).

Definition get (h : StandardCacheHandler) (key : pystr) (refresh_ttl : option Z) : eff W (option pybytes) :=
  degrading None (_with_backpressure_and_timeout h (b_get (h_backend h) key)).

Definition get_buffer (h : StandardCacheHandler) (key : pystr) : eff W (option Hd) :=
  match b_get_buffer (h_backend h) with
  | None => ret None
  | Some gb => degrading None (_with_backpressure_and_timeout h (gb key))
  end.

Definition get_with_freshness (h : StandardCacheHandler) (key : pystr) : eff W (option (pybytes * bool)) :=
  match b_swr (h_backend h) with
  | None =>
      value <~ get h key None ;;
      ret (match value with Some v => Some (v, false) | None => None end)
  | Some (gf, _) => degrading None (_with_backpressure_and_timeout h (gf key))
  end.

Definition set (h : StandardCacheHandler) (key : pystr) (value : pybytes) (ttl stale_ttl : option Z)
  : eff W bool :=
  degrading false
    (match stale_ttl, b_swr (h_backend h) with
     | Some s, Some (_, sw) => _with_backpressure_and_timeout h (sw key value ttl s)
     | _, _ => _with_backpressure_and_timeout h (b_set (h_backend h) key value ttl)
     end ;;~
     ret true).

Definition set_streaming (h : StandardCacheHandler) (key : pystr) (p : P) (ttl : option Z)
  : eff W (option bool) :=
  match b_set_streaming (h_backend h) with
  | None => ret None
  | Some st =>
      degrading (Some false) (_with_backpressure_and_timeout h (st key p ttl) ;;~ ret (Some true))
  end.

Definition delete (h : StandardCacheHandler) (key : pystr) : eff W bool :=
  degrading false (_with_backpressure_and_timeout h (b_delete (h_backend h) key)).

(** [remaining_ttl < refresh_ttl * self.ttl_refresh_threshold] *)
Definition below_threshold (h : StandardCacheHandler) (remaining refresh_ttl : Z) : bool :=
  fgtZ (fmul (fofZ refresh_ttl) (ttl_refresh_threshold h)) remaining.

Definition _maybe_refresh_ttl (h : StandardCacheHandler) (key : pystr) (refresh_ttl : Z) : eff W unit :=
  match b_ttl (h_backend h) with
  | None => ret tt
  | Some (get_ttl, refresh) =>
      degrading tt
        (remaining <~ get_ttl key ;;
         match remaining with
         | Some t => if below_threshold h t refresh_ttl then refresh key refresh_ttl ;;~ ret tt else ret tt
         | None => ret tt
         end)
  end.

Definition get_async (h : StandardCacheHandler) (key : pystr) (refresh_ttl : option Z)
  : eff W (option pybytes) :=
  degrading None
    (value <~ _with_backpressure_and_timeout h (b_get (h_backend h) key) ;;
     match value, refresh_ttl with
     | Some _, Some t => _maybe_refresh_ttl h key t
     | _, _ => ret tt
     end ;;~
     ret value).

Definition get_with_freshness_async (h : StandardCacheHandler) (key : pystr)
  : eff W (option (pybytes * bool)) :=
  match b_swr (h_backend h) with
  | None =>
      value <~ get_async h key None ;;
      ret (match value with Some v => Some (v, false) | None => None end)
  | Some (gf, _) => degrading None (_with_backpressure_and_timeout h (gf key))
  end.

(** The asynchronous writers run the same calls in a thread. *)
Definition set_async := set.
Definition set_streaming_async := set_streaming.
Definition delete_async := delete.

(** ** [CacheOperationHandler] *)

Record CacheOperationHandler := mkOperation {
  serialization_handler : serialization;
  _cache_handler : option StandardCacheHandler;
  on_deserialize_error : option (serialization_error -> pystr -> eff W unit)
}.

Definition set_cache_handler (o : CacheOperationHandler) (h : StandardCacheHandler) : CacheOperationHandler :=
  mkOperation (serialization_handler o) (Some h) (on_deserialize_error o).

(** The observability hook, best-effort. *)
Definition _notify_deserialize_error (o : CacheOperationHandler) (k : serialization_error) (key : pystr) : eff W unit :=
  match on_deserialize_error o with
  | None => ret tt
  | Some hook => degrading tt (hook k key)
  end.

(** The policy, then a best-effort eviction, then the hook. *)
Definition _handle_l2_read_error (o : CacheOperationHandler) (k : serialization_error) (key : pystr)
  : eff W unit :=
  _ <~ lift (handle_decrypt_failure k (encryption_fail_closed (serialization_handler o))) ;;
  degrading tt
    (match _cache_handler o with
     | Some h => delete h key ;;~ ret tt
     | None => ret tt
     end) ;;~
  _notify_deserialize_error o k key.

(** The three handlers of the read methods. *)
Definition read_errors {B} (o : CacheOperationHandler) (key : pystr) (x : exn) : eff W (option B) :=
  match x with
  | KeyringConfigurationError => throw KeyringConfigurationError
  | SerializationExn k => _handle_l2_read_error o k key ;;~ ret None
  | _ => ret None
  end.

(** [if self._cache_handler is None: raise RuntimeError(...)] *)
Definition require_handler (o : CacheOperationHandler) : eff W StandardCacheHandler :=
  match _cache_handler o with
  | Some h => ret h
  | None => throw RuntimeError
  end.

(** The buffered read shared by the sync and async methods. *)
Definition decoded (o : CacheOperationHandler) (key : pystr) (data : option pybytes)
  : eff W (option (V * pybytes)) :=
  match data with
  | Some d => v <~ deserialize_data (serialization_handler o) d key ;; ret (Some (v, d))
  | None => ret None
  end.

Definition get_cached_value (o : CacheOperationHandler) (key : pystr) (refresh_ttl : option Z)
  : eff W (option V) :=
  trying
    (h <~ require_handler o ;;
     handle <~ (if supports_mmap_read (serialization_handler o) then get_buffer h key else ret None) ;;
     match handle with
     | Some hd =>
         finally
           (fun w => (v <~ deserialize_data (serialization_handler o) (b_view (h_backend h) hd w) key ;;
                      ret (Some v)) w)
           (b_close (h_backend h) hd)
     | None =>
         cached_data <~ get h key refresh_ttl ;;
         r <~ decoded o key cached_data ;;
         ret (fst <$> r)
     end)
    (read_errors o key).

Definition get_cached_value_with_freshness (o : CacheOperationHandler) (key : pystr)
  : eff W (option (V * bool)) :=
  trying
    (h <~ require_handler o ;;
     hit <~ get_with_freshness h key ;;
     r <~ decoded o key (fst <$> hit) ;;
     ret (match r, hit with Some (v, _), Some (_, stale) => Some (v, stale) | _, _ => None end))
    (read_errors o key).

(** With the raw envelope, to backfill the L1 cache. *)
Definition get_cached_value_async (o : CacheOperationHandler) (key : pystr) (refresh_ttl : option Z)
  : eff W (option (V * pybytes)) :=
  trying
    (h <~ require_handler o ;;
     cached_data <~ get_async h key refresh_ttl ;;
     decoded o key cached_data)
    (read_errors o key).

Definition get_cached_value_with_freshness_async (o : CacheOperationHandler) (key : pystr)
  : eff W (option (V * pybytes * bool)) :=
  trying
    (h <~ require_handler o ;;
     hit <~ get_with_freshness_async h key ;;
     r <~ decoded o key (fst <$> hit) ;;
     ret (match r, hit with Some x, Some (_, stale) => Some (x, stale) | _, _ => None end))
    (read_errors o key).

(** [except InteropError: raise; except Exception: return None] *)
Definition write_errors {B} (x : exn) : eff W (option B) :=
  match x with InteropError => throw InteropError | _ => ret None end.

(** The buffered write; the boolean [set] returns is not looked at. *)
Definition store_buffered (o : CacheOperationHandler) (h : StandardCacheHandler) (key : pystr) (result : V)
    (ttl : option Z) (call : A) (stale_ttl : option Z) : eff W (option pybytes) :=
  data <~ serialize_data (serialization_handler o) result call key ;;
  _ <~ set h key data ttl stale_ttl ;;
  ret (Some data).

Definition store_result (o : CacheOperationHandler) (key : pystr) (result : V) (ttl : option Z) (call : A)
    (stale_ttl : option Z) : eff W (option pybytes) :=
  trying
    (h <~ require_handler o ;;
     streamed <~ (if bool_decide (stale_ttl = None) && supports_streaming (serialization_handler o)
                  then set_streaming h key (write_serialized_to (serialization_handler o) result) ttl
                  else ret None) ;;
     match streamed with
     | Some _ => ret None
     | None => store_buffered o h key result ttl call stale_ttl
     end)
    write_errors.

Definition store_result_async (o : CacheOperationHandler) (key : pystr) (result : V) (ttl : option Z)
    (call : A) : eff W (option pybytes) :=
  trying
    (h <~ require_handler o ;;
     streamed <~ (if supports_streaming (serialization_handler o)
                  then set_streaming_async h key (write_serialized_to (serialization_handler o) result) ttl
                  else ret None) ;;
     match streamed with
     | Some _ => ret None
     | None => store_buffered o h key result ttl call None
     end)
    write_errors.

(** ** Keys and [CacheInvalidator] *)

Context (blake2b : Z -> pybytes -> pybytes).
Context (packb : pyval -> result py_exn pybytes).

(** [{k: v for k, v in kwargs.items() if k != "_bypass_cache"}] *)
Definition filtered_kwargs (kwargs : list (pykey * pyval)) : list (pykey * pyval) :=
  List.filter (fun kv => match kv.1 with
                         | KStr s => negb (bool_decide (s = u "_bypass_cache"))
                         | _ => true
                         end) kwargs.

Definition get_cache_key (module qualname : pystr) (args : list pyval) (kwargs : list (pykey * pyval))
    (namespace : option pystr) (integrity_checking : bool) : result py_exn pystr :=
  generate_key blake2b packb module qualname args (filtered_kwargs kwargs) namespace integrity_checking
    (u "std").

Record CacheInvalidator := mkInvalidator {
  i_backend : option backend;
  i_integrity_checking : bool
}.

Definition set_backend (i : CacheInvalidator) (b : backend) : CacheInvalidator :=
  mkInvalidator (Some b) (i_integrity_checking i).

Definition invalidate_cache (i : CacheInvalidator) (module qualname : pystr) (args : list pyval)
    (kwargs : list (pykey * pyval)) (namespace : option pystr) : eff W unit :=
  match i_backend i with
  | None => throw RuntimeError
  | Some b =>
      match generate_key blake2b packb module qualname args kwargs namespace (i_integrity_checking i)
              (u "std") with
      | Err e => throw (PyExn e)
      | Ok key => degrading tt (b_delete b key ;;~ ret tt)
      end
  end.

Definition invalidate_cache_async := invalidate_cache.

End Handler.
Arguments async_context W : clear implicits.
Arguments backend W Hd P : clear implicits.
Arguments serialization W V P A : clear implicits.
Arguments StandardCacheHandler W Hd P : clear implicits.
Arguments CacheOperationHandler W V Hd P A : clear implicits.
Arguments CacheInvalidator W Hd P : clear implicits.

(** [redact_cache_key] *)
Definition redact_cache_key (blake2b : Z -> pybytes -> pybytes) (key : pystr) : result py_exn pystr :=
  rbind (utf8_encode key) (fun bs => Ok (u "<redacted:" ++ hexdigest (blake2b 8 bs) ++ u ">")).
