(* ===== verification/RemoteErrors.v ===== *)
(** What the remote backends share: the exceptions of a client library and how
    they are classified ([src/src/cachekit/backends/redis/error_handler.py],
    [memcached/error_handler.py], [cachekitio/error_handler.py]), and the quoting
    of a text for a key or a URL ([urllib.parse.quote]). *)
From Stdlib Require Import ZArith Lia.
From stdpp Require Import base list numbers option strings pretty.
From S2P Require Import Prelude Bytes Errors Effects.

Local Open Scope Z_scope.

(** ** Computations over a client library *)

(** What a call raises: an exception of the library (its class is the library's
    business), one of Python's, or a [BackendError]. *)
Inductive failure (X : Type) :=
  | Foreign (x : X)
  | Python (e : py_exn)
  | Own (e : BackendError).
Arguments Foreign {X} x.
Arguments Python {X} e.
Arguments Own {X} e.

Section Client.
Context {X W : Type}.

Definition client (A : Type) : Type := W -> result (failure X) A * W.

Definition done_ {A} (a : A) : client A := fun w => (Ok a, w).
Definition fails {A} (x : failure X) : client A := fun w => (Err x, w).
Definition python {A} (r : result py_exn A) : client A := fun w =>
  (match r with Ok a => Ok a | Err e => Err (Python e) end, w).
Definition next {A B} (m : client A) (f : A -> client B) : client B := fun w =>
  match m w with
  | (Ok a, w') => f a w'
  | (Err x, w') => (Err x, w')
  end.

(** [try: m except Exception as exc: raise h(exc) from exc] *)
Definition raising {A} (h : failure X -> exn) (m : client A) : eff W A := fun w =>
  match m w with
  | (Ok a, w') => (Ok a, w')
  | (Err x, w') => (Err (h x), w')
  end.

(** Every failure is relabelled. *)
Lemma raising_raises {A} h (m : client A) : raises_only (fun x => exists f, x = h f) (raising h m).
Proof. intros w x w' E. unfold raising in E. destruct (m w) as [[a|f] w1]; [done|]. injection E as <- _. by exists f. Qed.
End Client.
Arguments client : clear implicits.

Declare Scope client_scope.
Delimit Scope client_scope with client.
Notation "x <- m ;; k" := (next m (fun x => k))
  (at level 100, m at next level, right associativity) : client_scope.

(** [str(z)] *)
Definition decimal (z : Z) : pystr := u (pretty z).

(** A decimal digit: of ASCII, or one of [unicode_digit], those of other scripts. *)
Definition digit_value (unicode_digit : Z -> option Z) (c : Z) : option Z :=
  if (48 <=? c) && (c <=? 57) then Some (c - 48) else unicode_digit c.

(** ** Classification *)

(** [BackendError(message, error_type=t, original_exception=exc, operation, key)] *)
Definition classified (m : pystr) (t : BackendErrorType) (original : pystr) (operation key : option pystr) : BackendError :=
  mkBackendError m t (Some original) operation key.

Section Redis.
(** The classes of [redis.exceptions] the handler names; [ClusterDownError] is
    there or not. *)
Inductive redis_class :=
  | AuthenticationError | NoPermissionError | RedisTimeoutError | RedisConnectionError
  | BusyLoadingError | ReadOnlyError | ResponseError | DataError | ClusterDownError.

(** [isinstance] and [str] of the exceptions of the library. *)
Context {X : Type} (isa : X -> redis_class -> bool) (has_cluster_down : bool) (text : failure X -> pystr).

(** [isinstance(exc, classes)] *)
Definition one_of {C} (isa : X -> C -> bool) (f : failure X) (classes : list C) : bool :=
  match f with Foreign x => existsb (isa x) classes | _ => false end.

Definition redis_type (f : failure X) : BackendErrorType :=
  if one_of isa f [AuthenticationError; NoPermissionError] then AUTHENTICATION
  else if one_of isa f [RedisTimeoutError] then TIMEOUT
  else if one_of isa f [RedisConnectionError; BusyLoadingError; ReadOnlyError] then TRANSIENT
  else if one_of isa f [ResponseError; DataError] then PERMANENT
  else if has_cluster_down && one_of isa f [ClusterDownError] then TRANSIENT
  else UNKNOWN.

(** The text in front of the exception's, by the branch taken. *)
Definition redis_message (f : failure X) : pystr :=
  match redis_type f with
  | AUTHENTICATION => u "Redis authentication error: "
  | TIMEOUT => u "Redis timeout: "
  | TRANSIENT =>
      if one_of isa f [RedisConnectionError; BusyLoadingError; ReadOnlyError]
      then u "Transient Redis error: " else u "Redis cluster down: "
  | PERMANENT => u "Permanent Redis error: "
  | UNKNOWN => u "Unknown Redis error: "
  end.

Definition classify_redis_error (f : failure X) (operation key : option pystr) : BackendError :=
  classified (redis_message f ++ text f) (redis_type f) (text f) operation key.

(** redis-py derives [ClusterDownError] from [ResponseError]: the branch for it is
    never reached, a cluster that is down is a permanent error. *)
Lemma cluster_down_permanent x operation key :
  isa x ClusterDownError = true -> isa x ResponseError = true ->
  Forall (fun c => isa x c = false) [AuthenticationError; NoPermissionError; RedisTimeoutError;
    RedisConnectionError; BusyLoadingError; ReadOnlyError] ->
  error_type (classify_redis_error (Foreign x) operation key) = PERMANENT.
Proof.
  intros _ R F. repeat (apply Forall_cons_1 in F as [? F]).
  unfold classify_redis_error, redis_type, one_of. cbn. by repeat match goal with H : isa x _ = _ |- _ => rewrite H; clear H end.
Qed.

(** An error of the backend itself, met inside the [try], loses its type. *)
Lemma own_error_unknown e operation key : error_type (classify_redis_error (Own e) operation key) = UNKNOWN.
Proof. unfold classify_redis_error, redis_type, one_of. cbn. by rewrite andb_false_r. Qed.
End Redis.

Section Memcached.
(** [socket.timeout] is [TimeoutError] here as there. *)
Inductive memcached_class :=
  | TimeoutError | MemcacheUnexpectedCloseError | MemcacheServerError | ConnectionError | OSError_
  | MemcacheIllegalInputError | MemcacheClientError.

Context {X : Type} (isa : X -> memcached_class -> bool) (text : failure X -> pystr).

Definition memcached_type (f : failure X) : BackendErrorType :=
  if one_of isa f [TimeoutError] then TIMEOUT
  else if one_of isa f [MemcacheUnexpectedCloseError; MemcacheServerError; ConnectionError; OSError_] then TRANSIENT
  else if one_of isa f [MemcacheIllegalInputError; MemcacheClientError] then PERMANENT
  else UNKNOWN.

(** [f"{operation}"] *)
Definition shown (s : option pystr) : pystr := match s with Some s => s | None => u "None" end.

Definition classify_memcached_error (f : failure X) (operation key : option pystr) : BackendError :=
  let kind := match memcached_type f with
    | TIMEOUT => u "timeout"
    | TRANSIENT => u "transient error"
    | PERMANENT => u "permanent error"
    | _ => u "unknown error"
    end in
  classified (u "Memcached " ++ kind ++ u " during " ++ shown operation ++ u ": " ++ text f)
    (memcached_type f) (text f) operation key.
End Memcached.

Section Http.
Inductive http_class := TimeoutException | ConnectError | NetworkError.

Context {X : Type} (isa : X -> http_class -> bool) (text : failure X -> pystr).

(** What a response's status says, if anything. *)
Definition status_type (status : Z) : option BackendErrorType :=
  if (status =? 401) || (status =? 403) then Some AUTHENTICATION
  else if status =? 429 then Some TRANSIENT
  else if (500 <=? status) && (status <? 600) then Some TRANSIENT
  else if status =? 413 then Some PERMANENT
  else if (400 <=? status) && (status <? 500) then Some PERMANENT
  else None.

Definition http_type (f : failure X) (status : option Z) : BackendErrorType :=
  match status ≫= status_type with
  | Some t => t
  | None =>
      if one_of isa f [TimeoutException] then TIMEOUT
      else if one_of isa f [ConnectError; NetworkError] then TRANSIENT
      else UNKNOWN
  end.

Definition status_message (status : Z) : pystr :=
  if (status =? 401) || (status =? 403) then u "Authentication failed: HTTP " ++ decimal status
  else if status =? 429 then u "Rate limit exceeded"
  else if (500 <=? status) && (status <? 600) then u "Server error: HTTP " ++ decimal status
  else if status =? 413 then
    u "Value too large for cachekit.io backend (HTTP 413): value exceeds the server's maximum cache value size"
  else u "Client error: HTTP " ++ decimal status.

Definition classify_http_error (f : failure X) (status : option Z) (operation key : option pystr) : BackendError :=
  let m := match status with
    | Some s =>
        match status_type s with Some _ => Some (status_message s) | None => None end
    | None => None
    end in
  let m := match m with
    | Some m => m
    | None =>
        (if one_of isa f [TimeoutException] then u "Request timeout: "
         else if one_of isa f [ConnectError; NetworkError] then u "Connection failed: "
         else u "Unknown HTTP error: ") ++ text f
    end in
  classified m (http_type f status) (text f) operation key.

(** What is retried: rate limits, server errors and lost connections, never
    another answer of the server. *)
Lemma http_transient f s operation key :
  error_type (classify_http_error f (Some s) operation key) = TRANSIENT <->
  s = 429 \/ 500 <= s < 600 \/ (~ 400 <= s < 600 /\ one_of isa f [TimeoutException] = false /\
                               one_of isa f [ConnectError; NetworkError] = true).
Proof.
  cbn [error_type classify_http_error classified]. unfold http_type. cbn [option_bind mbind].
  destruct (status_type s) as [t|] eqn:E; unfold status_type in E; repeat case_match; simplify_eq; zbool;
    repeat match goal with H : (_ || _)%bool = true |- _ => rewrite orb_true_iff, !Z.eqb_eq in H end;
    try (split; [done|intros [?|[?|(?&?&?)]]; lia || congruence]).
  all: try (split; [by auto|done]).
  split; [right; right; split_and!; [lia|done..]|done].
Qed.
End Http.

(** ** Quoting *)

(** The letters, the digits and [_.-~]. *)
Definition always_safe (b : Z) : bool :=
  ((65 <=? b) && (b <=? 90)) || ((97 <=? b) && (b <=? 122)) || ((48 <=? b) && (b <=? 57)) ||
  (b =? 95) || (b =? 46) || (b =? 45) || (b =? 126).

Definition upper_hex (d : Z) : Z := if d <? 10 then 48 + d else 55 + d.

Definition quote_byte (b : Z) : pystr := if always_safe b then [b] else [37; upper_hex (b / 16); upper_hex (b mod 16)].

(** [urllib.parse.quote(s, safe="")] *)
Definition quote (s : pystr) : result py_exn pystr :=
  rbind (utf8_encode s) (fun bs => Ok (flat_map quote_byte bs)).

(** Percent signs, digits and what is always safe. *)
Lemma quote_byte_chars b : is_byte b -> Forall (fun c => always_safe c = true \/ c = 37) (quote_byte b).
Proof.
  unfold is_byte, quote_byte. intros Hb. destruct (always_safe b) eqn:E; [constructor; [by left|constructor]|].
  assert (H : forall d, 0 <= d < 16 -> always_safe (upper_hex d) = true).
  { intros d Hd. unfold upper_hex, always_safe.
    destruct (d <? 10) eqn:E1; zbool; rewrite !orb_true_iff, !andb_true_iff, !Z.leb_le, !Z.eqb_eq; lia. }
  pose proof (Z.mod_pos_bound b 16). pose proof (Z.div_pos b 16). pose proof (Z.div_lt_upper_bound b 16 16).
  constructor; [by right|]. constructor; [left; apply H; lia|]. constructor; [left; apply H; lia|constructor].
Qed.

Lemma quote_chars s q : Forall is_code_point s -> quote s = Ok q -> Forall (fun c => always_safe c = true \/ c = 37) q.
Proof.
  intros Hs E. unfold quote in E. destruct (utf8_encode s) as [bs|] eqn:Eb; [|done]. injection E as <-.
  pose proof (utf8_bytes s bs Hs Eb) as Hb. clear - Hb. induction Hb as [|b bs Hb _ IH]; [constructor|].
  cbn. apply list.Forall_app. split; [by apply quote_byte_chars|done].
Qed.

(** In particular none of the separators of keys and URLs. *)
Lemma quote_excludes sep s q : always_safe sep = false -> sep <> 37 -> Forall is_code_point s -> quote s = Ok q ->
  Forall (fun c => c <> sep) q.
Proof.
  intros Hsep H37 Hs E. eapply list.Forall_impl; [exact (quote_chars s q Hs E)|].
  intros c [Hc|Hc] ->; congruence.
Qed.

Lemma upper_hex_inj d d' : 0 <= d < 16 -> 0 <= d' < 16 -> upper_hex d = upper_hex d' -> d = d'.
Proof. unfold upper_hex. destruct (d <? 10) eqn:E, (d' <? 10) eqn:E'; zbool; lia. Qed.

Lemma quote_bytes_inj bs bs' : Forall is_byte bs -> Forall is_byte bs' ->
  flat_map quote_byte bs = flat_map quote_byte bs' -> bs = bs'.
Proof.
  intros Hb. revert bs'. induction Hb as [|b bs Hb _ IH]; intros bs' Hb' E.
  - destruct Hb' as [|b' bs' _ _]; [done|]. cbn in E. unfold quote_byte in E. by destruct (always_safe b').
  - destruct Hb' as [|b' bs' Hb' Hbs']; cbn in E; unfold quote_byte in E at 1.
    { by destruct (always_safe b). }
    unfold quote_byte in E at 2. unfold is_byte in *. destruct (always_safe b) eqn:S, (always_safe b') eqn:S'; cbn in E.
    + injection E as -> E. f_equal. by apply IH.
    + injection E as -> _. by vm_compute in S.
    + injection E as <- _. by vm_compute in S'.
    + injection E as E1 E2 E.
      pose proof (Z.mod_pos_bound b 16). pose proof (Z.div_pos b 16). pose proof (Z.div_lt_upper_bound b 16 16).
      pose proof (Z.mod_pos_bound b' 16). pose proof (Z.div_pos b' 16). pose proof (Z.div_lt_upper_bound b' 16 16).
      pose proof (Z.div_mod b 16). pose proof (Z.div_mod b' 16).
      pose proof (upper_hex_inj (b / 16) (b' / 16)). pose proof (upper_hex_inj (b mod 16) (b' mod 16)).
      f_equal; [lia|by apply IH].
Qed.

Lemma quote_inj s s' q : Forall is_code_point s -> Forall is_code_point s' -> quote s = Ok q -> quote s' = Ok q -> s = s'.
Proof.
  intros Hs Hs' E E'. unfold quote in *.
  destruct (utf8_encode s) as [bs|] eqn:Eb; [|done]. destruct (utf8_encode s') as [bs'|] eqn:Eb'; [|done].
  injection E as E. injection E' as E'. assert (bs = bs') as ->.
  { apply quote_bytes_inj; [by apply (utf8_bytes s)|by apply (utf8_bytes s')|congruence]. }
  by apply (utf8_inj s s' bs').
Qed.
