(* ===== verification/Reporting.v ===== *)
(** What a decorated function reports ([FeatureOrchestrator] of
    [src/src/cachekit/decorators/orchestrator.py], [SimpleLogger] of
    [backends/provider.py]): the metrics and the log records, in the order they are made,
    beside the breaker of [Orchestrator].

    One context: a thread, or a task, with its context variables.  The metrics collector
    ([AsyncMetrics]) and [logging] take what they are given. *)
From Stdlib Require Import ZArith Lia SpecFloat.
From stdpp Require Import base list numbers option strings.
From S2P Require Import Prelude PyFloat PyDict Errors CircuitBreaker Effects RemoteErrors Orchestrator.

Local Open Scope Z_scope.
Local Open Scope py_scope.
Local Open Scope eff_scope.

Section Reporting.
(** Other values in a record. *)
Context {V : Type}.
Inductive field := FText (s : pystr) | FFloat (x : float) | FNone | FOther (v : V).
Local Abbreviation dictionary := (list (pystr * field)).

(** A metric, or a record with its text and, where given, its structured fields. *)
Inductive emission :=
  | Metric (operation namespace : pystr) (success : bool) (duration_ms : float)
  | Record (level text : pystr) (structured : option dictionary).

Record reports := mkReports {
  (* [_operation_context], of the context, not of the orchestrator *)
  operation_context : option (pystr * float);
  (* the identifier the tracker has for the thread *)
  correlation_id : option pystr;
  emitted : list emission;
  breaker : option CircuitBreaker
}.

Definition emit (e : emission) : eff reports unit :=
  modify (fun s => mkReports (operation_context s) (correlation_id s) (emitted s ++ [e]) (breaker s)).
Definition on_breaker (f : option CircuitBreaker -> option CircuitBreaker) : eff reports unit :=
  modify (fun s => mkReports (operation_context s) (correlation_id s) (emitted s) (f (breaker s))).
Definition with_correlation (c : option pystr) : eff reports unit :=
  modify (fun s => mkReports (operation_context s) c (emitted s) (breaker s)).

(** The features of an orchestrator: whether it has a collector, a tracker. *)
Record features := mkFeatures { namespace : pystr; collect_stats : bool; structured_logging : bool }.

Definition measured (f : features) (e : emission) : eff reports unit := if collect_stats f then emit e else ret tt.

(** ** Metrics *)

Definition set_operation_context (operation : pystr) (duration_ms : float) : eff reports unit :=
  modify (fun s => mkReports (Some (operation, duration_ms)) (correlation_id s) (emitted s) (breaker s)).

(** [_operation_context.get() or {}] and the defaults *)
Definition current_operation (s : reports) : pystr * float := default (u "cache_operation", fofZ 0) (operation_context s).

Definition record_success (f : features) : eff reports unit :=
  c <~ gets current_operation ;;
  on_breaker Orchestrator.record_success ;;~ measured f (Metric c.1 (namespace f) true c.2).

Definition record_failure (f : features) (now : float) (error : exn) : eff reports unit :=
  c <~ gets current_operation ;;
  on_breaker (Orchestrator.record_failure now error) ;;~ measured f (Metric c.1 (namespace f) false c.2).

Definition record_exception (f : features) : eff reports unit := measured f (Metric (u "exception") (namespace f) false (fofZ 0)).

(** [record_cache_operation], as far as its operation goes. *)
Definition record_cache_operation (f : features) (operation namespace : pystr) (success : bool) (duration_ms : float) : eff reports unit :=
  measured f (Metric operation namespace success duration_ms).

(** ** Records *)

Definition log_structured (f : features) (level message : pystr) (kwargs : dictionary) : eff reports unit :=
  if existsb (fun kv => bool_decide (kv.1 ∈ [u "self"; u "level"; u "message"])) kwargs then throw (PyExn TypeError)
  else if structured_logging f
  then emit (Record level (u "[" ++ namespace f ++ u "] " ++ message)
               (Some (foldl (fun acc kv => od_set kv.1 kv.2 acc) [(u "namespace", FText (namespace f)); (u "message", FText message)] kwargs)))
  else emit (Record level message None).

Definition log_warning (f : features) (message : pystr) (kwargs : dictionary) : eff reports unit := log_structured f (u "warning") message kwargs.

(** A text in an f-string, where the callers give texts. *)
Definition shown (v : option field) : pystr := match v with Some (FText s) => s | _ => u "unknown" end.

Definition log_cache_operation (f : features) (kwargs : dictionary) : eff reports unit :=
  match kwargs with
  | [] => ret tt
  | _ =>
      if structured_logging f then
        if od_mem (u "cache_key") kwargs then throw (PyExn TypeError)
        else log_structured f (u "info") (u "Cache operation: " ++ shown (od_get (u "operation") kwargs))
               ((u "cache_key", default (FText (u "unknown")) (od_get (u "key") kwargs)) :: kwargs)
      else ret tt
  end.

(** A call with keywords of its own and [extra], none of them twice. *)
Definition with_own (own extra : dictionary) (m : dictionary -> eff reports unit) : eff reports unit :=
  if existsb (fun kv => od_mem kv.1 own) extra then throw (PyExn TypeError) else m (own ++ extra).

(** [handle_cache_error]; [text] and [type_name] are those of the error. *)
Definition handle_cache_error (f : features) (now : float) (error : exn) (text type_name operation cache_key : pystr)
    (own_namespace : option pystr) (span : bool) (duration_ms : float) (correlation : option pystr) (extra : dictionary) : eff reports unit :=
  let ns := match own_namespace with Some (c :: r) => c :: r | _ => namespace f end in
  (if span then record_exception f else ret tt) ;;~
  set_operation_context operation duration_ms ;;~
  record_failure f now error ;;~
  with_own
     [(u "operation", FText (operation ++ u "_failed")); (u "key", FText cache_key); (u "namespace", FText ns); (u "error", FText text);
      (u "error_type", FText type_name); (u "duration_ms", FFloat duration_ms);
      (u "correlation_id", match correlation with Some c => FText c | None => FNone end)] extra (log_cache_operation f) ;;~
  emit (Record (u "warning") (u "Cache operation '" ++ operation ++ u "' failed for key '" ++ cache_key ++ u "': " ++ text ++ u " (" ++
                              type_name ++ u ")") None).

(** ** Requests *)

(** [fresh] is [generate_correlation_id()]; there is a tracker where structured logging is on. *)
Definition start_request (f : features) (fresh : pystr) : eff reports (option pystr) :=
  if structured_logging f then with_correlation (Some fresh) ;;~ ret (Some fresh) else ret None.
Definition end_request (f : features) : eff reports unit := if structured_logging f then with_correlation None else ret tt.

(** ** The plain logger *)

Definition cache_hit (key source : pystr) : eff reports unit := emit (Record (u "debug") (source ++ u " cache hit for key: " ++ key) None).
Definition cache_miss (key : pystr) : eff reports unit := emit (Record (u "debug") (u "Cache miss for key: " ++ key) None).
Definition cache_stored (key : pystr) (ttl : option Z) : eff reports unit :=
  emit (Record (u "debug") (u "Cached result for key: " ++ key ++
    match ttl with Some t => if t =? 0 then [] else u " with TTL " ++ decimal t | None => [] end) None).
Definition cache_invalidated (key source : pystr) : eff reports unit :=
  emit (Record (u "debug") (u "Invalidated " ++ source ++ u " cache for key: " ++ key) None).
End Reporting.
Arguments field : clear implicits.
Arguments emission : clear implicits.
Arguments reports : clear implicits.

(** ** What the reports say *)

Section Props.
Context {V : Type}.
Local Abbreviation state := (reports V).

(** The outcomes of functions decorated with whatever features, in one context. *)
Inductive outcome := Succeeded (f : features) | Failed (f : features) (now : float) (error : exn).

Definition report (o : outcome) : eff state unit :=
  match o with Succeeded f => record_success f | Failed f now x => record_failure f now x end.
Definition reported (l : list outcome) (s : state) : state := foldl (fun s o => (report o s).2) s l.

(** The metric an outcome makes for an operation. *)
Definition metric_of (operation : pystr) (duration_ms : float) (o : outcome) : list (emission V) :=
  match o with
  | Succeeded f => if collect_stats f then [Metric operation (namespace f) true duration_ms] else []
  | Failed f _ _ => if collect_stats f then [Metric operation (namespace f) false duration_ms] else []
  end.

Lemma report_spec o (s : state) : let c := current_operation s in
  report o s = (Ok tt, mkReports (operation_context s) (correlation_id s) (emitted s ++ metric_of c.1 c.2 o)
    (match o with Succeeded _ => Orchestrator.record_success (breaker s) | Failed _ now x => Orchestrator.record_failure now x (breaker s) end)).
Proof.
  cbn zeta. destruct o as [f|f now x]; cbn; unfold record_success, record_failure, andthen, gets, on_breaker, modify, measured, emit; cbn;
    destruct (collect_stats f); unfold ret, modify; cbn; by rewrite ?app_nil_r.
Qed.

(** The operation of a context outlives what it was set for: every outcome that is
    recorded before the next one is set, of any function and whatever its namespace,
    and an exception of a decorated function itself among them, is counted as the
    operation set last, with that duration. *)
Theorem operation_outlives_its_call operation duration_ms l (s : state) :
  let t := (set_operation_context operation duration_ms s).2 in
  emitted (reported l t) = emitted s ++ l ≫= metric_of operation duration_ms /\
  current_operation (reported l t) = (operation, duration_ms).
Proof.
  cbn zeta. set (t := (set_operation_context operation duration_ms s).2).
  enough (I : forall t : state, operation_context t = Some (operation, duration_ms) ->
    emitted (reported l t) = emitted t ++ l ≫= metric_of operation duration_ms /\ operation_context (reported l t) = Some (operation, duration_ms)).
  { destruct (I t eq_refl) as [E C]. split; [exact E|]. unfold current_operation. by rewrite C. }
  clear. unfold reported. induction l as [|o l IH]; intros t C; [cbn; by rewrite app_nil_r|]. cbn [foldl].
  rewrite (report_spec o t). cbn zeta. assert (K : current_operation t = (operation, duration_ms)) by (unfold current_operation; by rewrite C).
  rewrite K. cbn [snd fst]. destruct (IH (mkReports (operation_context t) (correlation_id t)
    (emitted t ++ metric_of operation duration_ms o) (match o with Succeeded _ => Orchestrator.record_success (breaker t)
      | Failed _ now x => Orchestrator.record_failure now x (breaker t) end)) C) as [E2 C2].
  split; [|exact C2]. rewrite E2. cbn [emitted]. rewrite <- app_assoc. reflexivity.
Qed.

Definition is_metric (e : emission V) : bool := match e with Metric _ _ _ _ => true | _ => false end.

Definition adding (r : list (emission V)) (s : state) : state :=
  mkReports (operation_context s) (correlation_id s) (emitted s ++ r) (breaker s).

Lemma measured_spec f e (s : state) : measured f e s = (Ok tt, adding (if collect_stats f then [e] else []) s).
Proof. unfold measured, adding. destruct (collect_stats f), s; [done|]. unfold ret. cbn. by rewrite app_nil_r. Qed.

Lemma log_cache_operation_spec f kwargs (s : state) : od_mem (u "cache_key") kwargs = false ->
  existsb (fun kv : pystr * field V => bool_decide (kv.1 ∈ [u "self"; u "level"; u "message"])) kwargs = false ->
  exists r, log_cache_operation f kwargs s = (Ok tt, adding r s) /\ filter (fun e => is_metric e = true) r = [].
Proof.
  intros K E. unfold log_cache_operation. destruct kwargs as [|kv kwargs]; [exists []; split; [|done]; destruct s; unfold adding; cbn; by rewrite app_nil_r|].
  destruct (structured_logging f) eqn:L; [|exists []; split; [|done]; destruct s; unfold adding; cbn; by rewrite app_nil_r].
  rewrite K. unfold log_structured. rewrite L. cbn [existsb fst] in *. rewrite E.
  rewrite (bool_decide_eq_false_2 (u "cache_key" ∈ _)) by (by apply (bool_decide_unpack _)). cbn [orb]. by eexists [_].
Qed.

(** A handled error tells the breaker exactly what [Orchestrator] says, is counted once
    as a failure of its operation and, in a span, once more as an exception, and is
    logged as a warning with the key as it is, redacted nowhere. *)
Theorem handled_error_shows_its_key (f : features) now error text type_name operation key ns span d c (s : state) :
  exists records, handle_cache_error f now error text type_name operation key ns span d c [] s =
    (Ok tt, mkReports (Some (operation, d)) (correlation_id s) (emitted s ++ records) (Orchestrator.handle_cache_error now error (breaker s))) /\
  filter (fun e => is_metric e = true) records =
    (if collect_stats f then (if span then [Metric (u "exception") (namespace f) false (fofZ 0)] else []) ++
                             [Metric operation (namespace f) false d] else []) /\
  exists before after, last records = Some (Record (u "warning") (before ++ key ++ after) None).
Proof.
  set (r0 := if span then if collect_stats f then [Metric (V := V) (u "exception") (namespace f) false (fofZ 0)] else [] else []).
  assert (S0 : (if span then record_exception f else ret tt) s = (Ok tt, adding r0 s)).
  { unfold r0. destruct span; [apply measured_spec|]. destruct s. unfold adding. cbn. by rewrite app_nil_r. }
  set (s1 := (set_operation_context operation d (adding r0 s)).2).
  pose proof (report_spec (Failed f now error) s1) as S1. cbn zeta in S1. cbn [report] in S1.
  assert (C1 : current_operation s1 = (operation, d)) by done. rewrite C1 in S1. cbn [fst snd metric_of] in S1.
  assert (S1' : set_operation_context operation d (adding r0 s) = (Ok tt, s1)) by done.
  unfold handle_cache_error. do 3 (unfold andthen at 1; rewrite ?S0, ?S1', ?S1).
  unfold with_own. cbn [existsb]. rewrite app_nil_r. set (s2 := mkReports _ _ _ _). set (kwargs := [_; _; _; _; _; _; _]).
  destruct (log_cache_operation_spec f kwargs s2) as (r1 & S2 & M); [vm_compute; reflexivity|vm_compute; reflexivity|].
  unfold andthen at 1. rewrite S2. eexists (r0 ++ (if collect_stats f then [Metric operation (namespace f) false d] else []) ++ r1 ++ [_]).
  split; [unfold emit, modify, adding, s2, s1; cbn; rewrite <- !app_assoc; reflexivity|]. split.
  - rewrite !filter_app, M. unfold r0. by destruct span, (collect_stats f).
  - eexists (u "Cache operation '" ++ operation ++ u "' failed for key '"), (u "': " ++ text ++ u " (" ++ type_name ++ u ")").
    rewrite !app_assoc, last_snoc, <- !app_assoc. reflexivity.
Qed.
End Props.

(** Two functions of one thread. *)
Module Example.
Definition users : features := mkFeatures (u "users") true false.
Definition orders : features := mkFeatures (u "orders") true false.
Definition fresh : reports unit := mkReports None None [] None.

(** A value of [users] was stored in 7 ms; a function of [orders] raises: its exception is
    counted as a failed store of 7 ms. *)
Example exception_counted_as_a_store :
  emitted (reported [Succeeded users; Failed orders (fofZ 1) OtherError] (set_operation_context (u "set") (fofZ 7) fresh).2) =
  [Metric (u "set") (u "users") true (fofZ 7); Metric (u "set") (u "orders") false (fofZ 7)].
Proof. reflexivity. Qed.
End Example.
