(* ===== verification/SessionHeaders.v ===== *)
(** The headers the cachekit.io backend adds to every request: the session's
    ([src/src/cachekit/backends/cachekitio/session.py]) and the statistics of the
    calling function ([_inject_metrics_headers] of [cachekitio/backend.py]).

    [session] is what [get_session_id] and [get_session_start_ms] answer, or that they
    raise ([Session] has their threads); the statistics are those of [FunctionStats]. *)
From Stdlib Require Import ZArith Lia SpecFloat.
From stdpp Require Import base list numbers option strings.
From S2P Require Import Prelude PyFloat PyDict FunctionStats RemoteErrors.

Local Open Scope Z_scope.

Definition headers : Type := list (pystr * pystr).

Definition ID : pystr := u "X-CacheKit-Session-ID".
Definition START : pystr := u "X-CacheKit-Session-Start".

(** ** The session *)

(** [_thread_local.headers], and the headers returned. *)
Definition get_session_headers (id : pystr) (start_ms : Z) (cached : option headers) : headers * headers :=
  let fresh := [(ID, id); (START, decimal start_ms)] in
  let kept := match cached with
              | None => fresh
              | Some h => if bool_decide (od_get ID h = Some id) then h else fresh
              end in
  (kept, kept).

(** ** The statistics *)

(** [f"{x:.3f}"] of a number that is not negative: the exact value times a thousand,
    rounded to even, and its digits. *)
Definition thousandths (x : float) : Z :=
  match x with
  | S754_finite _ m e =>
      if 0 <=? e then Z.pos m * 2 ^ e * 1000
      else let d := 2 ^ (- e) in
           let q := Z.pos m * 1000 / d in let r := Z.pos m * 1000 mod d in
           if 2 * r <? d then q else if d <? 2 * r then q + 1 else if Z.even q then q else q + 1
  | _ => 0
  end.

Definition fixed3 (x : float) : pystr :=
  let n := thousandths x in
  decimal (n / 1000) ++ u "." ++ decimal (n / 100 mod 10) ++ decimal (n / 10 mod 10) ++ decimal (n mod 10).

(** The ratio, or 0 of no hits. *)
Definition l1_hit_rate (l1_hits l2_hits : Z) : result py_exn float :=
  if 0 <? l1_hits + l2_hits then fdivZ l1_hits (l1_hits + l2_hits) else Ok (fofZ 0).

Definition l1_status (s : _FunctionStats) : pystr := if l1_enabled s then u "miss" else u "disabled".

(** The session's headers, none where they cannot be made; an identifier of the
    function's own goes before that of the process. *)
Definition session_headers (own : option pystr) (session : result py_exn (pystr * Z)) (cached : option headers) : headers :=
  match session with
  | Err _ => []
  | Ok (id, start_ms) =>
      match own with
      | Some (c :: r) => [(ID, c :: r); (START, decimal start_ms)]
      | _ => (get_session_headers id start_ms cached).1
      end
  end.

Definition metrics_headers (i : CacheInfo) (rate status : pystr) : headers :=
  [(u "X-CacheKit-L1-Hits", decimal (l1_hits i)); (u "X-CacheKit-L2-Hits", decimal (l2_hits i));
   (u "X-CacheKit-Misses", decimal (misses i)); (u "X-CacheKit-L1-Hit-Rate", rate); (u "X-CacheKit-L1-Status", status)].

(** [process_id] is what [get_info] gets for the session; the tracker may get its
    identifier by it.  [session] is what is asked for afterwards. *)
Definition _inject_metrics_headers (stats : option _FunctionStats) (process_id : pystr) (session : result py_exn (pystr * Z))
    (cached : option headers) : result py_exn headers * option _FunctionStats :=
  match stats with
  | None => (Ok [(u "X-CacheKit-L1-Status", u "disabled")], None)
  | Some s =>
      let (i, s') := get_info process_id s in
      (match l1_hit_rate (l1_hits i) (l2_hits i) with
       | Err x => Err x
       | Ok rate =>
           Ok (foldl (fun acc kv => od_set kv.1 kv.2 acc) (session_headers (session_id i) session cached)
                 (metrics_headers i (fixed3 rate) (l1_status s')))
       end, Some s')
  end.

(** ** What a request carries *)

(** The headers of the session are those of the current one, whatever a thread kept of
    an earlier one, of the parent process before a fork for instance. *)
Lemma session_is_current id start_ms cached : (forall h, cached = Some h -> od_get ID h = Some id -> h = [(ID, id); (START, decimal start_ms)]) ->
  get_session_headers id start_ms cached = ([(ID, id); (START, decimal start_ms)], [(ID, id); (START, decimal start_ms)]).
Proof.
  intros H. unfold get_session_headers. destruct cached as [h|]; [|done]. case_bool_decide as E; [|done]. by rewrite (H h eq_refl E).
Qed.

Lemma od_sets_get (l : headers) k v : forall d, od_wf l -> od_get k l = Some v -> od_get k (foldl (fun acc kv => od_set kv.1 kv.2 acc) d l) = Some v.
Proof.
  assert (N : forall (l : headers) d, od_get k l = None -> od_get k (foldl (fun acc kv => od_set kv.1 kv.2 acc) d l) = od_get k d).
  { clear. intros l. induction l as [|[j w] l IH]; intros d E; [done|]. cbn in *. destruct (decide (k = j)); [done|].
    rewrite IH by done. by apply od_get_set_ne. }
  unfold od_wf, od_keys. induction l as [|[j w] l IH]; intros d Wf E; [done|]. cbn in *. apply NoDup_cons in Wf as [Nj Wf].
  destruct (decide (k = j)) as [->|]; [|by apply IH]. injection E as ->. rewrite N; [apply od_get_set_eq|]. by apply od_get_None.
Qed.

(** Every request carries the counts of the calling function as they are, whatever
    becomes of the session's headers, under an identifier of the function's own that a
    request creates and later ones repeat; and its status: the function's L1 is off, or
    the request is a miss of it, never a hit. *)
Theorem statistics_are_sent s process_id session cached rate : l1_hit_rate (_l1_hits s) (_l2_hits s) = Ok rate ->
  exists h s', _inject_metrics_headers (Some s) process_id session cached = (Ok h, Some s') /\
  od_get (u "X-CacheKit-L1-Hits") h = Some (decimal (_l1_hits s)) /\
  od_get (u "X-CacheKit-L2-Hits") h = Some (decimal (_l2_hits s)) /\
  od_get (u "X-CacheKit-Misses") h = Some (decimal (_misses s)) /\
  od_get (u "X-CacheKit-L1-Status") h = Some (if l1_enabled s then u "miss" else u "disabled") /\
  (forall id start_ms i, session = Ok (id, start_ms) -> own_session_id s' = Some i -> i <> [] ->
     od_get ID h = Some i /\ od_get START h = Some (decimal start_ms)) /\
  (forall process_id' session' cached', exists h', _inject_metrics_headers (Some s') process_id' session' cached' = (Ok h', Some s') /\
     (session = session' -> cached = cached' -> h' = h)).
Proof.
  intros R. destruct (get_info process_id s) as [i s'] eqn:G. unfold get_info, _ensure_session_id in G.
  assert (I : own_session_id s' = session_id i /\ l1_hits i = _l1_hits s /\ l2_hits i = _l2_hits s /\ misses i = _misses s /\
    l1_enabled s' = l1_enabled s /\ forall p, get_info p s' = (i, s')).
  { destruct (own_session_id s) as [o|] eqn:O; injection G as <- <-; cbn; rewrite ?O; split_and!; try done;
      intros p; unfold get_info, _ensure_session_id; cbn; by rewrite ?O. }
  destruct I as (O & E1 & E2 & E3 & E4 & Again). fold (get_info process_id s) in G.
  set (h := foldl (fun acc kv => od_set kv.1 kv.2 acc) (session_headers (session_id i) session cached) (metrics_headers i (fixed3 rate) (l1_status s'))).
  exists h, s'. assert (Wf : od_wf (metrics_headers i (fixed3 rate) (l1_status s'))) by (unfold od_wf, od_keys, metrics_headers; cbn [map fst]; apply (bool_decide_unpack _); vm_compute; exact I).
  assert (Get : forall k v, od_get k (metrics_headers i (fixed3 rate) (l1_status s')) = Some v -> od_get k h = Some v)
    by (intros k v; by apply od_sets_get).
  unfold _inject_metrics_headers. fold (get_info process_id s). unfold get_info, _ensure_session_id in *.
  split; [rewrite G, E1, E2, R; reflexivity|]. split_and!; try (apply Get; cbn; by rewrite ?E1, ?E2, ?E3).
  - apply Get. cbn. unfold l1_status. by rewrite E4.
  - intros id start_ms o -> Oi No. rewrite O in Oi. unfold h, session_headers. rewrite Oi. destruct o as [|c r]; [done|]. by cbn.
  - intros p' ss' c'. eexists. rewrite Again, E1, E2, R. split; [reflexivity|]. by intros <- <-.
Qed.

Module Example.
(** Two L1 hits and one of the backend, and a tracker without hits. *)
Definition used : _FunctionStats := record_l2_hit (fofZ 3) (fofZ 2) (record_l1_hit (fofZ 2) (record_l1_hit (fofZ 1) (init (u "app.load") true))).

Example sent : (_inject_metrics_headers (Some used) (u "5f2a") (Ok (u "5f2a", 1700000000123)) None).1 =
  Ok [(ID, u "5f2a:app.load"); (START, u "1700000000123"); (u "X-CacheKit-L1-Hits", u "2"); (u "X-CacheKit-L2-Hits", u "1");
      (u "X-CacheKit-Misses", u "0"); (u "X-CacheKit-L1-Hit-Rate", u "0.667"); (u "X-CacheKit-L1-Status", u "miss")].
Proof. vm_compute. reflexivity. Qed.

(** The name of the function is in a header, in whatever script it is written. *)
Example name_is_sent : (_inject_metrics_headers (Some (init [0xFC; 98; 101; 114] true)) (u "5f2a") (Ok (u "5f2a", 7)) None).1 =
  Ok [(ID, u "5f2a:" ++ [0xFC; 98; 101; 114]); (START, u "7"); (u "X-CacheKit-L1-Hits", u "0"); (u "X-CacheKit-L2-Hits", u "0");
      (u "X-CacheKit-Misses", u "0"); (u "X-CacheKit-L1-Hit-Rate", u "0.000"); (u "X-CacheKit-L1-Status", u "miss")].
Proof. vm_compute. reflexivity. Qed.

Lemma statistics_are_sent_witness : exists h s', _inject_metrics_headers (Some used) (u "5f2a") (Err TypeError) None = (Ok h, Some s') /\
  od_get (u "X-CacheKit-L1-Hits") h = Some (u "2").
Proof.
  destruct (l1_hit_rate 2 1) as [rate|] eqn:R; [|exfalso; vm_compute in R; discriminate].
  destruct (statistics_are_sent used (u "5f2a") (Err TypeError) None rate R) as (h & s' & E & H & _). exists h, s'. by split.
Defined.
End Example.
