(* ===== verification/RedisBackends.v ===== *)
(** The Redis backends ([src/src/cachekit/backends/redis/backend.py],
    [redis/provider.py]) and the provider of the default backend
    ([backends/provider.py]).

    The calls of redis-py are a record of operations on the state [W] of the
    server and the connections; [X] its exceptions. *)
From Stdlib Require Import ZArith Lia SpecFloat.
From stdpp Require Import base list numbers option strings.
From S2P Require Import Prelude PyFloat Bytes Errors Effects RemoteErrors Handler.

Local Open Scope Z_scope.
Local Open Scope py_scope.

(** What a command answers; of an object of another type, its name and its truth. *)
Inductive reply :=
  | RNone
  | RBytes (b : pybytes)
  | RStr (s : pystr)
  | RInt (z : Z)
  | ROther (name : pystr) (truth : bool).

Definition reply_bool (r : reply) : bool :=
  match r with
  | RNone | RBytes [] | RStr [] => false
  | RBytes _ | RStr _ => true
  | RInt z => negb (z =? 0)
  | ROther _ b => b
  end.

(** [type(r).__name__] *)
Definition type_name (r : reply) : pystr :=
  match r with
  | RNone => u "NoneType"
  | RBytes _ => u "bytes"
  | RStr _ => u "str"
  | RInt _ => u "int"
  | ROther name _ => name
  end.

(** [redis.Redis], and [redis.lock.Lock] with its [acquire(blocking)] and [release]. *)
Record redis_client (X W : Type) := mkRedis {
  c_get : pystr -> client X W reply;
  c_set : pystr -> pybytes -> client X W unit;
  c_setex : pystr -> Z -> pybytes -> client X W unit;
  c_delete : pystr -> client X W reply;
  c_exists : pystr -> client X W reply;
  c_ttl : pystr -> client X W reply;
  c_expire : pystr -> Z -> client X W reply;
  c_acquire : pystr -> float -> float -> bool -> client X W bool;
  c_release : pystr -> client X W unit
}.
Arguments mkRedis {X W}.
Arguments c_get {X W}.
Arguments c_set {X W}.
Arguments c_setex {X W}.
Arguments c_delete {X W}.
Arguments c_exists {X W}.
Arguments c_ttl {X W}.
Arguments c_expire {X W}.
Arguments c_acquire {X W}.
Arguments c_release {X W}.

Local Open Scope client_scope.

(** ** [RedisBackend] *)

Module RedisBackend.
Section RedisBackend.
Context {X W : Type}.
(** [str(exc)] *)
Context (text : failure X -> pystr).

(** The [redis_url] argument: a text, a configuration, which holds a URL, or [None]. *)
Inductive url_argument := NoUrl | UrlText (url : pystr) | UrlConfig (url : pystr).

(** A text that is set and not empty. *)
Definition nonempty (s : option pystr) : option pystr := match s with Some (c :: r) => Some (c :: r) | _ => None end.

(** The URL and the provider of clients.  [env_url] is that of
    [RedisBackendConfig.from_env()], [registered] the provider of the container,
    [pooled] the constructor of [PooledClientProvider]. *)
Definition init {P} (redis_url : url_argument) (client_provider : option P) (env_url : result exn pystr)
    (registered : option P) (pooled : pystr -> result exn P) : result exn (pystr * P) :=
  config_url <-! (match redis_url with UrlConfig url => Ok url | _ => env_url end) ;
  let explicit_url := match redis_url with NoUrl => None | UrlText url | UrlConfig url => nonempty (Some url) end in
  match (match explicit_url with Some url => Some url | None => nonempty (Some config_url) end) with
  | None => Err (BackendExn (mkBackendError
      (u "REDIS_URL configuration not set. Set CACHEKIT_REDIS_URL environment variable or pass redis_url parameter.")
      UNKNOWN None (Some (u "init")) None))
  | Some url =>
      provider <-! (match client_provider, explicit_url, registered with
                    | Some p, _, _ => Ok p
                    | None, Some explicit, _ => pooled explicit
                    | None, None, Some p => Ok p
                    | None, None, None => pooled url
                    end) ;
      Ok (url, provider)
  end.

(** [self._client_provider.get_sync_client()] *)
Context (get_sync_client : client X W (redis_client X W)).

(** [BackendError(message=..., operation=..., key=...)], without a type or the
    exception it comes from. *)
Definition failed (command operation : pystr) (key : pystr) (f : failure X) : exn :=
  BackendExn (mkBackendError (u "Redis " ++ command ++ u " failed: " ++ text f) UNKNOWN None
    (Some operation) (Some key)).

(** The client, or the [BackendError] [_get_client] raises. *)
Definition _get_client : client X W (redis_client X W) := fun w =>
  match get_sync_client w with
  | (Ok c, w') => (Ok c, w')
  | (Err f, w') => (Err (Own (mkBackendError (u "Failed to create Redis client: " ++ text f) UNKNOWN None
                               (Some (u "get_client")) None)), w')
  end.

Definition get (key : pystr) : eff W (option pybytes) :=
  raising (failed (u "GET") (u "get") key)
    (c <- _get_client ;;
     value <- c_get c key ;;
     done_ (match value with RBytes b => Some b | _ => None end)).

Definition set (key : pystr) (value : pybytes) (ttl : option Z) : eff W unit :=
  raising (failed (u "SET") (u "set") key)
    (c <- _get_client ;;
     match ttl with
     | Some t => if 0 <? t then c_setex c key t value else c_set c key value
     | None => c_set c key value
     end).

(** An answer that is not a count: raised inside the [try], it is wrapped again. *)
Definition unexpected (command operation key : pystr) (r : reply) : failure X :=
  Own (mkBackendError (u "Redis " ++ command ++ u " returned unexpected type: " ++ type_name r) UNKNOWN None
    (Some operation) (Some key)).

Definition counted (command operation key : pystr) (r : reply) : client X W bool :=
  match r with RInt n => done_ (0 <? n) | r => fails (unexpected command operation key r) end.

Definition delete (key : pystr) : eff W bool :=
  raising (failed (u "DELETE") (u "delete") key)
    (c <- _get_client ;; result <- c_delete c key ;; counted (u "DELETE") (u "delete") key result).

Definition exists_ (key : pystr) : eff W bool :=
  raising (failed (u "EXISTS") (u "exists") key)
    (c <- _get_client ;; result <- c_exists c key ;; counted (u "EXISTS") (u "exists") key result).

Definition methods {Hd P} : backend W Hd P := {|
  b_get := get; b_set := set; b_delete := delete;
  b_get_buffer := None; b_view _ _ := []; b_close _ := ret tt; b_set_streaming := None; b_swr := None;
  b_ttl := None; b_lock := None
|}.
End RedisBackend.
End RedisBackend.

(** ** [PerRequestRedisBackend] *)

Module PerRequest.
Section PerRequest.
Context {X W : Type}.
(** [str(exc)], and the exception of a block as one the handlers see. *)
Context (text : failure X -> pystr) (foreign : Effects.exn -> X).
(** [classify_redis_error(exc, operation, key)] *)
Context (isa : X -> redis_class -> bool) (has_cluster_down : bool).

Record PerRequestRedisBackend := mkPerRequest {
  _client : redis_client X W;
  _tenant_id : pystr
}.

Definition init (c : redis_client X W) (tenant_id : option pystr) : result exn PerRequestRedisBackend :=
  match tenant_id with
  | None => Err RuntimeError
  | Some t => encoded <-! py (quote t) ; Ok (mkPerRequest c encoded)
  end.

Definition key_prefix (b : PerRequestRedisBackend) : pystr := u "t:" ++ _tenant_id b ++ u ":".
Definition _scoped_key (b : PerRequestRedisBackend) (key : pystr) : pystr := u "t:" ++ _tenant_id b ++ u ":" ++ key.

Definition classify (operation key : pystr) (f : failure X) : exn :=
  BackendExn (classify_redis_error isa has_cluster_down text f (Some operation) (Some key)).

Definition get (b : PerRequestRedisBackend) (key : pystr) : eff W (option pybytes) :=
  raising (classify (u "get") key)
    (value <- c_get (_client b) (_scoped_key b key) ;;
     match value with
     | RStr s => bs <- python (utf8_encode s) ;; done_ (Some bs)
     | RBytes bs => done_ (Some bs)
     | _ => done_ None
     end).

Definition set (b : PerRequestRedisBackend) (key : pystr) (value : pybytes) (ttl : option Z) : eff W unit :=
  raising (classify (u "set") key)
    (match ttl with
     | Some t => if 0 <? t then c_setex (_client b) (_scoped_key b key) t value else c_set (_client b) (_scoped_key b key) value
     | None => c_set (_client b) (_scoped_key b key) value
     end).

Definition delete (b : PerRequestRedisBackend) (key : pystr) : eff W bool :=
  raising (classify (u "delete") key)
    (result <- c_delete (_client b) (_scoped_key b key) ;;
     RedisBackend.counted (u "DELETE") (u "delete") key result).

Definition exists_ (b : PerRequestRedisBackend) (key : pystr) : eff W bool :=
  raising (classify (u "exists") key)
    (result <- c_exists (_client b) (_scoped_key b key) ;;
     RedisBackend.counted (u "EXISTS") (u "exists") key result).

(** [None] for no key, no expiry, and a TTL that is over. *)
Definition get_ttl (b : PerRequestRedisBackend) (key : pystr) : eff W (option Z) :=
  raising (classify (u "get_ttl") key)
    (ttl <- c_ttl (_client b) (_scoped_key b key) ;;
     match ttl with
     | RInt t => done_ (if (t =? -2) || (t =? -1) then None else if 0 <? t then Some t else None)
     | r => fails (RedisBackend.unexpected (u "TTL") (u "get_ttl") key r)
     end).

Definition refresh_ttl (b : PerRequestRedisBackend) (key : pystr) (ttl : Z) : eff W bool :=
  raising (classify (u "refresh_ttl") key)
    (result <- c_expire (_client b) (_scoped_key b key) ttl ;; done_ (reply_bool result)).

(** An exception of the block, as the handlers see it. *)
Definition as_failure (x : exn) : failure X :=
  match x with BackendExn e => Own e | PyExn e => Python e | x => Foreign (foreign x) end.

Definition lock_name (b : PerRequestRedisBackend) (key : pystr) : pystr := _scoped_key b key ++ u ":lock".

(** Entering acquires the lock; leaving releases it if it was acquired, whatever
    the release raises, and wraps what the block raised. *)
Definition acquire_lock (b : PerRequestRedisBackend) (key : pystr) (timeout : float) (blocking_timeout : option float)
  : async_context W := {|
  aenter := raising (classify (u "acquire_lock") key)
    (c_acquire (_client b) (lock_name b key) timeout (default (fofZ 0) blocking_timeout)
       (bool_decide (is_Some blocking_timeout)));
  aexit acquired raised := fun w =>
    (Ok (match raised with Some x => Some (classify (u "acquire_lock") key (as_failure x)) | None => None end),
     if acquired then (c_release (_client b) (lock_name b key) w).2 else w)
|}.

(** The locks of the decorator: how long one is held, how long one is waited for. *)
Context (lock_timeout : float) (lock_wait : float).

Definition methods {Hd P} (b : PerRequestRedisBackend) : backend W Hd P := {|
  b_get := get b; b_set := set b; b_delete := delete b;
  b_get_buffer := None; b_view _ _ := []; b_close _ := ret tt; b_set_streaming := None; b_swr := None;
  b_ttl := Some (get_ttl b, refresh_ttl b);
  b_lock := Some (fun (waits : bool) (key : pystr) => acquire_lock b key lock_timeout (if waits then Some lock_wait else None))
|}.

(** [RedisBackendProvider]: [connect] makes the pool and the client, [ping]s, and
    gives the client. *)
Definition provider_init (connect : client X W (redis_client X W)) : eff W (redis_client X W) :=
  raising (fun f => BackendExn (classify_redis_error isa has_cluster_down text f (Some (u "init")) None)) connect.

(** [tenant_context] is a variable of the calling context. *)
Definition provider_get_backend (c : redis_client X W) (tenant_context : option pystr) : result exn PerRequestRedisBackend :=
  init c tenant_context.
End PerRequest.
End PerRequest.
Arguments PerRequest.PerRequestRedisBackend : clear implicits.
