(* ===== verification/RedisPools.v ===== *)
(** Redis connection pools ([src/src/cachekit/backends/redis/client.py], [config.py]
    and the client providers of [backends/provider.py]): the arguments pools are made
    with, the process's pool under every interleaving of threads, resets included, and
    the pools of a backend's own.

    A pool is what [ConnectionPool.from_url] of redis-py makes of its arguments, a
    parameter.  Each read or write of a module global and each lock operation is a step. *)
From Stdlib Require Import ZArith Lia SpecFloat.
From stdpp Require Import base list numbers option strings gmap relations.
From S2P Require Import Prelude PyFloat Errors Effects RemoteErrors RedisBackends.

Local Open Scope Z_scope.
Local Open Scope py_scope.

(** ** The arguments *)

Record RedisBackendConfig := mkRedisConfig {
  redis_url : pystr;
  connection_pool_size : Z;
  socket_timeout : float;
  socket_connect_timeout : float;
  socket_keepalive : bool;
  disable_hiredis : bool
}.

(** 5.0 *)
Definition default_config : RedisBackendConfig :=
  mkRedisConfig (u "redis://localhost:6379") 10 (fofZ 5) (fofZ 5) true false.

(** The constraints of the fields. *)
Definition construct (c : RedisBackendConfig) : result exn RedisBackendConfig :=
  if (0 <? connection_pool_size c) && fgtZ (socket_timeout c) 0 && fgtZ (socket_connect_timeout c) 0
  then Ok c else Err (PyExn ValueError).

Record pool_arguments := mkPoolArguments {
  pool_url : pystr;
  decode_responses : bool;
  max_connections : Z;
  pool_socket_timeout : float;
  pool_connect_timeout : float
}.

Definition _resolve_max_connections (override : option Z) (cfg : RedisBackendConfig) : result exn Z :=
  match override with
  | None => Ok (connection_pool_size cfg)
  | Some n => if n <=? 0 then Err (PyExn ValueError) else Ok n
  end.

Section Pools.
Context {P : Type}.
(** [ConnectionPool.from_url], of redis and of redis.asyncio; [from_env()]. *)
Context (from_url async_from_url : pool_arguments -> result exn P) (from_env : result exn RedisBackendConfig).

Definition create_with (make : pool_arguments -> result exn P) (url : pystr) (config : option RedisBackendConfig)
    (override : option Z) : result exn P :=
  cfg <-! (match config with Some c => Ok c | None => from_env end) ;
  n <-! _resolve_max_connections override cfg ;
  make (mkPoolArguments url false n (socket_timeout cfg) (socket_connect_timeout cfg)).

Definition create_connection_pool : pystr -> option RedisBackendConfig -> option Z -> result exn P := create_with from_url.
Definition create_async_connection_pool : pystr -> option RedisBackendConfig -> option Z -> result exn P := create_with async_from_url.

(** ** The pools of a backend *)

Record PooledClientProvider := mkPooled {
  _redis_url : pystr;
  _config : RedisBackendConfig;
  _pool : P;
  _async_pool : option P
}.

Definition pooled_init (url : pystr) (config : option RedisBackendConfig) : result exn PooledClientProvider :=
  cfg <-! (match config with Some c => Ok c | None => from_env end) ;
  p <-! create_connection_pool url (Some cfg) None ;
  Ok (mkPooled url cfg p None).

(** [Redis(connection_pool=...)]: the pool a client is on. *)
Definition get_sync_client (p : PooledClientProvider) : P := _pool p.

Definition get_async_client (p : PooledClientProvider) : result exn P * PooledClientProvider :=
  match _async_pool p with
  | Some a => (Ok a, p)
  | None =>
      match create_async_connection_pool (_redis_url p) (Some (_config p)) None with
      | Ok a => (Ok a, mkPooled (_redis_url p) (_config p) (_pool p) (Some a))
      | Err x => (Err x, p)
      end
  end.
End Pools.
Arguments PooledClientProvider : clear implicits.

(** ** The pools of the process *)

(** The pool a client is on: one this module made, by its number, or the one
    redis-py makes for [connection_pool=None], to localhost. *)
Inductive client := On (pool : nat) | OnDefault.

(** Where a thread is in [get_cached_redis_client] or in [reset_global_pool]. *)
Inductive at_line :=
  | FirstLook              (* _pool_instance is None, without the lock *)
  | AcquireLock
  | SecondLook             (* the same test under the lock *)
  | Create                 (* from_env, create_connection_pool, the assignment *)
  | ReleaseLock
  | Build                  (* Redis(connection_pool=_pool_instance) reads it again *)
  | Keep (c : client)      (* _thread_local.sync_client = ... *)
  | Returned (c : client)
  | Fail                   (* the lock is released, the exception goes on *)
  | Raised
  | ResetLock
  | Disconnect
  | Clear
  | ResetRelease
  | Forget                 (* _thread_local.sync_client = None *)
  | ResetDone.

Record globals := mkGlobals {
  _pool_instance : option nat;
  _pool_lock : bool;
  made : nat;
  disconnected : gset nat;
  (* [_thread_local.sync_client] *)
  sync_clients : gmap nat client
}.

Definition with_lock (b : bool) (g : globals) : globals :=
  mkGlobals (_pool_instance g) b (made g) (disconnected g) (sync_clients g).

(** Where a call starts: a thread that has a client returns it. *)
Definition get_cached_redis_client (me : nat) (g : globals) : at_line :=
  match sync_clients g !! me with Some c => Returned c | None => FirstLook end.

(** One step of [reset_global_pool]: the pool is disconnected and forgotten, with the lock. *)
Definition reset_step (me : nat) (l : at_line) (g : globals) : option (at_line * globals) :=
  match l with
  | ResetLock => if _pool_lock g then None else Some (Disconnect, with_lock true g)
  | Disconnect =>
      Some (Clear, mkGlobals (_pool_instance g) (_pool_lock g) (made g)
        (match _pool_instance g with Some p => {[p]} ∪ disconnected g | None => disconnected g end) (sync_clients g))
  | Clear => Some (ResetRelease, mkGlobals None (_pool_lock g) (made g) (disconnected g) (sync_clients g))
  | ResetRelease => Some (Forget, with_lock false g)
  | Forget => Some (ResetDone, mkGlobals (_pool_instance g) (_pool_lock g) (made g) (disconnected g) (delete me (sync_clients g)))
  | _ => None
  end.

(** One step of thread [me]; [created] says whether making the pool succeeds.  [None]:
    it waits or has finished. *)
Definition thread_step (me : nat) (created : bool) (l : at_line) (g : globals) : option (at_line * globals) :=
  let missing := match _pool_instance g with None => true | Some _ => false end in
  match l with
  | FirstLook => Some (if missing then AcquireLock else Build, g)
  | AcquireLock => if _pool_lock g then None else Some (SecondLook, with_lock true g)
  | SecondLook => Some (if missing then Create else ReleaseLock, g)
  | Create =>
      if created
      then Some (ReleaseLock, mkGlobals (Some (made g)) (_pool_lock g) (S (made g)) (disconnected g) (sync_clients g))
      else Some (Fail, g)
  | ReleaseLock => Some (Build, with_lock false g)
  | Build => Some (Keep (match _pool_instance g with Some p => On p | None => OnDefault end), g)
  | Keep c => Some (Returned c, mkGlobals (_pool_instance g) (_pool_lock g) (made g) (disconnected g) (<[me := c]> (sync_clients g)))
  | Fail => Some (Raised, with_lock false g)
  | _ => reset_step me l g
  end.

Definition finished (l : at_line) : bool := match l with Returned _ | Raised | ResetDone => true | _ => false end.

Record process := mkProcess { threads : gmap nat at_line; module : globals }.

(** A thread calls when it is in no call; [resets]: whether any thread resets. *)
Inductive step (resets : bool) : process -> process -> Prop :=
  | Gets p i : match threads p !! i with Some l => finished l = true | None => True end ->
      step resets p (mkProcess (<[i := get_cached_redis_client i (module p)]> (threads p)) (module p))
  | Resets p i : resets = true -> match threads p !! i with Some l => finished l = true | None => True end ->
      step resets p (mkProcess (<[i := ResetLock]> (threads p)) (module p))
  | Steps p i l created l' g' : threads p !! i = Some l -> thread_step i created l (module p) = Some (l', g') ->
      step resets p (mkProcess (<[i := l']> (threads p)) g').

Definition start : process := mkProcess ∅ (mkGlobals None false 0 ∅ ∅).

(** ** What every interleaving keeps *)

Definition holds_lock (l : at_line) : bool :=
  match l with SecondLook | Create | ReleaseLock | Fail | Disconnect | Clear | ResetRelease => true | _ => false end.

Definition shared (g : globals) : Prop := _pool_instance g = Some 0%nat.

(** What a thread's position says of the globals. *)
Definition knows (resets : bool) (g : globals) (l : at_line) : Prop :=
  match l with
  | Create => _pool_instance g = None
  | Clear => resets = true /\ forall n, _pool_instance g = Some n -> n ∈ disconnected g
  | ReleaseLock | Build => resets = false -> shared g
  | Keep c | Returned c => resets = false -> shared g /\ c = On 0
  | ResetLock | Disconnect | ResetRelease | Forget | ResetDone => resets = true
  | _ => True
  end.

Record inv (resets : bool) (p : process) : Prop := mkInv {
  inv_connected : forall n, (n < made (module p))%nat -> n ∉ disconnected (module p) -> _pool_instance (module p) = Some n;
  inv_made : forall n, _pool_instance (module p) = Some n -> (n < made (module p))%nat;
  inv_shared : resets = false -> (made (module p) <= 1)%nat /\ (made (module p) = 1%nat -> shared (module p));
  inv_clients : resets = false -> forall i c, sync_clients (module p) !! i = Some c -> shared (module p) /\ c = On 0;
  inv_threads : forall i l, threads p !! i = Some l -> knows resets (module p) l;
  inv_lock : forall i l, threads p !! i = Some l -> holds_lock l = true -> _pool_lock (module p) = true;
  inv_owner : forall i j l l', threads p !! i = Some l -> threads p !! j = Some l' ->
    holds_lock l = true -> holds_lock l' = true -> i = j
}.

Lemma start_inv resets : inv resets start.
Proof. split; cbn; try done; try lia; intros; by simplify_map_eq. Qed.

(** What a thread knows survives what another does. *)
Definition spares (resets : bool) (g g' : globals) : Prop :=
  (resets = false -> shared g -> shared g') /\ disconnected g ⊆ disconnected g'.

Lemma knows_spared resets g g' l : spares resets g g' -> (holds_lock l = true -> _pool_instance g' = _pool_instance g) ->
  knows resets g l -> knows resets g' l.
Proof.
  intros [S D] H K. destruct l; cbn in *; try done; try (by intros R; apply S, K); try (by rewrite H);
    try (intros R; by destruct (K R) as [K1 K2]; split; [apply S|]).
  destruct K as [R K]. split; [done|]. intros n. rewrite H by done. intros E. by apply D, K.
Qed.

(** A call that starts changes no global. *)
Lemma call_inv resets p i l : inv resets p -> match threads p !! i with Some l0 => finished l0 = true | None => True end ->
  holds_lock l = false -> knows resets (module p) l -> inv resets (mkProcess (<[i := l]> (threads p)) (module p)).
Proof.
  intros [] F H K. split; cbn; try done.
  - intros j l0 E. apply lookup_insert_Some in E as [[<- <-]|[_ E]]; eauto.
  - intros j l0 E Hl. apply lookup_insert_Some in E as [[<- <-]|[_ E]]; [congruence|eauto].
  - intros j k l0 l' E E' Hl Hl'. apply lookup_insert_Some in E as [[<- <-]|[_ E]]; [congruence|].
    apply lookup_insert_Some in E' as [[<- <-]|[_ E']]; [congruence|]. eauto.
Qed.

(** The invariant after a step of thread [i], from what the step does. *)
Lemma stepped resets p i l l' g' : inv resets p -> threads p !! i = Some l ->
  (holds_lock l = false -> _pool_lock (module p) = true -> holds_lock l' = false) ->
  (holds_lock l' = true -> _pool_lock g' = true) -> (holds_lock l = false -> _pool_lock (module p) = true -> _pool_lock g' = true) ->
  (holds_lock l = false -> _pool_instance g' = _pool_instance (module p)) ->
  spares resets (module p) g' -> knows resets g' l' ->
  (forall n, (n < made g')%nat -> n ∉ disconnected g' -> _pool_instance g' = Some n) ->
  (forall n, _pool_instance g' = Some n -> (n < made g')%nat) ->
  (resets = false -> (made g' <= 1)%nat /\ (made g' = 1%nat -> shared g')) ->
  (resets = false -> forall j c, sync_clients g' !! j = Some c -> shared g' /\ c = On 0) ->
  inv resets (mkProcess (<[i := l']> (threads p)) g').
Proof.
  intros I E Hh Hl Hk Hp Hs Kn H1 H2 H3 H4. destruct I as [_ _ _ _ T L O]. split; cbn; try done.
  - intros j l0 E0. apply lookup_insert_Some in E0 as [[<- <-]|[N E0]]; [done|].
    apply (knows_spared _ (module p)); [done| |by eapply T]. intros H0. destruct (holds_lock l) eqn:Hl0; [|by apply Hp].
    by destruct N; apply (O i j l l0).
  - intros j l0 E0 H0. apply lookup_insert_Some in E0 as [[<- <-]|[N E0]]; [by apply Hl|].
    destruct (holds_lock l) eqn:Hl0; [by destruct N; apply (O i j l l0)|]. apply Hk; [done|]. by eapply L.
  - intros j k l0 l1 E0 E1 H0 H0'. apply lookup_insert_Some in E0 as [[<- <-]|[N E0]];
      apply lookup_insert_Some in E1 as [[<- <-]|[N' E1]]; [done|..].
    + destruct (holds_lock l) eqn:Hl0; [by destruct N'; apply (O i k l l1)|]. by rewrite Hh in H0 by (done || by eapply L).
    + destruct (holds_lock l) eqn:Hl0; [by destruct N; apply (O i j l l0)|]. by rewrite Hh in H0' by (done || by eapply L).
    + by apply (O j k l0 l1).
Qed.

(** Most steps leave the pools alone. *)
Lemma stepped_same resets p i l l' g' : inv resets p -> threads p !! i = Some l ->
  (holds_lock l = false -> _pool_lock (module p) = true -> holds_lock l' = false) ->
  (holds_lock l' = true -> _pool_lock g' = true) -> (holds_lock l = false -> _pool_lock (module p) = true -> _pool_lock g' = true) ->
  _pool_instance g' = _pool_instance (module p) -> made g' = made (module p) -> disconnected g' = disconnected (module p) ->
  knows resets g' l' -> (resets = false -> forall j c, sync_clients g' !! j = Some c -> shared g' /\ c = On 0) ->
  inv resets (mkProcess (<[i := l']> (threads p)) g').
Proof.
  intros I E Hh Hl Hk Ep Em Ed Kn Hc. pose proof I as [C M Sh _ _ _ _].
  apply (stepped _ p _ l); rewrite ?Em, ?Ed, ?Ep; try done.
  - by split; unfold shared; rewrite ?Ep, ?Ed.
  - unfold shared. rewrite Ep. done.
Qed.

Lemma some_shared resets p n : inv resets p -> _pool_instance (module p) = Some n -> resets = false -> shared (module p).
Proof.
  intros I E R. destruct (inv_shared _ _ I R) as [B Sh]. apply (inv_made _ _ I) in E as L. apply Sh. lia.
Qed.

Lemma shared_same g g' : _pool_instance g' = _pool_instance g -> shared g -> shared g'.
Proof. unfold shared. by intros ->. Qed.

(** Making the pool, under the lock, where there is none. *)
Lemma create_inv resets p i : inv resets p -> threads p !! i = Some Create ->
  let g := module p in
  inv resets (mkProcess (<[i := ReleaseLock]> (threads p)) (mkGlobals (Some (made g)) (_pool_lock g) (S (made g)) (disconnected g) (sync_clients g))).
Proof.
  intros I E g. pose proof I as [C M Sh Cl T L O]. specialize (T i _ E) as K. specialize (L i _ E eq_refl) as Lk. cbn in K.
  assert (Z0 : resets = false -> made (module p) = 0%nat).
  { intros R. destruct (Sh R) as [B S1]. destruct (made (module p)) as [|[|m]] eqn:Em; [done| |lia]. specialize (S1 eq_refl). unfold shared in S1. congruence. }
  apply (stepped _ p _ _ _ _ I E); cbn; try done.
  - unfold spares, shared. cbn. split; [congruence|done].
  - intros R. unfold shared, g. cbn. by rewrite Z0.
  - intros n Hn Hd. destruct (decide (n = made (module p))) as [->|N]; [done|]. pose proof (C n ltac:(unfold g in *; lia) Hd) as F. congruence.
  - intros n [= <-]. lia.
  - intros R. unfold g, shared. cbn. rewrite Z0 by done. by split; [lia|].
  - intros R j c Ec. destruct (Cl R j c Ec) as [F _]. unfold shared in F. congruence.
Qed.

Lemma step_inv resets p p' : inv resets p -> step resets p p' -> inv resets p'.
Proof.
  intros I S. destruct S as [p i F|p i R F|p i l created l' g' E S].
  { apply call_inv; [done|done|..]; unfold get_cached_redis_client; destruct (sync_clients (module p) !! i) eqn:Ec; try done.
    intros R. by eapply inv_clients. }
  { by apply call_inv. }
  pose proof I as [C M Sh Cl T L O]. specialize (T i l E) as K. specialize (L i l E) as Lk.
  assert (Same : forall l' g', (holds_lock l = false -> _pool_lock (module p) = true -> holds_lock l' = false) ->
    (holds_lock l' = true -> _pool_lock g' = true) -> (holds_lock l = false -> _pool_lock (module p) = true -> _pool_lock g' = true) ->
    _pool_instance g' = _pool_instance (module p) -> made g' = made (module p) -> disconnected g' = disconnected (module p) ->
    sync_clients g' = sync_clients (module p) -> knows resets g' l' -> inv resets (mkProcess (<[i := l']> (threads p)) g')).
  { intros l1 g1 H1 H2 H3 H4 H5 H6 H7 H8. apply (stepped_same _ p _ l); try done. rewrite H7. intros R j c Ec.
    destruct (Cl R j c Ec) as [H9 ->]. split; [by apply (shared_same (module p))|done]. }
  destruct l; cbn in S; try done; [..|injection S as <- <-]; cbn in K, Lk.
  - destruct (_pool_instance (module p)) as [n|] eqn:En; injection S as <- <-; apply Same; try done.
    intros R. by apply (some_shared _ _ n I).
  - destruct (_pool_lock (module p)) eqn:El; [done|]. injection S as <- <-. by apply Same; cbn; rewrite ?El.
  - specialize (Lk eq_refl). destruct (_pool_instance (module p)) as [n|] eqn:En; injection S as <- <-; apply Same; try done.
    intros R. by apply (some_shared _ _ n I).
  - specialize (Lk eq_refl). destruct created; injection S as <- <-; [by apply create_inv|by apply Same].
  - injection S as <- <-. by apply Same.
  - injection S as <- <-. apply Same; try done. cbn. intros R. specialize (K R). split; [done|]. unfold shared in K. by rewrite K.
  - injection S as <- <-. apply (stepped_same _ p _ (Keep c)); try done. intros R j c' Ec. cbn in Ec.
    apply lookup_insert_Some in Ec as [[<- <-]|[_ Ec]]; [by apply K|by apply (Cl R j)].
  - injection S as <- <-. by apply Same.
  - destruct (_pool_lock (module p)) eqn:El; [done|]. injection S as <- <-. by apply Same; cbn; rewrite ?El.
  - specialize (Lk eq_refl). subst resets. injection S as <- <-. apply (stepped _ p _ _ _ _ I E); cbn; try done.
    + split; [done|]. cbn. destruct (_pool_instance (module p)); set_solver.
    + split; [done|]. intros n ->. set_solver.
    + intros n Hn Hd. apply C; [done|]. destruct (_pool_instance (module p)); set_solver.
  - specialize (Lk eq_refl). destruct K as [-> K]. injection S as <- <-. apply (stepped _ p _ _ _ _ I E); cbn; try done.
    intros n Hn Hd. rewrite (C n Hn Hd) in K. by specialize (K n eq_refl).
  - injection S as <- <-. by apply Same.
  - apply (stepped_same _ p _ Forget); try done. cbn. intros R. congruence.
Qed.

(** Under every interleaving of threads that get clients, with the lock and without
    it, making the pool or failing to: a process that never resets makes at most one
    pool and every client any thread gets is on it; with resets, every pool but the
    current one has been disconnected, so none is leaked. *)
Theorem pool_is_shared resets p : rtc (step resets) start p ->
  (forall n, (n < made (module p))%nat -> n ∉ disconnected (module p) -> _pool_instance (module p) = Some n) /\
  (resets = false -> (made (module p) <= 1)%nat /\
    (forall i c, threads p !! i = Some (Returned c) -> c = On 0) /\
    (forall i c, sync_clients (module p) !! i = Some c -> c = On 0)).
Proof.
  intros R. assert (I : inv resets p).
  { revert R. apply (rtc_ind_r (inv resets)); [apply start_inv|]. intros p1 p2 _ S I. by apply (step_inv _ p1). }
  split; [apply I|]. intros E. split_and!.
  - by apply (inv_shared _ _ I).
  - intros i c Ht. by apply (inv_threads _ _ I) in Ht as [_ ->].
  - intros i c Hc. by apply (inv_clients _ _ I E) in Hc as [_ ->].
Qed.

(** Runs, as what each thread does next. *)
Inductive move := CallGet (i : nat) | CallReset (i : nat) | Move (i : nat) (created : bool).

Definition moved (m : move) (p : process) : option process :=
  match m with
  | CallGet i =>
      if match threads p !! i with Some l => finished l | None => true end
      then Some (mkProcess (<[i := get_cached_redis_client i (module p)]> (threads p)) (module p)) else None
  | CallReset i =>
      if match threads p !! i with Some l => finished l | None => true end
      then Some (mkProcess (<[i := ResetLock]> (threads p)) (module p)) else None
  | Move i created =>
      match threads p !! i with
      | Some l => match thread_step i created l (module p) with
                  | Some (l', g') => Some (mkProcess (<[i := l']> (threads p)) g') | None => None end
      | None => None
      end
  end.

Definition is_get (m : move) : bool := match m with CallReset _ => false | _ => true end.

Lemma moved_step resets m p p' : (resets = false -> is_get m = true) -> moved m p = Some p' -> step resets p p'.
Proof.
  intros R E. destruct m as [i|i|i created]; cbn in E.
  - destruct (threads p !! i) as [l|] eqn:El; [destruct (finished l) eqn:Ef; [|done]|]; injection E as <-; apply Gets; by rewrite El.
  - destruct resets; [|by specialize (R eq_refl)].
    destruct (threads p !! i) as [l|] eqn:El; [destruct (finished l) eqn:Ef; [|done]|]; injection E as <-; apply Resets; by rewrite ?El.
  - destruct (threads p !! i) as [l|] eqn:El; [|done]. destruct (thread_step _ _ _ _) as [[l' g']|] eqn:Es; [|done].
    injection E as <-. by eapply Steps.
Qed.

Definition after (ms : list move) : option process := foldl (fun p m => p ≫= moved m) (Some start) ms.

Lemma after_reachable resets ms p : (resets = false -> forallb is_get ms = true) -> after ms = Some p -> rtc (step resets) start p.
Proof.
  intros R. unfold after. assert (G : forall p0 : option process, (forall q, p0 = Some q -> rtc (step resets) start q) ->
    foldl (fun p m => p ≫= moved m) p0 ms = Some p -> rtc (step resets) start p); [|apply G; by intros q [= <-]].
  induction ms as [|m ms IH]; intros p0 H0 E; [by apply H0|]. cbn in E.
  assert (R2 : resets = false -> is_get m = true /\ forallb is_get ms = true) by (intros F; by apply andb_true_iff, R).
  apply (IH (fun F => proj2 (R2 F)) (p0 ≫= moved m)); [|done]. intros q Hq. destruct p0 as [q0|]; [|done].
  apply (rtc_r _ q0); [by apply H0|]. apply (moved_step _ m); [|done]. intros F. by apply R2.
Qed.

(** Two threads race for the pool: both come past the first look, one makes it. *)
Definition race : list move :=
  [CallGet 1; CallGet 2; Move 1 true; Move 2 true; Move 1 true; Move 1 true; Move 1 true; Move 1 true; Move 2 true; Move 2 true;
   Move 2 true; Move 2 true; Move 2 true; Move 1 true; Move 1 true].

Lemma pool_is_shared_witness : exists p, after race = Some p /\
  (threads p !! 1%nat, threads p !! 2%nat, made (module p)) = (Some (Returned (On 0)), Some (Returned (On 0)), 1%nat) /\
  forall i c, threads p !! i = Some (Returned c) -> c = On 0.
Proof.
  destruct (after race) as [p|] eqn:E; [|vm_compute in E; discriminate]. exists p. split; [reflexivity|]. split.
  - assert (F : match after race with Some p => (threads p !! 1%nat, threads p !! 2%nat, made (module p)) | None => (None, None, 0%nat) end
      = (Some (Returned (On 0)), Some (Returned (On 0)), 1%nat)) by (vm_compute; reflexivity).
    rewrite E in F. exact F.
  - exact (proj1 (proj2 (proj2 (pool_is_shared false p (after_reachable false race p (fun _ => eq_refl) E)) eq_refl))).
Defined.

(** ** What a reset leaves *)

(** The reset forgets the client of its own thread only: another keeps the one it has,
    on the pool that was disconnected. *)
Lemma reset_leaves_clients : exists p, rtc (step true) start p /\
  threads p !! 2%nat = Some (Returned (On 0)) /\ 0%nat ∈ disconnected (module p) /\ _pool_instance (module p) = None.
Proof.
  set (ms := [CallGet 2; Move 2 true; Move 2 true; Move 2 true; Move 2 true; Move 2 true; Move 2 true; Move 2 true;
    CallReset 1; Move 1 true; Move 1 true; Move 1 true; Move 1 true; Move 1 true; CallGet 2]).
  destruct (after ms) as [p|] eqn:E; [|vm_compute in E; discriminate]. exists p.
  split; [by apply (after_reachable true ms)|].
  assert (F : match after ms with
    | Some p => (threads p !! 2%nat, bool_decide (0%nat ∈ disconnected (module p)), _pool_instance (module p)) | None => (None, false, None) end
    = (Some (Returned (On 0)), true, None)) by (vm_compute; reflexivity).
  rewrite E in F. apply pair_equal_spec in F as [[F1 F2]%pair_equal_spec F3]. apply bool_decide_eq_true_1 in F2.
  split; [exact F1|]. split; [exact F2|exact F3].
Qed.

(** The pool is read once more after the lock: a reset in between gives a client on
    the default pool of redis-py, whatever URL is configured. *)
Lemma reset_race_gives_default : exists p, rtc (step true) start p /\ threads p !! 2%nat = Some (Returned OnDefault).
Proof.
  set (ms := [CallGet 2; Move 2 true; Move 2 true; Move 2 true; Move 2 true; Move 2 true;
    CallReset 1; Move 1 true; Move 1 true; Move 1 true; Move 1 true; Move 2 true; Move 2 true]).
  destruct (after ms) as [p|] eqn:E; [|vm_compute in E; discriminate]. exists p.
  split; [by apply (after_reachable true ms)|].
  assert (F : match after ms with Some p => threads p !! 2%nat | None => None end = Some (Returned OnDefault)) by (vm_compute; reflexivity).
  rewrite E in F. exact F.
Qed.

(** ** The backend's own pools *)

Section Own.
Context {P : Type} (from_url async_from_url : pool_arguments -> result exn P) (from_env : result exn RedisBackendConfig).

(** What every pool made is made with. *)
Definition sound_arguments (url : pystr) (a : pool_arguments) : Prop :=
  pool_url a = url /\ decode_responses a = false /\ 0 < max_connections a /\
  fgtZ (pool_socket_timeout a) 0 = true /\ fgtZ (pool_connect_timeout a) 0 = true.

Definition valid (c : RedisBackendConfig) : Prop := construct c = Ok c.

Lemma valid_bounds c : valid c -> 0 < connection_pool_size c /\ fgtZ (socket_timeout c) 0 = true /\ fgtZ (socket_connect_timeout c) 0 = true.
Proof. unfold valid, construct. destruct (_ && _) eqn:E; [|done]. intros _. zbool. done. Qed.

Lemma created_soundly (make : pool_arguments -> result exn P) url config override p : match config with Some c => valid c | None => forall c, from_env = Ok c -> valid c end ->
  create_with from_env make url config override = Ok p -> exists a, make a = Ok p /\ sound_arguments url a.
Proof.
  intros V E. apply rbind_ok in E as (cfg & Ec & E). apply rbind_ok in E as (n & En & E). eexists. split; [exact E|].
  assert (Vc : valid cfg) by (destruct config; [by injection Ec as <-|by apply V]). apply valid_bounds in Vc as (B & T1 & T2).
  unfold sound_arguments. cbn. split_and!; try done. unfold _resolve_max_connections in En.
  destruct override as [m|]; [|by injection En as <-]. destruct (m <=? 0) eqn:Em; [done|]. injection En as <-. zbool. lia.
Qed.

(** A URL that is passed is the URL that is used: a backend made with a URL, and no
    provider, has a provider of its own both of whose pools are made with that URL,
    whatever the environment and the container say, without decoding, with at least
    one connection and timeouts above zero; the second client of a kind is on the
    same pool as the first. *)
Theorem explicit_url_is_used url env_url registered c p :
  url <> [] -> (forall cfg, from_env = Ok cfg -> valid cfg) ->
  RedisBackend.init (RedisBackend.UrlText url) None env_url registered (fun url => pooled_init from_url from_env url None) = Ok (c, p) ->
  c = url /\ (exists a, from_url a = Ok (get_sync_client p) /\ sound_arguments url a) /\
  let (r, p') := get_async_client async_from_url from_env p in
  get_sync_client p' = get_sync_client p /\
  match r with
  | Ok q => (exists a, async_from_url a = Ok q /\ sound_arguments url a) /\ get_async_client async_from_url from_env p' = (Ok q, p')
  | Err _ => p' = p
  end.
Proof.
  intros N V E. unfold RedisBackend.init in E. apply rbind_ok in E as (cu & _ & E). destruct url as [|ch url]; [done|]. cbn in E.
  apply rbind_ok in E as (pr & E & E2). injection E2 as <- <-. unfold pooled_init in E. apply rbind_ok in E as (cfg & Ec & E).
  apply rbind_ok in E as (po & Ep & E). injection E as <-. specialize (V _ Ec). split; [done|]. split.
  { by apply (created_soundly from_url _ (Some cfg) None). }
  unfold get_async_client. cbn [_async_pool _redis_url _config]. destruct (create_async_connection_pool async_from_url from_env _ _ _) as [q|x] eqn:Eq; [|done]. split; [done|]. split; [|done].
  by apply (created_soundly async_from_url _ (Some cfg) None).
Qed.
End Own.

Lemma explicit_url_is_used_witness : exists p,
  RedisBackend.init (RedisBackend.UrlText (u "redis://a")) None (Ok (u "redis://b")) None
    (fun url => pooled_init (fun a => Ok a) (Ok default_config) url None) = Ok (u "redis://a", p) /\
  exists a, Ok (E := exn) a = Ok (get_sync_client p) /\ sound_arguments (u "redis://a") a.
Proof.
  set (cfg := default_config). exists (mkPooled (u "redis://a") cfg (mkPoolArguments (u "redis://a") false 10 (fofZ 5) (fofZ 5)) None).
  assert (E : RedisBackend.init (RedisBackend.UrlText (u "redis://a")) None (Ok (u "redis://b")) None
    (fun url => pooled_init (fun a => Ok a) (Ok cfg) url None) =
    Ok (u "redis://a", mkPooled (u "redis://a") cfg (mkPoolArguments (u "redis://a") false 10 (fofZ 5) (fofZ 5)) None)) by (vm_compute; reflexivity).
  split; [exact E|].
  refine (proj1 (proj2 (explicit_url_is_used (fun a => Ok a) (fun a => Ok a) (Ok cfg) (u "redis://a") _ None _ _ _ _ E))).
  - discriminate.
  - intros c [= <-]. vm_compute. reflexivity.
Defined.
