(* ===== verification/BackendProvider.v ===== *)
(** The provider of the default backend ([src/src/cachekit/backends/provider.py],
    [DefaultBackendProvider]): which backend the environment selects, the
    instances it keeps, and the tenant of the Redis backends. *)
From Stdlib Require Import ZArith Lia.
From stdpp Require Import base list numbers option strings.
From S2P Require Import Prelude Errors Effects RemoteErrors RedisBackends.

Local Open Scope Z_scope.
Local Open Scope py_scope.

Inductive choice := CachekitIO | Redis | Memcached | File.

#[export] Instance choice_eq_dec : EqDecision choice.
Proof. solve_decision. Defined.

(** Whether each prefixed selector is set in the environment. *)
Record selectors := mkSelectors {
  CACHEKIT_API_KEY : bool;
  CACHEKIT_REDIS_URL : bool;
  CACHEKIT_MEMCACHED_SERVERS : bool;
  CACHEKIT_FILE_CACHE_DIR : bool
}.

Definition _SELECTORS : list ((selectors -> bool) * choice) :=
  [(CACHEKIT_API_KEY, CachekitIO); (CACHEKIT_REDIS_URL, Redis);
   (CACHEKIT_MEMCACHED_SERVERS, Memcached); (CACHEKIT_FILE_CACHE_DIR, File)].

Definition _detect (env : selectors) : result exn (option choice) :=
  match List.filter (fun p => p.1 env) _SELECTORS with
  | [] => Ok None
  | [p] => Ok (Some p.2)
  | _ => Err Effects.ConfigurationError
  end.

Section Provider.
(** [W] is the state outside, [B] the backends, a Redis one among them. *)
Context {X W B : Type}.
Local Abbreviation C := (redis_client X W).
Context (of_request : PerRequest.PerRequestRedisBackend X W -> B).

(** The instances kept, and the [tenant_context] of the calling context. *)
Record provider := mkProvider {
  world : W;
  _cachekitio_backend : option B;
  _redis_provider : option C;
  _memcached_backend : option B;
  _file_backend : option B;
  tenant_context : option pystr
}.

Definition init (w : W) (tenant : option pystr) : provider := mkProvider w None None None None tenant.

(** The constructors; [new_redis] is [RedisBackendConfig.from_env] and the client
    of a [RedisBackendProvider]. *)
Context (new_cachekitio new_memcached new_file : eff W B) (new_redis : eff W C).

(** [self._redis_provider.get_backend()] *)
Definition per_request (c : C) (tenant : option pystr) : result exn B :=
  b <-! PerRequest.provider_get_backend c tenant ; Ok (of_request b).

Definition with_world (s : provider) (w : W) : provider :=
  mkProvider w (_cachekitio_backend s) (_redis_provider s) (_memcached_backend s) (_file_backend s) (tenant_context s).

Definition on_world {A} (m : eff W A) : eff provider A := fun s =>
  let (r, w) := m (world s) in (r, with_world s w).

(** The instance kept, or a new one that is kept from then on. *)
Definition once {A} (kept : provider -> option A) (keep : A -> provider -> provider) (make : eff W A)
  : eff provider A := fun s =>
  match kept s with
  | Some b => (Ok b, s)
  | None => match on_world make s with
            | (Ok b, s') => (Ok b, keep b s')
            | (Err x, s') => (Err x, s')
            end
  end.

Definition keep_cachekitio (b : B) (s : provider) : provider :=
  mkProvider (world s) (Some b) (_redis_provider s) (_memcached_backend s) (_file_backend s) (tenant_context s).
Definition keep_memcached (b : B) (s : provider) : provider :=
  mkProvider (world s) (_cachekitio_backend s) (_redis_provider s) (Some b) (_file_backend s) (tenant_context s).
Definition keep_file (b : B) (s : provider) : provider :=
  mkProvider (world s) (_cachekitio_backend s) (_redis_provider s) (_memcached_backend s) (Some b) (tenant_context s).

(** A new Redis provider sets the tenant of the calling context, if it has none. *)
Definition keep_redis (c : C) (s : provider) : provider :=
  mkProvider (world s) (_cachekitio_backend s) (Some c) (_memcached_backend s) (_file_backend s)
    (match tenant_context s with None => Some (u "default") | Some t => Some t end).

Definition get_backend (env : selectors) : eff provider B := fun s =>
  match _detect env with
  | Err x => (Err x, s)
  | Ok (Some CachekitIO) => once _cachekitio_backend keep_cachekitio new_cachekitio s
  | Ok (Some Memcached) => once _memcached_backend keep_memcached new_memcached s
  | Ok (Some File) => once _file_backend keep_file new_file s
  | Ok (Some Redis) | Ok None =>
      match once _redis_provider keep_redis new_redis s with
      | (Ok c, s') => (per_request c (tenant_context s'), s')
      | (Err x, s') => (Err x, s')
      end
  end.

(** The calling context changes: another thread, another task. *)
Definition in_context (tenant : option pystr) (s : provider) : provider :=
  mkProvider (world s) (_cachekitio_backend s) (_redis_provider s) (_memcached_backend s) (_file_backend s) tenant.

(** ** What it does *)

(** Detection fails exactly when two selectors are set, and otherwise follows the
    one that is, or falls back. *)
Lemma detect_spec env :
  match _detect env with
  | Ok (Some c) => List.filter (fun p => p.1 env) _SELECTORS = [(match c with CachekitIO => CACHEKIT_API_KEY
      | Redis => CACHEKIT_REDIS_URL | Memcached => CACHEKIT_MEMCACHED_SERVERS | File => CACHEKIT_FILE_CACHE_DIR end, c)]
  | Ok None => forall p, p ∈ _SELECTORS -> p.1 env = false
  | Err x => x = Effects.ConfigurationError /\ (2 <= length (List.filter (fun p => p.1 env) _SELECTORS))%nat
  end.
Proof.
  destruct env as [[] [] [] []]; vm_compute; try done; try (split; [done|lia]).
  intros p Hp. repeat (apply elem_of_cons in Hp as [-> | Hp]; [done|]). by apply not_elem_of_nil in Hp.
Qed.

(** Backends other than Redis are made once. *)
Lemma kept_once env s b s' c : _detect env = Ok (Some c) -> c <> Redis -> get_backend env s = (Ok b, s') ->
  get_backend env s' = (Ok b, s').
Proof.
  unfold get_backend. intros -> Hc E. destruct c; [|done|..]; unfold once in *.
  all: destruct (_ s) as [b'|] eqn:K in E; [injection E as <- <-; by rewrite K|].
  all: destruct (on_world _ _) as [[b'|x] s1] in E; [injection E as <- <-; done|done].
Qed.

(** The default tenant is set where the first backend was made, and nowhere
    else: in another thread, or in a task started before, the same call raises
    [RuntimeError], which tells the user to name a tenant, until that context
    names one. *)
Theorem default_tenant_lost env s s' b : _detect env = Ok None \/ _detect env = Ok (Some Redis) ->
  _redis_provider s = None -> tenant_context s = None -> get_backend env s = (Ok b, s') ->
  tenant_context s' = Some (u "default") /\ get_backend env s' = (Ok b, s') /\
  get_backend env (in_context None s') = (Err RuntimeError, in_context None s').
Proof.
  intros D N T E. assert (R : match once _redis_provider keep_redis new_redis s with
    | (Ok c, s') => (per_request c (tenant_context s'), s') | (Err x, s') => (Err x, s') end = (Ok b, s')).
  { unfold get_backend in E. by destruct D as [D|D]; rewrite D in E. }
  clear E. unfold once, on_world in R. rewrite N in R. destruct (new_redis (world s)) as [[c|x] w]; [|done].
  cbn -[per_request u] in R. rewrite T in R. apply pair_equal_spec in R as [Eb <-]. unfold get_backend, once, in_context, keep_redis, with_world.
  cbn -[per_request u]. rewrite T. by destruct D as [D|D]; rewrite D, Eb.
Qed.
End Provider.
