(* ===== verification/RedisProps.v ===== *)
(** The Redis backends over a server that keeps what it is given: what is stored
    is read back, and the tenants of one server never meet. *)
From Stdlib Require Import ZArith Lia SpecFloat.
From stdpp Require Import base list numbers option strings gmap.
From S2P Require Import Prelude PyFloat Bytes PyValue Errors Effects RemoteErrors Handler RedisBackends BackendProvider.

Local Open Scope Z_scope.

(** ** A Redis server *)

(** What a working server answers, [find] its entries.  Expiry is the server's:
    the laws are those of an entry before its expiry. *)
Class RedisServer {X W} (c : redis_client X W) (find : W -> pystr -> option pybytes) : Prop := {
  rs_get k w : exists w', c_get c k w = (Ok (match find w k with Some b => RBytes b | None => RNone end), w') /\
    forall k', find w' k' = find w k';
  rs_set k v w : exists w', c_set c k v w = (Ok tt, w') /\ forall k', find w' k' = if decide (k' = k) then Some v else find w k';
  rs_setex k t v w : 0 < t ->
    exists w', c_setex c k t v w = (Ok tt, w') /\ forall k', find w' k' = if decide (k' = k) then Some v else find w k';
  rs_delete k w : exists w', c_delete c k w = (Ok (RInt (match find w k with Some _ => 1 | None => 0 end)), w') /\
    forall k', find w' k' = if decide (k' = k) then None else find w k';
  rs_exists k w : exists w', c_exists c k w = (Ok (RInt (match find w k with Some _ => 1 | None => 0 end)), w') /\
    forall k', find w' k' = find w k';
  rs_ttl k w : exists t w', c_ttl c k w = (Ok (RInt t), w') /\ forall k', find w' k' = find w k';
  rs_expire k t w : exists r w', c_expire c k t w = (Ok r, w') /\ forall k', k' <> k -> find w' k' = find w k';
  rs_acquire k t b wait w : forall k', k' <> k -> find (c_acquire c k t b wait w).2 k' = find w k';
  rs_release k w : forall k', k' <> k -> find (c_release c k w).2 k' = find w k'
}.

Section Props.
Context {X W : Type} (text : failure X -> pystr) (foreign : Effects.exn -> X).
Context (isa : X -> redis_class -> bool) (has_cluster_down : bool).
Context (c : redis_client X W) (find : W -> pystr -> option pybytes) `{RedisServer X W c find}.
Local Abbreviation backend_of := (PerRequest.init c).
Local Abbreviation get := (PerRequest.get text isa has_cluster_down).
Local Abbreviation set := (PerRequest.set text isa has_cluster_down).
Local Abbreviation delete := (PerRequest.delete text isa has_cluster_down).
Local Abbreviation exists_ := (PerRequest.exists_ text isa has_cluster_down).
Local Abbreviation get_ttl := (PerRequest.get_ttl text isa has_cluster_down).
Local Abbreviation refresh_ttl := (PerRequest.refresh_ttl text isa has_cluster_down).
Local Abbreviation acquire_lock := (PerRequest.acquire_lock text foreign isa has_cluster_down).
Local Abbreviation Backend := (PerRequest.PerRequestRedisBackend X W).

(** ** Keys *)

Definition is_text (t : pystr) : Prop := Forall is_code_point t.

(** The backend of a tenant. *)
Lemma init_tenant t b : is_text t -> backend_of (Some t) = Ok b ->
  PerRequest._client b = c /\ quote t = Ok (PerRequest._tenant_id b) /\ Forall (fun x => x <> 58) (PerRequest._tenant_id b).
Proof.
  intros Ht E. unfold PerRequest.init in E. apply rbind_ok in E as (q & Eq & [= <-]). cbn.
  destruct (quote t) as [q'|] eqn:Eq'; [|done]. injection Eq as ->. split_and!; [done..|].
  by apply (quote_excludes 58 t).
Qed.

(** Scoped keys tell both the tenant and the key. *)
Lemma scoped_key_inj t t' b b' k k' : is_text t -> is_text t' -> backend_of (Some t) = Ok b -> backend_of (Some t') = Ok b' ->
  PerRequest._scoped_key b k = PerRequest._scoped_key b' k' -> t = t' /\ k = k'.
Proof.
  intros Ht Ht' E E'. destruct (init_tenant t b Ht E) as (_ & Q & C). destruct (init_tenant t' b' Ht' E') as (_ & Q' & C').
  unfold PerRequest._scoped_key. intros K%app_inv_head. apply (split_at 58) in K as [K ->]; [|done..].
  split; [|done]. apply (quote_inj t t' (PerRequest._tenant_id b)); [done..|]. by rewrite Q', K.
Qed.

(** ** One backend *)

Section One.
Context (b : Backend) (Hb : PerRequest._client b = c).

Lemma get_spec k w : exists w', get b k w = (Ok (find w (PerRequest._scoped_key b k)), w') /\ forall k', find w' k' = find w k'.
Proof.
  destruct (rs_get (PerRequest._scoped_key b k) w) as (w' & E & F). exists w'. split; [|done].
  unfold PerRequest.get, raising, next. rewrite Hb, E. by destruct (find w _).
Qed.

Lemma set_spec k v t w : exists w', set b k v t w = (Ok tt, w') /\
  forall k', find w' k' = if decide (k' = PerRequest._scoped_key b k) then Some v else find w k'.
Proof.
  unfold PerRequest.set, raising. rewrite Hb. destruct t as [t|].
  - destruct (0 <? t) eqn:Et; zbool.
    + destruct (rs_setex (PerRequest._scoped_key b k) t v w Et) as (w' & E & F). exists w'. by rewrite E.
    + destruct (rs_set (PerRequest._scoped_key b k) v w) as (w' & E & F). exists w'. by rewrite E.
  - destruct (rs_set (PerRequest._scoped_key b k) v w) as (w' & E & F). exists w'. by rewrite E.
Qed.

Lemma delete_spec k w : exists w',
  delete b k w = (Ok (bool_decide (is_Some (find w (PerRequest._scoped_key b k)))), w') /\
  forall k', find w' k' = if decide (k' = PerRequest._scoped_key b k) then None else find w k'.
Proof.
  destruct (rs_delete (PerRequest._scoped_key b k) w) as (w' & E & F). exists w'. split; [|done].
  unfold PerRequest.delete, raising, next. rewrite Hb, E. by destruct (find w _).
Qed.

Lemma exists_spec k w : exists w',
  exists_ b k w = (Ok (bool_decide (is_Some (find w (PerRequest._scoped_key b k)))), w') /\ forall k', find w' k' = find w k'.
Proof.
  destruct (rs_exists (PerRequest._scoped_key b k) w) as (w' & E & F). exists w'. split; [|done].
  unfold PerRequest.exists_, raising, next. rewrite Hb, E. by destruct (find w _).
Qed.

Lemma get_ttl_spec k w : exists t w', get_ttl b k w = (Ok t, w') /\ (forall n, t = Some n -> 0 < n) /\ forall k', find w' k' = find w k'.
Proof.
  destruct (rs_ttl (PerRequest._scoped_key b k) w) as (t & w' & E & F). unfold PerRequest.get_ttl, raising, next. rewrite Hb, E.
  eexists _, w'. split_and!; [reflexivity| |done]. cbn. intros n. repeat case_match; intros [= <-]; by zbool.
Qed.
End One.

(** ** Tenants *)

(** The calls of a tenant; [Lock] and [Unlock] are the two ends of [acquire_lock]. *)
Inductive call :=
  | Get (k : pystr) | Set_ (k : pystr) (v : pybytes) (ttl : option Z) | Delete (k : pystr) | Exists (k : pystr)
  | GetTtl (k : pystr) | RefreshTtl (k : pystr) (t : Z)
  | Lock (k : pystr) (timeout : float) (blocking_timeout : option float)
  | Unlock (k : pystr) (timeout : float) (blocking_timeout : option float) (acquired : bool) (raised : option exn).

Definition act (b : Backend) (o : call) (w : W) : W :=
  match o with
  | Get k => (get b k w).2
  | Set_ k v t => (set b k v t w).2
  | Delete k => (delete b k w).2
  | Exists k => (exists_ b k w).2
  | GetTtl k => (get_ttl b k w).2
  | RefreshTtl k t => (refresh_ttl b k t w).2
  | Lock k t bt => (aenter (acquire_lock b k t bt) w).2
  | Unlock k t bt a r => (aexit (acquire_lock b k t bt) a r w).2
  end.

(** A call reads and writes keys of its tenant only. *)
Lemma act_scope b o w k' : PerRequest._client b = c -> (forall k, k' <> PerRequest._scoped_key b k) -> find (act b o w) k' = find w k'.
Proof.
  intros Hb Hk. destruct o as [k|k v t|k|k|k|k t|k t bt|k t bt a r]; cbn [act].
  - destruct (get_spec b Hb k w) as (w' & E & F). by rewrite E.
  - destruct (set_spec b Hb k v t w) as (w' & E & F). rewrite E. cbn. by rewrite F, decide_False.
  - destruct (delete_spec b Hb k w) as (w' & E & F). rewrite E. cbn. by rewrite F, decide_False.
  - destruct (exists_spec b Hb k w) as (w' & E & F). by rewrite E.
  - destruct (get_ttl_spec b Hb k w) as (t & w' & E & _ & F). by rewrite E.
  - destruct (rs_expire (PerRequest._scoped_key b k) t w) as (r & w' & E & F).
    unfold PerRequest.refresh_ttl, raising, next. rewrite Hb, E. by apply F.
  - assert (Hl : k' <> PerRequest.lock_name b k).
    { intros ->. apply (Hk (k ++ u ":lock")). unfold PerRequest.lock_name, PerRequest._scoped_key. by rewrite <- !app_assoc. }
    unfold aenter, PerRequest.acquire_lock, raising. rewrite Hb.
    pose proof (rs_acquire (PerRequest.lock_name b k) t (default (fofZ 0) bt) (bool_decide (is_Some bt)) w k' Hl) as F.
    by destruct (c_acquire _ _ _ _ _ _) as [[]].
  - assert (Hl : k' <> PerRequest.lock_name b k).
    { intros ->. apply (Hk (k ++ u ":lock")). unfold PerRequest.lock_name, PerRequest._scoped_key. by rewrite <- !app_assoc. }
    cbn. rewrite Hb. destruct a; [|done]. by apply (rs_release (PerRequest.lock_name b k) w k').
Qed.

(** C13. Tenants of one server are isolated: whatever one tenant stores, deletes,
    extends and locks, every other tenant reads what it would have read. *)
Theorem tenants_isolated t t' b b' os k w : is_text t -> is_text t' -> t <> t' ->
  backend_of (Some t) = Ok b -> backend_of (Some t') = Ok b' ->
  (get b' k (foldl (fun w o => act b o w) w os)).1 = (get b' k w).1.
Proof.
  intros Ht Ht' N E E'. destruct (init_tenant t b Ht E) as (C & _ & _). destruct (init_tenant t' b' Ht' E') as (C' & _ & _).
  assert (F : find (foldl (fun w o => act b o w) w os) (PerRequest._scoped_key b' k) = find w (PerRequest._scoped_key b' k)).
  { revert w. induction os as [|o os IH]; intros w; [done|]. cbn. rewrite IH. apply act_scope; [done|].
    intros k0 K. symmetry in K. by destruct (scoped_key_inj t t' b b' k0 k Ht Ht' E E' K). }
  destruct (get_spec b' C' k (foldl (fun w o => act b o w) w os)) as (w1 & E1 & _). destruct (get_spec b' C' k w) as (w2 & E2 & _).
  by rewrite E1, E2, F.
Qed.

(** What a tenant stores, it reads, until it stores or deletes under that key. *)
Lemma stored_is_read b k v t w : PerRequest._client b = c -> (get b k (set b k v t w).2).1 = Ok (Some v).
Proof.
  intros Hb. destruct (set_spec b Hb k v t w) as (w' & E & F). rewrite E. cbn.
  destruct (get_spec b Hb k w') as (w2 & E2 & _). rewrite E2. cbn. by rewrite F, decide_True.
Qed.

(** ** [RedisBackend] *)

Section Plain.
Context (provider : client X W (redis_client X W)) (Hp : forall w, provider w = (Ok c, w)).

Lemma plain_get k w : exists w', RedisBackend.get text provider k w = (Ok (find w k), w') /\ forall k', find w' k' = find w k'.
Proof.
  destruct (rs_get k w) as (w' & E & F). exists w'. split; [|done].
  unfold RedisBackend.get, raising, next, RedisBackend._get_client. rewrite Hp, E. by destruct (find w k).
Qed.

Lemma plain_set k v t w : exists w', RedisBackend.set text provider k v t w = (Ok tt, w') /\
  forall k', find w' k' = if decide (k' = k) then Some v else find w k'.
Proof.
  unfold RedisBackend.set, raising, next, RedisBackend._get_client. rewrite Hp. destruct t as [t|].
  - destruct (0 <? t) eqn:Et; zbool.
    + destruct (rs_setex k t v w Et) as (w' & E & F). exists w'. by rewrite E.
    + destruct (rs_set k v w) as (w' & E & F). exists w'. by rewrite E.
  - destruct (rs_set k v w) as (w' & E & F). exists w'. by rewrite E.
Qed.
End Plain.
End Props.

(** ** Errors of [RedisBackend] *)

(** Every failure of [RedisBackend] is a [BackendError] of type UNKNOWN that does
    not hold the exception it comes from: [classify_redis_error] is not asked. *)
Lemma redis_failures_unknown {X W} (text : failure X -> pystr) (provider : client X W (redis_client X W)) key v ttl :
  let unknown x := exists e, x = BackendExn e /\ error_type e = UNKNOWN /\ original_exception e = None in
  raises_only unknown (RedisBackend.get text provider key) /\
  raises_only unknown (RedisBackend.set text provider key v ttl) /\
  raises_only unknown (RedisBackend.delete text provider key) /\
  raises_only unknown (RedisBackend.exists_ text provider key).
Proof.
  cbv zeta. split_and!; eapply raises_only_weaken; try apply raising_raises; intros x (f & ->); by eexists.
Qed.

(** ** A server in memory *)

Definition entries := gmap pystr pybytes.

Definition map_client : redis_client unit entries :=
  let put (k : pystr) (v : pybytes) : client unit entries unit := fun w => (Ok tt, <[k := v]> w) in
  let has (w : entries) (k : pystr) := RInt (match w !! k with Some _ => 1 | None => 0 end) in
  {|
    c_get k w := (Ok (match w !! k with Some b => RBytes b | None => RNone end), w);
    c_set k v := put k v;
    c_setex k _ v := put k v;
    c_delete k w := (Ok (has w k), base.delete k w);
    c_exists k w := (Ok (has w k), w);
    c_ttl k w := (Ok (RInt (match w !! k with Some _ => 60 | None => -2 end)), w);
    c_expire k _ w := (Ok (has w k), w);
    c_acquire k _ _ _ w := match w !! k with Some _ => (Ok false, w) | None => (Ok true, <[k := [1]]> w) end;
    c_release k w := (Ok tt, base.delete k w)
  |}.

Definition map_find (w : entries) (k : pystr) : option pybytes := w !! k.

#[export] Instance map_server : RedisServer map_client map_find.
Proof.
  split; unfold map_find.
  - intros k w. by exists w.
  - intros k v w. eexists. split; [done|]. intros k'. case_decide as D; [subst; apply lookup_insert_eq|by apply lookup_insert_ne].
  - intros k t v w _. eexists. split; [done|]. intros k'. case_decide as D; [subst; apply lookup_insert_eq|by apply lookup_insert_ne].
  - intros k w. eexists. split; [done|]. intros k'. case_decide as D; [subst; apply lookup_delete_eq|by apply lookup_delete_ne].
  - intros k w. by exists w.
  - intros k w. by eexists _, w.
  - intros k t w. by eexists _, w.
  - intros k t b wait w k' N. cbn. destruct (w !! k); [done|]. cbn. by apply lookup_insert_ne.
  - intros k w k' N. cbn. by apply lookup_delete_ne.
Qed.

Definition no_classes (_ : unit) (_ : redis_class) : bool := false.
Definition no_text (_ : failure unit) : pystr := [].
Definition handle (t : pystr) : PerRequest.PerRequestRedisBackend unit entries :=
  match PerRequest.init map_client (Some t) with Ok b => b | Err _ => PerRequest.mkPerRequest map_client [] end.

Lemma tenants_isolated_witness :
  (PerRequest.get no_text no_classes true (handle (u "b")) (u "x")
     (foldl (fun w o => act no_text (fun _ => tt) no_classes true (handle (u "a:b")) o w)
        (<[u "t:b:x" := [7]]> ∅) [Set_ (u "x") [1] None; Delete (u "x")])).1 = Ok (Some [7]).
Proof.
  rewrite (tenants_isolated no_text (fun _ => tt) no_classes true map_client map_find
    (u "a:b") (u "b") (handle (u "a:b")) (handle (u "b")) [Set_ (u "x") [1] None; Delete (u "x")] (u "x")
    (<[u "t:b:x" := [7]]> ∅) (u_code_points "a:b") (u_code_points "b") ltac:(discriminate) eq_refl eq_refl).
  vm_compute. reflexivity.
Defined.

(** A process with [REDIS_URL]: the first backend is made in one context. *)
Definition nothing_set : selectors := mkSelectors false false false false.
Definition unavailable : eff entries (PerRequest.PerRequestRedisBackend unit entries) := throw RuntimeError.
Definition connected : eff entries (redis_client unit entries) := ret map_client.
Definition fresh_process : provider (X := unit) (W := entries) (B := PerRequest.PerRequestRedisBackend unit entries) :=
  BackendProvider.init ∅ None.
Definition first_backend := get_backend (fun b => b) unavailable unavailable unavailable connected nothing_set fresh_process.

Lemma default_tenant_lost_witness :
  get_backend (fun b => b) unavailable unavailable unavailable connected nothing_set (in_context None first_backend.2)
    = (Err RuntimeError, in_context None first_backend.2).
Proof.
  destruct (default_tenant_lost (fun b => b) unavailable unavailable unavailable connected nothing_set fresh_process
    first_backend.2 (handle (u "default")) (or_introl eq_refl) eq_refl eq_refl) as (_ & _ & E); [|exact E].
  vm_compute. reflexivity.
Defined.
