(* ===== verification/CachekitIO.v ===== *)
(** The cachekit.io backend ([src/src/cachekit/backends/cachekitio]): the checks
    of its configuration, the HTTP clients a thread keeps, the requests and what
    their answers mean, the distributed lock.

    httpx is a parameter: a request on a client, over the state [W] of the network
    and the server.  [urlparse] is too: a URL is given with its scheme and host. *)
From Stdlib Require Import ZArith Lia SpecFloat.
From stdpp Require Import base list numbers option strings.
From S2P Require Import Prelude PyFloat PyDict Bytes Json Tenant Errors Effects RemoteErrors.

Local Open Scope Z_scope.
Local Open Scope py_scope.
Local Open Scope eff_scope.

(** ** Configuration ([config.py]) *)

(** The case of ASCII letters; what the checks compare is ASCII. *)
Definition lower_char (c : Z) : Z := if (65 <=? c) && (c <=? 90) then c + 32 else c.

Definition starts_with (p s : pystr) : bool := bool_decide (take (length p) s = p).
Definition ends_with (p s : pystr) : bool :=
  (zlen p <=? zlen s) && bool_decide (drop (length s - length p) s = p).

Section Config.
(** The decimal digits of other scripts, which [\d] and [int] accept too. *)
Context (unicode_digit : Z -> option Z).

(** The number of a run of digits; none of an empty one. *)
Definition number (s : pystr) : option Z :=
  match s with
  | [] => None
  | _ => foldl (fun a c => match a, digit_value unicode_digit c with Some a, Some d => Some (a * 10 + d) | _, _ => None end)
           (Some 0) s
  end.

(** [s.split(".")] *)
Fixpoint split_dots (s : pystr) : list pystr :=
  match s with
  | [] => [[]]
  | c :: r =>
      if c =? 46 then [] :: split_dots r
      else match split_dots r with [] => [[c]] | w :: ws => (c :: w) :: ws end
  end.

(** The match of four runs of digits; [$] allows a newline at the end. *)
Definition dotted_quad (s : pystr) : option (Z * Z) :=
  let s := if bool_decide (last s = Some 10) then take (length s - 1) s else s in
  match map number (split_dots s) with
  | [Some a; Some b; Some _; Some _] => Some (a, b)
  | _ => None
  end.

Definition private_quad (a b : Z) : bool :=
  (a =? 127) || (a =? 10) || ((a =? 172) && (16 <=? b) && (b <=? 31)) || ((a =? 192) && (b =? 168))
  || ((a =? 169) && (b =? 254)) || (a =? 0).

(** [is_private_ip]; each level below removes a prefix of seven characters. *)
Fixpoint private_ip (fuel : nat) (hostname : pystr) : bool :=
  let normalized := map lower_char (strip (fun c => (c =? 91) || (c =? 93)) hostname) in
  if bool_decide (normalized ∈ [u "localhost"; u "127.0.0.1"; u "::1"]) then true
  else if starts_with (u "fe80:") normalized then true
  else if bool_decide (take 2 normalized ∈ [u "fc"; u "fd"]) then true
  else if starts_with (u "::ffff:") normalized then
    match fuel with O => false | S fuel => private_ip fuel (drop 7 normalized) end
  else match dotted_quad normalized with Some (a, b) => private_quad a b | None => false end.

Definition is_private_ip (hostname : pystr) : bool := private_ip (length hostname) hostname.

Definition ALLOWED_HOSTS : list pystr := [u "api.cachekit.io"; u "api.staging.cachekit.io"].

Record url := mkUrl { url_text : pystr; url_scheme : pystr; url_hostname : option pystr }.

Record CachekitIOBackendConfig := mkConfig {
  api_url : url;
  api_key : pystr;
  timeout : float;
  max_retries : Z;
  connection_pool_size : Z;
  allow_custom_host : bool
}.

(** [parsed.hostname or ""] *)
Definition host (v : url) : pystr := default [] (url_hostname v).

Definition validate_api_url (v : url) : result exn unit :=
  if bool_decide (url_scheme v <> u "https") then Err (PyExn ValueError)
  else if is_private_ip (host v) then Err (PyExn ValueError) else Ok tt.

Definition allowed_host (hostname : pystr) : bool :=
  existsb (fun allowed => bool_decide (hostname = allowed) || ends_with (46 :: allowed) hostname) ALLOWED_HOSTS.

Definition validate_hostname_allowlist (c : CachekitIOBackendConfig) : result exn unit :=
  if allow_custom_host c then Ok tt
  else if allowed_host (host (api_url c)) then Ok tt else Err (PyExn ValueError).

(** The [Field] bounds, the validator of the URL, [model_post_init]. *)
Definition construct (c : CachekitIOBackendConfig) : result exn CachekitIOBackendConfig :=
  if fgtZ (timeout c) 0 && (0 <=? max_retries c) && (0 <? connection_pool_size c) then
    _ <-! validate_api_url (api_url c) ;
    _ <-! validate_hostname_allowlist c ;
    Ok c
  else Err (PyExn ValueError).

End Config.

(** ** Clients ([client.py]) *)

(** What a client is made with. *)
Record http_client := mkHttp { base_url : url; authorization : pystr; client_timeout : float; max_connections : Z }.

Definition new_client (c : CachekitIOBackendConfig) : http_client :=
  mkHttp (api_url c) (u "Bearer " ++ api_key c) (timeout c) (connection_pool_size c).

(** The thread's clients. *)
Record thread_local := mkThread { async_client : option http_client; sync_client : option http_client }.

Definition get_cached_async_http_client (config : CachekitIOBackendConfig) : eff thread_local http_client := fun s =>
  match async_client s with
  | Some c => (Ok c, s)
  | None => (Ok (new_client config), mkThread (Some (new_client config)) (sync_client s))
  end.

Definition get_sync_http_client (config : CachekitIOBackendConfig) : eff thread_local http_client := fun s =>
  match sync_client s with
  | Some c => (Ok c, s)
  | None => (Ok (new_client config), mkThread (async_client s) (Some (new_client config)))
  end.

Definition close_async_client : eff thread_local unit := modify (fun s => mkThread None (sync_client s)).
Definition close_sync_client : eff thread_local unit := modify (fun s => mkThread (async_client s) None).
Definition reset_global_client : eff thread_local unit := modify (fun _ => mkThread None None).

(** ** The backend ([backend.py]) *)

Record CachekitIOBackend := mkBackend {
  _config : CachekitIOBackendConfig;
  _sync_client : http_client;
  _async_client : http_client
}.

(** [5.0] *)
Definition default_timeout : float := fofZ 5.

Section Init.
Context (unicode_digit : Z -> option Z).

(** [from_env] is what the environment gives, [manual] the configuration of the
    three values, with the environment's for the others. *)
Definition init (from_env : result exn CachekitIOBackendConfig)
    (manual : url -> pystr -> float -> CachekitIOBackendConfig)
    (api_url : option url) (api_key : option pystr) (timeout : option float) : eff thread_local CachekitIOBackend :=
  config <~ lift
    (match api_url, api_key, timeout with
     | None, None, None => from_env
     | Some url, Some key, _ =>
         let t := match timeout with Some (S754_zero _) | None => default_timeout | Some t => t end in
         construct unicode_digit (manual url key t)
     | _, _, _ => Err (PyExn ValueError)
     end) ;;
  sync <~ get_sync_http_client config ;;
  async <~ get_cached_async_http_client config ;;
  ret (mkBackend config sync async).

Definition with_timeout (from_env : result exn CachekitIOBackendConfig)
    (manual : url -> pystr -> float -> CachekitIOBackendConfig) (b : CachekitIOBackend) (timeout : float)
  : eff thread_local CachekitIOBackend :=
  init from_env manual (Some (api_url (_config b))) (Some (api_key (_config b))) (Some timeout).
End Init.

(** ** Requests *)

(** A response: its status, its body, [X-CacheKit-Freshness], and what [json()]
    makes of the body. *)
Record response := mkResponse {
  status : Z;
  content : pybytes;
  freshness : option pystr;
  json : result py_exn jval
}.

Definition headers := list (pystr * pystr).
Definition merged (h over : headers) : headers := foldl (fun acc kv => od_set kv.1 kv.2 acc) h over.

Inductive method := GET | HEAD | PUT | DELETE | POST | PATCH.

(** [method.lower()] *)
Definition method_name (m : method) : pystr :=
  match m with
  | GET => u "get" | HEAD => u "head" | PUT => u "put" | DELETE => u "delete" | POST => u "post" | PATCH => u "patch"
  end.

Section Backend.
Context {X W : Type}.
Context (isa : X -> http_class -> bool) (text : failure X -> pystr).
(** [client.request], the statuses [raise_for_status] raises [HTTPStatusError] for,
    and that exception; the metrics headers of the calling function. *)
Context (send : http_client -> method -> pystr -> headers -> pybytes -> client X W response).
Context (raises_for : Z -> bool) (status_error : response -> X) (metrics : W -> headers).

(** A [BackendError] with the status of the [HTTPStatusError] it wraps, if any. *)
Definition http (A : Type) : Type := W -> result (BackendError * option Z) A * W.

(** [_request_sync], and [_request_async] around its [await]; [c] is the client of
    the one or the other. *)
Definition _request (c : http_client) (m : method) (endpoint : pystr) (h : headers) (body : pybytes) : http response :=
  fun w =>
  match send c m (u "/v1/cache/" ++ endpoint) (merged h (metrics w)) body w with
  | (Ok r, w') =>
      if raises_for (status r)
      then (Err (classify_http_error isa text (Foreign (status_error r)) (Some (status r)) (Some (method_name m)) None,
                 Some (status r)), w')
      else (Ok r, w')
  | (Err f, w') => (Err (classify_http_error isa text f None (Some (method_name m)) None, None), w')
  end.

(** [except BackendError]: 404 is an answer, [found] makes one of a response. *)
Definition unless_404 {A} (missing : A) (found : response -> A) (m : http response) : eff W A := fun w =>
  match m w with
  | (Ok r, w') => (Ok (found r), w')
  | (Err (_, Some 404), w') => (Ok missing, w')
  | (Err (e, _), w') => (Err (BackendExn e), w')
  end.

Section Methods.
(** The client of the synchronous or of the asynchronous methods. *)
Context (c : http_client).

Definition get (key : pystr) : eff W (option pybytes) :=
  unless_404 None (fun r => Some (content r)) (_request c GET key [] []).

(** An unknown label is stale, a missing one fresh. *)
Definition _is_stale (r : response) : bool :=
  match freshness r with None => false | Some v => negb (bool_decide (v = u "fresh")) end.

Definition get_with_freshness (key : pystr) : eff W (option (pybytes * bool)) :=
  unless_404 None (fun r => Some (content r, _is_stale r)) (_request c GET key [] []).

Definition _set_headers (ttl stale_ttl : option Z) : headers :=
  match ttl with
  | None => []
  | Some t =>
      [(u "X-CacheKit-TTL", decimal t); (u "X-TTL", decimal t)] ++
      match stale_ttl with
      | Some s => if 0 <? s then [(u "X-CacheKit-Stale-TTL", decimal s)] else []
      | None => []
      end
  end.

Definition raise_backend {A} (m : http A) : eff W A := fun w =>
  match m w with (Ok a, w') => (Ok a, w') | (Err (e, _), w') => (Err (BackendExn e), w') end.

Definition set (key : pystr) (value : pybytes) (ttl stale_ttl : option Z) : eff W unit :=
  _ <~ raise_backend (_request c PUT key (_set_headers ttl stale_ttl) value) ;; ret tt.

Definition delete (key : pystr) : eff W bool := unless_404 false (fun _ => true) (_request c DELETE key [] []).

Definition exists_ (key : pystr) : eff W bool := unless_404 false (fun _ => true) (_request c HEAD key [] []).

(** ** TTL *)

(** [data.get(name)]; what is not an object has no [get]. *)
Definition field (name : pystr) (data : jval) : result exn jval :=
  match data with JObj l => Ok (default JNull (od_get name (rev l))) | _ => Err AttributeError end.

Definition get_ttl (key : pystr) : eff W jval := fun w =>
  match _request c GET (key ++ u "/ttl") [] [] w with
  | (Ok r, w') => (data <-! py (json r) ; field (u "ttl") data, w')
  | (Err _, w') => (Ok JNull, w')
  end.

Definition json_content : headers := [(u "Content-Type", u "application/json")].

Definition refresh_ttl (key : pystr) (ttl : Z) : eff W bool := fun w =>
  match _request c PATCH (key ++ u "/ttl") json_content ([123; 34] ++ u "ttl" ++ [34; 58; 32] ++ decimal ttl ++ [125]) w with
  | (Ok _, w') => (Ok true, w')
  | (Err _, w') => (Ok false, w')
  end.

(** ** The lock *)

(** [max(1, int(timeout * 1000))] of a finite timeout. *)
Definition timeout_ms (timeout : float) : result exn Z :=
  if isfinite timeout then n <-! py (ftrunc (fmul timeout (fofZ 1000))) ; Ok (Z.max 1 n) else Ok 1.

(** What the body of an answer holds under [lock_id], if it is a text. *)
Definition lock_id_of (r : result py_exn jval) : result exn (option pystr) :=
  match r with
  | Ok (JObj l) => Ok (match od_get (u "lock_id") (rev l) with Some (JStr s) => Some s | _ => None end)
  | Ok _ => Ok None
  | Err e => if is_value_error (PyExn e) then Ok None else Err (PyExn e)
  end.

Definition unrecoverable (t : BackendErrorType) : bool := bool_decide (t = AUTHENTICATION \/ t = PERMANENT).

Definition lock_body (ms : Z) : pybytes := [123; 34] ++ u "timeout_ms" ++ [34; 58; 32] ++ decimal ms ++ [125].

Definition _try_acquire_lock (lock_key : pystr) (timeout : float) : eff W (option pystr) :=
  ms <~ lift (timeout_ms timeout) ;;
  encoded_key <~ lift (py (quote lock_key)) ;;
  fun w =>
  match _request c POST (encoded_key ++ u "/lock") json_content (lock_body ms) w with
  | (Ok r, w') => (lock_id_of (json r), w')
  | (Err (e, _), w') => (if unrecoverable (error_type e) then Err (BackendExn e) else Ok None, w')
  end.

(** Best effort. *)
Definition _release_lock (lock_key lock_id : pystr) : eff W bool :=
  encoded_key <~ lift (py (quote lock_key)) ;;
  fun w =>
  match _request c DELETE (encoded_key ++ u "/lock") [(u "X-CacheKit-Lock-Id", lock_id)] [] w with
  | (Ok _, w') => (Ok true, w')
  | (Err _, w') => (Ok false, w')
  end.

(** The outside, the readings of [time.monotonic] so far, and the sleeps, last first. *)
Record waiting := mkWaiting { outside : W; readings : nat; sleeps : list float }.

(** The n-th reading, and [random.random()] after it. *)
Context (clock random : nat -> float).

Definition on_outside {A} (m : eff W A) : eff waiting A := fun s =>
  let (r, w) := m (outside s) in (r, mkWaiting w (readings s) (sleeps s)).
Definition monotonic : eff waiting float := fun s =>
  (Ok (clock (readings s)), mkWaiting (outside s) (S (readings s)) (sleeps s)).
Definition sleep (t : float) : eff waiting unit := modify (fun s => mkWaiting (outside s) (readings s) (t :: sleeps s)).

(** [min(a, b)] *)
Definition fmin (a b : float) : float := if flt b a then b else a.

(** 0.5 and 0.05 *)
Definition half : float := S754_finite false 4503599627370496 (-53).
Definition first_delay : float := S754_finite false 7205759403792794 (-57).

(** The polling loop; [None] when the fuel is spent. *)
Fixpoint poll (fuel : nat) (key : pystr) (timeout deadline delay : float) : eff waiting (option (option pystr)) :=
  match fuel with
  | O => ret None
  | S fuel =>
      now <~ monotonic ;;
      let remaining := fsub deadline now in
      if fleZ remaining 0 then ret (Some None)
      else
        n <~ gets readings ;;
        let jitter := fadd half (fmul (random n) half) in
        _ <~ sleep (fmul (fmin delay remaining) jitter) ;;
        lock_id <~ on_outside (_try_acquire_lock key timeout) ;;
        match lock_id with
        | Some _ => ret (Some lock_id)
        | None => poll fuel key timeout deadline (fmin (fmul delay (fofZ 2)) half)
        end
  end.

(** One attempt, then the polls of a blocking acquisition. *)
Definition acquire (fuel : nat) (key : pystr) (timeout : float) (blocking_timeout : option float)
  : eff waiting (option (option pystr)) :=
  lock_id <~ on_outside (_try_acquire_lock key timeout) ;;
  match lock_id, blocking_timeout with
  | None, Some b =>
      now <~ monotonic ;;
      poll fuel key timeout (fadd now b) first_delay
  | _, _ => ret (Some lock_id)
  end.

(** [async with acquire_lock(...) as acquired: body(acquired)] *)
Definition acquire_lock {A} (fuel : nat) (key : pystr) (timeout : float) (blocking_timeout : option float)
    (body : bool -> eff waiting A) : eff waiting (option A) :=
  r <~ acquire fuel key timeout blocking_timeout ;;
  match r with
  | None => ret None
  | Some lock_id =>
      finally (a <~ body (bool_decide (is_Some lock_id)) ;; ret (Some a))
        (match lock_id with
         | Some i => _ <~ on_outside (_release_lock key i) ;; ret tt
         | None => ret tt
         end)
  end.
End Methods.

(** The asynchronous methods are the synchronous ones over the other client. *)
Definition get_async (b : CachekitIOBackend) : pystr -> eff W (option pybytes) := get (_async_client b).
Definition set_async (b : CachekitIOBackend) : pystr -> pybytes -> option Z -> option Z -> eff W unit := set (_async_client b).
Definition delete_async (b : CachekitIOBackend) : pystr -> eff W bool := delete (_async_client b).
Definition exists_async (b : CachekitIOBackend) : pystr -> eff W bool := exists_ (_async_client b).
End Backend.
