(* ===== verification/CachekitIOProps.v ===== *)
(** The cachekit.io backend: whom the API key is sent to, which client serves a
    backend, what a polling acquisition does and how long, what the lock leaves
    behind, and the keys a URL does not keep apart. *)
From Stdlib Require Import ZArith Lia SpecFloat.
From stdpp Require Import base list numbers option strings gmap relations.
From S2P Require Import Prelude PyFloat Bytes Json Tenant Errors Effects RemoteErrors CachekitIO.

Local Open Scope Z_scope.

(** ** Hosts *)

(** The decimal digits of other scripts are not ASCII. *)
Class OtherScripts (unicode_digit : Z -> option Z) : Prop :=
  other_scripts c : c < 128 -> unicode_digit c = None.

Section Hosts.
Context (unicode_digit : Z -> option Z) `{OtherScripts unicode_digit}.
Local Abbreviation number := (number unicode_digit).
Local Abbreviation dotted_quad := (dotted_quad unicode_digit).
Local Abbreviation is_private_ip := (is_private_ip unicode_digit).

(** The characters of a number. *)
Definition digit (c : Z) : Prop := 48 <= c <= 57 \/ 128 <= c.

Lemma digit_value_digit c d : digit_value unicode_digit c = Some d -> digit c.
Proof.
  unfold digit_value, digit. destruct ((48 <=? c) && (c <=? 57)) eqn:E; zbool; [lia|].
  intros Hd. destruct (decide (c < 128)) as [Hc|Hc]; [by rewrite other_scripts in Hd|lia].
Qed.

(** Once a character is no digit there is no number. *)
Lemma number_from s : forall a n,
  foldl (fun a c => match a, digit_value unicode_digit c with Some a, Some d => Some (a * 10 + d) | _, _ => None end) a s
    = Some n -> is_Some a /\ Forall digit s.
Proof.
  induction s as [|c s IH]; cbn; intros a n E; [by rewrite E|].
  apply IH in E as [[b E] F]. destruct a as [a|]; [|done]. destruct (digit_value unicode_digit c) eqn:Ec; [|done].
  split; [done|]. constructor; [by eapply digit_value_digit|done].
Qed.

Lemma number_digits s n : number s = Some n -> s <> [] /\ Forall digit s.
Proof. destruct s as [|c s]; [done|]. intros E. by apply number_from in E as [_ F]. Qed.

(** A text without dots, and one that starts with such a text. *)
Lemma split_dots_one s : Forall digit s -> split_dots s = [s].
Proof. induction 1 as [|c s Hc _ IH]; [done|]. cbn. unfold digit in Hc. destruct (c =? 46) eqn:E; zbool; [lia|by rewrite IH]. Qed.

Lemma split_dots_cons s r : Forall digit s -> split_dots (s ++ 46 :: r) = s :: split_dots r.
Proof.
  induction 1 as [|c s Hc _ IH]; [done|]. cbn [app split_dots]. unfold digit in Hc.
  destruct (c =? 46) eqn:E; zbool; [lia|]. by rewrite IH.
Qed.

(** The text of an address, of four runs of digits. *)
Definition quad (da db dc dd : pystr) : pystr := da ++ 46 :: db ++ 46 :: dc ++ 46 :: dd.

(** What a run of digits and dots is not changed by. *)
Definition plain (s : pystr) : Prop := Forall (fun c => digit c \/ c = 46) s.

Lemma quad_plain da db dc dd : Forall digit da -> Forall digit db -> Forall digit dc -> Forall digit dd ->
  plain (quad da db dc dd).
Proof.
  intros Ha Hb Hc Hd. unfold plain, quad.
  repeat (apply list.Forall_app; split; [eapply list.Forall_impl; [eassumption|by left]|]; constructor; [by right|]).
  eapply list.Forall_impl; [eassumption|by left].
Qed.

Lemma plain_unchanged s : plain s -> map lower_char (strip (fun c => (c =? 91) || (c =? 93)) s) = s.
Proof.
  intros Hs. rewrite strip_none.
  - induction Hs as [|c s Hc _ IH]; [done|]. cbn. rewrite IH. f_equal. unfold lower_char.
    destruct ((65 <=? c) && (c <=? 90)) eqn:E; [|done]. zbool. unfold digit in Hc. lia.
  - eapply list.Forall_impl; [exact Hs|]. cbn. intros c Hc. apply orb_false_iff. rewrite !Z.eqb_neq. unfold digit in Hc. lia.
Qed.

Lemma quad_parsed da db dc dd a b c d :
  number da = Some a -> number db = Some b -> number dc = Some c -> number dd = Some d ->
  dotted_quad (quad da db dc dd) = Some (a, b).
Proof.
  intros Ea Eb Ec Ed. destruct (number_digits _ _ Ea) as [_ Fa], (number_digits _ _ Eb) as [_ Fb],
    (number_digits _ _ Ec) as [_ Fc], (number_digits _ _ Ed) as [Nd Fd].
  unfold dotted_quad. rewrite bool_decide_eq_false_2.
  - unfold quad. by rewrite !split_dots_cons, split_dots_one, !map_cons, Ea, Eb, Ec, Ed by done.
  - intros L. destruct (exists_last Nd) as (s & x & ->). unfold quad in L.
    rewrite !app_comm_cons, !app_assoc, last_snoc in L. injection L as ->.
    apply list.Forall_app in Fd as [_ Fd]. apply Forall_cons_1 in Fd as [Fd _]. unfold digit in Fd. lia.
Qed.

(** Every private address in decimal is refused, whatever zeros it is written with. *)
Lemma quad_private da db dc dd a b c d :
  number da = Some a -> number db = Some b -> number dc = Some c -> number dd = Some d ->
  private_quad a b = true -> is_private_ip (quad da db dc dd) = true.
Proof.
  intros Ea Eb Ec Ed P. destruct (number_digits _ _ Ea) as [Na Fa], (number_digits _ _ Eb) as [_ Fb],
    (number_digits _ _ Ec) as [_ Fc], (number_digits _ _ Ed) as [_ Fd].
  unfold is_private_ip. destruct (length (quad da db dc dd)) eqn:L; unfold private_ip; fold (private_ip unicode_digit).
  all: rewrite plain_unchanged by (by apply quad_plain).
  all: repeat (case_match; [done|]).
  all: rewrite quad_parsed with (a := a) (b := b) (c := c) (d := d) by done.
  all: assert (starts_with (u "::ffff:") (quad da db dc dd) = false) as ->; [|by rewrite P].
  all: unfold starts_with; apply bool_decide_eq_false_2; intros K; destruct Fa as [|x da Hx Fa]; [done|];
    cbn in K; injection K as K _; unfold digit in Hx; vm_compute in K; lia.
Qed.
End Hosts.

(** ** Clients *)

Section Clients.
Context (unicode_digit : Z -> option Z) `{OtherScripts unicode_digit}.

(** What accepted configurations are like: over TLS, to no private address, and
    unless other hosts are allowed to a host of cachekit.io or one below it. *)
Definition known_host (h : pystr) : Prop :=
  exists allowed, allowed ∈ ALLOWED_HOSTS /\ (h = allowed \/ exists below, h = below ++ 46 :: allowed).

Definition private_address (h : pystr) : Prop :=
  h = u "localhost" \/ h = u "::1" \/
  exists da db dc dd a b c d,
    h = quad da db dc dd /\ private_quad a b = true /\
    number unicode_digit da = Some a /\ number unicode_digit db = Some b /\
    number unicode_digit dc = Some c /\ number unicode_digit dd = Some d.

Lemma private_address_refused h : private_address h -> is_private_ip unicode_digit h = true.
Proof.
  intros [->|[->|(da & db & dc & dd & a & b & c & d & -> & P & Ea & Eb & Ec & Ed)]]; [done..|].
  by eapply quad_private.
Qed.

Lemma allowed_host_known h : allowed_host h = true -> known_host h.
Proof.
  unfold allowed_host. intros E. apply existsb_exists in E as (a & Ha & E). exists a. split; [by apply list_elem_of_In|].
  apply orb_true_iff in E as [E|E]; [left; by apply bool_decide_eq_true in E|right].
  unfold ends_with in E. apply andb_true_iff in E as [_ E]. apply bool_decide_eq_true in E.
  exists (take (length h - length (46 :: a)) h). rewrite <- E at 2. by rewrite take_drop.
Qed.

Lemma construct_spec c c' : construct unicode_digit c = Ok c' ->
  c' = c /\ url_scheme (api_url c) = u "https" /\ is_private_ip unicode_digit (host (api_url c)) = false /\
  (allow_custom_host c = false -> known_host (host (api_url c))).
Proof.
  unfold construct. intros E. case_match; [|done].
  apply rbind_ok in E as ([] & E1 & E). apply rbind_ok in E as ([] & E2 & [= <-]). split; [done|].
  unfold validate_api_url in E1. unfold validate_hostname_allowlist in E2.
  destruct (bool_decide (url_scheme _ <> _)) eqn:S; [done|]. destruct (is_private_ip _ _) eqn:P; [done|].
  split_and!; [by apply bool_decide_eq_false, dec_stable in S|done|].
  intros Hc. rewrite Hc in E2. apply allowed_host_known. by destruct (allowed_host _).
Qed.

(** What a thread does: a backend is made or a client dropped.  The environment
    gives accepted configurations. *)
Inductive thread_step : thread_local -> thread_local -> Prop :=
  | makes_backend from_env manual url key timeout s :
      (forall c, from_env = Ok c -> construct unicode_digit c = Ok c) ->
      thread_step s (init unicode_digit from_env manual url key timeout s).2
  | closes_async s : thread_step s (close_async_client s).2
  | closes_sync s : thread_step s (close_sync_client s).2
  | resets s : thread_step s (reset_global_client s).2.

(** The clients of a thread. *)
Definition has_client (s : thread_local) (c : http_client) : Prop := async_client s = Some c \/ sync_client s = Some c.

Definition made_by_accepted (c : http_client) : Prop :=
  exists cfg, construct unicode_digit cfg = Ok cfg /\ c = new_client cfg.

(** A backend's configuration was accepted, and its clients are those the thread
    had, or new ones of this configuration. *)
Lemma init_spec from_env manual url key timeout s b s' :
  (forall c, from_env = Ok c -> construct unicode_digit c = Ok c) ->
  init unicode_digit from_env manual url key timeout s = (Ok b, s') ->
  construct unicode_digit (_config b) = Ok (_config b) /\
  _sync_client b = default (new_client (_config b)) (sync_client s) /\
  _async_client b = default (new_client (_config b)) (async_client s) /\
  s' = mkThread (Some (_async_client b)) (Some (_sync_client b)).
Proof.
  intros He E. unfold init in E. apply andthen_ok in E as (cfg & s1 & E1 & E). apply lift_ok in E1 as [E1 ->].
  assert (C : construct unicode_digit cfg = Ok cfg).
  { repeat case_match; try done; try (by apply He). all: by destruct (construct_spec _ _ E1) as (-> & _). }
  clear E1. unfold andthen, get_sync_http_client, get_cached_async_http_client in E.
  destruct s as [[a|] [y|]]; injection E as <- <-; cbn; done.
Qed.

(** A failed construction leaves the thread alone. *)
Lemma init_failed from_env manual url key timeout s x s' :
  init unicode_digit from_env manual url key timeout s = (Err x, s') -> s' = s.
Proof.
  intros E. unfold init in E. set (cfg := match url with Some _ => _ | None => _ end) in E. clearbody cfg.
  destruct cfg as [cfg|]; unfold andthen, lift in E; [|congruence].
  unfold get_sync_http_client, get_cached_async_http_client in E. by destruct s as [[a|] [y|]].
Qed.

Lemma thread_step_keeps s s' : thread_step s s' ->
  (forall c, has_client s c -> made_by_accepted c) -> forall c, has_client s' c -> made_by_accepted c.
Proof.
  intros [from_env manual url key timeout s0 He|s0|s0|s0] I c Hc; [|unfold has_client in *; cbn in Hc; naive_solver..].
  destruct (init unicode_digit from_env manual url key timeout s0) as [[b|x] s1] eqn:E; cbn in Hc.
  - apply init_spec in E as (C & Es & Ea & ->); [|done]. destruct Hc as [[= <-]|[= <-]]; [rewrite Ea|rewrite Es].
    + destruct (async_client s0) eqn:D; [apply I; by left|by exists (_config b)].
    + destruct (sync_client s0) eqn:D; [apply I; by right|by exists (_config b)].
  - apply init_failed in E as ->. by apply I.
Qed.

(** Whatever backends a thread makes, from the environment or by hand, with
    whatever overrides, and whatever clients it closes: each client it holds, which
    is what every request and the API key go through, was made for a configuration
    that speaks TLS to a host that is no loopback, private or link-local address,
    however it is written in decimal, and that, unless that configuration allows
    other hosts, is one of cachekit.io's or below one. *)
Theorem clients_confined s c : rtc thread_step (mkThread None None) s -> has_client s c ->
  exists cfg, construct unicode_digit cfg = Ok cfg /\ c = new_client cfg /\
    authorization c = u "Bearer " ++ api_key cfg /\
    url_scheme (base_url c) = u "https" /\ ~ private_address (host (base_url c)) /\
    (allow_custom_host cfg = false -> known_host (host (base_url c))).
Proof.
  intros R. assert (I : forall c, has_client s c -> made_by_accepted c).
  { revert R. apply (rtc_ind_r (fun s => forall c, has_client s c -> made_by_accepted c)).
    - by intros c0 [|].
    - intros s1 s2 _ Hs IH. by eapply thread_step_keeps. }
  intros Hc. destruct (I c Hc) as (cfg & C & ->). exists cfg. destruct (construct_spec _ _ C) as (_ & S & P & K).
  split_and!; [done..| |done]. cbn. intros Hp%private_address_refused. by rewrite P in Hp.
Qed.

(** The clients are the thread's, not the backend's: once a thread has made a
    backend, every backend it makes after it, by hand with another URL and API key,
    from the environment, or by [with_timeout], sends its requests through the
    clients of the first, so to the first URL, with the first API key and the first
    timeout, whatever its own configuration says. *)
Theorem one_client_per_thread from_env manual url key timeout s b s1 from_env' manual' url' key' timeout' b' s2 :
  (forall c, from_env = Ok c -> construct unicode_digit c = Ok c) ->
  (forall c, from_env' = Ok c -> construct unicode_digit c = Ok c) ->
  init unicode_digit from_env manual url key timeout s = (Ok b, s1) ->
  init unicode_digit from_env' manual' url' key' timeout' s1 = (Ok b', s2)
    \/ (exists t, with_timeout unicode_digit from_env' manual' b t s1 = (Ok b', s2)) ->
  construct unicode_digit (_config b') = Ok (_config b') /\
  _sync_client b' = _sync_client b /\ _async_client b' = _async_client b /\ s2 = s1.
Proof.
  intros He He' E E'. apply init_spec in E as (_ & _ & _ & ->); [|done].
  destruct E' as [E'|[t E']]; apply init_spec in E' as (C & Es & Ea & ->); try done; cbn in Es, Ea; by rewrite Es, Ea.
Qed.
End Clients.

(** Configurations of both kinds of host, and the threads that make them. *)
Module Hosts.
Definition no_digit (_ : Z) : option Z := None.
#[export] Instance no_digit_ok : OtherScripts no_digit.
Proof. by intros c. Qed.

Definition url_of (host : string) : url := mkUrl (u "https://" ++ u host) (u "https") (Some (u host)).
Definition config (v : url) (key : pystr) (t : float) : CachekitIOBackendConfig := mkConfig v key t 3 10 false.
Definition no_env : result exn CachekitIOBackendConfig := Err (PyExn ValueError).
Definition main := url_of "api.cachekit.io".
Definition staging := url_of "eu.api.staging.cachekit.io".

Definition make (v : url) (key : pystr) := init no_digit no_env config (Some v) (Some key) None.
Definition fresh := mkThread None None.

(** What the checks refuse. *)
Example refused_hosts :
  map (fun h => is_private_ip no_digit (u h))
    ["localhost"; "[::1]"; "10.0.0.8"; "172.16.9.1"; "172.32.0.1"; "192.168.1.1"; "169.254.169.254"; "0.0.0.0";
     "::ffff:::ffff:127.1.2.3"; "FE80::1"; "fd00::1"; "8.8.8.8"; "2130706433"; "fcbarcelona.example"]%string
  = [true; true; true; true; false; true; true; true; true; true; true; false; false; true].
Proof. vm_compute. reflexivity. Qed.

Lemma clients_confined_witness :
  exists cfg, construct no_digit cfg = Ok cfg /\ new_client (config staging (u "ck_1") default_timeout) = new_client cfg /\
    authorization (new_client (config staging (u "ck_1") default_timeout)) = u "Bearer " ++ api_key cfg /\
    url_scheme (base_url (new_client (config staging (u "ck_1") default_timeout))) = u "https" /\
    ~ private_address no_digit (host (base_url (new_client (config staging (u "ck_1") default_timeout)))) /\
    (allow_custom_host cfg = false ->
     known_host (host (base_url (new_client (config staging (u "ck_1") default_timeout))))).
Proof.
  apply (clients_confined no_digit (make staging (u "ck_1") fresh).2).
  - apply rtc_once. unfold make. by apply makes_backend.
  - left. vm_compute. reflexivity.
Defined.

(** A second API key that is never sent. *)
Lemma one_client_per_thread_witness : exists b b' s,
  make main (u "ck_1") fresh = (Ok b, s) /\ make staging (u "ck_2") s = (Ok b', s) /\
  api_key (_config b') = u "ck_2" /\ _sync_client b' = _sync_client b /\
  authorization (_sync_client b') = u "Bearer ck_1" /\ base_url (_sync_client b') = main.
Proof.
  eexists _, _, _. split; [unfold make; vm_compute; reflexivity|]. split; [vm_compute; reflexivity|].
  split; [vm_compute; reflexivity|]. split; [|split; vm_compute; reflexivity].
  refine (proj1 (proj2 (one_client_per_thread no_digit no_env config (Some main) (Some (u "ck_1")) None fresh
    _ _ no_env config (Some staging) (Some (u "ck_2")) None _ _ _ _ _ (or_introl _)))); try done; vm_compute; reflexivity.
Defined.
End Hosts.

(** ** The lock *)

Section Locks.
Context {X W : Type} (isa : X -> http_class -> bool) (text : failure X -> pystr).
Context (send : http_client -> method -> pystr -> headers -> pybytes -> client X W response).
Context (raises_for : Z -> bool) (status_error : response -> X) (metrics : W -> headers).
Context (c : http_client) (clock random : nat -> float).
Local Abbreviation request := (_request isa text send raises_for status_error metrics c).
Local Abbreviation try_acquire := (_try_acquire_lock isa text send raises_for status_error metrics c).
Local Abbreviation release := (_release_lock isa text send raises_for status_error metrics c).
Local Abbreviation poll := (poll isa text send raises_for status_error metrics c clock random).
Local Abbreviation acquire := (acquire isa text send raises_for status_error metrics c clock random).
Local Abbreviation acquire_lock := (acquire_lock isa text send raises_for status_error metrics c clock random).

(** *** The wait *)

(** One attempt reads no clock and does not sleep. *)
Lemma on_outside_keeps {A} (m : eff W A) s r s' : on_outside m s = (r, s') -> readings s' = readings s /\ sleeps s' = sleeps s.
Proof. unfold on_outside. destruct (m (outside s)) as [r0 w]. by intros [= <- <-]. Qed.

(** Once the clock has passed the deadline by its n-th reading from now, the loop
    has ended, after n sleeps at most, and fuel for n + 1 rounds changes nothing. *)
Lemma poll_ends key timeout deadline : forall n delay s,
  fleZ (fsub deadline (clock (readings s + n))) 0 = true ->
  exists r s', (forall fuel, (n < fuel)%nat -> poll fuel key timeout deadline delay s = (r, s')) /\
    r <> Ok None /\ (length (sleeps s') <= length (sleeps s) + n)%nat.
Proof.
  intros n. induction n as [n IH] using lt_wf_ind. intros delay s D.
  destruct (fleZ (fsub deadline (clock (readings s))) 0) eqn:E0.
  { exists (Ok (Some None)), (mkWaiting (outside s) (S (readings s)) (sleeps s)). split_and!; [|done|cbn; lia].
    intros [|fuel] Hf; [lia|]. cbn [CachekitIO.poll]. unfold andthen, monotonic. by rewrite E0. }
  destruct n as [|n]; [by rewrite Nat.add_0_r, E0 in D|].
  set (s1 := mkWaiting (outside s) (S (readings s))
    (fmul (fmin delay (fsub deadline (clock (readings s)))) (fadd half (fmul (random (S (readings s))) half)) :: sleeps s)).
  assert (Step : forall fuel, poll (S fuel) key timeout deadline delay s =
    (lock_id <~ on_outside (try_acquire key timeout) ;;
     match lock_id with
     | Some _ => ret (Some lock_id)
     | None => poll fuel key timeout deadline (fmin (fmul delay (fofZ 2)) half)
     end)%eff s1).
  { intros fuel. cbn [CachekitIO.poll]. unfold andthen at 1, monotonic. by rewrite E0. }
  destruct (on_outside (try_acquire key timeout) s1) as [[[i|]|x] s2] eqn:E; destruct (on_outside_keeps _ _ _ _ E) as [R Sl].
  1,3: eexists _, s2; split_and!; [intros [|fuel] Hf; [lia|]; rewrite Step; unfold andthen; rewrite E; reflexivity|done|
    rewrite Sl; cbn; lia].
  destruct (IH n ltac:(lia) (fmin (fmul delay (fofZ 2)) half) s2) as (r & s' & F & Hr & L).
  { rewrite R. cbn. by replace (S (readings s + n)) with (readings s + S n)%nat by lia. }
  exists r, s'. split_and!; [|done|rewrite Sl in L; cbn in L; lia].
  intros [|fuel] Hf; [lia|]. rewrite Step. unfold andthen. rewrite E. apply F. lia.
Qed.

(** The readings a blocking acquisition takes: one for its deadline, then one a round. *)
Lemma acquire_ends key timeout b n s :
  fleZ (fsub (fadd (clock (readings s)) b) (clock (S (readings s) + n))) 0 = true ->
  exists r s', (forall fuel, (n < fuel)%nat -> acquire fuel key timeout (Some b) s = (r, s')) /\
    r <> Ok None /\ (length (sleeps s') <= length (sleeps s) + n)%nat.
Proof.
  intros D. unfold CachekitIO.acquire.
  destruct (on_outside (try_acquire key timeout) s) as [[[i|]|x] s1] eqn:E; destruct (on_outside_keeps _ _ _ _ E) as [R Sl].
  1,3: eexists _, s1; split_and!; [intros fuel _; unfold andthen; rewrite E; reflexivity|done|rewrite Sl; lia].
  destruct (poll_ends key timeout (fadd (clock (readings s)) b) n first_delay (mkWaiting (outside s1) (S (readings s1)) (sleeps s1)))
    as (r & s' & F & Hr & L); [by cbn [readings]; rewrite R|].
  exists r, s'. split_and!; [|done|cbn in L; by rewrite Sl in L].
  intros fuel Hf. unfold andthen, monotonic. rewrite E, R. specialize (F fuel Hf). by rewrite R in F.
Qed.

(** C16. A blocking acquisition ends: when the clock passes the deadline by its n-th
    reading, whatever the server answers, the loop makes at most n polls with a
    sleep each and decides, so that the body runs or an error is raised, and any
    larger number of rounds allowed gives the same outcome. *)
Theorem lock_wait_ends {A} key timeout b n (body : bool -> eff (waiting (W := W)) A) s :
  fleZ (fsub (fadd (clock (readings s)) b) (clock (S (readings s) + n))) 0 = true ->
  (exists r s', r <> Ok None /\ forall fuel, (n < fuel)%nat -> acquire_lock fuel key timeout (Some b) body s = (r, s')) /\
  (forall fuel, (n < fuel)%nat ->
    (length (sleeps (acquire fuel key timeout (Some b) s).2) <= length (sleeps s) + n)%nat).
Proof.
  intros D. destruct (acquire_ends key timeout b n s D) as (r & s' & F & Hr & L). split.
  2: { intros fuel Hf. by rewrite F. }
  destruct (acquire_lock (S n) key timeout (Some b) body s) as [r2 s2] eqn:E2. exists r2, s2. split.
  - intros ->. unfold CachekitIO.acquire_lock, andthen in E2. rewrite F in E2 by lia.
    destruct r as [[l|]|]; [|done..]. unfold finally in E2. destruct (body _ s') as [[a|x] s3], l; cbn in E2;
      repeat case_match; congruence.
  - intros fuel Hf. rewrite <- E2. unfold CachekitIO.acquire_lock, andthen. rewrite !F by lia. done.
Qed.

(** *** The release *)

(** A key that cannot be quoted never gets as far as a lock. *)
Lemma try_acquire_quotes key timeout w i w' : try_acquire key timeout w = (Ok i, w') -> exists q, quote key = Ok q.
Proof.
  intros E. unfold _try_acquire_lock in E. apply andthen_ok in E as (ms & w1 & _ & E).
  apply andthen_ok in E as (q & w2 & E & _). apply lift_ok in E as [E _].
  destruct (quote key) as [q'|]; [by exists q'|done].
Qed.

Lemma acquire_quotes fuel key timeout blocking s l s' : acquire fuel key timeout blocking s = (Ok l, s') ->
  exists q, quote key = Ok q.
Proof.
  intros E. apply andthen_ok in E as (i & s1 & E & _). unfold on_outside in E.
  destruct (try_acquire key timeout (outside s)) as [r w] eqn:D. injection E as -> _. by eapply try_acquire_quotes.
Qed.

(** The release never raises for a key that was quoted before, whatever the server says. *)
Lemma release_quiet key i q w : quote key = Ok q ->
  exists b, release key i w = (Ok b, (request DELETE (q ++ u "/lock") [(u "X-CacheKit-Lock-Id", i)] [] w).2).
Proof. intros Q. unfold _release_lock, andthen, lift. rewrite Q. cbn. destruct (request _ _ _ _ w) as [[r|[e o]] w']; by eexists. Qed.

(** C15. What the lock leaves behind: when an attempt or a poll was answered with a
    lock id, the body runs as its holder and afterwards, whether it returned or
    raised, exactly that id is released under the same key, the outcome being the
    body's own even where the release fails; a wait that ends without an id runs the
    body as one who has no lock and releases nothing; an attempt that raises runs
    no body. *)
Theorem lock_released {A} fuel key timeout blocking (body : bool -> eff (waiting (W := W)) A) s :
  let (r, s1) := acquire fuel key timeout blocking s in
  match r with
  | Ok (Some (Some i)) =>
      let (o, s2) := body true s1 in
      exists q, quote key = Ok q /\
        acquire_lock fuel key timeout blocking body s =
          (match o with Ok a => Ok (Some a) | Err x => Err x end,
           mkWaiting (request DELETE (q ++ u "/lock") [(u "X-CacheKit-Lock-Id", i)] [] (outside s2)).2
             (readings s2) (sleeps s2))
  | Ok (Some None) =>
      let (o, s2) := body false s1 in
      acquire_lock fuel key timeout blocking body s = (match o with Ok a => Ok (Some a) | Err x => Err x end, s2)
  | Ok None => acquire_lock fuel key timeout blocking body s = (Ok None, s1)
  | Err x => acquire_lock fuel key timeout blocking body s = (Err x, s1)
  end.
Proof.
  destruct (acquire fuel key timeout blocking s) as [[[[i|]|]|x] s1] eqn:E;
    unfold CachekitIO.acquire_lock, andthen, finally; rewrite E; [|by destruct (body _ s1) as [[a|x] s2]|done..].
  destruct (acquire_quotes _ _ _ _ _ _ _ E) as [q Q]. cbn -[_release_lock].
  destruct (body true s1) as [o s2] eqn:B. exists q. split; [done|].
  destruct (release_quiet key i q (outside s2) Q) as [b R].
  destruct o as [a|x]; unfold on_outside, ret; cbn -[_release_lock]; by rewrite R.
Qed.

(** *** The keys in a URL *)

(** A server that keeps what is put under a path.  A client does not send the
    fragment of a URL, what follows a [#] (RFC 3986, 3.5). *)
Class PathServer (find : W -> pystr -> option pybytes) (target : pystr -> pystr) : Prop := {
  ps_get p h w : exists r w', send c GET p h [] w = (Ok r, w') /\ (forall p', find w' p' = find w p') /\
    match find w (target p) with
    | Some b => raises_for (status r) = false /\ content r = b
    | None => raises_for (status r) = true /\ status r = 404
    end;
  ps_put p h b w : exists r w', send c PUT p h b w = (Ok r, w') /\ raises_for (status r) = false /\
    forall p', find w' p' = if decide (p' = target p) then Some b else find w p';
  ps_fragment p f : target (p ++ 35 :: f) = target p
}.

Section Keys.
Context {find : W -> pystr -> option pybytes} {target : pystr -> pystr} `{PathServer find target}.
Local Abbreviation get := (get isa text send raises_for status_error metrics c).
Local Abbreviation set := (set isa text send raises_for status_error metrics c).

(** A key as the server gets it. *)
Definition path (key : pystr) : pystr := target (u "/v1/cache/" ++ key).

Lemma get_found key w : exists w', get key w = (Ok (find w (path key)), w') /\ forall p, find w' p = find w p.
Proof.
  destruct (ps_get (u "/v1/cache/" ++ key) (merged [] (metrics w)) w) as (r & w' & E & F & G).
  exists w'. split; [|done]. unfold CachekitIO.get, unless_404, _request. rewrite E. unfold path.
  destruct (find w _) as [b|]; destruct G as [-> G]; by rewrite G.
Qed.

Lemma set_kept key v ttl stale w : exists w', set key v ttl stale w = (Ok tt, w') /\
  forall p, find w' p = if decide (p = path key) then Some v else find w p.
Proof.
  destruct (ps_put (u "/v1/cache/" ++ key) (merged (_set_headers ttl stale) (metrics w)) v w) as (r & w' & E & N & F).
  exists w'. split; [|done]. unfold CachekitIO.set, andthen, raise_backend, _request. by rewrite E, N.
Qed.

(** Keys go into the URL as they are: what is stored under a key is read back
    under it, and, since no fragment is sent, under every other key that is equal up
    to its first number sign: two such keys are one entry, and the value of the one
    is served for the other. *)
Theorem keys_share_fragments key f f' v ttl stale w :
  exists w', set (key ++ 35 :: f) v ttl stale w = (Ok tt, w') /\
    (get (key ++ 35 :: f) w').1 = Ok (Some v) /\ (get (key ++ 35 :: f') w').1 = Ok (Some v) /\ (get key w').1 = Ok (Some v).
Proof.
  destruct (set_kept (key ++ 35 :: f) v ttl stale w) as (w' & E & F). exists w'. split; [done|].
  assert (P : forall g, path (key ++ 35 :: g) = path key).
  { intros g. unfold path. by rewrite app_assoc, ps_fragment. }
  assert (G : find w' (path key) = Some v) by (by rewrite F, P, decide_True).
  split_and!; match goal with |- (get ?k w').1 = _ => destruct (get_found k w') as (w2 & -> & _) end; cbn; by rewrite ?P, G.
Qed.
End Keys.
End Locks.

(** A server that keeps values and whose lock is always held by another. *)
Module Server.
(** The text up to the first number sign. *)
Fixpoint sent (p : pystr) : pystr :=
  match p with [] => [] | x :: r => if x =? 35 then [] else x :: sent r end.

Definition store : Type := pystr -> option pybytes.
Definition answer (s : Z) (b : pybytes) : response := mkResponse s b None (Ok (JObj [])).
Definition send (_ : http_client) (m : method) (p : pystr) (_ : headers) (b : pybytes) : client response store response := fun w =>
  match m with
  | GET => match w (sent p) with Some v => (Ok (answer 200 v), w) | None => (Ok (answer 404 []), w) end
  | PUT => (Ok (answer 200 []), fun p' => if decide (p' = sent p) then Some b else w p')
  | _ => (Ok (answer 200 []), w)
  end.
Definition raises_for (s : Z) : bool := 400 <=? s.
Definition isa (_ : response) (_ : http_class) : bool := false.
Definition text (_ : failure response) : pystr := u "HTTPStatusError".
Definition metrics (_ : store) : headers := [(u "X-CacheKit-L1-Status", u "disabled")].
Definition thread_client : http_client := new_client (Hosts.config Hosts.main (u "ck_1") default_timeout).

Lemma sent_fragment p f : sent (p ++ 35 :: f) = sent p.
Proof. induction p as [|x p IH]; [done|]. cbn. case_match; [done|by rewrite IH]. Qed.

#[export] Instance path_server : PathServer send raises_for thread_client (fun w => w) sent.
Proof.
  split.
  - intros p h w. unfold send. cbn beta. destruct (w (sent p)) as [b|]; by eexists _, w.
  - intros p h b w. by eexists _, _.
  - apply sent_fragment.
Qed.

Lemma keys_share_fragments_witness : exists w',
  set isa text send raises_for (fun r => r) metrics thread_client (u "order#17") (u "seventeen") (Some 60) None (fun _ => None)
    = (Ok tt, w') /\
  (get isa text send raises_for (fun r => r) metrics thread_client (u "order#18") w').1 = Ok (Some (u "seventeen")).
Proof.
  destruct (keys_share_fragments isa text send raises_for (fun r => r) metrics thread_client
    (u "order") (u "17") (u "18") (u "seventeen") (Some 60) None (fun _ => None)) as (w' & E & _ & G & _).
  exists w'. split; [exact E|exact G].
Defined.

(** A clock of one second a reading. *)
Definition clock (n : nat) : float := fofZ (Z.of_nat n).
Definition random (_ : nat) : float := half.
Definition idle : waiting := mkWaiting (W := store) (fun _ => None) 0 [].

(** Five seconds for the lock are up at the sixth reading. *)
Lemma lock_wait_ends_witness :
  (exists r s', r <> Ok None /\ forall fuel, (4 < fuel)%nat ->
    acquire_lock isa text send raises_for (fun r => r) metrics thread_client clock random fuel (u "k") (fofZ 30) (Some (fofZ 5))
      ret idle = (r, s')) /\
  (forall fuel, (4 < fuel)%nat ->
    (length (sleeps (acquire isa text send raises_for (fun r => r) metrics thread_client clock random fuel (u "k") (fofZ 30)
      (Some (fofZ 5)) idle).2) <= 4)%nat).
Proof.
  apply (lock_wait_ends isa text send raises_for (fun r => r) metrics thread_client clock random (u "k") (fofZ 30)
    (fofZ 5) 4 ret idle).
  vm_compute. reflexivity.
Defined.

(** The body runs without the lock. *)
Example held_by_another :
  (acquire_lock isa text send raises_for (fun r => r) metrics thread_client clock random 5 (u "k") (fofZ 30) (Some (fofZ 5))
    ret idle).1 = Ok (Some false).
Proof. vm_compute. reflexivity. Qed.
End Server.
