(* ===== verification/MemcachedBackend.v ===== *)
(** The Memcached backend ([src/src/cachekit/backends/memcached]): the servers of
    its configuration, its operations over a client of pymemcache, and what a
    server that follows the protocol makes of them.

    The calls of pymemcache's [HashClient] are a record of operations on the state
    [W] of the servers; [X] its exceptions. *)
From Stdlib Require Import ZArith Lia SpecFloat.
From stdpp Require Import base list numbers option strings.
From S2P Require Import Prelude PyFloat Bytes Tenant Errors Effects RemoteErrors Handler.

Local Open Scope Z_scope.
Local Open Scope py_scope.
Local Open Scope client_scope.

(** ** Configuration ([config.py]) *)

Definition MAX_MEMCACHED_TTL : Z := 30 * 24 * 60 * 60.

Record MemcachedBackendConfig := mkConfig {
  servers : list pystr;
  connect_timeout : float;
  timeout : float;
  max_pool_size : Z;
  retry_attempts : Z;
  key_prefix : pystr;
  max_item_size_bytes : Z
}.

Section Servers.
(** The decimal digits of other scripts. *)
Context (unicode_digit : Z -> option Z).

(** [sys.get_int_max_str_digits()] by default *)
Definition max_str_digits : Z := 4300.

(** Digits, with single underscores between two of them: their number and value. *)
Fixpoint digits (after_digit : bool) (n acc : Z) (s : pystr) : option (Z * Z) :=
  match s with
  | [] => if after_digit then Some (n, acc) else None
  | c :: r =>
      if c =? 95 then (if after_digit then digits false n acc r else None)
      else match digit_value unicode_digit c with
           | Some d => digits true (n + 1) (acc * 10 + d) r
           | None => None
           end
  end.

(** What [int] ignores around a number: not the separators 28 to 31. *)
Definition int_space (c : Z) : bool := is_unicode_space c && negb ((28 <=? c) && (c <=? 31)).

(** [int(s)] *)
Definition int_of (s : pystr) : result py_exn Z :=
  let number (s : pystr) :=
    match digits false 0 0 s with
    | Some (n, v) => if n <=? max_str_digits then Ok v else Err ValueError
    | None => Err ValueError
    end in
  match strip int_space s with
  | 43 :: r => number r
  | 45 :: r => v <-! number r ; Ok (- v)
  | s => number s
  end.

(** [s.rsplit(":", 1)], if there is a colon. *)
Fixpoint rsplit_colon (s : pystr) : option (pystr * pystr) :=
  match s with
  | [] => None
  | c :: r =>
      match rsplit_colon r with
      | Some (a, b) => Some (c :: a, b)
      | None => if c =? 58 then Some ([], r) else None
      end
  end.

Definition valid_server (server : pystr) : bool :=
  match rsplit_colon server with
  | None => false
  | Some (_, port_str) => match int_of port_str with Ok port => (1 <=? port) && (port <=? 65535) | Err _ => false end
  end.

Definition validate_servers (v : list pystr) : result exn (list pystr) :=
  match v with
  | [] => Err (PyExn ValueError)
  | _ => if forallb valid_server v then Ok v else Err (PyExn ValueError)
  end.

Definition in_range (x : float) (lo hi : float) : bool := fle lo x && fle x hi.
(** 0.1 *)
Definition tenth : float := S754_finite false 7205759403792794 (-56).

(** The [Field] bounds and the validator of the servers. *)
Definition construct (c : MemcachedBackendConfig) : result exn MemcachedBackendConfig :=
  if in_range (connect_timeout c) tenth (fofZ 30) && in_range (timeout c) tenth (fofZ 30)
     && (1 <=? max_pool_size c) && (max_pool_size c <=? 100) && (0 <=? retry_attempts c) && (retry_attempts c <=? 10)
     && (0 <=? max_item_size_bytes c)
  then _ <-! validate_servers (servers c) ; Ok c
  else Err (PyExn ValueError).

(** ** The backend ([backend.py]) *)

Definition _parse_server (server : pystr) : result exn (pystr * Z) :=
  match rsplit_colon server with
  | None => Err (PyExn ValueError)
  | Some (host, port_str) => port <-! py (int_of port_str) ; Ok (host, port)
  end.
End Servers.

(** What the client finds: bytes, or an object that [bytes] is applied to. *)
Inductive item := ItemBytes (b : pybytes) | ItemOther (as_bytes : result py_exn pybytes).

Record hash_client (X W : Type) := mkHash {
  m_get : pystr -> client X W (option item);
  m_set : pystr -> pybytes -> Z -> client X W bool;
  m_delete : pystr -> client X W bool;
  m_touch : pystr -> Z -> client X W bool
}.
Arguments mkHash {X W}.
Arguments m_get {X W}.
Arguments m_set {X W}.
Arguments m_delete {X W}.
Arguments m_touch {X W}.

Section Backend.
Context {X W : Type}.
Context (isa : X -> memcached_class -> bool) (text : failure X -> pystr) (repr : pystr -> pystr).

Record MemcachedBackend := mkBackend {
  _config : MemcachedBackendConfig;
  _client : hash_client X W;
  _key_prefix : pystr
}.

(** [connect] is the constructor of [HashClient]: it opens no connection yet. *)
Definition init (unicode_digit : Z -> option Z) (config : option MemcachedBackendConfig)
    (from_env : result exn MemcachedBackendConfig)
    (connect : list (pystr * Z) -> MemcachedBackendConfig -> hash_client X W) : result exn MemcachedBackend :=
  config <-! match config with Some c => Ok c | None => from_env end ;
  servers <-! rmap (_parse_server unicode_digit) (servers config) ;
  Ok (mkBackend config (connect servers config) (key_prefix config)).

Context (b : MemcachedBackend).

Definition _prefixed_key (key : pystr) : pystr := match _key_prefix b with [] => key | p => p ++ key end.

Definition classify (operation key : pystr) (f : failure X) : exn :=
  BackendExn (classify_memcached_error isa text f (Some operation) (Some key)).

Definition get (key : pystr) : eff W (option pybytes) :=
  raising (classify (u "get") key)
    (result <- m_get (_client b) (_prefixed_key key) ;;
     match result with
     | None => done_ None
     | Some (ItemBytes bs) => done_ (Some bs)
     | Some (ItemOther conversion) => bs <- python conversion ;; done_ (Some bs)
     end).

Definition oversized (key : pystr) (n max_size : Z) : exn :=
  BackendExn (mkBackendError
    (u "Value for key " ++ repr key ++ u " is " ++ decimal n ++ u " bytes, which exceeds the Memcached max item size of "
     ++ decimal max_size ++ u " bytes. Memcached cannot store it. Enable compression, use a larger-payload backend "
     ++ u "(Redis/SaaS/File), or raise both the server's -I limit and CACHEKIT_MEMCACHED_MAX_ITEM_SIZE_BYTES.")
    PERMANENT None (Some (u "set")) (Some key)).

(** What both [set] and [refresh_ttl] send as the expiry. *)
Definition expire_of (ttl : Z) : Z := if 0 <? ttl then Z.min ttl MAX_MEMCACHED_TTL else 0.

Definition set (key : pystr) (value : pybytes) (ttl : option Z) : eff W unit :=
  let max_size := max_item_size_bytes (_config b) in
  if negb (max_size =? 0) && (max_size <? zlen value) then throw (oversized key (zlen value) max_size)
  else
    let expire := match ttl with Some t => expire_of t | None => 0 end in
    raising (classify (u "set") key) (_ <- m_set (_client b) (_prefixed_key key) value expire ;; done_ tt).

Definition delete (key : pystr) : eff W bool :=
  raising (classify (u "delete") key) (m_delete (_client b) (_prefixed_key key)).

Definition exists_ (key : pystr) : eff W bool :=
  raising (classify (u "exists") key)
    (result <- m_get (_client b) (_prefixed_key key) ;; done_ (bool_decide (is_Some result))).

Definition refresh_ttl (key : pystr) (ttl : Z) : eff W bool :=
  raising (classify (u "refresh_ttl") key) (m_touch (_client b) (_prefixed_key key) (expire_of ttl)).

(** As the cache handler sees it: the TTL can be set anew but not read. *)
Definition methods {Hd P} : backend W Hd P := {|
  b_get := get; b_set := set; b_delete := delete;
  b_get_buffer := None; b_view _ _ := []; b_close _ := ret tt; b_set_streaming := None; b_swr := None;
  b_ttl := None; b_lock := None
|}.
End Backend.
Arguments MemcachedBackend : clear implicits.
