(* ===== verification/BackendHealth.v ===== *)
(** The [health_check] of the remote backends and the [with_timeout] of the
    per-request Redis backend ([src/src/cachekit/backends/redis/backend.py],
    [redis/provider.py], [memcached/backend.py], [cachekitio/backend.py]).

    The client libraries are the parameters they are in the files of the backends;
    details are dictionaries of texts, numbers and values of the library. *)
From Stdlib Require Import ZArith Lia SpecFloat.
From stdpp Require Import base list numbers option strings gmap.
From S2P Require Import Prelude PyFloat PyDict Errors Effects RemoteErrors RedisBackends CachekitIO MemcachedBackend.

Local Open Scope Z_scope.
Local Open Scope client_scope.

Section Details.
Context {X W V : Type}.

Inductive detail := DText (s : pystr) | DFloat (x : float) | DInt (z : Z) | DOther (v : V).
Definition details : Type := list (pystr * detail).

(** The clock, [str(e)], [type(e).__name__], [round(x, 2)]. *)
Context (time : W -> float * W) (text type_name : failure X -> pystr) (round2 : float -> float).

Definition reading : client X W float := fun w => let (t, w') := time w in (Ok t, w').

(** [(True, details)], or [(False, details)] where the body raises. *)
Definition checked (m : client X W details) (failed : failure X -> details) : eff W (bool * details) := fun w =>
  match m w with
  | (Ok d, w') => (Ok (true, d), w')
  | (Err f, w') => (Ok (false, failed f), w')
  end.

Definition elapsed_ms (start stop : float) : float := fmul (fsub stop start) (fofZ 1000).

(** ** Redis *)

Section Redis.
(** [ping()], and [info()]: a dictionary, or the name of another type. *)
Context (ping : client X W unit) (info : client X W (pystr + details)).

Definition info_detail (k : pystr) (missing : detail) (d : details) : pystr * detail := (k, default missing (od_get k d)).

(** From the client to the details. *)
Definition redis_probe (connect : client X W unit) : client X W details :=
  _ <- connect ;;
  start <- reading ;;
  _ <- ping ;;
  stop <- reading ;;
  i <- info ;;
  match i with
  | inl name => fails (Own (mkBackendError (u "Redis INFO returned unexpected type: " ++ name) UNKNOWN None
                              (Some (u "health_check")) (Some (u "N/A"))))
  | inr d =>
      done_ [(u "backend_type", DText (u "redis")); (u "latency_ms", DFloat (round2 (elapsed_ms start stop)));
             (u "version", (info_detail (u "redis_version") (DText (u "unknown")) d).2);
             info_detail (u "used_memory_human") (DText (u "unknown")) d;
             info_detail (u "connected_clients") (DInt 0) d]
  end.

Definition redis_failed (message type : pystr) : details :=
  [(u "backend_type", DText (u "redis")); (u "latency_ms", DInt (-1)); (u "error", DText message); (u "error_type", DText type)].

(** [RedisBackend.health_check] *)
Definition redis_health_check (get_client : client X W unit) : eff W (bool * details) :=
  checked (redis_probe get_client) (fun f => redis_failed (text f) (type_name f)).

(** [PerRequestRedisBackend.health_check] *)
Definition per_request_health_check (isa : X -> redis_class -> bool) (has_cluster_down : bool) : eff W (bool * details) :=
  checked (redis_probe (done_ tt))
    (fun f => let e := classify_redis_error isa has_cluster_down text f (Some (u "health_check")) None in
              redis_failed (message e) (type_value (error_type e))).
End Redis.

(** ** Memcached *)

Definition health_key : pystr := u "__cachekit_health__".

Definition memcached_health_check (b : MemcachedBackend X W) : eff W (bool * details) := fun w =>
  let (start, w) := time w in
  let configured := (u "configured_servers", DInt (zlen (servers (MemcachedBackend._config b)))) in
  match m_get (MemcachedBackend._client b) (_prefixed_key b health_key) w with
  | (Ok _, w) =>
      let (stop, w) := time w in
      (Ok (true, [(u "backend_type", DText (u "memcached")); (u "latency_ms", DFloat (round2 (elapsed_ms start stop))); configured]), w)
  | (Err f, w) =>
      let (stop, w) := time w in
      (Ok (false, [(u "backend_type", DText (u "memcached")); (u "latency_ms", DFloat (round2 (elapsed_ms start stop)));
                   (u "error", DText (text f)); configured]), w)
  end.

(** ** The HTTP service *)

(** [_request("GET", "health")], [response.json()] and its version; both methods are
    the same over the client of the one or the other. *)
Definition saas_health_check (request : client X W response) (version : response -> result py_exn detail) (api_url : pystr)
  : eff W (bool * details) :=
  checked
    (start <- reading ;;
     r <- request ;;
     stop <- reading ;;
     v <- python (version r) ;;
     done_ [(u "backend_type", DText (u "saas")); (u "latency_ms", DFloat (round2 (elapsed_ms start stop)));
            (u "api_url", DText api_url); (u "version", v)])
    (fun f => [(u "backend_type", DText (u "saas")); (u "latency_ms", DInt (-1)); (u "error", DText (text f));
               (u "error_type", DText (type_name f))]).

(** ** What they promise *)

Lemma checked_spec m failed w : exists d w', checked m failed w = (Ok (is_Ok (m w).1, d), w').
Proof. unfold checked. destruct (m w) as [[d|f] w1]; by eexists _, _. Qed.

Lemma memcached_check_spec b w : exists d w', memcached_health_check b w =
  (Ok (is_Ok (m_get (MemcachedBackend._client b) (_prefixed_key b health_key) (time w).2).1, d), w').
Proof.
  unfold memcached_health_check. destruct (time w) as [t w1]. cbn [snd].
  destruct (m_get _ _ w1) as [[r|f] w2]; destruct (time w2); by eexists _, _.
Qed.

(** A health check never raises, whatever the library, the server and the clock do,
    and its verdict is that of its probe: Redis is healthy when a client was made, the
    ping answered and the information was a dictionary, Memcached when one get of one
    key was answered, the service when the request was answered with JSON that has
    fields. *)
Theorem health_checks_answer ping info get_client isa has_cluster_down b request version url w :
  (exists d w', redis_health_check ping info get_client w = (Ok (is_Ok (redis_probe ping info get_client w).1, d), w')) /\
  (exists d w', per_request_health_check ping info isa has_cluster_down w =
     (Ok (is_Ok (redis_probe ping info (done_ tt) w).1, d), w')) /\
  (exists d w', memcached_health_check b w =
     (Ok (is_Ok (m_get (MemcachedBackend._client b) (_prefixed_key b health_key) (time w).2).1, d), w')) /\
  (exists d w', saas_health_check request version url w =
     (Ok (match (request (time w).2).1 with Ok r => is_Ok (version r) | Err _ => false end, d), w')).
Proof.
  split_and!; [apply checked_spec|apply checked_spec|apply memcached_check_spec|].
  unfold saas_health_check. match goal with |- context [checked ?m ?h w] => destruct (checked_spec m h w) as (d & w' & ->) end.
  exists d, w'. match goal with |- (Ok (?a, _), _) = (Ok (?b, _), _) => assert (a = b) as ->; [|done] end.
  unfold next at 1, reading at 1. destruct (time w) as [t w1]. cbn [snd]. unfold next at 1.
  destruct (request w1) as [[r|f] w2]; [|done]. unfold next at 1, reading. destruct (time w2) as [t2 w3]. unfold next, python.
  cbn [fst]. by destruct (version r).
Qed.

(** The get is for one key, which one server answers for: the others may be down. *)
Lemma memcached_probes_one_server {S} (b : MemcachedBackend X W) (route : pystr -> S) (up : W -> S -> bool) w :
  (forall k w, up w (route k) = true -> exists r w', m_get (MemcachedBackend._client b) k w = (Ok r, w')) ->
  (forall w s, up (time w).2 s = up w s) ->
  up w (route (_prefixed_key b health_key)) = true ->
  exists d w', memcached_health_check b w = (Ok (true, d), w').
Proof.
  intros H T U. destruct (memcached_check_spec b w) as (d & w' & ->). exists d, w'. rewrite <- T in U.
  by destruct (H _ _ U) as (r & w2 & ->).
Qed.
End Details.

(** ** [with_timeout] *)

Section Timeouts.
Context {W : Type}.

(** [connection_kwargs.get("socket_timeout")] of the pool the backends share, and the
    assignment or the removal. *)
Record pool_kwargs := mkKwargs { socket_timeout : option float; rest : W }.

Definition with_socket_timeout (t : option float) (p : pool_kwargs) : pool_kwargs := mkKwargs t (rest p).

(** [timeout_ms / 1000.0] *)
Definition seconds (timeout_ms : Z) : result exn float :=
  if isfinite (fofZ timeout_ms) then Ok (fdiv (fofZ timeout_ms) (fofZ 1000)) else Err (PyExn OverflowError).

(** The block, with its body; [classify] is [classify_redis_error] for the operation. *)
Definition with_timeout {A} (classify : exn -> BackendError) (timeout_ms : Z) (body : eff pool_kwargs A) : eff pool_kwargs A := (
  original <~ gets socket_timeout ;;
  t <~ lift (seconds timeout_ms) ;;
  finally (trying (modify (with_socket_timeout (Some t)) ;;~ body) (fun x => throw (BackendExn (classify x))))
    (modify (with_socket_timeout original)))%eff.

(** Whatever the body does to the timeout, and whether it raises, the pool has its
    timeout again; the body runs with the new one. *)
Lemma timeout_restored {A} classify timeout_ms (body : eff pool_kwargs A) p :
  socket_timeout (with_timeout classify timeout_ms body p).2 = socket_timeout p /\
  forall t, seconds timeout_ms = Ok t ->
    (with_timeout classify timeout_ms body p).1 =
      match (body (with_socket_timeout (Some t) p)).1 with Ok a => Ok a | Err x => Err (BackendExn (classify x)) end.
Proof.
  unfold with_timeout, andthen, gets, lift. destruct (seconds timeout_ms) as [t|x]; [|done].
  unfold finally, trying, andthen, modify. split; [|intros t' [= <-]]; destruct (body _) as [[a|x] w']; reflexivity.
Qed.

(** *** Tasks

    The block is asynchronous: between [__aenter__] and [__aexit__] of one task others
    enter and leave.  A task remembers the timeout it found. *)
Definition task_state : Type := gmap nat (option float) * pool_kwargs.

Inductive task_event := Enter (task : nat) (t : float) | Leave (task : nat).

Definition task_step (e : task_event) (s : task_state) : task_state :=
  match e with
  | Enter i t => (<[i := socket_timeout s.2]> s.1, with_socket_timeout (Some t) s.2)
  | Leave i => match s.1 !! i with Some original => (base.delete i s.1, with_socket_timeout original s.2) | None => s end
  end.

Definition tasks_run (es : list task_event) (s : task_state) : task_state := foldl (fun s e => task_step e s) s es.

(** Blocks that are left in the reverse order they were entered in. *)
Inductive nested : list task_event -> Prop :=
  | nested_nil : nested []
  | nested_block i t inner after : nested inner -> nested after -> Forall (fun e => match e with Enter j _ | Leave j => j <> i end) inner ->
      nested (Enter i t :: inner ++ Leave i :: after).

Lemma others_leave_it i es (s : task_state) : Forall (fun e => match e with Enter j _ | Leave j => j <> i end) es ->
  (tasks_run es s).1 !! i = s.1 !! i.
Proof.
  intros H. unfold tasks_run. revert s. induction H as [|e es He _ IH]; intros s; [done|]. cbn. rewrite IH. destruct e as [j t|j]; cbn.
  - by rewrite lookup_insert_ne.
  - destruct (s.1 !! j); [|done]. cbn. by rewrite lookup_delete_ne.
Qed.

(** The timeout of the pool is borrowed: as long as the blocks of all tasks are left
    in the reverse order they were entered in, the pool has its own timeout again after
    them; and when they are not, it may keep the timeout of a block that is over, for
    good: entered by one task, then by another, left by the first, then by the other. *)
Theorem timeouts_are_borrowed es (s : task_state) : nested es ->
  socket_timeout (tasks_run es s).2 = socket_timeout s.2 /\
  forall i j t t', i <> j ->
    let s' := tasks_run [Enter i t; Enter j t'; Leave i; Leave j] s in
    socket_timeout s'.2 = Some t /\ s'.1 !! i = None /\ s'.1 !! j = None.
Proof.
  intros N. split.
  - revert s. induction N as [|i t inner after _ IHi _ IHa F]; intros s; [done|].
    unfold tasks_run in *. cbn [foldl]. rewrite foldl_app. cbn [foldl]. rewrite IHa. cbn [task_step].
    pose proof (others_leave_it i inner (task_step (Enter i t) s) F) as U. unfold tasks_run in U. cbn [task_step fst] in U.
    rewrite lookup_insert_eq in U. by rewrite U.
  - intros i j t t' Nij. cbn. rewrite lookup_insert_ne, lookup_insert_eq by done. cbn.
    rewrite lookup_delete_ne, lookup_insert_eq by done. cbn. split; [done|].
    split; [rewrite lookup_delete_ne by done; apply lookup_delete_eq|apply lookup_delete_eq].
Qed.
End Timeouts.

Lemma timeouts_are_borrowed_witness :
  let s : task_state (W := unit) := (∅, mkKwargs (Some (fofZ 5)) tt) in
  socket_timeout (tasks_run [Enter 1 (fofZ 1); Enter 2 (fofZ 2); Leave 2; Leave 1] s).2 = Some (fofZ 5) /\
  socket_timeout (tasks_run [Enter 1 (fofZ 1); Enter 2 (fofZ 2); Leave 1; Leave 2] s).2 = Some (fofZ 1).
Proof.
  set (s := (∅, mkKwargs (Some (fofZ 5)) tt) : task_state (W := unit)).
  set (es := [Enter 1 (fofZ 1); Enter 2 (fofZ 2); Leave 2; Leave 1]).
  assert (N : nested es).
  { apply (nested_block 1 _ [Enter 2 (fofZ 2); Leave 2] []).
    - apply (nested_block 2 _ [] []); constructor.
    - constructor.
    - repeat constructor; lia. }
  destruct (timeouts_are_borrowed es s N) as [E F]. split; [exact E|].
  exact (proj1 (F 1%nat 2%nat (fofZ 1) (fofZ 2) ltac:(lia))).
Defined.
