(* ===== verification/MemcachedProps.v ===== *)
(** The Memcached backend: accepted server lists connect, and over a server that
    follows the protocol an entry lives as long as it was asked to, up to the
    protocol's thirty days. *)
From Stdlib Require Import ZArith Lia SpecFloat.
From stdpp Require Import base list numbers option strings.
From S2P Require Import Prelude PyFloat Bytes Tenant Errors Effects RemoteErrors Handler MemcachedBackend.

Local Open Scope Z_scope.

(** ** Servers *)

Section Servers.
Context (unicode_digit : Z -> option Z).

Lemma rsplit_colon_spec s : match rsplit_colon s with
  | Some (a, b) => s = a ++ 58 :: b /\ Forall (fun x => x <> 58) b
  | None => Forall (fun x => x <> 58) s
  end.
Proof.
  induction s as [|c s IH]; [constructor|]. cbn. destruct (rsplit_colon s) as [[a b]|].
  - destruct IH as [-> F]. done.
  - destruct (c =? 58) eqn:E; zbool; [by subst|by constructor].
Qed.

(** What an address of the list says: its last colon separates a port. *)
Definition address (server : pystr) (hp : pystr * Z) : Prop :=
  exists port_str, server = hp.1 ++ 58 :: port_str /\ Forall (fun x => x <> 58) port_str /\
    int_of unicode_digit port_str = Ok hp.2 /\ 1 <= hp.2 <= 65535.

Lemma valid_server_parses s : valid_server unicode_digit s = true ->
  exists hp, _parse_server unicode_digit s = Ok hp /\ address s hp.
Proof.
  unfold valid_server, _parse_server. pose proof (rsplit_colon_spec s) as R. destruct (rsplit_colon s) as [[h t]|]; [|done].
  destruct R as [-> F]. destruct (int_of unicode_digit t) as [p|] eqn:E; [|done]. intros P. zbool.
  exists (h, p). split; [done|]. exists t. done.
Qed.

Lemma valid_servers_parse l : forallb (valid_server unicode_digit) l = true ->
  exists hps, rmap (_parse_server unicode_digit) l = Ok hps /\ Forall2 address l hps.
Proof.
  induction l as [|s l IH]; cbn; intros V; [by exists []|]. apply andb_true_iff in V as [V1 V2].
  destruct (valid_server_parses s V1) as (hp & E & A). destruct (IH V2) as (hps & -> & F). rewrite E. cbn.
  exists (hp :: hps). split; [done|by constructor].
Qed.

(** The validator and the constructor agree: for every accepted configuration the
    backend is made, without an error, with the client of at least one server, one
    for each address in order, its host what stands before the last colon and its
    port the number after it, between 1 and 65535. *)
Theorem accepted_config_connects {X W} c c' from_env (connect : list (pystr * Z) -> MemcachedBackendConfig -> hash_client X W) :
  construct unicode_digit c = Ok c' ->
  exists addresses, init unicode_digit (Some c') from_env connect =
      Ok (mkBackend c' (connect addresses c') (key_prefix c')) /\
    addresses <> [] /\ Forall2 address (servers c') addresses.
Proof.
  unfold construct. intros E. case_match; [|done]. apply rbind_ok in E as (v & E & [= <-]).
  unfold validate_servers in E. destruct (servers c) as [|s l] eqn:S; [done|].
  destruct (forallb _ _) eqn:V; [|done]. destruct (valid_servers_parse _ V) as (hps & R & F).
  exists hps. unfold init. cbn [rbind]. rewrite S, R. split_and!; [done| |done]. by inversion F.
Qed.
End Servers.

(** ** Lifetimes *)

(** The end of an entry by the protocol: no expiry for 0, seconds from now up to
    thirty days, and what is larger is the time itself. *)
Definition end_of (now e : Z) : option Z :=
  if e =? 0 then None else if e <=? 60 * 60 * 24 * 30 then Some (now + e) else Some e.

Definition alive (now : Z) (until : option Z) : bool := match until with None => true | Some t => now <? t end.

(** What a server that keeps its entries answers; [entry] is what it has under a key
    with its end, [now] its time.  Every key is accepted, which is
    an idealisation: the client refuses keys of more than 250 bytes or with blanks. *)
Class MemcacheServer {X W} (c : hash_client X W) (entry : W -> pystr -> option (pybytes * option Z)) (now : W -> Z) : Prop := {
  mc_get k w : exists w', m_get c k w =
      (Ok (match entry w k with Some (v, t) => if alive (now w) t then Some (ItemBytes v) else None | None => None end), w') /\
    forall k', entry w' k' = entry w k';
  mc_set k v e w : 0 <= e -> exists w', m_set c k v e w = (Ok true, w') /\
    forall k', entry w' k' = if decide (k' = k) then Some (v, end_of (now w) e) else entry w k';
  mc_touch k e w v t : 0 <= e -> entry w k = Some (v, t) -> alive (now w) t = true ->
    exists w', m_touch c k e w = (Ok true, w') /\
    forall k', entry w' k' = if decide (k' = k) then Some (v, end_of (now w) e) else entry w k'
}.

Section Lifetimes.
Context {X W : Type} (isa : X -> memcached_class -> bool) (text : failure X -> pystr) (repr : pystr -> pystr).
Context (b : MemcachedBackend X W) (entry : W -> pystr -> option (pybytes * option Z)) (now : W -> Z).
Context `{MemcacheServer X W (_client b) entry now}.
Local Abbreviation get := (get isa text b).
Local Abbreviation set := (set isa text repr b).
Local Abbreviation refresh_ttl := (refresh_ttl isa text b).

(** What is sent is never read as a time of its own. *)
Lemma expire_of_bounds t : 0 <= expire_of t <= MAX_MEMCACHED_TTL.
Proof. unfold expire_of, MAX_MEMCACHED_TTL. destruct (0 <? t) eqn:E; zbool; lia. Qed.

(** How long an entry with this TTL is to live. *)
Definition lifetime (ttl : option Z) : option Z :=
  match ttl with Some t => if 0 <? t then Some (Z.min t MAX_MEMCACHED_TTL) else None | None => None end.

Lemma end_of_lifetime w ttl : end_of w (match ttl with Some t => expire_of t | None => 0 end) =
  match lifetime ttl with Some t => Some (w + t) | None => None end.
Proof.
  destruct ttl as [t|]; [|done]. unfold expire_of, lifetime, MAX_MEMCACHED_TTL. destruct (0 <? t) eqn:E; [|done]. zbool.
  unfold end_of. repeat case_match; zbool; try lia; done.
Qed.

Definition fits (v : pybytes) : Prop := max_item_size_bytes (_config b) = 0 \/ zlen v <= max_item_size_bytes (_config b).

Lemma set_entry k v ttl w : fits v -> exists w', set k v ttl w = (Ok tt, w') /\
  forall k', entry w' k' = if decide (k' = _prefixed_key b k)
    then Some (v, match lifetime ttl with Some t => Some (now w + t) | None => None end) else entry w k'.
Proof.
  intros Hf. unfold MemcachedBackend.set. assert (negb (max_item_size_bytes (_config b) =? 0) &&
    (max_item_size_bytes (_config b) <? zlen v) = false) as ->.
  { destruct Hf as [->|Hf]; [done|]. apply andb_false_iff. right. apply Z.ltb_ge. lia. }
  destruct (mc_set (_prefixed_key b k) v (match ttl with Some t => expire_of t | None => 0 end) w) as (w' & E & F).
  { destruct ttl as [t|]; [apply expire_of_bounds|done]. }
  exists w'. split; [unfold raising, next; by rewrite E|]. intros k'. by rewrite F, end_of_lifetime.
Qed.

Lemma get_entry k w : exists w', get k w =
  (Ok (match entry w (_prefixed_key b k) with Some (v, t) => if alive (now w) t then Some v else None | None => None end), w').
Proof.
  destruct (mc_get (_prefixed_key b k) w) as (w' & E & _). exists w'.
  unfold MemcachedBackend.get, raising, next. rewrite E. destruct (entry w _) as [[v t]|]; [|done]. by destruct (alive _ _).
Qed.

(** C30. What is stored is served for as long as it was meant to be: a value that
    fits is read back exactly until its TTL is over, or thirty days for a longer one,
    and without a TTL, or with one of zero or less, for ever: no TTL, however large,
    is taken by the server for a time of its own.  Refreshing a living entry starts
    its new TTL in the same way.  A value too large raises without reaching the
    server. *)
Theorem served_for_its_lifetime k v ttl w :
  (fits v -> exists w', set k v ttl w = (Ok tt, w') /\
    forall w2, (forall k', entry w2 k' = entry w' k') ->
      (get k w2).1 = Ok (if alive (now w2) (match lifetime ttl with Some t => Some (now w + t) | None => None end)
                         then Some v else None) /\
      (forall ttl', alive (now w2) (match lifetime ttl with Some t => Some (now w + t) | None => None end) = true ->
        exists w3, refresh_ttl k ttl' w2 = (Ok true, w3) /\
        forall w4, (forall k', entry w4 k' = entry w3 k') ->
          (get k w4).1 = Ok (if alive (now w4) (match lifetime (Some ttl') with Some t => Some (now w2 + t) | None => None end)
                             then Some v else None))) /\
  (~ fits v -> 0 < max_item_size_bytes (_config b) ->
    exists e, set k v ttl w = (Err (BackendExn e), w) /\ error_type e = PERMANENT).
Proof.
  split.
  - intros Hf. destruct (set_entry k v ttl w Hf) as (w' & E & F). exists w'. split; [done|]. intros w2 H2.
    assert (E2 : entry w2 (_prefixed_key b k) = Some (v, match lifetime ttl with Some t => Some (now w + t) | None => None end))
      by (by rewrite H2, F, decide_True).
    split; [destruct (get_entry k w2) as [w3 ->]; by rewrite E2|]. intros ttl' A.
    destruct (mc_touch (_prefixed_key b k) (expire_of ttl') w2 v _ (proj1 (expire_of_bounds ttl')) E2 A) as (w3 & T & F3).
    exists w3. split; [unfold MemcachedBackend.refresh_ttl, raising; by rewrite T|]. intros w4 H4.
    destruct (get_entry k w4) as [w5 ->]. rewrite H4, F3, decide_True by done. cbn [fst].
    by rewrite (end_of_lifetime (now w2) (Some ttl')).
  - intros Hn Hp. unfold MemcachedBackend.set, fits in *. eexists.
    assert (negb (max_item_size_bytes (_config b) =? 0) && (max_item_size_bytes (_config b) <? zlen v) = true) as ->; [|by split].
    apply andb_true_iff. rewrite negb_true_iff, Z.eqb_neq, Z.ltb_lt. lia.
Qed.
End Lifetimes.

(** A server with a clock that stands still between the calls. *)
Module Server.
Definition state : Type := Z * (pystr -> option (pybytes * option Z)).
Definition put (w : state) (k : pystr) (e : pybytes * option Z) : state :=
  (w.1, fun k' => if decide (k' = k) then Some e else w.2 k').
Definition client : hash_client unit state := {|
  m_get k w := (Ok (match w.2 k with Some (v, t) => if alive w.1 t then Some (ItemBytes v) else None | None => None end), w);
  m_set k v e w := (Ok true, put w k (v, end_of w.1 e));
  m_delete k w := (Ok (bool_decide (is_Some (w.2 k))), (w.1, fun k' => if decide (k' = k) then None else w.2 k'));
  m_touch k e w :=
    match w.2 k with
    | Some (v, t) => if alive w.1 t then (Ok true, put w k (v, end_of w.1 e)) else (Ok false, w)
    | None => (Ok false, w)
    end
|}.

#[export] Instance server : MemcacheServer client (fun w => w.2) (fun w => w.1).
Proof.
  split.
  - intros k w. by exists w.
  - intros k v e w _. by eexists.
  - intros k e w v t _ E A. eexists. cbn in *. rewrite E, A. by split.
Qed.

Definition no_digit (_ : Z) : option Z := None.
Definition second : float := fofZ 1.
Definition config : MemcachedBackendConfig := mkConfig [u "mc1:11211"; u "[::1]: +1_1211"] second second 10 2 (u "app:") 8.
Definition backend : MemcachedBackend unit state := mkBackend config client (u "app:").
Definition isa (_ : unit) (_ : memcached_class) : bool := false.
Definition text (_ : failure unit) : pystr := [].

(** Texts [int] reads, and addresses the validator takes or refuses; an IPv6
    address without a port is taken for a host and a port. *)
Example numbers : map (fun t => int_of no_digit (u t)) ["11211"; " +1_1"; "-0"; "1__1"; "_1"; ""; "+ 1"]%string
  = [Ok 11211; Ok 11; Ok 0; Err ValueError; Err ValueError; Err ValueError; Err ValueError].
Proof. vm_compute. reflexivity. Qed.

Example addresses : map (fun t => _parse_server no_digit (u t)) ["mc:11211"; "::1"]%string
    = [Ok (u "mc", 11211); Ok (u ":", 1)] /\
  map (fun t => valid_server no_digit (u t)) ["mc"; "mc:"; "mc:0"; "mc:65536"; "::1"]%string = [false; false; false; false; true].
Proof. split; vm_compute; reflexivity. Qed.

Lemma accepted_config_connects_witness : exists addresses,
  init no_digit (Some config) (Ok config) (fun _ _ => client) = Ok (mkBackend config client (key_prefix config)) /\
  addresses <> [] /\ Forall2 (address no_digit) (servers config) addresses.
Proof.
  apply (accepted_config_connects no_digit config config (Ok config) (fun _ _ => client)). vm_compute. reflexivity.
Defined.

(** A TTL of forty days ends after thirty. *)
Lemma served_for_its_lifetime_witness : exists w',
  set isa text (fun k => k) backend (u "k") (u "value") (Some (40 * 86400)) (1000, fun _ => None) = (Ok tt, w') /\
  (get isa text backend (u "k") (1000 + 30 * 86400 - 1, w'.2)).1 = Ok (Some (u "value")) /\
  (get isa text backend (u "k") (1000 + 30 * 86400, w'.2)).1 = Ok None.
Proof.
  destruct (served_for_its_lifetime isa text (fun k => k) backend (fun w => w.2) (fun w => w.1)
    (u "k") (u "value") (Some (40 * 86400)) (1000, fun _ => None)) as [H _].
  destruct H as (w' & E & G); [right; vm_compute; discriminate|]. exists w'. split; [exact E|].
  split; [exact (proj1 (G (1000 + 30 * 86400 - 1, w'.2) (fun _ => eq_refl)))|
          exact (proj1 (G (1000 + 30 * 86400, w'.2) (fun _ => eq_refl)))].
Defined.
End Server.
