(* ===== verification/RingBuffer.v ===== *)
(** The ring buffer of the structured logger ([src/src/cachekit/logging.py],
    [LockFreeRingBuffer]): its operations, which refine a bounded queue, and the
    instructions of producers and of the writer thread, interleaved: one producer
    is safe, two lose entries. *)
From Stdlib Require Import ZArith Lia.
From stdpp Require Import base list numbers option relations.
From S2P Require Import Prelude.

Local Open Scope Z_scope.

Section Ring.
Context {T : Type}.

Record LockFreeRingBuffer := mkRing {
  size : Z;
  buffer : list (option T);
  write_pos : Z;
  read_pos : Z
}.

Definition init (size : Z) : LockFreeRingBuffer := mkRing size (replicate (Z.to_nat size) None) 0 0.

Definition slot (r : LockFreeRingBuffer) (i : Z) : option (option T) := buffer r !! Z.to_nat i.
Definition put (r : LockFreeRingBuffer) (i : Z) (e : option T) : LockFreeRingBuffer :=
  mkRing (size r) (<[Z.to_nat i := e]> (buffer r)) (write_pos r) (read_pos r).

(** Of a buffer with a positive size: the positions stay in range. *)
Definition append (entry : T) (r : LockFreeRingBuffer) : bool * LockFreeRingBuffer :=
  let pos := write_pos r in
  let next_pos := (pos + 1) mod size r in
  if next_pos =? read_pos r then (false, r)
  else let r := put r pos (Some entry) in (true, mkRing (size r) (buffer r) next_pos (read_pos r)).

Definition advance (r : LockFreeRingBuffer) : LockFreeRingBuffer :=
  mkRing (size r) (buffer r) (write_pos r) ((read_pos r + 1) mod size r).

(** [n] is [max_items - count]. *)
Fixpoint drain (n : nat) (r : LockFreeRingBuffer) : list T * LockFreeRingBuffer :=
  match n with
  | O => ([], r)
  | S n =>
      if read_pos r =? write_pos r then ([], r)
      else
        match slot r (read_pos r) with
        | Some (Some entry) =>
            let (items, r') := drain n (advance (put r (read_pos r) None)) in (entry :: items, r')
        | _ => drain n (advance r)
        end
  end.

(** ** A bounded queue *)

(** The buffer holds [q] from [k] slots after the read position on. *)
Definition holds (k : Z) (q : list T) (r : LockFreeRingBuffer) : Prop :=
  0 < size r /\ zlen (buffer r) = size r /\ 0 <= read_pos r < size r /\
  write_pos r = (read_pos r + k + zlen q) mod size r /\ 0 <= k /\ k + zlen q <= size r - 1 /\
  forall i e, q !! i = Some e -> slot r ((read_pos r + k + Z.of_nat i) mod size r) = Some (Some e).

(** Two positions less than a round apart are two slots. *)
Lemma mod_neq a d n : 0 < n -> 0 < d < n -> (a + d) mod n <> a mod n.
Proof.
  intros Hn Hd E. pose proof (Z.div_mod a n ltac:(lia)). pose proof (Z.div_mod (a + d) n ltac:(lia)).
  rewrite E in *. generalize dependent (a `mod` n). generalize ((a + d) `div` n), (a `div` n). intros x y r E Ea Ed. clear E.
  assert (n * (x - y) = d) by lia. destruct (decide (x - y <= 0)); nia.
Qed.

Lemma mod_apart a i j n : 0 < n -> 0 <= i < n -> 0 <= j < n -> i <> j -> (a + i) mod n <> (a + j) mod n.
Proof.
  intros Hn Hi Hj Hij. destruct (decide (i < j)) as [L|L].
  - replace (a + j) with (a + i + (j - i)) by lia. intros E. by apply (mod_neq (a + i) (j - i) n); [lia..|].
  - replace (a + i) with (a + j + (i - j)) by lia. apply mod_neq; lia.
Qed.

Lemma slot_put r i j e : 0 <= i < zlen (buffer r) -> 0 <= j ->
  slot (put r i e) j = if decide (i = j) then Some e else slot r j.
Proof.
  unfold slot, put, zlen. cbn. intros Hi Hj. destruct (decide (i = j)) as [->|N].
  - apply list_lookup_insert_eq. lia.
  - apply list_lookup_insert_ne. lia.
Qed.

Lemma holds_size k q r : holds k q r -> 0 < size r.
Proof. by intros (H & _). Qed.

Lemma holds_write k q r : holds k q r -> 0 <= write_pos r < size r.
Proof. intros (Hs & _ & _ & -> & _). by apply Z.mod_pos_bound. Qed.

(** Writing an entry at the write position changes nothing yet. *)
Lemma holds_put_write k q r e : holds k q r -> holds k q (put r (write_pos r) e).
Proof.
  intros H. pose proof (holds_write _ _ _ H) as Hw. destruct H as (Hs & Hl & Hr & Ew & Hk & Hn & Hq).
  unfold holds. cbn [size read_pos write_pos put buffer]. split_and!; try done; try lia.
  - unfold zlen in *. cbn. by rewrite length_insert.
  - intros i x Hi. pose proof (lookup_lt_Some _ _ _ Hi). unfold zlen in *.
    rewrite slot_put; [|unfold zlen; lia|apply Z.mod_pos_bound; lia].
    rewrite decide_False; [by apply Hq|]. rewrite Ew, <- !Z.add_assoc. apply mod_apart; lia.
Qed.

(** Moving the write position over the entry written. *)
Lemma holds_publish k q r e : holds k q r -> slot r (write_pos r) = Some (Some e) -> k + zlen q < size r - 1 ->
  holds k (q ++ [e]) (mkRing (size r) (buffer r) ((write_pos r + 1) mod size r) (read_pos r)).
Proof.
  intros (Hs & Hl & Hr & Ew & Hk & Hn & Hq) He Hlt. unfold holds. cbn [size read_pos write_pos buffer].
  autorewrite with pydb. change (zlen (@nil T)) with 0. split_and!; try done; try lia.
  - rewrite Ew, Zplus_mod_idemp_l. f_equal. lia.
  - intros i x Hi. apply lookup_snoc_Some in Hi as [[Hi Hx]|[-> <-]]; [by apply Hq|].
    by rewrite Ew in He.
Qed.

(** The reader takes the first entry, clears its slot, moves on. *)
Lemma holds_take e q r : holds 0 (e :: q) r -> slot r (read_pos r) = Some (Some e) /\ holds 1 q r.
Proof.
  intros (Hs & Hl & Hr & Ew & Hk & Hn & Hq). autorewrite with pydb in *. split.
  - rewrite <- (Hq 0%nat e); [|done]. f_equal. rewrite Z.add_0_r, Z.add_0_r. by rewrite Z.mod_small.
  - unfold holds. split_and!; try done; try lia; [rewrite Ew; f_equal; lia|].
    intros i x Hi. rewrite <- (Hq (S i) x); [|done]. do 2 f_equal. lia.
Qed.

Lemma holds_clear q r : holds 1 q r -> holds 1 q (put r (read_pos r) None).
Proof.
  intros (Hs & Hl & Hr & Ew & Hk & Hn & Hq). unfold holds. cbn [size read_pos write_pos put buffer].
  split_and!; try done; try lia; [unfold zlen in *; cbn; by rewrite length_insert|].
  intros i x Hi. pose proof (lookup_lt_Some _ _ _ Hi). unfold zlen in *.
  rewrite slot_put; [|unfold zlen; lia|apply Z.mod_pos_bound; lia].
  rewrite decide_False; [by apply Hq|]. intros E0. apply (mod_neq (read_pos r) (1 + Z.of_nat i) (size r)); [lia..|].
  rewrite Z.add_assoc, <- E0. by rewrite Z.mod_small.
Qed.

Lemma holds_advance q r : holds 1 q r -> holds 0 q (advance r).
Proof.
  intros (Hs & Hl & Hr & Ew & Hk & Hn & Hq). unfold holds. cbn [size read_pos write_pos advance buffer].
  split_and!; try done; try lia; [apply Z.mod_pos_bound; lia..| |].
  - rewrite Ew, Z.add_0_r, Zplus_mod_idemp_l. done.
  - intros i x Hi. rewrite Z.add_0_r, Zplus_mod_idemp_l. by apply Hq.
Qed.

(** It is full when it holds all but one. *)
Lemma holds_full k q r : holds k q r -> ((write_pos r + 1) mod size r =? read_pos r) = bool_decide (k + zlen q = size r - 1).
Proof.
  intros (Hs & Hl & Hr & Ew & Hk & Hn & Hq). rewrite Ew, Zplus_mod_idemp_l. pose proof (zlen_nonneg q).
  destruct (decide (k + zlen q = size r - 1)) as [D|D].
  - rewrite bool_decide_true by done. apply Z.eqb_eq.
    replace (read_pos r + k + zlen q + 1) with (read_pos r + 1 * size r) by lia. rewrite Z.mod_add by lia. by rewrite Z.mod_small.
  - rewrite bool_decide_false by done. apply Z.eqb_neq. rewrite <- (Z.mod_small (read_pos r) (size r)) at 2 by lia.
    replace (read_pos r + k + zlen q + 1) with (read_pos r + (k + zlen q + 1)) by lia. apply mod_neq; lia.
Qed.

Lemma holds_empty q r : holds 0 q r -> (read_pos r =? write_pos r) = match q with [] => true | _ => false end.
Proof.
  intros (Hs & Hl & Hr & Ew & Hk & Hn & Hq). rewrite Ew, Z.add_0_r. destruct q as [|e q].
  - apply Z.eqb_eq. change (zlen (@nil T)) with 0. rewrite Z.add_0_r. by rewrite Z.mod_small.
  - autorewrite with pydb in *. pose proof (zlen_nonneg q). apply Z.eqb_neq. intros D.
    apply (mod_neq (read_pos r) (1 + zlen q) (size r)); [lia..|]. rewrite <- D. by rewrite Z.mod_small.
Qed.
End Ring.
Arguments LockFreeRingBuffer : clear implicits.

(** ** Refinement *)

Section Refinement.
Context {T : Type}.
Local Abbreviation ring := (LockFreeRingBuffer T).

Lemma init_holds n : 0 < n -> holds 0 [] (init n : ring).
Proof.
  intros Hn. unfold holds, init. cbn [size read_pos write_pos buffer]. change (zlen (@nil T)) with 0.
  rewrite zlen_replicate by lia. split_and!; try done; lia.
Qed.

Lemma append_holds (e : T) q r : holds 0 q r ->
  (append e r).1 = bool_decide (zlen q < size r - 1) /\ size (append e r).2 = size r /\
  holds 0 (if bool_decide (zlen q < size r - 1) then q ++ [e] else q) (append e r).2.
Proof.
  intros H. pose proof (holds_full _ _ _ H) as F. pose proof (holds_write _ _ _ H) as Hw. unfold append. rewrite F.
  pose proof H as (_ & Hl & _ & _ & _ & Hn & _).
  destruct (decide (zlen q < size r - 1)) as [D|D].
  - rewrite bool_decide_false, bool_decide_true by lia. split_and!; [done..|].
    apply (holds_publish 0 q (put r (write_pos r) (Some e))); [by apply holds_put_write| |done].
    rewrite slot_put by (cbn; lia). by rewrite decide_True.
  - rewrite bool_decide_true, bool_decide_false by lia. done.
Qed.

Lemma drain_holds n : forall q (r : ring), holds 0 q r ->
  (drain n r).1 = take n q /\ size (drain n r).2 = size r /\ holds 0 (drop n q) (drain n r).2.
Proof.
  induction n as [|n IH]; intros q r H; [done|]. cbn [drain]. rewrite (holds_empty _ _ H).
  destruct q as [|e q]; [done|]. apply holds_take in H as [-> H]. apply holds_clear, holds_advance in H.
  destruct (IH q _ H) as (E & S & H'). destruct (drain n _) as [items r']. cbn in *. by rewrite E.
Qed.

(** A run of calls, with what each answers. *)
Inductive call := Append (e : T) | Drain (max_items : Z).
Inductive answer := Accepted (b : bool) | Items (l : list T).

Definition on_ring (c : call) (r : ring) : answer * ring :=
  match c with
  | Append e => let (b, r') := append e r in (Accepted b, r')
  | Drain n => let (l, r') := drain (Z.to_nat n) r in (Items l, r')
  end.

(** A queue of at most [capacity] entries, where more are dropped. *)
Definition on_queue (capacity : Z) (c : call) (q : list T) : answer * list T :=
  match c with
  | Append e => if zlen q <? capacity then (Accepted true, q ++ [e]) else (Accepted false, q)
  | Drain n => (Items (take (Z.to_nat n) q), drop (Z.to_nat n) q)
  end.

Definition run {S} (step : call -> S -> answer * S) (calls : list call) (s : S) : list answer * S :=
  foldl (fun '(l, s) c => let (a, s') := step c s in (l ++ [a], s')) ([], s) calls.

Lemma on_ring_holds c q (r : ring) : holds 0 q r ->
  (on_ring c r).1 = (on_queue (size r - 1) c q).1 /\ size (on_ring c r).2 = size r /\
  holds 0 (on_queue (size r - 1) c q).2 (on_ring c r).2.
Proof.
  intros H. destruct c as [e|n]; cbn [on_ring on_queue].
  - destruct (append_holds e q r H) as (E & S & H'). destruct (append e r) as [b r']. cbn in *. subst b.
    destruct (zlen q <? size r - 1) eqn:D; zbool; [rewrite bool_decide_true in * by done|rewrite bool_decide_false in * by lia]; done.
  - destruct (drain_holds (Z.to_nat n) q r H) as (E & S & H'). destruct (drain _ r) as [l r']. cbn in *. by subst l.
Qed.

(** One thread at a time, the ring buffer is a bounded queue: whatever is
    appended and drained, every answer is that of a queue that takes one entry less
    than the buffer has slots, keeps the order, and drops what does not fit; so a
    buffer of one slot, which the settings accept, takes nothing. *)
Theorem ring_refines_queue calls n : 0 < n ->
  (run on_ring calls (init n)).1 = (run (on_queue (n - 1)) calls []).1 /\
  holds 0 (run (on_queue (n - 1)) calls []).2 (run on_ring calls (init n)).2.
Proof.
  intros Hn. enough (I : (run on_ring calls (init n)).1 = (run (on_queue (n - 1)) calls []).1 /\
    size (run on_ring calls (init n)).2 = n /\
    holds 0 (run (on_queue (n - 1)) calls []).2 (run on_ring calls (init n)).2) by (destruct I as (? & ? & ?); done).
  induction calls as [|c calls IH] using rev_ind; [split_and!; [done..|by apply init_holds]|].
  unfold run in *. rewrite !foldl_app. cbn [foldl].
  destruct (foldl _ ([], init n) calls) as [l r], (foldl _ ([], []) calls) as [l' q]. cbn [fst snd] in IH.
  destruct IH as (-> & S & H). destruct (on_ring_holds c q r H) as (E & S' & H'). rewrite S in *.
  destruct (on_ring c r) as [a r'], (on_queue (n - 1) c q) as [a' q']. cbn in *. by subst a.
Qed.
End Refinement.

(** ** Threads *)

(** The instructions of [append] in the threads that log, and of [drain] in the
    writer thread: each read or write of an attribute or a slot is a step. *)
Section Threads.
Context {T : Type}.

Inductive producer :=
  | PIdle
  | PLoaded (e : T) (pos : Z)     (* pos = self.write_pos *)
  | PChecked (e : T) (pos : Z)    (* next_pos != self.read_pos *)
  | PStored (e : T) (pos : Z).    (* self.buffer[pos] = entry *)

Inductive consumer :=
  | CIdle
  | CFound     (* self.read_pos != self.write_pos *)
  | CTaken     (* items.append(entry) *)
  | CCleared.  (* self.buffer[self.read_pos] = None, or nothing to take *)

(** The threads over the buffer; the entries whose [append] returned [True], in
    the order of the returns, and those drained. *)
Record system := mkSystem {
  ring : LockFreeRingBuffer T;
  producers : list producer;
  writer : consumer;
  accepted : list T;
  drained : list T
}.

Definition start (n : Z) (threads : nat) : system := mkSystem (init n) (replicate threads PIdle) CIdle [] [].

Definition at_producer (s : system) (i : nat) (p : producer) (r : LockFreeRingBuffer T) (acc : list T) : system :=
  mkSystem r (<[i := p]> (producers s)) (writer s) acc (drained s).

Definition at_writer (s : system) (c : consumer) (r : LockFreeRingBuffer T) (dr : list T) : system :=
  mkSystem r (producers s) c (accepted s) dr.

Definition next_pos (s : system) (pos : Z) : Z := (pos + 1) mod size (ring s).

Inductive step : system -> system -> Prop :=
  | p_load s i e : producers s !! i = Some PIdle ->
      step s (at_producer s i (PLoaded e (write_pos (ring s))) (ring s) (accepted s))
  | p_full s i e pos : producers s !! i = Some (PLoaded e pos) -> next_pos s pos = read_pos (ring s) ->
      step s (at_producer s i PIdle (ring s) (accepted s))
  | p_room s i e pos : producers s !! i = Some (PLoaded e pos) -> next_pos s pos <> read_pos (ring s) ->
      step s (at_producer s i (PChecked e pos) (ring s) (accepted s))
  | p_store s i e pos : producers s !! i = Some (PChecked e pos) ->
      step s (at_producer s i (PStored e pos) (put (ring s) pos (Some e)) (accepted s))
  | p_publish s i e pos : producers s !! i = Some (PStored e pos) ->
      step s (at_producer s i PIdle
        (mkRing (size (ring s)) (buffer (ring s)) (next_pos s pos) (read_pos (ring s))) (accepted s ++ [e]))
  | c_find s : writer s = CIdle -> read_pos (ring s) <> write_pos (ring s) -> step s (at_writer s CFound (ring s) (drained s))
  | c_take s e : writer s = CFound -> slot (ring s) (read_pos (ring s)) = Some (Some e) ->
      step s (at_writer s CTaken (ring s) (drained s ++ [e]))
  | c_skip s : writer s = CFound -> slot (ring s) (read_pos (ring s)) = Some None ->
      step s (at_writer s CCleared (ring s) (drained s))
  | c_clear s : writer s = CTaken -> step s (at_writer s CCleared (put (ring s) (read_pos (ring s)) None) (drained s))
  | c_advance s : writer s = CCleared -> step s (at_writer s CIdle (advance (ring s)) (drained s)).

(** *** One producer *)

(** How many slots the writer holds of what it has taken. *)
Definition taken (c : consumer) : Z := match c with CTaken | CCleared => 1 | _ => 0 end.

(** What the producer knows where it is. *)
Definition knows (k : Z) (q : list T) (r : LockFreeRingBuffer T) (p : producer) : Prop :=
  match p with
  | PIdle => True
  | PLoaded _ pos => pos = write_pos r
  | PChecked _ pos => pos = write_pos r /\ k + zlen q < size r - 1
  | PStored e pos => pos = write_pos r /\ k + zlen q < size r - 1 /\ slot r pos = Some (Some e)
  end.

Definition invariant (s : system) : Prop :=
  exists p q, producers s = [p] /\ accepted s = drained s ++ q /\ holds (taken (writer s)) q (ring s) /\
    (writer s = CFound -> q <> []) /\ knows (taken (writer s)) q (ring s) p.

Lemma start_invariant n : 0 < n -> invariant (start n 1).
Proof. intros Hn. exists PIdle, []. split_and!; try done. by apply init_holds. Qed.

(** What is known does not depend on how the slots are shared between the two. *)
Lemma knows_less k k' (q q' : list T) r r' p : knows k q r p -> k' + zlen q' <= k + zlen q ->
  size r' = size r -> write_pos r' = write_pos r -> (forall e, p = PStored e (write_pos r) -> slot r' (write_pos r) = slot r (write_pos r)) ->
  knows k' q' r' p.
Proof.
  intros K L S W B. destruct p as [|e pos|e pos|e pos]; cbn in *; rewrite ?S, ?W; [done|done|split; [apply K|lia]|].
  destruct K as (-> & K & E). split_and!; [done|lia|]. by rewrite (B e).
Qed.

Lemma holds_apart (q : list T) r : holds 1 q r -> write_pos r <> read_pos r.
Proof.
  intros (Hs & _ & Hr & -> & _ & Hn & _) D. pose proof (zlen_nonneg q). apply (mod_neq (read_pos r) (1 + zlen q) (size r)); [lia..|].
  rewrite Z.add_assoc, D. by rewrite Z.mod_small.
Qed.

(** The instructions of the producer. *)
Lemma produce_invariant s s' : invariant s -> step s s' -> writer s' = writer s -> drained s' = drained s -> invariant s'.
Proof.
  intros (p & q & Ep & Ea & H & Hf & K) St Ew Ed.
  assert (Hq : forall e, q ++ [e] <> []) by (by intros e [_ ?]%app_nil).
  pose proof (holds_full _ _ _ H) as F. pose proof (holds_write _ _ _ H) as Hw.
  assert (Hb : zlen (buffer (ring s)) = size (ring s)) by apply H.
  assert (Hn : taken (writer s) + zlen q <= size (ring s) - 1) by apply H.
  destruct St as [s i e Pi|s i e pos Pi D|s i e pos Pi D|s i e pos Pi|s i e pos Pi|s W|s e W|s W|s W|s W];
    try (cbn in Ew; congruence);
    (rewrite Ep in Pi; apply list_lookup_singleton_Some in Pi as [-> ->]; eexists _, _; cbn -[put];
     rewrite Ep; split; [reflexivity|]).
  - done.
  - done.
  - split_and!; try done. cbn in K. subst pos. split; [done|]. unfold next_pos in D.
    apply Z.eqb_neq in D. rewrite F in D. apply bool_decide_eq_false in D. lia.
  - destruct K as [-> K]. split_and!; try done; [by apply holds_put_write|]. cbn.
    rewrite slot_put by lia. by rewrite decide_True.
  - destruct K as (-> & K & E). split_and!; [by rewrite Ea, app_assoc|by apply holds_publish|by intros _|done].
Qed.

(** The instructions of the writer. *)
Lemma drain_invariant s s' : invariant s -> step s s' -> producers s' = producers s -> accepted s' = accepted s -> invariant s'.
Proof.
  intros (p & q & Ep & Ea & H & Hf & K) St Es Eac.
  destruct St as [s i e Pi|s i e pos Pi D|s i e pos Pi D|s i e pos Pi|s i e pos Pi|s W D|s e W D|s W D|s W|s W];
    try (exfalso; cbn in Es; rewrite Ep in *; apply list_lookup_singleton_Some in Pi as [-> ->]; cbn in Es; congruence).
  all: cbn -[put] in *; rewrite W in *; cbn in H, K.
  - exists p, q. cbn. split_and!; [done..| |done]. intros _ ->. by apply holds_empty, Z.eqb_eq in H.
  - destruct q as [|e' q]; [by destruct Hf|]. apply holds_take in H as [D' H]. rewrite D' in D. injection D as ->.
    exists p, q. cbn. split_and!; [done|by rewrite Ea, <- app_assoc|done..|].
    eapply knows_less; [exact K|rewrite zlen_cons; lia|done..].
  - destruct q as [|e' q]; [by destruct Hf|]. apply holds_take in H as [D' H]. congruence.
  - exists p, q. cbn -[put]. split_and!; [done..|by apply holds_clear|done|]. eapply knows_less; [exact K|lia|done..|].
    intros e _. pose proof (holds_apart _ _ H) as A. pose proof H as (_ & Hb & Hr & _). rewrite slot_put; [|lia|].
    + by rewrite decide_False by done.
    + apply (holds_write _ _ _ H).
  - exists p, q. cbn. split_and!; [done..|by apply holds_advance|done|]. eapply knows_less; [exact K|lia|done..].
Qed.

Lemma step_invariant s s' : invariant s -> step s s' -> invariant s'.
Proof.
  intros I St. pose proof St as St'. destruct St'; solve [by eapply produce_invariant|by eapply drain_invariant].
Qed.

(** C31. With one thread that logs and the writer thread, however their instructions
    interleave and whatever the size: at every moment what has been drained is the
    beginning of what was accepted, in order, without loss or repetition, what is
    missing being in the buffer, less than its slots; when the writer finds the
    buffer empty it has drained everything. *)
Theorem one_producer_is_safe n s : 0 < n -> rtc step (start n 1) s ->
  exists q, accepted s = drained s ++ q /\ zlen q <= n - 1 /\
    (writer s = CIdle -> read_pos (ring s) = write_pos (ring s) -> q = []).
Proof.
  intros Hn R. assert (I : invariant s /\ size (ring s) = n).
  { revert R. apply (rtc_ind_r (fun s => invariant s /\ size (ring s) = n)); [split; [by apply start_invariant|done]|].
    intros s1 s2 _ St [I S]. split; [by eapply step_invariant|]. by destruct St. }
  destruct I as [(p & q & _ & Ea & H & _ & _) S]. exists q.
  pose proof H as (_ & _ & _ & _ & Hk & Hl & _). rewrite S in Hl. split_and!; [done|lia|].
  intros W D. rewrite W in H. apply holds_empty in H. rewrite D, Z.eqb_refl in H. by destruct q.
Qed.

(** *** Two producers *)

(** With two threads that log, an entry is lost although [append] returned
    [True] for it: both read the same write position before either moves it, the
    second overwrites the slot of the first, and the buffer is empty again after one
    entry was drained. *)
Theorem two_producers_lose_an_entry n e1 e2 : 2 <= n ->
  exists s, rtc step (start n 2) s /\ accepted s = [e1; e2] /\ drained s = [e2] /\
    producers s = [PIdle; PIdle] /\ writer s = CIdle /\ read_pos (ring s) = write_pos (ring s).
Proof.
  intros Hn. assert (N0 : (0 + 1) mod n <> 0) by (rewrite Z.mod_small; lia).
  set (r0 := init n : LockFreeRingBuffer T). set (r1 := put r0 0 (Some e1)). set (r2 := put r1 0 (Some e2)).
  set (r3 := mkRing n (buffer r2) ((0 + 1) mod n) 0). set (r4 := put r3 0 None).
  assert (Ht : slot r3 0 = Some (Some e2)).
  { apply list_lookup_insert_eq. cbn [buffer put r1 r0 init]. rewrite length_insert, length_replicate. lia. }
  exists (mkSystem (advance r4) [PIdle; PIdle] CIdle [e1; e2] [e2]). split; [|done].
  apply (rtc_l _ _ _ _ (p_load (mkSystem r0 [PIdle; PIdle] CIdle [] []) 0 e1 eq_refl)).
  apply (rtc_l _ _ _ _ (p_load (mkSystem r0 [PLoaded e1 0; PIdle] CIdle [] []) 1 e2 eq_refl)).
  apply (rtc_l _ _ _ _ (p_room (mkSystem r0 [PLoaded e1 0; PLoaded e2 0] CIdle [] []) 0 e1 0 eq_refl N0)).
  apply (rtc_l _ _ _ _ (p_room (mkSystem r0 [PChecked e1 0; PLoaded e2 0] CIdle [] []) 1 e2 0 eq_refl N0)).
  apply (rtc_l _ _ _ _ (p_store (mkSystem r0 [PChecked e1 0; PChecked e2 0] CIdle [] []) 0 e1 0 eq_refl)).
  apply (rtc_l _ _ _ _ (p_store (mkSystem r1 [PStored e1 0; PChecked e2 0] CIdle [] []) 1 e2 0 eq_refl)).
  apply (rtc_l _ _ _ _ (p_publish (mkSystem r2 [PStored e1 0; PStored e2 0] CIdle [] []) 0 e1 0 eq_refl)).
  apply (rtc_l _ _ _ _ (p_publish (mkSystem r3 [PIdle; PStored e2 0] CIdle [e1] []) 1 e2 0 eq_refl)).
  apply (rtc_l _ _ _ _ (c_find (mkSystem r3 [PIdle; PIdle] CIdle [e1; e2] []) eq_refl (not_eq_sym N0))).
  apply (rtc_l _ _ _ _ (c_take (mkSystem r3 [PIdle; PIdle] CFound [e1; e2] []) e2 eq_refl Ht)).
  apply (rtc_l _ _ _ _ (c_clear (mkSystem r3 [PIdle; PIdle] CTaken [e1; e2] [e2]) eq_refl)).
  apply rtc_once, (c_advance (mkSystem r4 [PIdle; PIdle] CCleared [e1; e2] [e2]) eq_refl).
Qed.
End Threads.
Arguments producer : clear implicits.
Arguments system : clear implicits.

(** ** Runs *)

(** Of a buffer of three slots the third entry is dropped. *)
Lemma ring_refines_queue_witness :
  (run on_ring [Append 1; Append 2; Append 3; Drain 1; Append 4; Drain 9] (init 3)).1 =
    [Accepted true; Accepted true; Accepted false; Items [1]; Accepted true; Items [2; 4]] /\
  (run on_ring [Append 1; Drain 5] (init 1)).1 = [Accepted false; Items []].
Proof.
  split.
  - rewrite (proj1 (ring_refines_queue [Append 1; Append 2; Append 3; Drain 1; Append 4; Drain 9] 3 eq_refl)).
    vm_compute. reflexivity.
  - rewrite (proj1 (ring_refines_queue [Append 1; Drain 5] 1 eq_refl)). vm_compute. reflexivity.
Defined.

(** One entry appended, and the writer about to look. *)
Lemma one_producer_is_safe_witness : exists s : system Z, accepted s = [7] /\ drained s = [] /\
  exists q, accepted s = drained s ++ q /\ zlen q <= 10000 - 1 /\
    (writer s = CIdle -> read_pos (ring s) = write_pos (ring s) -> q = []).
Proof.
  set (p := fun x => mkSystem (init 10000) [x] CIdle [] [] : system Z).
  set (r := put (init 10000 : LockFreeRingBuffer Z) 0 (Some 7)).
  exists (mkSystem (mkRing 10000 (buffer r) 1 0) [PIdle] CIdle [7] []). split; [reflexivity|]. split; [reflexivity|].
  apply (one_producer_is_safe 10000); [reflexivity|].
  apply (rtc_l _ _ _ _ (p_load (p PIdle) 0 7 eq_refl)).
  apply (rtc_l _ _ _ _ (p_room (p (PLoaded 7 0)) 0 7 0 eq_refl ltac:(discriminate))).
  apply (rtc_l _ _ _ _ (p_store (p (PChecked 7 0)) 0 7 0 eq_refl)).
  apply rtc_once, (p_publish (mkSystem r [PStored 7 0] CIdle [] []) 0 7 0 eq_refl).
Defined.

Lemma two_producers_lose_an_entry_witness : exists s : system Z,
  rtc step (start 10000 2) s /\ accepted s = [1; 2] /\ drained s = [2] /\
  producers s = [PIdle; PIdle] /\ writer s = CIdle /\ read_pos (ring s) = write_pos (ring s).
Proof. apply (two_producers_lose_an_entry 10000 1 2). discriminate. Defined.
