(* ===== verification/Masking.v ===== *)
(** The masking of log texts ([mask_sensitive_patterns] of
    [src/src/cachekit/logging.py]): its regular expressions as [re.sub] matches them,
    and what no masked text contains.

    The patterns repeat single characters only, so an expression is a sequence of runs
    of a class of characters and of word boundaries; a run takes as many characters as
    it may and gives back one after the other.  Which characters [\d], [\s] and [\w]
    are is the business of the Unicode tables. *)
From Stdlib Require Import ZArith Lia.
From stdpp Require Import base list numbers option strings.
From S2P Require Import Prelude.

Local Open Scope Z_scope.

(** ** The tables *)

(** What is used of them. *)
Class Unicode := mkUnicode {
  is_digit : Z -> bool;
  is_space : Z -> bool;
  is_word : Z -> bool;
  digits_are_word : forall c, is_digit c = true -> is_word c = true;
  (* of ASCII the digits are 0 to 9 *)
  ascii_digits : forall c, 0 <= c < 128 -> is_digit c = (48 <=? c) && (c <=? 57);
  ascii_word : forall c, 0 <= c < 128 ->
    is_word c = (48 <=? c) && (c <=? 57) || (65 <=? c) && (c <=? 90) || (97 <=? c) && (c <=? 122) || (c =? 95);
  ascii_space : forall c, 0 <= c < 128 -> is_space c = (9 <=? c) && (c <=? 13) || (28 <=? c) && (c <=? 32)
}.

(** ** Expressions *)

Inductive item :=
  | Boundary                                                     (* \b *)
  | Run (class : Z -> bool) (least : nat) (most : option nat).    (* [class]{least,most} *)

Section Matching.
Context `{Unicode}.

Definition word_at (c : option Z) : bool := match c with Some c => is_word c | None => false end.

(** The last character before, after [v]. *)
Definition after (prev : option Z) (v : pystr) : option Z := match last v with Some c => Some c | None => prev end.

(** How many characters a run takes at most. *)
Fixpoint run_length (class : Z -> bool) (s : pystr) : nat :=
  match s with c :: r => if class c then S (run_length class r) else O | [] => O end.
Definition at_most (most : option nat) (n : nat) : nat := match most with Some m => Nat.min m n | None => n end.

(** [f n], or the first below it that is something, down to [least]. *)
Fixpoint longest {A} (f : nat -> option A) (least n : nat) : option A :=
  if (n <? least)%nat then None
  else match f n with
       | Some a => Some a
       | None => match n with O => None | S n => longest f least n end
       end.

(** How many characters of [s] the expression matches. *)
Fixpoint matches (p : list item) (prev : option Z) (s : pystr) : option nat :=
  match p with
  | [] => Some O
  | Boundary :: p => if xorb (word_at prev) (word_at (head s)) then matches p prev s else None
  | Run class least most :: p =>
      longest (fun n => (fun m => n + m)%nat <$> matches p (after prev (take n s)) (drop n s))
        least (at_most most (run_length class s))
  end.

(** [re.sub]; [skip] characters belong to the match before. *)
Fixpoint sub (p : list item) (replacement : pystr -> pystr) (prev : option Z) (s : pystr) (skip : nat) : pystr :=
  match s with
  | [] => []
  | c :: r =>
      match skip with
      | S k => sub p replacement (Some c) r k
      | O =>
          match matches p prev s with
          | Some (S n) => replacement (take (S n) s) ++ sub p replacement (Some c) r n
          | _ => c :: sub p replacement (Some c) r O
          end
      end
  end.

Definition re_sub (p : list item) (replacement : pystr -> pystr) (s : pystr) : pystr := sub p replacement None s O.

(** [re.search] *)
Fixpoint search (p : list item) (prev : option Z) (s : pystr) : bool :=
  match matches p prev s with
  | Some _ => true
  | None => match s with c :: r => search p (Some c) r | [] => false end
  end.

(** ** The patterns *)

Definition one (c : Z) : Z -> bool := Z.eqb c.
Definition one_of (s : pystr) (c : Z) : bool := existsb (Z.eqb c) s.
Definition alphanumeric (c : Z) : bool :=
  (48 <=? c) && (c <=? 57) || (65 <=? c) && (c <=? 90) || (97 <=? c) && (c <=? 122).
Definition either (f g : Z -> bool) (c : Z) : bool := f c || g c.

Definition exactly (n : nat) (class : Z -> bool) : item := Run class n (Some n).
Definition optional (class : Z -> bool) : item := Run class 0 (Some 1%nat).
Definition at_least (n : nat) (class : Z -> bool) : item := Run class n None.

Definition dash_space : Z -> bool := either (one_of (u "-")) is_space.
Definition dash_dot_space : Z -> bool := either (one_of (u "-.")) is_space.
Definition token_char : Z -> bool := either alphanumeric (one_of (u "_-")).

Definition ssn : list item :=
  [Boundary; exactly 3 is_digit; exactly 1 (one 45); exactly 2 is_digit; exactly 1 (one 45); exactly 4 is_digit; Boundary].
Definition nine_digits : list item := [Boundary; exactly 9 is_digit; Boundary].
Definition card : list item :=
  [Boundary; exactly 4 is_digit; optional dash_space; exactly 4 is_digit; optional dash_space; exactly 4 is_digit;
   optional dash_space; exactly 4 is_digit; Boundary].
(** [[A-Z|a-z]] has the bar among its characters. *)
Definition email : list item :=
  [Boundary; at_least 1 (either alphanumeric (one_of (u "._%+-"))); exactly 1 (one 64);
   at_least 1 (either alphanumeric (one_of (u ".-"))); exactly 1 (one 46);
   at_least 2 (fun c => (65 <=? c) && (c <=? 90) || (c =? 124) || (97 <=? c) && (c <=? 122)); Boundary].
Definition phone : list item :=
  [Boundary; exactly 3 is_digit; optional dash_dot_space; exactly 3 is_digit; optional dash_dot_space; exactly 4 is_digit; Boundary].
Definition bracketed_phone : list item :=
  [exactly 1 (one 40); exactly 3 is_digit; exactly 1 (one 41); optional is_space; exactly 3 is_digit; optional dash_dot_space;
   exactly 4 is_digit; Boundary].
Definition jwt : list item :=
  [Boundary; at_least 1 token_char; exactly 1 (one 46); at_least 1 token_char; exactly 1 (one 46); at_least 1 token_char; Boundary].
Definition api_key : list item := [Boundary; at_least 20 token_char; Boundary].

Definition LONG_TOKEN_LENGTH_THRESHOLD : nat := 30.

Definition key_replacement (m : pystr) : pystr :=
  if (LONG_TOKEN_LENGTH_THRESHOLD <? length m)%nat then u "XXXXX...XXXXX" else u "XXX".

Definition always (s : pystr) (_ : pystr) : pystr := s.

(** In the order they are applied. *)
Definition substitutions : list (list item * (pystr -> pystr)) :=
  [(ssn, always (u "XXX-XX-XXXX")); (nine_digits, always (u "XXXXXXXXX")); (card, always (u "XXXX-XXXX-XXXX-XXXX"));
   (email, always (u "XXX@XXX.XXX")); (phone, always (u "XXX-XXX-XXXX")); (bracketed_phone, always (u "(XXX) XXX-XXXX"));
   (jwt, always (u "XXX.XXX.XXX")); (api_key, key_replacement)].

Definition mask_sensitive_patterns (data : option pystr) : option pystr :=
  (fun s => foldl (fun s q => re_sub q.1 q.2 s) s substitutions) <$> data.
End Matching.

(** ** What an expression matches *)

Section Paths.
Context `{Unicode}.

(** An expression matches [v] between [prev] and [rest]. *)
Fixpoint path (p : list item) (prev : option Z) (v rest : pystr) : Prop :=
  match p with
  | [] => v = []
  | Boundary :: p => word_at prev <> word_at (head (v ++ rest)) /\ path p prev v rest
  | Run class least most :: p => exists v1 v2, v = v1 ++ v2 /\ Forall (fun c => class c = true) v1 /\
      (least <= length v1)%nat /\ (match most with Some m => length v1 <= m | None => True end)%nat /\
      path p (after prev v1) v2 rest
  end.

Lemma run_length_le class s : (run_length class s <= length s)%nat.
Proof. induction s as [|c s IH]; cbn; [lia|]. destruct (class c); lia. Qed.

Lemma run_length_take class s n : (n <= run_length class s)%nat -> Forall (fun c => class c = true) (take n s).
Proof.
  revert n. induction s as [|c s IH]; intros n L; [by rewrite take_nil|]. destruct n as [|n]; [by apply Forall_nil|].
  cbn in *. destruct (class c) eqn:E; [|lia]. apply Forall_cons. split; [done|]. apply IH. lia.
Qed.

Lemma run_length_ge class v rest : Forall (fun c => class c = true) v -> (length v <= run_length class (v ++ rest))%nat.
Proof. induction 1 as [|c v E _ IH]; cbn; [lia|]. rewrite E. lia. Qed.

Lemma longest_eq {A} (f : nat -> option A) least n : longest f least n =
  if (n <? least)%nat then None
  else match f n with Some a => Some a | None => match n with O => None | S n => longest f least n end end.
Proof. by destruct n. Qed.

Lemma longest_some {A} (f : nat -> option A) least n a : longest f least n = Some a -> exists k, (least <= k <= n)%nat /\ f k = Some a.
Proof.
  induction n as [|n IH]; rewrite longest_eq; case_match eqn:L; try done; apply Nat.ltb_ge in L; destruct (f _) eqn:E; try done; intros K.
  - exists O. split; [lia|congruence].
  - exists (S n). split; [lia|congruence].
  - destruct (IH K) as (k & Hk & F). exists k. split; [lia|done].
Qed.

Lemma longest_none {A} (f : nat -> option A) least n k : longest f least n = None -> (least <= k <= n)%nat -> f k = None.
Proof.
  intros K Hk. induction n as [|n IH]; rewrite longest_eq in K; (case_match eqn:L; [apply Nat.ltb_lt in L; lia|]); case_match eqn:E; try done.
  - by replace k with O by lia.
  - destruct (decide (k = S n)) as [->|]; [done|]. apply IH; [done|lia].
Qed.

(** The matcher finds a match exactly where there is one. *)
Lemma matches_sound p prev s n : matches p prev s = Some n -> (n <= length s)%nat /\ path p prev (take n s) (drop n s).
Proof.
  revert prev s n. induction p as [|[|class least most] p IH]; cbn; intros prev s n E.
  - injection E as <-. split; [lia|done].
  - destruct (xorb _ _) eqn:X; [|done]. destruct (IH _ _ _ E) as [L P]. split; [done|]. rewrite take_drop.
    split; [|done]. intros W. rewrite W in X. by rewrite xorb_nilpotent in X.
  - apply longest_some in E as (k & Hk & F). destruct (matches p _ _) as [m|] eqn:M; [|done]. cbn in F. injection F as <-.
    assert (K : (k <= run_length class s)%nat) by (destruct most; cbn in Hk; lia). pose proof (run_length_le class s).
    destruct (IH _ _ _ M) as [L P]. rewrite length_drop in L. split; [lia|].
    exists (take k s), (take m (drop k s)). rewrite take_take_drop, length_take_le by lia. rewrite drop_drop in P.
    split_and!; [done|by apply run_length_take|lia|destruct most; cbn in Hk; lia|done].
Qed.

Lemma matches_complete p prev v rest : path p prev v rest -> matches p prev (v ++ rest) <> None.
Proof.
  revert prev v. induction p as [|[|class least most] p IH]; cbn; intros prev v P.
  - done.
  - destruct P as [W P]. specialize (IH _ _ P). by destruct (word_at prev), (word_at _).
  - destruct P as (v1 & v2 & -> & F & L & M & P). specialize (IH _ _ P). rewrite <- app_assoc. intros E.
    assert (K : (least <= length v1 <= at_most most (run_length class (v1 ++ v2 ++ rest)))%nat)
      by (pose proof (run_length_ge class v1 (v2 ++ rest) F); destruct most; cbn; lia).
    pose proof (longest_none _ _ _ _ E K) as N. cbn in N. rewrite take_app_length, drop_app_length in N.
    destruct (matches p _ _); done.
Qed.

Lemma after_nonempty prev prev' v : v <> [] -> after prev v = after prev' v.
Proof. intros H0. unfold after. destruct (last v) eqn:E; [done|]. by apply last_None in E. Qed.

(** A match only looks one character beyond itself on either side. *)
Lemma path_elsewhere p prev prev' v rest rest' : word_at prev = word_at prev' -> word_at (head rest) = word_at (head rest') ->
  path p prev v rest -> path p prev' v rest'.
Proof.
  intros W R. revert prev prev' v W. induction p as [|[|class least most] p IH]; cbn; intros prev prev' v W P; [done|..].
  - destruct P as [X P]. split; [|by eapply IH]. rewrite <- W. by destruct v; cbn in *; rewrite <- ?R.
  - destruct P as (v1 & v2 & -> & F & L & M & P). exists v1, v2. split_and!; try done.
    eapply IH; [|exact P]. destruct v1 as [|c v1]; [done|]. by rewrite (after_nonempty prev prev').
Qed.
End Paths.

(** ** Numbers *)

Section Numbers.
Context `{Unicode}.

(** Digits and what the patterns allow between them. *)
Definition numeral (c : Z) : Prop := is_digit c = true \/ c = 45 \/ c = 46 \/ is_space c = true.

(** What follows the first character of a number, the closing bracket of an area
    code included. *)
Definition inner (c : Z) : Prop := numeral c \/ c = 41.

(** A number begins with a digit, or with a bracket and a digit. *)
Definition opens (s : pystr) : Prop := exists d w, is_digit d = true /\ (s = d :: w \/ s = 40 :: d :: w).

(** The matches of [p] are such words, no character of a word after them; and none
    before them where that matters. *)
Definition numeric (p : list item) : Prop := forall prev v rest, path p prev v rest ->
  (word_at prev = false \/ forall prev', path p prev' v rest) /\ opens v /\ Forall inner (tail v) /\ word_at (head rest) = false.

Definition inner_classes : list item -> Prop :=
  Forall (fun i => match i with Run f _ _ => forall c, f c = true -> inner c | _ => False end).

Lemma numeric_end body n m prev v rest : inner_classes body ->
  path (body ++ [Run is_digit (S n) m; Boundary]) prev v rest -> Forall inner v /\ word_at (head rest) = false.
Proof.
  intros B. revert prev v. induction B as [|[|f least most] body Hf _ IH]; [|done|]; intros prev v P; cbn in P.
  - destruct P as (v1 & v2 & -> & F & L & _ & X & ->). rewrite app_nil_r. cbn in X.
    split; [eapply list.Forall_impl; [exact F|]; intros c Hc; left; by left|].
    destruct (last v1) as [d|] eqn:E; [|apply last_None in E as ->; cbn in L; lia].
    assert (D : is_digit d = true) by (rewrite list.Forall_forall in F; by apply F, last_Some_elem_of).
    unfold after in X. rewrite E in X. cbn in X. rewrite digits_are_word in X by done. by destruct (word_at _).
  - destruct P as (v1 & v2 & -> & F & _ & _ & P). destruct (IH _ _ P) as [A R]. split; [|done].
    apply list.Forall_app. split; [|done]. eapply list.Forall_impl; [exact F|]. intros c Hc. by apply Hf.
Qed.

Lemma digit_first n m p prev v rest : path (Run is_digit (S n) m :: p) prev v rest -> exists d w, v = d :: w /\ is_digit d = true.
Proof.
  intros (v1 & v2 & -> & F & L & _). destruct v1 as [|d v1]; [cbn in L; lia|]. apply Forall_cons in F as [D _]. by exists d, (v1 ++ v2).
Qed.

Lemma inner_tail v : Forall inner v -> Forall inner (tail v).
Proof. by destruct 1. Qed.

Lemma numeric_shape first n m body n' m' : first = [Run is_digit (S n) m] \/ first = [] /\ body = [] -> inner_classes body ->
  numeric (Boundary :: first ++ body ++ [Run is_digit (S n') m'; Boundary]).
Proof.
  intros F B prev v rest [X P].
  assert (D : exists d w, v = d :: w /\ is_digit d = true) by (destruct F as [->|[-> ->]]; by eapply digit_first).
  destruct D as (d & w & -> & D). cbn in X. rewrite digits_are_word in X by done. split; [left; by destruct (word_at prev)|].
  split; [exists d, w; by split; [|left]|]. rewrite app_assoc in P. eapply numeric_end in P as [A R]; [by split; [apply inner_tail|]|].
  destruct F as [->|[-> ->]]; [|constructor]. constructor; [intros c Hc; left; by left|done].
Qed.

(** A class of digits, dashes, dots and spaces. *)
Ltac numeral_class := unfold exactly, optional, one, dash_space, dash_dot_space, either, one_of; cbn -[Z.eqb]; intros c E; unfold inner, numeral;
  destruct (is_digit c), (is_space c); try (left; auto; fail);
  repeat (apply orb_prop in E as [E|E]; try done); apply Z.eqb_eq in E; subst; auto 6.
Ltac each_class := repeat (apply Forall_cons; split); try apply Forall_nil_2; numeral_class.

Lemma ssn_numeric : numeric ssn.
Proof. apply (numeric_shape [exactly 3 is_digit] 2 (Some 3%nat) [exactly 1 (one 45); exactly 2 is_digit; exactly 1 (one 45)] 3 (Some 4%nat)); [by left|each_class]. Qed.

Lemma nine_digits_numeric : numeric nine_digits.
Proof. apply (numeric_shape [] 0 None [] 8 (Some 9%nat)); [by right|constructor]. Qed.

Lemma card_numeric : numeric card.
Proof. apply (numeric_shape [exactly 4 is_digit] 3 (Some 4%nat)
  [optional dash_space; exactly 4 is_digit; optional dash_space; exactly 4 is_digit; optional dash_space] 3 (Some 4%nat)); [by left|each_class]. Qed.

Lemma phone_numeric : numeric phone.
Proof. apply (numeric_shape [exactly 3 is_digit] 2 (Some 3%nat) [optional dash_dot_space; exactly 3 is_digit; optional dash_dot_space] 3 (Some 4%nat)); [by left|each_class]. Qed.

(** The bracketed form begins with its bracket, whatever is before it. *)
Lemma bracketed_numeric : numeric bracketed_phone.
Proof.
  intros prev v rest (v1 & v2 & -> & F & L & M & P). destruct v1 as [|c [|c' v1]]; cbn in L, M; [lia| |lia].
  apply Forall_cons in F as [E _]. unfold one in E. apply Z.eqb_eq in E as <-. split; [|split; [|cbn [tail app]]].
  - right. intros prev'. exists [40], v2. split_and!; [done|by repeat constructor|cbn; lia|cbn; lia|].
    eapply path_elsewhere; [| |exact P]; by rewrite ?(after_nonempty prev' prev).
  - destruct (digit_first _ _ _ _ _ _ P) as (d & w & -> & D). exists d, w. split; [done|by right].
  - eapply (numeric_end [exactly 3 is_digit; exactly 1 (one 41); optional is_space; exactly 3 is_digit; optional dash_dot_space] 3);
      [each_class|exact P].
Qed.
End Numbers.

(** ** What masking leaves *)

Section Masked.
Context `{Unicode}.

(** A replacement without digits that begins and ends with a character no number
    meets; one that begins with a bracket replaces what begins with one. *)
Definition harmless (q : list item) (replacement : pystr -> pystr) : Prop := forall prev v rest, path q prev v rest ->
  v <> [] /\ Forall (fun c => is_digit c = false) (replacement v) /\
  (exists a w, replacement v = a :: w /\ ~ inner a /\ (is_word a = true \/ word_at (head v) = false)) /\
  word_at (last (replacement v)) = true.

Lemma number_found p prev s n : numeric p -> matches p prev s = Some n -> opens s.
Proof.
  intros N M. destruct (matches_sound _ _ _ _ M) as [_ P]. destruct (N _ _ _ P) as (_ & (d & w & D & E) & _).
  rewrite <- (take_drop n s). exists d, (w ++ drop n s). split; [done|]. by destruct E as [-> | ->]; [left|right].
Qed.

(** No number begins in a text without digits that does not end in a bracket. *)
Lemma search_through p R t prev : numeric p -> Forall (fun c => is_digit c = false) R -> last R <> Some 40 ->
  search p (after prev R) t = false -> search p prev (R ++ t) = false.
Proof.
  intros N F. revert prev. induction F as [|c R Hc F IH]; intros prev L E; [exact E|]. cbn.
  rewrite last_cons in L. destruct (matches p prev (c :: R ++ t)) as [n|] eqn:M.
  - destruct (number_found _ _ _ _ N M) as (d & w & D & [E0|E0]); [by injection E0 as -> _; congruence|injection E0 as -> E'].
    destruct F as [|c' R Hc' _]; [by destruct L|]. injection E' as -> _. congruence.
  - apply IH; [by destruct (last R)|]. unfold after in *. rewrite last_cons in E. by destruct (last R).
Qed.

(** Characters of numbers in the result are characters of the text. *)
Lemma sub_prefix q R prev s v t : harmless q R -> Forall inner v -> sub q R prev s 0 = v ++ t ->
  exists s', s = v ++ s' /\ t = sub q R (after prev v) s' 0.
Proof.
  intros Hq F. revert prev s. induction F as [|c v Hc _ IH]; intros prev s E; [by exists s|].
  destruct s as [|c0 r]; [done|]. cbn in E. destruct (matches q prev (c0 :: r)) as [[|n]|] eqn:M.
  1, 3: injection E as -> E; destruct (IH _ _ E) as (s' & -> & ->); exists s'; split; [done|];
    unfold after; rewrite last_cons; by destruct (last v).
  exfalso. destruct (matches_sound _ _ _ _ M) as [_ P]. destruct (Hq _ _ _ P) as (_ & _ & (a & w & Ea & Na & _) & _).
  cbn [take] in *. rewrite Ea in E. injection E as -> _. done.
Qed.

Lemma sub_head q R prev s : harmless q R -> word_at (head (sub q R prev s 0)) = false -> word_at (head s) = false.
Proof.
  intros Hq E. destruct s as [|c r]; [done|]. cbn in E. destruct (matches q prev (c :: r)) as [[|n]|] eqn:M; [done| |done].
  destruct (matches_sound _ _ _ _ M) as [_ P]. destruct (Hq _ _ _ P) as (_ & _ & (a & w & Ea & _ & [Wa|Wh]) & _); [|done].
  cbn [take] in *. rewrite Ea in E. cbn in E. congruence.
Qed.

Lemma word_last_bracket (R : pystr) : word_at (last R) = true -> last R <> Some 40.
Proof. intros L E. rewrite E in L. cbn in L. by rewrite ascii_word in L. Qed.

(** A number in what a substitution copies, from its first character on, is one of
    the text. *)
Lemma copied_number p q R prev prev' c r m : numeric p -> harmless q R ->
  (word_at prev = true -> word_at prev' = true) ->
  matches p prev' (c :: sub q R (Some c) r 0) = Some m -> matches p prev (c :: r) <> None.
Proof.
  intros Np Hq W M. destruct (matches_sound _ _ _ _ M) as [_ P]. destruct (Np _ _ _ P) as (Wp & Op & F & Wr).
  destruct m as [|m]; [by destruct Op as (d & w & _ & [|])|]. cbn [take drop tail] in *.
  set (out := sub q R (Some c) r 0) in *. assert (E : out = take m out ++ drop m out) by by rewrite take_drop.
  destruct (sub_prefix _ _ _ _ _ _ Hq F E) as (s' & Es & Et). rewrite Es.
  apply (matches_complete p prev (c :: take m out) s'). pose proof Wr as Wr'. rewrite Et in Wr'. apply sub_head in Wr'; [|done].
  destruct Wp as [Wp|Wp]; [|specialize (Wp prev)].
  - eapply path_elsewhere; [| |exact P]; [|by rewrite Wr, Wr']. rewrite Wp. destruct (word_at prev); [|done].
    by rewrite W in Wp.
  - eapply path_elsewhere; [done| |exact Wp]. by rewrite Wr, Wr'.
Qed.

(** A substitution leaves no number of its own pattern, and makes none of another. *)
Lemma sub_clean p q R s : numeric p -> harmless q R -> forall prev prev' skip, (q = p \/ search p prev s = false) ->
  (skip = O -> word_at prev = true -> word_at prev' = true) -> (skip <> O -> word_at prev' = true) ->
  search p prev' (sub q R prev s skip) = false.
Proof.
  intros Np Hq. induction s as [|c r IH]; intros prev prev' skip C W0 W1.
  - cbn. destruct (matches p prev' []) as [n|] eqn:M; [|done]. by destruct (number_found _ _ _ _ Np M) as (d & w & _ & [|]).
  - assert (C' : q = p \/ search p (Some c) r = false) by (destruct C as [C|C]; [by left|right; cbn in C; by destruct (matches p prev _)]).
    destruct skip as [|k]; [|apply IH; [done|by intros _ _; apply W1|by intros _; apply W1]]. cbn.
    destruct (matches q prev (c :: r)) as [[|n]|] eqn:M.
    { destruct (matches_sound _ _ _ _ M) as [_ P]. by destruct (Hq _ _ _ P) as [? _]. }
    + destruct (matches_sound _ _ _ _ M) as [_ P]. destruct (Hq _ _ _ P) as (_ & F & _ & L).
      apply search_through; [done|done|by apply word_last_bracket|].
      assert (L' : word_at (after prev' (R (take (S n) (c :: r)))) = true) by (unfold after; by destruct (last (R _))).
      by apply IH.
    + cbn [search]. destruct (matches p prev' (c :: sub q R (Some c) r 0)) as [m|] eqn:M'; [|apply IH; [done|done|done]].
      exfalso. apply (copied_number p q R prev prev' c r m); auto.
      destruct C as [->|C]; [done|]. cbn in C. by destruct (matches p prev (c :: r)).
Qed.

Lemma fold_clean p l s : numeric p -> Forall (fun q => harmless q.1 q.2) l -> (p ∈ l.*1 \/ search p None s = false) ->
  search p None (foldl (fun s q => re_sub q.1 q.2 s) s l) = false.
Proof.
  intros Np F. revert s. induction F as [|[q R] l Hq _ IH]; intros s C; cbn.
  - destruct C as [C|C]; [by apply elem_of_nil in C|done].
  - apply IH. destruct C as [C|C]; [apply elem_of_cons in C as [->|C]; [right|by left]|right]; apply sub_clean; try done; by (left + right).
Qed.

(** *** The substitutions of the code *)

Definition consumes (p : list item) : bool := existsb (fun i => match i with Run _ (S _) _ => true | _ => false end) p.

Lemma consumes_spec p prev v rest : consumes p = true -> path p prev v rest -> v <> [].
Proof.
  revert prev v. induction p as [|[|class [|least] most] p IH]; intros prev v C P; cbn in *; [done|..].
  - by eapply IH, P.
  - destruct P as (v1 & v2 & -> & _ & _ & _ & P). intros [_ ->]%app_nil. by eapply IH.
  - destruct P as (v1 & v2 & -> & _ & L & _). intros [-> _]%app_nil. cbn in L. lia.
Qed.

(** ASCII, without digits, from a given character to an X. *)
Definition plain (first : Z) (text : pystr) : bool :=
  bool_decide (head text = Some first) && bool_decide (last text = Some 88) &&
  forallb (fun c => (0 <=? c) && (c <? 128) && negb ((48 <=? c) && (c <=? 57))) text.

Lemma plain_digits first text : plain first text = true -> Forall (fun c => is_digit c = false) text.
Proof.
  unfold plain. intros [_ F]%andb_prop. rewrite forallb_forall in F. apply list.Forall_forall. intros c Hc%list_elem_of_In.
  specialize (F c Hc). apply andb_prop in F as [A N]. apply andb_prop in A as [A B].
  apply negb_true_iff in N. rewrite ascii_digits; [done|]. clear N. zbool. lia.
Qed.

Lemma not_inner c : 0 <= c < 128 -> ~ 9 <= c <= 13 -> ~ 28 <= c <= 32 -> ~ 48 <= c <= 57 -> c <> 45 -> c <> 46 -> c <> 41 -> ~ inner c.
Proof.
  intros A S1 S2 D N1 N2 N3 [[E|[->|[->|E]]]| ->]; [|done|done| |done].
  - rewrite ascii_digits in E by done. zbool. lia.
  - rewrite ascii_space in E by done. apply orb_prop in E as [E|E]; zbool; lia.
Qed.

Lemma harmless_plain q R first : consumes q = true -> (forall v, plain first (R v) = true) -> first = 88 \/ first = 40 ->
  (first = 40 -> forall prev v rest, path q prev v rest -> word_at (head v) = false) -> harmless q R.
Proof.
  intros C P F B prev v rest Pv. specialize (P v). pose proof (plain_digits _ _ P) as D. split; [by eapply consumes_spec|].
  split; [exact D|]. unfold plain in P. apply andb_prop in P as [P _]. apply andb_prop in P as [Ph Pl].
  apply bool_decide_eq_true in Ph, Pl. split; [|rewrite Pl; cbn; by rewrite ascii_word].
  destruct (R v) as [|a w]; [done|]. injection Ph as ->. exists first, w. split; [done|].
  split; [apply not_inner; lia|]. destruct F as [->|E]; [left; by rewrite ascii_word|right; by eapply B].
Qed.

Lemma bracket_first prev v rest : path bracketed_phone prev v rest -> word_at (head v) = false.
Proof.
  intros (v1 & v2 & -> & F & L & _). destruct v1 as [|c v1]; [cbn in L; lia|]. apply Forall_cons in F as [E _].
  unfold one in E. apply Z.eqb_eq in E as <-. cbn. by rewrite ascii_word.
Qed.

Lemma substitutions_harmless : Forall (fun q => harmless q.1 q.2) substitutions.
Proof.
  repeat (apply Forall_cons; split); try apply Forall_nil_2; cbn [fst snd].
  6: { apply (harmless_plain _ _ 40); [done|done|by right|intros _; apply bracket_first]. }
  all: apply (harmless_plain _ _ 88); [done| |by left|lia]; intros v; unfold always, key_replacement; try case_match; reflexivity.
Qed.

(** The patterns of numbers. *)
Definition number_patterns : list (list item) := [ssn; nine_digits; card; phone; bracketed_phone].

Lemma listed_numeric p : p ∈ number_patterns -> numeric p.
Proof.
  intros Hp. unfold number_patterns in Hp. repeat (apply elem_of_cons in Hp as [->|Hp];
    [auto using ssn_numeric, nine_digits_numeric, card_numeric, phone_numeric, bracketed_numeric|]).
  by apply elem_of_nil in Hp.
Qed.

Lemma listed_substituted p : p ∈ number_patterns -> p ∈ substitutions.*1.
Proof.
  intros Hp. unfold number_patterns in Hp.
  repeat (apply elem_of_cons in Hp as [->|Hp]; [cbn; repeat (apply elem_of_cons; first [by left|right])|]). by apply elem_of_nil in Hp.
Qed.

(** C40. No number survives the masking: in a masked text none of the patterns for a
    social security number, nine digits, a card number or a telephone number, with
    its area code in brackets or not, matches anywhere any more, neither what the
    text contained nor anything a replacement and its surroundings make up; whatever
    else the text contains, in any script. *)
Theorem numbers_are_masked p data : p ∈ number_patterns ->
  match mask_sensitive_patterns data with Some m => search p None m = false | None => data = None end.
Proof.
  intros Hp. destruct data as [s|]; [|done]. cbn -[substitutions].
  apply fold_clean; [by apply listed_numeric|apply substitutions_harmless|left; by apply listed_substituted].
Qed.
End Masked.

(** The tables of ASCII texts. *)
Module Example.
#[export] Program Instance ascii : Unicode := {|
  is_digit c := (48 <=? c) && (c <=? 57);
  is_space c := (9 <=? c) && (c <=? 13) || (28 <=? c) && (c <=? 32);
  is_word c := (48 <=? c) && (c <=? 57) || (65 <=? c) && (c <=? 90) || (97 <=? c) && (c <=? 122) || (c =? 95)
|}.
Next Obligation. intros c E. cbn in *. by rewrite E. Qed.
Next Obligation. done. Qed.
Next Obligation. done. Qed.
Next Obligation. done. Qed.

Definition masked (s : pystr) : pystr := default [] (mask_sensitive_patterns (Some s)).

(** What the patterns take, and what they do not. *)
Lemma masked_texts :
  masked (u "123-45-6789, 4111 1111 1111 1111, (555) 123-4567") = u "XXX-XX-XXXX, XXXX-XXXX-XXXX-XXXX, (XXX) XXX-XXXX" /\
  masked (u "mail bob@example.org") = u "mail XXX@XXX.XXX" /\ masked (u "password=hunter2") = u "password=hunter2" /\
  masked (u "key abcdefghijklmnopqrst") = u "key XXX" /\ masked (u "key abcdefghijklmnopqrstuvwxyz012345") = u "key XXXXX...XXXXX" /\
  masked (u "func:app.users.get:args") = u "func:XXX.XXX.XXX:args" /\ masked (u "id 1234567890123456789") = u "id 1234567890123456789".
Proof. split_and!; vm_compute; reflexivity. Qed.

Lemma numbers_are_masked_witness :
  search phone None (masked (u "call 555 123-4567")) = false /\ search bracketed_phone None (masked (u "call (555) 123-4567")) = false /\
  masked (u "call (555) 123-4567") = u "call (XXX) XXX-XXXX".
Proof.
  split_and!; [| |vm_compute; reflexivity].
  - exact (numbers_are_masked phone (Some (u "call 555 123-4567")) ltac:(do 3 (apply elem_of_cons; right); apply elem_of_cons; by left)).
  - exact (numbers_are_masked bracketed_phone (Some (u "call (555) 123-4567")) ltac:(do 4 (apply elem_of_cons; right); apply elem_of_cons; by left)).
Defined.
End Example.
