(* ===== verification/Tracing.v ===== *)
(** The structured logger and correlation tracking ([src/src/cachekit/logging.py],
    [monitoring/correlation_tracking.py]): entries, masking and sampling, the
    identifiers a thread keeps, scopes and spans.

    The thread is [me]; what is thread-local is a map from threads.  The host name,
    the process, the clock and the random draws are arguments. *)
From Stdlib Require Import ZArith Lia SpecFloat.
From stdpp Require Import base list numbers option strings gmap.
From S2P Require Import Prelude PyFloat PyDict Errors Effects RemoteErrors RingBuffer.

Local Open Scope Z_scope.
Local Open Scope py_scope.
Local Open Scope eff_scope.

Section Tracing.
(** Other values of a log call, and the state outside. *)
Context {V W : Type}.

Inductive field := FText (s : pystr) | FInt (z : Z) | FFloat (x : float) | FOther (v : V).

Record LogEntry := mkEntry {
  timestamp : float;
  level : pystr;
  message : pystr;
  extra : list (pystr * field)
}.

Record state := mkState {
  (* [_context.trace_id] and [_context.correlation_id] of the logger *)
  trace_ids : gmap Z pystr;
  logged_ids : gmap Z pystr;
  log_buffer : LockFreeRingBuffer LogEntry;
  (* [_context.correlation_id] of the tracker *)
  correlation_ids : gmap Z pystr;
  outside : W
}.

Definition with_traces (f : gmap Z pystr -> gmap Z pystr) (s : state) : state :=
  mkState (f (trace_ids s)) (logged_ids s) (log_buffer s) (correlation_ids s) (outside s).
Definition with_logged (f : gmap Z pystr -> gmap Z pystr) (s : state) : state :=
  mkState (trace_ids s) (f (logged_ids s)) (log_buffer s) (correlation_ids s) (outside s).
Definition with_buffer (r : LockFreeRingBuffer LogEntry) (s : state) : state :=
  mkState (trace_ids s) (logged_ids s) r (correlation_ids s) (outside s).
Definition with_ids (f : gmap Z pystr -> gmap Z pystr) (s : state) : state :=
  mkState (trace_ids s) (logged_ids s) (log_buffer s) (f (correlation_ids s)) (outside s).

(** ** Entries *)

(** [str.lower], as far as a substring of ASCII letters can tell: the Kelvin sign
    is the only other character with an ASCII letter of these words for its lower
    case. *)
Definition lower (s : pystr) : pystr :=
  map (fun c => if (65 <=? c) && (c <=? 90) then c + 32 else if c =? 0x212A then 107 else c) s.

(** [w in s] *)
Fixpoint contains (w s : pystr) : bool :=
  bool_decide (take (length w) s = w) || match s with [] => false | _ :: r => contains w r end.

Definition _pii_keys : list pystr := [u "password"; u "token"; u "secret"; u "key"; u "auth"].

Definition is_pii (key : pystr) : bool := existsb (fun pii => contains pii (lower key)) _pii_keys.

Definition _mask_pii (data : list (pystr * field)) : list (pystr * field) :=
  map (fun kv => if is_pii kv.1 then (kv.1, FText (u "****")) else kv) data.

Context (name hostname : pystr) (pid me : Z).
(** [SAMPLING_RATE] *)
Context (sampling_rate : float).

(** [{**first, **over}] *)
Definition merged (first over : list (pystr * field)) : list (pystr * field) :=
  foldl (fun acc kv => od_set kv.1 kv.2 acc) first over.

Definition entry (now : float) (level message : pystr) (kwargs : list (pystr * field)) : LogEntry :=
  mkEntry now level message
    (merged [(u "logger", FText name); (u "hostname", FText hostname); (u "pid", FInt pid); (u "thread_id", FInt me)]
       (_mask_pii kwargs)).

(** A full buffer drops the entry. *)
Definition append_entry (e : LogEntry) : eff state unit := modify (fun s => with_buffer (append e (log_buffer s)).2 s).

(** [draw] is [random.randint(0, 99)]. *)
Definition _should_sample (draw : Z) : bool :=
  match ftrunc (fmul sampling_rate (fofZ 100)) with Ok threshold => draw <? threshold | Err _ => false end.

(** [level] is in upper case, as every caller gives it. *)
Definition log (draw : Z) (now : float) (level message : pystr) (kwargs : list (pystr * field)) : eff state unit :=
  if _should_sample draw then append_entry (entry now level message kwargs) else ret tt.

(** [log] has the parameters [self], [level] and [message]. *)
Definition checked (kwargs : list (pystr * field)) (m : eff state unit) : eff state unit :=
  if existsb (fun kv => bool_decide (kv.1 ∈ [u "self"; u "level"; u "message"])) kwargs then throw (PyExn TypeError) else m.

Definition debug (draw : Z) (now : float) (message : pystr) (kwargs : list (pystr * field)) : eff state unit :=
  checked kwargs (log draw now (u "DEBUG") message kwargs).
Definition info (draw : Z) (now : float) (message : pystr) (kwargs : list (pystr * field)) : eff state unit :=
  checked kwargs (log draw now (u "INFO") message kwargs).
Definition warning (draw : Z) (now : float) (message : pystr) (kwargs : list (pystr * field)) : eff state unit :=
  checked kwargs (log draw now (u "WARNING") message kwargs).

(** Errors bypass sampling. *)
Definition error (now : float) (message : pystr) (kwargs : list (pystr * field)) : eff state unit :=
  append_entry (entry now (u "ERROR") message kwargs).

Definition serialization_fallback (draw : Z) (now : float) (from_serializer to_serializer reason : pystr)
    (kwargs : list (pystr * field)) : eff state unit :=
  warning draw now (u "Serialization fallback: " ++ from_serializer ++ u " -> " ++ to_serializer)
    ([(u "from_serializer", FText from_serializer); (u "to_serializer", FText to_serializer); (u "reason", FText reason)] ++ kwargs).

(** ** Identifiers of a thread *)

Definition set_trace_id (trace_id : pystr) : eff state unit := modify (with_traces (insert me trace_id)).
Definition clear_trace_id : eff state unit := modify (with_traces (delete me)).
Definition set_logged_id (correlation_id : pystr) : eff state unit := modify (with_logged (insert me correlation_id)).

Definition truthy (s : option pystr) : option pystr := match s with Some (c :: r) => Some (c :: r) | _ => None end.

Definition _get_context (now : float) (s : state) : list (pystr * field) :=
  [(u "timestamp", FFloat now); (u "thread_id", FInt me)] ++
  match truthy (trace_ids s !! me) with Some t => [(u "trace_id", FText t)] | None => [] end ++
  match truthy (logged_ids s !! me) with Some t => [(u "correlation_id", FText t)] | None => [] end.

(** ** Spans *)

(** [SimpleSpan.__enter__] at [now]: the trace identifier of the thread, or a new one. *)
Definition enter_span (now : float) : eff state unit :=
  current <~ gets (fun s => truthy (trace_ids s !! me)) ;;
  match current with
  | Some _ => ret tt
  | None => micros <~ lift (py (ftrunc (fmul now (fofZ 1000000)))) ;; set_trace_id (u "span-" ++ decimal micros)
  end.

Definition exit_span (draw : Z) (start now logged : float) (span_name : pystr) (kwargs : list (pystr * field)) : eff state unit :=
  match start with
  | S754_zero _ => ret tt
  | _ =>
      if existsb (fun kv => bool_decide (kv.1 ∈ [u "span_name"; u "duration_ms"])) kwargs then throw (PyExn TypeError)
      else debug draw logged (u "Span completed: " ++ span_name)
             ([(u "span_name", FText span_name); (u "duration_ms", FFloat (fmul (fsub now start) (fofZ 1000)))] ++ kwargs)
  end.

(** [with logger.create_span(name, **kwargs): body]; [times] are the readings of the
    clock: at the start, for the identifier, at the end, and of the entry. *)
Definition span {A} (times : float * float * float * float) (draw : Z) (span_name : pystr) (kwargs : list (pystr * field))
    (body : eff state A) : eff state A :=
  let '(start, at_id, now, logged) := times in
  _ <~ enter_span at_id ;;
  finally body (exit_span draw start now logged span_name kwargs).

(** ** Correlation *)

(** [integrated]: a [LoggerIntegratedTracker] with a logger; otherwise the base class,
    or no logger. *)
Context (integrated : bool).

Definition set_correlation_id (correlation_id : pystr) : eff state unit :=
  _ <~ modify (with_ids (insert me correlation_id)) ;;
  if integrated then set_trace_id correlation_id else ret tt.

Definition get_correlation_id : eff state (option pystr) := gets (fun s => correlation_ids s !! me).

Definition clear_correlation_id : eff state unit :=
  _ <~ modify (with_ids (delete me)) ;;
  if integrated then clear_trace_id else ret tt.

(** [fresh] is [generate_correlation_id()]. *)
Definition correlation_context {A} (fresh : pystr) (correlation_id : option pystr) (body : pystr -> eff state A) : eff state A :=
  let correlation_id := default fresh correlation_id in
  previous_id <~ get_correlation_id ;;
  finally (_ <~ set_correlation_id correlation_id ;; body correlation_id)
    (match previous_id with Some p => set_correlation_id p | None => clear_correlation_id end).

(** [set_structured_logger]: the identifier the thread has becomes its trace. *)
Definition set_structured_logger : eff state unit :=
  current <~ get_correlation_id ;;
  match truthy current with Some id => set_trace_id id | None => ret tt end.
End Tracing.
Arguments state : clear implicits.

(** ** What scopes leave behind *)

Section Scopes.
Context {V W : Type} (name hostname : pystr) (pid me : Z) (sampling_rate : float) (integrated : bool).
Local Abbreviation state := (state V W).
Local Abbreviation correlation_context := (correlation_context me integrated).
Local Abbreviation span := (span name hostname pid me sampling_rate).

(** The identifiers after a scope. *)
Definition restored (previous : option pystr) (s : state) : state :=
  let back (m : gmap Z pystr) := match previous with Some p => <[me := p]> m | None => delete me m end in
  let s := with_ids back s in
  if integrated then with_traces back s else s.

Lemma restore_spec previous (s : state) :
  (match previous with Some p => set_correlation_id me integrated p | None => clear_correlation_id me integrated end) s
  = (Ok tt, restored previous s).
Proof. unfold restored. by destruct previous, integrated. Qed.

(** A correlation scope is transparent: the body runs with the identifier of the
    scope, given or new, and afterwards, whatever it did to its thread's identifier
    and whether it returned or raised, the thread has the identifier it had before,
    or none; the outcome is the body's, other threads and the rest of the state are
    as the body left them.  With a logger the trace identifier of the thread becomes
    the restored one, or is removed. *)
Theorem correlation_scope {A} fresh correlation_id (body : pystr -> eff state A) s :
  let id := default fresh correlation_id in
  exists s0, correlation_ids s0 !! me = Some id /\ (integrated = true -> trace_ids s0 !! me = Some id) /\
    (forall t, t <> me -> correlation_ids s0 !! t = correlation_ids s !! t) /\
    let (o, s1) := body id s0 in
    exists s2, correlation_context fresh correlation_id body s = (o, s2) /\
      correlation_ids s2 !! me = correlation_ids s !! me /\
      (forall t, t <> me -> correlation_ids s2 !! t = correlation_ids s1 !! t /\ trace_ids s2 !! t = trace_ids s1 !! t) /\
      trace_ids s2 !! me = (if integrated then correlation_ids s !! me else trace_ids s1 !! me) /\
      log_buffer s2 = log_buffer s1 /\ outside s2 = outside s1.
Proof.
  intros id. exists (if integrated then with_traces (insert me id) (with_ids (insert me id) s) else with_ids (insert me id) s).
  split_and!.
  - destruct integrated; apply lookup_insert_eq.
  - intros ->. apply lookup_insert_eq.
  - intros t Ht. destruct integrated; by apply lookup_insert_ne.
  - destruct (body id _) as [o s1] eqn:B. exists (restored (correlation_ids s !! me) s1). split.
    { change (finally (_ <~ set_correlation_id me integrated id ;; body id)%eff
        (match correlation_ids s !! me with Some p => set_correlation_id me integrated p
         | None => clear_correlation_id me integrated end) s = (o, restored (correlation_ids s !! me) s1)).
      apply (run_finally _ _ _ _ s1); [|apply restore_spec].
      destruct integrated; exact B. }
    unfold restored. destruct (correlation_ids s !! me) as [p|], integrated; cbn; split_and!;
      rewrite ?lookup_insert_eq, ?lookup_delete_eq; try done;
      intros t Ht; rewrite ?lookup_insert_ne, ?lookup_delete_ne by done; done.
Qed.

(** The end of a span logs, and leaves the identifiers. *)
Lemma exit_span_keeps I draw start now logged span_name kwargs :
  keeps (fun s : state => I (trace_ids s)) (exit_span name hostname pid me sampling_rate draw start now logged span_name kwargs).
Proof.
  intros s Hs. unfold exit_span, debug, checked, log. by repeat case_match.
Qed.

(** The trace identifier a span makes outlives it: after a span in a thread
    without an identifier, whose body leaves it alone, the thread has the identifier
    of the span for good, whether the body returned or raised; the next span finds
    it and takes it over, so that later operations are traced as the first. *)
Theorem span_identifier_outlives {A} start at_id now logged draw span_name kwargs micros (body : eff state A) s :
  trace_ids s !! me = None -> ftrunc (fmul at_id (fofZ 1000000)) = Ok micros ->
  let id := u "span-" ++ decimal micros in
  keeps (fun s => trace_ids s !! me = Some id) body ->
  let s1 := (span (start, at_id, now, logged) draw span_name kwargs body s).2 in
  trace_ids s1 !! me = Some id /\ forall later, enter_span me later s1 = (Ok tt, s1).
Proof.
  intros Hs Hm id Hb s1. assert (H : trace_ids s1 !! me = Some id).
  { unfold s1, Tracing.span, andthen at 1. assert (enter_span me at_id s = (Ok tt, with_traces (insert me id) s)) as ->.
    { unfold enter_span, andthen, gets, lift. rewrite Hs. cbn -[ftrunc fmul fofZ]. by rewrite Hm. }
    apply (keeps_finally (fun s => trace_ids s !! me = Some id)); [done| |apply lookup_insert_eq].
    by apply (exit_span_keeps (fun m => m !! me = Some id)). }
  split; [done|]. intros later. unfold enter_span, andthen, gets. rewrite H. done.
Qed.
End Scopes.

(** A thread that leaves a span and enters another. *)
Module Example.
Definition fresh : state unit unit := mkState ∅ ∅ (init 10) ∅ tt.
Definition second (n : Z) : float := fofZ n.
(** 0.5 *)
Definition half : float := S754_finite false 4503599627370496 (-53).

Lemma span_identifier_outlives_witness :
  let s1 := (span (V := unit) (W := unit) (u "app") (u "host") 1 7 half (second 3, second 3, second 4, second 4) 99
               (u "load") [] (throw OtherError : eff (state unit unit) unit) fresh).2 in
  trace_ids s1 !! 7 = Some (u "span-3000000") /\ forall later, enter_span 7 later s1 = (Ok tt, s1).
Proof.
  apply (span_identifier_outlives (u "app") (u "host") 1 7 half (second 3) (second 3) (second 4) (second 4) 99
    (u "load") [] 3000000 (throw OtherError) fresh).
  - reflexivity.
  - vm_compute. reflexivity.
  - by intros s Hs.
Defined.

(** What a log call keeps, and what it masks. *)
Example masked : extra (entry (V := unit) (u "app") (u "host") 1 7 (second 0) (u "INFO") (u "m")
    [(u "cacheKEY", FText (u "k")); (u "pid", FInt 9); (u "Author", FInt 3); (u "ttl", FInt 60)]) =
  [(u "logger", FText (u "app")); (u "hostname", FText (u "host")); (u "pid", FInt 9); (u "thread_id", FInt 7);
   (u "cacheKEY", FText (u "****")); (u "Author", FText (u "****")); (u "ttl", FInt 60)].
Proof. vm_compute. reflexivity. Qed.
End Example.
