(* ===== verification/LogWriter.v ===== *)
(** The rest of the structured logger ([src/src/cachekit/logging.py]): the thread that
    writes what the ring buffer holds, the records of cache operations, of the
    connection pool and of the circuit breaker, and the loggers a process keeps.

    Between two iterations of the writer anything may be appended; the instructions of
    both are interleaved in [RingBuffer].  [logging] of the standard library, [json.dumps]
    and the metrics act on the state [W] outside. *)
From Stdlib Require Import ZArith Lia SpecFloat.
From stdpp Require Import base list numbers option strings gmap.
From S2P Require Import Prelude PyFloat PyDict Errors Effects RemoteErrors RingBuffer Tracing Masking.

Local Open Scope Z_scope.
Local Open Scope py_scope.
Local Open Scope eff_scope.

(** ** The writer thread *)

Section Writer.
Context {E : Type}.

Record AsyncLogWriter := mkWriter {
  ring : LockFreeRingBuffer E;
  running : bool;
  _stop_event : bool;
  (* [run] has not returned *)
  alive : bool
}.

Definition init_writer (size : Z) : AsyncLogWriter := mkWriter (RingBuffer.init size) true false true.

(** [BATCH_SIZE] *)
Context (batch_size : nat).

(** An iteration of [run]: the entries it hands to [_write_batch], which raises nothing. *)
Definition iterate (w : AsyncLogWriter) : list E * AsyncLogWriter :=
  if negb (alive w) then ([], w)
  else if negb (running w) || _stop_event w then ([], mkWriter (ring w) (running w) (_stop_event w) false)
  else let (entries, r) := drain batch_size (ring w) in (entries, mkWriter r (running w) (_stop_event w) true).

Definition stop (w : AsyncLogWriter) : AsyncLogWriter := mkWriter (ring w) false true (alive w).

Inductive writer_event := Append (e : E) | Iterate | Stop.

Definition writer_step (e : writer_event) (s : list E * AsyncLogWriter) : list E * AsyncLogWriter :=
  match e with
  | Append x => (s.1, mkWriter (append x (ring s.2)).2 (running s.2) (_stop_event s.2) (alive s.2))
  | Iterate => let (l, w) := iterate s.2 in (s.1 ++ l, w)
  | Stop => (s.1, stop s.2)
  end.

(** What was handed over, and the writer. *)
Definition writer_run (l : list writer_event) (s : list E * AsyncLogWriter) : list E * AsyncLogWriter :=
  foldl (fun s e => writer_step e s) s l.

(** *** What it writes *)

Lemma iterate_spec q (w : AsyncLogWriter) : holds 0 q (ring w) -> alive w = true -> running w = true -> _stop_event w = false ->
  (iterate w).1 = take batch_size q /\ holds 0 (drop batch_size q) (ring (iterate w).2) /\
  alive (iterate w).2 = true /\ running (iterate w).2 = true /\ _stop_event (iterate w).2 = false.
Proof.
  intros H A R S. unfold iterate. rewrite A, R, S. cbn. destruct (drain_holds batch_size q _ H) as (D & _ & H').
  destruct (drain batch_size (ring w)) as [l r]. done.
Qed.

Lemma iterations n : forall q s, holds 0 q (ring s.2) -> alive s.2 = true -> running s.2 = true -> _stop_event s.2 = false ->
  (writer_run (replicate n Iterate) s).1 = s.1 ++ take (n * batch_size) q /\
  holds 0 (drop (n * batch_size) q) (ring (writer_run (replicate n Iterate) s).2).
Proof.
  induction n as [|n IH]; intros q [acc w] H A R S; [cbn; rewrite app_nil_r; by rewrite drop_0|].
  destruct (iterate_spec q w H A R S) as (E1 & H1 & A1 & R1 & S1). unfold writer_run in *. cbn [replicate foldl].
  destruct (iterate w) as [l w1] eqn:E0. cbn in *. rewrite E0. subst l.
  destruct (IH _ (acc ++ take batch_size q, w1) H1 A1 R1 S1) as [E2 H2].
  rewrite E2. cbn [fst]. rewrite <- app_assoc, take_take_drop. rewrite drop_drop in H2. by split.
Qed.

Lemma stopped_step e s : _stop_event s.2 = true -> (writer_step e s).1 = s.1 /\ _stop_event (writer_step e s).2 = true.
Proof.
  destruct s as [acc w]. cbn. intros S. destruct e as [x| |]; [done| |done]. cbn. unfold iterate. rewrite S, orb_true_r.
  destruct (alive w); cbn; by rewrite app_nil_r.
Qed.

(** As long as the writer is not stopped everything that waits is handed over, in
    order, in as many iterations as it takes batches; and from the moment it is stopped,
    nothing ever is: what waits then, and whatever is logged later, is lost, since the
    thread leaves its loop without a last batch. *)
Theorem log_entries_delivered n q acc w : holds 0 q (ring w) -> alive w = true -> running w = true -> _stop_event w = false ->
  (length q <= n * batch_size)%nat ->
  (writer_run (replicate n Iterate) (acc, w)).1 = acc ++ q /\ holds 0 [] (ring (writer_run (replicate n Iterate) (acc, w)).2) /\
  forall l, (writer_run (Stop :: l) (acc, w)).1 = acc.
Proof.
  intros H A R S L. destruct (iterations n q (acc, w) H A R S) as [E1 H1]. rewrite take_ge in E1 by done. rewrite drop_ge in H1 by done.
  split; [exact E1|]. split; [exact H1|]. intros l. unfold writer_run. cbn [foldl].
  assert (I : forall s, _stop_event s.2 = true -> (foldl (fun s e => writer_step e s) s l).1 = s.1).
  { induction l as [|e l IH]; intros s Hs; [done|]. cbn [foldl]. destruct (stopped_step e s Hs) as [E2 S2]. by rewrite IH, E2. }
  by rewrite I.
Qed.
End Writer.
Arguments AsyncLogWriter : clear implicits.

Lemma log_entries_delivered_witness :
  let w := mkWriter (append 3 (append 2 (append 1 (RingBuffer.init 8)).2).2).2 true false true in
  (writer_run 2 [Iterate; Iterate] ([], w)).1 = [1; 2; 3] /\ (writer_run 2 [Stop; Iterate; Iterate] ([], w)).1 = [].
Proof.
  set (w := mkWriter (append 3 (append 2 (append 1 (RingBuffer.init 8)).2).2).2 true false true).
  assert (H : holds 0 [1; 2; 3] (ring w)).
  { cbn [ring]. apply (append_holds 3 [1; 2]), (append_holds 2 [1]), (append_holds 1 []), init_holds. lia. }
  destruct (log_entries_delivered 2 2 [1; 2; 3] [] w H eq_refl eq_refl eq_refl ltac:(cbn; lia)) as (D & _ & L).
  split; [exact D|exact (L [Iterate; Iterate])].
Defined.

(** ** Records *)

Section Records.
Context {V W : Type} `{Unicode}.
Local Abbreviation field := (field (V := V)).
Local Abbreviation LogEntry := (LogEntry (V := V)).
Local Abbreviation dictionary := (list (pystr * field)).
Local Abbreviation state := (state V W).

Context (name hostname : pystr) (pid me : Z) (sampling_rate : float) (mask_sensitive : bool).
(** [Logger.log] with a level, a text and, where given, the structured record; [json.dumps]. *)
Context (std_log : pystr -> pystr -> option dictionary -> eff W unit) (json : dictionary -> result exn pystr).
(** [None], a truth value, and the truth of another value. *)
Context (none : V) (bool_value : bool -> V) (truthy_value : V -> bool).

(** A module that cannot be imported or whatever else the metrics raise: the counter of
    operations by its labels, the histogram, the gauge of the breaker. *)
Context (count : pystr -> pystr -> field -> field -> eff W unit) (observe : pystr -> field -> field -> eff W unit).
Context (breaker_gauge : Z -> eff W unit).

Definition outside_do {A} (m : eff W A) : eff state A := fun s =>
  let (r, w) := m (outside s) in
  (r, mkState (trace_ids s) (logged_ids s) (log_buffer s) (correlation_ids s) w).

(** [{"timestamp": ..., "level": ..., "message": ..., **extra}] *)
Definition to_dict (e : LogEntry) : dictionary :=
  merged [(u "timestamp", FFloat (timestamp e)); (u "level", FText (level e)); (u "message", FText (message e))] (extra e).

(** One entry after the other; what cannot be written is dropped. *)
Fixpoint _write_batch (entries : list LogEntry) : eff W unit :=
  match entries with
  | [] => ret tt
  | e :: rest =>
      trying (text <~ lift (json (to_dict e)) ;; std_log (level e) text None) (fun _ => ret tt) ;;~ _write_batch rest
  end.

Definition _mask_sensitive_data (data : pystr) : pystr :=
  if mask_sensitive then default [] (mask_sensitive_patterns (Some data)) else data.

Definition truthy_field (f : field) : bool :=
  match f with
  | FText s => match s with [] => false | _ => true end
  | FInt z => negb (z =? 0)
  | FFloat x => negb (feq x (fofZ 0))
  | FOther v => truthy_value v
  end.

Definition display_key (cache_key : pystr) : pystr :=
  match cache_key with
  | [] => []
  | _ => if mask_sensitive then _mask_sensitive_data cache_key else take 50 cache_key
  end.

Definition operation_status (operation : pystr) (kwargs : dictionary) : pystr :=
  if od_mem (u "error") kwargs then u "error"
  else match od_get (u "hit") kwargs with
       | Some hit => if bool_decide (operation = u "get") then if truthy_field hit then u "hit" else u "miss" else u "success"
       | None => u "success"
       end.

Definition operation_metrics (operation : pystr) (kwargs : dictionary) : eff W unit :=
  let serializer := default (FText []) (od_get (u "serializer") kwargs) in
  count operation (operation_status operation kwargs) serializer (default (FText (u "default")) (od_get (u "namespace") kwargs)) ;;~
  match od_get (u "duration_ms") kwargs with Some d => observe operation serializer d | None => ret tt end.

(** [operation] and [cache_key] cannot be keywords besides. *)
Definition cache_operation (now : float) (operation cache_key : pystr) (kwargs : dictionary) : eff state unit :=
  if existsb (fun kv => bool_decide (kv.1 ∈ [u "self"; u "operation"; u "cache_key"])) kwargs then throw (PyExn TypeError)
  else
    let level := if od_mem (u "error") kwargs then u "ERROR" else u "INFO" in
    context <~ gets (fun s => merged (_get_context me now s)
                                (merged [(u "operation", FText operation); (u "cache_key", FText (display_key cache_key))] kwargs)) ;;
    trying (outside_do (operation_metrics operation kwargs)) (fun _ => ret tt) ;;~
    outside_do (std_log level (u "cache_operation") (Some context)).

(** The helpers pass some keywords themselves. *)
Definition with_keywords (own kwargs : dictionary) (m : dictionary -> eff state unit) : eff state unit :=
  if existsb (fun kv => od_mem kv.1 own) kwargs then throw (PyExn TypeError) else m (own ++ kwargs).

Definition redis_operation_failed (now : float) (operation key error error_type : pystr) (kwargs : dictionary) : eff state unit :=
  with_keywords [(u "error", FText error); (u "error_type", FText error_type)] kwargs (cache_operation now operation key).
Definition cache_hit (now : float) (key : pystr) (kwargs : dictionary) : eff state unit :=
  with_keywords [(u "hit", FOther (bool_value true))] kwargs (cache_operation now (u "get") key).
Definition cache_miss (now : float) (key : pystr) (kwargs : dictionary) : eff state unit :=
  with_keywords [(u "hit", FOther (bool_value false))] kwargs (cache_operation now (u "get") key).
Definition cache_stored (now : float) (key : pystr) (kwargs : dictionary) : eff state unit :=
  cache_operation now (u "set") key kwargs.

(** 0.9 *)
Definition HIGH_UTILIZATION_THRESHOLD : float := S754_finite false 8106479329266893 (-53).

(** [percent] is the text of a number with one digit, [round3] rounds to three. *)
Definition connection_pool_utilization (percent : float -> pystr) (round3 : float -> float) (draw : Z) (now : float)
    (utilization : float) (kwargs : dictionary) : eff state unit :=
  let record := merged [(u "utilization", FFloat utilization)] kwargs in
  outside_do (if fgt utilization HIGH_UTILIZATION_THRESHOLD
              then std_log (u "WARNING") (u "High connection pool utilization: " ++ percent utilization) (Some record)
              else std_log (u "INFO") (u "Connection pool utilization: " ++ percent utilization) (Some record)) ;;~
  with_keywords [(u "utilization", FFloat (round3 utilization))] kwargs
    (fun fields => checked fields (log name hostname pid me sampling_rate draw now (u "INFO") (u "pool_utilization") fields)).

(** [str.upper], as far as a comparison with these words can tell: the long s is the only
    other character with an ASCII letter of them for its upper case. *)
Definition upper (s : pystr) : pystr := map (fun c => if (97 <=? c) && (c <=? 122) then c - 32 else if c =? 0x17F then 83 else c) s.

Definition state_number (to_state : pystr) : Z :=
  if bool_decide (upper to_state = u "CLOSED") then 0 else if bool_decide (upper to_state = u "OPEN") then 2
  else if bool_decide (upper to_state = u "HALF_OPEN") then 1 else -1.

(** Always kept, and not masked. *)
Definition circuit_breaker_state_change (now : float) (from_state to_state : pystr) (reason : option pystr) (kwargs : dictionary)
  : eff state unit :=
  trying (outside_do (breaker_gauge (state_number to_state))) (fun _ => ret tt) ;;~
  append_entry (mkEntry now (u "WARNING") (u "circuit_breaker_state_change")
    (merged [(u "logger", FText name); (u "from_state", FText from_state); (u "to_state", FText to_state);
             (u "reason", match reason with Some r => FText r | None => FOther none end)] kwargs)).

(** [JsonFormatter.format]: what [json.dumps] gets. *)
Definition format_record (now : float) (levelname text logger_name : pystr) (structured : option dictionary) (exception : option pystr)
  : dictionary :=
  let data := merged [(u "timestamp", FFloat now); (u "level", FText levelname); (u "message", FText text);
                      (u "logger", FText logger_name); (u "thread_id", FInt me)] (default [] structured) in
  match exception with Some t => od_set (u "exception") (FText t) data | None => data end.

(** *** What they promise *)

Lemma write_batch_answers l : never_raises (_write_batch l).
Proof.
  induction l as [|e l IH]; [apply raises_only_ret|]. apply raises_only_andthen; [|by intros []].
  apply raises_only_trying. intros x. apply raises_only_ret.
Qed.

Lemma merged_get (first over : dictionary) k : od_get k over = None -> od_get k (merged first over) = od_get k first.
Proof.
  unfold merged. revert first. induction over as [|[j v] over IH]; intros first E; [done|]. cbn in *.
  destruct (decide (k = j)) as [->|N]; [done|]. rewrite IH by done. by apply od_get_set_ne.
Qed.

Lemma records_merged_wf (first over : dictionary) : od_wf first -> od_wf (merged first over).
Proof. unfold merged. revert first. induction over as [|kv over IH]; intros first Wf; [done|]. by apply IH, od_wf_set. Qed.

Lemma merged_get_over (first over : dictionary) k v : od_wf over -> od_get k over = Some v -> od_get k (merged first over) = Some v.
Proof.
  unfold merged, od_wf, od_keys. revert first. induction over as [|[j w] over IH]; intros first Wf E; [done|]. cbn in *.
  apply NoDup_cons in Wf as [Nj Wf]. destruct (decide (k = j)) as [->|N].
  - injection E as ->. fold (merged (od_set j v first) over). rewrite merged_get; [apply od_get_set_eq|]. by apply od_get_None.
  - by apply IH.
Qed.

(** A cache operation is logged exactly once, as an error exactly when the caller
    names an error, whatever the metrics do; the record has the key masked, so that no
    number the patterns know is in it, and no keyword can put the key back: a call that
    names the key twice raises and logs nothing. *)
Theorem operation_is_logged now operation key kwargs (s : state) :
  od_get (u "cache_key") kwargs = None -> od_get (u "operation") kwargs = None -> od_get (u "self") kwargs = None -> key <> [] ->
  exists w context,
    cache_operation now operation key kwargs s =
      outside_do (std_log (if od_mem (u "error") kwargs then u "ERROR" else u "INFO") (u "cache_operation") (Some context))
        (mkState (trace_ids s) (logged_ids s) (log_buffer s) (correlation_ids s) w) /\
    od_get (u "cache_key") context = Some (FText (if mask_sensitive then _mask_sensitive_data key else take 50 key)) /\
    (mask_sensitive = true -> forall p, p ∈ number_patterns -> search p None (_mask_sensitive_data key) = false).
Proof.
  intros K1 K2 K3 Hk. unfold cache_operation.
  replace (existsb _ kwargs) with false.
  2: { symmetry. apply not_true_iff_false. intros E. apply existsb_exists in E as ([k v] & Hin & B). apply bool_decide_eq_true in B. cbn in B.
       assert (I : k ∈ od_keys kwargs) by (apply list_elem_of_fmap; exists (k, v); split; [done|by apply list_elem_of_In]).
       assert (N : od_get k kwargs = None) by (repeat (apply elem_of_cons in B as [->|B]; [done|]); by apply elem_of_nil in B).
       by apply od_get_None in N. }
  unfold andthen at 1, gets. set (context := merged (_get_context me now s) _). unfold andthen, trying, outside_do at 1.
  destruct (operation_metrics operation kwargs (outside s)) as [[[]|x] w]; exists w, context; (split; [reflexivity|]).
  all: split; [|intros M p Hp; unfold _mask_sensitive_data; rewrite M; cbn -[substitutions]; apply fold_clean;
    [by apply listed_numeric|apply substitutions_harmless|left; by apply listed_substituted]].
  all: subst context; apply merged_get_over; [apply records_merged_wf; by apply (bool_decide_unpack _)|rewrite merged_get by done; unfold display_key; by destruct key].
Qed.
End Records.

(** ** The loggers of a process *)

Section Loggers.
Context {L W : Type}.

(** Making a logger starts its writer. *)
Context (create : pystr -> bool -> eff W L).

Definition logger_key (name : pystr) (mask_sensitive : bool) : pystr := name ++ u ":" ++ (if mask_sensitive then u "True" else u "False").

(** [_logger_instances] beside the rest; the second look, under the lock. *)
Definition get_structured_logger (name : pystr) (mask_sensitive : bool) : eff (gmap pystr L * W) L := fun s =>
  match s.1 !! logger_key name mask_sensitive with
  | Some l => (Ok l, s)
  | None =>
      let (r, w) := create name mask_sensitive s.2 in
      match r with
      | Ok l => (Ok l, (<[logger_key name mask_sensitive := l]> s.1, w))
      | Err x => (Err x, (s.1, w))
      end
  end.

(** A name and a mode have one logger, and share it with no other. *)
Lemma logger_key_inj n n' m m' : logger_key n m = logger_key n' m' -> n = n' /\ m = m'.
Proof.
  unfold logger_key. intros E. destruct m, m'; try (apply app_inv_tail in E as ->; done); exfalso; apply (f_equal (@last Z)) in E as E2;
    apply (f_equal (@reverse Z)) in E; rewrite !reverse_app in E; discriminate.
Qed.

Lemma logger_is_kept name m s l s' : get_structured_logger name m s = (Ok l, s') ->
  get_structured_logger name m s' = (Ok l, s') /\
  forall n' m', (n', m') <> (name, m) -> s'.1 !! logger_key n' m' = s.1 !! logger_key n' m'.
Proof.
  unfold get_structured_logger at 1. destruct (s.1 !! logger_key name m) as [l0|] eqn:E.
  - intros [= <- <-]. split; [|done]. unfold get_structured_logger. by rewrite E.
  - destruct (create name m s.2) as [[l0|x] w]; [|done]. intros [= <- <-]. split.
    + unfold get_structured_logger. cbn. by rewrite lookup_insert_eq.
    + intros n' m' N. cbn. apply lookup_insert_ne. intros K. apply logger_key_inj in K as [-> ->]. done.
Qed.
End Loggers.

(** A logger in a process that keeps what [logging] gets. *)
Module Example.
#[local] Existing Instance Masking.Example.ascii.
Definition record : Type := pystr * pystr * option (list (pystr * Tracing.field (V := unit))).
Definition kept (level text : pystr) (fields : option (list (pystr * Tracing.field))) : eff (list record) unit :=
  modify (fun w => w ++ [(level, text, fields)]).
Definition no_metrics (_ _ : pystr) (_ _ : Tracing.field (V := unit)) : eff (list record) unit := throw OtherError.
Definition no_histogram (_ : pystr) (_ _ : Tracing.field (V := unit)) : eff (list record) unit := throw OtherError.
Definition fresh : Tracing.state unit (list record) := mkState ∅ ∅ (RingBuffer.init 10) ∅ [].
Local Abbreviation logged := (cache_operation 7 true kept (fun _ => true) no_metrics no_histogram (fofZ 1)).

Lemma operation_is_logged_witness : exists context,
  outside (logged (u "get") (u "user:123-45-6789") [(u "hit", FInt 1)] fresh).2 = [(u "INFO", u "cache_operation", Some context)] /\
  od_get (u "cache_key") context = Some (FText (u "user:XXX-XX-XXXX")).
Proof.
  destruct (operation_is_logged 7 true kept (fun _ => true) no_metrics no_histogram (fofZ 1) (u "get") (u "user:123-45-6789")
    [(u "hit", FInt 1)] fresh) as (w & context & E & K & _); [vm_compute; reflexivity..|discriminate|].
  exists context. split.
  - rewrite E. assert (W : outside (logged (u "get") (u "user:123-45-6789") [(u "hit", FInt 1)] fresh).2 = w ++ [(u "INFO", u "cache_operation", Some context)])
      by (rewrite E; reflexivity).
    destruct w as [|a w]; [reflexivity|]. exfalso.
    assert (N : length (outside (logged (u "get") (u "user:123-45-6789") [(u "hit", FInt 1)] fresh).2) = 1%nat) by (vm_compute; reflexivity).
    rewrite W, length_app in N. cbn in N. lia.
  - rewrite K. vm_compute. reflexivity.
Defined.

(** The error beside the key is not masked: a client that names the key in its message
    shows it. *)
Example error_text_is_not_masked :
  outside (redis_operation_failed 7 true kept (fun _ => true) no_metrics no_histogram (fofZ 1) (u "get") (u "user:123-45-6789")
    (u "no reply for user:123-45-6789") (u "TimeoutError") [] fresh).2 =
  [(u "ERROR", u "cache_operation", Some
     [(u "timestamp", FFloat (fofZ 1)); (u "thread_id", FInt 7); (u "operation", FText (u "get"));
      (u "cache_key", FText (u "user:XXX-XX-XXXX")); (u "error", FText (u "no reply for user:123-45-6789"));
      (u "error_type", FText (u "TimeoutError"))])].
Proof. vm_compute. reflexivity. Qed.
End Example.
