(* ===== verification/Health.v ===== *)
(** Health checks ([src/src/cachekit/health.py]): the state of each component, the
    worst of them, the result kept for ten seconds; and what the checker says of the
    circuit breaker of the library itself.

    The Redis backend, the pool and the breaker are computations over the state
    [W] outside; [D] is the details they report. *)
From Stdlib Require Import ZArith Lia SpecFloat.
From stdpp Require Import base list numbers option strings.
From S2P Require Import Prelude PyFloat Errors CircuitBreaker Effects.

Local Open Scope Z_scope.
Local Open Scope eff_scope.

Inductive HealthStatus := HEALTHY | DEGRADED | UNHEALTHY.
Inductive HealthLevel := PING | BASIC | FULL.

#[export] Instance HealthStatus_eq_dec : EqDecision HealthStatus.
Proof. solve_decision. Defined.
#[export] Instance HealthLevel_eq_dec : EqDecision HealthLevel.
Proof. solve_decision. Defined.

Section Health.
Context {W D : Type}.

(** Without the time of the check, which is always the present. *)
Record ComponentHealth := mkComponent {
  name : pystr;
  status : HealthStatus;
  message : pystr;
  details : option D
}.

Record HealthCheckResult := mkResult {
  overall : HealthStatus;
  components : list ComponentHealth;
  duration_ms : float
}.

Definition is_healthy (r : HealthCheckResult) : bool := bool_decide (overall r <> UNHEALTHY).

(** ** What is injected *)

(** [get_pool_statistics] and its [utilization_ratio], 0 if there is none. *)
Definition pool_manager : Type := eff W (D * result exn float).

(** [state], as a text if it is one, the counts, and the ISO time of the last failure. *)
Record circuit_breaker := mkBreaker {
  b_state : eff W (option pystr);
  b_failure_count : eff W Z;
  b_success_count : eff W Z;
  b_last_failure_time : eff W (option pystr)
}.

Record HealthChecker := mkChecker {
  _last_result : option HealthCheckResult;
  _last_check_time : option float;
  outside : W
}.

Definition state := HealthChecker.
Definition on_outside {A} (m : eff W A) : eff state A := fun s =>
  let (r, w) := m (outside s) in (r, mkChecker (_last_result s) (_last_check_time s) w).

(** [time.time()], [str(e)], the details of an exception, of a breaker, of metrics. *)
Context (time : W -> float * W) (str : exn -> pystr) (error_details : exn -> D).
Context (breaker_details : option pystr -> Z -> Z -> option pystr -> D) (metrics_details : Z -> D).
Definition reading : eff state float := fun s =>
  let (t, w) := time (outside s) in (Ok t, mkChecker (_last_result s) (_last_check_time s) w).

(** [details.get("error", "unknown")], as a text *)
Context (error_of : D -> pystr).
(** [container.get(CacheClientProvider)], the backend over it, its [health_check]. *)
Context (health_check : eff W (bool * D)).
Context (the_pool : option pool_manager) (the_breaker : option circuit_breaker).
(** The sum of the operations counted, if [prometheus_client] is installed. *)
Context (metrics : option (eff W Z)).

Definition caught (component_name prefix : pystr) (s : HealthStatus) (x : exn) : ComponentHealth :=
  mkComponent component_name s (prefix ++ str x) (Some (error_details x)).

(** [quick_ping] *)
Definition quick_ping : eff W bool := trying (r <~ health_check ;; ret r.1) (fun _ => ret false).

Definition _check_redis_sync : eff W ComponentHealth :=
  trying
    (r <~ health_check ;;
     ret (if (r.1 : bool) then mkComponent (u "redis") HEALTHY (u "Redis is responsive") (Some r.2)
          else mkComponent (u "redis") UNHEALTHY (u "Redis health check failed: " ++ error_of r.2) (Some r.2)))
    (fun x => ret (caught (u "redis") (u "Redis health check failed: ") UNHEALTHY x)).

(** The asynchronous check: [waited] is [asyncio.wait_for] of the same in a thread,
    [None] after the time-out. *)
Definition _check_redis_async (waited : eff W (option (bool * D))) (timeout_text : pystr) : eff W ComponentHealth :=
  trying
    (r <~ waited ;;
     ret match r with
         | Some (true, d) => mkComponent (u "redis") HEALTHY (u "Redis is responsive") (Some d)
         | Some (false, d) => mkComponent (u "redis") UNHEALTHY (u "Redis health check failed: " ++ error_of d) (Some d)
         | None => mkComponent (u "redis") UNHEALTHY (u "Redis health check timeout after " ++ timeout_text ++ u "s") None
         end)
    (fun x => ret (caught (u "redis") (u "Redis health check failed: ") UNHEALTHY x)).

(** 0.95 and 0.9 *)
Definition nearly_exhausted : float := S754_finite false 8556839292003942 (-53).
Definition very_high : float := S754_finite false 8106479329266893 (-53).

(** The pool, synchronously or not. *)
Definition _check_connection_pool : eff W ComponentHealth :=
  match the_pool with
  | None => ret (mkComponent (u "connection_pool") DEGRADED (u "Connection pool not initialized") None)
  | Some statistics =>
      trying
        (r <~ statistics ;;
         utilization <~ lift r.2 ;;
         ret (if fgt utilization nearly_exhausted
              then mkComponent (u "connection_pool") UNHEALTHY (u "Connection pool is nearly exhausted") (Some r.1)
              else if fgt utilization very_high
              then mkComponent (u "connection_pool") DEGRADED (u "Connection pool utilization is very high") (Some r.1)
              else mkComponent (u "connection_pool") HEALTHY (u "Connection pool is healthy") (Some r.1)))
        (fun x => ret (caught (u "connection_pool") (u "Failed to check connection pool: ") UNHEALTHY x))
  end.

Definition _check_circuit_breaker : eff W ComponentHealth :=
  match the_breaker with
  | None => ret (mkComponent (u "circuit_breaker") HEALTHY (u "Circuit breaker not in use") None)
  | Some b =>
      trying
        (state <~ b_state b ;;
         failures <~ b_failure_count b ;;
         successes <~ b_success_count b ;;
         last <~ b_last_failure_time b ;;
         let d := Some (breaker_details state failures successes last) in
         ret (if bool_decide (state = Some (u "OPEN"))
              then mkComponent (u "circuit_breaker") UNHEALTHY (u "Circuit breaker is OPEN - Redis operations are bypassed") d
              else if bool_decide (state = Some (u "HALF_OPEN"))
              then mkComponent (u "circuit_breaker") DEGRADED (u "Circuit breaker is HALF_OPEN - testing recovery") d
              else mkComponent (u "circuit_breaker") HEALTHY (u "Circuit breaker is CLOSED - normal operation") d))
        (fun x => ret (caught (u "circuit_breaker") (u "Failed to check circuit breaker: ") UNHEALTHY x))
  end.

Definition _check_metrics_collection (total : eff W Z) : eff W ComponentHealth :=
  trying
    (n <~ total ;;
     ret (mkComponent (u "metrics") HEALTHY (u "Prometheus metrics are being collected") (Some (metrics_details n))))
    (fun x => ret (caught (u "metrics") (u "Metrics collection issue: ") DEGRADED x)).

Definition _determine_overall_status (l : list ComponentHealth) : HealthStatus :=
  if existsb (fun c => bool_decide (status c = UNHEALTHY)) l then UNHEALTHY
  else if existsb (fun c => bool_decide (status c = DEGRADED)) l then DEGRADED
  else HEALTHY.

(** ** The check *)

Definition _cache_result (r : HealthCheckResult) : eff state unit :=
  now <~ reading ;;
  modify (fun s => mkChecker (Some r) (Some now) (outside s)).

(** A time of zero counts as none. *)
Definition _is_cached_result_valid : eff state bool := fun s =>
  match _last_result s, _last_check_time s with
  | None, _ | _, None | _, Some (S754_zero _) => (Ok false, s)
  | Some _, Some last => (now <~ reading ;; ret (flt (fsub now last) (fofZ 10))) s
  end.

Definition finish (start : float) (l : list ComponentHealth) : eff state HealthCheckResult :=
  now <~ reading ;;
  let r := mkResult (_determine_overall_status l) l (fmul (fsub now start) (fofZ 1000)) in
  _ <~ _cache_result r ;;
  ret r.

Definition fresh_check (check_redis : eff W ComponentHealth) (level : HealthLevel) : eff state HealthCheckResult :=
  start <~ reading ;;
  redis <~ on_outside check_redis ;;
  match level with
  | PING => finish start [redis]
  | _ =>
      pool <~ on_outside _check_connection_pool ;;
      breaker <~ on_outside _check_circuit_breaker ;;
      match level, metrics with
      | FULL, Some total =>
          m <~ on_outside (_check_metrics_collection total) ;; finish start [redis; pool; breaker; m]
      | _, _ => finish start [redis; pool; breaker]
      end
  end.

(** [check_health] and [check_health_async], by the check of Redis. *)
Definition check_health (check_redis : eff W ComponentHealth) (force : bool) (level : HealthLevel) : eff state HealthCheckResult :=
  valid <~ (if force then ret false else _is_cached_result_valid) ;;
  if valid then
    last <~ gets _last_result ;;
    match last with Some r => ret r | None => throw RuntimeError end
  else fresh_check check_redis level.
End Health.
Arguments ComponentHealth : clear implicits.
Arguments HealthCheckResult : clear implicits.
Arguments HealthChecker : clear implicits.
Arguments circuit_breaker : clear implicits.

(** ** What the checks say *)

Section Props.
Context {W D : Type} (time : W -> float * W) (str : exn -> pystr) (error_details : exn -> D).
Context (breaker_details : option pystr -> Z -> Z -> option pystr -> D) (metrics_details : Z -> D) (error_of : D -> pystr).
Context (health_check : eff W (bool * D)) (metrics : option (eff W Z)).
Local Abbreviation check := (check_health time str error_details breaker_details metrics_details).

(** A component's check answers, whatever happens in it. *)
Lemma trying_ret_answers {A B} (m : eff W A) (f : A -> B) (h : exn -> B) : never_raises (trying (a <~ m ;; ret (f a)) (fun x => ret (h x))).
Proof. apply raises_only_trying. intros x. apply raises_only_ret. Qed.

Lemma redis_answers : never_raises (_check_redis_sync str error_details error_of health_check).
Proof. apply trying_ret_answers. Qed.

Lemma redis_async_answers (waited : eff W (option (bool * D))) t : never_raises (_check_redis_async str error_details error_of waited t).
Proof. apply trying_ret_answers. Qed.

Lemma pool_answers (p : option (pool_manager (W := W) (D := D))) : never_raises (_check_connection_pool str error_details p).
Proof. destruct p; [apply raises_only_trying; intros x|]; apply raises_only_ret. Qed.

Lemma breaker_answers (b : option (circuit_breaker W)) : never_raises (_check_circuit_breaker str error_details breaker_details b).
Proof. destruct b; [apply raises_only_trying; intros x|]; apply raises_only_ret. Qed.

Lemma on_outside_answers {A} (m : eff W A) s : never_raises m ->
  exists a w, on_outside (D := D) m s = (Ok a, mkChecker (_last_result s) (_last_check_time s) w) /\ m (outside s) = (Ok a, w).
Proof. intros H. unfold on_outside. destruct (never_raises_ok m (outside s) H) as [a E]. rewrite E. by eexists _, _. Qed.

(** The status of a list of components is the worst of theirs. *)
Lemma overall_spec (l : list (ComponentHealth D)) :
  match _determine_overall_status l with
  | UNHEALTHY => exists c, c ∈ l /\ status c = UNHEALTHY
  | DEGRADED => (exists c, c ∈ l /\ status c = DEGRADED) /\ forall c, c ∈ l -> status c <> UNHEALTHY
  | HEALTHY => forall c, c ∈ l -> status c = HEALTHY
  end.
Proof.
  unfold _determine_overall_status.
  assert (X : forall t, existsb (fun c : ComponentHealth D => bool_decide (status c = t)) l = bool_decide (Exists (fun c => status c = t) l)).
  { intros t. induction l as [|c l IH]; [done|]. cbn. rewrite IH. rewrite <- bool_decide_or. apply bool_decide_ext. by rewrite Exists_cons. }
  rewrite !X. case_bool_decide as U; [apply Exists_exists in U as (c & Hc & E); by exists c|].
  assert (NU : forall c, c ∈ l -> status c <> UNHEALTHY) by (intros c Hc E; apply U, Exists_exists; by exists c).
  case_bool_decide as V; [apply Exists_exists in V as (c & Hc & E); split; [by exists c|done]|].
  intros c Hc. destruct (status c) eqn:E; [done| |by apply NU in E]. exfalso. apply V, Exists_exists. by exists c.
Qed.

Section Checks.
Context (the_pool : option (pool_manager (W := W) (D := D))) (the_breaker : option (circuit_breaker W)).
Context (check_redis : eff W (ComponentHealth D)) (Hredis : never_raises check_redis).
Local Abbreviation finish := (finish time).
Local Abbreviation fresh := (fresh_check time str error_details breaker_details metrics_details the_pool the_breaker metrics).
Local Abbreviation check_health := (check the_pool the_breaker metrics check_redis).

(** Every check ends here: the result has the worst status and is kept. *)
Lemma finish_spec start (l : list (ComponentHealth D)) (s : HealthChecker W D) : exists r t, (finish start l s).1 = Ok r /\ components r = l /\
  overall r = _determine_overall_status l /\ _last_result (finish start l s).2 = Some r /\
  _last_check_time (finish start l s).2 = Some t.
Proof.
  unfold Health.finish, _cache_result, andthen, reading, modify, ret. destruct (time _) as [t w]. cbn -[fmul].
  destruct (time w) as [t' w']. eexists _, _. split_and!; reflexivity.
Qed.

Lemma fresh_check_spec level (s : HealthChecker W D) : exists r s', fresh check_redis level s = (Ok r, s') /\
  overall r = _determine_overall_status (components r) /\ _last_result s' = Some r /\
  exists redis rest, components r = redis :: rest /\ (check_redis (time (outside s)).2).1 = Ok redis /\
  match level with
  | PING => rest = []
  | _ => exists w1 w2 pool breaker others, rest = pool :: breaker :: others /\
      (_check_connection_pool str error_details the_pool w1).1 = Ok pool /\
      (_check_circuit_breaker str error_details breaker_details the_breaker w2).1 = Ok breaker
  end.
Proof.
  unfold fresh_check, andthen at 1, reading. destruct (time (outside s)) as [t w]. unfold andthen at 1.
  set (s0 := mkChecker _ _ w). destruct (on_outside_answers _ s0 Hredis) as (redis & w1 & -> & Er). set (s1 := mkChecker _ _ w1).
  assert (F : forall (l : list (ComponentHealth D)) (s : HealthChecker W D), exists r s', finish t l s = (Ok r, s') /\ components r = l /\
    overall r = _determine_overall_status l /\ _last_result s' = Some r).
  { intros l s2. destruct (finish_spec t l s2) as (r & t2 & E & C & O & L & _). destruct (finish t l s2) as [r' s']. cbn in *.
    exists r, s'. by rewrite E. }
  destruct level.
  { destruct (F [redis] s1) as (r & s' & -> & C & O & L). exists r, s'. rewrite C. split_and!; [done..|]. exists redis, []. cbn in *. by rewrite Er. }
  all: unfold andthen at 1; destruct (on_outside_answers _ s1 (pool_answers the_pool)) as (pool & w2 & -> & Ep); set (s2 := mkChecker _ _ w2);
    unfold andthen at 1; destruct (on_outside_answers _ s2 (breaker_answers the_breaker)) as (breaker & w3 & -> & Eb); set (s3 := mkChecker _ _ w3).
  2: destruct metrics as [total|]; [unfold andthen at 1; destruct (on_outside_answers (_check_metrics_collection str error_details
    metrics_details total) s3 ltac:(apply trying_ret_answers)) as (m & w4 & -> & _); set (s4 := mkChecker _ _ w4)|].
  1: destruct (F [redis; pool; breaker] s3) as (r & s' & -> & C & O & L).
  2: destruct (F [redis; pool; breaker; m] s4) as (r & s' & -> & C & O & L).
  3: destruct (F [redis; pool; breaker] s3) as (r & s' & -> & C & O & L).
  all: exists r, s'; rewrite C; split_and!; [done..|]; exists redis; eexists; split; [done|]; split; [cbn in *; by rewrite Er|].
  all: exists (outside s1), (outside s2), pool, breaker; eexists; by rewrite Ep, Eb.
Qed.

(** A result is kept for ten seconds whatever it is the result of: after a check
    of Redis alone a full check that is not forced reads the clock and returns it
    again, with that one component and its status: the pool, the breaker and the
    metrics are not looked at. *)
Theorem kept_whatever_the_level level s r s1 t :
  check_health true PING s = (Ok r, s1) -> _last_check_time s1 = Some t -> feq t (fofZ 0) = false ->
  flt (fsub (time (outside s1)).1 t) (fofZ 10) = true ->
  check_health false level s1 = (Ok r, mkChecker (Some r) (Some t) (time (outside s1)).2) /\
  exists redis, components r = [redis] /\ overall r = status redis.
Proof.
  intros E T Z V. unfold Health.check_health, andthen at 1, ret at 1 in E.
  destruct (fresh_check_spec PING s) as (r' & s' & F & O & L & redis & rest & C & _ & ->). rewrite F in E. injection E as <- <-.
  split.
  - unfold Health.check_health, andthen at 1, _is_cached_result_valid. rewrite L, T.
    destruct t as [sg|sg| |sg m e]; [destruct sg; by vm_compute in Z|..]; unfold andthen, reading, ret, gets; destruct (time (outside s')) as [n w];
      cbn [fst snd] in *; rewrite V; cbn; by rewrite L, T.
  - exists redis. split; [done|]. rewrite O, C. unfold _determine_overall_status. cbn [existsb].
    destruct (status redis); reflexivity.
Qed.
End Checks.

(** The breaker of [reliability/circuit_breaker.py]: its state is a member of an
    [Enum], which no text is equal to, and it has no [last_failure_time]. *)
Definition own_breaker (b : CircuitBreaker.CircuitBreaker) : circuit_breaker W := {|
  b_state := ret None;
  b_failure_count := ret (CircuitBreaker.failure_count b);
  b_success_count := ret (CircuitBreaker.success_count b);
  b_last_failure_time := throw AttributeError
|}.

(** A check below the ping never tells the truth about the library's own
    components: with a [CircuitBreaker] of the library the system is unhealthy,
    whatever the state of the breaker, closed and without failures included, since
    reading its last failure time fails; and without a pool manager, which nothing in
    the library provides, it is never better than degraded. *)
Theorem own_components_unhealthy the_pool the_breaker check_redis level s r s' :
  never_raises check_redis -> level <> PING -> check the_pool the_breaker metrics check_redis true level s = (Ok r, s') ->
  (forall b, the_breaker = Some (own_breaker b) -> overall r = UNHEALTHY) /\ (the_pool = None -> overall r <> HEALTHY).
Proof.
  intros Hr Hl E. unfold check_health, andthen at 1, ret at 1 in E.
  destruct (fresh_check_spec the_pool the_breaker check_redis Hr level s) as (r' & s2 & F & O & _ & redis & rest & C & _ & R).
  rewrite F in E. injection E as <- <-. pose proof (overall_spec (components r')) as W0. rewrite <- O, C in W0.
  assert (R' : exists w1 w2 pool breaker others, rest = pool :: breaker :: others /\
    (_check_connection_pool str error_details the_pool w1).1 = Ok pool /\
    (_check_circuit_breaker str error_details breaker_details the_breaker w2).1 = Ok breaker) by (by destruct level).
  destruct R' as (w1 & w2 & pool & breaker & others & -> & Ep & Eb).
  assert (Ip : pool ∈ redis :: pool :: breaker :: others) by (apply elem_of_cons; right; apply elem_of_cons; by left).
  assert (Ib : breaker ∈ redis :: pool :: breaker :: others) by (do 2 (apply elem_of_cons; right); apply elem_of_cons; by left).
  split; [intros b ->; injection Eb as Eb|intros ->; injection Ep as Ep].
  - assert (B : status breaker = UNHEALTHY) by (by rewrite <- Eb).
    destruct (overall r'); [by rewrite (W0 _ Ib) in B|by apply (proj2 W0) in Ib|done].
  - intros D0. rewrite D0 in W0. specialize (W0 _ Ip). by rewrite <- Ep in W0.
Qed.
End Props.

(** A process with a clock of one second a reading, and Redis up. *)
Module Example.
Definition time (n : Z) : float * Z := (fofZ n, n + 1).
Definition details := unit.
Definition str (_ : exn) : pystr := u "'CircuitBreaker' object has no attribute 'last_failure_time'".
Definition redis_up : eff Z (bool * unit) := ret (true, tt).
Definition check_redis := _check_redis_sync str (fun _ => tt) (fun _ => []) redis_up.
Definition fresh : HealthChecker Z unit := mkChecker None None 100.
Definition no_details (_ : option pystr) (_ _ : Z) (_ : option pystr) : unit := tt.
Definition own : option (circuit_breaker Z) := Some (own_breaker (CircuitBreaker.init CircuitBreaker.default_config)).
Definition check := check_health time str (fun _ => tt) no_details (fun _ => tt) None own None check_redis.

(** The ping keeps its verdict against a full check that would find more. *)
Lemma kept_whatever_the_level_witness : exists r s1,
  check true PING fresh = (Ok r, s1) /\ (check false FULL s1).1 = Ok r /\ overall r = HEALTHY /\
  exists r2, (check true FULL s1).1 = Ok r2 /\ overall r2 = UNHEALTHY.
Proof.
  destruct (check true PING fresh) as [[r|x] s1] eqn:E; [|vm_compute in E; discriminate]. exists r, s1. split; [reflexivity|].
  assert (Es : s1 = (check true PING fresh).2) by (rewrite E; reflexivity).
  assert (Er : Ok r = (check true PING fresh).1) by (rewrite E; reflexivity).
  destruct (kept_whatever_the_level time str (fun _ => tt) no_details (fun _ => tt) None None own check_redis
    (redis_answers str (fun _ => tt) (fun _ => []) redis_up) FULL fresh r s1 (fofZ 102) E) as [K _].
  - rewrite Es. vm_compute. reflexivity.
  - vm_compute. reflexivity.
  - rewrite Es. vm_compute. reflexivity.
  - split; [exact (f_equal fst K)|]. split.
    + vm_compute in Er. apply Ok_inj in Er. rewrite Er. reflexivity.
    + rewrite Es. eexists. split; vm_compute; reflexivity.
Defined.

Lemma own_components_unhealthy_witness : exists r s',
  check true BASIC fresh = (Ok r, s') /\ overall r = UNHEALTHY /\ overall r <> HEALTHY.
Proof.
  destruct (check true BASIC fresh) as [[r|] s'] eqn:E; [|vm_compute in E; discriminate]. exists r, s'. split; [reflexivity|].
  destruct (own_components_unhealthy time str (fun _ => tt) no_details (fun _ => tt) None None own check_redis BASIC fresh r s'
    (redis_answers str (fun _ => tt) (fun _ => []) redis_up) ltac:(discriminate) E) as [B P].
  split; [exact (B _ eq_refl)|exact (P eq_refl)].
Defined.
End Example.
