(* ===== verification/Profiles.v ===== *)
(** The reliability profiles ([src/src/cachekit/reliability/profiles.py]): presets,
    the dictionaries made of them and the recommendation. *)
From Stdlib Require Import ZArith Lia SpecFloat.
From stdpp Require Import base list numbers option strings.
From S2P Require Import Prelude PyFloat PyDict Effects Configuration Decoration Health.

Local Open Scope Z_scope.
Local Open Scope py_scope.

Definition HIGH_THROUGHPUT_THRESHOLD_RPS : Z := 1000.
Definition LOW_THROUGHPUT_THRESHOLD_RPS : Z := 100.

Module ReliabilityProfile.
Inductive t := MINIMAL | BALANCED | FULL.
End ReliabilityProfile.
Import ReliabilityProfile.

Record ProfileConfig := mkProfile {
  circuit_breaker : bool;
  backpressure : bool;
  collect_stats : bool;
  async_metrics : bool;
  enable_structured_logging : bool;
  health_check_level : HealthLevel;
  health_cache_duration : float;
  max_concurrent_requests : Z;
  metrics_batch_size : Z;
  metrics_flush_interval : float;
  mask_sensitive_data : bool;
  backpressure_read_operations : bool;
  backpressure_timeout : float;
  lazy_pii_masking : bool;
  log_level_threshold : pystr
}.

(** 0.1, 0.05 and 0.5 *)
Definition tenth : float := S754_finite false 7205759403792794 (-56).
Definition twentieth : float := S754_finite false 7205759403792794 (-57).
Definition half : float := S754_finite false 4503599627370496 (-53).

(** What a preset does not name has the default of the class. *)
Definition MINIMAL_config : ProfileConfig :=
  mkProfile true false false false false PING (fofZ 1) 1000 100 tenth true false tenth true (u "WARNING").
Definition BALANCED_config : ProfileConfig :=
  mkProfile true true true true true BASIC (fofZ 5) 100 100 tenth true false tenth true (u "INFO").
Definition FULL_config : ProfileConfig :=
  mkProfile true true true true true Health.FULL (fofZ 30) 50 50 twentieth true true half true (u "DEBUG").

(** [PROFILE_CONFIGS[profile]] *)
Definition get_profile_config (profile : ReliabilityProfile.t) : ProfileConfig :=
  match profile with MINIMAL => MINIMAL_config | BALANCED => BALANCED_config | FULL => FULL_config end.

Definition level_value (l : HealthLevel) : pystr :=
  match l with PING => u "ping" | BASIC => u "basic" | Health.FULL => u "full" end.

Definition get_profile_description (profile : ReliabilityProfile.t) : pystr :=
  match profile with
  | MINIMAL => u "Maximum performance profile with minimal reliability features. " ++
      u "Only circuit breaker enabled. Best for high-throughput, low-latency scenarios " ++
      u "where some data loss is acceptable."
  | BALANCED => u "Balanced performance and reliability profile. Core reliability features " ++
      u "enabled with async monitoring for minimal overhead. Recommended for " ++
      u "most production use cases."
  | FULL => u "Maximum reliability profile with all features enabled. Comprehensive " ++
      u "monitoring, health checks, and safety features. Best for critical " ++
      u "applications where reliability is more important than performance."
  end.

(** ** The dictionaries *)

Section Values.
(** Values an override may have besides these. *)
Context {V : Type}.
Inductive value := VBool (b : bool) | VInt (z : Z) | VFloat (f : float) | VText (s : pystr) | VOther (v : V).
Local Abbreviation dictionary := (list (pystr * value)).

(** [kwargs.update(overrides)] *)
Definition updated (kwargs overrides : dictionary) : dictionary := foldl (fun d kv => od_set kv.1 kv.2 d) kwargs overrides.

Definition decorator_parameters (c : ProfileConfig) : dictionary :=
  [(u "circuit_breaker", VBool (circuit_breaker c)); (u "backpressure", VBool (backpressure c));
   (u "max_concurrent_requests", VInt (max_concurrent_requests c)); (u "collect_stats", VBool (collect_stats c));
   (u "enable_tracing", VBool (async_metrics c)); (u "enable_structured_logging", VBool (enable_structured_logging c))].

Definition get_decorator_kwargs (profile : ReliabilityProfile.t) (overrides : option dictionary) : dictionary :=
  updated (decorator_parameters (get_profile_config profile)) (default [] overrides).

Definition optimizations (c : ProfileConfig) : dictionary :=
  [(u "_use_async_metrics", VBool (async_metrics c)); (u "_use_lightweight_health", VBool true);
   (u "_health_check_level", VText (level_value (health_check_level c))); (u "_lazy_pii_masking", VBool (lazy_pii_masking c));
   (u "_backpressure_read_ops", VBool (backpressure_read_operations c)); (u "_metrics_batch_size", VInt (metrics_batch_size c));
   (u "_metrics_flush_interval", VFloat (metrics_flush_interval c))].

Definition create_optimized_decorator_config (profile : ReliabilityProfile.t) (overrides : dictionary) : dictionary :=
  updated (decorator_parameters (get_profile_config profile) ++ optimizations (get_profile_config profile)) overrides.

(** The conveniences pass the profile themselves: one in the overrides is a second. *)
Definition reliability_decorator (profile : ReliabilityProfile.t) (overrides : dictionary) : result exn dictionary :=
  if od_mem (u "profile") overrides then Err (PyExn TypeError) else Ok (create_optimized_decorator_config profile overrides).
Definition minimal_reliability_decorator : dictionary -> result exn dictionary := reliability_decorator MINIMAL.
Definition balanced_reliability_decorator : dictionary -> result exn dictionary := reliability_decorator BALANCED.
Definition full_reliability_decorator : dictionary -> result exn dictionary := reliability_decorator FULL.
End Values.
Arguments value : clear implicits.

(** ** The recommendation *)

Definition recommend_profile (throughput_rps : Z) (criticality : pystr) (latency_sensitive : bool) : ReliabilityProfile.t :=
  if (HIGH_THROUGHPUT_THRESHOLD_RPS <? throughput_rps) || latency_sensitive
  then if bool_decide (criticality = u "low") then MINIMAL else BALANCED
  else if (throughput_rps <? LOW_THROUGHPUT_THRESHOLD_RPS) && bool_decide (criticality = u "high") then FULL
  else BALANCED.

(** How much reliability a profile has; how much an application asks for. *)
Definition reliability (p : ReliabilityProfile.t) : Z := match p with MINIMAL => 0 | BALANCED => 1 | FULL => 2 end.
Definition importance (criticality : pystr) : Z :=
  if bool_decide (criticality = u "low") then 0 else if bool_decide (criticality = u "high") then 2 else 1.

(** The recommendation is monotone: an application that is no less critical, has
    no more throughput and is latency sensitive only if the other is, is never
    recommended a less reliable profile; and every profile keeps the breaker, masks
    secrets and allows more concurrent requests the less reliable it is. *)
Theorem recommendation_monotone t t' c c' s s' : t' <= t -> importance c <= importance c' -> (s' = true -> s = true) ->
  reliability (recommend_profile t c s) <= reliability (recommend_profile t' c' s') /\
  (let p := get_profile_config (recommend_profile t c s) in let p' := get_profile_config (recommend_profile t' c' s') in
   (circuit_breaker p = true /\ mask_sensitive_data p = true) /\ max_concurrent_requests p' <= max_concurrent_requests p).
Proof.
  intros Ht Hc Hs. assert (R : reliability (recommend_profile t c s) <= reliability (recommend_profile t' c' s')).
  { unfold recommend_profile, HIGH_THROUGHPUT_THRESHOLD_RPS, LOW_THROUGHPUT_THRESHOLD_RPS, importance in *.
    destruct (Z.ltb_spec 1000 t), (Z.ltb_spec 1000 t'), (Z.ltb_spec t 100), (Z.ltb_spec t' 100); try lia;
      destruct s, s'; try (by specialize (Hs eq_refl)); cbn [orb andb];
      repeat case_bool_decide; subst; try done; cbn; try lia. }
  split; [done|]. cbv zeta. destruct (recommend_profile t c s), (recommend_profile t' c' s'); cbn in *; (split; [done|lia]).
Qed.

Lemma recommendation_monotone_witness :
  recommend_profile 2000 (u "low") false = MINIMAL /\ recommend_profile 50 (u "high") false = FULL /\
  reliability (recommend_profile 2000 (u "low") false) <= reliability (recommend_profile 50 (u "high") false).
Proof.
  split; [reflexivity|]. split; [reflexivity|].
  apply (recommendation_monotone 2000 50 (u "low") (u "high") false false); [lia|vm_compute; discriminate|done].
Defined.

(** ** What the dictionaries are good for *)

Lemma updated_mem {V} k (kwargs overrides : list (pystr * value V)) : k ∈ od_keys kwargs -> k ∈ od_keys (updated kwargs overrides).
Proof.
  unfold updated. revert kwargs. induction overrides as [|[k' v] o IH]; intros kw H; [done|]. apply IH. cbn.
  destruct (decide (k = k')) as [->|N].
  - apply dec_stable. intros F. apply od_get_None in F. by rewrite od_get_set_eq in F.
  - apply dec_stable. intros F. apply od_get_None in F. rewrite od_get_set_ne in F by done. by apply od_get_None in F.
Qed.

Section Refused.
Context {V B K X S : Type} (default_serializer : S) (env : environment B).
Local Abbreviation kwarg := (kwarg B K X S).
Local Abbreviation decorator := (decorator (K := K) (X := X) default_serializer env).

Lemma assign_other base (kws : list kwarg) n : kw_other n ∈ kws ->
  foldl (fun c (k : kwarg) => match c with Some c => assign c k | None => None end) base kws = None.
Proof.
  revert base. assert (None_stays : forall kws, foldl (fun c (k : kwarg) => match c with Some c => assign c k | None => None end) None kws = None).
  { intros l. by induction l. }
  induction kws as [|k kws IH]; intros base H; [by apply elem_of_nil in H|]. cbn.
  apply elem_of_cons in H as [<-|H]; [|by apply IH]. by destruct base; cbn; apply None_stays.
Qed.

Lemma construct_other key base (kws : list kwarg) n : kw_other n ∈ kws -> construct key base kws = Err (PyExn TypeError).
Proof. intros H. unfold construct. by rewrite (assign_other _ _ _ H). Qed.

Lemma preset_other key own also (kws : list kwarg) n : kw_other n ∈ kws ->
  preset key default_serializer own also kws = Err (PyExn TypeError).
Proof.
  intros H. unfold preset. destruct (existsb _ _); [done|]. apply (construct_other _ _ _ n), elem_of_app. by right.
Qed.

Lemma take_kw_other {A} (f : kwarg -> option A) (kws : list kwarg) n : f (kw_other n) = None -> kw_other n ∈ kws ->
  kw_other n ∈ (take_kw f kws).2.
Proof.
  intros Hf H. unfold take_kw. cbn. apply list_elem_of_In, filter_In. split; [by apply list_elem_of_In|]. by rewrite Hf.
Qed.

Lemma nest_l1_other (kws : list kwarg) n : kw_other n ∈ kws -> kw_other n ∈ nest_l1_enabled kws.
Proof.
  intros H. unfold nest_l1_enabled. pose proof (take_kw_other as_l1_enabled kws n eq_refl H) as H1.
  destruct (take_kw as_l1_enabled kws) as [[b|] k1]; [|done]. pose proof (take_kw_other as_l1 k1 n eq_refl H1) as H2.
  destruct (take_kw as_l1 k1) as [e k2]. apply elem_of_app. by left.
Qed.

Lemma nest_encryption_other (kws : list kwarg) n : kw_other n ∈ kws -> kw_other n ∈ nest_encryption kws.
Proof.
  intros H. unfold nest_encryption. pose proof (take_kw_other as_encryption kws n eq_refl H) as H1.
  destruct (take_kw as_encryption kws) as [flag k1]. pose proof (take_kw_other as_master_key k1 n eq_refl H1) as H2.
  destruct (take_kw as_master_key k1) as [key k2]. pose proof (take_kw_other as_tenant_extractor k2 n eq_refl H2) as H3.
  destruct (take_kw as_tenant_extractor k2) as [ex k3]. pose proof (take_kw_other as_single_tenant_mode k3 n eq_refl H3) as H4.
  destruct (take_kw as_single_tenant_mode k3) as [si k4]. pose proof (take_kw_other as_deployment_uuid k4 n eq_refl H4) as H5.
  destruct (take_kw as_deployment_uuid k4) as [uu k5]. pose proof (take_kw_other as_fail_closed k5 n eq_refl H5) as H6.
  destruct (take_kw as_fail_closed k5) as [cl k6]. repeat case_match; try done; apply elem_of_app; by left.
Qed.

(** A keyword no configuration has is refused, whatever the preset. *)
Lemma resolve_other i config b (kws : list kwarg) n : kw_other n ∈ kws ->
  exists x, (resolve default_serializer env i config b kws).1 = Err x.
Proof.
  intros H. assert (Hc : forall k : kwarg, kw_other n ∈ k :: kws) by (intros k; apply elem_of_cons; by right).
  unfold resolve. destruct config as [c|].
  { destruct kws as [|k kws]; [by apply elem_of_nil in H|]. exists (PyExn TypeError). cbn [fst].
    apply (construct_other _ _ _ n), elem_of_app. by left. }
  destruct i; cbn [fst]; try (by eexists; apply (construct_other _ _ _ n), Hc);
    try (by eexists; unfold minimal, production, dev, test; apply (preset_other _ _ _ _ n), Hc).
  - pose proof (take_kw_other as_master_key kws n eq_refl H) as H1. destruct (take_kw as_master_key kws) as [key k1].
    pose proof (take_kw_other as_tenant_extractor k1 n eq_refl H1) as H2. destruct (take_kw as_tenant_extractor k1) as [ex k2].
    cbn [fst]. destruct (given _); [|by eexists]. unfold secure.
    assert (H3 : kw_other n ∈ kw_backend b :: k2) by (apply elem_of_cons; by right).
    pose proof (take_kw_other as_single_tenant_mode _ n eq_refl H3) as H4. destruct (take_kw as_single_tenant_mode _) as [si k4].
    pose proof (take_kw_other as_deployment_uuid k4 n eq_refl H4) as H5. destruct (take_kw as_deployment_uuid k4) as [uu k5].
    pose proof (take_kw_other as_fail_closed k5 n eq_refl H5) as H6. destruct (take_kw as_fail_closed k5) as [cl k6].
    pose proof (take_kw_other as_integrity_checking k6 n eq_refl H6) as H7. destruct (take_kw as_integrity_checking k6) as [ic k7].
    eexists. by apply (preset_other _ _ _ _ n).
  - unfold io. destruct (negb _); [by eexists|]. destruct (new_io_backend env) as [b'|x]; cbn [rbind]; [|by eexists].
    eexists. by apply (preset_other _ _ _ _ n).
Qed.

(** The dictionaries made of a profile cannot be given to the decorators they are
    made for: whatever the profile and the overrides, [cache] and all its presets but
    [cache.local] refuse them, since no configuration has a field [collect_stats]. *)
Theorem profile_keywords_refused (keyword : pystr * value V -> kwarg) profile overrides i config :
  (forall v, keyword (u "collect_stats", v) = kw_other (u "collect_stats")) -> i <> Local ->
  (exists x, (decorator i config (map keyword (get_decorator_kwargs profile overrides))).1 = Err x) /\
  forall o, exists x, (decorator i config (map keyword (create_optimized_decorator_config profile o))).1 = Err x.
Proof.
  intros Hk Hi. assert (G : forall d, u "collect_stats" ∈ od_keys d -> exists x, (decorator i config (map keyword d)).1 = Err x).
  { intros d Hd. apply list_elem_of_fmap in Hd as ([k v] & E & Hd). cbn in E. subst k.
    assert (H : kw_other (u "collect_stats") ∈ map keyword d).
    { apply list_elem_of_fmap. exists (u "collect_stats", v). split; [|done]. by rewrite Hk. }
    unfold Decoration.decorator. pose proof (take_kw_other as_backend _ _ eq_refl H) as H1.
    destruct (take_kw as_backend (map keyword d)) as [gb k1]. destruct (chosen_backend env gb) as [l b].
    apply nest_l1_other in H1. set (k2 := match config, i with None, Bare => nest_encryption (nest_l1_enabled k1) | _, _ => nest_l1_enabled k1 end).
    assert (H2 : kw_other (u "collect_stats") ∈ k2).
    { unfold k2. destruct config, i; try done; by apply nest_encryption_other. }
    destruct (resolve_other i config b k2 _ H2) as [x Ex].
    assert (R : forall j cf, j = i -> cf = config -> (let (r, kws) := resolve default_serializer env i config b k2 in
      (c <-! r ; Ok (Cached c l), kws)).1 = Err x).
    { intros j cf _ _. destruct (resolve _ _ _ _ _ _) as [r kws]. cbn in Ex. by subst r. }
    destruct i, config; try done; eexists; by apply (R _ _ eq_refl eq_refl). }
  split; [|intros o]; apply G; unfold get_decorator_kwargs, create_optimized_decorator_config; apply updated_mem;
    apply list_elem_of_lookup; by exists 3%nat.
Qed.
End Refused.

(** Keywords as the decorators see them: these name no field but the backend. *)
Definition demo_keyword (kv : pystr * value unit) : kwarg unit unit unit unit :=
  if bool_decide (kv.1 = u "backend") then kw_backend None else kw_other kv.1.
Definition demo_environment : environment unit := mkEnv None (Some (u "secret")) 100 true (Ok tt).

Lemma profile_keywords_refused_witness :
  od_get (u "max_concurrent_requests") (get_decorator_kwargs (V := unit) BALANCED (Some [(u "max_concurrent_requests", VInt 7)])) = Some (VInt 7) /\
  exists x, (decorator tt demo_environment Secure None
    (map demo_keyword (get_decorator_kwargs BALANCED (Some [(u "max_concurrent_requests", VInt 7)])))).1 = Err x.
Proof.
  split; [reflexivity|].
  exact (proj1 (profile_keywords_refused tt demo_environment demo_keyword BALANCED (Some [(u "max_concurrent_requests", VInt 7)])
    Secure None (fun _ => eq_refl) ltac:(discriminate))).
Defined.
