(* ===== verification/Container.v ===== *)
(** The dependency container ([src/src/cachekit/di.py]), what [cache_handler.py]
    registers in it, and what [health.py] looks for in it.

    A class is the code that makes an instance of it; classes do not use the container
    while they make one.  One thread at a time. *)
From Stdlib Require Import ZArith Lia SpecFloat.
From stdpp Require Import base list numbers option strings gmap.
From S2P Require Import Prelude PyFloat Errors Effects Configuration Health.

Local Open Scope Z_scope.
Local Open Scope eff_scope.

(** The interfaces the library asks for, and those of an application. *)
Inductive interface :=
  | LoggerProvider
  | BackendProviderInterface
  | CacheClientProvider
  | PoolManagerProtocol
  | CircuitBreakerProtocol
  | OtherInterface (n : nat).

#[export] Instance interface_eq_dec : EqDecision interface.
Proof. solve_decision. Defined.

#[export] Instance interface_countable : Countable interface.
Proof.
  refine (inj_countable'
    (fun i => match i with
              | LoggerProvider => 0 | BackendProviderInterface => 1 | CacheClientProvider => 2
              | PoolManagerProtocol => 3 | CircuitBreakerProtocol => 4 | OtherInterface n => 5 + n end%nat)
    (fun n => match n with
              | 0 => LoggerProvider | 1 => BackendProviderInterface | 2 => CacheClientProvider
              | 3 => PoolManagerProtocol | 4 => CircuitBreakerProtocol | S (S (S (S (S n)))) => OtherInterface n end%nat) _).
  by intros [].
Defined.

Section Container.
Context {V W : Type}.

Record service := mkService { implementation : eff W V; singleton : bool }.

Record DIContainer := mkContainer {
  _services : gmap interface service;
  _singletons : gmap interface V
}.

(** ** The one container *)

(** [__new__] and [__init__]: [DIContainer._instance], with its [_initialized]. *)
Definition new (instance : option (bool * DIContainer)) : bool * DIContainer :=
  match instance with None => (false, mkContainer ∅ ∅) | Some c => c end.
Definition initialised (c : bool * DIContainer) : bool * DIContainer :=
  if c.1 then c else (true, mkContainer ∅ ∅).
Definition DIContainer_call (instance : option (bool * DIContainer)) : bool * DIContainer := initialised (new instance).

(** ** Its operations *)

Definition state : Type := DIContainer * W.

Definition register (k : interface) (implementation : eff W V) (singleton : bool) : eff state unit :=
  modify (fun s => (mkContainer (<[k := mkService implementation singleton]> (_services s.1)) (_singletons s.1), s.2)).

Definition on_world {A} (m : eff W A) : eff state A := fun s => let (r, w) := m s.2 in (r, (s.1, w)).

Definition get (k : interface) : eff state V :=
  services <~ gets (fun s => _services s.1) ;;
  match services !! k with
  | None => throw (PyExn ValueError)
  | Some config =>
      if singleton config then
        singletons <~ gets (fun s => _singletons s.1) ;;
        match singletons !! k with
        | Some v => ret v
        | None =>
            v <~ on_world (implementation config) ;;
            _ <~ modify (fun s => (mkContainer (_services s.1) (<[k := v]> (_singletons s.1)), s.2)) ;;
            ret v
        end
      else on_world (implementation config)
  end.

Definition clear_singletons : eff state unit := modify (fun s => (mkContainer (_services s.1) ∅, s.2)).

(** What importing [cache_handler.py] registers. *)
Definition registrations (DefaultLoggerProvider DefaultBackendProvider : eff W V) : eff state unit :=
  register LoggerProvider DefaultLoggerProvider true ;;~ register BackendProviderInterface DefaultBackendProvider true.

(** ** The one health checker *)

Section Checker.
Context {D : Type}.

(** A client provider as [RedisBackend(client_provider=...).health_check()]. *)
Context (redis_health : V -> eff W (bool * D)).

(** [container.get(CacheClientProvider)] and the check of the backend over it, as
    [quick_ping] and the checks of Redis have it. *)
Definition provided_health_check : eff state (bool * D) :=
  provider <~ get CacheClientProvider ;; on_world (redis_health provider).

Definition is_key_error (x : exn) : bool := match x with PyExn KeyError => true | _ => false end.

(** [try: ... = container.get(...) except (ValueError, KeyError): pass] *)
Definition discovered (k : interface) : eff state (option V) :=
  trying (v <~ get k ;; ret (Some v))
    (fun x => if is_value_error x || is_key_error x then ret None else throw x).

Record checker := mkTheChecker { timeout : float; pool_manager : option V; circuit_breaker : option V }.

(** [_health_checker] beside the container. *)
Definition get_health_checker (timeout_seconds : float) : eff (option checker * state) checker := fun s =>
  match s.1 with
  | Some c => (Ok c, s)
  | None =>
      match (pool <~ discovered PoolManagerProtocol ;; breaker <~ discovered CircuitBreakerProtocol ;;
             ret (mkTheChecker timeout_seconds pool breaker)) s.2 with
      | (Ok c, s') => (Ok c, (Some c, s'))
      | (Err x, s') => (Err x, (None, s'))
      end
  end.
End Checker.
End Container.
Arguments DIContainer : clear implicits.
Arguments service : clear implicits.
Arguments checker : clear implicits.
Arguments state : clear implicits.

(** ** What they promise *)

Section Props.
Context {V W : Type}.

Lemma get_cached k (s : state V W) v i : _services s.1 !! k = Some (mkService i true) -> _singletons s.1 !! k = Some v ->
  get k s = (Ok v, s).
Proof. intros S1 S2. unfold get, andthen, gets. rewrite S1. cbn. by rewrite S2. Qed.

Lemma get_unregistered k (s : state V W) : _services s.1 !! k = None -> get k s = (Err (PyExn ValueError), s).
Proof. intros E. unfold get, andthen, gets. by rewrite E. Qed.

(** What [get] leaves: the same services, and one more singleton at most. *)
Lemma get_leaves k (s : state V W) :
  _services (get k s).2.1 = _services s.1 /\ forall j v, _singletons s.1 !! j = Some v -> _singletons (get k s).2.1 !! j = Some v.
Proof.
  unfold get, andthen, gets. destruct (_services s.1 !! k) as [[i []]|]; [|destruct s as [c w]; unfold on_world; cbn; by destruct (i w)|done].
  cbn. destruct (_singletons s.1 !! k) as [v|] eqn:E; [done|]. unfold on_world. destruct (i s.2) as [[v|x] w]; [|done].
  cbn. split; [done|]. intros j v' Hj. rewrite lookup_insert_ne; [done|]. intros <-. congruence.
Qed.

(** *** Programs over the container *)
Inductive operation := Register (k : interface) (i : eff W V) (singleton : bool) | Get (k : interface) | Clear.

Definition operate (o : operation) (s : state V W) : state V W :=
  match o with
  | Register k i b => (register k i b s).2
  | Get k => (get k s).2
  | Clear => (clear_singletons s).2
  end.

Definition operations (l : list operation) (s : state V W) : state V W := foldl (fun s o => operate o s) s l.

(** Nothing but [clear_singletons] forgets an instance. *)
Lemma singletons_kept l (s : state V W) k v : Forall (fun o => o <> Clear) l ->
  _singletons s.1 !! k = Some v -> _singletons (operations l s).1 !! k = Some v.
Proof.
  intros H. revert s. induction H as [|o l Ho _ IH]; intros s E; [done|]. apply IH. destruct o as [j i b|j|]; [done| |done].
  by apply (get_leaves j s).
Qed.

Lemma services_kept l (s : state V W) k : Forall (fun o => match o with Register j _ _ => j <> k | _ => True end) l ->
  _services (operations l s).1 !! k = _services s.1 !! k.
Proof.
  intros H. revert s. induction H as [|o l Ho _ IH]; intros s; [done|]. unfold operations in *. cbn [foldl]. rewrite IH.
  destruct o as [j i b|j|]; [by apply lookup_insert_ne| |done].
  exact (f_equal (fun m => m !! k) (proj1 (get_leaves j s))).
Qed.

(** A singleton is one object: once an interface has been asked for, every further
    [get] returns that same instance and runs nothing, whatever is asked for and
    registered in between, a new implementation of the interface itself included, which
    has no effect before [clear_singletons]; and an implementation that raises leaves
    nothing behind and is tried again. *)
Theorem singleton_is_one_object k i (s : state V W) : _services s.1 !! k = Some (mkService i true) -> _singletons s.1 !! k = None ->
  (forall v w, i s.2 = (Ok v, w) -> (get k s).1 = Ok v /\
     forall l, Forall (fun o => o <> Clear /\ forall j b, o <> Register k j b) l ->
       let t := operations l (get k s).2 in
       get k t = (Ok v, t) /\ forall j, let t' := (register k j true t).2 in get k t' = (Ok v, t')) /\
  (forall x w, i s.2 = (Err x, w) -> get k s = (Err x, (s.1, w))).
Proof.
  intros S1 S2. split.
  - intros v w E.
    assert (G : get k s = (Ok v, (mkContainer (_services s.1) (<[k := v]> (_singletons s.1)), w)))
      by (unfold get, andthen, gets; rewrite S1; cbn; rewrite S2; unfold on_world; by rewrite E).
    rewrite G. split; [done|]. intros l Hl. cbn zeta.
    assert (K : _singletons (operations l (mkContainer (_services s.1) (<[k := v]> (_singletons s.1)), w)).1 !! k = Some v).
    { apply singletons_kept; [|apply lookup_insert_eq]. eapply list.Forall_impl; [exact Hl|]. by intros o [H _]. }
    split; [apply (get_cached _ _ _ i); [|done]|intros j; apply (get_cached _ _ _ j); [apply lookup_insert_eq|done]].
    rewrite services_kept; [done|]. eapply list.Forall_impl; [exact Hl|]. intros [j i' b|j|] [_ H]; [|done..]. intros ->. by eapply H.
  - intros x w E. unfold get, andthen, gets. rewrite S1. cbn. rewrite S2. unfold on_world. by rewrite E.
Qed.

(** *** The container of a process *)

Lemma one_container instance : DIContainer_call (Some (DIContainer_call (V := V) (W := W) instance)) = DIContainer_call instance.
Proof. by destruct instance as [[[] c]|]. Qed.

(** *** Health *)
Section Health.
Context {D : Type} (redis_health : V -> eff W (bool * D)).
Context (time : W -> float * W) (str : exn -> pystr) (error_details : exn -> D).
Context (breaker_details : option pystr -> Z -> Z -> option pystr -> D) (metrics_details : Z -> D) (error_of : D -> pystr).
Context (metrics : option (eff (state V W) Z)) (the_pool : option (Health.pool_manager (W := state V W) (D := D))).
Context (the_breaker : option (Health.circuit_breaker (state V W))).

Definition clock (s : state V W) : float * state V W := let (t, w) := time s.2 in (t, (s.1, w)).

Local Abbreviation provided := (provided_health_check redis_health).
Definition check_of_process : bool -> HealthLevel -> eff (HealthChecker (state V W) D) (HealthCheckResult D) :=
  check_health clock str error_details breaker_details metrics_details the_pool the_breaker metrics
    (_check_redis_sync str error_details error_of provided).

Lemma nothing_provided (s : state V W) : _services s.1 !! CacheClientProvider = None -> provided s = (Err (PyExn ValueError), s).
Proof. intros E. unfold provided_health_check, andthen. by rewrite get_unregistered. Qed.

(** The health checks need a registered client provider: without one, as in a
    process where nothing but importing the library has filled the container, a ping is
    false and a fresh check of any level is unhealthy, whether Redis is up, down or not
    used at all; and once a provider is made, a check of Redis says what the backend over
    it says. *)
Theorem health_needs_a_provider (s : HealthChecker (state V W) D) level :
  (_services (outside s).1 !! CacheClientProvider = None ->
     quick_ping provided (outside s) = (Ok false, outside s) /\
     exists r s', check_of_process true level s = (Ok r, s') /\ overall r = UNHEALTHY) /\
  (forall i v c, _services c !! CacheClientProvider = Some (mkService i true) -> _singletons c !! CacheClientProvider = Some v ->
     forall w, quick_ping provided (c, w) =
       (Ok (match (redis_health v w).1 with Ok r => r.1 | Err _ => false end), (c, (redis_health v w).2))).
Proof.
  split.
  - intros E. split; [unfold quick_ping, trying, andthen; by rewrite nothing_provided|].
    destruct (fresh_check_spec clock str error_details breaker_details metrics_details metrics the_pool the_breaker
      (_check_redis_sync str error_details error_of provided) (redis_answers _ _ _ _) level s)
      as (r & s' & F & O & _ & redis & rest & C & R & _).
    exists r, s'. split; [exact F|]. rewrite O, C.
    assert (U : status redis = UNHEALTHY).
    { unfold _check_redis_sync, trying, andthen, clock in R. destruct (time (outside s).2) as [t w].
      rewrite nothing_provided in R by done. by injection R as <-. }
    unfold _determine_overall_status. cbn [existsb]. by rewrite U.
  - intros i v c S1 S2 w. unfold quick_ping, trying, provided_health_check, andthen. rewrite (get_cached _ _ v i) by done.
    unfold on_world. cbn [fst snd]. destruct (redis_health v w) as [[r|x] w']; reflexivity.
Qed.
End Health.

(** The checker keeps the time-out and the components found at its first use. *)
Lemma checker_is_first timeout timeout' (s s' : state V W) c g : get_health_checker timeout (None, s) = (Ok c, (g, s')) ->
  g = Some c /\ timeout = Container.timeout c /\ forall t : state V W, get_health_checker timeout' (g, t) = (Ok c, (g, t)).
Proof.
  unfold get_health_checker, andthen. cbn [fst snd]. destruct (discovered PoolManagerProtocol s) as [[p|x] s1]; [|done].
  destruct (discovered CircuitBreakerProtocol s1) as [[b|x] s2]; [|done]. cbn. intros E.
  apply pair_equal_spec in E as [E1 E2]. apply Ok_inj in E1 as <-. apply pair_equal_spec in E2 as [<- _]. done.
Qed.

(** Nothing is found in the container the library fills. *)
Lemma library_registers_nothing_else (logger backend : eff W V) w :
  let s := (registrations logger backend (mkContainer ∅ ∅, w)).2 in
  _services s.1 !! CacheClientProvider = None /\ discovered PoolManagerProtocol s = (Ok None, s) /\
  discovered CircuitBreakerProtocol s = (Ok None, s).
Proof. cbn zeta. split_and!; [done|reflexivity..]. Qed.
End Props.

(** A process where every class makes a number, counting. *)
Module Example.
Definition counting : eff nat nat := fun n => (Ok n, S n).
Definition imported : state nat nat := (registrations counting counting (mkContainer ∅ ∅, 0%nat)).2.
Definition redis_up (_ : nat) : eff nat (bool * unit) := ret (true, tt).
Definition checker : HealthChecker (state nat nat) unit := mkChecker None None imported.

Lemma singleton_is_one_object_witness :
  (get LoggerProvider imported).1 = Ok 0%nat /\
  (get LoggerProvider (register LoggerProvider counting true (get LoggerProvider imported).2).2).1 = Ok 0%nat.
Proof.
  destruct (singleton_is_one_object LoggerProvider counting imported eq_refl eq_refl) as [S _].
  destruct (S 0%nat 1%nat eq_refl) as [G K]. split; [exact G|].
  destruct (K [] ltac:(constructor)) as [_ R]. exact (f_equal fst (R counting)).
Defined.

Lemma health_needs_a_provider_witness :
  (quick_ping (provided_health_check redis_up) imported).1 = Ok false /\
  (quick_ping (provided_health_check redis_up) (get CacheClientProvider (register CacheClientProvider counting true imported).2).2).1 = Ok true.
Proof.
  destruct (health_needs_a_provider redis_up (fun n => (fofZ 100, n)) (fun _ => []) (fun _ => tt) (fun _ _ _ _ => tt) (fun _ => tt)
    (fun _ => []) None None None checker PING) as [A B].
  split; [exact (f_equal fst (proj1 (A eq_refl)))|].
  exact (f_equal fst (B counting 0%nat (get CacheClientProvider (register CacheClientProvider counting true imported).2).2.1
    eq_refl eq_refl 1%nat)).
Defined.
End Example.
