(* ===== verification/AsyncMetrics.v ===== *)
(** The metrics collector ([src/src/cachekit/reliability/async_metrics.py]): callers
    that record, directly or through a bounded queue, the pool of dictionaries they
    share with the worker thread, and the batches the worker flushes.

    A metric dictionary is a reference into a heap, so that what the pool hands out
    twice is shared.  A call is one step, an iteration of the worker another.
    [prometheus_client] is a parameter: metrics are made and updated over [W]. *)
From Stdlib Require Import ZArith Lia SpecFloat.
From stdpp Require Import base list numbers option strings gmap.
From S2P Require Import Prelude PyFloat PyDict PyValue Errors Effects.

Local Open Scope Z_scope.
Local Open Scope eff_scope.

Inductive kind := Counter | Histogram | Gauge.

(** A number, an [int] or a [float]. *)
Inductive number := NInt (z : Z) | NFloat (x : float).
Inductive update := Inc (n : number) | Observe (n : number) | Set_ (n : number).

Lemma zlen_nil {A} : zlen (@nil A) = 0.
Proof. done. Qed.

Section Collector.
(** Metric objects, the values of labels, the state outside. *)
Context {H L W : Type} `{EqDecision L} (label : pystr -> L).

Definition labels : Type := list (pystr * L).

Inductive metric :=
  | CacheOperation (operation namespace : pystr) (success : bool) (duration_ms : float) (serializer : pystr) (size_bytes : Z)
  | BreakerState (namespace state : pystr) (transitions : Z)
  | CounterValue (name : pystr) (l : labels) (value : float)
  | HistogramValue (name : pystr) (l : labels) (value : float).

(** Whether [prometheus_client] is there; a metric made, [ValueError] for a name
    taken; a labelled metric updated; a name made unique. *)
Context (available : bool) (make : kind -> pystr -> pystr -> list pystr -> eff W H).
Context (duplicated : exn -> bool) (apply_update : H -> labels -> update -> eff W unit) (unique : pystr -> pystr).

(** [tuple(sorted(labels.items()))]: the names are distinct. *)
Definition by_name (l : labels) : labels := sorted_items l.

(** ** Prometheus *)

(** [_metrics_cache], and the state outside. *)
Definition metrics_cache : Type := list (pystr * H).
Definition made : Type := metrics_cache * W.

Definition _get_metric (name : pystr) (k : kind) (description : pystr) (label_names : list pystr) : eff made H := fun s =>
  match od_get name s.1 with
  | Some h => (Ok h, s)
  | None =>
      match make k name description label_names s.2 with
      | (Ok h, w) => (Ok h, (od_set name h s.1, w))
      | (Err x, w) =>
          if duplicated x then
            match make k (unique name) description label_names w with
            | (Ok h, w') => (Ok h, (od_set name h s.1, w'))
            | (Err y, w') => (Err y, (s.1, w'))
            end
          else (Err x, (s.1, w))
      end
  end.

Definition updated (h : H) (l : labels) (up : update) : eff made unit := fun s =>
  let (r, w) := apply_update h l up s.2 in (r, (s.1, w)).

Definition text (b : bool) : pystr := if b then u "True" else u "False".

Definition operation_labels (operation namespace serializer : pystr) : labels :=
  [(u "operation", label operation); (u "namespace", label namespace); (u "serializer", label serializer)].
Definition outcome_labels (operation namespace : pystr) (success : bool) (serializer : pystr) : labels :=
  [(u "operation", label operation); (u "namespace", label namespace); (u "success", label (text success));
   (u "serializer", label serializer)].
Definition state_labels (namespace state : pystr) : labels := [(u "namespace", label namespace); (u "state", label state)].

Definition cache_counter : eff made H :=
  _get_metric (u "cache_operations_total") Counter (u "Total cache operations")
    [u "operation"; u "namespace"; u "success"; u "serializer"].
Definition cache_duration : eff made H :=
  _get_metric (u "cache_operation_duration_ms") Histogram (u "Cache operation duration")
    [u "operation"; u "namespace"; u "serializer"].
Definition cache_size : eff made H :=
  _get_metric (u "cache_operation_size_bytes") Histogram (u "Cache operation size")
    [u "operation"; u "namespace"; u "serializer"].
Definition circuit_gauge : eff made H :=
  _get_metric (u "circuit_breaker_state") Gauge (u "Circuit breaker state") [u "namespace"; u "state"].

(** [_record_..._sync] *)
Definition record_sync (m : metric) : eff made unit :=
  if negb available then ret tt
  else match m with
  | CacheOperation op ns success duration ser size =>
      h <~ cache_counter ;;
      _ <~ updated h (outcome_labels op ns success ser) (Inc (NInt 1)) ;;
      _ <~ (if fgtZ duration 0 then h <~ cache_duration ;; updated h (operation_labels op ns ser) (Observe (NFloat duration))
            else ret tt) ;;
      if 0 <? size then h <~ cache_size ;; updated h (operation_labels op ns ser) (Observe (NInt size)) else ret tt
  | BreakerState ns state transitions =>
      h <~ circuit_gauge ;; updated h (state_labels ns state) (Set_ (NInt transitions))
  | CounterValue name l value =>
      h <~ _get_metric name Counter (u "Counter metric " ++ name) (map fst l) ;; updated h l (Inc (NFloat value))
  | HistogramValue name l value =>
      h <~ _get_metric name Histogram (u "Histogram metric " ++ name) (map fst l) ;; updated h l (Observe (NFloat value))
  end.

(** ** Batches *)

Definition operation_key : Type := pystr * pystr * bool * pystr.

(** What a batch adds up to; each in the order of its first metric. *)
Record groups := mkGroups {
  cache_ops : list (operation_key * (Z * float * Z));
  circuit_states : list ((pystr * pystr) * Z);
  counters : list (pystr * list (labels * float));
  histograms : list (pystr * list (float * labels))
}.

Definition grouped (g : groups) (m : metric) : groups :=
  match m with
  | CacheOperation op ns success duration ser size =>
      let '(n, d, s) := default (0, S754_zero false, 0) (od_get (op, ns, success, ser) (cache_ops g)) in
      mkGroups (od_set (op, ns, success, ser) (n + 1, fadd d duration, s + size) (cache_ops g))
        (circuit_states g) (counters g) (histograms g)
  | BreakerState ns state _ =>
      mkGroups (cache_ops g) (od_set (ns, state) (default 0 (od_get (ns, state) (circuit_states g)) + 1) (circuit_states g))
        (counters g) (histograms g)
  | CounterValue name l value =>
      let values := default [] (od_get name (counters g)) in
      let value := fadd (default (S754_zero false) (od_get (by_name l) values)) value in
      mkGroups (cache_ops g) (circuit_states g) (od_set name (od_set (by_name l) value values) (counters g)) (histograms g)
  | HistogramValue name l value =>
      mkGroups (cache_ops g) (circuit_states g) (counters g)
        (od_set name (default [] (od_get name (histograms g)) ++ [(value, by_name l)]) (histograms g))
  end.

(** [for x in l: f(x)] *)
Fixpoint each {A} (f : A -> eff made unit) (l : list A) : eff made unit :=
  match l with [] => ret tt | x :: r => _ <~ f x ;; each f r end.

Definition update_operation (c d z : H) (e : operation_key * (Z * float * Z)) : eff made unit :=
  let '((op, ns, success, ser), (n, duration, size)) := e in
  _ <~ updated c (outcome_labels op ns success ser) (Inc (NInt n)) ;;
  _ <~ (if fgtZ duration 0 then updated d (operation_labels op ns ser) (Observe (NFloat (fdiv duration (fofZ n)))) else ret tt) ;;
  if 0 <? size
  then average <~ lift (py (fdivZ size n)) ;; updated z (operation_labels op ns ser) (Observe (NFloat average))
  else ret tt.

Definition update_counter (e : pystr * list (labels * float)) : eff made unit :=
  match e.2 with
  | [] => ret tt
  | (first, _) :: _ =>
      h <~ _get_metric e.1 Counter (u "Counter metric " ++ e.1) (map fst first) ;;
      each (fun lv => updated h lv.1 (Inc (NFloat lv.2))) e.2
  end.

Definition update_histogram (e : pystr * list (float * labels)) : eff made unit :=
  match e.2 with
  | [] => ret tt
  | (_, first) :: _ =>
      h <~ _get_metric e.1 Histogram (u "Histogram metric " ++ e.1) (map fst first) ;;
      each (fun vl => updated h vl.2 (Observe (NFloat vl.1))) e.2
  end.

Definition _update_prometheus_metrics (g : groups) : eff made unit :=
  c <~ cache_counter ;;
  d <~ cache_duration ;;
  z <~ cache_size ;;
  b <~ circuit_gauge ;;
  _ <~ each (update_operation c d z) (cache_ops g) ;;
  _ <~ each (fun e => updated b (state_labels e.1.1 e.1.2) (Set_ (NInt e.2))) (circuit_states g) ;;
  _ <~ each update_counter (counters g) ;;
  each update_histogram (histograms g).

(** ** The collector *)

Record settings := mkSettings {
  batch_size : Z;
  flush_interval : float;
  max_queue_size : Z;
  auto_detect_mode : bool
}.

(** The worker thread: in its loop with a batch and the time of its last flush, or gone. *)
Inductive worker := NotStarted | Running (batch : list Z) (last_flush : float) | Gone.

(** References name the dictionaries of [heap]; [None] is an empty one. *)
Record collector := mkCollector {
  _operation_count : Z;
  _start_time : float;
  _last_mode_check : float;
  _sync_mode : bool;
  _queue : option (list Z);
  _stopped : bool;
  _worker : worker;
  _dropped_metrics : Z;
  _metric_pool : list Z;
  heap : gmap Z (option metric);
  next_ref : Z;
  prometheus : made
}.

Context (cfg : settings).

Definition with_prometheus (p : made) (s : collector) : collector :=
  mkCollector (_operation_count s) (_start_time s) (_last_mode_check s) (_sync_mode s) (_queue s) (_stopped s) (_worker s)
    (_dropped_metrics s) (_metric_pool s) (heap s) (next_ref s) p.
Definition with_worker (w : worker) (s : collector) : collector :=
  mkCollector (_operation_count s) (_start_time s) (_last_mode_check s) (_sync_mode s) (_queue s) (_stopped s) w
    (_dropped_metrics s) (_metric_pool s) (heap s) (next_ref s) (prometheus s).
Definition with_queue (q : option (list Z)) (s : collector) : collector :=
  mkCollector (_operation_count s) (_start_time s) (_last_mode_check s) (_sync_mode s) q (_stopped s) (_worker s)
    (_dropped_metrics s) (_metric_pool s) (heap s) (next_ref s) (prometheus s).
Definition with_pool (l : list Z) (s : collector) : collector :=
  mkCollector (_operation_count s) (_start_time s) (_last_mode_check s) (_sync_mode s) (_queue s) (_stopped s) (_worker s)
    (_dropped_metrics s) l (heap s) (next_ref s) (prometheus s).
Definition with_heap (h : gmap Z (option metric)) (n : Z) (s : collector) : collector :=
  mkCollector (_operation_count s) (_start_time s) (_last_mode_check s) (_sync_mode s) (_queue s) (_stopped s) (_worker s)
    (_dropped_metrics s) (_metric_pool s) h n (prometheus s).
Definition with_stopped (b : bool) (s : collector) : collector :=
  mkCollector (_operation_count s) (_start_time s) (_last_mode_check s) (_sync_mode s) (_queue s) b (_worker s)
    (_dropped_metrics s) (_metric_pool s) (heap s) (next_ref s) (prometheus s).
Definition with_mode (sync : bool) (s : collector) : collector :=
  mkCollector (_operation_count s) (_start_time s) (_last_mode_check s) sync (_queue s) (_stopped s) (_worker s)
    (_dropped_metrics s) (_metric_pool s) (heap s) (next_ref s) (prometheus s).
Definition with_dropped (s : collector) : collector :=
  mkCollector (_operation_count s) (_start_time s) (_last_mode_check s) (_sync_mode s) (_queue s) (_stopped s) (_worker s)
    (_dropped_metrics s + 1) (_metric_pool s) (heap s) (next_ref s) (prometheus s).
Definition with_check (t : float) (s : collector) : collector :=
  mkCollector (_operation_count s) (_start_time s) t (_sync_mode s) (_queue s) (_stopped s) (_worker s)
    (_dropped_metrics s) (_metric_pool s) (heap s) (next_ref s) (prometheus s).
Definition counted (s : collector) : collector :=
  mkCollector (_operation_count s + 1) (_start_time s) (_last_mode_check s) (_sync_mode s) (_queue s) (_stopped s) (_worker s)
    (_dropped_metrics s) (_metric_pool s) (heap s) (next_ref s) (prometheus s).

Definition on_prometheus (m : eff made unit) : eff collector unit := fun s =>
  let (r, p) := m (prometheus s) in (r, with_prometheus p s).

(** The thread is started with the queue, once. *)
Definition _init_async_mode (now : float) (s : collector) : collector :=
  match _queue s with
  | None => with_worker (Running [] now) (with_stopped false (with_queue (Some []) s))
  | Some _ => s
  end.

Definition init (sync_mode : option bool) (now : float) (p : made) : collector :=
  let sync := match sync_mode with None => auto_detect_mode cfg | Some b => b end in
  let s := mkCollector 0 now now sync None false NotStarted 0 [] ∅ 0 p in
  if sync then s else _init_async_mode now s.

Definition _should_check_mode (now : float) (s : collector) : bool * collector :=
  if fgtZ (fsub now (_last_mode_check s)) 5 then (true, with_check now s) else (false, s).

Definition _maybe_switch_mode (now : float) (s : collector) : collector :=
  if _operation_count s <? 10 then s
  else
    let elapsed := fsub now (_start_time s) in
    if fltZ elapsed 1 then s
    else
      let ops_per_second := fdiv (fofZ (_operation_count s)) elapsed in
      if _sync_mode s && fgtZ ops_per_second 100 then _init_async_mode now (with_mode false s)
      else if negb (_sync_mode s) && fltZ ops_per_second 10
      then with_stopped (match _queue s with Some _ => true | None => _stopped s end) (with_mode true s)
      else s.

(** [_get_pooled_metric_data], then [update]. *)
Definition pooled (m : metric) (s : collector) : Z * collector :=
  match rev (_metric_pool s) with
  | r :: _ => (r, with_heap (<[r := Some m]> (heap s)) (next_ref s) (with_pool (take (length (_metric_pool s) - 1) (_metric_pool s)) s))
  | [] => (next_ref s, with_heap (<[next_ref s := Some m]> (heap s)) (next_ref s + 1) s)
  end.

Definition _return_to_pool (r : Z) (s : collector) : collector :=
  if zlen (_metric_pool s) <? 100 then with_pool (_metric_pool s ++ [r]) s else s.

(** [queue.Queue(maxsize)]: none of zero or less is ever full. *)
Definition full (q : list Z) : bool := (0 <? max_queue_size cfg) && (max_queue_size cfg <=? zlen q).

(** [_record_..._async]; without a queue the assertion fails. *)
Definition record_async (m : metric) : eff collector unit := fun s =>
  match _queue s with
  | None => (Err OtherError, s)
  | Some q =>
      let (r, s) := pooled m s in
      if full q then (Ok tt, _return_to_pool r (with_dropped s)) else (Ok tt, with_queue (Some (q ++ [r])) s)
  end.

(** A public method: [checked] and [switched] are what the clock says. *)
Definition record (checked switched : float) (m : metric) : eff collector unit := fun s =>
  let s := counted s in
  let s := if auto_detect_mode cfg then
             let (due, s) := _should_check_mode checked s in if due then _maybe_switch_mode switched s else s
           else s in
  if _sync_mode s then on_prometheus (record_sync m) s else record_async m s.

(** Without the wait for the thread to end. *)
Definition shutdown (s : collector) : collector :=
  if negb (_sync_mode s) && bool_decide (is_Some (_queue s)) then with_stopped true s else s.

(** ** The worker *)

(** An empty dictionary has no [type]: it is logged and passed over. *)
Definition gathered (h : gmap Z (option metric)) (batch : list Z) : groups :=
  foldl (fun g r => match h !! r with Some (Some m) => grouped g m | _ => g end) (mkGroups [] [] [] []) batch.

Definition _flush_batch (batch : list Z) : eff collector unit := fun s =>
  let s' := foldl (fun s r => _return_to_pool r s) s batch in
  if negb available then (Ok tt, s') else on_prometheus (_update_prometheus_metrics (gathered (heap s) batch)) s'.

(** After the flush of a batch: a new one, or the thread is gone with the exception. *)
Definition flushed_at (now : float) (batch : list Z) (s : collector) : collector :=
  match _flush_batch batch s with
  | (Ok _, s') => with_worker (Running [] now) s'
  | (Err _, s') => with_worker Gone s'
  end.

(** One iteration of [_worker_loop].  A flush that fails in the [try] is logged and
    the batch is kept; one in the handler of [queue.Empty], or after the [try], ends
    the thread.  [now] and [later] are the readings of the clock. *)
Definition _worker_loop (now later : float) (s : collector) : collector :=
  match _worker s, _queue s with
  | Running batch last_flush, Some q =>
      if _stopped s then
        match batch with [] => with_worker Gone s | _ => with_worker Gone (_flush_batch batch s).2 end
      else
        let s :=
          match q with
          | r :: q =>
              let s := with_queue (Some q) (with_worker (Running (batch ++ [r]) last_flush) s) in
              if batch_size cfg <=? zlen (batch ++ [r]) then
                match _flush_batch (batch ++ [r]) s with
                | (Ok _, s') => with_worker (Running [] now) s'
                | (Err _, s') => s'
                end
              else s
          | [] => match batch with [] => s | _ => flushed_at now batch s end
          end in
        match _worker s with
        | Running (r :: batch) last_flush =>
            if fgt (fsub later last_flush) (flush_interval cfg) then flushed_at later (r :: batch) s else s
        | _ => s
        end
  | _, _ => s
  end.

(** ** Runs *)

Inductive event :=
  | Record (checked switched : float) (m : metric)
  | Work (now later : float)
  | Shutdown.

Definition step (e : event) (s : collector) : collector :=
  match e with
  | Record checked switched m => (record checked switched m s).2
  | Work now later => _worker_loop now later s
  | Shutdown => shutdown s
  end.

Definition run (es : list event) (s : collector) : collector := foldl (fun s e => step e s) s es.

(** The mode a record is made in. *)
Definition switched_to (checked switched : float) (s : collector) : collector :=
  let s := counted s in
  if auto_detect_mode cfg then
    let (due, s) := _should_check_mode checked s in if due then _maybe_switch_mode switched s else s
  else s.

(** *** A collector whose worker is gone *)

(** Deciding the mode only touches the counters, the mode and the event, once there
    is a queue. *)
Lemma switched_keeps checked switched s q : _queue s = Some q ->
  let s' := switched_to checked switched s in
  _queue s' = Some q /\ _worker s' = _worker s /\ _metric_pool s' = _metric_pool s /\ heap s' = heap s /\
  next_ref s' = next_ref s /\ prometheus s' = prometheus s /\ _dropped_metrics s' = _dropped_metrics s /\
  (_stopped s = true -> _stopped s' = true).
Proof.
  intros Q. unfold switched_to, _should_check_mode, _maybe_switch_mode, _init_async_mode. cbn.
  repeat (case_match; simplify_eq/=; try done). all: split_and!; done || (rewrite Q in *; done) || idtac.
Qed.

Lemma record_switched checked switched m s : record checked switched m s =
  if _sync_mode (switched_to checked switched s) then on_prometheus (record_sync m) (switched_to checked switched s)
  else record_async m (switched_to checked switched s).
Proof. done. Qed.

(** The records of a run made in a mode. *)
Fixpoint records (sync : bool) (es : list event) (s : collector) : Z :=
  match es with
  | [] => 0
  | e :: es =>
      (match e with Record _ _ _ => if Bool.eqb (_sync_mode (step e s)) sync then 1 else 0 | _ => 0 end)
      + records sync es (step e s)
  end.

Lemma records_nonneg b es s : 0 <= records b es s.
Proof.
  revert s. induction es as [|e es IH]; intros s; cbn [records]; [lia|]. specialize (IH (step e s)).
  destruct e; [destruct (Bool.eqb _ _)|..]; lia.
Qed.

(** An asynchronous record queues one dictionary or drops one. *)
Lemma record_async_spec m s q : _queue s = Some q ->
  let s' := (record_async m s).2 in
  _worker s' = _worker s /\ _sync_mode s' = _sync_mode s /\ prometheus s' = prometheus s /\ _stopped s' = _stopped s /\
  exists more, _queue s' = Some (q ++ more) /\ zlen more + _dropped_metrics s' = _dropped_metrics s + 1 /\
    (0 < max_queue_size cfg -> zlen (q ++ more) <= Z.max (zlen q) (max_queue_size cfg)).
Proof.
  intros Q. unfold record_async, pooled, _return_to_pool, full. rewrite Q.
  assert (B : (0 <? max_queue_size cfg) && (max_queue_size cfg <=? zlen q) = false -> forall r,
    0 < max_queue_size cfg -> zlen (q ++ [r]) <= Z.max (zlen q) (max_queue_size cfg)).
  { intros E r M. rewrite zlen_app, zlen_cons, zlen_nil.
    apply andb_false_iff in E as [E|E]; zbool; lia. }
  destruct (rev (_metric_pool s)) as [|r l]; destruct ((0 <? _) && _) eqn:E; cbn; repeat case_match; cbn; split_and!; try done.
  all: first [exists []; rewrite app_nil_r; split_and!; [exact Q|rewrite ?zlen_cons, ?zlen_nil; lia|lia]
             |eexists [_]; split_and!; [reflexivity|rewrite ?zlen_cons, ?zlen_nil; lia|exact (B eq_refl _)]].
Qed.

Lemma gone_step e s q : _worker s = Gone -> _queue s = Some q ->
  let s' := step e s in
  _worker s' = Gone /\ exists more, _queue s' = Some (q ++ more) /\
    zlen more + _dropped_metrics s' = _dropped_metrics s + records false [e] s /\
    (0 < max_queue_size cfg -> zlen (q ++ more) <= Z.max (zlen q) (max_queue_size cfg)) /\
    (records true [e] s = 0 -> prometheus s' = prometheus s).
Proof.
  intros Wg Q. destruct e as [checked switched m|now later|]; cbn [step records].
  - rewrite record_switched. destruct (switched_keeps checked switched s q Q) as (Q' & W' & _ & _ & _ & P' & D' & _).
    destruct (_sync_mode (switched_to checked switched s)) eqn:M.
    + unfold on_prometheus. destruct (record_sync m _) as [r p]. cbn. rewrite M. cbn [Bool.eqb]. split; [congruence|].
      exists []. rewrite app_nil_r. split_and!; [done|rewrite ?zlen_cons, ?zlen_nil; lia|lia|done].
    + destruct (record_async_spec m _ q Q') as (W2 & M2 & P2 & _ & more & Q2 & D2 & B2).
      rewrite M2, M. cbn [Bool.eqb]. split; [congruence|]. exists more. split_and!; [done|rewrite ?zlen_cons, ?zlen_nil; lia|done|intros _; congruence].
  - unfold _worker_loop. rewrite Wg. split; [done|]. exists []. rewrite app_nil_r. split_and!; [done|rewrite ?zlen_cons, ?zlen_nil; lia|lia|done].
  - unfold shutdown. destruct (negb _ && _); cbn; (split; [done|]); exists []; rewrite app_nil_r; split_and!; try done; rewrite ?zlen_cons, ?zlen_nil; lia.
Qed.

(** Once the worker thread has ended, and it ends for good when the collector
    falls back to the synchronous mode, no event starts another: whatever is
    recorded afterwards, and however often the collector turns asynchronous again,
    every metric recorded in that mode only joins the queue, behind what was left
    there, until it is full, and is dropped from then on; Prometheus learns of none
    of them. *)
Theorem worker_is_never_replaced es s q : _worker s = Gone -> _queue s = Some q ->
  _worker (run es s) = Gone /\ exists more, _queue (run es s) = Some (q ++ more) /\
    zlen more + _dropped_metrics (run es s) = _dropped_metrics s + records false es s /\
    (0 < max_queue_size cfg -> zlen (q ++ more) <= Z.max (zlen q) (max_queue_size cfg)) /\
    (records true es s = 0 -> prometheus (run es s) = prometheus s).
Proof.
  revert s q. induction es as [|e es IH]; intros s q Wg Q.
  { change (run [] s) with s. cbn [records]. split; [done|]. exists []. rewrite app_nil_r.
    split_and!; [done|rewrite zlen_nil; lia|lia|done]. }
  destruct (gone_step e s q Wg Q) as (W1 & m1 & Q1 & D1 & B1 & P1). destruct (IH _ _ W1 Q1) as (W2 & m2 & Q2 & D2 & B2 & P2).
  split; [done|]. exists (m1 ++ m2). rewrite app_assoc. cbn [records] in *.
  pose proof (records_nonneg true es (step e s)). pose proof (records_nonneg true [e] s). cbn [records] in *.
  split_and!; [done|rewrite zlen_app; unfold run in *; cbn [foldl]; lia|intros Mx; specialize (B1 Mx); specialize (B2 Mx); lia|].
  intros R. unfold run in *. cbn [foldl]. rewrite P2 by lia. apply P1. lia.
Qed.

(** The fall back to the synchronous mode sets the event, and the iteration that
    sees it is the last. *)
Lemma fallback_sets_stopped checked switched s q : _queue s = Some q ->
  _sync_mode s = false -> _sync_mode (switched_to checked switched s) = true -> _stopped (switched_to checked switched s) = true.
Proof.
  intros Q M. unfold switched_to, _should_check_mode, _maybe_switch_mode, _init_async_mode.
  repeat (case_match; simplify_eq/=; try congruence).
Qed.

Lemma stopped_worker_ends now later s q : _queue s = Some q -> _stopped s = true -> _worker s <> NotStarted ->
  _worker (_worker_loop now later s) = Gone.
Proof.
  intros Q S N. unfold _worker_loop. destruct (_worker s) as [|batch t|] eqn:E; [done| |by rewrite E].
  rewrite Q, S. by destruct batch.
Qed.

(** *** Who owns a dictionary *)

(** What the worker has collected and what waits for it, in order. *)
Definition owned (s : collector) : list Z :=
  match _worker s with Running batch _ => batch | _ => [] end ++ default [] (_queue s).

Definition own (s : collector) : Prop :=
  NoDup (_metric_pool s ++ owned s) /\ Forall (fun r => r < next_ref s) (_metric_pool s ++ owned s) /\
  forall r, r ∈ owned s -> exists m, heap s !! r = Some (Some m).

(** A flush of a full batch that fails: it keeps a batch it has given back. *)
Definition full_flush_fails (s : collector) : bool :=
  match _worker s, _queue s with
  | Running batch t, Some (r :: q) =>
      negb (_stopped s) && (batch_size cfg <=? zlen (batch ++ [r])) &&
      negb (is_Ok (_flush_batch (batch ++ [r]) (with_queue (Some q) (with_worker (Running (batch ++ [r]) t) s))).1)
  | _, _ => false
  end.

Fixpoint no_full_flush_fails (es : list event) (s : collector) : Prop :=
  match es with
  | [] => True
  | e :: es => match e with Work _ _ => full_flush_fails s = false | _ => True end /\ no_full_flush_fails es (step e s)
  end.

(** Another state with the same dictionaries, of which some are forgotten. *)
Lemma own_less s s' : own s -> (exists rest, _metric_pool s ++ owned s ≡ₚ (_metric_pool s' ++ owned s') ++ rest) ->
  heap s' = heap s -> next_ref s' = next_ref s -> (forall r, r ∈ owned s' -> r ∈ owned s) -> own s'.
Proof.
  intros (N & F & M) [rest P] Hh Hn Hi. rewrite P in N, F. apply NoDup_app in N as (N & _ & _). apply list.Forall_app in F as [F _].
  split_and!; [done|by rewrite Hn|]. intros r Hr. rewrite Hh. by apply M, Hi.
Qed.

Lemma return_all_spec batch : forall s, exists k, foldl (fun s r => _return_to_pool r s) s batch = with_pool (_metric_pool s ++ k) s /\
  exists rest, batch ≡ₚ k ++ rest.
Proof.
  induction batch as [|r batch IH]; intros s; cbn [foldl].
  { exists []. rewrite app_nil_r. split; [by destruct s|by exists []]. }
  unfold _return_to_pool at 2. destruct (zlen _ <? 100).
  - destruct (IH (with_pool (_metric_pool s ++ [r]) s)) as (k & -> & rest & P). exists (r :: k).
    split; [cbn; by rewrite <- app_assoc|]. exists rest. cbn. by rewrite P.
  - destruct (IH s) as (k & -> & rest & P). exists k. split; [done|]. exists (r :: rest). rewrite P. apply Permutation_middle.
Qed.

(** What a flush does besides Prometheus. *)
Lemma flush_spec batch s : exists k p, (_flush_batch batch s).2 = with_prometheus p (with_pool (_metric_pool s ++ k) s) /\
  exists rest, batch ≡ₚ k ++ rest.
Proof.
  unfold _flush_batch, on_prometheus. destruct (return_all_spec batch s) as (k & -> & R).
  destruct (negb available); [by exists k, (prometheus s); destruct s|].
  destruct (_update_prometheus_metrics _ _) as [r p]. by exists k, p.
Qed.

Lemma own_same s s' : own s -> _metric_pool s' = _metric_pool s -> owned s' = owned s -> heap s' = heap s ->
  next_ref s' = next_ref s -> own s'.
Proof.
  intros O P Q Hh Hn. apply (own_less s); [done|exists []; by rewrite app_nil_r, P, Q|done..|]. by intros r; rewrite Q.
Qed.

Lemma switched_owns checked switched s : own s -> own (switched_to checked switched s).
Proof.
  intros O. apply (own_less s); [done|..].
  all: unfold switched_to, _should_check_mode, _maybe_switch_mode, _init_async_mode; repeat (case_match; simplify_eq/=; try done).
  all: try (exists []; rewrite app_nil_r; reflexivity).
  all: unfold owned in *; cbn.
  - exists (owned s). rewrite !app_nil_r. reflexivity.
  - by intros r ?%not_elem_of_nil.
Qed.

(** A dictionary from the pool, or a new one, is nobody else's. *)
Lemma pooled_spec m s r s' : own s -> pooled m s = (r, s') ->
  _queue s' = _queue s /\ _worker s' = _worker s /\ NoDup (_metric_pool s' ++ owned s ++ [r]) /\
  Forall (fun r => r < next_ref s') (_metric_pool s' ++ owned s ++ [r]) /\
  heap s' !! r = Some (Some m) /\ forall r', r' ∈ owned s -> heap s' !! r' = heap s !! r'.
Proof.
  intros (N & F & _) E. unfold pooled in E. destruct (rev (_metric_pool s)) as [|r0 l] eqn:R; injection E as <- <-; cbn.
  - assert (P : _metric_pool s = []) by (rewrite <- (rev_involutive (_metric_pool s)), R; done).
    rewrite P in *. cbn in *. split_and!; [done..| | |apply lookup_insert_eq|].
    + apply NoDup_app. split_and!; [done| |apply NoDup_singleton]. intros x Hx ->%list_elem_of_singleton.
      rewrite list.Forall_forall in F. specialize (F _ Hx). lia.
    + apply list.Forall_app. split; [eapply list.Forall_impl; [exact F|]; cbn; lia|constructor; [lia|constructor]].
    + intros r' Hr'. apply lookup_insert_ne. rewrite list.Forall_forall in F. specialize (F _ Hr'). lia.
  - assert (P : _metric_pool s = rev l ++ [r0]) by (rewrite <- (rev_involutive (_metric_pool s)), R; done).
    rewrite P in *. rewrite length_app. cbn [length]. replace (length (rev l) + 1 - 1)%nat with (length (rev l)) by lia.
    rewrite take_app_length. rewrite <- app_assoc in N, F. rewrite (Permutation_app_comm [r0]) in N, F.
    split_and!; [done..|apply lookup_insert_eq|]. intros r' Hr'. apply lookup_insert_ne. intros <-.
    apply NoDup_app in N as (_ & _ & N). apply NoDup_app in N as (_ & N & _). apply (N r0 Hr'). by apply list_elem_of_singleton.
Qed.

Lemma record_async_owns m s : own s -> own (record_async m s).2.
Proof.
  intros O. unfold record_async. destruct (_queue s) as [q|] eqn:Q; [|done]. destruct (pooled m s) as [r s'] eqn:E.
  destruct (pooled_spec m s r s' O E) as (Q' & W' & N & F & Hr & Hh). pose proof O as (_ & _ & M).
  assert (Os : owned s' = owned s) by (unfold owned; by rewrite Q', W').
  assert (M' : forall r', r' ∈ owned s -> exists m, heap s' !! r' = Some (Some m)) by (intros r' H'; rewrite Hh by done; by apply M).
  destruct (full q).
  - assert (Od : forall p, own (with_pool p (with_dropped s')) <->
      NoDup (p ++ owned s) /\ Forall (fun r => r < next_ref s') (p ++ owned s) /\
      forall r', r' ∈ owned s -> exists m, heap s' !! r' = Some (Some m)) by (intros p; unfold own; by rewrite <- Os).
    unfold _return_to_pool. destruct (zlen _ <? 100); cbn [snd].
    + apply Od. change (_metric_pool (with_dropped s')) with (_metric_pool s').
      rewrite (Permutation_app_comm _ [r]), app_assoc in N, F. by split_and!.
    + apply (Od (_metric_pool s')). rewrite app_assoc in N, F. apply NoDup_app in N as (N & _ & _).
      apply list.Forall_app in F as [F _]. by split_and!.
  - assert (Oq : owned (with_queue (Some (q ++ [r])) s') = owned s ++ [r]).
    { unfold owned. cbn. rewrite W', Q. cbn. by rewrite app_assoc. }
    cbn [snd]. unfold own. rewrite Oq. split_and!; [done..|]. intros r' [Hr'|Hr']%elem_of_app; [by apply M'|].
    apply list_elem_of_singleton in Hr' as ->. by exists m.
Qed.

(** A flush whose batch is then forgotten. *)
Lemma flush_owns batch s s' : own s -> owned s = batch ++ default [] (_queue s) ->
  (_flush_batch batch s).2 = s' -> forall w, (forall b t, w = Running b t -> b = []) -> own (with_worker w s').
Proof.
  intros O E <- w Hw. destruct (flush_spec batch s) as (k & p & -> & rest & P).
  assert (Ow : owned (with_worker w (with_prometheus p (with_pool (_metric_pool s ++ k) s))) = default [] (_queue s)).
  { unfold owned. cbn. destruct w as [|b t|]; [done|by rewrite (Hw b t)|done]. }
  apply (own_less s); [done| |done..|].
  - exists rest. rewrite Ow, E. cbn. rewrite P, <- !app_assoc. f_equiv. f_equiv. apply Permutation_app_comm.
  - intros r. rewrite Ow, E. intros Hr. apply elem_of_app. by right.
Qed.

(** The worker takes one more. *)
Lemma take_owns batch r q t s : _worker s = Running batch t -> _queue s = Some (r :: q) ->
  owned (with_queue (Some q) (with_worker (Running (batch ++ [r]) t) s)) = owned s.
Proof. intros Ew Q. unfold owned. cbn. rewrite Ew, Q. cbn. by rewrite <- app_assoc. Qed.

Lemma flushed_at_owns now batch t s : own s -> _worker s = Running batch t -> own (flushed_at now batch s).
Proof.
  intros O Ew. assert (E : owned s = batch ++ default [] (_queue s)) by (unfold owned; by rewrite Ew).
  unfold flushed_at. destruct (_flush_batch batch s) as [[|] s'] eqn:F; (eapply flush_owns; [done|done|by rewrite F|]);
    [by intros b t' [= <- _]|done].
Qed.

Lemma work_owns now later s : own s -> full_flush_fails s = false -> own (_worker_loop now later s).
Proof.
  intros O Hf. unfold _worker_loop. destruct (_worker s) as [|batch t|] eqn:Ew; [done| |done].
  destruct (_queue s) as [q|] eqn:Q; [|done].
  assert (E : owned s = batch ++ default [] (_queue s)) by (unfold owned; by rewrite Ew).
  destruct (_stopped s) eqn:St.
  { destruct batch as [|r batch]; [|by eapply flush_owns].
    apply (own_less s); [done|exists []; unfold owned; cbn; by rewrite Ew, app_nil_r|done..|unfold owned; cbn; by rewrite Ew]. }
  set (s1 := match q with r :: q => _ | [] => _ end).
  assert (O1 : own s1).
  { unfold s1. destruct q as [|r q]; [destruct batch; [done|by eapply flushed_at_owns]|].
    set (s0 := with_queue _ _). assert (O0 : own s0) by (apply (own_same s); [done|done|by apply take_owns|done..]).
    destruct (batch_size cfg <=? _) eqn:B; [|done].
    unfold full_flush_fails in Hf. rewrite Ew, Q, St, B in Hf. cbn [negb andb] in Hf. fold s0 in Hf.
    destruct (_flush_batch (batch ++ [r]) s0) as [[[]|] s2] eqn:F; [|done].
    apply (flush_owns (batch ++ [r]) s0); [done|done|by rewrite F|by intros b t' [= <- _]]. }
  destruct (_worker s1) as [|[|r b] t1|] eqn:E1; try done. destruct (fgt _ _); [|done]. by eapply flushed_at_owns.
Qed.

Lemma init_owns sync_mode now p : own (init sync_mode now p).
Proof. unfold init. destruct sync_mode as [[]|], (auto_detect_mode cfg); (split_and!; [constructor|constructor|by intros r ?%not_elem_of_nil]). Qed.

(** The pool shares dictionaries safely as long as no flush of a full batch
    fails: in every run from a new collector no dictionary is at once in the pool and
    in use, or in use twice, and each one that waits or is in the batch holds a
    metric; so what the worker adds up is what was recorded. *)
Theorem dictionaries_have_one_owner sync_mode now p es :
  no_full_flush_fails es (init sync_mode now p) -> own (run es (init sync_mode now p)).
Proof.
  assert (G : forall s, own s -> no_full_flush_fails es s -> own (run es s)); [|by apply G, init_owns].
  unfold run. induction es as [|e es IH]; intros s O N; [done|]. destruct N as [Ne N]. cbn [foldl]. apply IH; [|done].
  destruct e as [checked switched m|t later|]; cbn [step].
  - rewrite record_switched. pose proof (switched_owns checked switched s O) as O1.
    destruct (_sync_mode _); [|by apply record_async_owns]. unfold on_prometheus. destruct (record_sync m _) as [r p']. by apply (own_same _ _ O1).
  - by apply work_owns.
  - unfold shutdown. destruct (negb _ && _); [by apply (own_same s)|done].
Qed.
End Collector.

(** Prometheus as a log of updates; a metric takes the labels it was made for. *)
Module Example.
Definition log : Type := list (pystr * update).
Definition handle : Type := pystr * list pystr.
Definition make (_ : kind) (name _ : pystr) (names : list pystr) : eff log handle := ret (name, names).
Definition apply_update (h : handle) (l : list (pystr * pystr)) (up : update) : eff log unit := fun w =>
  if bool_decide (map fst l = h.2) then (Ok tt, (h.1, up) :: w) else (Err (PyExn ValueError), w).
(** 0.5 *)
Definition half : float := S754_finite false 4503599627370496 (-53).
Definition cfg : settings := mkSettings 2 half 3 true.
Local Abbreviation start := (init (H := handle) (L := pystr) (W := log) cfg None (fofZ 0) ([], [])).
Local Abbreviation after := (run (H := handle) (L := pystr) (W := log) (fun s => s) true make (fun _ => false) apply_update (fun s => s) cfg).
Definition hit : metric (L := pystr) := CounterValue (u "hits") [] (fofZ 1).
Definition at_ (t : Z) : event := Record (fofZ t) (fofZ t) hit.

(** 601 operations in six seconds, the rest of a minute quiet, then busy again. *)
Definition busy : list event := replicate 600 (at_ 1) ++ [at_ 6; Work (fofZ 6) (fofZ 6); at_ 6].
Definition quiet : list event := [at_ 70; Work (fofZ 70) (fofZ 70)].
Definition busy_again : list event := replicate 7100 (at_ 71) ++ [at_ 76].

Lemma worker_is_never_replaced_witness :
  let s := after (busy ++ quiet ++ busy_again) start in
  _sync_mode s = false /\ _worker s = Gone /\ _queue s = Some [1; 0] /\
  let es := replicate 9 (at_ 77) ++ [Work (fofZ 77) (fofZ 77)] in
  _worker (after es s) = Gone /\ exists more, _queue (after es s) = Some ([1; 0] ++ more) /\
    (zlen ([1; 0] ++ more) <= Z.max 2 3) /\ prometheus (after es s) = prometheus s.
Proof.
  set (s := after (busy ++ quiet ++ busy_again) start).
  assert (E : (_sync_mode s, _worker s, _queue s) = (false, Gone, Some [1; 0])) by (vm_compute; reflexivity).
  apply pair_equal_spec in E as [[M G]%pair_equal_spec Q].
  set (es := replicate 9 (at_ 77) ++ [Work (fofZ 77) (fofZ 77)]).
  split; [exact M|]. split; [exact G|]. split; [exact Q|].
  destruct (worker_is_never_replaced (H := handle) (L := pystr) (W := log) (fun s => s) true make (fun _ => false) apply_update
    (fun s => s) cfg es s [1; 0] G Q) as (W & more & Q' & _ & B & P).
  split; [exact W|]. exists more. split; [exact Q'|]. split; [exact (B eq_refl)|]. apply P. vm_compute. reflexivity.
Defined.

Definition async_ := init (H := handle) (L := pystr) (W := log) cfg (Some false) (fofZ 0) ([], []).
Definition tagged (tag : string) : metric (L := pystr) := CounterValue (u "hits") [(u tag, u "x")] (fofZ 1).
Definition record_at (m : metric (L := pystr)) : event (L := pystr) := Record (fofZ 0) (fofZ 0) m.
Definition take_one : event (L := pystr) := Work (fofZ 0) (fofZ 0).

Lemma dictionaries_have_one_owner_witness :
  let es := [record_at hit; record_at hit; take_one; take_one; record_at hit] in
  let s := after es async_ in own s /\ (_metric_pool s, _queue s) = ([0], Some [1]).
Proof.
  split; [|vm_compute; reflexivity].
  apply (dictionaries_have_one_owner (H := handle) (L := pystr) (W := log) (fun s => s) true make (fun _ => false) apply_update
    (fun s => s) cfg (Some false) (fofZ 0) ([], [])).
  vm_compute. repeat split.
Defined.

(** Two sets of labels under one name: the flush of a full batch fails, and its
    dictionaries are in the pool and still in the batch; the flush of what waits
    fails in the handler, and ends the thread. *)
Example failed_full_flush :
  let s := after [record_at (tagged "a"); record_at (tagged "b"); take_one; take_one] async_ in
  (_metric_pool s, match _worker s with Running batch _ => batch | _ => [] end) = ([0; 1], [0; 1]).
Proof. vm_compute. reflexivity. Qed.

Example failed_flush_ends_the_thread :
  let cfg := mkSettings 5 half 3 true in
  _worker (run (H := handle) (L := pystr) (W := log) (fun s => s) true make (fun _ => false) apply_update (fun s => s) cfg
    [record_at (tagged "a"); record_at (tagged "b"); take_one; take_one; take_one] async_) = Gone.
Proof. vm_compute. reflexivity. Qed.
End Example.
