(* ===== verification/PoolMonitor.v ===== *)
(** The connection pool monitor ([src/src/cachekit/monitoring/pool_monitor.py]):
    sampled acquisitions, statistics kept for five seconds, percentiles of the last
    hundred samples.

    The pool manager, the clock, the random draws and the logger act on [W].  A method
    is one step: what two threads do to the statistics is ordered by the lock. *)
From Stdlib Require Import ZArith Lia SpecFloat.
From stdpp Require Import base list numbers option strings sorting.
From S2P Require Import Prelude PyFloat Errors Effects.

Local Open Scope Z_scope.
Local Open Scope eff_scope.

(** 0.9 and 0.75, 0.95 and 0.99 *)
Definition CRITICAL_P95_THRESHOLD : float := S754_finite false 8106479329266893 (-53).
Definition WARNING_P95_THRESHOLD : float := S754_finite false 6755399441055744 (-53).
Definition q95 : float := S754_finite false 8556839292003942 (-53).
Definition q99 : float := S754_finite false 8917127262193582 (-53).

Record PoolStats := mkStats {
  created_connections : Z;
  available_connections : Z;
  in_use_connections : Z;
  utilization : float;
  timestamp : float
}.

(** [PoolStats()] *)
Definition no_stats : PoolStats := mkStats 0 0 0 (fofZ 0) (fofZ 0).

(** What is read of a pool; a collection that is [None] or has no length counts as empty. *)
Record pool := mkPool { created : Z; available : option Z; in_use : option Z }.

(** What [_format_stats] returns: the statistics and their age. *)
Definition formatted : Type := PoolStats * float.

Section Monitor.
Context {W : Type}.
(** [None]: not initialized, or no pool. *)
Context (read_pool : eff W (option pool)).
Context (time : W -> float * W) (randint : W -> Z * W).
(** [connection_pool_utilization] of the logger, with the number of samples and the counts. *)
Context (report : float -> Z -> Z -> Z -> eff W unit).
(** The sum of floats, whose rounding depends on the version of the interpreter, and
    [round(x, 3)]. *)
Context (sum : list float -> float) (round3 : float -> float).
Context (sampling_rate : float).

Record OptimizedPoolMonitor := mkMonitor {
  _sampling_threshold : Z;
  stats : option PoolStats;
  last_update : float;
  _total_operations : Z;
  _sampled_operations : Z;
  _utilization_samples : list (float * float);
  _last_log_time : float;
  outside : W
}.

Definition with_outside (w : W) (s : OptimizedPoolMonitor) : OptimizedPoolMonitor :=
  mkMonitor (_sampling_threshold s) (stats s) (last_update s) (_total_operations s) (_sampled_operations s)
    (_utilization_samples s) (_last_log_time s) w.
Definition with_stats (st : option PoolStats) (t : float) (s : OptimizedPoolMonitor) : OptimizedPoolMonitor :=
  mkMonitor (_sampling_threshold s) st t (_total_operations s) (_sampled_operations s)
    (_utilization_samples s) (_last_log_time s) (outside s).
Definition with_counts (total sampled : Z) (s : OptimizedPoolMonitor) : OptimizedPoolMonitor :=
  mkMonitor (_sampling_threshold s) (stats s) (last_update s) total sampled
    (_utilization_samples s) (_last_log_time s) (outside s).
Definition with_samples (l : list (float * float)) (s : OptimizedPoolMonitor) : OptimizedPoolMonitor :=
  mkMonitor (_sampling_threshold s) (stats s) (last_update s) (_total_operations s) (_sampled_operations s)
    l (_last_log_time s) (outside s).
Definition with_log_time (t : float) (s : OptimizedPoolMonitor) : OptimizedPoolMonitor :=
  mkMonitor (_sampling_threshold s) (stats s) (last_update s) (_total_operations s) (_sampled_operations s)
    (_utilization_samples s) t (outside s).

Local Abbreviation monitored := (eff OptimizedPoolMonitor).

Definition on_outside {A} (m : eff W A) : monitored A := fun s =>
  let (r, w) := m (outside s) in (r, with_outside w s).
Definition now : monitored float := fun s => let (t, w) := time (outside s) in (Ok t, with_outside w s).

Definition init (w : W) : result exn OptimizedPoolMonitor :=
  match ftrunc (fmul sampling_rate (fofZ 100)) with
  | Ok threshold => Ok (mkMonitor threshold None (fofZ 0) 0 0 [] (fofZ 0) w)
  | Err e => Err (PyExn e)
  end.

Definition _should_sample : monitored bool := fun s =>
  let (n, w) := randint (outside s) in (Ok (n <? _sampling_threshold s), with_outside w s).

(** ** Statistics *)

(** [CachedPoolMetrics.is_stale]; they are kept for five seconds. *)
Definition is_stale : monitored bool :=
  t <~ now ;; u <~ gets last_update ;; ret (fgtZ (fsub t u) 5).

Definition _calculate_pool_stats : monitored PoolStats :=
  p <~ on_outside read_pool ;;
  match p with
  | None => ret no_stats
  | Some p =>
      let available := default 0 (available p) in
      let in_use := default 0 (in_use p) in
      used <~ (if 0 <? created p then lift (py (fdivZ in_use (created p))) else ret (fofZ 0)) ;;
      t <~ now ;;
      ret (mkStats (created p) available in_use used t)
  end.

Definition _format_stats (st : PoolStats) : monitored formatted :=
  t <~ now ;; ret (st, fsub t (timestamp st)).

(** The statistics kept, unless they are stale; any statistics are true. *)
Definition kept : monitored (option PoolStats) :=
  stale <~ is_stale ;; st <~ gets stats ;; ret (if stale then None else st).

Definition get_pool_stats : monitored formatted :=
  first <~ kept ;;
  match first with
  | Some st => _format_stats st
  | None =>
      second <~ kept ;;
      match second with
      | Some st => _format_stats st
      | None =>
          st <~ _calculate_pool_stats ;;
          modify (fun s => with_stats (Some st) (last_update s) s) ;;~
          t <~ now ;;
          modify (fun s => with_stats (stats s) t s) ;;~
          _format_stats st
      end
  end.

Definition force_stats_update : monitored unit := modify (fun s => with_stats (stats s) (fofZ 0) s).

(** ** Samples *)

(** [deque(maxlen=100).append] *)
Definition push (x : float * float) (l : list (float * float)) : list (float * float) :=
  let l := l ++ [x] in drop (length l - 100) l.

Definition _log_utilization_metrics : monitored unit := fun s =>
  match _utilization_samples s with
  | [] => (Ok tt, s)
  | l => on_outside (report (fdiv (sum (map snd l)) (fofZ (zlen l))) (zlen l) (_total_operations s) (_sampled_operations s)) s
  end.

Definition sample : monitored unit :=
  st <~ get_pool_stats ;;
  t <~ now ;;
  modify (fun s => with_samples (push (t, utilization st.1) (_utilization_samples s)) s) ;;~
  current_time <~ now ;;
  last <~ gets _last_log_time ;;
  if fgeZ (fsub current_time last) 60
  then _log_utilization_metrics ;;~ modify (with_log_time current_time)
  else ret tt.

Definition on_connection_acquire : monitored unit :=
  modify (fun s => with_counts (_total_operations s + 1) (_sampled_operations s) s) ;;~
  sampled <~ _should_sample ;;
  if sampled then
    modify (fun s => with_counts (_total_operations s) (_sampled_operations s + 1) s) ;;~
    trying sample (fun _ => ret tt)
  else ret tt.

Definition on_connection_release : monitored unit := sampled <~ _should_sample ;; ret tt.

(** The counts and the rate they make. *)
Definition get_monitoring_overhead (s : OptimizedPoolMonitor) : result exn (Z * Z * float) :=
  match (if 0 <? _total_operations s then fdivZ (_sampled_operations s) (_total_operations s) else Ok (fofZ 0)) with
  | Ok rate => Ok (_total_operations s, _sampled_operations s, rate)
  | Err e => Err (PyExn e)
  end.

(** ** Health *)

Inductive status := Unknown | Healthy | Warning | Critical.

Record health := mkHealth { h_status : status; h_samples : Z; p50 : float; p95 : float; p99 : float }.

(** What [list.sort] asks for: the second is not below the first. *)
Definition sort_le (x y : float) : Prop := flt y x = false.
#[export] Instance sort_le_dec x y : Decision (sort_le x y).
Proof. unfold sort_le. apply _. Defined.

(** [int(n * q)] and the element there *)
Definition index (n : Z) (q : float) : result exn Z := py (ftrunc (fmul (fofZ n) q)).
Definition element (l : list float) (i : Z) : result exn float :=
  match l !! Z.to_nat i with Some x => Ok x | None => Err IndexError end.

Definition status_of (p95 : float) : status :=
  if fgt p95 CRITICAL_P95_THRESHOLD then Critical else if fgt p95 WARNING_P95_THRESHOLD then Warning else Healthy.

(** [None] where there are no samples: the status is unknown. *)
Definition get_health_metrics (s : OptimizedPoolMonitor) : result exn (option health) :=
  match _utilization_samples s with
  | [] => Ok None
  | recent =>
      let l := merge_sort sort_le (map snd recent) in
      let n := zlen l in
      rbind (element l (n / 2)) (fun m50 =>
      rbind (index n q95) (fun i95 => rbind (element l i95) (fun m95 =>
      rbind (index n q99) (fun i99 => rbind (element l i99) (fun m99 =>
      Ok (Some (mkHealth (status_of m95) n (round3 m50) (round3 m95) (round3 m99))))))))
  end.
End Monitor.
Arguments OptimizedPoolMonitor : clear implicits.

(** ** Quotients are numbers *)

Lemma shr_1_nonneg mrs : 0 <= shr_m mrs -> 0 <= shr_m (shr_1 mrs).
Proof. destruct mrs as [[|[p|p|]|p] r s]; cbn; lia. Qed.

Lemma shr_nonneg mrs e n : 0 <= shr_m mrs -> 0 <= shr_m (shr mrs e n).1.
Proof.
  intros H. destruct n as [|p|p]; [done| |done]. cbn.
  revert mrs H. induction p as [p IH|p IH|]; intros mrs H; cbn; [by apply IH, IH, shr_1_nonneg|by apply IH, IH|by apply shr_1_nonneg].
Qed.

Lemma round_nonneg m l : 0 <= m -> 0 <= round_nearest_even m l.
Proof. unfold round_nearest_even. destruct l as [|[]]; try lia. destruct (Z.even m); lia. Qed.

Lemma shr_fexp_nonneg m e l : 0 <= m -> 0 <= shr_m (shr_fexp 53 1024 m e l).1.
Proof. intros H. apply shr_nonneg. by destruct l as [|[]]. Qed.

Lemma rounded_not_nan s m e l : 0 <= m -> isnan (binary_round_aux 53 1024 s m e l) = false.
Proof.
  intros H. unfold binary_round_aux. pose proof (shr_fexp_nonneg m e l H) as H1. destruct (shr_fexp 53 1024 m e l) as [r1 e1].
  pose proof (shr_fexp_nonneg _ e1 loc_Exact (round_nonneg _ (loc_of_shr_record r1) H1)) as H2.
  destruct (shr_fexp 53 1024 _ e1 loc_Exact) as [r2 e2]. cbn in H2. destruct (shr_m r2); [done|by case_match|lia].
Qed.

Lemma div_core_nonneg m1 m2 : 0 <= m1 -> 0 < m2 -> 0 <= (SFdiv_core_binary 53 1024 m1 0 m2 0).1.1.
Proof.
  intros H1 H2. unfold SFdiv_core_binary. cbv zeta. set (k := 0 - 0 - _).
  assert (H : 0 <= match k with Z0 => m1 | Zpos _ => Z.shiftl m1 k | Zneg _ => 0 end) by (destruct k; [done|by apply Z.shiftl_nonneg|done]).
  pose proof (Z.div_pos _ m2 H H2) as D. unfold Z.div in D. by destruct (Z.div_eucl _ m2) as [q r].
Qed.

Lemma fdivZ_not_nan a b q : fdivZ a b = Ok q -> isnan q = false.
Proof.
  unfold fdivZ. destruct b as [|b|b]; [by destruct a|..]; (destruct a as [|a|a]; [by intros [= <-]|..]).
  all: match goal with |- context [SFdiv_core_binary 53 1024 ?x 0 ?y 0] => pose proof (div_core_nonneg x y ltac:(lia) ltac:(lia)) as H end.
  all: destruct (SFdiv_core_binary 53 1024 _ 0 _ 0) as [[m e] l]; case_match; [done|]; intros [= <-]; by apply rounded_not_nan.
Qed.

(** ** Percentiles *)

#[export] Instance sort_le_total : Total sort_le.
Proof. intros x y. unfold sort_le, flt. rewrite (SFcompare_antisym y x). destruct (SFcompare y x) as [[]|]; auto. Qed.

Definition number (x : float) : Prop := isnan x = false.

Lemma sorted_numbers l : Forall number l -> StronglySorted (fun x y => fle x y = true) (merge_sort sort_le l).
Proof.
  intros H. assert (T : Transitive (fun x y => fle x y = true)) by (intros x y z; apply fle_trans). apply Sorted_StronglySorted; [done|].
  assert (N : Forall number (merge_sort sort_le l)) by (by rewrite merge_sort_Permutation).
  pose proof (Sorted_merge_sort sort_le l) as S. induction S as [|x s S IH Hd]; [constructor|].
  inversion N as [|?? Nx Ns]; subst. constructor; [by apply IH|]. destruct Hd as [|y s Hxy]; constructor.
  inversion Ns as [|?? Ny _]; subst. unfold sort_le in Hxy. rewrite flt_negb_fle in Hxy by done. by apply negb_false_iff in Hxy.
Qed.

(** How many samples are above [t]. *)
Definition above (t : float) (l : list float) : Z := zlen (filter (fun x => flt t x = true) l).

Lemma above_perm t l l' : l ≡ₚ l' -> above t l = above t l'.
Proof. intros P. unfold above, zlen. by rewrite P. Qed.

Lemma above_app t l l' : above t (l ++ l') = above t l + above t l'.
Proof. unfold above. by rewrite filter_app, zlen_app. Qed.

Lemma above_all t l : Forall (fun x => flt t x = true) l -> above t l = zlen l.
Proof. intros H. unfold above. induction H as [|x l Hx _ IH]; [done|]. rewrite filter_cons_True by done. by rewrite !zlen_cons, IH. Qed.

Lemma above_none t l : Forall (fun x => flt t x = false) l -> above t l = 0.
Proof. intros H. unfold above. induction H as [|x l Hx _ IH]; [done|]. rewrite filter_cons_False by (by rewrite Hx). done. Qed.

Lemma above_le t l : 0 <= above t l <= zlen l.
Proof. unfold above, zlen. pose proof (length_filter (fun x => flt t x = true) l). lia. Qed.

Lemma flt_fle_trans t x y : isnan t = false -> flt t x = true -> fle x y = true -> flt t y = true.
Proof.
  intros Nt H1 H2. destruct (fle_not_nan _ _ H2) as [Nx Ny]. rewrite flt_negb_fle in * by done.
  apply negb_true_iff in H1. apply negb_true_iff. destruct (fle y t) eqn:E; [|done]. by rewrite (fle_trans _ _ _ H2 E) in H1.
Qed.

(** The element at [i] of the sorted samples is above [t] exactly when all but [i] of
    them, at least, are. *)
Lemma percentile l i x t : Forall number l -> isnan t = false -> merge_sort sort_le l !! i = Some x ->
  flt t x = true <-> zlen l - Z.of_nat i <= above t l.
Proof.
  intros N Nt E. set (s := merge_sort sort_le l) in *. assert (P : s ≡ₚ l) by apply merge_sort_Permutation.
  rewrite <- (above_perm t s l P), <- P. pose proof (sorted_numbers l N) as S. fold s in S.
  pose proof (take_drop_middle s i x E) as M. rewrite <- M in S |- *. apply StronglySorted_app in S as (B & _ & S2).
  apply StronglySorted_inv in S2 as [_ A]. rewrite above_app, zlen_app, zlen_cons.
  assert (L : zlen (take i s) = Z.of_nat i).
  { unfold zlen. rewrite length_take. apply lookup_lt_Some in E. lia. }
  pose proof (above_le t (take i s)). split.
  - intros H0. rewrite (above_all t (x :: _)); [rewrite zlen_cons; lia|]. constructor; [done|].
    eapply list.Forall_impl; [exact A|]. intros y Hy. by apply (flt_fle_trans t x y).
  - intros H0. destruct (flt t x) eqn:F; [done|]. rewrite above_none in H0.
    + change (x :: drop (S i) s) with ([x] ++ drop (S i) s) in H0. rewrite above_app, above_none in H0 by (by constructor).
      pose proof (above_le t (drop (S i) s)). lia.
    + apply list.Forall_forall. intros y Hy. specialize (B y x Hy ltac:(by left)). destruct (flt t y) eqn:G; [|done].
      by rewrite (flt_fle_trans t y x) in F.
Qed.

(** The float product is exact enough: the index is the one meant. *)
Lemma indices_exact n : 1 <= n <= 100 -> index n q95 = Ok (95 * n / 100) /\ index n q99 = Ok (99 * n / 100).
Proof.
  intros H. set (eqs := fun (r : result exn Z) z => match r with Ok y => y =? z | Err _ => false end).
  assert (C : forallb (fun n => eqs (index n q95) (95 * n / 100) && eqs (index n q99) (99 * n / 100))
    (map (fun k => Z.of_nat k + 1) (seq 0 100)) = true) by (vm_compute; reflexivity).
  rewrite forallb_forall in C. specialize (C n). apply andb_true_iff in C as [C1 C2].
  - unfold eqs in C1, C2. destruct (index n q95), (index n q99); try done. zbool. by subst.
  - apply in_map_iff. exists (Z.to_nat (n - 1)). split; [lia|]. apply in_seq. lia.
Qed.

(** ** Runs *)

Section Runs.
Context {W : Type} (read_pool : eff W (option pool)) (time : W -> float * W) (randint : W -> Z * W)
  (report : float -> Z -> Z -> Z -> eff W unit) (sum : list float -> float) (round3 : float -> float).
Local Abbreviation monitor := (OptimizedPoolMonitor W).
Local Abbreviation get_pool_stats := (get_pool_stats read_pool time).
Local Abbreviation on_connection_acquire := (on_connection_acquire read_pool time randint report sum).

Inductive event := Acquire | Release | Force | Ask.

Definition step (e : event) (s : monitor) : monitor :=
  match e with
  | Acquire => (on_connection_acquire s).2
  | Release => (on_connection_release randint s).2
  | Force => (force_stats_update s).2
  | Ask => (get_pool_stats s).2
  end.

Definition run (es : list event) (s : monitor) : monitor := foldl (fun s e => step e s) s es.

Definition invariant (s : monitor) : Prop :=
  0 <= _sampled_operations s <= _total_operations s /\
  zlen (_utilization_samples s) <= Z.min 100 (_sampled_operations s) /\
  Forall (fun x => number x.2) (_utilization_samples s) /\
  match stats s with Some st => number (utilization st) | None => True end.

(** What asking for statistics leaves alone. *)
Definition same_counts (s s' : monitor) : Prop :=
  _total_operations s' = _total_operations s /\ _sampled_operations s' = _sampled_operations s /\
  _utilization_samples s' = _utilization_samples s.

Definition kept_number (s : monitor) : Prop := match stats s with Some st => number (utilization st) | None => True end.

Lemma calculate_number s st s' : _calculate_pool_stats read_pool time s = (Ok st, s') ->
  number (utilization st).
Proof.
  intros E. apply andthen_ok in E as ([p|] & s1 & _ & E); [|by injection E as <- _].
  apply andthen_ok in E as (q & s2 & D & E). apply andthen_ok in E as (t & s3 & _ & E). injection E as <- _. cbn.
  destruct (0 <? created p); [|by injection D as <- _]. apply lift_ok in D as [D _].
  destruct (fdivZ _ _) as [q'|] eqn:Q; [|done]. cbn in D. injection D as <-. by eapply fdivZ_not_nan.
Qed.

Lemma outside_only {A} (m : eff W A) (s : monitor) : same_counts s (on_outside m s).2 /\ stats (on_outside m s).2 = stats s.
Proof. unfold on_outside. by destruct (m (outside s)). Qed.

Lemma now_only (s : monitor) : exists t w, now time s = (Ok t, with_outside w s).
Proof. unfold now. destruct (time (outside s)) as [t w]. by exists t, w. Qed.

Lemma calculate_only s : same_counts s (_calculate_pool_stats read_pool time s).2 /\
  stats (_calculate_pool_stats read_pool time s).2 = stats s.
Proof.
  unfold _calculate_pool_stats, andthen. pose proof (outside_only read_pool s) as [C S].
  destruct (on_outside read_pool s) as [[[p|]|x] s1]; [|done..]. cbn in C, S.
  destruct (0 <? created p); unfold ret, lift; [destruct (py (fdivZ _ _)); [|done]|];
    destruct (now_only s1) as (t & w & ->); cbn; (split; [exact C|exact S]).
Qed.

Lemma kept_spec s : kept_number s -> exists r w, kept time s = (Ok r, with_outside w s) /\
  (r = None \/ (r = stats s /\ exists st, r = Some st /\ number (utilization st))).
Proof.
  intros K. unfold kept, is_stale, andthen, gets, ret. destruct (now_only s) as (t & w & ->). cbn.
  destruct (fgtZ _ 5); [by exists None, w; auto|]. exists (stats s), w. split; [done|].
  unfold kept_number in K. destruct (stats s) as [st|]; [|by left]. right. eauto.
Qed.

Lemma format_spec st (s : monitor) : exists a w, _format_stats time st s = (Ok (st, a), with_outside w s).
Proof. unfold _format_stats, andthen, ret. destruct (now_only s) as (t & w & ->). by eexists _, w. Qed.

(** The statistics are kept or new, and numbers. *)
Lemma stats_spec s : kept_number s -> let (r, s') := get_pool_stats s in same_counts s s' /\ kept_number s' /\
  match r with Ok f => number (utilization f.1) | Err _ => True end.
Proof.
  intros K. unfold PoolMonitor.get_pool_stats, andthen at 1. destruct (kept_spec s K) as (r1 & w1 & -> & [->|(E & st & -> & N)]).
  2: { destruct (format_spec st (with_outside w1 s)) as (a & w & ->). split; [done|]. split; [|done]. unfold kept_number in *. cbn. by rewrite <- E. }
  unfold andthen at 1. destruct (kept_spec (with_outside w1 s) K) as (r2 & w2 & -> & [->|(E & st & -> & N)]).
  2: { destruct (format_spec st (with_outside w2 (with_outside w1 s))) as (a & w & ->). split; [done|]. split; [|done].
       unfold kept_number in *. cbn in *. by rewrite <- E. }
  unfold andthen at 1. set (s2 := with_outside w2 (with_outside w1 s)). pose proof (calculate_only s2) as [C S].
  pose proof (calculate_number s2) as N. destruct (_calculate_pool_stats read_pool time s2) as [[st|x] s3].
  2: { split; [exact C|]. split; [|done]. unfold kept_number in *. cbn in S. by rewrite S. }
  specialize (N st s3 eq_refl). unfold andthen at 1, modify at 1. unfold andthen at 1.
  destruct (now_only (with_stats (Some st) (last_update s3) s3)) as (t & w & ->). unfold andthen at 1, modify at 1.
  destruct (format_spec st (with_stats (stats (with_outside w (with_stats (Some st) (last_update s3) s3))) t
    (with_outside w (with_stats (Some st) (last_update s3) s3)))) as (a & w' & ->).
  split; [exact C|]. by split.
Qed.

Lemma push_bound x l : zlen l <= 100 -> zlen (push x l) <= Z.min 100 (zlen l + 1) /\
  (Forall (fun y : float * float => number y.2) l -> number x.2 -> Forall (fun y => number y.2) (push x l)).
Proof.
  intros H. unfold push, zlen in *. rewrite length_drop, !length_app. cbn [length]. split; [lia|].
  intros F N. apply Forall_drop, list.Forall_app. by split; [|constructor].
Qed.

(** At most one sample more. *)
Definition sampled_from (s s' : monitor) : Prop :=
  _total_operations s' = _total_operations s /\ _sampled_operations s' = _sampled_operations s /\ kept_number s' /\
  zlen (_utilization_samples s') <= Z.min 100 (zlen (_utilization_samples s) + 1) /\ Forall (fun x => number x.2) (_utilization_samples s').

(** A sampled acquisition adds one sample at most, whatever raises on the way. *)
Lemma sample_spec s : kept_number s -> zlen (_utilization_samples s) <= 100 -> Forall (fun x => number x.2) (_utilization_samples s) ->
  sampled_from s (sample read_pool time report sum s).2.
Proof.
  intros K L F. unfold sample, andthen at 1. pose proof (stats_spec s K) as G. destruct (get_pool_stats s) as [[f|x] s1].
  2: { destruct G as ((T1 & S1 & U1) & K1 & _). unfold sampled_from. cbn. rewrite T1, S1, U1. split_and!; (done || lia). }
  destruct G as ((T1 & S1 & U1) & K1 & N). unfold andthen at 1. destruct (now_only s1) as (t & w & ->).
  unfold andthen at 1, modify at 1. set (s2 := with_samples _ _).
  assert (B : kept_number s2 /\ _total_operations s2 = _total_operations s /\ _sampled_operations s2 = _sampled_operations s /\
    _utilization_samples s2 = push (t, utilization f.1) (_utilization_samples s)) by (unfold s2; cbn; by rewrite T1, S1, U1).
  clearbody s2. destruct B as (K2 & T2 & S2 & U2). destruct (push_bound (t, utilization f.1) _ L) as [P1 P2].
  assert (Done : forall s', _total_operations s' = _total_operations s2 -> _sampled_operations s' = _sampled_operations s2 ->
    _utilization_samples s' = _utilization_samples s2 -> stats s' = stats s2 ->
    sampled_from s s').
  { unfold sampled_from, kept_number. intros s' -> -> -> ->. rewrite T2, S2, U2. split_and!; [done..|by apply P2]. }
  clear P1 P2. unfold andthen at 1. destruct (now_only s2) as (t2 & w2 & ->). unfold andthen at 1, gets at 1.
  destruct (fgeZ _ 60); [|by apply Done]. unfold andthen, _log_utilization_metrics.
  destruct (_utilization_samples (with_outside w2 s2)) as [|y l]; [by apply Done|].
  destruct (outside_only (report (fdiv (sum (map snd (y :: l))) (fofZ (zlen (y :: l)))) (zlen (y :: l))
    (_total_operations (with_outside w2 s2)) (_sampled_operations (with_outside w2 s2))) (with_outside w2 s2)) as [(C1 & C2 & C3) C4].
  destruct (on_outside _ _) as [[[]|x] s3]; cbn in *; by apply Done.
Qed.

(** Monitoring never disturbs the connection it watches. *)
Lemma acquire_never_raises : never_raises on_connection_acquire.
Proof.
  intros s x s' E. unfold PoolMonitor.on_connection_acquire, andthen at 1, modify at 1, andthen at 1, _should_sample in E.
  destruct (randint _) as [n w]. destruct (n <? _); [|done]. unfold andthen at 1, modify at 1, trying in E.
  by destruct (sample _ _ _ _ _) as [[]].
Qed.

Lemma monitor_step_invariant e s : invariant s -> invariant (step e s).
Proof.
  intros (T & U & F & K). destruct e; cbn [step].
  - unfold PoolMonitor.on_connection_acquire, andthen at 1, modify at 1, andthen at 1, _should_sample.
    destruct (randint _) as [n w]. destruct (n <? _); [|split_and!; cbn; (done || lia)].
    unfold andthen at 1, modify at 1, trying. set (s1 := with_counts _ _ (with_outside _ _)).
    destruct (sample_spec s1 K ltac:(cbn; lia) F) as (T1 & S1 & K1 & U1 & F1).
    assert (I1 : invariant (sample read_pool time report sum s1).2).
    { unfold invariant. rewrite T1, S1. split_and!; try done; cbn in *; lia. }
    by destruct (sample _ _ _ _ _) as [[]].
  - unfold on_connection_release, andthen, _should_sample. destruct (randint _) as [n w]. split_and!; cbn; (done || lia).
  - split_and!; cbn; (done || lia).
  - pose proof (stats_spec s K) as G. destruct (get_pool_stats s) as [r s']. destruct G as ((T' & S' & U') & K' & _). unfold invariant. cbn. rewrite T', S', U'. split_and!; (done || lia).
Qed.

(** The health of the pool says what the samples say: whatever the pool manager,
    the clock and the logger do or raise, after any sequence of calls the metrics can
    be computed; at most a hundred samples are used, none without a sampled operation,
    and the status is critical exactly when the samples above 0.9 are at least those
    beyond the 95th percentile, a warning when that holds only for 0.75. *)
Theorem pool_health_means sampling_rate w s0 es : init (W := W) sampling_rate w = Ok s0 ->
  let s := run es s0 in
  0 <= _sampled_operations s <= _total_operations s /\
  zlen (_utilization_samples s) <= Z.min 100 (_sampled_operations s) /\
  exists h, get_health_metrics round3 s = Ok h /\
  match h with
  | None => _utilization_samples s = []
  | Some h =>
      let n := zlen (_utilization_samples s) in let us := map snd (_utilization_samples s) in
      h_samples h = n /\ 0 < n /\
      (h_status h = Critical <-> n - 95 * n / 100 <= above CRITICAL_P95_THRESHOLD us) /\
      (h_status h = Healthy <-> above WARNING_P95_THRESHOLD us < n - 95 * n / 100)
  end.
Proof.
  intros E s. assert (I : invariant s).
  { unfold init in E. destruct (ftrunc _) as [z|]; [|done]. apply Ok_inj in E.
    assert (I0 : invariant s0) by (subst s0; split_and!; try done; constructor).
    subst s. clear E. revert s0 I0. induction es as [|e es IH]; intros s0 I0; [exact I0|]. by apply IH, monitor_step_invariant. }
  destruct I as (T & U & F & _). split; [done|]. split; [done|]. clearbody s. unfold get_health_metrics.
  destruct (_utilization_samples s) as [|x l] eqn:EU; [by exists None|]. set (us := map snd (x :: l)).
  set (so := merge_sort sort_le us). assert (P : so ≡ₚ us) by apply merge_sort_Permutation.
  assert (Ln : zlen so = zlen (x :: l)) by (rewrite P; unfold us, zlen; by rewrite length_map).
  set (n := zlen (x :: l)) in *. assert (Hn : 1 <= n <= 100) by (unfold n in *; rewrite zlen_cons in *; pose proof (zlen_nonneg l); lia).
  cbv zeta. rewrite Ln. destruct (indices_exact n Hn) as [-> ->]. cbn [rbind].
  assert (At : forall i, 0 <= i < n -> exists y, so !! Z.to_nat i = Some y).
  { intros i Hi. apply lookup_lt_is_Some. unfold zlen in Ln. lia. }
  destruct (At (n / 2)) as [m50 E50]; [split; [apply Z.div_pos; lia|apply Z.div_lt_upper_bound; lia]|].
  assert (H95 : 0 <= 95 * n / 100 < n) by (split; [apply Z.div_pos; lia|apply Z.div_lt_upper_bound; lia]).
  destruct (At (95 * n / 100) H95) as [m95 E95].
  destruct (At (99 * n / 100)) as [m99 E99]; [split; [apply Z.div_pos; lia|apply Z.div_lt_upper_bound; lia]|].
  unfold element. rewrite E50, E95, E99. cbn [rbind]. eexists. split; [done|]. cbn [h_samples h_status].
  assert (Nu : Forall number us) by (apply Forall_map; exact F).
  assert (Lu : zlen us = n) by (unfold us, zlen; by rewrite length_map).
  pose proof (percentile us _ m95 CRITICAL_P95_THRESHOLD Nu eq_refl E95) as C. pose proof (percentile us _ m95 WARNING_P95_THRESHOLD Nu eq_refl E95) as Wn.
  rewrite Lu, Z2Nat.id in C, Wn by lia. change (map snd (x :: l)) with us. split_and!; [done|lia|..]; unfold status_of, fgt.
  - rewrite <- C. destruct (flt CRITICAL_P95_THRESHOLD m95), (flt WARNING_P95_THRESHOLD m95); by split.
  - assert (Mono : flt CRITICAL_P95_THRESHOLD m95 = true -> flt WARNING_P95_THRESHOLD m95 = true).
    { intros H. apply (flt_fle_trans _ CRITICAL_P95_THRESHOLD); [done|reflexivity|by apply flt_fle]. }
    destruct (flt WARNING_P95_THRESHOLD m95).
    + destruct Wn as [Wn _]. specialize (Wn eq_refl). destruct (flt CRITICAL_P95_THRESHOLD m95); split; (done || lia).
    + destruct (flt CRITICAL_P95_THRESHOLD m95); [by specialize (Mono eq_refl)|]. split; [intros _|done].
      apply Z.nle_gt. intros H. by apply Wn in H.
Qed.
End Runs.

(** ** Freshness *)

(** Within five seconds of the last calculation the pool is left alone. *)
Lemma fresh_stats_are_kept {W} read_pool (time : W -> float * W) st (s : OptimizedPoolMonitor W) : stats s = Some st ->
  fgtZ (fsub (time (outside s)).1 (last_update s)) 5 = false ->
  let (t, w) := time (time (outside s)).2 in
  get_pool_stats read_pool time s = (Ok (st, fsub t (timestamp st)), with_outside w s).
Proof.
  intros S F. unfold get_pool_stats, kept, is_stale, _format_stats, andthen, now, gets, ret, with_outside in *.
  destruct (time (outside s)) as [t1 w1]. cbn in *. rewrite F, S. cbn. by destruct (time w1).
Qed.

(** A pool of a hundred connections, most in use, and a clock that ticks. *)
Module Example.
Definition read_pool (used : Z) : eff Z (option pool) := ret (Some (mkPool 100 None (Some used))).
Definition time (w : Z) : float * Z := (fofZ w, w + 1).
Definition randint (w : Z) : Z * Z := (0, w).
Definition report (_ : float) (_ _ _ : Z) : eff Z unit := throw OtherError.
Definition sum (l : list float) : float := foldl fadd (fofZ 0) l.
Definition start (rate : float) : result exn (OptimizedPoolMonitor Z) := init rate 1000.
Definition after (used : Z) (es : list event) (s : OptimizedPoolMonitor Z) : OptimizedPoolMonitor Z :=
  run (read_pool used) time randint report sum es s.

Definition started : OptimizedPoolMonitor Z := mkMonitor 100 None (fofZ 0) 0 0 [] (fofZ 0) 1000.
Definition calls : list event := [Acquire; Ask; Acquire; Force; Acquire; Release].

Lemma pool_health_means_witness : start (fofZ 1) = Ok started /\
  let s := after 95 calls started in
  (_total_operations s = 3 /\ _sampled_operations s = 3) /\
  exists h, get_health_metrics (fun x => x) s = Ok h /\
  match h with Some h => h_samples h = zlen (_utilization_samples s) /\ h_status h = Critical | None => False end.
Proof.
  assert (E0 : start (fofZ 1) = Ok started) by (vm_compute; reflexivity). split; [exact E0|]. cbv zeta.
  set (s := after 95 calls started). assert (C : (_total_operations s, _sampled_operations s, above CRITICAL_P95_THRESHOLD (map snd (_utilization_samples s)),
    zlen (_utilization_samples s)) = (3, 3, 3, 3)) by (vm_compute; reflexivity).
  apply pair_equal_spec in C as [[[C1 C2]%pair_equal_spec C3]%pair_equal_spec C4]. split; [split; [exact C1|exact C2]|].
  destruct (pool_health_means (read_pool 95) time randint report sum (fun x => x) (fofZ 1) 1000 started calls E0)
    as (_ & _ & h & E & H).
  exists h. split; [exact E|]. change (run (read_pool 95) time randint report sum calls started) with s in H. clearbody s. destruct h as [h|].
  - destruct H as (H1 & _ & H2 & _). split; [exact H1|]. apply H2. rewrite C3, C4. vm_compute. discriminate.
  - rewrite H in C4. change (zlen []) with 0 in C4. lia.
Defined.

(** The threshold is truncated: 0.29 samples 28 in a hundred, 0.005 nothing. *)
Definition r029 : float := S754_finite false 5224175567749775 (-54).
Definition r0005 : float := S754_finite false 5764607523034235 (-60).
Example thresholds_are_truncated :
  (rbind (start r029) (fun s => Ok (_sampling_threshold s)), rbind (start r0005) (fun s => Ok (_sampling_threshold s))) = (Ok 28, Ok 0).
Proof. vm_compute. reflexivity. Qed.
End Example.
