(* ===== verification/HandlerProps.v ===== *)
(** What the read and write paths guarantee ([Handler.v]): which exceptions reach
    the cached function, what becomes of a poisoned entry, and that what was stored
    is served, for the handler of [Serialization.v] over any key-value backend. *)
From Stdlib Require Import ZArith Lia SpecFloat.
From stdpp Require Import base list numbers option strings.
From S2P Require Import Prelude FileSystem FileBackend.
From S2P Require Import PyFloat PyDict Bytes PyValue Errors Effects Json Envelope Serializers Tenant Encryption EncryptionProps Serialization SerializationProps Handler.

Local Open Scope Z_scope.
Local Open Scope eff_scope.

Section Paths.
Context {W V Hd P A : Type}.

Local Abbreviation operation := (CacheOperationHandler W V Hd P A).
Local Abbreviation standard := (StandardCacheHandler W Hd P).

(** ** Exceptions *)

(** What a read may raise. *)
Definition read_escape (o : operation) (x : exn) : Prop :=
  x = KeyringConfigurationError \/
  x = AuthenticationErr /\ encryption_fail_closed (serialization_handler o) = true.

Lemma degrading_never {B} (d : B) (m : eff W B) : never_raises (degrading d m).
Proof. apply raises_only_trying. intros x. apply raises_only_ret. Qed.

Lemma notify_never (o : operation) k key : never_raises (_notify_deserialize_error o k key).
Proof. unfold _notify_deserialize_error. destruct (on_deserialize_error o); [apply degrading_never|]. by intros w x w'. Qed.

Lemma policy_raises k fc x : handle_decrypt_failure k fc = Err x -> x = AuthenticationErr /\ fc = true.
Proof.
  unfold handle_decrypt_failure. destruct (fc && _) eqn:E; [|done]. intros [= <-].
  apply andb_true_iff in E as [-> E]. by apply bool_decide_eq_true in E as ->.
Qed.

Lemma read_errors_raise {B} (o : operation) key x : raises_only (read_escape o) (@read_errors W V Hd P A B o key x).
Proof.
  unfold read_errors. destruct x; try apply raises_only_ret; [|apply raises_only_throw; by left].
  apply raises_only_andthen; [|intros; apply raises_only_ret]. unfold _handle_l2_read_error.
  apply raises_only_andthen.
  - apply raises_only_lift. intros x E. right. by eapply policy_raises.
  - intros _. apply raises_only_andthen; [|intros _].
    + eapply raises_only_weaken; [apply degrading_never|done].
    + eapply raises_only_weaken; [apply notify_never|done].
Qed.

Lemma reads_raise (o : operation) key ttl :
  raises_only (read_escape o) (get_cached_value o key ttl) /\
  raises_only (read_escape o) (get_cached_value_async o key ttl) /\
  raises_only (read_escape o) (get_cached_value_with_freshness o key) /\
  raises_only (read_escape o) (get_cached_value_with_freshness_async o key).
Proof. split_and!; apply raises_only_trying; intros x; apply read_errors_raise. Qed.

Lemma stores_raise (o : operation) key ttl v call stale :
  raises_only (fun x => x = InteropError) (store_result o key v ttl call stale) /\
  raises_only (fun x => x = InteropError) (store_result_async o key v ttl call).
Proof.
  split; apply raises_only_trying; intros x; (destruct x; try apply raises_only_ret; by apply raises_only_throw).
Qed.

(** Whatever the backend and the stored bytes do, a read in any of its four
    forms raises nothing but a keyring configuration error and, under the
    fail-closed policy, an authentication failure, and a write nothing but a
    rejection of the interop data model: every other failure is a miss or an
    uncached value. *)
Theorem paths_raise_only (o : operation) key ttl v call stale :
  raises_only (read_escape o) (get_cached_value o key ttl) /\
  raises_only (read_escape o) (get_cached_value_async o key ttl) /\
  raises_only (read_escape o) (get_cached_value_with_freshness o key) /\
  raises_only (read_escape o) (get_cached_value_with_freshness_async o key) /\
  raises_only (fun x => x = InteropError) (store_result o key v ttl call stale) /\
  raises_only (fun x => x = InteropError) (store_result_async o key v ttl call).
Proof.
  destruct (reads_raise o key ttl) as (R1 & R2 & R3 & R4). destruct (stores_raise o key ttl v call stale) as [S1 S2].
  by split_and!.
Qed.

(** ** Invariants *)

(** An invariant that the parts of an operation handler keep is kept by it. *)
Section Keeps.
Context (I : W -> Prop).

Record context_keeps (c : async_context W) : Prop := mkContextKeeps {
  enter_keeps : keeps I (aenter c);
  exit_keeps : forall got x, keeps I (aexit c got x)
}.

Record backend_keeps (b : backend W Hd P) : Prop := mkBackendKeeps {
  get_keeps : forall k, keeps I (b_get b k);
  set_keeps : forall k v t, keeps I (b_set b k v t);
  delete_keeps : forall k, keeps I (b_delete b k);
  get_buffer_keeps : forall f k, b_get_buffer b = Some f -> keeps I (f k);
  close_keeps : forall h, keeps I (b_close b h);
  set_streaming_keeps : forall f k p t, b_set_streaming b = Some f -> keeps I (f k p t);
  swr_keeps : forall g st, b_swr b = Some (g, st) -> (forall k, keeps I (g k)) /\ forall k v t u, keeps I (st k v t u);
  ttl_keeps : forall g r, b_ttl b = Some (g, r) -> (forall k, keeps I (g k)) /\ forall k t, keeps I (r k t);
  lock_keeps : forall f waits k, b_lock b = Some f -> context_keeps (f waits k)
}.

Record serialization_keeps (h : serialization W V P A) : Prop := mkSerializationKeeps {
  serialize_keeps : forall v c k, keeps I (serialize_data h v c k);
  deserialize_keeps : forall d k, keeps I (deserialize_data h d k)
}.

Record operation_keeps (o : operation) : Prop := mkOperationKeeps {
  handler_keeps : forall h, _cache_handler o = Some h -> backend_keeps (h_backend h);
  serializer_keeps : serialization_keeps (serialization_handler o);
  hook_keeps : forall f k key, on_deserialize_error o = Some f -> keeps I (f k key)
}.

Lemma permit_keeps {B} (h : standard) (m : eff W B) : keeps I m -> keeps I (_with_backpressure_and_timeout h m).
Proof. intros H w Hw. unfold _with_backpressure_and_timeout. destruct (permit h w); [done|by apply H]. Qed.

Lemma degrading_keeps {B} (d : B) (m : eff W B) : keeps I m -> keeps I (degrading d m).
Proof. intros H. apply keeps_trying; [done|intros; apply keeps_ret]. Qed.
Context (o : operation) (Ho : operation_keeps o).

Lemma handler_get_keeps h k t : backend_keeps (h_backend h) -> keeps I (get h k t).
Proof. intros H. apply degrading_keeps, permit_keeps, H. Qed.

Lemma handler_get_buffer_keeps h k : backend_keeps (h_backend h) -> keeps I (get_buffer h k).
Proof.
  intros H. unfold get_buffer. destruct (b_get_buffer (h_backend h)) eqn:E; [|apply keeps_ret].
  apply degrading_keeps, permit_keeps. by eapply get_buffer_keeps.
Qed.

Lemma handler_set_keeps h k v t st : backend_keeps (h_backend h) -> keeps I (set h k v t st).
Proof.
  intros H. apply degrading_keeps, keeps_andthen; [|intros; apply keeps_ret].
  destruct st as [z|]; [|apply permit_keeps, H].
  destruct (b_swr (h_backend h)) as [[g sw]|] eqn:E; [|apply permit_keeps, H].
  apply permit_keeps. by apply (swr_keeps _ H _ _ E).
Qed.

Lemma handler_set_streaming_keeps h k p t : backend_keeps (h_backend h) -> keeps I (set_streaming h k p t).
Proof.
  intros H. unfold set_streaming. destruct (b_set_streaming (h_backend h)) eqn:E; [|apply keeps_ret].
  apply degrading_keeps, keeps_andthen; [|intros; apply keeps_ret]. apply permit_keeps. by eapply set_streaming_keeps.
Qed.

Lemma handler_delete_keeps h k : backend_keeps (h_backend h) -> keeps I (delete h k).
Proof. intros H. apply degrading_keeps, permit_keeps, H. Qed.

Lemma maybe_refresh_keeps h k t : backend_keeps (h_backend h) -> keeps I (_maybe_refresh_ttl h k t).
Proof.
  intros H. unfold _maybe_refresh_ttl. destruct (b_ttl (h_backend h)) as [[g r]|] eqn:E; [|apply keeps_ret].
  destruct (ttl_keeps _ H _ _ E) as [Hg Hr].
  apply degrading_keeps, keeps_andthen; [apply Hg|]. intros [z|]; [|apply keeps_ret].
  case_match; [|apply keeps_ret]. apply keeps_andthen; [apply Hr|intros; apply keeps_ret].
Qed.

Lemma handler_get_async_keeps h k t : backend_keeps (h_backend h) -> keeps I (get_async h k t).
Proof.
  intros H. apply degrading_keeps, keeps_andthen; [apply permit_keeps, H|]. intros v.
  apply keeps_andthen; [|intros; apply keeps_ret].
  destruct v, t; try apply keeps_ret. by apply maybe_refresh_keeps.
Qed.

Lemma handler_freshness_keeps h k : backend_keeps (h_backend h) ->
  keeps I (get_with_freshness h k) /\ keeps I (get_with_freshness_async h k).
Proof.
  intros H. unfold get_with_freshness, get_with_freshness_async.
  destruct (b_swr (h_backend h)) as [[g sw]|] eqn:E.
  - destruct (swr_keeps _ H _ _ E) as [Hg _]. split; apply degrading_keeps, permit_keeps, Hg.
  - split; (apply keeps_andthen; [|intros; apply keeps_ret]).
    + by apply handler_get_keeps.
    + by apply handler_get_async_keeps.
Qed.

Lemma read_errors_keeps {B} key x : keeps I (@read_errors W V Hd P A B o key x).
Proof.
  destruct x; try apply keeps_ret; [|apply keeps_throw].
  apply keeps_andthen; [|intros; apply keeps_ret]. apply keeps_andthen; [apply keeps_lift|intros _].
  apply keeps_andthen; [|intros _].
  - apply degrading_keeps. destruct (_cache_handler o) as [h|] eqn:E; [|apply keeps_ret].
    apply keeps_andthen; [|intros; apply keeps_ret]. by apply handler_delete_keeps, Ho.
  - unfold _notify_deserialize_error. destruct (on_deserialize_error o) eqn:E; [|apply keeps_ret].
    apply degrading_keeps. by eapply (hook_keeps _ Ho).
Qed.

Lemma with_handler_keeps {B} (f : standard -> eff W B) :
  (forall h, backend_keeps (h_backend h) -> keeps I (f h)) -> keeps I (andthen (require_handler o) f).
Proof.
  intros Hf w Hw. unfold require_handler, andthen. destruct (_cache_handler o) as [h|] eqn:E; [|done].
  apply Hf; [|done]. by apply (handler_keeps _ Ho).
Qed.

Lemma decoded_keeps k d : keeps I (decoded o k d).
Proof.
  destruct d as [d|]; [|apply keeps_ret]. apply keeps_andthen; [apply Ho|intros; apply keeps_ret].
Qed.

(** Every read and write of an operation handler keeps the invariant. *)
Lemma reads_keep key t :
  keeps I (get_cached_value o key t) /\ keeps I (get_cached_value_async o key t) /\
  keeps I (get_cached_value_with_freshness o key) /\ keeps I (get_cached_value_with_freshness_async o key).
Proof.
  split_and!; (apply keeps_trying; [|intros; apply read_errors_keeps]); apply with_handler_keeps; intros h H.
  - apply keeps_andthen; [case_match; [by apply handler_get_buffer_keeps|apply keeps_ret]|]. intros [hd|].
    + apply keeps_finally; [|exact (close_keeps _ H hd)]. intros w Hw.
      apply keeps_andthen; [apply Ho|intros; apply keeps_ret|done].
    + apply keeps_andthen; [by apply handler_get_keeps|]. intros d.
      apply keeps_andthen; [apply decoded_keeps|intros; apply keeps_ret].
  - apply keeps_andthen; [by apply handler_get_async_keeps|]. intros d. apply decoded_keeps.
  - apply keeps_andthen; [by apply handler_freshness_keeps|]. intros d.
    apply keeps_andthen; [apply decoded_keeps|intros; apply keeps_ret].
  - apply keeps_andthen; [by apply handler_freshness_keeps|]. intros d.
    apply keeps_andthen; [apply decoded_keeps|intros; apply keeps_ret].
Qed.

Lemma write_errors_keep {B} x : keeps I (@write_errors W B x).
Proof. destruct x; try apply keeps_ret. apply keeps_throw. Qed.

Lemma stores_keep key v t call st :
  keeps I (store_result o key v t call st) /\ keeps I (store_result_async o key v t call).
Proof.
  split; (apply keeps_trying; [|intros; apply write_errors_keep]); apply with_handler_keeps; intros h H.
  all: apply keeps_andthen; [case_match; [by apply handler_set_streaming_keeps|apply keeps_ret]|].
  all: intros [|]; [apply keeps_ret|]; apply keeps_andthen; [apply Ho|]; intros d.
  all: apply keeps_andthen; [by apply handler_set_keeps|intros; apply keeps_ret].
Qed.
End Keeps.

(** ** A poisoned entry *)

(** What a read does with an exception of the deserializer raised in state [w]. *)
Definition after_failure {B} (o : operation) (h : standard) (key : pystr) (x : exn) (w : W) : result exn (option B) * W :=
  match x with
  | KeyringConfigurationError => (Err KeyringConfigurationError, w)
  | SerializationExn k =>
      if encryption_fail_closed (serialization_handler o) && bool_decide (k = DecryptionAuthenticationError)
      then (Err AuthenticationErr, w)
      else (Ok None, (_notify_deserialize_error o k key (delete h key w).2).2)
  | _ => (Ok None, w)
  end.

Lemma read_errors_spec {B} (o : operation) (h : standard) key x w : _cache_handler o = Some h ->
  @read_errors W V Hd P A B o key x w = after_failure o h key x w.
Proof.
  intros Eh. unfold read_errors, after_failure. destruct x; try done.
  unfold _handle_l2_read_error, handle_decrypt_failure. rewrite Eh.
  destruct (encryption_fail_closed _ && _) eqn:E.
  - apply andb_true_iff in E as [_ E]. by apply bool_decide_eq_true in E as ->.
  - unfold andthen, lift, ret, degrading, trying.
    destruct (never_raises_ok (delete h key) w (degrading_never _ _)) as [b Eb].
    destruct (delete h key w) as [r w']. cbn in Eb. injection Eb as ->. cbn [snd].
    destruct (never_raises_ok (_notify_deserialize_error o k key) w' (notify_never _ _ _)) as [t Et].
    destruct (_notify_deserialize_error o k key w') as [r2 w2]. cbn in Et. by injection Et as ->.
Qed.

(** Run a read up to its first call of the backend. *)
Ltac open_read Eh :=
  unfold get_cached_value, get_cached_value_async, get_cached_value_with_freshness,
    get_cached_value_with_freshness_async, trying, require_handler;
  unfold andthen at 1; rewrite Eh; cbn [ret]; unfold andthen.

(** The mapped entry a read looks for first, when the serializer can read one. *)
Definition mapped_first (o : operation) (h : standard) (key : pystr) : eff W (option Hd) :=
  if supports_mmap_read (serialization_handler o) then get_buffer h key else ret None.

(** C3. The read-path policy, for bytes a backend returned and for mapped entries.
    When they fail to decode, an authentication failure under fail-closed is raised
    and the entry is retained (the backend is not called again); any other
    serialization error evicts the entry, is reported to the error hook and is a
    miss; a keyring configuration error is raised and leaves the entry; any other
    exception, a malformed frame among them, is a miss that leaves the entry.  A
    mapping is closed first, and what closing it raises takes the error's place. *)
Theorem poisoned_entry (o : operation) (h : standard) key w0 w w1 w2 d x :
  _cache_handler o = Some h -> deserialize_data (serialization_handler o) d key w1 = (Err x, w2) ->
  (forall ttl, mapped_first o h key w0 = (Ok None, w) -> get h key ttl w = (Ok (Some d), w1) ->
     get_cached_value o key ttl w0 = after_failure o h key x w2) /\
  (forall ttl hd, mapped_first o h key w = (Ok (Some hd), w1) -> b_view (h_backend h) hd w1 = d ->
     get_cached_value o key ttl w = let (closed, w3) := b_close (h_backend h) hd w2 in
       after_failure o h key (match closed with Ok _ => x | Err y => y end) w3) /\
  (forall ttl, get_async h key ttl w = (Ok (Some d), w1) ->
     get_cached_value_async o key ttl w = after_failure o h key x w2) /\
  (forall stale, get_with_freshness h key w = (Ok (Some (d, stale)), w1) ->
     get_cached_value_with_freshness o key w = after_failure o h key x w2) /\
  (forall stale, get_with_freshness_async h key w = (Ok (Some (d, stale)), w1) ->
     get_cached_value_with_freshness_async o key w = after_failure o h key x w2).
Proof.
  intros Eh Ex. unfold mapped_first. split_and!; [intros ttl Em Eg|intros ttl hd Em Ev|intros y Eg..]; open_read Eh.
  3-5: rewrite Eg; cbn [fst fmap option_fmap option_map decoded]; unfold andthen; rewrite Ex; by apply read_errors_spec.
  - rewrite Em, Eg. cbn [decoded]. unfold andthen. rewrite Ex. by apply read_errors_spec.
  - rewrite Em. unfold finally, andthen. rewrite Ev, Ex.
    destruct (b_close (h_backend h) hd w2) as [[r|y] w3]; by apply read_errors_spec.
Qed.

(** ** The result of a write *)

(** The buffered write returns the serialized bytes whether or not the backend
    took them: a backend that refuses every write gives the same result as one that
    accepts, so the caller cannot tell. *)
Theorem store_returns_bytes (o : operation) (h : standard) key v ttl call stale data w w1 :
  _cache_handler o = Some h ->
  (stale = None -> supports_streaming (serialization_handler o) = false) ->
  serialize_data (serialization_handler o) v call key w = (Ok data, w1) ->
  store_result o key v ttl call stale w = (Ok (Some data), (set h key data ttl stale w1).2) /\
  forall e, permit h w1 = Some e ->
    store_result o key v ttl call stale w = (Ok (Some data), w1).
Proof.
  intros Eh Es Ed. assert (E : store_result o key v ttl call stale w = (Ok (Some data), (set h key data ttl stale w1).2)).
  { unfold store_result, trying, andthen at 1, require_handler. rewrite Eh. cbn [ret].
    assert (Hs : bool_decide (stale = None) && supports_streaming (serialization_handler o) = false).
    { case_bool_decide; [by apply Es|done]. }
    rewrite Hs. unfold andthen at 1. cbn [ret]. unfold store_buffered, andthen. rewrite Ed.
    destruct (never_raises_ok (set h key data ttl stale) w1) as [b Eb].
    { apply degrading_never. }
    destruct (set h key data ttl stale w1) as [r w']. cbn in Eb. by injection Eb as ->. }
  split; [exact E|]. intros e He. rewrite E. f_equal. unfold set, degrading, trying, andthen.
  unfold _with_backpressure_and_timeout. destruct stale as [t|], (b_swr (h_backend h)) as [[? ?]|]; by rewrite He.
Qed.
End Paths.

(** ** Concrete runs *)

(** A backend of one cell, and bytes that fail to decode with [x]. *)
Definition cell_backend : backend (option pybytes) unit unit := {|
  b_get _ := fun w => (Ok w, w);
  b_set _ d _ := fun _ => (Ok tt, Some d);
  b_delete _ := fun _ => (Ok true, None);
  b_get_buffer := None; b_view _ _ := []; b_close _ := ret tt;
  b_set_streaming := None; b_swr := None; b_ttl := None; b_lock := None
|}.

Definition failing (fail_closed : bool) (x : exn) : serialization (option pybytes) pybytes unit unit := {|
  supports_mmap_read := false; supports_streaming := false; encryption_fail_closed := fail_closed;
  Handler.serialize_data v _ _ := ret v; Handler.deserialize_data _ _ := throw x;
  Handler.write_serialized_to _ := tt
|}.

Definition over_cell (refusal : option BackendError) : StandardCacheHandler (option pybytes) unit unit :=
  Handler.mkHandler cell_backend (fun _ => refusal) (fofZ 1).

Definition cell_operation fail_closed x refusal := mkOperation (failing fail_closed x) (Some (over_cell refusal)) None.

Lemma poisoned_entry_witness :
  get_cached_value (cell_operation true AuthenticationErr None) (u "k") None (Some (u "bad")) =
    (Err AuthenticationErr, Some (u "bad")) /\
  get_cached_value (cell_operation false AuthenticationErr None) (u "k") None (Some (u "bad")) = (Ok None, None) /\
  get_cached_value (cell_operation true (PyExn ValueError) None) (u "k") None (Some (u "bad")) =
    (Ok None, Some (u "bad")).
Proof.
  split_and!.
  - apply (poisoned_entry (cell_operation true AuthenticationErr None) (over_cell None) (u "k")
      (Some (u "bad")) (Some (u "bad")) (Some (u "bad")) (Some (u "bad")) (u "bad") AuthenticationErr); reflexivity.
  - apply (poisoned_entry (cell_operation false AuthenticationErr None) (over_cell None) (u "k")
      (Some (u "bad")) (Some (u "bad")) (Some (u "bad")) (Some (u "bad")) (u "bad") AuthenticationErr); reflexivity.
  - apply (poisoned_entry (cell_operation true (PyExn ValueError) None) (over_cell None) (u "k")
      (Some (u "bad")) (Some (u "bad")) (Some (u "bad")) (Some (u "bad")) (u "bad") (PyExn ValueError)); reflexivity.
Defined.

Lemma store_returns_bytes_witness :
  store_result (cell_operation true OtherError (Some (backend_error (u "busy") TRANSIENT))) (u "k") (u "v") None tt None None
    = (Ok (Some (u "v")), None).
Proof.
  destruct (store_returns_bytes (cell_operation true OtherError (Some (backend_error (u "busy") TRANSIENT)))
    (over_cell (Some (backend_error (u "busy") TRANSIENT))) (u "k") (u "v") None tt None (u "v") None None) as [_ H];
    [reflexivity|reflexivity|reflexivity|].
  apply (H (backend_error (u "busy") TRANSIENT)). reflexivity.
Defined.
