(* ===== verification/Stack.v ===== *)
(** The cache handler of [Handler.v] put together with the serialization handler of
    [Serialization.v] and a backend, in particular the file backend with all its
    capabilities: what is stored is served until its expiry, as TTL refreshes move it, and
    how a misconfigured keyring shows. *)
From Stdlib Require Import ZArith Lia SpecFloat.
From stdpp Require Import base list numbers option strings gmap.
From S2P Require Import Prelude PyFloat FileSystem FileBackend FileReaders FileWriters FileProps.
From S2P Require Import PyDict Bytes PyValue Errors Effects Json Envelope Serializers Tenant Encryption EncryptionProps Serialization SerializationProps Handler HandlerProps.

Local Open Scope Z_scope.
Local Open Scope eff_scope.

#[local] Arguments Serialization.serialize_data : simpl never.
#[local] Arguments Serialization.deserialize_data : simpl never.
#[local] Arguments Serialization.supports_streaming_write : simpl never.
#[local] Arguments Serialization.supports_mmap_read : simpl never.
#[local] Arguments _expiry_from_ttl : simpl never.
#[local] Arguments _maybe_refresh_ttl : simpl never.

Section Stack.
Context {V K KR R A B Hd : Type}.
Context (num_truthy : pystr -> bool) (str_of : jval -> pystr).
Context (decode_wide : pybytes -> option pystr).
Context (rust : crypto K KR R).
Context (s : settings).

(** The state of the serialization handler and that of the backend. *)
Local Abbreviation W := (state V K KR R * B)%type.
(** What a streaming producer writes to a sink at a position. *)
Local Abbreviation stream := (Z -> list producer_op * result exn unit).

Definition serialization_of (h : CacheSerializationHandler V A) : serialization W V stream A := {|
  supports_mmap_read := Serialization.supports_mmap_read h;
  supports_streaming := Serialization.supports_streaming_write h;
  encryption_fail_closed := fail_closed h;
  Handler.serialize_data v call key := on_fst (Serialization.serialize_data num_truthy str_of rust s h v call key);
  Handler.deserialize_data d key :=
    on_fst (Serialization.deserialize_data num_truthy str_of decode_wide rust s h (RawBytes d) key);
  Handler.write_serialized_to v start := Serialization.write_serialized_to num_truthy s h start v
|}.

(** The operation handler over a backend [m]. *)
Definition operation_of (m : backend W Hd stream) (h : CacheSerializationHandler V A) (allow : W -> option BackendError)
    (threshold : float) : CacheOperationHandler W V Hd stream A :=
  mkOperation (serialization_of h) (Some (Handler.mkHandler m allow threshold)) None.

Context `{!Aead rust}.

Lemma wrapper_of_err (h : CacheSerializationHandler V A) t x st : wf_state rust s h st ->
  new_wrapper rust s h (JStr t) = Err x ->
  _get_cached_encryption_wrapper rust s h (JStr t) st = (Err x, st).
Proof.
  intros (_ & _ & _ & F) E. unfold _get_cached_encryption_wrapper.
  destruct (od_get t _) as [w|] eqn:G; [|by rewrite E].
  pose proof (od_Forall_get _ _ _ _ F G) as Hw. cbn in Hw. congruence.
Qed.

(** A keyring that cannot be built (a previous key that is too short, or is the
    current one, or whose fingerprints cannot be derived) raises a plain ValueError,
    and that is silent: a write stores nothing and a read of an entry of the tenant
    is a miss that leaves the entry, with no exception to the caller in either. *)
Theorem keyring_fault_is_silent m h allow threshold t v call key ttl ttl' st bs :
  (forall w, allow w = None) -> _serializer_string_name h <> u "arrow" ->
  encryption h = true -> wf_state rust s h st -> t <> [] ->
  new_wrapper rust s h (JStr t) = Err (PyExn ValueError) ->
  (write_tenant h call = Ok t ->
   store_result (operation_of m h allow threshold) key v ttl call None (st, bs) = (Ok None, (st, bs))) /\
  (forall data payload d name md bs', interop_mode h = false -> b_get m key (st, bs) = (Ok (Some data), (st, bs')) ->
   unwrap decode_wide (RawBytes data) = Ok (payload, d, name) -> from_dict d = Ok md ->
   compatible h name = true -> truthy num_truthy (encrypted md) = true -> tenant_id md = JStr t ->
   get_cached_value (operation_of m h allow threshold) key ttl' (st, bs) = (Ok None, (st, bs'))).
Proof.
  intros Ha Hn He Wf Hne Ew. pose proof (wrapper_of_err h t _ st Wf Ew) as Ew'. split.
  - intros Et. assert (Es : Serialization.serialize_data num_truthy str_of rust s h v call key st
      = (Err (PyExn ValueError), st)).
    { unfold Serialization.serialize_data, serialized. rewrite He. unfold trying, andthen, lift. rewrite Et, Ew'.
      reflexivity. }
    assert (Hs : Serialization.supports_streaming_write h = false).
    { unfold Serialization.supports_streaming_write. rewrite bool_decide_eq_false_2 by done. apply andb_false_r. }
    unfold store_result. cbn. rewrite Hs. unfold store_buffered, trying, require_handler, ret.
    cbn. unfold andthen, on_fst. cbn [fst snd]. rewrite Es. reflexivity.
  - intros data payload d name md bs' Hi Eg Eu Ed Hc Ht Etn.
    assert (Er : Serialization.deserialize_data num_truthy str_of decode_wide rust s h (RawBytes data) key st
      = (Err (PyExn ValueError), st)).
    { unfold Serialization.deserialize_data. rewrite Hi. unfold trying, andthen, lift. rewrite Eu, Ed. cbn [py].
      rewrite Hc. cbn [negb]. unfold read_payload. rewrite He, Ht, Etn. cbn [negb andb truthy].
      destruct t as [|c t]; [done|]. unfold andthen. cbn [negb ret]. rewrite Ew'. reflexivity. }
    assert (Hm : Serialization.supports_mmap_read h = false).
    { unfold Serialization.supports_mmap_read. by rewrite He. }
    unfold get_cached_value. cbn. rewrite Hm. unfold get, degrading, trying, require_handler, ret.
    cbn. unfold andthen, _with_backpressure_and_timeout. cbn. rewrite Ha, Eg.
    cbn. unfold andthen, on_fst. cbn [fst snd]. rewrite Er. reflexivity.
Qed.

End Stack.

(** ** Over the file backend *)

Definition of_file_exn (x : FileSystem.exn) : exn :=
  match x with
  | OSErr _ => OSError
  | BackendE e => BackendExn e
  | PyE e => PyExn e
  | ProducerE => OtherError
  end.

(** When a call is made: the system's behaviour, the time and the clock in nanoseconds;
    for a TTL refresh, the times [get_ttl] reads and the two that [refresh_ttl] reads. *)
Record moment := mkMoment {
  m_env : env;
  m_now : float;
  m_ns : Z;
  m_inspect : float;
  m_extend : float;
  m_recheck : float
}.

(** A call of the file backend at the moment the state holds. *)
Definition at_moment {X} (m : moment -> FileSystem.M X) : eff (world * moment) X := fun wm =>
  let (r, w') := m wm.2 wm.1 in
  (match r with Ok x => Ok x | Err e => Err (of_file_exn e) end, (w', wm.2)).

Section OverFiles.
Context (blake2b : Z -> pybytes -> pybytes) (iterdir : gmap pystr nat -> list (pystr * nat)).
Context (cfg : FileBackendConfig).
Context {V K KR R A : Type}.
Context (num_truthy : pystr -> bool) (str_of : jval -> pystr) (decode_wide : pybytes -> option pystr).
Context (rust : crypto K KR R) (s : settings).

Local Abbreviation W := (state V K KR R * (world * moment))%type.
Local Abbreviation stream := (Z -> list producer_op * result exn unit).

(** A producer given to [set_streaming], whose file stands behind the header. *)
Definition producer_of (p : stream) : producer :=
  let (ops, r) := p HEADER_SIZE in mkProducer ops (match r with Ok _ => false | Err _ => true end).

(** [FileBackend] as the handlers see it: the required methods, [get_buffer],
    [set_streaming], [get_ttl] and [refresh_ttl]; neither freshness nor a lock. *)
Definition file_backend : backend W mmap_handle stream := {|
  b_get key := on_snd (at_moment (fun m => FileBackend.get blake2b (m_env m) (m_now m) key));
  b_set key d ttl := on_snd (at_moment (fun m =>
    FileBackend.set blake2b iterdir cfg (m_env m) (m_now m) (m_ns m) key d ttl));
  b_delete key := on_snd (at_moment (fun m => FileBackend.delete blake2b (m_env m) key));
  b_get_buffer := Some (fun key => on_snd (at_moment (fun m =>
    FileBackend.get_buffer blake2b (m_env m) (m_now m) key)));
  b_view hd w := default [] (view hd w.2.1);
  b_close _ := ret tt;
  b_set_streaming := Some (fun key p ttl => on_snd (at_moment (fun m =>
    FileBackend.set_streaming blake2b iterdir cfg (m_env m) (m_now m) (m_ns m) key (producer_of p) ttl)));
  b_swr := None;
  b_ttl := Some (fun key => on_snd (at_moment (fun m => FileBackend.get_ttl blake2b (m_env m) (m_inspect m) key)),
                 fun key t => on_snd (at_moment (fun m =>
                   FileBackend.refresh_ttl blake2b (m_env m) (m_extend m) (m_recheck m) key t)));
  b_lock := None
|}.

Local Abbreviation file_operation := (operation_of num_truthy str_of decode_wide rust s file_backend).

(** ** What a read does to the expiry of an entry *)

(** Past its expiry [x], if it has one. *)
Definition dead (now : float) (x : Z) : bool := (0 <? x) && fgtZ now x.

(** The expiry after the refresh that follows an asynchronous hit; [None]: the entry
    is unlinked.  A permanent entry has no TTL to look at; at the second of its
    expiry an entry is gone for [get_ttl]; above the threshold, or when the new expiry
    cannot be made or written, it keeps its own. *)
Definition expiry_refreshed (threshold : float) (m : moment) (t x : Z) : option Z :=
  if x =? 0 then Some x
  else if fleZ (fsub (fofZ x) (m_inspect m)) 0 then None
  else match ftrunc (fsub (fofZ x) (m_inspect m)) with
       | Err _ => Some x
       | Ok remaining =>
           if negb (fgtZ (fmul (fofZ t) threshold) remaining) then Some x
           else match (_expiry_from_ttl (m_extend m) (Some t) (mkWorld ∅ ∅ ∅)).1 with
                | Err _ => Some x
                | Ok x' => if dead (m_recheck m) x then None
                           else match pack_Q x' with Ok _ => Some x' | Err _ => Some x end
                end
       end.

(** A read of a key: by which method, with which TTL to refresh to, and when. *)
Record read := mkRead { r_async : bool; r_ttl : option Z; r_at : moment }.

Definition expiry_read (threshold : float) (r : read) (x : Z) : option Z :=
  if dead (m_now (r_at r)) x then None
  else match r_async r, r_ttl r with
       | true, Some t => expiry_refreshed threshold (r_at r) t x
       | _, _ => Some x
       end.

(** The expiry after some reads. *)
Definition expiry_after (threshold : float) (rs : list read) (x : option Z) : option Z :=
  foldl (fun x r => mbind (expiry_read threshold r) x) x rs.

(** What a read of an entry with this expiry finds. *)
Definition found (r : read) (v : V) (x : option Z) : option V :=
  match x with Some x => if dead (m_now (r_at r)) x then None else Some v | None => None end.

(** The read itself, on the states of the serialization handler and of the disk. *)
Definition read_at (o : CacheOperationHandler W V mmap_handle stream A) (key : pystr) (r : read)
    (sw : state V K KR R * world) : result exn (option V) * (state V K KR R * world) :=
  let '(a, (st, (w, _))) :=
    (if r_async r then (y <~ get_cached_value_async o key (r_ttl r) ;; ret (fst <$> y))
     else get_cached_value o key (r_ttl r)) (sw.1, (sw.2, r_at r)) in (a, (st, w)).

Definition after_reads (o : CacheOperationHandler W V mmap_handle stream A) (key : pystr) (rs : list read)
    (sw : state V K KR R * world) : state V K KR R * world :=
  foldl (fun sw r => (read_at o key r sw).2) sw rs.

(** ** The entry on disk *)

Section Entry.
Context (key p : pystr) (data : pybytes).
Context (Hp : forall w, _key_to_path blake2b key w = (Ok p, w)) (Hsz : HEADER_SIZE + zlen data <= MAX_RW_COUNT).

(** [data] is stored with expiry [x]. *)
Definition filed (x : Z) (w : world) : Prop := exists ino d mt, entry blake2b key p w ino d mt /\
  zlen d = HEADER_SIZE + zlen data /\ bad_magic d = false /\ payload d = data /\ expiry_field d = x.

Definition rests (x : option Z) (w : world) : Prop :=
  match x with Some x => filed x w | None => names w !! p = None end.

Lemma filed_live ino d mt x w now : entry blake2b key p w ino d mt -> zlen d = HEADER_SIZE + zlen data ->
  bad_magic d = false -> expiry_field d = x -> live now d = negb (dead now x).
Proof.
  intros _ L M X. unfold live, expired. rewrite M, X, (proj2 (Z.ltb_ge (zlen d) HEADER_SIZE)); [done|].
  pose proof (zlen_nonneg data). lia.
Qed.

Lemma rests_seen now x w : filed x w -> rests (if dead now x then None else Some x) (seen p (negb (dead now x)) w).
Proof.
  intros F. destruct (dead now x); cbn; [apply lookup_delete_eq|done].
Qed.

Lemma filed_get m x w : calm (m_env m) -> filed x w ->
  FileBackend.get blake2b (m_env m) (m_now m) key w =
    (Ok (if dead (m_now m) x then None else Some data), seen p (negb (dead (m_now m) x)) w).
Proof.
  intros C (ino & d & mt & En & L & M & P & X). rewrite (get_calm blake2b _ _ _ _ _ _ _ _ C En) by lia.
  rewrite (filed_live ino d mt x w) by done. rewrite P. by destruct (dead _ _).
Qed.

Lemma filed_map m x w : calm (m_env m) -> filed x w -> exists hd,
  FileBackend.get_buffer blake2b (m_env m) (m_now m) key w = (Ok hd, seen p (negb (dead (m_now m) x)) w) /\
  match hd with Some hd => dead (m_now m) x = false /\ view hd w = Some data | None => True end.
Proof.
  intros C (ino & d & mt & En & L & M & P & X). rewrite (get_buffer_calm blake2b _ _ _ _ _ _ _ _ C En).
  rewrite (filed_live ino d mt x w) by done. eexists. split; [reflexivity|]. destruct (dead _ _); [done|]. cbn.
  destruct (mappable d); [|done]. split; [done|]. unfold view. cbn. rewrite (en_node _ _ _ _ _ _ _ En).
  rewrite <- P. do 2 f_equal. apply take_ge. unfold zlen. lia.
Qed.

(** What [set] leaves. *)
Lemma stored_filed e w w' x hd : _build_header x = Ok hd -> accepts e = None ->
  FileWriters.stored iterdir cfg e p w w' (written e (hd ++ data)) -> is_Some (names w' !! p) -> filed x w'.
Proof.
  intros Eh Hacc (_ & _ & S) Hs. destruct (build_header_ok x hd Eh) as (L & _ & _ & Hd). destruct (Hd data) as (R1 & R2 & R3).
  assert (Ac : accepted e (hd ++ data) = HEADER_SIZE + zlen data).
  { unfold accepted. rewrite Hacc. cbn. rewrite zlen_app, L. pose proof (zlen_nonneg data). unfold HEADER_SIZE in *. lia. }
  pose proof (zlen_nonneg data) as Hz. rewrite (written_header e hd x data Eh) in S by (rewrite Ac; unfold HEADER_SIZE; lia).
  rewrite Ac, take_ge in S by (unfold HEADER_SIZE, zlen; lia).
  eexists _, _, _. split; [eapply committed_entry; [apply Hp|exact S|done]|]. rewrite zlen_app, L. by unfold payload.
Qed.

Lemma expiry_anywhere now ttl w : _expiry_from_ttl now ttl w = ((_expiry_from_ttl now ttl (mkWorld ∅ ∅ ∅)).1, w).
Proof. unfold _expiry_from_ttl, mret, raise, FileSystem.lift. by repeat case_match. Qed.

(** The refresh. *)
Lemma refresh_rests threshold allow st m t x w : calm (m_env m) -> filed x w -> exists w',
  _maybe_refresh_ttl (Handler.mkHandler file_backend allow threshold) key t (st, (w, m)) = (Ok tt, (st, (w', m))) /\
  rests (expiry_refreshed threshold m t x) w'.
Proof.
  intros C F. pose proof F as (ino & d & mt & En & L & M & P & X). pose proof (zlen_nonneg data) as Hz.
  unfold _maybe_refresh_ttl, expiry_refreshed. cbn. unfold degrading, trying, andthen, on_snd, at_moment. cbn [fst snd].
  rewrite (get_ttl_calm blake2b _ _ _ _ _ _ _ _ C En). unfold remaining.
  rewrite (proj2 (Z.ltb_ge (zlen d) HEADER_SIZE)), M, X by lia. cbn [orb].
  destruct (x =? 0); [by eexists|].
  destruct (fleZ _ 0); [eexists; split; [reflexivity|apply lookup_delete_eq]|].
  destruct (ftrunc _) as [r|]; [|by eexists]. unfold below_threshold. cbn [ttl_refresh_threshold].
  destruct (fgtZ _ r); cbn [negb]; [|by eexists]. unfold andthen. cbn [fst snd].
  pose proof (expiry_anywhere (m_extend m) (Some t) w) as Ex.
  destruct (_expiry_from_ttl (m_extend m) (Some t) (mkWorld ∅ ∅ ∅)).1 as [x'|e].
  2: { unfold FileBackend.refresh_ttl. rewrite (bind_err _ _ _ _ _ Ex). by eexists. }
  pose proof (filed_live ino d mt x w (m_recheck m) En L M X) as Hl. unfold pack_Q.
  destruct ((0 <=? x') && (x' <? 2 ^ 64)) eqn:Ep.
  - zbool. rewrite (refresh_calm blake2b _ _ _ _ _ _ _ _ _ _ x' C En Ex) by lia. rewrite Hl.
    destruct (dead (m_recheck m) x); cbn [negb]; (eexists; split; [reflexivity|]); [apply lookup_delete_eq|].
    destruct (retimed_header x' d) as (R1 & R2 & R3 & R4); [unfold HEADER_SIZE in *; lia|lia|].
    exists ino, (retimed x' d), (wtime (m_env m)). split; [|by rewrite R1, R2, R3, R4].
    destruct En as [E1 E2 E3]. split; [by eapply key_path_any|done|]. cbn. apply lookup_insert_eq.
  - destruct (dead (m_recheck m) x); cbn in Hl.
    + erewrite (refresh_dead blake2b _ _ _ _ _ _ _ _ _ _ x' C En Hl Ex). eexists. split; [reflexivity|apply lookup_delete_eq].
    + erewrite (refresh_unpacked blake2b _ _ _ _ _ _ _ _ _ _ x' StructError C En Hl Ex); [by eexists|].
      unfold pack_Q. by rewrite Ep.
Qed.
End Entry.

(** ** Reads *)

Context `{!Aead rust}.

(** [data] decodes to [v] under [key], now and after any calls. *)
Definition decodes_to (h : CacheSerializationHandler V A) (key : pystr) (data : pybytes) (v : V) (st : state V K KR R) : Prop :=
  forall calls, (Serialization.deserialize_data num_truthy str_of decode_wide rust s h (RawBytes data) key
    (foldl (fun st c => perform num_truthy str_of decode_wide rust s h c st) st calls)).1 = Ok v.

Lemma decodes_step h key data v st : decodes_to h key data v st -> exists st2,
  Serialization.deserialize_data num_truthy str_of decode_wide rust s h (RawBytes data) key st = (Ok v, st2) /\
  decodes_to h key data v st2.
Proof.
  intros D. pose proof (D []) as E. cbn in E. destruct (Serialization.deserialize_data _ _ _ _ _ _ _ _ st) as [r st2] eqn:Es.
  cbn in E. subst r. exists st2. split; [done|]. intros calls. pose proof (D (Load (RawBytes data) key :: calls)) as D2.
  cbn in D2. by rewrite Es in D2.
Qed.

Section Reads.
Context (h : CacheSerializationHandler V A) (allow : W -> option BackendError) (threshold : float).
Context (key p : pystr) (data : pybytes) (v : V).
Context (Ha : forall w, allow w = None).
Context (Hp : forall w, _key_to_path blake2b key w = (Ok p, w)) (Hsz : HEADER_SIZE + zlen data <= MAX_RW_COUNT).
Local Abbreviation o := (file_operation h allow threshold).
Local Abbreviation handler := (Handler.mkHandler file_backend allow threshold).

(** The backend's part: [get], and [get_buffer]. *)
Lemma get_rests t m x st w : calm (m_env m) -> rests key p data x w -> exists w2,
  get handler key t (st, (w, m)) = (Ok (x ≫= fun x => if dead (m_now m) x then None else Some data), (st, (w2, m))) /\
  rests key p data (x ≫= fun x => if dead (m_now m) x then None else Some x) w2.
Proof.
  intros C F. unfold get, degrading, trying, _with_backpressure_and_timeout. cbn. rewrite Ha. unfold on_snd, at_moment. cbn [fst snd].
  destruct x as [x|]; cbn.
  - rewrite (filed_get key p data Hsz m x w C F). eexists. split; [reflexivity|]. by apply rests_seen.
  - rewrite (proj1 (missing_calm blake2b _ (m_now m) key p w C (Hp w) F)). by eexists.
Qed.

Lemma map_rests m x st w : calm (m_env m) -> rests key p data x w -> exists hd w2,
  get_buffer handler key (st, (w, m)) = (Ok hd, (st, (w2, m))) /\
  rests key p data (x ≫= fun x => if dead (m_now m) x then None else Some x) w2 /\
  match hd with
  | Some hd => view hd w2 = Some data /\ (x ≫= fun x => if dead (m_now m) x then None else Some data) = Some data
  | None => True
  end.
Proof.
  intros C F. unfold get_buffer, degrading, trying, _with_backpressure_and_timeout. cbn. rewrite Ha. unfold on_snd, at_moment. cbn [fst snd].
  destruct x as [x|]; cbn.
  - destruct (filed_map key p data m x w C F) as (hd & -> & Hv). eexists hd, _. split; [reflexivity|]. split; [by apply rests_seen|].
    destruct hd as [hd|]; [|done]. destruct Hv as [-> Hv]. by split.
  - rewrite (proj2 (missing_calm blake2b _ (m_now m) key p w C (Hp w) F)). by exists None, w.
Qed.

Lemma file_get_cached_value t sw : get_cached_value o key t sw =
  trying
    (mapped <~ (if Serialization.supports_mmap_read h then get_buffer handler key else ret None) ;;
     match mapped with
     | Some hd =>
         finally
           (fun w => (v <~ on_fst (Serialization.deserialize_data num_truthy str_of decode_wide rust s h
                             (RawBytes (default [] (view hd w.2.1))) key) ;; ret (Some v)) w)
           (ret tt)
     | None => cached_data <~ get handler key t ;; r <~ decoded o key cached_data ;; ret (fst <$> r)
     end) (read_errors o key) sw.
Proof. reflexivity. Qed.

(** What a read leaves and finds. *)
Definition reads_as (r : read) (x : option Z) (out : result exn (option V) * W) : Prop :=
  exists st w, out = (Ok (found r v x), (st, (w, r_at r))) /\ decodes_to h key data v st /\
    rests key p data (x ≫= expiry_read threshold r) w.

Lemma sync_read r x st w : r_async r = false -> calm (m_env (r_at r)) -> decodes_to h key data v st -> rests key p data x w ->
  reads_as r x (get_cached_value o key (r_ttl r) (st, (w, r_at r))).
Proof.
  intros Hs C D F. destruct (decodes_step _ _ _ _ _ D) as (st2 & Ed & D2).
  set (x1 := x ≫= fun x => if dead (m_now (r_at r)) x then None else Some x).
  assert (E1 : x ≫= expiry_read threshold r = x1) by (destruct x as [x'|]; [|done]; cbn; unfold expiry_read; by rewrite Hs).
  assert (Ef : found r v x = (x ≫= fun x => if dead (m_now (r_at r)) x then None else Some v)) by (by destruct x).
  unfold reads_as. rewrite E1, Ef.
  assert (Plain : forall w y, rests key p data y w ->
    (x ≫= fun x => if dead (m_now (r_at r)) x then None else Some v) = (y ≫= fun x => if dead (m_now (r_at r)) x then None else Some v) ->
    (y ≫= fun x => if dead (m_now (r_at r)) x then None else Some x) = x1 ->
    exists st' w', ((cached_data <~ get handler key (r_ttl r) ;; r <~ decoded o key cached_data ;; ret (fst <$> r)) (st, (w, r_at r)))
      = (Ok (x ≫= fun x => if dead (m_now (r_at r)) x then None else Some v), (st', (w', r_at r))) /\
      decodes_to h key data v st' /\ rests key p data x1 w').
  { intros w0 y F0 -> <-. destruct (get_rests (r_ttl r) (r_at r) y st w0 C F0) as (w2 & E & F2). unfold andthen. rewrite E.
    destruct y as [y|]; cbn in *; [|by exists st, w2]. destruct (dead _ y); cbn; [by exists st, w2|].
    unfold andthen, on_fst. cbn. rewrite Ed. cbn. by exists st2, w2. }
  rewrite file_get_cached_value. unfold trying. destruct (Serialization.supports_mmap_read h).
  2: { unfold andthen at 1, ret at 1. destruct (Plain w x F eq_refl eq_refl) as (st' & w' & -> & ? & ?). by exists st', w'. }
  destruct (map_rests (r_at r) x st w C F) as (hd & w2 & E & F2 & Hv). unfold andthen at 1. rewrite E.
  destruct hd as [hd|].
  - destruct Hv as [Hv Hx]. unfold finally. cbn. rewrite Hv. cbn. unfold andthen, on_fst. cbn. rewrite Ed. cbn.
    exists st2, w2. split; [|done]. destruct x as [x|]; [|done]. cbn in *. by destruct (dead _ x).
  - destruct (Plain w2 x1 F2) as (st' & w' & -> & ? & ?); [| |by exists st', w'].
    + unfold x1. destruct x as [x|]; [|done]. cbn. destruct (dead _ x) eqn:Ex; [done|]. cbn. by rewrite Ex.
    + unfold x1. destruct x as [x|]; [|done]. cbn. destruct (dead _ x) eqn:Ex; [done|]. cbn. by rewrite Ex.
Qed.

Lemma async_read r x st w : r_async r = true -> calm (m_env (r_at r)) -> decodes_to h key data v st -> rests key p data x w ->
  reads_as r x ((y <~ get_cached_value_async o key (r_ttl r) ;; ret (fst <$> y)) (st, (w, r_at r))).
Proof.
  intros Hs C D F. destruct (decodes_step _ _ _ _ _ D) as (st2 & Ed & D2). unfold reads_as.
  unfold andthen, get_cached_value_async, trying, require_handler. cbn. unfold andthen at 1, ret at 1. cbn.
  unfold get_async, degrading, trying, _with_backpressure_and_timeout. cbn. unfold andthen. rewrite Ha. unfold on_snd, at_moment. cbn [fst snd].
  destruct x as [x|]; cbn.
  2: { rewrite (proj1 (missing_calm blake2b _ (m_now (r_at r)) key p w C (Hp w) F)). cbn. by exists st, w. }
  rewrite (filed_get key p data Hsz (r_at r) x w C F). unfold expiry_read. rewrite Hs.
  pose proof (rests_seen key p data (m_now (r_at r)) x w F) as G. destruct (dead _ x); cbn in *.
  { by eexists st, _. }
  destruct (r_ttl r) as [t|]; cbn.
  - destruct (refresh_rests key p data threshold allow st (r_at r) t x w C F) as (w' & E & F2). rewrite E. cbn.
    unfold andthen, on_fst. cbn. rewrite Ed. cbn. by exists st2, w'.
  - unfold andthen, on_fst. cbn. rewrite Ed. cbn. by exists st2, w.
Qed.

Lemma read_rests r x st w : calm (m_env (r_at r)) -> decodes_to h key data v st -> rests key p data x w ->
  exists st' w', read_at o key r (st, w) = (Ok (found r v x), (st', w')) /\ decodes_to h key data v st' /\
    rests key p data (x ≫= expiry_read threshold r) w'.
Proof.
  intros C D F. unfold read_at. cbn [fst snd]. destruct (r_async r) eqn:Hs.
  - destruct (async_read r x st w Hs C D F) as (st' & w' & -> & ? & ?). by exists st', w'.
  - destruct (sync_read r x st w Hs C D F) as (st' & w' & -> & ? & ?). by exists st', w'.
Qed.

Lemma reads_rest rs x st w : Forall (fun r => calm (m_env (r_at r))) rs -> decodes_to h key data v st -> rests key p data x w ->
  exists st' w', after_reads o key rs (st, w) = (st', w') /\ decodes_to h key data v st' /\ rests key p data (expiry_after threshold rs x) w'.
Proof.
  intros Hc. revert x st w. induction Hc as [|r rs C _ IH]; intros x st w D F; [by exists st, w|].
  destruct (read_rests r x st w C D F) as (st1 & w1 & E & D1 & F1). cbn. rewrite E. by apply IH.
Qed.
End Reads.

End OverFiles.

(** ** Concrete runs *)

(** Previous keys that contain the current one. *)
Definition bad_settings : settings := mkSettings (mkKeySettings None [hex_key]) 1000 false None.

(** A backend of one cell. *)
Definition cell {S P} : backend (S * option pybytes) unit P := {|
  b_get _ := fun w => (Ok w.2, w);
  b_set _ d _ := fun w => (Ok tt, (w.1, Some d));
  b_delete _ := fun w => (Ok true, (w.1, None));
  b_get_buffer := None;
  b_view _ _ := [];
  b_close _ := ret tt;
  b_set_streaming := None;
  b_swr := None;
  b_ttl := None;
  b_lock := None
|}.

Definition bad_operation :=
  operation_of no_numbers no_repr no_wide toy_crypto bad_settings cell vault (fun _ => None) (fofZ 1).

Definition stored_parts : pybytes * jval * jval :=
  match unwrap no_wide (RawBytes stored_bytes) with Ok p => p | Err _ => ([], JNull, JNull) end.
Definition stored_metadata : SerializationMetadata :=
  match from_dict stored_parts.1.2 with Ok m => m | Err _ => metadata MSGPACK false JNull end.

Lemma keyring_fault_is_silent_witness :
  store_result bad_operation (u "users:1") (u "pin 1234") None tt None (fresh_state, None)
    = (Ok None, (fresh_state, None)) /\
  get_cached_value bad_operation (u "users:1") None (fresh_state, Some stored_bytes)
    = (Ok None, (fresh_state, Some stored_bytes)).
Proof.
  assert (Wf : wf_state toy_crypto bad_settings vault fresh_state) by apply fresh_wf.
  split.
  - destruct (keyring_fault_is_silent no_numbers no_repr no_wide toy_crypto bad_settings cell vault (fun _ => None)
      (fofZ 1) (u "acme") (u "pin 1234") tt (u "users:1") None None fresh_state (None : option pybytes)) as [H _];
      [reflexivity|discriminate|reflexivity|exact Wf|discriminate|vm_compute; reflexivity|].
    apply H. reflexivity.
  - destruct (keyring_fault_is_silent no_numbers no_repr no_wide toy_crypto bad_settings cell vault (fun _ => None)
      (fofZ 1) (u "acme") (u "pin 1234") tt (u "users:1") None None fresh_state (Some stored_bytes)) as [_ H];
      [reflexivity|discriminate|reflexivity|exact Wf|discriminate|vm_compute; reflexivity|].
    apply (H stored_bytes stored_parts.1.1 stored_parts.1.2 stored_parts.2 stored_metadata); vm_compute; reflexivity.
Defined.

Definition vault_key : pystr := u "users:1".
Definition vault_path : pystr :=
  match (_key_to_path toy_digest vault_key one_entry).1 with Ok p => p | Err _ => [] end.
Definition filed_entry : result FileSystem.exn unit * world :=
  FileBackend.set toy_digest listing default_config quiet (fofZ 10) 1 vault_key stored_bytes (Some 60) one_entry.

(** Half-way to its expiry at second 70 the entry is refreshed, to last until 110. *)
Definition read_on (async : bool) (ttl : option Z) (at_ : Z) : read :=
  mkRead async ttl (mkMoment quiet (fofZ at_) 2 (fofZ at_) (fofZ at_) (fofZ at_)).
Definition file_reads : CacheOperationHandler _ _ _ _ _ :=
  operation_of no_numbers no_repr no_wide toy_crypto some_settings
    (file_backend toy_digest listing default_config) vault (fun _ => None) (fofZ 1).
Definition read_later (rs : list read) (r : read) : result exn (option pystr) :=
  (read_at file_reads vault_key r (after_reads file_reads vault_key rs ((vault_store fresh_state).2, filed_entry.2))).1.

