(* ===== verification/Wrapper.v ===== *)
(** The functions a decorator returns
    ([create_cache_wrapper] in [src/src/cachekit/decorators/wrapper.py]): the
    synchronous and asynchronous call paths, stale-while-revalidate refreshes and
    invalidation: definitions.

    [W] is the state outside the closure (backends, serializer, the application),
    [B] the backend objects, [V] the values.  [clock] and [jitter] give the n-th
    reading of a clock and of [random.uniform(0.9, 1.1)].  Statistics export, log
    lines, spans and correlation identifiers are left out.  An asynchronous call
    is modelled from its first to its last statement without other tasks in between. *)
From Stdlib Require Import ZArith Lia SpecFloat.
From stdpp Require Import base list numbers option strings gmap.
From S2P Require Import Prelude PyFloat PyDict Bytes PyValue Interop KeyGenerator.
From S2P Require Import L1Cache ObjectCache CircuitBreaker FunctionStats Signature Errors Effects Orchestrator Serializers Handler.

Local Open Scope Z_scope.
Local Open Scope eff_scope.

Definition _L1_SWR_MAX_CONCURRENT_REFRESHES : Z := 32.
Definition _L2_SWR_MAX_CONCURRENT_REFRESHES : Z := 32.

(** A call of the decorated function. *)
Record call := mkCall { args : list pyval; kwargs : list (pystr * pyval) }.

Definition bypasses (c : call) : bool := od_mem (u "_bypass_cache") (kwargs c).
Definition without_bypass (c : call) : call := mkCall (args c) (od_pop (u "_bypass_cache") (kwargs c)).

Inductive clock_name := Time | Monotonic | PerfCounter.

(** What runs in the background. *)
Inductive job :=
  | RefreshObject (key : pystr) (version : Z) (c : call)
  | Revalidate (key : pystr) (c : call)
  | RefreshTtl (key : pystr) (ttl : Z).

(** The revalidation slots of [_l2_swr_try_begin] and [_l2_swr_end]. *)
Record scheduler := mkScheduler {
  _l2_swr_inflight : gset pystr;
  _l2_swr_slots : Z;
  _l2_swr_pid : Z
}.

Definition new_scheduler (pid : Z) : scheduler := mkScheduler ∅ _L2_SWR_MAX_CONCURRENT_REFRESHES pid.

Definition _l2_swr_try_begin (getpid : Z) (key : pystr) (s : scheduler) : bool * scheduler :=
  let s := if bool_decide (_l2_swr_pid s = getpid) then s else new_scheduler getpid in
  if bool_decide (key ∈ _l2_swr_inflight s) then (false, s)
  else if _l2_swr_slots s <=? 0 then (false, s)
  else (true, mkScheduler ({[key]} ∪ _l2_swr_inflight s) (_l2_swr_slots s - 1) (_l2_swr_pid s)).

(** A [BoundedSemaphore] refuses a release it did not grant. *)
Definition _l2_swr_end (key : pystr) (s : scheduler) : result py_exn scheduler :=
  let s' := mkScheduler (_l2_swr_inflight s ∖ {[key]}) (_l2_swr_slots s) (_l2_swr_pid s) in
  if _l2_swr_slots s' <? _L2_SWR_MAX_CONCURRENT_REFRESHES
  then Ok (mkScheduler (_l2_swr_inflight s') (_l2_swr_slots s' + 1) (_l2_swr_pid s'))
  else Err ValueError.

(** The variables of the closure, the state they share with the process, and what
    is scheduled. *)
Record closure (W V B : Type) := mkClosure {
  ext : W;
  ticks : nat;
  getpid : Z;
  _l1_cache : L1Cache.L1Cache;
  _object_cache : option (@ObjectCache.ObjectCache V);
  _circuit_breaker : option CircuitBreaker;
  _stats : _FunctionStats;
  _current_function_stats : option pystr;
  _cached_keys : gset pystr;
  _backend : option B;
  l2_swr : scheduler;
  _l1_swr_slots : Z;
  _l1_swr_pid : Z;
  tasks : list job
}.
Arguments mkClosure {W V B}.
Arguments ext {W V B}.
Arguments ticks {W V B}.
Arguments getpid {W V B}.
Arguments _l1_cache {W V B}.
Arguments _object_cache {W V B}.
Arguments _circuit_breaker {W V B}.
Arguments _stats {W V B}.
Arguments _current_function_stats {W V B}.
Arguments _cached_keys {W V B}.
Arguments _backend {W V B}.
Arguments l2_swr {W V B}.
Arguments _l1_swr_slots {W V B}.
Arguments _l1_swr_pid {W V B}.
Arguments tasks {W V B}.

Section Fields.
Context {W V B : Type}.
Local Abbreviation C := (closure W V B).

Definition with_ext (s : C) x : C := mkClosure x (ticks s) (getpid s) (_l1_cache s) (_object_cache s)
  (_circuit_breaker s) (_stats s) (_current_function_stats s) (_cached_keys s) (_backend s) (l2_swr s)
  (_l1_swr_slots s) (_l1_swr_pid s) (tasks s).
Definition with_ticks (s : C) x : C := mkClosure (ext s) x (getpid s) (_l1_cache s) (_object_cache s)
  (_circuit_breaker s) (_stats s) (_current_function_stats s) (_cached_keys s) (_backend s) (l2_swr s)
  (_l1_swr_slots s) (_l1_swr_pid s) (tasks s).
Definition with_l1_cache (s : C) x : C := mkClosure (ext s) (ticks s) (getpid s) x (_object_cache s)
  (_circuit_breaker s) (_stats s) (_current_function_stats s) (_cached_keys s) (_backend s) (l2_swr s)
  (_l1_swr_slots s) (_l1_swr_pid s) (tasks s).
Definition with_objects (s : C) x : C := mkClosure (ext s) (ticks s) (getpid s) (_l1_cache s) x
  (_circuit_breaker s) (_stats s) (_current_function_stats s) (_cached_keys s) (_backend s) (l2_swr s)
  (_l1_swr_slots s) (_l1_swr_pid s) (tasks s).
Definition with_breaker (s : C) x : C := mkClosure (ext s) (ticks s) (getpid s) (_l1_cache s) (_object_cache s)
  x (_stats s) (_current_function_stats s) (_cached_keys s) (_backend s) (l2_swr s)
  (_l1_swr_slots s) (_l1_swr_pid s) (tasks s).
Definition with_stats (s : C) x : C := mkClosure (ext s) (ticks s) (getpid s) (_l1_cache s) (_object_cache s)
  (_circuit_breaker s) x (_current_function_stats s) (_cached_keys s) (_backend s) (l2_swr s)
  (_l1_swr_slots s) (_l1_swr_pid s) (tasks s).
Definition with_context (s : C) x : C := mkClosure (ext s) (ticks s) (getpid s) (_l1_cache s) (_object_cache s)
  (_circuit_breaker s) (_stats s) x (_cached_keys s) (_backend s) (l2_swr s)
  (_l1_swr_slots s) (_l1_swr_pid s) (tasks s).
Definition with_keys (s : C) x : C := mkClosure (ext s) (ticks s) (getpid s) (_l1_cache s) (_object_cache s)
  (_circuit_breaker s) (_stats s) (_current_function_stats s) x (_backend s) (l2_swr s)
  (_l1_swr_slots s) (_l1_swr_pid s) (tasks s).
Definition with_backend (s : C) x : C := mkClosure (ext s) (ticks s) (getpid s) (_l1_cache s) (_object_cache s)
  (_circuit_breaker s) (_stats s) (_current_function_stats s) (_cached_keys s) x (l2_swr s)
  (_l1_swr_slots s) (_l1_swr_pid s) (tasks s).
Definition with_scheduler (s : C) x : C := mkClosure (ext s) (ticks s) (getpid s) (_l1_cache s) (_object_cache s)
  (_circuit_breaker s) (_stats s) (_current_function_stats s) (_cached_keys s) (_backend s) x
  (_l1_swr_slots s) (_l1_swr_pid s) (tasks s).
Definition with_l1_swr (s : C) n p : C := mkClosure (ext s) (ticks s) (getpid s) (_l1_cache s) (_object_cache s)
  (_circuit_breaker s) (_stats s) (_current_function_stats s) (_cached_keys s) (_backend s) (l2_swr s)
  n p (tasks s).
Definition with_tasks (s : C) x : C := mkClosure (ext s) (ticks s) (getpid s) (_l1_cache s) (_object_cache s)
  (_circuit_breaker s) (_stats s) (_current_function_stats s) (_cached_keys s) (_backend s) (l2_swr s)
  (_l1_swr_slots s) (_l1_swr_pid s) x.

(** A computation on the state outside the closure. *)
Definition on_ext {A} (m : eff W A) : eff C A := fun s =>
  let (r, w) := m (ext s) in (r, with_ext s w).

Definition lift_context (c : async_context W) : async_context C :=
  mkContext (on_ext (aenter c)) (fun got x => on_ext (aexit c got x)).

(** A backend or a serialization handler, seen from the closure. *)
Definition lift_backend {Hd P} (b : backend W Hd P) : backend C Hd P := {|
  b_get k := on_ext (b_get b k);
  b_set k v t := on_ext (b_set b k v t);
  b_delete k := on_ext (b_delete b k);
  b_get_buffer := (fun f k => on_ext (f k)) <$> b_get_buffer b;
  b_view hd s := b_view b hd (ext s);
  b_close hd := on_ext (b_close b hd);
  b_set_streaming := (fun f k p t => on_ext (f k p t)) <$> b_set_streaming b;
  b_swr := (fun gs => (fun k => on_ext (gs.1 k), fun k v t st => on_ext (gs.2 k v t st))) <$> b_swr b;
  b_ttl := (fun gr => (fun k => on_ext (gr.1 k), fun k t => on_ext (gr.2 k t))) <$> b_ttl b;
  b_lock := (fun f waits k => lift_context (f waits k)) <$> b_lock b
|}.

Definition lift_serialization {P} (h : serialization W V P call) : serialization C V P call := {|
  supports_mmap_read := supports_mmap_read h;
  supports_streaming := supports_streaming h;
  encryption_fail_closed := encryption_fail_closed h;
  serialize_data v c key := on_ext (serialize_data h v c key);
  deserialize_data d key := on_ext (deserialize_data h d key);
  write_serialized_to := write_serialized_to h
|}.
End Fields.

(** ** The decorated function *)

(** What decoration fixes. *)
Record decorated (W V B Hd P : Type) := mkDecorated {
  func : call -> eff (closure W V B) V;
  module : pystr;
  qualname : pystr;
  func_hash : pystr;
  parameters : list parameter;
  is_coroutine : bool;
  ttl : option Z;
  _stale_ttl : option Z;
  namespace : option pystr;
  integrity_checking : bool;
  refresh_ttl_on_get : bool;
  threshold : float;
  fast_mode : bool;
  l1_on : bool;                     (* _l1_cache is not None *)
  _l1_only_mode : bool;
  _l1_swr_active : bool;
  interop : option pystr;
  (* a key function: its text, or None for a value that is not a str *)
  custom_key_func : option (call -> result exn (option pystr));
  serializer : serialization W V P call;
  methods : B -> backend W Hd P;
  key_prefixes : B -> W -> option pystr * option pystr;
  get_backend : eff W B;            (* of the backend provider *)
  acquire_permit : W -> option BackendError
}.
Arguments func {W V B Hd P}.
Arguments module {W V B Hd P}.
Arguments qualname {W V B Hd P}.
Arguments func_hash {W V B Hd P}.
Arguments parameters {W V B Hd P}.
Arguments is_coroutine {W V B Hd P}.
Arguments ttl {W V B Hd P}.
Arguments _stale_ttl {W V B Hd P}.
Arguments namespace {W V B Hd P}.
Arguments integrity_checking {W V B Hd P}.
Arguments refresh_ttl_on_get {W V B Hd P}.
Arguments threshold {W V B Hd P}.
Arguments fast_mode {W V B Hd P}.
Arguments l1_on {W V B Hd P}.
Arguments _l1_only_mode {W V B Hd P}.
Arguments _l1_swr_active {W V B Hd P}.
Arguments interop {W V B Hd P}.
Arguments custom_key_func {W V B Hd P}.
Arguments serializer {W V B Hd P}.
Arguments methods {W V B Hd P}.
Arguments key_prefixes {W V B Hd P}.
Arguments get_backend {W V B Hd P}.
Arguments acquire_permit {W V B Hd P}.

Section Wrapper.
Context {W V B Hd P : Type}.
Context (clock : clock_name -> nat -> float) (jitter : nat -> float).
Context (estimate : V -> Z).                          (* _estimate_object_size *)
Context (blake2b : Z -> pybytes -> pybytes) (blake3 : pybytes -> pybytes).
Context (packb : pyval -> result py_exn pybytes).
Context (str_call : call -> result exn pystr).        (* str(args) + str(kwargs) *)
Context (str_value : V -> result exn pystr).          (* str(value), of None "" *)
Context (deepcopyable : call -> bool).
Context (thread_starts : W -> bool).
Context (original_of : BackendError -> option exn).   (* the object original_exception holds *)
Context (set_order : gset pystr -> list pystr).       (* the iteration order of a set *)

Local Abbreviation C := (closure W V B).
Local Abbreviation wrapped := (decorated W V B Hd P).

(** ** Clocks, caches and statistics *)

Definition reading (c : clock_name) : eff C float := fun s =>
  (Ok (clock c (ticks s)), with_ticks s (S (ticks s))).
Definition uniform : eff C float := fun s => (Ok (jitter (ticks s)), with_ticks s (S (ticks s))).

Definition l1_get (key : pystr) : eff C (option pybytes) :=
  now <~ reading Time ;;
  fun s => let (r, c) := L1Cache.get now key (_l1_cache s) in (Ok r, with_l1_cache s c).
Definition l1_put (d : wrapped) (key : pystr) (bs : pybytes) : eff C unit :=
  now <~ reading Time ;;
  fun s => match L1Cache.put now key (VBytes bs) (fofZ <$> ttl d) None (_l1_cache s) with
           | Ok c => (Ok tt, with_l1_cache s c)
           | Err e => (Err (PyExn e), s)
           end.
Definition l1_invalidate (key : pystr) : eff C unit :=
  modify (fun s => with_l1_cache s (L1Cache.invalidate key (_l1_cache s))).

Definition track (key : pystr) : eff C unit := modify (fun s => with_keys s ({[key]} ∪ _cached_keys s)).
Definition untrack (key : pystr) : eff C unit := modify (fun s => with_keys s (_cached_keys s ∖ {[key]})).

Definition success : eff C unit := modify (fun s => with_breaker s (record_success (_circuit_breaker s))).
Definition failure (x : exn) : eff C unit :=
  now <~ reading Time ;; modify (fun s => with_breaker s (record_failure now x (_circuit_breaker s))).

Definition stat (f : float -> _FunctionStats -> _FunctionStats) : eff C unit :=
  now <~ reading Time ;; modify (fun s => with_stats s (f now (_stats s))).

Definition set_stats (d : wrapped) : eff C (option pystr) := fun s =>
  let (token, v) := set_current_function_stats (Some (_function_identifier (_stats s))) (_current_function_stats s) in
  (Ok token, with_context s v).
Definition reset_stats (token : option pystr) : eff C unit :=
  modify (fun s => with_context s (reset_current_function_stats token (_current_function_stats s))).

(** ** Handlers *)

(** [_on_l2_deserialize_error] *)
Definition _on_l2_deserialize_error (k : serialization_error) (key : pystr) : eff C unit :=
  failure (SerializationExn k).

(** [StandardCacheHandler(_backend, ...)] *)
Definition handler (d : wrapped) (b : B) : StandardCacheHandler C Hd P :=
  Handler.mkHandler (lift_backend (methods d b)) (fun s => acquire_permit d (ext s)) (threshold d).

Definition operation (d : wrapped) (b : B) : CacheOperationHandler C V Hd P call :=
  set_cache_handler
    (mkOperation (lift_serialization (serializer d)) None (Some _on_l2_deserialize_error)) (handler d b).

Definition resolve (d : wrapped) : eff C B :=
  known <~ gets _backend ;;
  match known with
  | Some b => ret b
  | None => b <~ on_ext (get_backend d) ;; modify (fun s => with_backend s (Some b)) ;;~ ret b
  end.

(** [ensure_interop_backend_compatible(_backend)] *)
Definition ensure_compatible (d : wrapped) (b : option B) : eff C unit :=
  w <~ gets ext ;; lift (of_interop (ensure_interop_backend_compatible ((fun b => key_prefixes d b w) <$> b))).

(** ** Keys *)

(** [namespace or "default"] *)
Definition namespace_or_default (d : wrapped) : pystr :=
  match namespace d with Some (x :: r) => x :: r | _ => u "default" end.

Definition keyed_kwargs (c : call) : list (pykey * pyval) := keyed (kwargs c).

Definition _interop_cache_key (d : wrapped) (op : pystr) (c : call) : result exn pystr :=
  rbind (of_interop (bind_flat_args (parameters d) (args c) (kwargs c))) (fun flat =>
  of_interop (generate_interop_key blake2b (default [] (namespace d)) op flat)).

Definition auto_key (d : wrapped) (c : call) : result exn pystr :=
  py (get_cache_key blake2b packb (module d) (qualname d) (args c) (keyed_kwargs c) (namespace d) (integrity_checking d)).

Definition make_key (d : wrapped) (c : call) : result exn pystr :=
  match interop d, custom_key_func d with
  | Some op, _ => _interop_cache_key d op c
  | None, Some kf =>
      rbind (kf c) (fun r => match r with
                             | Some k => Ok (namespace_or_default d ++ u ":" ++ k)
                             | None => Err (PyExn TypeError)
                             end)
  | None, None =>
      if fast_mode d then
        rbind (str_call c) (fun t => rbind (py (cache_key_hash blake3 t)) (fun h =>
          Ok (namespace_or_default d ++ u ":" ++ func_hash d ++ u ":" ++ h)))
      else auto_key d c
  end.

(** ** Stale-while-revalidate *)

Definition _put_l1 (d : wrapped) (key : pystr) (bs : pybytes) : eff C unit :=
  if l1_on d && negb (bool_decide (key = [])) then l1_put d key bs else ret tt.

Definition begin_swr (key : pystr) : eff C bool := fun s =>
  let (r, sc) := _l2_swr_try_begin (getpid s) key (l2_swr s) in (Ok r, with_scheduler s sc).
Definition end_swr (key : pystr) : eff C unit := fun s =>
  match _l2_swr_end key (l2_swr s) with
  | Ok sc => (Ok tt, with_scheduler s sc)
  | Err e => (Err (PyExn e), s)
  end.

Definition spawn (j : job) : eff C unit := modify (fun s => with_tasks s (tasks s ++ [j])).
(** [Thread(...).start()]: [RuntimeError] when the system refuses. *)
Definition start_thread (j : job) : eff C unit := fun s =>
  if thread_starts (ext s) then spawn j s else (Err RuntimeError, s).

Definition _l2_swr_schedule (d : wrapped) (key : pystr) (c : call) (is_async : bool) : eff C unit :=
  begun <~ begin_swr key ;;
  if negb begun then ret tt
  else if negb (deepcopyable c) then end_swr key
  else trying (if is_async then spawn (Revalidate key c) else start_thread (Revalidate key c))
         (fun _ => end_swr key).

(** The function again, its value stored and put in L1. *)
Definition recompute_store (d : wrapped) (b : B) (key : pystr) (c : call) : eff C unit :=
  result <~ func d c ;;
  data <~ Handler.serialize_data (lift_serialization (serializer d)) result c key ;;
  Handler.set (handler d b) key data (ttl d) (_stale_ttl d) ;;~
  _put_l1 d key data.

(** [async with c as got: body got]; [None] when leaving swallowed an exception. *)
Definition async_with {A} (c : async_context C) (body : bool -> eff C A) : eff C (option A) :=
  got <~ aenter c ;;
  r <~ attempt (body got) ;;
  out <~ aexit c got (match r with Ok _ => None | Err x => Some x end) ;;
  match out, r with
  | Some y, _ => throw y
  | None, Ok a => ret (Some a)
  | None, Err _ => ret None
  end.

Definition silently (m : eff C unit) : eff C unit := trying m (fun _ => ret tt).

(** [operation_handler.cache_handler], the backend once resolved. *)
Definition last_backend : eff C B :=
  known <~ gets _backend ;; match known with Some b => ret b | None => throw OtherError end.

Definition _l2_swr_revalidate_sync (d : wrapped) (key : pystr) (c : call) : eff C unit :=
  finally (silently (b <~ last_backend ;; recompute_store d b key c)) (end_swr key).

Definition _l2_swr_revalidate_async (d : wrapped) (key : pystr) (c : call) : eff C unit :=
  finally
    (silently
       (b <~ last_backend ;;
        match b_lock (lift_backend (methods d b)) with
        | Some lock =>
            async_with (lock false key) (fun got => if got then recompute_store d b key c else ret tt) ;;~ ret tt
        | None => recompute_store d b key c
        end))
    (end_swr key).

(** ** The object cache of the L1-only mode *)

(** A method of [_object_cache]; the callers have checked that there is one. *)
Definition on_objects {A} (f : ObjectCache V -> result exn (A * ObjectCache V)) : eff C A := fun s =>
  match _object_cache s with
  | Some c =>
      match f c with
      | Ok (a, c') => (Ok a, with_objects s (Some c'))
      | Err x => (Err x, s)
      end
  | None => (Err OtherError, s)
  end.

Definition objects_get (key : pystr) : eff C (option V) :=
  now <~ reading Monotonic ;; on_objects (fun c => Ok (ObjectCache.get now key c)).

Definition objects_get_with_swr (key : pystr) (ttl : Z) : eff C (@ObjectCache.swr_result V) :=
  now <~ reading Monotonic ;; j <~ uniform ;;
  on_objects (fun c => Ok (ObjectCache.get_with_swr now j key (fofZ ttl) c)).

Definition objects_put (key : pystr) (v : V) (ttl : Z) : eff C unit :=
  now' <~ reading Monotonic ;; now <~ reading Monotonic ;;
  on_objects (fun c => match ObjectCache.put estimate now' now key v (fofZ ttl) c with
                       | Ok c' => Ok (tt, c') | Err e => Err (PyExn e) end).

Definition objects_delete (key : pystr) : eff C unit :=
  on_objects (fun c => Ok (tt, (ObjectCache.delete key c).2)).

Definition objects_cancel (key : pystr) (version : Z) : eff C unit :=
  on_objects (fun c => Ok (tt, ObjectCache.cancel_refresh key version c)).

Definition objects_complete (key : pystr) (version : Z) (v : V) (ttl : Z) : eff C unit :=
  now <~ reading Monotonic ;; now' <~ reading Monotonic ;;
  on_objects (fun c => match ObjectCache.complete_refresh estimate now now' key version v (fofZ ttl) c with
                       | Ok (_, c') => Ok (tt, c') | Err e => Err (PyExn e) end).

Definition l1_slots_release : eff C unit := fun s =>
  if _l1_swr_slots s <? _L1_SWR_MAX_CONCURRENT_REFRESHES
  then (Ok tt, with_l1_swr s (_l1_swr_slots s + 1) (_l1_swr_pid s)) else (Err (PyExn ValueError), s).

(** A free slot, if any, after the reset of a forked child. *)
Definition l1_slots_acquire : eff C bool := fun s =>
  let n := if bool_decide (_l1_swr_pid s = getpid s) then _l1_swr_slots s else _L1_SWR_MAX_CONCURRENT_REFRESHES in
  if n <=? 0 then (Ok false, with_l1_swr s n (getpid s)) else (Ok true, with_l1_swr s (n - 1) (getpid s)).

Definition _l1_swr_acquire (key : pystr) (version : Z) (c : call) : eff C (option call) :=
  slot <~ l1_slots_acquire ;;
  if negb slot then objects_cancel key version ;;~ ret None
  else if deepcopyable c then ret (Some c)
  else l1_slots_release ;;~ objects_cancel key version ;;~ ret None.

(** [_l1_swr_refresh_sync] and, up to where its exception is logged,
    [_l1_swr_refresh_async]; a refresh is only scheduled with a TTL. *)
Definition _l1_swr_refresh_sync (d : wrapped) (key : pystr) (version : Z) (c : call) : eff C unit :=
  finally
    (r <~ attempt (func d c) ;;
     match r, ttl d with
     | Ok v, Some t => objects_complete key version v t
     | Ok _, None => ret tt
     | Err _, _ => objects_cancel key version
     end)
    l1_slots_release.

(** A stale hit: a refresh in the background. *)
Definition schedule_refresh (d : wrapped) (key : pystr) (version : Z) (c : call) : eff C unit :=
  snapshot <~ _l1_swr_acquire key version c ;;
  match snapshot with
  | None => ret tt
  | Some c' =>
      if is_coroutine d then spawn (RefreshObject key version c')
      else trying (start_thread (RefreshObject key version c'))
             (fun x => match x with
                       | RuntimeError => l1_slots_release ;;~ objects_cancel key version
                       | _ => throw x
                       end)
  end.

(** What a background job does once it runs. *)
Definition run_job (d : wrapped) (j : job) : eff C unit :=
  match j with
  | RefreshObject key version c => _l1_swr_refresh_sync d key version c
  | Revalidate key c =>
      if is_coroutine d then _l2_swr_revalidate_async d key c else _l2_swr_revalidate_sync d key c
  | RefreshTtl key t =>
      b <~ last_backend ;;
      match b_ttl (lift_backend (methods d b)) with
      | Some (_, refresh) => silently (refresh key t ;;~ ret tt)
      | None => ret tt
      end
  end.

(** The lookup of the L1-only mode. *)
Definition objects_lookup (d : wrapped) (key : pystr) : eff C (@ObjectCache.swr_result V) :=
  match _l1_swr_active d, ttl d with
  | true, Some t => objects_get_with_swr key t
  | _, _ => v <~ objects_get key ;; ret (mkSwr v false 0)
  end.

Definition one_year : Z := 31536000.

(** A miss: the function, its raw result stored. *)
Definition objects_miss (d : wrapped) (key : pystr) (c : call) : eff C V :=
  result <~ func d c ;;
  objects_put key result (default one_year (ttl d)) ;;~
  track key ;;~
  ret result.

(** ** [sync_wrapper] *)

Definition sync_l1_only (d : wrapped) (token : option pystr) (key : pystr) (c : call) : eff C V :=
  found <~ objects_lookup d key ;;
  match swr_value found with
  | Some v =>
      stat record_l1_hit ;;~
      (if needs_refresh found then schedule_refresh d key (version found) c else ret tt) ;;~
      reset_stats token ;;~
      ret v
  | None => stat record_miss ;;~ finally (objects_miss d key c) (reset_stats token)
  end.

(** The breaker check and the backend, once per call. *)
Definition sync_client (d : wrapped) : eff C B :=
  allowed <~ gets (fun s => should_allow_request (_circuit_breaker s)) ;;
  if allowed then resolve d
  else throw (BackendExn (backend_error (u "Circuit breaker OPEN - failing fast") TRANSIENT)).

(** What becomes of L1 bytes that do not decode: whether to fall through to L2. *)
Definition l1_failure (d : wrapped) (key : pystr) (x : exn) : eff C unit :=
  match x with
  | SerializationExn k =>
      l1_invalidate key ;;~
      _ <~ lift (handle_decrypt_failure k (encryption_fail_closed (serializer d))) ;;
      ret tt
  | KeyringConfigurationError => throw KeyringConfigurationError
  | _ => l1_invalidate key
  end.

(** The L1 check; [Some v] is returned to the caller. *)
Definition l1_check (d : wrapped) (key : pystr) : eff C (option V) :=
  if l1_on d && negb (bool_decide (key = [])) then
    found <~ l1_get key ;;
    match found with
    | Some (b :: bs) =>
        r <~ attempt (Handler.deserialize_data (lift_serialization (serializer d)) (b :: bs) key) ;;
        match r with
        | Ok v => success ;;~ stat record_l1_hit ;;~ ret (Some v)
        | Err x => l1_failure d key x ;;~ ret None
        end
    | _ => ret None
    end
  else ret None.

(** [ttl if refresh_ttl_on_get and ttl else None] *)
Definition refresh_ttl (d : wrapped) : option Z :=
  match ttl d with Some t => if refresh_ttl_on_get d && negb (t =? 0) then Some t else None | None => None end.

Definition swr_on (d : wrapped) : bool := bool_decide (is_Some (_stale_ttl d)).

(** The read, with the server's freshness when SWR is on. *)
Definition sync_read (d : wrapped) (b : B) (key : pystr) : eff C (option (V * bool)) :=
  if swr_on d then get_cached_value_with_freshness (operation d b) key
  else v <~ get_cached_value (operation d b) key (refresh_ttl d) ;; ret ((fun v => (v, false)) <$> v).

(** The latency of a read in milliseconds. *)
Definition since (c : clock_name) (start : float) : eff C float :=
  now <~ reading c ;; ret (fmul (fsub now start) (fofZ 1000)).

(** [len(str(value).encode("utf-8"))], for the metrics. *)
Definition value_size (v : V) : eff C unit :=
  lift (rbind (str_value v) (fun t => rbind (py (utf8_encode t)) (fun _ => Ok tt))).

Definition sync_l2 (d : wrapped) (b : B) (token : option pystr) (key : pystr) (c : call) (start : float) : eff C (option V) :=
  r <~ sync_read d b key ;;
  latency <~ since Time start ;;
  match r with
  | None => ret None
  | Some (v, stale) =>
      success ;;~
      value_size v ;;~
      stat (fun now => record_l2_hit now latency) ;;~
      (if stale then _l2_swr_schedule d key c false else ret tt) ;;~
      reset_stats token ;;~
      ret (Some v)
  end.

Definition sync_store (d : wrapped) (b : B) (key : pystr) (result : V) (c : call) : eff C unit :=
  bytes <~ store_result (operation d b) key result (ttl d) c (_stale_ttl d) ;;
  match bytes with
  | Some (x :: r) => if l1_on d && negb (bool_decide (key = [])) then l1_put d key (x :: r) else ret tt
  | _ => ret tt
  end ;;~
  track key ;;~
  success.

(** What a failure to store does once the function has its result. *)
Definition store_failed (x : exn) : eff C unit :=
  match x with InteropError => throw InteropError | _ => failure x end.

Definition sync_miss (d : wrapped) (b : B) (token : option pystr) (key : pystr) (c : call) : eff C V :=
  finally
    (trying
       (result <~ func d c ;;
        trying (sync_store d b key result c) store_failed ;;~
        ret result)
       (fun x => match x with
                 | BackendExn _ => failure x ;;~ func d c
                 | _ => failure x ;;~ throw x
                 end))
    (reset_stats token).

(** [except ...: reset; raise] *)
Definition or_reset {A} (token : option pystr) (m : eff C A) : eff C A :=
  trying m (fun x => reset_stats token ;;~ throw x).

Definition sync_backed (d : wrapped) (token : option pystr) (key : pystr) (c : call) : eff C V :=
  client <~ attempt (sync_client d) ;;
  match client with
  | Err x => failure x ;;~ reset_stats token ;;~ func d c
  | Ok b =>
      or_reset token (match interop d with Some _ => ensure_compatible d (Some b) | None => ret tt end) ;;~
      l1 <~ or_reset token (l1_check d key) ;;
      match l1 with
      | Some v => reset_stats token ;;~ ret v
      | None =>
          start <~ reading Time ;;
          r <~ attempt (sync_l2 d b token key c start) ;;
          match r with
          | Ok (Some v) => ret v
          | Ok None => stat record_miss ;;~ sync_miss d b token key c
          | Err (SerializationExn DecryptionAuthenticationError as x) => reset_stats token ;;~ throw x
          | Err x => failure x ;;~ reset_stats token ;;~ func d c
          end
      end
  end.

Definition sync_wrapper (d : wrapped) (c : call) : eff C V :=
  if bypasses c then func d (without_bypass c)
  else
    token <~ set_stats d ;;
    match make_key d c with
    | Err x =>
        match interop d with
        | Some _ => reset_stats token ;;~ throw x
        | None => failure x ;;~ reset_stats token ;;~ func d c
        end
    | Ok key =>
        if _l1_only_mode d then
          cached <~ gets (fun s => bool_decide (is_Some (_object_cache s))) ;;
          if cached then sync_l1_only d token key c else finally (func d c) (reset_stats token)
        else sync_backed d token key c
    end.

(** ** [async_wrapper] *)

Definition async_l1_only (d : wrapped) (key : pystr) (c : call) : eff C V :=
  found <~ objects_lookup d key ;;
  match swr_value found with
  | Some v =>
      stat record_l1_hit ;;~
      (if needs_refresh found then schedule_refresh d key (version found) c else ret tt) ;;~
      ret v
  | None => stat record_miss ;;~ objects_miss d key c
  end.

(** A read, with the raw envelope and the server's freshness when SWR is on. *)
Definition async_read (d : wrapped) (b : B) (key : pystr) : eff C (option (V * pybytes * bool)) :=
  if swr_on d then get_cached_value_with_freshness_async (operation d b) key
  else r <~ get_cached_value_async (operation d b) key None ;; ret ((fun vd => (vd, false)) <$> r).

(** The envelope of a hit goes to L1. *)
Definition backfill (d : wrapped) (key : pystr) (data : pybytes) : eff C unit :=
  match data with
  | x :: r => if l1_on d && negb (bool_decide (key = [])) then l1_put d key (x :: r) ;;~ track key else ret tt
  | [] => ret tt
  end.

(** The TTL refresh of a hit: read, then extended in the background. *)
Definition maybe_refresh_ttl (d : wrapped) (b : B) (key : pystr) : eff C unit :=
  match refresh_ttl d, b_ttl (lift_backend (methods d b)) with
  | Some t, Some (get_ttl, _) =>
      silently
        (remaining <~ get_ttl key ;;
         match remaining with
         | Some r => if negb (r =? 0) && below_threshold (handler d b) r t then spawn (RefreshTtl key t) else ret tt
         | None => ret tt
         end)
  | _, _ => ret tt
  end.

Definition async_l2 (d : wrapped) (b : B) (key : pystr) (c : call) (start : float) : eff C (option V) :=
  r <~ async_read d b key ;;
  match r with
  | None => ret None
  | Some (v, data, stale) =>
      latency <~ since PerfCounter start ;;
      success ;;~
      (if stale then ret tt else backfill d key data) ;;~
      maybe_refresh_ttl d b key ;;~
      stat (fun now => record_l2_hit now latency) ;;~
      (if stale then _l2_swr_schedule d key c true else ret tt) ;;~
      ret (Some v)
  end.

(** The read again, once the lock is held or waiting for it has timed out. *)
Definition double_check (d : wrapped) (b : B) (key : pystr) : eff C (option V) :=
  trying
    (r <~ get_cached_value_async (operation d b) key None ;;
     match r with
     | Some (v, data) => backfill d key data ;;~ ret (Some v)
     | None => ret None
     end)
    (fun x => match x with
              | SerializationExn DecryptionAuthenticationError => throw x
              | _ => ret None
              end).

Definition async_store (d : wrapped) (b : B) (key : pystr) (result : V) (c : call) : eff C unit :=
  data <~ Handler.serialize_data (lift_serialization (serializer d)) result c key ;;
  Handler.set_async (handler d b) key data (ttl d) (_stale_ttl d) ;;~
  _put_l1 d key data ;;~
  track key ;;~
  success.

(** The function, its value stored. *)
Definition async_compute (d : wrapped) (b : B) (key : pystr) (c : call) : eff C V :=
  result <~ func d c ;;
  trying (async_store d b key result c) store_failed ;;~
  ret result.

Definition under_lock (d : wrapped) (b : B) (key : pystr) (c : call) (acquired : bool) : eff C V :=
  hit <~ double_check d b key ;;
  match hit with
  | Some v => ret v
  | None => async_compute d b key c
  end.

(** An exception of the locked block: whose it is.  [Ok tt]: execute without
    the lock. *)
Definition lock_failure (x : exn) : result exn unit :=
  match x with
  | BackendExn e =>
      match original_of e with
      | None | Some (BackendExn _) => Ok tt
      | Some y => Err y
      end
  | _ => Err x
  end.

Definition without_lock (d : wrapped) (b : B) (key : pystr) (c : call) : eff C V :=
  trying (async_compute d b key c) (fun x => failure x ;;~ throw x).

Definition async_miss (d : wrapped) (b : B) (key : pystr) (c : call) : eff C V :=
  match b_lock (lift_backend (methods d b)) with
  | None => without_lock d b key c
  | Some lock =>
      r <~ attempt (async_with (lock true key) (under_lock d b key c)) ;;
      match r with
      | Ok (Some v) => ret v
      | Ok None => without_lock d b key c
      | Err x => lift (lock_failure x) ;;~ without_lock d b key c
      end
  end.

(** The L2 read and the miss path, over a backend. *)
Definition async_l2_or_miss (d : wrapped) (b : B) (key : pystr) (c : call) : eff C V :=
  start <~ reading PerfCounter ;;
  r <~ attempt (async_l2 d b key c start) ;;
  match r with
  | Ok (Some v) => ret v
  | Ok None => async_miss d b key c
  | Err (SerializationExn DecryptionAuthenticationError as x) => throw x
  | Err x => failure x ;;~ async_miss d b key c
  end.

(** With the backend, or the function alone when there is none to be had. *)
Definition with_client (d : wrapped) (c : call) (k : B -> eff C V) : eff C V :=
  client <~ attempt (resolve d) ;;
  match client with
  | Err x => failure x ;;~ func d c
  | Ok b => k b
  end.

Definition async_l1_then_l2 (d : wrapped) (key : pystr) (c : call) : eff C V :=
  l1 <~ l1_check d key ;;
  match l1 with
  | Some v => ret v
  | None => with_client d c (fun b => async_l2_or_miss d b key c)
  end.

Definition async_backed (d : wrapped) (key : pystr) (c : call) : eff C V :=
  allowed <~ gets (fun s => should_allow_request (_circuit_breaker s)) ;;
  if negb allowed then throw (BackendExn (backend_error (u "Circuit breaker OPEN - failing fast") TRANSIENT))
  else
    match interop d with
    | Some _ => with_client d c (fun b => ensure_compatible d (Some b) ;;~ async_l1_then_l2 d key c)
    | None => async_l1_then_l2 d key c
    end.

Definition async_wrapper (d : wrapped) (c : call) : eff C V :=
  if bypasses c then func d (without_bypass c)
  else
    token <~ set_stats d ;;
    finally
      match make_key d c with
      | Err x =>
          match interop d with
          | Some _ => throw x
          | None => failure x ;;~ func d c
          end
      | Ok key =>
          if _l1_only_mode d then
            cached <~ gets (fun s => bool_decide (is_Some (_object_cache s))) ;;
            if cached then async_l1_only d key c else func d c
          else async_backed d key c
      end
      (reset_stats token).

(** The function the decorator returns. *)
Definition wrapper (d : wrapped) (c : call) : eff C V :=
  if is_coroutine d then async_wrapper d c else sync_wrapper d c.

(** ** Invalidation *)

(** The cache of the process: [_object_cache], or else [_l1_cache]. *)
Definition forget_local (d : wrapped) (key : pystr) : eff C unit :=
  objects <~ gets _object_cache ;;
  match objects with
  | Some _ => objects_delete key
  | None => if l1_on d then l1_invalidate key else ret tt
  end.

(** One key of [invalidate_cache()]; a key the backend fails to delete stays
    tracked. *)
Definition invalidate_tracked (d : wrapped) (b : option B) (key : pystr) : eff C unit :=
  forget_local d key ;;~
  match b with
  | Some b =>
      if _l1_only_mode d then untrack key
      else
        r <~ attempt (b_delete (lift_backend (methods d b)) key) ;;
        match r with Ok _ => untrack key | Err _ => ret tt end
  | None => untrack key
  end.

Fixpoint invalidate_each (d : wrapped) (b : option B) (keys : list pystr) : eff C unit :=
  match keys with
  | [] => ret tt
  | k :: r => invalidate_tracked d b k ;;~ invalidate_each d b r
  end.

Definition invalidation_key (d : wrapped) (c : call) : result exn pystr :=
  match interop d with
  | Some op => _interop_cache_key d op c
  | None => auto_key d c
  end.

Definition invalidate_backend (d : wrapped) (b : B) (key : pystr) (c : call) : eff C unit :=
  match interop d with
  | Some _ => silently (b_delete (lift_backend (methods d b)) key ;;~ ret tt)
  | None =>
      Handler.invalidate_cache blake2b packb
        (set_backend (mkInvalidator None (integrity_checking d)) (lift_backend (methods d b)))
        (module d) (qualname d) (args c) (keyed_kwargs c) (namespace d)
  end.

(** [invalidate_cache] and [ainvalidate_cache] *)
Definition invalidate_cache (d : wrapped) (c : call) : eff C unit :=
  (if _l1_only_mode d then ret tt else silently (resolve d ;;~ ret tt)) ;;~
  b <~ gets _backend ;;
  if bool_decide (args c = []) && bool_decide (kwargs c = []) && negb (bool_decide (parameters d = [])) then
    keys <~ gets _cached_keys ;;
    invalidate_each d b (set_order keys)
  else
    key <~ lift (invalidation_key d c) ;;
    (if bool_decide (key = []) then ret tt else forget_local d key) ;;~
    untrack key ;;~
    match b with
    | Some b => if _l1_only_mode d then ret tt else invalidate_backend d b key c
    | None => ret tt
    end.

(** [cache_clear()] *)
Definition cache_clear (d : wrapped) : eff C unit :=
  modify (fun s => with_stats s (FunctionStats.clear (_stats s))) ;;~
  if is_coroutine d && negb (_l1_only_mode d) then throw (PyExn TypeError)
  else invalidate_cache d (mkCall [] []).

(** [cache_info()] *)
Definition cache_info (process_id : pystr) : eff C CacheInfo := fun s =>
  let (i, st) := get_info process_id (_stats s) in (Ok i, with_stats s st).

Definition check_health (d : wrapped) : eff C (pystr * health_status) :=
  gets (fun s => Orchestrator.check_health (namespace_or_default d) (_circuit_breaker s) None).

End Wrapper.
