(* ===== verification/SingleFlight.v ===== *)
(** Concurrent asynchronous calls that miss ([async_wrapper] in
    [src/src/cachekit/decorators/wrapper.py]): the calls of one key, of one process or of
    several, between their awaits; the lock of the backend and what it makes of a
    thundering herd.

    A step is what a call does from one await to the next.  Removals and expiries of the
    entry happen at any time; a lock is free, held by a call, or, when it is held too
    long, taken away from it.  What a call of its own does is in [Wrapper]; here are
    the steps that many have in common: their L1, the read, the lock, the second
    read, the function and the store. *)
From Stdlib Require Import ZArith Lia.
From stdpp Require Import base list numbers option gmap relations.
From S2P Require Import Prelude.

Section SingleFlight.
(** The values, and which faults there may be. *)
Context {V : Type}.

Inductive fault :=
  | LockTimeout       (* the lock is not had within [blocking_timeout] *)
  | LockError         (* asking for it, or giving it back, raises a [BackendError] *)
  | LockExpiry        (* it is held for longer than [lock_timeout] *)
  | ReadError         (* the second read fails *)
  | BackendRaise.     (* the function raises a [BackendError] of its own *)

Context (may : fault -> Prop).

(** How a call leaves the lock: with a value, an exception, or to run without it. *)
Inductive leaving := WithValue (v : V) | WithError | Again.

(** Where a call is. *)
Inductive line :=
  | AtL1
  | AtL2                         (* [get_cached_value_async] *)
  | AtLock                       (* [acquire_lock] is entered *)
  | AtCheck (acquired : bool)    (* the second read *)
  | InFunction (locked : bool)   (* [await func(...)] *)
  | AtStore (locked : bool) (v : V)
  | AtRelease (how : leaving)    (* [acquire_lock] is left *)
  | Returned (v : V)
  | Raised.

Record task := mkTask { process : nat; at_ : line }.

Record flight := mkFlight {
  tasks : gmap nat task;
  l1 : gmap nat V;           (* of a process *)
  store : option V;          (* the entry of the backend *)
  lock : option nat;         (* the call that holds it *)
  (* what happened: runs begun, values returned, runs that raised, values not stored,
     entries stored, entries removed *)
  runs : nat;
  results : list V;
  raised : nat;
  unstored : nat;
  stores : nat;
  removed : nat
}.

Definition start : flight := mkFlight ∅ ∅ None None 0 [] 0 0 0 0.

Definition move (i : nat) (t : task) (l : line) (s : flight) : flight :=
  mkFlight (<[i := mkTask (process t) l]> (tasks s)) (l1 s) (store s) (lock s) (runs s) (results s) (raised s) (unstored s) (stores s) (removed s).
Definition with_l1 (p : nat) (v : V) (s : flight) : flight :=
  mkFlight (tasks s) (<[p := v]> (l1 s)) (store s) (lock s) (runs s) (results s) (raised s) (unstored s) (stores s) (removed s).
Definition with_lock (k : option nat) (s : flight) : flight :=
  mkFlight (tasks s) (l1 s) (store s) k (runs s) (results s) (raised s) (unstored s) (stores s) (removed s).
Definition run_begun (s : flight) : flight :=
  mkFlight (tasks s) (l1 s) (store s) (lock s) (S (runs s)) (results s) (raised s) (unstored s) (stores s) (removed s).
Definition returned (v : V) (s : flight) : flight :=
  mkFlight (tasks s) (l1 s) (store s) (lock s) (runs s) (v :: results s) (raised s) (unstored s) (stores s) (removed s).
Definition run_raised (s : flight) : flight :=
  mkFlight (tasks s) (l1 s) (store s) (lock s) (runs s) (results s) (S (raised s)) (unstored s) (stores s) (removed s).
Definition stored (v : option V) (s : flight) : flight :=
  match v with
  | Some v => mkFlight (tasks s) (l1 s) (Some v) (lock s) (runs s) (results s) (raised s) (unstored s) (S (stores s)) (removed s)
  | None => mkFlight (tasks s) (l1 s) (store s) (lock s) (runs s) (results s) (raised s) (S (unstored s)) (stores s) (removed s)
  end.

(** After the store: out of the lock, or done. *)
Definition after_store (locked : bool) (v : V) : line := if locked then AtRelease (WithValue v) else Returned v.

(** A step of call [i], which is at the line of [t]. *)
Inductive advance (i : nat) (t : task) (s : flight) : flight -> Prop :=
  | L1Hit v : at_ t = AtL1 -> l1 s !! process t = Some v -> advance i t s (move i t (Returned v) s)
  | L1Miss : at_ t = AtL1 -> l1 s !! process t = None -> advance i t s (move i t AtL2 s)
  | L2Hit v : at_ t = AtL2 -> store s = Some v -> advance i t s (move i t (Returned v) (with_l1 (process t) v s))
  | L2Miss : at_ t = AtL2 -> advance i t s (move i t AtLock s)               (* absent, or unreadable *)
  | Acquired : at_ t = AtLock -> lock s = None -> advance i t s (move i t (AtCheck true) (with_lock (Some i) s))
  | TimedOut : may LockTimeout -> at_ t = AtLock -> advance i t s (move i t (AtCheck false) s)
  | LockFails : may LockError -> at_ t = AtLock -> advance i t s (move i t (InFunction false) (run_begun s))
  | CheckHit b v : at_ t = AtCheck b -> store s = Some v ->
      advance i t s (move i t (after_store b v) (with_l1 (process t) v s))
  | CheckMiss b : at_ t = AtCheck b -> store s = None -> advance i t s (move i t (InFunction b) (run_begun s))
  | CheckFails b : may ReadError -> at_ t = AtCheck b -> advance i t s (move i t (InFunction b) (run_begun s))
  | Returns b v : at_ t = InFunction b -> advance i t s (move i t (AtStore b v) (returned v s))
  | Raises b : at_ t = InFunction b -> advance i t s (move i t (if b then AtRelease WithError else Raised) (run_raised s))
  | RaisesBackend : may BackendRaise -> at_ t = InFunction true -> advance i t s (move i t (AtRelease Again) (run_raised s))
  | Stores b v : at_ t = AtStore b v -> advance i t s (move i t (after_store b v) (with_l1 (process t) v (stored (Some v) s)))
  | StoreFails b v : at_ t = AtStore b v -> advance i t s (move i t (after_store b v) (stored None s))
  | StoreRaises b v : at_ t = AtStore b v ->                                  (* an [InteropError] *)
      advance i t s (move i t (if b then AtRelease WithError else Raised) (stored None s))
  | Released how : at_ t = AtRelease how ->
      advance i t s
        (let s' := with_lock (if decide (lock s = Some i) then None else lock s) s in
         match how with
         | WithValue v => move i t (Returned v) s'
         | WithError => move i t Raised s'
         | Again => move i t (InFunction false) (run_begun s')
         end)
  | ReleaseFails how : may LockError -> at_ t = AtRelease how -> advance i t s (move i t (InFunction false) (run_begun s)).

(** Calls begin at any time; entries vanish from the backend and from an L1. *)
Inductive step : flight -> flight -> Prop :=
  | Calls s i p : tasks s !! i = None -> step s (move i (mkTask p AtL1) AtL1 s)
  | Advances s s' i t : tasks s !! i = Some t -> advance i t s s' -> step s s'
  | Removed s v : store s = Some v ->
      step s (mkFlight (tasks s) (l1 s) None (lock s) (runs s) (results s) (raised s) (unstored s) (stores s) (S (removed s)))
  | Forgotten s p : step s (mkFlight (tasks s) (base.delete p (l1 s)) (store s) (lock s) (runs s) (results s) (raised s) (unstored s)
                              (stores s) (removed s))
  | Expires s i : may LockExpiry -> lock s = Some i -> step s (with_lock None s).

Definition reachable (s : flight) : Prop := rtc step start s.

(** ** One flight *)

(** A call between the lock and its release; one that has begun a run it has not stored. *)
Definition in_lock (l : line) : bool := match l with AtCheck true | InFunction true | AtStore true _ | AtRelease _ => true | _ => false end.
Definition running (l : line) : bool := match l with InFunction _ | AtStore _ _ => true | _ => false end.

Definition finished (l : line) : bool := match l with Returned _ | Raised => true | _ => false end.

(** Whether the call under the lock has begun a run it has not stored. *)
Definition flying (s : flight) : nat :=
  match lock s ≫= (tasks s !!.) with Some t => if running (at_ t) then 1 else 0 | None => 0 end.

(** What holds without faults. *)
Record sound (s : flight) : Prop := mkSound {
  (* the holder of the lock is the one call between lock and release *)
  holder i t : tasks s !! i = Some t -> in_lock (at_ t) = true -> lock s = Some i;
  held i : lock s = Some i -> exists t, tasks s !! i = Some t /\ in_lock (at_ t) = true;
  (* a run is under the lock, and there is no entry then *)
  under i t : tasks s !! i = Some t -> running (at_ t) = true -> in_lock (at_ t) = true /\ store s = None;
  never_again i t : tasks s !! i = Some t -> at_ t <> AtCheck false /\ at_ t <> AtRelease Again;
  (* the books *)
  entries : stores s = (removed s + match store s with Some _ => 1 | None => 0 end)%nat;
  accounts : runs s = (flying s + raised s + unstored s + stores s)%nat;
  (* every value comes from the function *)
  from_l1 p v : l1 s !! p = Some v -> v ∈ results s;
  from_store v : store s = Some v -> v ∈ results s;
  from_task i t : tasks s !! i = Some t ->
    match at_ t with AtStore _ v | AtRelease (WithValue v) | Returned v => v ∈ results s | _ => True end
}.

Lemma flying_move i t l s : flying (move i t l s) =
  if decide (lock s = Some i) then if running l then 1%nat else 0%nat else flying s.
Proof.
  unfold flying, move. cbn. destruct (lock s) as [j|]; [|by rewrite decide_False]. cbn. case_decide as D.
  - injection D as ->. by rewrite lookup_insert_eq.
  - rewrite lookup_insert_ne; [done|]. congruence.
Qed.

(** A call that moves, with what it changes besides. *)
Lemma sound_move s s0 i t l : sound s -> tasks s0 = tasks s ->
  (in_lock l = true <-> lock s0 = Some i) -> (forall j, j <> i -> lock s0 = Some j <-> lock s = Some j) ->
  (running l = true -> store s0 = None) -> (store s0 = store s \/ tasks s !! i = Some t /\ in_lock (at_ t) = true) ->
  (running l = true -> in_lock l = true) -> l <> AtCheck false -> l <> AtRelease Again ->
  stores s0 = (removed s0 + match store s0 with Some _ => 1 | None => 0 end)%nat ->
  runs s0 = (flying (move i t l s0) + raised s0 + unstored s0 + stores s0)%nat ->
  (forall v, v ∈ results s -> v ∈ results s0) -> (forall p v, l1 s0 !! p = Some v -> v ∈ results s0) ->
  (forall v, store s0 = Some v -> v ∈ results s0) ->
  match l with AtStore _ v | AtRelease (WithValue v) | Returned v => v ∈ results s0 | _ => True end ->
  sound (move i t l s0).
Proof.
  intros S T L J R St RL N1 N2 E A M M1 M2 M3.
  assert (Others : forall j t', tasks (move i t l s0) !! j = Some t' -> j = i /\ at_ t' = l \/ j <> i /\ tasks s !! j = Some t').
  { intros j t'. unfold move. cbn. rewrite T. destruct (decide (j = i)) as [->|D]; [rewrite lookup_insert_eq; intros [= <-]; by left|].
    rewrite lookup_insert_ne by done. by right. }
  split; try done.
  - intros j t' [[-> ->]|[D Hj]]%Others I; [by apply L|]. cbn. apply J; [done|]. by eapply holder.
  - cbn. intros j Hj. rewrite T. destruct (decide (j = i)) as [->|D].
    + rewrite lookup_insert_eq. eexists. split; [done|]. by apply L.
    + rewrite lookup_insert_ne by done. apply held; [done|]. by apply J.
  - intros j t' [[-> ->]|[D Hj]]%Others Rj; [split; [by apply RL|by apply R]|]. destruct (under s S j t' Hj Rj) as [I Es]. split; [done|].
    cbn. destruct St as [->|[Ht It]]; [done|]. pose proof (holder s S i t Ht It) as K. rewrite (holder s S j t' Hj I) in K. congruence.
  - intros j t' [[-> ->]|[D Hj]]%Others; [done|by eapply never_again].
  - intros j t' [[-> ->]|[D Hj]]%Others; [done|]. pose proof (from_task s S j t' Hj) as F.
    cbn [results move]. destruct (at_ t') as [| | | | | |[]| |]; auto.
Qed.

Context (no_fault : forall f, ~ may f).

(** The premises of [sound_move], by what the state before says. *)
Ltac lookups := repeat match goal with
  | H : <[?p := _]> _ !! ?q = Some _ |- _ => destruct (decide (p = q)) as [<-|];
      [rewrite lookup_insert_eq in H; injection H as <-|rewrite lookup_insert_ne in H by done]
  end.

Lemma advance_sound i t s s' : sound s -> tasks s !! i = Some t -> advance i t s s' -> sound s'.
Proof.
  intros S Ht A. pose proof (accounts s S) as Ac. pose proof (entries s S) as En.
  pose proof (from_l1 s S) as F1. pose proof (from_store s S) as F2. pose proof (from_task s S i t Ht) as F3.
  assert (LK : in_lock (at_ t) = true -> lock s = Some i) by (by eapply holder).
  assert (KL : lock s = Some i -> in_lock (at_ t) = true) by (intros K; destruct (held s S i K) as (t' & Ht' & I); congruence).
  assert (Fl : lock s = Some i -> flying s = if running (at_ t) then 1%nat else 0%nat) by (intros K; unfold flying; rewrite K; cbn; by rewrite Ht).
  assert (Fn : lock s = None -> flying s = 0%nat) by (intros K; unfold flying; by rewrite K).
  assert (Nx := never_again s S i t Ht). pose proof (under s S i t Ht) as Un.
  destruct A; try (exfalso; by eapply no_fault);
    match goal with H : at_ t = _ |- _ => rename H into Hat; rewrite Hat in F3, LK, KL, Fl, Nx, Un; cbn [in_lock running] in * end;
    try (destruct b; [|exfalso; first [by destruct Nx|by destruct (Un eq_refl)]]);
    try (destruct how as [v| |]; [| |exfalso; by destruct Nx]); try (pose proof (Un eq_refl) as [_ Es]);
    try (assert (K0 : lock s = Some i) by (by apply LK)); cbn zeta; try (rewrite decide_True by done).
  all: apply (sound_move s _ i t); try done; try (by left); try (right; split; [done|by rewrite Hat]).
  all: try (rewrite flying_move; cbn in *; case_decide; rewrite ?Es in *; try (rewrite Fl in Ac by congruence); try (rewrite Fn in Ac by done); try done; try congruence; lia).
  all: cbn in *; rewrite ?Es in *; try done; try lia; try (by intros; lookups; eauto using list_elem_of_here, list_elem_of_further).
  all: try (split; intros; congruence).
  all: try (split; intros Q; [done|by apply KL in Q]).
  all: auto using list_elem_of_here, list_elem_of_further.
  by intros ? [= <-].
Qed.

Lemma step_sound s s' : sound s -> step s s' -> sound s'.
Proof.
  intros S St. destruct St as [s i p N|s s' i t Ht A|s v E|s p|s i F _].
  - pose proof (accounts s S) as Ac. pose proof (entries s S) as En. pose proof (from_l1 s S) as F1. pose proof (from_store s S) as F2.
    assert (K : lock s <> Some i) by (intros K; destruct (held s S i K) as (t & Ht & _); congruence).
    apply (sound_move s s i _ AtL1); try done; [by left|]. by rewrite flying_move, decide_False.
  - by eapply advance_sound.
  - pose proof (accounts s S) as Ac. pose proof (entries s S) as En. rewrite E in En. destruct S as [H1 H2 H3 H4 _ _ H5 H6 H7].
    split; try done; [|cbn; lia]. intros i t Ht R. destruct (H3 i t Ht R) as [? _]. done.
  - destruct S as [H1 H2 H3 H4 H5 H6 H7 H8 H9]. split; try done. cbn. intros q v [_ Hv]%lookup_delete_Some. by eapply H7.
  - by destruct (no_fault LockExpiry).
Qed.

Lemma reachable_sound s : reachable s -> sound s.
Proof.
  intros R. unfold reachable in R. remember start as s0 eqn:E. assert (I : sound s0) by (subst; split; done || by intros).
  clear E. induction R as [|s0 s1 s2 St _ IH]; [done|]. by apply IH, (step_sound s0).
Qed.

(** C9. Concurrent calls of one key run the function once: as long as the lock is had,
    kept and given back and can be read under, whatever else happens and however the calls of all processes
    interleave, never do two calls run the function at a time, or one while the entry is
    there; the function is run at most once more than entries were removed, runs raised
    and values could not be stored; and every call that returns, returns a value of the
    function. *)
Theorem one_call_runs_it s : reachable s ->
  (forall i j t t', tasks s !! i = Some t -> tasks s !! j = Some t' -> running (at_ t) = true -> running (at_ t') = true ->
     i = j /\ store s = None) /\
  (runs s <= 1 + removed s + raised s + unstored s)%nat /\
  (forall i t v, tasks s !! i = Some t -> at_ t = Returned v -> v ∈ results s).
Proof.
  intros S%reachable_sound. split_and!.
  - intros i j t t' Hi Hj Ri Rj. destruct (under s S i t Hi Ri) as [Li E], (under s S j t' Hj Rj) as [Lj _].
    pose proof (holder s S i t Hi Li) as K. rewrite (holder s S j t' Hj Lj) in K. split; [congruence|done].
  - rewrite (accounts s S), (entries s S). unfold flying. destruct (lock s) as [i|] eqn:K; cbn; [|destruct (store s); lia].
    destruct (held s S i K) as (t & Ht & _). rewrite Ht. destruct (running (at_ t)) eqn:R; [|destruct (store s); lia].
    destruct (under s S i t Ht R) as [_ ->]. lia.
  - intros i t v Ht E. pose proof (from_task s S i t Ht) as F. by rewrite E in F.
Qed.

(** ** Every call ends *)

(** How many moves a call has left at most. *)
Definition rank (l : line) : nat :=
  match l with
  | AtL1 => 14 | AtL2 => 13 | AtLock => 12 | AtCheck _ => 11
  | InFunction true => 10 | AtStore true _ => 9 | AtRelease _ => 8
  | InFunction false => 4 | AtStore false _ => 3
  | Returned _ | Raised => 0
  end.
End SingleFlight.

Section Liveness.
Context {V : Type} (may : fault -> Prop).
Local Abbreviation flight := (flight (V := V)).

Lemma advance_rank i t (s s' : flight) : advance may i t s s' ->
  exists l, tasks s' !! i = Some (mkTask (process t) l) /\ (rank l < rank (at_ t))%nat /\ forall j, j <> i -> tasks s' !! j = tasks s !! j.
Proof.
  intros A. destruct A; match goal with H : at_ t = _ |- _ => rewrite H end; cbn zeta; try destruct how; try destruct b;
    unfold move; cbn; (eexists; split; [apply lookup_insert_eq|]); (split; [cbn; lia|]); intros j N; by rewrite lookup_insert_ne.
Qed.

(** A call that has not ended can move, unless it waits for the lock. *)
Lemma can_move i t (s : flight) : tasks s !! i = Some t -> finished (at_ t) = false -> (at_ t = AtLock -> lock s = None) ->
  exists s', advance may i t s s'.
Proof.
  intros Ht F L. destruct (at_ t) as [| | |b|b|b v|how|v|] eqn:E; try done.
  - destruct (l1 s !! process t) as [v|] eqn:E1; eexists; [by eapply L1Hit|by eapply L1Miss].
  - eexists. by eapply L2Miss.
  - eexists. by eapply Acquired; [|apply L].
  - destruct (store s) as [v|] eqn:E1; eexists; [by eapply CheckHit|by eapply CheckMiss].
  - eexists. by eapply Raises.
  - eexists. by eapply Stores.
  - eexists. by eapply Released.
Qed.

(** C17. Every call ends: whichever of the faults there are, a call makes at most fourteen moves of
    its own, each of which brings it nearer to its end and leaves the other calls where
    they are; without faults, a call that has not ended can move, or waits for the lock
    of a call that can. *)
Theorem nobody_waits_for_ever (s : flight) i t : reachable may s -> tasks s !! i = Some t ->
  (forall s', advance may i t s s' -> exists l, tasks s' !! i = Some (mkTask (process t) l) /\ (rank l < rank (at_ t) <= 14)%nat /\
     forall j, j <> i -> tasks s' !! j = tasks s !! j) /\
  (finished (at_ t) = false -> (forall f, ~ may f) ->
     (exists s', advance may i t s s') \/
     at_ t = AtLock /\ exists j u s', lock s = Some j /\ tasks s !! j = Some u /\ j <> i /\ advance may j u s s').
Proof.
  intros R Ht. split.
  - intros s' A. destruct (advance_rank _ _ _ _ A) as (l & E & L & O). exists l. split; [done|]. split; [|done].
    split; [done|]. clear. destruct (at_ t) as [| | |b|[]|[] v|how|v|]; cbn; lia.
  - intros F N. pose proof (reachable_sound may N s R) as S. destruct (lock s) as [j|] eqn:K.
    + destruct (held s S j K) as (u & Hu & Lu). assert (W : at_ t = AtLock \/ at_ t <> AtLock) by (destruct (at_ t); by (left + right)). destruct W as [E|E].
      * right. split; [done|]. exists j, u. destruct (can_move j u s Hu) as [s' A].
        -- by destruct (at_ u) as [| | |[]|[]|[]| | |].
        -- intros E'. by rewrite E' in Lu.
        -- exists s'. split_and!; try done. intros ->. rewrite Hu in Ht. injection Ht as ->. by rewrite E in Lu.
      * left. by apply can_move.
    + left. by apply can_move.
Qed.

(** ** A herd after all *)

(** Of a function that takes longer than the lock is waited for, every call that misses
    runs it, all at a time: the lock is for the first, the others go on without it. *)
Theorem slow_function_runs_for_each n : may LockTimeout -> exists s : flight, reachable may s /\ runs s = n /\ results s = [] /\
  forall i, (i < n)%nat -> exists b, tasks s !! i = Some (mkTask i (InFunction b)).
Proof.
  intros T. enough (exists s : flight, reachable may s /\ runs s = n /\ results s = [] /\ l1 s = ∅ /\ store s = None /\
    (n = 0%nat -> lock s = None) /\ (forall i, (n <= i)%nat -> tasks s !! i = None) /\
    forall i, (i < n)%nat -> exists b, tasks s !! i = Some (mkTask i (InFunction b))) as (s & ?); [exists s; naive_solver|].
  induction n as [|n (s & R & Rn & Rs & L1 & St & Lk & New & Old)]; [exists start; split_and!; try done; [apply rtc_refl|lia]|].
  set (t l := mkTask (V := V) n l).
  set (b := if decide (n = 0%nat) then true else false). set (k := if b then Some n else lock s).
  set (s1 := move n (t AtL1) AtL1 s). set (s2 := move n (t AtL1) AtL2 s1). set (s3 := move n (t AtL2) AtLock s2).
  set (s4 := move n (t AtLock) (AtCheck b) (with_lock k s3)). set (s5 := move n (t (AtCheck b)) (InFunction b) (run_begun s4)).
  exists s5. split.
  { unfold reachable in *. etrans; [exact R|]. eapply rtc_l; [apply (Calls may s n n); by apply New|].
    eapply rtc_l; [apply (Advances may s1 s2 n (t AtL1)); [apply lookup_insert_eq|]; apply L1Miss; [done|cbn; by rewrite L1]|].
    eapply rtc_l; [apply (Advances may s2 s3 n (t AtL2)); [apply lookup_insert_eq|]; by apply L2Miss|].
    eapply rtc_l; [apply (Advances may s3 s4 n (t AtLock)); [apply lookup_insert_eq|]|].
    { unfold s4, k, b. case_decide as D; [apply Acquired; [done|by apply Lk]|].
      replace (with_lock (lock s) s3) with s3 by (by destruct s). by apply TimedOut. }
    eapply rtc_l; [apply (Advances may s4 s5 n (t (AtCheck b))); [apply lookup_insert_eq|]; by apply CheckMiss|]. apply rtc_refl. }
  assert (Tk : tasks s5 = <[n := t (InFunction b)]> (tasks s)).
  { unfold s5, s4, s3, s2, s1, move. cbn. rewrite !insert_insert_eq. done. }
  split; [exact (f_equal S Rn)|]. split_and!; [exact Rs|exact L1|exact St|done| |]; rewrite Tk.
  - intros i Hi. rewrite lookup_insert_ne by lia. apply New. lia.
  - intros i Hi. destruct (decide (i = n)) as [->|N]; [exists b; apply lookup_insert_eq|].
    rewrite lookup_insert_ne by done. apply Old. lia.
Qed.
End Liveness.

(** ** Replaying a schedule *)

Section Replay.
Context {V : Type}.
Local Abbreviation flight := (flight (V := V)).

(** What decides a move: nothing, a read that fails, the wait for the lock that ends, a
    fault of the lock, of the second read or of the function, the value or the exception
    of the function, a store that fails. *)
Inductive choice := Go | Unreadable | TimesOut | Faulty | Return (v : V) | Raise | NotStored.

Definition choose (i : nat) (t : task (V := V)) (c : choice) (s : flight) : option flight :=
  match at_ t, c with
  | AtL1, Go => Some (match l1 s !! process t with Some v => move i t (Returned v) s | None => move i t AtL2 s end)
  | AtL2, Go => Some (match store s with Some v => move i t (Returned v) (with_l1 (process t) v s) | None => move i t AtLock s end)
  | AtL2, Unreadable => Some (move i t AtLock s)
  | AtLock, Go => match lock s with None => Some (move i t (AtCheck true) (with_lock (Some i) s)) | Some _ => None end
  | AtLock, TimesOut => Some (move i t (AtCheck false) s)
  | AtLock, Faulty => Some (move i t (InFunction false) (run_begun s))
  | AtCheck b, Go =>
      Some (match store s with
            | Some v => move i t (after_store b v) (with_l1 (process t) v s)
            | None => move i t (InFunction b) (run_begun s)
            end)
  | AtCheck b, Faulty => Some (move i t (InFunction b) (run_begun s))
  | InFunction b, Return v => Some (move i t (AtStore b v) (returned v s))
  | InFunction b, Raise => Some (move i t (if b then AtRelease WithError else Raised) (run_raised s))
  | InFunction true, Faulty => Some (move i t (AtRelease Again) (run_raised s))
  | AtStore b v, Go => Some (move i t (after_store b v) (with_l1 (process t) v (stored (Some v) s)))
  | AtStore b v, Raise => Some (move i t (if b then AtRelease WithError else Raised) (stored None s))
  | AtStore b v, NotStored => Some (move i t (after_store b v) (stored None s))
  | AtRelease how, Go =>
      let s' := with_lock (if decide (lock s = Some i) then None else lock s) s in
      Some (match how with
            | WithValue v => move i t (Returned v) s'
            | WithError => move i t Raised s'
            | Again => move i t (InFunction false) (run_begun s')
            end)
  | AtRelease _, Faulty => Some (move i t (InFunction false) (run_begun s))
  | _, _ => None
  end.

Definition fault_of (l : line (V := V)) (c : choice) : option fault :=
  match c, l with
  | TimesOut, _ => Some LockTimeout
  | Faulty, AtCheck _ => Some ReadError
  | Faulty, InFunction _ => Some BackendRaise
  | Faulty, _ => Some LockError
  | _, _ => None
  end.

(** A schedule: a call begins, or one moves. *)
Inductive event := Begin (i p : nat) | Move (i : nat) (c : choice).

Definition happens (e : event) (s : flight) : option flight :=
  match e with
  | Begin i p => match tasks s !! i with None => Some (move i (mkTask p AtL1) AtL1 s) | Some _ => None end
  | Move i c => t ← tasks s !! i; choose i t c s
  end.

(** With the faults it took. *)
Fixpoint replay (l : list event) (s : flight) : option (list fault * flight) :=
  match l with
  | [] => Some ([], s)
  | e :: l =>
      let f := match e with Move i c => tasks s !! i ≫= (fun t => fault_of (at_ t) c) | Begin _ _ => None end in
      s' ← happens e s; '(fs, s'') ← replay l s'; Some (match f with Some f => f :: fs | None => fs end, s'')
  end.

Lemma choose_sound may i t c (s s' : flight) : choose i t c s = Some s' ->
  (forall f, fault_of (at_ t) c = Some f -> may f) -> advance may i t s s'.
Proof.
  unfold choose. intros E M. destruct (at_ t) as [| | |b|b|b v|how|v|] eqn:A, c as [| | | |w| |]; try done.
  all: try (injection E as <-); try (by econstructor; eauto; apply M).
  5-11: destruct b; try done; injection E as <-;
    first [exact (Returns may i t s _ _ A)|exact (Raises may i t s _ A)|apply RaisesBackend; [by apply M|done]].
  - destruct (l1 s !! process t) eqn:X; by econstructor.
  - destruct (store s) eqn:X; by econstructor.
  - destruct (lock s) eqn:X; [done|]. injection E as <-. by econstructor.
  - destruct (store s) eqn:X; by econstructor.
Qed.

Lemma replay_reachable may l : forall (s : flight) fs s', reachable may s -> replay l s = Some (fs, s') -> Forall may fs -> reachable may s'.
Proof.
  unfold reachable. induction l as [|e l IH]; intros s fs s' R E F; cbn in E; [by injection E as <- <-|].
  destruct (happens e s) as [s1|] eqn:H; [|done]. cbn in E. destruct (replay l s1) as [[fs1 s2]|] eqn:E1; [|done]. cbn in E. injection E as <- <-.
  eapply (IH s1 fs1); [|exact E1|by case_match; [apply Forall_cons in F as [_ F]|]].
  eapply rtc_r; [exact R|]. destruct e as [i p|i c]; cbn in H.
  - destruct (tasks s !! i) eqn:N; [done|]. injection H as <-. by apply Calls.
  - destruct (tasks s !! i) as [t|] eqn:N; [|done]. cbn in H, F. eapply (Advances may s s1 i t N), choose_sound; [exact H|].
    intros f Ef. rewrite Ef in F. by apply Forall_cons in F as [Mf _].
Qed.
End Replay.

(** Three calls in two processes: one runs the function, one waits for the lock and finds
    the entry, one finds it in the L1 of its process. *)
Module Example.
Definition never (_ : fault) : Prop := False.
Definition slow (f : fault) : Prop := f = LockTimeout.

Definition herd : list (event (V := nat)) :=
  [Begin 1 1; Begin 2 2; Move 1 Go; Move 2 Go; Move 1 Go; Move 2 Go; Move 1 Go; Move 1 Go].
Definition landing : list event :=
  [Move 1 (Return 42); Move 1 Go; Move 1 Go; Begin 3 1; Move 3 Go; Move 2 Go; Move 2 Go; Move 2 Go].

Definition after (l : list (event (V := nat))) : flight := match replay l start with Some (_, s) => s | None => start end.

Lemma moves_reachable l may : match replay l start with Some (fs, _) => Forall may fs | None => True end -> reachable may (after l).
Proof.
  unfold after. intros F. destruct (replay l start) as [[fs s]|] eqn:E; [|apply rtc_refl]. eapply replay_reachable; [apply rtc_refl|exact E|exact F].
Qed.

Lemma one_call_runs_it_witness :
  (runs (after (herd ++ landing)) <= 1)%nat /\ (at_ <$> tasks (after (herd ++ landing)) !! 2) = Some (Returned 42) /\
  42 ∈ results (after (herd ++ landing)).
Proof.
  assert (R : reachable never (after (herd ++ landing))) by (apply moves_reachable; vm_compute; constructor).
  destruct (one_call_runs_it never (fun _ F => F) _ R) as (_ & N & Rt). split; [|split; [vm_compute; reflexivity|]].
  - change (1 + removed (after (herd ++ landing)) + raised (after (herd ++ landing)) + unstored (after (herd ++ landing)))%nat with 1%nat in N. exact N.
  - apply (Rt 2 (mkTask 2 (Returned 42))); vm_compute; reflexivity.
Defined.

(** In the middle of it the second call waits for the first. *)
Lemma nobody_waits_for_ever_witness : exists s', advance never 1 (mkTask 1 (InFunction true)) (after herd) s' /\
  lock (after herd) = Some 1%nat /\ (at_ <$> tasks (after herd) !! 2) = Some AtLock.
Proof.
  assert (R : reachable never (after herd)) by (apply moves_reachable; vm_compute; constructor).
  destruct (nobody_waits_for_ever never (after herd) 2 (mkTask 2 AtLock) R ltac:(vm_compute; reflexivity)) as [_ W].
  destruct (W eq_refl (fun _ F => F)) as [[s' A]|(_ & j & u & s' & K & Hu & _ & A)].
  - exfalso. by inversion A.
  - assert (j = 1%nat) as -> by (vm_compute in K; congruence).
    assert (u = mkTask 1 (InFunction true)) as -> by (vm_compute in Hu; congruence).
    exists s'. split; [exact A|]. split; vm_compute; reflexivity.
Defined.

(** Both run it where the wait ends first. *)
Example both_run : match replay (herd ++ [Move 2 TimesOut; Move 2 Go]) start with Some (fs, s) => fs = [LockTimeout] /\ runs s = 2%nat | None => False end.
Proof. vm_compute. split; reflexivity. Qed.
End Example.
