(* ===== verification/LocalWrapper.v ===== *)
(** [cache.local] ([src/src/cachekit/decorators/local_wrapper.py]): a function
    memoized by reference in an [ObjectCache] of its own. *)
From Stdlib Require Import ZArith Lia SpecFloat.
From stdpp Require Import base list numbers option strings gmap.
From S2P Require Import Prelude PyFloat PyDict PyValue KeyGenerator ObjectCache FunctionStats Effects Wrapper.

Local Open Scope Z_scope.
Local Open Scope py_scope.
Local Open Scope eff_scope.

(** ** Arguments *)

(** The keywords, as they are given; [unknown] are those of other names. *)
Record local_arguments (K : Type) := mkArguments {
  given_ttl : option pyval;
  given_max_entries : option pyval;
  given_namespace : option pystr;
  given_key : option K;
  unknown : list pystr
}.
Arguments mkArguments {K}.
Arguments given_ttl {K}.
Arguments given_max_entries {K}.
Arguments given_namespace {K}.
Arguments given_key {K}.
Arguments unknown {K}.

(** [isinstance(v, int)]: a [bool] is one. *)
Definition as_int (v : pyval) : option Z :=
  match v with PInt z => Some z | PBool b => Some (if b then 1 else 0) | _ => None end.

(** The TTL and the number of entries. *)
Definition check_arguments {K} (a : local_arguments K) : result py_exn (Z * Z) :=
  match unknown a with
  | _ :: _ => Err TypeError
  | [] =>
      match as_int (default (PInt 300) (given_ttl a)), as_int (default (PInt 256) (given_max_entries a)) with
      | Some ttl, Some max_entries =>
          if ttl <? 1 then Err ValueError
          else if max_entries <? 1 then Err ValueError else Ok (ttl, max_entries)
      | _, _ => Err TypeError
      end
  end.

Section LocalWrapper.
Context {W V : Type}.
(** The function, on the state outside; [object_cache.py]'s size estimate; the n-th
    reading of [time.monotonic]; the packing and hash of the key generator. *)
Context (func : call -> eff W V) (estimate : V -> Z) (clock : nat -> float).
Context (packb : pyval -> result py_exn pybytes) (blake2b : Z -> pybytes -> pybytes).
Context (module qualname : pystr).

(** The closure: the cache, the outside, the readings of the clock so far. *)
Record local := mkLocal { cache : ObjectCache V; outside : W; readings : nat }.

Record local_config := mkLocalConfig {
  ttl : Z;
  key : option (call -> result exn pystr);
  namespace : option pystr
}.

(** [create_local_wrapper], up to the wrapper itself. *)
Definition create_local_wrapper (a : local_arguments (call -> result exn pystr))
  : result py_exn (local_config * ObjectCache V) :=
  checked <-! check_arguments a ;
  object_cache <-! ObjectCache.init (Some checked.2) None half ;
  Ok (mkLocalConfig checked.1 (given_key a) (given_namespace a), object_cache).

Definition reading : eff local float := fun s =>
  (Ok (clock (readings s)), mkLocal (cache s) (outside s) (Datatypes.S (readings s))).

Definition on_cache {A} (f : ObjectCache V -> result exn (A * ObjectCache V)) : eff local A := fun s =>
  match f (cache s) with
  | Ok (a, c) => (Ok a, mkLocal c (outside s) (readings s))
  | Err x => (Err x, s)
  end.

Definition on_outside {A} (m : eff W A) : eff local A := fun s =>
  let (r, w) := m (outside s) in (r, mkLocal (cache s) w (readings s)).

Section Config.
Context (d : local_config).

Definition _make_key (c : call) : result exn pystr :=
  match key d with
  | Some k => k c
  | None =>
      py (generate_key blake2b packb module qualname (args c) (map (fun kv => (KStr kv.1, kv.2)) (kwargs c))
            (namespace d) false (u "local"))
  end.

(** The body of [sync_wrapper], and of [async_wrapper] around its [await]. *)
Definition wrapper (c : call) : eff local V :=
  cache_key <~ lift (_make_key c) ;;
  now <~ reading ;;
  found <~ on_cache (fun oc => Ok (ObjectCache.get now cache_key oc)) ;;
  match found with
  | Some cached_value => ret cached_value
  | None =>
      result <~ on_outside (func c) ;;
      now' <~ reading ;;
      now <~ reading ;;
      _ <~ on_cache (fun oc => match ObjectCache.put estimate now' now cache_key result (fofZ (ttl d)) oc with
                               | Ok oc' => Ok (tt, oc') | Err e => Err (PyExn e) end) ;;
      ret result
  end.

(** [invalidate_cache], [cache_clear] *)
Definition invalidate_cache (c : call) : eff local unit :=
  cache_key <~ lift (_make_key c) ;;
  on_cache (fun oc => Ok (tt, (ObjectCache.delete cache_key oc).2)).

Definition cache_clear : eff local unit := on_cache (fun oc => Ok (tt, ObjectCache.clear oc)).
End Config.

Definition cache_info (s : local) : CacheInfo :=
  let c := cache s in
  mkInfo (ObjectCache._hits c) (ObjectCache._misses c) (ObjectCache._hits c) 0 (_max_entries c) (Some (ObjectCache.size c)) (fofZ 0) None None.

(** ** What a call does *)

Section Props.
Context (d : local_config).

(** The call took the function's result and stored it, or served what was stored. *)
Lemma wrapper_returns c s v s' : wrapper d c s = (Ok v, s') -> exists k, _make_key d c = Ok k /\
  let oc := ObjectCache.get (clock (readings s)) k (cache s) in
  match oc.1 with
  | Some w => v = w /\ s' = mkLocal oc.2 (outside s) (Datatypes.S (readings s))
  | None =>
      exists w' oc', func c (outside s) = (Ok v, w') /\
        ObjectCache.put estimate (clock (Datatypes.S (readings s))) (clock (Datatypes.S (Datatypes.S (readings s))))
          k v (fofZ (ttl d)) oc.2 = Ok oc' /\
        s' = mkLocal oc' w' (3 + readings s)
  end.
Proof.
  unfold wrapper, lift, andthen. destruct (_make_key d c) as [k|x]; [|done]. intros E. exists k. split; [done|].
  unfold reading, on_cache in E. cbn [cache outside readings] in E.
  destruct (ObjectCache.get _ k (cache s)) as [[w|] oc]; cbn [fst snd]; [by injection E as <- <-|].
  unfold on_outside in E. cbn [outside] in E. destruct (func c (outside s)) as [[r|x] w'] eqn:Ef; [|done].
  cbn [cache outside readings] in E. destruct (ObjectCache.put _ _ _ _ _ _ _) as [oc'|e] eqn:Ep; [|done].
  injection E as <- <-. by exists w', oc'.
Qed.

(** A cache bounded by its entries alone. *)
Definition by_entries (oc : ObjectCache V) : Prop := inv oc /\ config_ok oc /\ _max_size_bytes oc = None.

(** Within its TTL a computed value is not computed again: once a call has run
    the function, the next call with the same key returns the same object and
    does not touch the world outside. *)
Theorem local_memoized c c' s v s1 k :
  by_entries (cache s) -> bad_ttl (fofZ (ttl d)) = false ->
  _make_key d c = Ok k -> _make_key d c' = Ok k ->
  (ObjectCache.get (clock (readings s)) k (cache s)).1 = None ->
  wrapper d c s = (Ok v, s1) ->
  fge (clock (readings s1)) (fadd (clock (Datatypes.S (Datatypes.S (readings s)))) (fofZ (ttl d))) = false ->
  exists s2, wrapper d c' s1 = (Ok v, s2) /\ outside s2 = outside s1.
Proof.
  intros (Hi & Hc & Hm) Ht Ek Ek' Miss E Hf.
  apply wrapper_returns in E as (k0 & Ek0 & E). rewrite Ek in Ek0. injection Ek0 as <-.
  cbv zeta in E. rewrite Miss in E. destruct E as (w' & oc' & Ef & Ep & ->). cbn [readings cache outside] in *.
  set (oc := (ObjectCache.get (clock (readings s)) k (cache s)).2) in *.
  assert (Hi2 : inv oc) by (by apply oc_get_inv).
  assert (Hm2 : _max_size_bytes oc = None).
  { unfold oc. destruct (step_evolves estimate (OGet (clock (readings s)) k) (cache s)) as (_ & E & _).
    simpl in E. by rewrite E. }
  destruct (oc_put_get estimate (clock (Datatypes.S (readings s))) (clock (Datatypes.S (Datatypes.S (readings s)))) k v
    (fofZ (ttl d)) oc (clock (3 + readings s)) Hi2 Ht) as (oc2 & Ep2 & G).
  rewrite Ep in Ep2. injection Ep2 as <-. unfold too_large in G. rewrite Hm2, Hf in G.
  unfold wrapper, lift, andthen. rewrite Ek'. unfold reading, on_cache. cbn [cache outside readings].
  destruct (ObjectCache.get (clock (3 + readings s)) k oc') as [[w|] oc3]; [|done]. simpl in G. injection G as ->.
  by eexists.
Qed.

(** ** Every use of the wrapper *)

Inductive use := Call (c : call) | Invalidate (c : call) | Clear.

Definition step (s : local) (o : use) : local :=
  match o with
  | Call c => (wrapper d c s).2
  | Invalidate c => (invalidate_cache d c s).2
  | Clear => (cache_clear s).2
  end.

Definition run (s : local) (os : list use) : local := foldl step s os.

(** A use is at most two operations of the object cache. *)
Lemma step_operations s o : exists ops, cache (step s o) = ObjectCache.run estimate (cache s) ops.
Proof.
  destruct o as [c|c|]; simpl.
  - unfold wrapper, lift, andthen. destruct (_make_key d c) as [k|x]; [|by exists []].
    unfold reading, on_cache, on_outside. cbn [cache outside readings].
    set (t := clock (readings s)).
    assert (E1 : ObjectCache.run estimate (cache s) [OGet t k] = (ObjectCache.get t k (cache s)).2) by done.
    destruct (ObjectCache.get t k (cache s)) as [[w|] oc]; cbn [snd] in E1; [by exists [OGet t k]|].
    cbn [cache outside readings]. destruct (func c (outside s)) as [[r|x] w']; [|by exists [OGet t k]].
    cbn [cache outside readings]. destruct (ObjectCache.put _ _ _ _ _ _ _) as [oc'|e] eqn:Ep; [|by exists [OGet t k]].
    exists [OGet t k; OPut (clock (Datatypes.S (readings s))) (clock (Datatypes.S (Datatypes.S (readings s)))) k r (fofZ (ttl d))].
    change (oc' = ObjectCache.step estimate (ObjectCache.run estimate (cache s) [OGet t k])
      (OPut (clock (Datatypes.S (readings s))) (clock (Datatypes.S (Datatypes.S (readings s)))) k r (fofZ (ttl d)))).
    rewrite E1. simpl. by rewrite Ep.
  - unfold invalidate_cache, lift, andthen. destruct (_make_key d c) as [k|x]; [|by exists []]. by exists [ODelete k].
  - by exists [OClear].
Qed.

Lemma run_operations os s : exists ops, cache (run s os) = ObjectCache.run estimate (cache s) ops.
Proof.
  revert s. induction os as [|o os IH]; intros s; [by exists []|].
  destruct (step_operations s o) as [ops1 E1], (IH (step s o)) as [ops2 E2].
  exists (ops1 ++ ops2). change (run s (o :: os)) with (run (step s o) os). rewrite E2, E1.
  unfold ObjectCache.run. by rewrite foldl_app.
Qed.
End Props.

(** A local cache never holds more than [max_entries] objects, whatever is
    called, invalidated and cleared; the bound is at least one and so is the TTL. *)
Theorem local_bounded a d oc os w n : (forall v, 0 <= estimate v) ->
  create_local_wrapper a = Ok (d, oc) ->
  1 <= ttl d /\ exists m, 1 <= m /\ check_arguments a = Ok (ttl d, m) /\
    zlen (_store (cache (run d (mkLocal oc w n) os))) <= m.
Proof.
  intros He E. apply rbind_ok in E as ([t m] & Ea & E). apply rbind_ok in E as (oc' & Ei & [= <- <-]).
  cbn [fst snd ttl] in *. assert (B : 1 <= t /\ 1 <= m).
  { unfold check_arguments in Ea. destruct (unknown a); [|done].
    destruct (as_int _) as [t'|]; [|done]. destruct (as_int _) as [m'|]; [|done].
    destruct (t' <? 1) eqn:E1; [done|]. destruct (m' <? 1) eqn:E2; [done|]. injection Ea as <- <-. zbool. lia. }
  split; [lia|]. exists m. split_and!; [lia|done|].
  destruct (run_operations (mkLocalConfig t (given_key a) (given_namespace a)) os (mkLocal oc' w n)) as [ops ->].
  cbn [cache]. pose proof (init_ok _ _ _ _ Ei) as [Hi Hc].
  destruct (oc_run_inv_from estimate He ops oc' Hi Hc) as [_ We _].
  destruct (run_evolves estimate ops oc') as (Em & _ & _). unfold within_entries in We. rewrite Em in We.
  unfold ObjectCache.init in Ei. case_all.
Qed.
End LocalWrapper.

(** ** Examples: the outside counts how often the function ran *)

Definition count_runs (_ : call) : eff Z Z := fun w => (Ok (10 * w), w + 1).
Definition ticking (n : nat) : float := fofZ (Z.of_nat n).
Definition no_pack (_ : pyval) : result py_exn pybytes := Ok [].
Definition no_hash (_ : Z) (_ : pybytes) : pybytes := [].
Definition by_a_minute : local_config := mkLocalConfig 60 (Some (fun _ => Ok (u "k"))) None.
Definition local_arguments_60 : local_arguments (call -> result exn pystr) :=
  mkArguments (Some (PInt 60)) (Some (PInt 2)) None (Some (fun _ => Ok (u "k"))) [].
Definition empty_cache : ObjectCache Z := mkObjectCache (Some 2) None half [] 0 0 0 [] 0.
Definition no_arguments : call := mkCall [] [].
Definition local_call := wrapper count_runs (fun _ => 0) ticking no_pack no_hash (u "m") (u "f") by_a_minute.
Definition at_start : local := mkLocal empty_cache 7 0.

Lemma empty_cache_ok : by_entries empty_cache.
Proof.
  destruct (init_ok (V := Z) (Some 2) None half empty_cache) as [Hi Hc]; [reflexivity|].
  by split_and!.
Qed.

Lemma local_memoized_witness :
  (local_call no_arguments at_start).1 = Ok 70 /\ outside (local_call no_arguments at_start).2 = 8 /\
  exists s2, local_call no_arguments (local_call no_arguments at_start).2 = (Ok 70, s2) /\
    outside s2 = outside (local_call no_arguments at_start).2.
Proof.
  split; [vm_compute; reflexivity|]. split; [vm_compute; reflexivity|].
  apply (local_memoized count_runs (fun _ => 0) ticking no_pack no_hash (u "m") (u "f") by_a_minute no_arguments
    no_arguments at_start 70 (local_call no_arguments at_start).2 (u "k")).
  - apply empty_cache_ok.
  - vm_compute. reflexivity.
  - reflexivity.
  - reflexivity.
  - vm_compute. reflexivity.
  - vm_compute. reflexivity.
  - vm_compute. reflexivity.
Defined.

Lemma local_bounded_witness :
  zlen (_store (cache (run count_runs (fun _ => 0) ticking no_pack no_hash (u "m") (u "f") by_a_minute at_start
    [Call no_arguments; Call no_arguments]))) <= 2.
Proof.
  destruct (local_bounded count_runs (fun _ => 0) ticking no_pack no_hash (u "m") (u "f") local_arguments_60
    by_a_minute empty_cache [Call no_arguments; Call no_arguments] 7 0%nat) as (_ & m & _ & Em & H).
  - intros v. discriminate.
  - reflexivity.
  - vm_compute in Em. injection Em as <-. exact H.
Defined.
