(* ===== verification/WrapperInv.v ===== *)
(** Invariants of decorated calls ([Wrapper.v]): which properties of the closure
    every step of a call keeps. *)
From Stdlib Require Import ZArith Lia SpecFloat.
From stdpp Require Import base list numbers option strings gmap.
From S2P Require Import Prelude PyFloat PyDict Bytes PyValue Interop KeyGenerator FileSystem FileBackend.
From S2P Require Import L1Cache ObjectCache CircuitBreaker FunctionStats Signature Errors Effects Orchestrator Serializers Handler HandlerProps Wrapper.

Local Open Scope Z_scope.
Local Open Scope eff_scope.

Section Invariants.
Context {W V B Hd P : Type}.
Context (clock : clock_name -> nat -> float) (jitter : nat -> float).
Context (estimate : V -> Z).
Context (blake2b : Z -> pybytes -> pybytes) (blake3 : pybytes -> pybytes).
Context (packb : pyval -> result py_exn pybytes).
Context (str_call : call -> result exn pystr) (str_value : V -> result exn pystr).
Context (deepcopyable : call -> bool) (thread_starts : W -> bool).
Context (original_of : BackendError -> option exn) (set_order : gset pystr -> list pystr).

Local Abbreviation C := (closure W V B).
Local Abbreviation wrapped := (decorated W V B Hd P).

(** A property that does not look at the caches and the clocks, that asks [J] of the
    state outside and that scheduling a background job keeps. *)
Record insensitive (I : C -> Prop) (J : W -> Prop) : Prop := mkInsensitive {
  ins_outside : forall s, I s -> J (ext s);
  ins_ext : forall s x, I s -> J x -> I (with_ext s x);
  ins_ticks : forall s x, I s -> I (with_ticks s x);
  ins_l1 : forall s x, I s -> I (with_l1_cache s x);
  ins_objects : forall s x, I s -> I (with_objects s x);
  ins_keys : forall s x, I s -> I (with_keys s x);
  ins_backend : forall s x, I s -> I (with_backend s x);
  ins_slots : forall s n p, I s -> I (with_l1_swr s n p);
  ins_spawn : forall s j, (forall key c, j <> Revalidate key c) -> I s -> I (with_tasks s (tasks s ++ [j]));
  ins_schedule : forall (d : wrapped) key c a, keeps I (_l2_swr_schedule deepcopyable thread_starts d key c a)
}.

(** For a property that looks at neither the jobs nor their scheduler. *)
Lemma unscheduled (I : C -> Prop) : (forall s x, I s -> I (with_tasks s x)) -> (forall s x, I s -> I (with_scheduler s x)) ->
  forall (d : wrapped) key c a, keeps I (_l2_swr_schedule deepcopyable thread_starts d key c a).
Proof.
  intros Ht Hsch d key c a. assert (Hend : keeps I (end_swr key)).
  { intros s Hs. unfold end_swr. destruct (_l2_swr_end _ _); [by apply Hsch|done]. }
  apply keeps_andthen.
  - intros s Hs. unfold begin_swr. destruct (_l2_swr_try_begin _ _ _). by apply Hsch.
  - intros g. destruct (negb g); [apply keeps_ret|]. destruct (negb _); [done|]. apply keeps_trying; [|done].
    destruct a; intros s Hs; unfold start_thread; [|destruct (thread_starts _); [|done]]; by apply Ht.
Qed.

(** What a decorated function calls outside keeps [J]. *)
Record outside_keeps (J : W -> Prop) (d : wrapped) : Prop := mkOutside {
  methods_keep : forall b, backend_keeps J (methods d b);
  serializer_outside : serialization_keeps J (serializer d);
  provider_keeps : keeps J (get_backend d)
}.

Lemma outside_any (d : wrapped) : outside_keeps (fun _ => True) d.
Proof. split; [intros b; split; try done; intros; by split|by split|done]. Qed.

Section Kept.
Context (I : C -> Prop) (J : W -> Prop) (HI : insensitive I J).

Lemma on_ext_keeps {A} (m : eff W A) : keeps J m -> keeps I (on_ext m).
Proof.
  intros Hm s Hs. unfold on_ext. specialize (Hm (ext s) (ins_outside _ _ HI s Hs)). destruct (m (ext s)). by apply HI.
Qed.

Lemma modify_keeps (f : C -> C) : (forall s, I s -> I (f s)) -> keeps I (modify f).
Proof. intros H s Hs. by apply H. Qed.

Lemma reading_keeps c : keeps I (reading clock c).
Proof. intros s Hs. by apply HI. Qed.

Lemma uniform_keeps : keeps I (uniform jitter).
Proof. intros s Hs. by apply HI. Qed.

Lemma l1_get_keeps key : keeps I (l1_get clock key).
Proof.
  apply keeps_andthen; [apply reading_keeps|]. intros now s Hs. destruct (L1Cache.get now key (_l1_cache s)).
  by apply HI.
Qed.

Lemma l1_put_keeps (d : wrapped) key bs : keeps I (l1_put clock d key bs).
Proof.
  apply keeps_andthen; [apply reading_keeps|]. intros now s Hs. destruct (L1Cache.put _ _ _ _ _ _); [by apply HI|done].
Qed.

Lemma l1_invalidate_keeps key : keeps I (l1_invalidate key).
Proof. apply modify_keeps. intros s. apply HI. Qed.

Lemma track_keeps key : keeps I (track key).
Proof. apply modify_keeps. intros s. apply HI. Qed.

Lemma untrack_keeps key : keeps I (untrack key).
Proof. apply modify_keeps. intros s. apply HI. Qed.

Lemma spawn_refresh_keeps key n c : keeps I (spawn (RefreshObject key n c)).
Proof. apply modify_keeps. intros s. by apply HI. Qed.

Lemma spawn_ttl_keeps key t : keeps I (spawn (RefreshTtl key t)).
Proof. apply modify_keeps. intros s. by apply HI. Qed.

Lemma start_refresh_keeps key n c : keeps I (start_thread thread_starts (RefreshObject key n c)).
Proof. intros s Hs. unfold start_thread. case_match; [by apply HI|done]. Qed.

Lemma resolve_keeps (d : wrapped) : outside_keeps J d -> keeps I (resolve d).
Proof.
  intros Ho. apply keeps_andthen; [apply keeps_gets|]. intros [b|]; [apply keeps_ret|].
  apply keeps_andthen; [apply on_ext_keeps, Ho|]. intros b. apply keeps_andthen; [|intros; apply keeps_ret].
  apply modify_keeps. intros s. apply HI.
Qed.

Lemma ensure_compatible_keeps (d : wrapped) b : keeps I (ensure_compatible d b).
Proof. apply keeps_andthen; [apply keeps_gets|]. intros w. apply keeps_lift. Qed.

Lemma on_objects_keeps {A} (f : ObjectCache V -> result exn (A * ObjectCache V)) : keeps I (on_objects f).
Proof.
  intros s Hs. unfold on_objects. destruct (_object_cache s) as [c|]; [|done].
  destruct (f c) as [[a c']|]; [by apply HI|done].
Qed.

Lemma slots_keep : keeps I l1_slots_release /\ keeps I l1_slots_acquire.
Proof.
  split; intros s Hs; unfold l1_slots_release, l1_slots_acquire; (case_match; [by apply HI|]); [done|by apply HI].
Qed.

Lemma lift_context_keeps (c : async_context W) : context_keeps J c -> context_keeps I (lift_context c).
Proof. intros [He Hx]. split; intros; apply on_ext_keeps; [apply He|apply Hx]. Qed.

Lemma lift_backend_keeps (b : backend W Hd P) : backend_keeps J b -> backend_keeps I (lift_backend b).
Proof.
  intros H. split; intros; try (apply on_ext_keeps, H); cbn in *.
  - destruct (b_get_buffer b) eqn:E; [|done]. simplify_eq/=. by eapply on_ext_keeps, get_buffer_keeps.
  - destruct (b_set_streaming b) eqn:E; [|done]. simplify_eq/=. by eapply on_ext_keeps, set_streaming_keeps.
  - destruct (b_swr b) as [[? ?]|] eqn:E; [|done]. simplify_eq/=. destruct (swr_keeps _ _ H _ _ E) as [Hg Hst].
    split; intros; apply on_ext_keeps; [apply Hg|apply Hst].
  - destruct (b_ttl b) as [[? ?]|] eqn:E; [|done]. simplify_eq/=. destruct (ttl_keeps _ _ H _ _ E) as [Hg Hst].
    split; intros; apply on_ext_keeps; [apply Hg|apply Hst].
  - destruct (b_lock b) eqn:E; [|done]. simplify_eq/=. by eapply lift_context_keeps, lock_keeps.
Qed.

Lemma lift_serialization_keeps (h : serialization W V P call) : serialization_keeps J h ->
  serialization_keeps I (lift_serialization h).
Proof. intros [Hse Hde]. split; intros; apply on_ext_keeps; [apply Hse|apply Hde]. Qed.

(** ** Every step of a call *)

Context (Hs : keeps I success) (Hf : forall x, keeps I (failure clock x)).
Context (Hl1 : keeps I (stat clock record_l1_hit)) (Hl2 : forall l, keeps I (stat clock (fun now => record_l2_hit now l))).
Context (d : wrapped) (Ho : outside_keeps J d) (Hfunc : forall c, keeps I (func d c)).

Lemma operation_keep b : operation_keeps I (operation clock d b).
Proof.
  split; cbn.
  - intros h [= <-]. apply lift_backend_keeps, Ho.
  - apply lift_serialization_keeps, Ho.
  - intros f k key [= <-]. apply Hf.
Qed.

Lemma read_keeps b key t : keeps I (get_cached_value (operation clock d b) key t).
Proof. apply reads_keep, operation_keep. Qed.
Lemma read_async_keeps b key t : keeps I (get_cached_value_async (operation clock d b) key t).
Proof. apply reads_keep, operation_keep. Qed.
Lemma read_fresh_keeps b key : keeps I (get_cached_value_with_freshness (operation clock d b) key).
Proof. apply (reads_keep I _ (operation_keep b) key None). Qed.
Lemma read_fresh_async_keeps b key : keeps I (get_cached_value_with_freshness_async (operation clock d b) key).
Proof. apply (reads_keep I _ (operation_keep b) key None). Qed.
Lemma store_result_keeps b key v t c st : keeps I (store_result (operation clock d b) key v t c st).
Proof. apply stores_keep, operation_keep. Qed.
Lemma set_async_keeps b key data t st : keeps I (Handler.set_async (handler d b) key data t st).
Proof. apply handler_set_keeps, lift_backend_keeps, Ho. Qed.
Lemma serialize_call_keeps v c key : keeps I (Handler.serialize_data (lift_serialization (serializer d)) v c key).
Proof. apply lift_serialization_keeps, Ho. Qed.
Lemma deserialize_call_keeps data key : keeps I (Handler.deserialize_data (lift_serialization (serializer d)) data key).
Proof. apply lift_serialization_keeps, Ho. Qed.
#[local] Hint Resolve read_keeps read_async_keeps read_fresh_keeps read_fresh_async_keeps store_result_keeps set_async_keeps
  serialize_call_keeps deserialize_call_keeps : keepdb.

#[local] Hint Resolve reading_keeps uniform_keeps l1_get_keeps l1_put_keeps l1_invalidate_keeps track_keeps
  untrack_keeps spawn_refresh_keeps spawn_ttl_keeps start_refresh_keeps resolve_keeps ensure_compatible_keeps
  on_objects_keeps operation_keep : keepdb.
#[local] Hint Resolve keeps_ret keeps_throw keeps_lift keeps_gets : keepdb.

(** Down the structure of a computation to its steps. *)
Ltac keep :=
  repeat first
    [ progress intros
    | solve [eauto 3 with keepdb nocore]
    | apply keeps_andthen
    | apply keeps_trying
    | apply keeps_finally
    | apply keeps_attempt
    | case_match ].

Lemma slots_release_keeps : keeps I l1_slots_release.
Proof. by apply slots_keep. Qed.
Lemma slots_acquire_keeps : keeps I l1_slots_acquire.
Proof. by apply slots_keep. Qed.
#[local] Hint Resolve slots_release_keeps slots_acquire_keeps : keepdb.

Lemma objects_keep key t v n :
  keeps I (objects_get clock key) /\ keeps I (objects_get_with_swr clock jitter key t) /\
  keeps I (objects_put clock estimate key v t) /\ keeps I (objects_delete key) /\ keeps I (objects_cancel key n) /\
  keeps I (objects_complete clock estimate key n v t).
Proof. split_and!; unfold objects_get, objects_get_with_swr, objects_put, objects_delete, objects_cancel, objects_complete; keep. Qed.

Lemma objects_cancel_keeps key n : keeps I (objects_cancel key n).
Proof. unfold objects_cancel. keep. Qed.
#[local] Hint Resolve objects_cancel_keeps : keepdb.

Lemma schedule_refresh_keeps key n c : keeps I (schedule_refresh deepcopyable thread_starts d key n c).
Proof. unfold schedule_refresh, _l1_swr_acquire. keep. Qed.

Lemma objects_lookup_keeps key : keeps I (objects_lookup clock jitter d key).
Proof. unfold objects_lookup, objects_get, objects_get_with_swr. keep. Qed.

Lemma objects_miss_keeps key c : keeps I (objects_miss clock estimate d key c).
Proof. unfold objects_miss, objects_put. keep. Qed.

Lemma swr_schedule_keeps key c a : keeps I (_l2_swr_schedule deepcopyable thread_starts d key c a).
Proof. apply HI. Qed.

Lemma put_l1_keeps key bs : keeps I (_put_l1 clock d key bs).
Proof. unfold _put_l1. keep. Qed.

Lemma l1_failure_keeps key x : keeps I (l1_failure d key x).
Proof. unfold l1_failure. keep. Qed.
#[local] Hint Resolve schedule_refresh_keeps objects_lookup_keeps objects_miss_keeps swr_schedule_keeps put_l1_keeps
  l1_failure_keeps : keepdb.

Lemma l1_check_keeps key : keeps I (l1_check clock d key).
Proof.
  unfold l1_check. keep.
Qed.

Lemma sync_client_keeps : keeps I (sync_client d).
Proof. unfold sync_client. keep. Qed.

Lemma sync_read_keeps b key : keeps I (sync_read clock d b key).
Proof. unfold sync_read. keep. Qed.

Lemma sync_store_keeps b key v c : keeps I (sync_store clock d b key v c).
Proof. unfold sync_store. keep. Qed.

Lemma store_failed_keeps x : keeps I (store_failed clock x).
Proof. unfold store_failed. keep. Qed.
#[local] Hint Resolve l1_check_keeps sync_client_keeps sync_read_keeps sync_store_keeps store_failed_keeps : keepdb.

Lemma since_keeps k start : keeps I (since clock k start).
Proof. unfold since. keep. Qed.

Lemma value_size_keeps v : keeps (W := C) I (value_size str_value v).
Proof. unfold value_size. keep. Qed.

Lemma async_read_keeps b key : keeps I (async_read clock d b key).
Proof. unfold async_read. keep. Qed.

Lemma backfill_keeps key data : keeps I (backfill clock d key data).
Proof. unfold backfill. keep. Qed.

Lemma maybe_refresh_ttl_keeps b key : keeps I (maybe_refresh_ttl d b key).
Proof.
  unfold maybe_refresh_ttl, silently. destruct (refresh_ttl d); [|keep]. destruct (b_ttl _) as [[g r]|] eqn:E; [|keep].
  destruct (ttl_keeps _ _ (lift_backend_keeps (methods d b) (methods_keep _ _ Ho b)) _ _ E). keep.
Qed.
#[local] Hint Resolve since_keeps value_size_keeps async_read_keeps backfill_keeps maybe_refresh_ttl_keeps : keepdb.

Lemma async_l2_keeps b key c start : keeps I (async_l2 clock deepcopyable thread_starts d b key c start).
Proof. unfold async_l2. keep. Qed.

Lemma double_check_keeps b key : keeps I (double_check clock d b key).
Proof. unfold double_check. keep. Qed.

Lemma async_store_keeps b key v c : keeps I (async_store clock d b key v c).
Proof.
  unfold async_store. keep.
Qed.
#[local] Hint Resolve async_l2_keeps double_check_keeps async_store_keeps : keepdb.

Lemma async_compute_keeps b key c : keeps I (async_compute clock d b key c).
Proof. unfold async_compute. keep. Qed.
#[local] Hint Resolve async_compute_keeps : keepdb.

Lemma under_lock_keeps b key c got : keeps I (under_lock clock d b key c got).
Proof. unfold under_lock. keep. Qed.

Lemma async_with_keeps {A} (k : async_context C) (body : bool -> eff C A) :
  context_keeps I k -> (forall got, keeps I (body got)) -> keeps I (async_with k body).
Proof. intros [He Hx] Hb. unfold async_with. keep. Qed.

Lemma without_lock_keeps b key c : keeps I (without_lock clock d b key c).
Proof. unfold without_lock. keep. Qed.
#[local] Hint Resolve under_lock_keeps without_lock_keeps async_with_keeps : keepdb.

Lemma async_miss_keeps b key c : keeps I (async_miss clock original_of d b key c).
Proof.
  unfold async_miss. destruct (b_lock _) as [k|] eqn:E; [|keep].
  pose proof (lock_keeps _ _ (lift_backend_keeps (methods d b) (methods_keep _ _ Ho b)) _ true key E). keep.
Qed.
#[local] Hint Resolve async_miss_keeps : keepdb.

Lemma async_backed_keeps key c : keeps I (async_backed clock deepcopyable thread_starts original_of d key c).
Proof. unfold async_backed, with_client, async_l1_then_l2, with_client, async_l2_or_miss. keep. Qed.
#[local] Hint Resolve async_backed_keeps : keepdb.

(** ** The background jobs *)

Lemma last_backend_keeps : keeps I (last_backend (W := W) (V := V) (B := B)).
Proof. unfold last_backend. keep. Qed.
Lemma recompute_store_keeps b key c : keeps I (recompute_store clock d b key c).
Proof.
  unfold recompute_store. pose proof (fun key data t st => set_async_keeps b key data t st). unfold Handler.set_async in *. keep.
Qed.
#[local] Hint Resolve last_backend_keeps recompute_store_keeps : keepdb.

(** A revalidation, but for the slot it gives back. *)
Lemma revalidations_keep key c : keeps I (silently (b <~ last_backend ;; recompute_store clock d b key c)) /\
  keeps I (silently
       (b <~ last_backend ;;
        match b_lock (lift_backend (methods d b)) with
        | Some lock =>
            async_with (lock false key) (fun got => if got then recompute_store clock d b key c else ret tt) ;;~ ret tt
        | None => recompute_store clock d b key c
        end)).
Proof.
  split; unfold silently; [keep|]. apply keeps_trying; [|keep]. apply keeps_andthen; [keep|]. intros b.
  destruct (b_lock _) as [k|] eqn:E; [|keep].
  pose proof (lock_keeps _ _ (lift_backend_keeps (methods d b) (methods_keep _ _ Ho b)) _ false key E).
  apply keeps_andthen; [|keep]. apply async_with_keeps; [done|]. keep.
Qed.

Lemma object_job_keeps key n c : keeps I (run_job clock estimate d (RefreshObject key n c)).
Proof.
  cbn. unfold _l1_swr_refresh_sync. pose proof (fun k v t n => objects_keep k v t n). unfold objects_complete. keep.
Qed.

Lemma ttl_job_keeps key t : keeps I (run_job clock estimate d (RefreshTtl key t)).
Proof.
  cbn [run_job]. apply keeps_andthen; [keep|]. intros b. destruct (b_ttl _) as [[g r]|] eqn:E; [|keep].
  destruct (ttl_keeps _ _ (lift_backend_keeps (methods d b) (methods_keep _ _ Ho b)) _ _ E). unfold silently. keep.
Qed.

(** The call paths that also count misses and set the statistics context. *)
Context (Hm : keeps I (stat clock record_miss)) (Hset : keeps I (set_stats d)) (Hreset : forall t, keeps I (reset_stats t)).

Lemma l1_only_keeps token key c :
  keeps I (sync_l1_only clock jitter estimate deepcopyable thread_starts d token key c) /\
  keeps I (async_l1_only clock jitter estimate deepcopyable thread_starts d key c).
Proof. split; [unfold sync_l1_only|unfold async_l1_only]; keep. Qed.

Lemma sync_l2_keeps b token key c start :
  keeps I (sync_l2 clock str_value deepcopyable thread_starts d b token key c start).
Proof. unfold sync_l2. keep. Qed.

Lemma sync_miss_keeps b token key c : keeps I (sync_miss clock d b token key c).
Proof. unfold sync_miss. keep. Qed.
#[local] Hint Resolve sync_l2_keeps sync_miss_keeps : keepdb.

Lemma sync_backed_keeps token key c :
  keeps I (sync_backed clock str_value deepcopyable thread_starts d token key c).
Proof. unfold sync_backed, or_reset. keep. Qed.

(** A call of the decorated function keeps the invariant. *)
Lemma wrapper_keeps c :
  keeps I (wrapper clock jitter estimate blake2b blake3 packb str_call str_value deepcopyable thread_starts
             original_of d c).
Proof.
  unfold wrapper, sync_wrapper, async_wrapper. pose proof sync_backed_keeps.
  pose proof (fun t k c => proj1 (l1_only_keeps t k c)). pose proof (fun k c => proj2 (l1_only_keeps None k c)).
  keep.
Qed.
End Kept.
End Invariants.
