(* ===== verification/WrapperExample.v ===== *)
(** A decorated function over a store in memory, to run the definitions of
    [Wrapper.v] on: its backend is a dict, its values are byte strings stored as they
    are, and it counts how often it runs. *)
From Stdlib Require Import ZArith Lia SpecFloat.
From stdpp Require Import base list numbers option strings gmap.
From S2P Require Import Prelude PyFloat PyDict Bytes PyValue.
From S2P Require Import L1Cache ObjectCache CircuitBreaker FunctionStats Signature Errors Effects Orchestrator Handler Wrapper.

Local Open Scope Z_scope.
Local Open Scope eff_scope.

(** The entries of the store, and the runs of the function. *)
Definition store : Type := list (pystr * pybytes) * nat.

Definition memory : backend store unit unit := {|
  b_get k := gets (fun w : store => od_get k w.1);
  b_set k v _ := modify (fun w : store => (od_set k v w.1, w.2));
  b_delete k := fun w : store => (Ok (od_mem k w.1), (od_pop k w.1, w.2));
  b_get_buffer := None;
  b_view _ _ := [];
  b_close _ := ret tt;
  b_set_streaming := None;
  b_swr := None;
  b_ttl := None;
  b_lock := None
|}.

(** The same with a lock that [enter] acquires and that lets exceptions through. *)
Definition locked_memory (enter : eff store bool) : backend store unit unit := {|
  b_get := b_get memory;
  b_set := b_set memory;
  b_delete := b_delete memory;
  b_get_buffer := None;
  b_view _ _ := [];
  b_close _ := ret tt;
  b_set_streaming := None;
  b_swr := None;
  b_ttl := None;
  b_lock := Some (fun _ _ => mkContext enter (fun _ x => ret x))
|}.

(** A backend that works and keeps nothing. *)
Definition forgetful : backend store unit unit := {|
  b_get _ := ret None;
  b_set _ _ _ := ret tt;
  b_delete _ := ret false;
  b_get_buffer := None;
  b_view _ _ := [];
  b_close _ := ret tt;
  b_set_streaming := None;
  b_swr := None;
  b_ttl := None;
  b_lock := None
|}.

(** A backend that is down. *)
Definition outage (x : exn) : backend store unit unit := {|
  b_get _ := throw x;
  b_set _ _ _ := throw x;
  b_delete _ := throw x;
  b_get_buffer := None;
  b_view _ _ := [];
  b_close _ := ret tt;
  b_set_streaming := None;
  b_swr := None;
  b_ttl := None;
  b_lock := None
|}.

Definition identity : serialization store pybytes unit call := {|
  supports_mmap_read := false;
  supports_streaming := false;
  encryption_fail_closed := false;
  serialize_data v _ _ := ret v;
  deserialize_data d _ := ret d;
  write_serialized_to _ := tt
|}.

(** The function: counted, with the outcome of a call given. *)
Definition counting (outcome : call -> result exn pybytes) (c : call) : eff (closure store pybytes unit) pybytes :=
  on_ext (modify (fun w : store => (w.1, S w.2)) ;;~ lift (outcome c)).

(** [@cache(ttl=60)] on a function of one parameter [x]. *)
Definition demo (m : backend store unit unit) (coroutine l1 : bool) (key_func : option (call -> result exn (option pystr)))
    (f : call -> eff (closure store pybytes unit) pybytes) : decorated store pybytes unit unit unit := {|
  func := f;
  module := u "app";
  qualname := u "f";
  func_hash := u "f";
  parameters := [mkParameter (u "x") POSITIONAL_OR_KEYWORD None];
  is_coroutine := coroutine;
  ttl := Some 60;
  _stale_ttl := None;
  namespace := None;
  integrity_checking := true;
  refresh_ttl_on_get := false;
  threshold := fdiv (fofZ 1) (fofZ 2);
  fast_mode := false;
  l1_on := l1;
  _l1_only_mode := false;
  _l1_swr_active := false;
  interop := None;
  custom_key_func := key_func;
  serializer := identity;
  methods _ := m;
  key_prefixes _ _ := (None, None);
  get_backend := ret tt;
  acquire_permit _ := None
|}.

Definition one : call := mkCall [PInt 1] [].
Definition two : call := mkCall [PInt 2] [].

(** The closure after decoration, with a breaker of the default configuration. *)
Definition decorated_once : closure store pybytes unit := {|
  ext := ([], 0%nat);
  ticks := 0;
  getpid := 1;
  _l1_cache := L1Cache.init 1 (fofZ 1) (u "");
  _object_cache := None;
  _circuit_breaker := Some (CircuitBreaker.init default_config);
  _stats := FunctionStats.init (u "app.f") true;
  _current_function_stats := None;
  _cached_keys := ∅;
  _backend := Some tt;
  l2_swr := new_scheduler 1;
  _l1_swr_slots := 32;
  _l1_swr_pid := 1;
  tasks := []
|}.

(** A clock that stands still, and functions standing for what lies outside. *)
Definition still (_ : clock_name) (_ : nat) : float := fofZ 1000.
Definition no_hash (_ : Z) (_ : pybytes) : pybytes := [].
Definition no_hash3 (_ : pybytes) : pybytes := [].
Definition pack_none (_ : pyval) : result py_exn pybytes := Ok [].
Definition no_str (_ : call) : result exn pystr := Ok [].
Definition str_bytes (v : pybytes) : result exn pystr := Ok v.
Definition runs (s : closure store pybytes unit) : nat := (ext s).2.
Definition entries (s : closure store pybytes unit) : list (pystr * pybytes) := (ext s).1.

(** The decorated function of [demo] under these; a call of it. *)
Abbreviation run_demo original_of d :=
  (wrapper still (fun _ => fofZ 1) (fun _ => 1) no_hash no_hash3 pack_none no_str str_bytes (fun _ => true)
    (fun _ : store => true) original_of d).
