(* ===== verification/WrapperProps.v ===== *)
(** What a decorated function guarantees ([Wrapper.v]): its statistics context, the
    circuit breaker's part in a call, which calls run the function, what
    invalidation reaches. *)
From Stdlib Require Import ZArith Lia SpecFloat.
From stdpp Require Import base list numbers option strings gmap sets.
From S2P Require Import Prelude PyFloat PyDict Bytes PyValue Interop KeyGenerator FileSystem FileBackend Encryption.
From S2P Require Import L1Cache ObjectCache CircuitBreaker FunctionStats Signature Errors Effects Orchestrator Serializers Handler HandlerProps Wrapper WrapperInv WrapperExample.

Local Open Scope Z_scope.
Local Open Scope eff_scope.

#[local] Arguments should_allow_request : simpl never.
#[local] Arguments get_cached_value : simpl never.
#[local] Arguments get_cached_value_async : simpl never.
#[local] Arguments without_lock : simpl never.
#[local] Arguments async_miss : simpl never.
#[local] Arguments sync_miss : simpl never.
#[local] Arguments record_success : simpl never.
#[local] Arguments record_failure : simpl never.

Section Props.
Context {W V B Hd P : Type}.
Context (clock : clock_name -> nat -> float) (jitter : nat -> float).
Context (estimate : V -> Z).
Context (blake2b : Z -> pybytes -> pybytes) (blake3 : pybytes -> pybytes).
Context (packb : pyval -> result py_exn pybytes).
Context (str_call : call -> result exn pystr) (str_value : V -> result exn pystr).
Context (deepcopyable : call -> bool) (thread_starts : W -> bool).
Context (original_of : BackendError -> option exn) (set_order : gset pystr -> list pystr).

Local Abbreviation C := (closure W V B).
Local Abbreviation wrapped := (decorated W V B Hd P).
Local Abbreviation wrapper := (wrapper clock jitter estimate blake2b blake3 packb str_call str_value deepcopyable
  thread_starts original_of).
Local Abbreviation make_key := (make_key blake2b blake3 packb str_call).
Local Abbreviation sync_wrapper := (sync_wrapper clock jitter estimate blake2b blake3 packb str_call str_value
  deepcopyable thread_starts).
Local Abbreviation async_wrapper := (async_wrapper clock jitter estimate blake2b blake3 packb str_call deepcopyable
  thread_starts original_of).

(** The calls of a run, one after the other. *)
Definition calls (d : wrapped) (cs : list call) (s : C) : C := foldl (fun s c => (wrapper d c s).2) s cs.

Lemma calls_keep (I : C -> Prop) d cs s : (forall c, keeps I (wrapper d c)) -> I s -> I (calls d cs s).
Proof. intros H. revert s. induction cs as [|c cs IH]; intros s Hs; [done|]. apply IH, H, Hs. Qed.

(** ** The circuit breaker *)

Definition open (s : C) : Prop := exists b, _circuit_breaker s = Some b /\ _state b = OPEN.

Lemma open_insensitive : insensitive (Hd := Hd) (P := P) deepcopyable thread_starts open (fun _ => True).
Proof. split; try done. by apply unscheduled. Qed.

Lemma open_steps (d : wrapped) : keeps open success /\ (forall x, keeps open (failure clock x)) /\
  (forall f, keeps open (stat clock f)) /\ keeps open (set_stats d) /\ forall t, keeps open (reset_stats t).
Proof.
  split_and!; try (intros; intros s (b & E & O); by exists b).
  - intros s (b & E & O). exists (_on_success b). unfold success, modify, record_success. cbn. rewrite E.
    split; [done|]. unfold _on_success. by rewrite O.
  - intros x s (b & E & O). unfold failure, andthen, reading, modify, record_failure. cbn. rewrite E.
    eexists. split; [done|]. unfold _on_failure. destruct (excluded _ _); [done|]. by rewrite O.
Qed.

Lemma open_kept (d : wrapped) c : (forall c, keeps open (func d c)) -> keeps open (wrapper d c).
Proof.
  intros Hf. destruct (open_steps d) as (H1 & H2 & H3 & H4 & H5).
  eapply wrapper_keeps with (J := fun _ => True); auto using open_insensitive, outside_any.
Qed.

Definition refusal : exn := BackendExn (backend_error (u "Circuit breaker OPEN - failing fast") TRANSIENT).

Lemma open_refuses s : open s -> should_allow_request (_circuit_breaker s) = false.
Proof. intros (b & -> & O). unfold should_allow_request, get_state. by rewrite O. Qed.

(** C33. An open breaker stays open, whatever calls follow and however long: no call
    of a decorated function lets it half-open.  Until it is reset a synchronous
    function runs uncached, and an asynchronous one is not run at all: every call
    raises the refusal. *)
Theorem open_breaker_is_final d c key cs s : (forall c, keeps open (func d c)) -> open s ->
  bypasses c = false -> make_key d c = Ok key -> _l1_only_mode d = false ->
  let s' := calls d cs s in
  open s' /\
  (is_coroutine d = false -> exists s1, ext s1 = ext s' /\ wrapper d c s' = func d c s1) /\
  (is_coroutine d = true -> (wrapper d c s').1 = Err refusal /\ ext (wrapper d c s').2 = ext s').
Proof.
  intros Hf Hs Eb Ek El s'. assert (Hs' : open s') by (apply calls_keep; [|done]; intros; by apply open_kept).
  split; [done|]. pose proof (open_refuses s' Hs') as R. clearbody s'. split; intros Ei; unfold Wrapper.wrapper; rewrite Ei.
  - unfold Wrapper.sync_wrapper. rewrite Eb. unfold andthen at 1, set_stats. cbn. rewrite Ek, El.
    unfold sync_backed, attempt, sync_client. unfold andthen at 1 2, gets. cbn. rewrite R. cbn.
    unfold andthen, failure, reading, reset_stats, modify. cbn. eexists. split; [|reflexivity]. done.
  - unfold Wrapper.async_wrapper. rewrite Eb. unfold andthen at 1, set_stats. cbn. rewrite Ek, El.
    unfold async_backed, finally, andthen, gets, reset_stats, modify. cbn. rewrite R. cbn. done.
Qed.

(** ** What the breaker counts *)

(** A function over a backend without buffer or freshness, with no interop mode and
    free permits; [simple]: and without lock. *)
Record plain (d : wrapped) (b : B) : Prop := mkPlain {
  pl_mode : _l1_only_mode d = false;
  pl_interop : interop d = None;
  pl_stale : _stale_ttl d = None;
  pl_mmap : supports_mmap_read (serializer d) = false;
  pl_permit : forall w, acquire_permit d w = None
}.
Record simple (d : wrapped) (b : B) : Prop := mkSimple {
  sm_mode : _l1_only_mode d = false;
  sm_interop : interop d = None;
  sm_stale : _stale_ttl d = None;
  sm_mmap : supports_mmap_read (serializer d) = false;
  sm_stream : supports_streaming (serializer d) = false;
  sm_lock : b_lock (methods d b) = None;
  sm_permit : forall w, acquire_permit d w = None
}.

Lemma simple_plain d b : simple d b -> plain d b.
Proof. by intros []. Qed.

(** A call that reaches the backend with the breaker CLOSED. *)
Record reaches (d : wrapped) (b : B) (br : CircuitBreaker) (c : call) (key : pystr) (s : C) : Prop := mkReaches {
  rc_key : make_key d c = Ok key;
  rc_bypass : bypasses c = false;
  rc_backend : _backend s = Some b;
  rc_breaker : _circuit_breaker s = Some br;
  rc_closed : _state br = CLOSED
}.

(** A backend that finds nothing, by an empty answer or by an error. *)
Definition nothing_at (d : wrapped) (b : B) (k : pystr) (w : W) : Prop :=
  (b_get (methods d b) k w).2 = w /\
    match (b_get (methods d b) k w).1 with Ok None | Err _ => True | Ok (Some _) => False end.
Definition finds_nothing (d : wrapped) (b : B) : Prop := forall k w, nothing_at d b k w.

(** L1 holds nothing under [key], for want of an L1 or of an entry. *)
Definition l1_empty (d : wrapped) (key : pystr) (s : C) : Prop :=
  l1_on d = true -> od_get key (L1Cache.cache (_l1_cache s)) = None.

Lemma no_l1_empty d key s : l1_on d = false -> l1_empty d key s.
Proof. intros E H. by rewrite E in H. Qed.

(** [s'] has the L1 entries of [s]. *)
Definition same_l1 (s s' : C) : Prop := L1Cache.cache (_l1_cache s') = L1Cache.cache (_l1_cache s) /\
  (L1Cache.inv (_l1_cache s) -> L1Cache.inv (_l1_cache s')).

Lemma l1_check_empty d key s : l1_empty d key s -> exists s', l1_check clock d key s = (Ok None, s') /\
  ext s' = ext s /\ _circuit_breaker s' = _circuit_breaker s /\ _backend s' = _backend s /\ same_l1 s s'.
Proof.
  unfold l1_empty, l1_check. destruct (l1_on d); [intros E; specialize (E eq_refl)|intros _; by exists s].
  destruct (negb _); [|by exists s]. cbn. unfold l1_get, andthen, reading, ret. cbn.
  pose proof (L1Cache.l1_get_inv (clock Time (ticks s)) key (_l1_cache s)) as Hi. unfold L1Cache.get in *. rewrite E in *.
  eexists. split_and!; [reflexivity|done..|by split].
Qed.

Lemma with_ext_id (s : C) : with_ext s (ext s) = s.
Proof. by destruct s. Qed.

Lemma nothing_read d b key t s : plain d b -> nothing_at d b key (ext s) ->
  get_cached_value (operation clock d b) key t s = (Ok None, s) /\
  get_cached_value_async (operation clock d b) key t s = (Ok None, s).
Proof.
  intros [H2 H3 H4 H5 H8] [E1 E2].
  unfold get_cached_value, get_cached_value_async, trying, require_handler. cbn. unfold andthen, ret. cbn. rewrite H5.
  unfold get, get_async, degrading, trying, andthen, _with_backpressure_and_timeout, ret. cbn. rewrite H8. unfold on_ext.
  destruct (b_get (methods d b) key (ext s)) as [[[bs|]|x] w]; cbn in *; [done| |].
  - subst w. rewrite with_ext_id. by destruct t.
  - subst w. by rewrite with_ext_id.
Qed.

(** The read phase of such a call is a miss that leaves the breaker alone. *)
Lemma plain_miss d b c key s : plain d b -> l1_empty d key s -> nothing_at d b key (ext s) ->
  bypasses c = false -> make_key d c = Ok key ->
  should_allow_request (_circuit_breaker s) = true -> _backend s = Some b ->
  exists s1 token, ext s1 = ext s /\ _circuit_breaker s1 = _circuit_breaker s /\ _backend s1 = _backend s /\ same_l1 s s1 /\
    wrapper d c s =
      if is_coroutine d then finally (async_miss clock original_of d b key c) (reset_stats token) s1
      else sync_miss clock d b token key c s1.
Proof.
  intros S L F Eb Ek Ea Er. pose proof S as [H2 H3 H4 H5 H8]. unfold Wrapper.wrapper.
  assert (L1 : forall s', _l1_cache s' = _l1_cache s -> exists s2, l1_check clock d key s' = (Ok None, s2) /\
    ext s2 = ext s' /\ _circuit_breaker s2 = _circuit_breaker s' /\ _backend s2 = _backend s' /\ same_l1 s' s2).
  { intros s' E. apply l1_check_empty. unfold l1_empty. by rewrite E. }
  assert (R : forall t s', ext s' = ext s -> get_cached_value (operation clock d b) key t s' = (Ok None, s') /\
    get_cached_value_async (operation clock d b) key None s' = (Ok None, s')).
  { intros t s' E. rewrite <- E in F. split; by eapply nothing_read. }
  destruct (is_coroutine d).
  - unfold Wrapper.async_wrapper, async_backed, async_l1_then_l2, with_client, resolve, async_l2_or_miss,
      async_l2, async_read, swr_on, finally, andthen, attempt, gets, ret. rewrite Eb. cbn. rewrite Ek, H2. cbn. rewrite Ea, H3. cbn.
    destruct (L1 (with_context s (Some (_function_identifier (_stats s)))) eq_refl) as (s2 & E & E1 & E2 & E3 & E4).
    rewrite E, E3. cbn. rewrite Er. cbn. rewrite H4. cbn.
    rewrite (fun s' E => proj2 (R None s' E)) by done. cbn.
    eexists _, _. split_and!; [| | | |reflexivity]; [exact E1|exact E2|cbn in *; congruence|exact E4].
  - unfold Wrapper.sync_wrapper. rewrite Eb. unfold andthen at 1, set_stats. cbn. rewrite Ek, H2.
    unfold sync_backed, attempt, sync_client. unfold andthen at 1 2, gets. cbn. rewrite Ea. cbn.
    unfold resolve, andthen at 1, gets. cbn. rewrite Er. cbn. unfold or_reset. rewrite H3. cbn.
    destruct (L1 (with_context s (Some (_function_identifier (_stats s)))) eq_refl) as (s2 & E & E1 & E2 & E3 & E4).
    unfold andthen at 1, trying, ret. cbn. unfold andthen at 1. rewrite E. cbn.
    unfold andthen at 1, reading. cbn. unfold andthen at 1, sync_l2, sync_read, swr_on. rewrite H4. cbn.
    unfold andthen. rewrite (fun s' E => proj1 (R _ s' E)) by done. cbn.
    eexists _, _. split_and!; [| | | |reflexivity]; [exact E1|exact E2|cbn in *; congruence|exact E4].
Qed.

Lemma miss_phase d b c key s : simple d b -> l1_empty d key s -> nothing_at d b key (ext s) ->
  bypasses c = false -> make_key d c = Ok key ->
  should_allow_request (_circuit_breaker s) = true -> _backend s = Some b ->
  exists s1 token, ext s1 = ext s /\ _circuit_breaker s1 = _circuit_breaker s /\ _backend s1 = _backend s /\
    wrapper d c s =
      if is_coroutine d then finally (without_lock clock d b key c) (reset_stats token) s1
      else sync_miss clock d b token key c s1.
Proof.
  intros S L F Eb Ek Ea Er. destruct (plain_miss d b c key s (simple_plain _ _ S) L F Eb Ek Ea Er) as (s1 & t & E1 & E2 & E3 & _ & E).
  exists s1, t. split_and!; try done. rewrite E. unfold async_miss. cbn. by rewrite (sm_lock _ _ S).
Qed.

Lemma closed_allowed (s : C) br : _circuit_breaker s = Some br -> _state br = CLOSED ->
  should_allow_request (_circuit_breaker s) = true.
Proof. intros -> C. unfold should_allow_request, get_state. by rewrite C. Qed.

(** A function that raises [x] and touches nothing. *)
Definition always_raises (d : wrapped) (x : exn) : Prop := forall c s, func d c s = (Err x, s).

Definition is_backend_error (x : exn) : bool := match x with BackendExn _ => true | _ => false end.

Lemma raising_call d b br x c key s : simple d b -> l1_empty d key s -> finds_nothing d b -> reaches d b br c key s ->
  always_raises d x -> is_backend_error x = false ->
  (wrapper d c s).1 = Err x /\
  exists now, _circuit_breaker (wrapper d c s).2 = Some (_on_failure now (of_exn x) br) /\ _backend (wrapper d c s).2 = Some b.
Proof.
  intros S L F [Rk Rb Rbk Rbr Rc] Hx Hb. pose proof (closed_allowed s br Rbr Rc) as Ha.
  destruct (miss_phase d b c key s S L (F _ _) Rb Rk Ha Rbk) as (s1 & token & _ & E2 & E3 & ->).
  destruct (is_coroutine d).
  - unfold finally, without_lock, trying, async_compute, andthen. cbn. rewrite !Hx. cbn. split; [done|].
    exists (clock Time (ticks s1)). unfold record_failure. by rewrite E2, Rbr, E3.
  - unfold sync_miss, finally, trying, andthen. cbn. rewrite !Hx. destruct x; try done; cbn; (split; [done|]);
      exists (clock Time (ticks s1)); unfold record_failure; by rewrite E2, Rbr, E3.
Qed.

Lemma on_failure_counts now x br : is_backend_error x = false -> _state br = CLOSED ->
  _failure_count br < failure_threshold (config br) ->
  let br' := _on_failure now (of_exn x) br in
  config br' = config br /\
  if _failure_count br + 1 <? failure_threshold (config br)
  then _state br' = CLOSED /\ _failure_count br' = _failure_count br + 1
  else _state br' = OPEN.
Proof.
  intros Hx Hc Hn. unfold _on_failure. assert (E : excluded (of_exn x) br = false) by (destruct x; done).
  rewrite E, Hc. cbn. rewrite Z.ltb_antisym. by destruct (failure_threshold (config br) <=? _failure_count br + 1).
Qed.

(** The exceptions of the application open the breaker: against a backend that
    works and holds nothing, as many calls of a function that raises as the
    threshold leaves open it, whatever the exception, and the caller sees each one. *)
Theorem application_errors_open d b br x cs s : simple d b -> l1_on d = false -> finds_nothing d b ->
  always_raises d x -> is_backend_error x = false ->
  (forall c, c ∈ cs -> bypasses c = false /\ exists key, make_key d c = Ok key) ->
  _backend s = Some b -> _circuit_breaker s = Some br -> _state br = CLOSED ->
  _failure_count br < failure_threshold (config br) ->
  Z.of_nat (length cs) = failure_threshold (config br) - _failure_count br ->
  open (calls d cs s).
Proof.
  intros S L F Hx Hb. revert br s. induction cs as [|c cs IH]; intros br s Hc Rbk Rbr Rs Hn Hl; cbn in Hl; [lia|].
  destruct (Hc c) as (Cb & key & Ck); [by left|].
  destruct (raising_call d b br x c key s S (no_l1_empty d key s L) F (mkReaches _ _ _ _ _ _ Ck Cb Rbk Rbr Rs) Hx Hb) as (_ & now & E1 & E2).
  destruct (on_failure_counts now x br Hb Rs Hn) as [Ec Eo]. unfold calls. cbn [foldl].
  destruct (_failure_count br + 1 <? failure_threshold (config br)) eqn:T; zbool.
  - destruct Eo as [Es En]. apply (IH (_on_failure now (of_exn x) br)); try done; rewrite ?Ec; [|lia|lia].
    intros c' Hc'. apply Hc. by right.
  - destruct cs; [|cbn in Hl; lia]. cbn. by exists (_on_failure now (of_exn x) br).
Qed.

(** A function that returns [v] and touches nothing, and a value that serializes. *)
Definition always_returns (d : wrapped) (v : V) : Prop := forall c s, func d c s = (Ok v, s).
Definition serializes (d : wrapped) (v : V) : Prop := forall c key w, exists data w',
  Handler.serialize_data (serializer d) v c key w = (Ok data, w').

Lemma record_success_closed br : _state br = CLOSED -> record_success (Some br) = Some br.
Proof. intros E. unfold record_success, _on_success. cbn. by rewrite E. Qed.

(** Storing when every write fails: nothing is kept and success is recorded. *)
Lemma store_down d b v c key s : simple d b -> l1_on d = false ->
  (forall k data t w, exists x w', b_set (methods d b) k data t w = (Err x, w')) -> serializes d v ->
  (exists s', async_store clock d b key v c s = (Ok tt, s') /\
     _circuit_breaker s' = record_success (_circuit_breaker s) /\ _backend s' = _backend s) /\
  (exists s', sync_store clock d b key v c s = (Ok tt, s') /\
     _circuit_breaker s' = record_success (_circuit_breaker s) /\ _backend s' = _backend s).
Proof.
  intros [H2 H3 H4 H5 H6 H7 H8] H1 Hset Hser. destruct (Hser c key (ext s)) as (data & w & Es).
  destruct (Hset key data (ttl d) w) as (x & w' & Ew).
  assert (Set_ : Handler.set (handler d b) key data (ttl d) (_stale_ttl d) (with_ext s w) = (Ok false, with_ext s w')).
  { unfold Handler.set, degrading. erewrite run_trying_err; [reflexivity|]. apply run_andthen_err. rewrite H4.
    unfold _with_backpressure_and_timeout. cbn. rewrite H8. unfold on_ext. cbn. by rewrite Ew. }
  assert (Ser : on_ext (Handler.serialize_data (serializer d) v c key) s = (Ok data, with_ext s w)).
  { unfold on_ext. by rewrite Es. }
  split.
  - unfold async_store. erewrite run_andthen by exact Ser. erewrite run_andthen by exact Set_.
    unfold _put_l1. rewrite H1. cbn. eexists. split; [reflexivity|]. done.
  - unfold sync_store, store_result. erewrite run_andthen.
    2: { apply run_trying. erewrite run_andthen by reflexivity. cbn [serialization_handler lift_serialization operation set_cache_handler supports_streaming].
         rewrite H6, andb_false_r. erewrite run_andthen by reflexivity. unfold store_buffered.
         erewrite run_andthen by exact Ser. erewrite run_andthen by exact Set_. reflexivity. }
    rewrite H1. destruct data; cbn; eexists; (split; [reflexivity|]); done.
Qed.

(** An outage never opens the breaker.  When every read finds nothing or fails
    and every write fails, each call runs the function, returns its value and is
    recorded as a success: the breaker stays CLOSED with its count unchanged, for
    any number of calls. *)
Theorem outage_unseen d b br v c cs s : simple d b -> l1_on d = false -> finds_nothing d b ->
  (forall k data t w, exists x w', b_set (methods d b) k data t w = (Err x, w')) ->
  always_returns d v -> serializes d v ->
  (forall c', c' ∈ c :: cs -> bypasses c' = false /\ exists key, make_key d c' = Ok key) ->
  _backend s = Some b -> _circuit_breaker s = Some br -> _state br = CLOSED ->
  (wrapper d c (calls d cs s)).1 = Ok v /\ _circuit_breaker (calls d (cs ++ [c]) s) = Some br.
Proof.
  intros S L F Hset Hv Hser Hc Rbk Rbr Rs.
  assert (One : forall c' s', c' ∈ c :: cs -> _backend s' = Some b -> _circuit_breaker s' = Some br ->
    (wrapper d c' s').1 = Ok v /\ _circuit_breaker (wrapper d c' s').2 = Some br /\ _backend (wrapper d c' s').2 = Some b).
  { intros c' s' Hin Eb Ebr. destruct (Hc c' Hin) as (Cb & key & Ck).
    destruct (miss_phase d b c' key s' S (no_l1_empty d key s' L) (F _ _) Cb Ck (closed_allowed s' br Ebr Rs) Eb) as (s1 & token & E1 & E2 & E3 & ->).
    destruct (store_down d b v c' key s1 S L Hset Hser) as [(s2 & A & A2 & A3) (s3 & Y & Y2 & Y3)]. destruct (is_coroutine d).
    - erewrite run_finally; [| |reflexivity].
      2: { apply run_trying. unfold async_compute. erewrite run_andthen by apply Hv.
           erewrite run_andthen by (apply run_trying, A). reflexivity. }
      cbn. by rewrite A2, A3, E2, E3, Ebr, record_success_closed.
    - unfold sync_miss. erewrite run_finally; [| |reflexivity].
      2: { apply run_trying. erewrite run_andthen by apply Hv.
           erewrite run_andthen by (apply run_trying, Y). reflexivity. }
      cbn. by rewrite Y2, Y3, E2, E3, Ebr, record_success_closed. }
  assert (Run : forall l s', (forall c', c' ∈ l -> c' ∈ c :: cs) -> _backend s' = Some b -> _circuit_breaker s' = Some br ->
    _backend (calls d l s') = Some b /\ _circuit_breaker (calls d l s') = Some br).
  { induction l as [|c' l IH]; intros s' Hl Eb Ebr; [done|]. destruct (One c' s') as (_ & G1 & G2); [apply Hl; by left|done|done|].
    apply IH; [|done|done]. intros c2 H2. apply Hl. by right. }
  destruct (Run cs s) as [R1 R2]; [intros; by right|done|done|].
  destruct (One c (calls d cs s)) as (G & G1 & _); [by left|done|done|]. split; [done|].
  unfold calls in *. by rewrite foldl_app.
Qed.

(** ** The statistics context *)

Definition in_context (t : option pystr) (s : C) : Prop := _current_function_stats s = t.

(** A computation that ends with the token back in place, from any state. *)
Definition resets {A} (t : option pystr) (m : eff C A) : Prop := triple (fun _ => True) m (fun _ => in_context t).

Lemma reset_then {A} t (m : eff C A) : keeps (in_context t) m -> resets t (reset_stats t ;;~ m).
Proof. intros H s _. apply H. done. Qed.

Lemma resets_after {A X} t (m : eff C A) (f : A -> eff C X) :
  (forall a, resets t (f a)) -> (forall w x w', m w = (Err x, w') -> in_context t w') -> resets t (andthen m f).
Proof.
  intros Hf Hm s _. unfold andthen. destruct (m s) as [[a|x] s'] eqn:E; [by apply Hf|]. by eapply Hm.
Qed.

Lemma resets_never {A X} t (m : eff C A) (f : A -> eff C X) : never_raises m -> (forall a, resets t (f a)) -> resets t (andthen m f).
Proof. intros Hm Hf. apply resets_after; [done|]. intros w x w' E. by apply Hm in E. Qed.

Lemma resets_finally {A} t (m : eff C A) : resets t (finally m (reset_stats t)).
Proof. intros s _. unfold finally. by destruct (m s). Qed.

Lemma attempt_never {A} (m : eff C A) : never_raises (attempt m).
Proof. intros s x s' E. unfold attempt in E. by destruct (m s). Qed.

Lemma failure_never x : never_raises (W := C) (failure clock x).
Proof. by intros s y s'. Qed.
Lemma stat_never f : never_raises (W := C) (stat clock f).
Proof. by intros s y s'. Qed.
Lemma reading_never k : never_raises (W := C) (reading clock k).
Proof. by intros s y s'. Qed.
Lemma reset_never t : never_raises (W := C) (reset_stats t).
Proof. by intros s y s'. Qed.

Lemma after_or_reset {A X} t (m : eff C A) (f : A -> eff C X) : (forall a, resets t (f a)) ->
  resets t (andthen (or_reset t m) f).
Proof.
  intros Hf. apply resets_after; [done|]. intros w x w' E. unfold or_reset, trying in E.
  destruct (m w) as [[a|y] w1]; [done|]. by injection E as _ <-.
Qed.

Lemma sync_l2_some (d : wrapped) b t key c start s v s' :
  sync_l2 clock str_value deepcopyable thread_starts d b t key c start s = (Ok (Some v), s') -> in_context t s'.
Proof.
  intros (r & s1 & _ & E)%andthen_ok. apply andthen_ok in E as (l & s2 & _ & E). destruct r as [[w stale]|]; [|done].
  do 4 (apply andthen_ok in E as (? & ? & _ & E)). apply andthen_ok in E as ([] & s3 & R & E).
  injection R as <-. by injection E as _ <-.
Qed.

Lemma sync_backed_resets (d : wrapped) t key c : (forall c, keeps (in_context t) (func d c)) ->
  resets t (sync_backed clock str_value deepcopyable thread_starts d t key c).
Proof.
  intros Hf. assert (Fail : forall x, resets t (failure clock x ;;~ reset_stats t ;;~ func d c)).
  { intros x. apply resets_never; [apply failure_never|]. intros _. by apply reset_then. }
  unfold sync_backed. apply resets_never; [apply attempt_never|]. intros [b|x]; [|done].
  apply after_or_reset. intros _. apply after_or_reset. intros [v|]; [apply reset_then, keeps_ret|].
  apply resets_never; [apply reading_never|]. intros start s _. unfold andthen, attempt.
  destruct (sync_l2 clock str_value deepcopyable thread_starts d b t key c start s) as [[[v|]|x] s'] eqn:E.
  - by apply sync_l2_some in E.
  - apply (resets_never t); [apply stat_never|intros _; apply resets_finally|done].
  - each_exn x; first [done|by apply Fail].
Qed.

(** In the L1-only mode, with a bounded semaphore. *)
Definition slots_bounded (s : C) : Prop := _l1_swr_slots s <= _L1_SWR_MAX_CONCURRENT_REFRESHES.

Lemma on_objects_ok {A} (f : ObjectCache V -> A * ObjectCache V) (s : C) : is_Some (_object_cache s) ->
  exists a o, on_objects (fun c => Ok (f c)) s = (Ok a, with_objects s (Some o)).
Proof. intros [o Eo]. unfold on_objects. rewrite Eo. destruct (f o) as [a o']. by exists a, o'. Qed.

Lemma objects_lookup_ok (d : wrapped) key s : is_Some (_object_cache s) -> exists r s', objects_lookup clock jitter d key s = (Ok r, s') /\
  is_Some (_object_cache s') /\ _l1_swr_slots s' = _l1_swr_slots s.
Proof.
  intros [o Ho]. unfold objects_lookup, objects_get, objects_get_with_swr, andthen, reading, uniform, on_objects.
  destruct (_l1_swr_active d), (ttl d); cbn; rewrite Ho; cbn.
  2-4: destruct (ObjectCache.get _ key o); cbn; eexists _, _; (split; [reflexivity|]); by split.
  destruct (ObjectCache.get_with_swr _ _ key _ o); cbn; eexists _, _; (split; [reflexivity|]); by split.
Qed.

Lemma schedule_refresh_ok (d : wrapped) key n c s : is_Some (_object_cache s) -> slots_bounded s ->
  exists s', schedule_refresh deepcopyable thread_starts d key n c s = (Ok tt, s').
Proof.
  intros [o Ho] Hs. unfold slots_bounded, _L1_SWR_MAX_CONCURRENT_REFRESHES in Hs.
  unfold schedule_refresh, _l1_swr_acquire, l1_slots_acquire, l1_slots_release, objects_cancel, on_objects,
    _L1_SWR_MAX_CONCURRENT_REFRESHES, start_thread, spawn, modify, trying, andthen, ret.
  set (m := if bool_decide (_l1_swr_pid s = getpid s) then _l1_swr_slots s else 32).
  assert (Hm : m <= 32) by (unfold m; case_bool_decide; lia).
  destruct (m <=? 0) eqn:E; cbn; [rewrite Ho; cbn; by eexists|].
  destruct (deepcopyable c); cbn.
  - destruct (is_coroutine d); cbn; [by eexists|]. destruct (thread_starts (ext s)); cbn; [by eexists|].
    rewrite (proj2 (Z.ltb_lt _ _)) by lia. cbn. rewrite Ho. cbn. by eexists.
  - rewrite (proj2 (Z.ltb_lt _ _)) by lia. cbn. rewrite Ho. cbn. by eexists.
Qed.

Lemma sync_l1_only_resets (d : wrapped) t key c s : is_Some (_object_cache s) -> slots_bounded s ->
  in_context t (sync_l1_only clock jitter estimate deepcopyable thread_starts d t key c s).2.
Proof.
  intros Ho Hs. destruct (objects_lookup_ok d key s Ho) as (r & s1 & E & Ho1 & Hs1). unfold sync_l1_only.
  rewrite (run_andthen _ _ _ _ _ E). destruct (swr_value r) as [v|]; [|by apply (resets_never t); [apply stat_never|intros _; apply resets_finally|]].
  erewrite run_andthen by reflexivity. destruct (needs_refresh r).
  - set (s2 := with_stats _ _). destruct (schedule_refresh_ok d key (version r) c s2) as [s3 E3]; [done|unfold slots_bounded in *; cbn; lia|].
    by rewrite (run_andthen _ _ _ _ _ E3).
  - done.
Qed.

(** The statistics context never leaks: whatever a call meets (a hit, a miss, a
    tampered entry, a failing backend, key generation or function), once it is over
    the context variable holds what it held before, for synchronous functions,
    which reset it by hand on every exit, and asynchronous ones. *)
Theorem context_restored (d : wrapped) c s : (forall t c, keeps (in_context t) (func d c)) -> slots_bounded s ->
  _current_function_stats (wrapper d c s).2 = _current_function_stats s.
Proof.
  intros Hf Hs. set (t := _current_function_stats s). change (in_context t (wrapper d c s).2). unfold Wrapper.wrapper.
  destruct (is_coroutine d).
  - unfold Wrapper.async_wrapper. destruct (bypasses c); [by apply Hf|]. erewrite run_andthen by reflexivity.
    apply (resets_finally t). done.
  - unfold Wrapper.sync_wrapper. destruct (bypasses c); [by apply Hf|]. erewrite run_andthen by reflexivity. fold t.
    destruct (make_key d c) as [key|x].
    + destruct (_l1_only_mode d).
      * erewrite run_andthen by reflexivity. case_bool_decide as Ho; [|by apply (resets_finally t)].
        by apply sync_l1_only_resets.
      * apply sync_backed_resets; [apply Hf|done].
    + destruct (interop d); [done|]. apply (resets_never t); [apply failure_never|intros _; apply reset_then, Hf|done].
Qed.

(** ** Exceptions *)

(** What the function raises somewhere. *)
Definition func_raises (d : wrapped) (x : exn) : Prop := exists c s s', func d c s = (Err x, s').

(** What a call in backed mode may raise, besides the function's exceptions. *)
Definition escapes (d : wrapped) (c : call) (x : exn) : Prop :=
  func_raises d x \/
  x = InteropError \/
  interop d <> None /\ (make_key d c = Err x \/ x = ConfigurationError) \/
  l1_on d = true /\ x = KeyringConfigurationError \/
  encryption_fail_closed (serializer d) = true /\ x = AuthenticationErr.

Lemma never_raises_only {A} (Q : exn -> Prop) (m : eff C A) : never_raises m -> raises_only Q m.
Proof. intros H. by apply (raises_only_weaken (fun _ => False)). Qed.

Lemma success_never : never_raises (W := C) success.
Proof. by intros s y s'. Qed.
Lemma track_never key : never_raises (W := C) (track key).
Proof. by intros s y s'. Qed.
Lemma set_stats_never (d : wrapped) : never_raises (set_stats d).
Proof. by intros s y s'. Qed.
Lemma gets_never {A} (f : C -> A) : never_raises (gets f).
Proof. by intros s y s'. Qed.
Lemma l1_get_never key : never_raises (W := C) (l1_get clock key).
Proof. intros s y s'. unfold l1_get, andthen, reading. by destruct (L1Cache.get _ _ _). Qed.
Lemma l1_put_never (d : wrapped) key bs : never_raises (l1_put clock d key bs).
Proof.
  intros s y s'. unfold l1_put, andthen, reading, L1Cache.put. cbn. by repeat case_match.
Qed.
Lemma l1_invalidate_never key : never_raises (W := C) (l1_invalidate key).
Proof. by intros s y s'. Qed.
#[local] Hint Resolve never_raises_only failure_never stat_never reading_never reset_never success_never track_never
  set_stats_never gets_never l1_get_never l1_put_never l1_invalidate_never : neverdb.
#[local] Hint Resolve raises_only_ret : neverdb.

Lemma func_escapes (d : wrapped) c c' : raises_only (escapes d c) (func d c').
Proof. intros s x s' E. left. by exists c', s, s'. Qed.

Lemma l1_check_escapes (d : wrapped) c key : raises_only (escapes d c) (l1_check clock d key).
Proof.
  unfold l1_check. destruct (l1_on d) eqn:El; [|apply raises_only_ret]. destruct (negb _); [|apply raises_only_ret]. cbn.
  apply raises_only_andthen; [eauto with neverdb|]. intros [[|b bs]|]; try apply raises_only_ret.
  apply (raises_only_attempt (fun _ => True)); [done| |].
  - intros v. repeat (apply raises_only_andthen; [eauto with neverdb|intros _]). apply raises_only_ret.
  - intros x _. apply raises_only_andthen; [|intros; apply raises_only_ret]. unfold l1_failure.
    destruct x; eauto with neverdb.
    + apply raises_only_andthen; [eauto with neverdb|intros _].
      apply raises_only_andthen; [|intros; apply raises_only_ret]. apply raises_only_lift.
      intros x E. apply policy_raises in E as [-> Ef]. right. right. right. right. by split.
    + apply raises_only_throw. right. right. right. left. by split.
Qed.

Lemma compatible_escapes (d : wrapped) c b : interop d <> None -> raises_only (escapes d c) (ensure_compatible d b).
Proof.
  intros Hi. apply raises_only_andthen; [eauto with neverdb|]. intros w. apply raises_only_lift. intros x E.
  right. right. left. split; [done|]. right. unfold ensure_interop_backend_compatible in E.
  destruct b as [b|]; cbn in E; [|done]. destruct (key_prefixes d b w) as [p q]. destruct (_ || _); [|done].
  by injection E as <-.
Qed.

Lemma store_result_escapes (d : wrapped) b key v t c st c' :
  raises_only (escapes d c') (store_result (operation clock d b) key v t c st).
Proof.
  eapply raises_only_weaken; [apply (stores_raise (operation clock d b) key t v c st)|]. intros x ->. by right; left.
Qed.

Lemma sync_store_escapes (d : wrapped) b key v c : raises_only (fun x => x = InteropError) (sync_store clock d b key v c).
Proof.
  unfold sync_store. apply raises_only_andthen.
  - apply (stores_raise (operation clock d b) key (ttl d) v c (_stale_ttl d)).
  - intros bytes. apply raises_only_andthen; [|intros _; apply raises_only_andthen; eauto with neverdb].
    destruct bytes as [[|x r]|]; try apply raises_only_ret. case_match; eauto with neverdb.
Qed.

Lemma store_failed_raises x : raises_only (W := C) (fun y => y = InteropError) (store_failed clock x).
Proof. destruct x; cbn; eauto with neverdb. by apply raises_only_throw. Qed.

Lemma sync_miss_escapes (d : wrapped) b t key c : raises_only (escapes d c) (sync_miss clock d b t key c).
Proof.
  unfold sync_miss. apply raises_only_finally; [|eauto with neverdb].
  apply (raises_only_handled (escapes d c)).
  - apply raises_only_andthen; [apply func_escapes|]. intros v. apply raises_only_andthen; [|intros; apply raises_only_ret].
    apply (raises_only_weaken (fun x => x = InteropError)); [|intros x ->; by right; left].
    apply raises_only_trying. apply store_failed_raises.
  - intros x Hx. assert (raises_only (W := C) (escapes d c) (failure clock x ;;~ throw (A := V) x)).
    { apply raises_only_andthen; [eauto with neverdb|]. intros _. by apply raises_only_throw. }
    destruct x; try done. apply raises_only_andthen; [eauto with neverdb|]. intros _. apply func_escapes.
Qed.

(** What the L2 phase of a synchronous call raises to the caller, of what it meets. *)
Lemma sync_l2_auth (d : wrapped) b t key c start c' : (forall v, str_value v <> Err AuthenticationErr) ->
  raises_only (fun x => x = AuthenticationErr -> escapes d c' x)
    (sync_l2 clock str_value deepcopyable thread_starts d b t key c start).
Proof.
  intros Hv. unfold sync_l2. apply raises_only_andthen.
  - unfold sync_read. destruct (reads_raise (operation clock d b) key (refresh_ttl d)) as (R1 & _ & R3 & _).
    assert (Hw : forall x, read_escape (operation clock d b) x -> x = AuthenticationErr -> escapes d c' x).
    { intros x [->|[-> Hf]] Hx; [done|]. right. right. right. right. by split. }
    case_match; [by eapply raises_only_weaken|]. apply raises_only_andthen; [by eapply raises_only_weaken|].
    intros; apply raises_only_ret.
  - intros r. apply raises_only_andthen; [apply raises_only_andthen; eauto with neverdb|]. intros l.
    destruct r as [[v stale]|]; [|apply raises_only_ret].
    apply raises_only_andthen; [eauto with neverdb|]. intros _. apply raises_only_andthen.
    { apply raises_only_lift. intros x E Ex. subst x. destruct (str_value v) as [tx|y] eqn:Es; cbn in E.
      - by destruct (utf8_encode tx).
      - injection E as ->. by destruct (Hv v). }
    intros _. apply raises_only_andthen; [eauto with neverdb|]. intros _.
    apply raises_only_andthen; [|intros _; apply raises_only_andthen; eauto with neverdb].
    destruct stale; [|apply raises_only_ret]. intros s x s' E Ex. subst x. revert E.
    unfold _l2_swr_schedule, andthen, begin_swr, end_swr, trying, start_thread, spawn, modify, ret.
    destruct (_l2_swr_try_begin _ _ _) as [[] sc]; cbn; [|done].
    destruct (deepcopyable c); cbn; [destruct (thread_starts _); cbn; [done|]|];
      by destruct (_l2_swr_end key sc).
Qed.

Lemma or_reset_raises {A} (Q : exn -> Prop) t (m : eff C A) : raises_only Q m -> raises_only Q (or_reset t m).
Proof.
  intros H. apply (raises_only_handled Q); [done|]. intros x Hx.
  apply raises_only_andthen; [eauto with neverdb|]. intros _. by apply raises_only_throw.
Qed.

Lemma degraded_escapes (d : wrapped) t c x : raises_only (escapes d c) (failure clock x ;;~ reset_stats t ;;~ func d c).
Proof. repeat (apply raises_only_andthen; [eauto with neverdb|intros _]). apply func_escapes. Qed.

End Props.

(** ** Concrete runs *)

Abbreviation demo_calls d :=
  (calls still (fun _ => fofZ 1) (fun _ => 1) no_hash no_hash3 pack_none no_str str_bytes (fun _ => true)
    (fun _ : store => true) (fun _ => None) d).

(** A function that raises, without a count. *)
Definition raising (x : exn) : call -> eff (closure store pybytes unit) pybytes := fun _ s => (Err x, s).
Definition returning (v : pybytes) : call -> eff (closure store pybytes unit) pybytes := fun _ s => (Ok v, s).

Definition tripped : closure store pybytes unit :=
  with_breaker decorated_once (Some (foldl (fun b _ => _on_failure (fofZ 1) OtherExn b) (CircuitBreaker.init default_config) (seq 0 5))).

Lemma counting_keeps (I : closure store pybytes unit -> Prop) f c : (forall s x, I s -> I (with_ext s x)) -> keeps I (counting f c).
Proof. intros H s Hs. unfold counting, on_ext. cbn. by apply H. Qed.

Lemma open_breaker_is_final_witness :
  let d := demo memory true true None (counting (fun _ => Ok [7])) in
  open (demo_calls d [two; two; one] tripped) /\ (run_demo (fun _ => None) d one (demo_calls d [two; two; one] tripped)).1 = Err refusal.
Proof.
  destruct (open_breaker_is_final still (fun _ => fofZ 1) (fun _ => 1) no_hash no_hash3 pack_none no_str str_bytes
    (fun _ => true) (fun _ => true) (fun _ => None) (demo memory true true None (counting (fun _ => Ok [7]))) one
    (u "func:app.f:args::1s") [two; two; one] tripped) as (H & _ & Hc).
  - intros c. apply counting_keeps. intros s x (b & E & O). by exists b.
  - eexists. split; [reflexivity|]. by vm_compute.
  - done.
  - by vm_compute.
  - done.
  - split; [exact H|]. by apply Hc.
Defined.

Lemma application_errors_open_witness :
  let d := demo forgetful false false None (raising (PyExn KeyError)) in
  open (demo_calls d [one; two; one; two; one] decorated_once) /\ (demo_calls d [one; two; one; two] decorated_once).(ext) = ([], 0%nat).
Proof.
  split; [|by vm_compute].
  apply (application_errors_open still (fun _ => fofZ 1) (fun _ => 1) no_hash no_hash3 pack_none no_str str_bytes
    (fun _ => true) (fun _ => true) (fun _ => None) _ tt (CircuitBreaker.init default_config) (PyExn KeyError)); try done.
  - intros c Hc. assert (c = one \/ c = two) as [->| ->] by set_solver; (split; [done|]); eexists; by vm_compute.
Defined.

Lemma outage_unseen_witness :
  let d := demo (outage (PyExn KeyError)) true false None (returning [7]) in
  (run_demo (fun _ => None) d one (demo_calls d [one; two; one; two; one; two] decorated_once)).1 = Ok [7].
Proof.
  apply (outage_unseen still (fun _ => fofZ 1) (fun _ => 1) no_hash no_hash3 pack_none no_str str_bytes
    (fun _ => true) (fun _ => true) (fun _ => None) _ tt (CircuitBreaker.init default_config) [7]); try done.
  - by eexists _, _.
  - by eexists _, _.
  - intros c Hc. assert (c = one \/ c = two) as [->| ->] by set_solver; (split; [done|]); eexists; by vm_compute.
Defined.

Lemma context_restored_witness :
  let d := demo (outage (PyExn KeyError)) false true None (counting (fun _ => Err OtherError)) in
  _current_function_stats (run_demo (fun _ => None) d one (with_context decorated_once (Some (u "g")))).2 = Some (u "g").
Proof.
  apply (context_restored still (fun _ => fofZ 1) (fun _ => 1) no_hash no_hash3 pack_none no_str str_bytes
    (fun _ => true) (fun _ => true) (fun _ => None)).
  - intros t c. by apply counting_keeps.
  - by vm_compute.
Defined.

