(* ===== verification/WrapperCalls.v ===== *)
(** What a decorated function caches ([Wrapper.v]): a stored value is served and
    spares the function, invalidation brings the function back where it can reach
    the entry, and how often a call runs the function. *)
From Stdlib Require Import ZArith Lia SpecFloat.
From stdpp Require Import base list numbers option strings gmap sets.
From S2P Require Import Prelude PyFloat PyDict Bytes PyValue Interop KeyGenerator FileSystem FileBackend Encryption.
From S2P Require Import L1Cache ObjectCache CircuitBreaker FunctionStats Signature Errors Effects Orchestrator Serializers Handler HandlerProps Wrapper WrapperInv WrapperProps WrapperExample.

Local Open Scope Z_scope.
Local Open Scope eff_scope.

#[local] Arguments should_allow_request : simpl never.
#[local] Arguments get_cached_value : simpl never.
#[local] Arguments get_cached_value_async : simpl never.
#[local] Arguments record_success : simpl never.
#[local] Arguments record_failure : simpl never.

Section Calls.
Context {W V B Hd P : Type}.
Context (clock : clock_name -> nat -> float) (jitter : nat -> float).
Context (estimate : V -> Z).
Context (blake2b : Z -> pybytes -> pybytes) (blake3 : pybytes -> pybytes).
Context (packb : pyval -> result py_exn pybytes).
Context (str_call : call -> result exn pystr) (str_value : V -> result exn pystr).
Context (deepcopyable : call -> bool) (thread_starts : W -> bool).
Context (original_of : BackendError -> option exn) (set_order : gset pystr -> list pystr).

Local Abbreviation C := (closure W V B).
Local Abbreviation wrapped := (decorated W V B Hd P).
Local Abbreviation wrapper := (wrapper clock jitter estimate blake2b blake3 packb str_call str_value deepcopyable
  thread_starts original_of).
Local Abbreviation make_key := (make_key blake2b blake3 packb str_call).
Local Abbreviation calls := (calls clock jitter estimate blake2b blake3 packb str_call str_value deepcopyable
  thread_starts original_of).
Local Abbreviation simple := (simple (W := W) (V := V) (B := B) (Hd := Hd) (P := P)).
Local Abbreviation plain := (plain (W := W) (V := V) (B := B) (Hd := Hd) (P := P)).

(** The same decoration of another function. *)
Definition with_func (d : wrapped) (f : call -> eff C V) : wrapped := {|
  func := f; module := module d; qualname := qualname d; func_hash := func_hash d; parameters := parameters d;
  is_coroutine := is_coroutine d; ttl := ttl d; _stale_ttl := _stale_ttl d; namespace := namespace d;
  integrity_checking := integrity_checking d; refresh_ttl_on_get := refresh_ttl_on_get d; threshold := threshold d;
  fast_mode := fast_mode d; l1_on := l1_on d; _l1_only_mode := _l1_only_mode d; _l1_swr_active := _l1_swr_active d;
  interop := interop d; custom_key_func := custom_key_func d; serializer := serializer d; methods := methods d;
  key_prefixes := key_prefixes d; get_backend := get_backend d; acquire_permit := acquire_permit d
|}.

(** ** What is stored is served *)

(** A backend that gives back what it was given: [holds k v w] when [w] has [v]
    under [k]. *)
Record retains (m : backend W Hd P) (holds : pystr -> pybytes -> W -> Prop) : Prop := mkRetains {
  rt_get : forall k v w, holds k v w -> exists w', b_get m k w = (Ok (Some v), w') /\ holds k v w';
  rt_set : forall k v t w, exists w', b_set m k v t w = (Ok tt, w') /\ holds k v w';
  rt_ttl : forall g r k v k', b_ttl m = Some (g, r) -> keeps (holds k v) (g k')
}.

(** [data] decodes to [v] under [key], and decoding leaves the backend alone. *)
Definition decodes (d : wrapped) (holds : pystr -> pybytes -> W -> Prop) (key : pystr) (data : pybytes) (v : V) : Prop :=
  forall w, exists w', Handler.deserialize_data (serializer d) data key w = (Ok v, w') /\
    forall k x, holds k x w -> holds k x w'.

Definition encodes (d : wrapped) (holds : pystr -> pybytes -> W -> Prop) (v : V) : Prop :=
  forall c key w, exists data w', Handler.serialize_data (serializer d) v c key w = (Ok data, w') /\ decodes d holds key data v.

(** The size of a value can be taken. *)
Definition sized (v : V) : Prop := exists t bs, str_value v = Ok t /\ utf8_encode t = Ok bs.

(** A call that gets to the backend: the breaker, if any, is CLOSED. *)
Record ready (b : B) (s : C) : Prop := mkReady {
  rd_backend : _backend s = Some b;
  rd_breaker : match _circuit_breaker s with Some br => _state br = CLOSED | None => True end
}.

Lemma ready_allowed b s : ready b s -> should_allow_request (_circuit_breaker s) = true.
Proof.
  intros [_ H]. unfold should_allow_request, get_state. destruct (_circuit_breaker s) as [br|]; [|done]. by rewrite H.
Qed.

Lemma ready_success b s : ready b s -> record_success (_circuit_breaker s) = _circuit_breaker s.
Proof. intros [_ H]. destruct (_circuit_breaker s) as [br|]; [|done]. by apply record_success_closed. Qed.

(** Whatever L1 holds under [key] decodes to [v]. *)
Definition l1_serves (d : wrapped) (holds : pystr -> pybytes -> W -> Prop) (key : pystr) (v : V) (s : C) : Prop :=
  l1_on d = true -> L1Cache.inv (_l1_cache s) /\
    forall e, od_get key (L1Cache.cache (_l1_cache s)) = Some e -> decodes d holds key (L1Cache.value e) v.

(** The state after a phase: as [ready], with [data] under [key] in the backend, and
    nothing else there in L1. *)
Definition served (d : wrapped) (b : B) (holds : pystr -> pybytes -> W -> Prop) (key : pystr) (data : pybytes) (v : V) (s : C) : Prop :=
  ready b s /\ holds key data (ext s) /\ l1_serves d holds key v s.

Section Served.
Context (d : wrapped) (b : B) (holds : pystr -> pybytes -> W -> Prop) (key : pystr) (data : pybytes) (v : V).
Context (Hd_ : plain d b) (Hm : retains (methods d b) holds) (Hdec : decodes d holds key data v).
Local Abbreviation I := (served d b holds key data v).

(** Changes of the closure that neither the backend, the breaker nor L1 sees. *)
Lemma served_change (f : C -> C) (s : C) : _backend (f s) = _backend s -> _circuit_breaker (f s) = _circuit_breaker s ->
  ext (f s) = ext s -> _l1_cache (f s) = _l1_cache s -> I s -> I (f s).
Proof. intros E1 E2 E3 E4 [[H1 H2] [H3 H4]]. split; [split|split]; unfold l1_serves; by rewrite ?E1, ?E2, ?E3, ?E4. Qed.

Lemma served_modify (f : C -> C) : (forall s, _backend (f s) = _backend s) -> (forall s, _circuit_breaker (f s) = _circuit_breaker s) ->
  (forall s, ext (f s) = ext s) -> (forall s, _l1_cache (f s) = _l1_cache s) -> yields I (modify f) (fun _ => True).
Proof. intros E1 E2 E3 E4. apply yields_modify. intros s. by apply served_change. Qed.

Lemma served_reading k : yields I (reading clock k) (fun _ => True).
Proof. intros s Hs. eexists _, _. split_and!; [reflexivity|done|by apply (served_change (fun s => with_ticks s _))]. Qed.

Lemma served_stat f : yields I (stat clock f) (fun _ => True).
Proof. eapply yields_andthen; [apply served_reading|]. intros. by apply served_modify. Qed.

Lemma served_success : yields I success (fun _ => True).
Proof.
  apply yields_modify. intros s Hs. apply (served_change (fun s => with_breaker s _)); try done. cbn. by eapply ready_success, Hs.
Qed.

Lemma served_ext {A} (m : eff W A) Q : yields (holds key data) m Q -> yields I (on_ext m) Q.
Proof.
  intros Hy s [[H1 H2] [H3 H4]]. destruct (Hy _ H3) as (a & w & E & Ha & Hw). exists a, (with_ext s w). unfold on_ext. rewrite E.
  by split_and!.
Qed.

Lemma served_get : yields I (_with_backpressure_and_timeout (handler d b) (b_get (lift_backend (methods d b)) key)) (fun r => r = Some data).
Proof.
  unfold _with_backpressure_and_timeout. intros s. cbn. rewrite (pl_permit _ _ Hd_). revert s. apply served_ext. intros w Hw.
  destruct (rt_get _ _ Hm _ _ _ Hw) as (w' & E & Hw'). by exists (Some data), w'.
Qed.

Lemma served_decode : yields I (Handler.deserialize_data (lift_serialization (serializer d)) data key) (fun r => r = v).
Proof.
  apply served_ext. intros w Hw. destruct (Hdec w) as (w' & E & Hk). exists v, w'. split_and!; [done|done|by apply Hk].
Qed.

Lemma served_decoded r : r = Some data -> yields I (decoded (operation clock d b) key r) (fun r => r = Some (v, data)).
Proof.
  intros ->. eapply yields_andthen; [apply served_decode|]. intros a ->. by apply yields_ret.
Qed.

Lemma served_read t : yields I (get_cached_value (operation clock d b) key t) (fun r => r = Some v).
Proof.
  apply yields_trying. eapply (yields_andthen _ _ _ (fun h => h = handler d b)); [by apply yields_ret|]. intros h ->.
  cbn. rewrite (pl_mmap _ _ Hd_). eapply (yields_andthen _ _ _ (fun h => h = None)); [by apply yields_ret|]. intros h ->.
  eapply yields_andthen; [apply yields_trying, served_get|]. intros r Hr.
  eapply yields_andthen; [by apply served_decoded|]. intros a ->. by apply yields_ret.
Qed.

Lemma served_read_async : yields I (get_cached_value_async (operation clock d b) key None) (fun r => r = Some (v, data)).
Proof.
  apply yields_trying. eapply (yields_andthen _ _ _ (fun h => h = handler d b)); [by apply yields_ret|]. intros h ->.
  eapply yields_andthen; [|by apply served_decoded]. apply yields_trying.
  eapply yields_andthen; [apply served_get|]. intros r ->.
  eapply (yields_andthen _ _ _ (fun _ => True)); [by apply yields_ret|]. intros. by apply yields_ret.
Qed.

(** The TTL refresh of a hit, whatever the backend answers. *)
Lemma served_ttl : yields I (maybe_refresh_ttl d b key) (fun _ => True).
Proof.
  unfold maybe_refresh_ttl. destruct (refresh_ttl d) as [t|]; [|by apply yields_ret]. cbn.
  destruct (b_ttl (methods d b)) as [[g r]|] eqn:Et; cbn; [|by apply yields_ret].
  unfold silently. apply yields_always; [|done|intros; by apply yields_ret].
  apply keeps_andthen.
  - intros s [[H1 H2] [H3 H4]]. unfold on_ext. pose proof (rt_ttl _ _ Hm _ _ key data key Et _ H3) as Hk.
    destruct (g key (ext s)). by split_and!.
  - intros [n|]; [|apply keeps_ret]. case_match; [|apply keeps_ret]. intros s Hs. by apply (served_change (fun s => with_tasks s _)).
Qed.

Lemma served_since k start : yields I (since clock k start) (fun _ => True).
Proof. eapply yields_andthen; [apply served_reading|]. intros. by apply yields_ret. Qed.

Lemma served_reset t : yields I (reset_stats t) (fun _ => True).
Proof. by apply served_modify. Qed.

Lemma served_size : sized v -> yields I (value_size str_value v) (fun _ => True).
Proof.
  intros (t & bs & E1 & E2) s Hs. exists tt, s. unfold value_size, lift. rewrite E1. cbn. by rewrite E2.
Qed.

Lemma served_allowed : yields I (gets (fun s => should_allow_request (_circuit_breaker s))) (fun a => a = true).
Proof. intros s Hs. exists true, s. split_and!; [|done|done]. unfold gets. f_equal. f_equal. eapply ready_allowed, Hs. Qed.

Lemma served_resolve : yields I (resolve d) (fun b' => b' = b).
Proof.
  intros s Hs. exists b, s. pose proof Hs as [[Er _] _]. split_and!; [|done|done]. unfold resolve, andthen, gets. by rewrite Er.
Qed.

Lemma served_set_stats : yields I (set_stats d) (fun _ => True).
Proof. intros s Hs. eexists _, _. split_and!; [reflexivity|done|by apply (served_change (fun s => with_context s _))]. Qed.

Lemma attempted {A} (m : eff C A) a : yields I m (fun r => r = a) -> yields I (attempt m) (fun r => r = Ok a).
Proof.
  intros Hy s Hs. destruct (yields_attempt _ _ _ Hy s Hs) as (r & s' & E & (x & -> & ->) & Hs'). by exists (Ok a), s'.
Qed.

(** What L1 answers, and what is put there. *)
Lemma l1_get_served : l1_on d = true -> yields I (l1_get clock key) (fun r => forall bs, r = Some bs -> decodes d holds key bs v).
Proof.
  intros On. eapply yields_andthen; [apply served_reading|]. intros now _ s [H1 [H2 H3]]. destruct (H3 On) as [Hi Hv].
  destruct (L1Cache.get now key (_l1_cache s)) as [r c] eqn:E. pose proof (L1Cache.l1_get_inv now key _ Hi) as Hi'.
  pose proof (L1Cache.got_entry now key (_l1_cache s) (L1Cache.inv_keys _ Hi)) as [G1 G2]. rewrite E in *. cbn in *.
  eexists _, _. split; [reflexivity|]. split.
  - intros bs ->. destruct (G1 bs eq_refl) as (e & Ee & <-). by apply Hv.
  - split; [split; apply H1|]. split; [exact H2|]. intros _. split; [exact Hi'|]. intros e Ee. by apply Hv, G2.
Qed.

Lemma l1_put_served : yields I (l1_put clock d key data) (fun _ => True).
Proof.
  eapply yields_andthen; [apply served_reading|]. intros now _ s [H1 [H2 H3]].
  destruct (L1Cache.put_entry now key data (fofZ <$> ttl d) None (_l1_cache s)) as (c' & E & Hc). rewrite E.
  eexists tt, _. split; [reflexivity|]. split; [done|]. split; [split; apply H1|]. split; [exact H2|].
  intros On. destruct (H3 On) as [Hi Hv]. destruct (Hc Hi) as [Hi' He]. split; [exact Hi'|]. intros e Ee.
  destruct (He e Ee) as [->|Eo]; [done|by apply Hv].
Qed.

Lemma served_track : yields I (track key) (fun _ => True).
Proof. by apply served_modify. Qed.

Lemma served_backfill : yields I (backfill clock d key data) (fun _ => True).
Proof.
  pose proof l1_put_served as Hp. unfold backfill. destruct data as [|x r]; [by apply yields_ret|]. case_match; [|by apply yields_ret].
  eapply yields_andthen; [exact Hp|]. intros _ _ s [[H1 H2] [H3 H4]]. eexists tt, _. split_and!; [reflexivity|done|].
  by split; [split|split].
Qed.

Lemma served_l1 : yields I (l1_check clock d key) (fun r => r = None \/ r = Some v).
Proof.
  unfold l1_check. destruct (l1_on d) eqn:On; [|apply yields_ret; by left]. cbn [andb].
  case_match; [|apply yields_ret; by left]. eapply yields_andthen; [by apply l1_get_served|]. intros found Hf.
  destruct found as [[|x bs]|]; try (apply yields_ret; by left). specialize (Hf _ eq_refl).
  eapply (yields_andthen _ _ _ (fun r => r = Ok v)).
  { apply attempted, served_ext. intros w Hw. destruct (Hf w) as (w' & E & Hk). exists v, w'. split_and!; [done|done|by apply Hk]. }
  intros r ->. eapply yields_andthen; [apply served_success|]. intros _ _. eapply yields_andthen; [apply served_stat|].
  intros _ _. apply yields_ret. by right.
Qed.

(** The L2 phases of a hit. *)
Lemma async_hit c start : yields I (async_l2 clock deepcopyable thread_starts d b key c start) (fun r => r = Some v).
Proof.
  unfold async_l2, async_read, swr_on. rewrite (pl_stale _ _ Hd_). cbn.
  eapply (yields_andthen _ _ _ (fun r => r = Some (v, data, false))).
  { eapply yields_andthen; [apply served_read_async|]. intros r ->. by apply yields_ret. }
  intros r ->. eapply yields_andthen; [apply served_since|]. intros l _. eapply yields_andthen; [apply served_success|]. intros _ _.
  eapply yields_andthen; [apply served_backfill|].
  intros _ _. eapply yields_andthen; [apply served_ttl|]. intros _ _. eapply yields_andthen; [apply served_stat|]. intros _ _.
  eapply (yields_andthen _ _ _ (fun _ => True)); [by apply yields_ret|]. intros _ _. by apply yields_ret.
Qed.

Lemma sync_hit t c start : sized v ->
  yields I (sync_l2 clock str_value deepcopyable thread_starts d b t key c start) (fun r => r = Some v).
Proof.
  intros Hv. unfold sync_l2, sync_read, swr_on. rewrite (pl_stale _ _ Hd_). cbn.
  eapply (yields_andthen _ _ _ (fun r => r = Some (v, false))).
  { eapply yields_andthen; [apply served_read|]. intros r ->. by apply yields_ret. }
  intros r ->. eapply yields_andthen; [apply served_since|]. intros l _.
  eapply yields_andthen; [apply served_success|]. intros _ _. eapply yields_andthen; [by apply served_size|]. intros _ _.
  eapply yields_andthen; [apply served_stat|]. intros _ _.
  eapply (yields_andthen _ _ _ (fun _ => True)); [by apply yields_ret|]. intros _ _.
  eapply yields_andthen; [apply served_reset|]. intros _ _. by apply yields_ret.
Qed.

(** A call whose entry is held returns its value. *)
Lemma hit_phase c : sized v -> bypasses c = false -> make_key d c = Ok key -> yields I (wrapper d c) (fun r => r = v).
Proof.
  intros Hv Eb Ek. unfold Wrapper.wrapper. destruct (is_coroutine d).
  - unfold async_wrapper. rewrite Eb. eapply yields_andthen; [apply served_set_stats|]. intros t _.
    apply yields_finally; [|apply served_reset].
    rewrite Ek, (pl_mode _ _ Hd_). unfold async_backed. eapply yields_andthen; [apply served_allowed|]. intros a ->. cbn.
    rewrite (pl_interop _ _ Hd_).
    unfold async_l1_then_l2. eapply yields_andthen; [apply served_l1|]. intros r [->| ->]; [|by apply yields_ret].
    unfold with_client. eapply yields_andthen; [apply attempted, served_resolve|]. intros r ->.
    unfold async_l2_or_miss. eapply yields_andthen; [apply served_reading|]. intros start _.
    eapply yields_andthen; [apply attempted, async_hit|]. intros r ->. by apply yields_ret.
  - unfold sync_wrapper. rewrite Eb. eapply yields_andthen; [apply served_set_stats|]. intros t _.
    rewrite Ek, (pl_mode _ _ Hd_). unfold sync_backed.
    eapply yields_andthen; [apply attempted, (yields_andthen _ _ _ _ _ served_allowed); intros a ->; apply served_resolve|].
    intros r ->. rewrite (pl_interop _ _ Hd_).
    eapply (yields_andthen _ _ _ (fun _ => True)); [apply yields_trying; by apply yields_ret|]. intros _ _.
    eapply yields_andthen; [apply yields_trying, served_l1|]. intros r [->| ->].
    2: { eapply yields_andthen; [apply served_reset|]. intros _ _. by apply yields_ret. }
    eapply yields_andthen; [apply served_reading|]. intros start _.
    eapply yields_andthen; [by apply attempted, sync_hit|]. intros r ->. by apply yields_ret.
Qed.
End Served.

Lemma simple_with_func d b f : simple d b -> simple (with_func d f) b.
Proof. by intros []. Qed.

Lemma plain_with_func d b f : plain d b -> plain (with_func d f) b.
Proof. by intros []. Qed.

(** L1 before a value is stored: well-formed, without the entry. *)
Definition l1_ready (d : wrapped) (key : pystr) (s : C) : Prop :=
  l1_on d = true -> L1Cache.inv (_l1_cache s) /\ od_get key (L1Cache.cache (_l1_cache s)) = None.

Lemma l1_ready_empty d key s : l1_ready d key s -> l1_empty d key s.
Proof. intros H On. by apply H. Qed.

Lemma l1_ready_serves d holds key v s : l1_ready d key s -> l1_serves d holds key v s.
Proof. intros H On. destruct (H On) as [Hi E]. split; [done|]. rewrite E. by intros e [=]. Qed.

(** Storing into such a backend. *)
Lemma store_phase d b holds v c key s : plain d b -> supports_streaming (serializer d) = false -> retains (methods d b) holds ->
  encodes d holds v -> ready b s -> l1_ready d key s ->
  exists data, decodes d holds key data v /\
    (exists s', async_store clock d b key v c s = (Ok tt, s') /\ served d b holds key data v s') /\
    (exists s', sync_store clock d b key v c s = (Ok tt, s') /\ served d b holds key data v s').
Proof.
  intros S St R E Hs L. destruct (E c key (ext s)) as (data & w & Es & Hdec). exists data. split; [done|].
  destruct (rt_set _ _ R key data (ttl d) w) as (w' & Ew & Hw).
  assert (Set_ : Handler.set (handler d b) key data (ttl d) (_stale_ttl d) (with_ext s w) = (Ok true, with_ext s w')).
  { unfold Handler.set, degrading. apply run_trying. rewrite (pl_stale _ _ S). unfold andthen, _with_backpressure_and_timeout.
    cbn. rewrite (pl_permit _ _ S). unfold on_ext. cbn. by rewrite Ew. }
  assert (Ser : on_ext (Handler.serialize_data (serializer d) v c key) s = (Ok data, with_ext s w)).
  { unfold on_ext. by rewrite Es. }
  assert (Hserved : served d b holds key data v (with_ext s w')).
  { destruct Hs as [Hb Hc]. split; [by split|]. split; [done|]. by apply (l1_ready_serves d holds key v s). }
  assert (Rest : forall m : eff C unit, yields (served d b holds key data v) m (fun _ => True) ->
    exists s', (m ;;~ track key ;;~ success) (with_ext s w') = (Ok tt, s') /\ served d b holds key data v s').
  { intros m Hm. destruct (yields_andthen _ m (fun _ => track key ;;~ success) _ (fun _ => True) Hm) with (w := with_ext s w') as ([] & s' & E' & _ & Hs');
      [|done|by exists s']. intros _ _. eapply yields_andthen; [by apply served_track|]. intros _ _. by apply served_success. }
  split.
  - destruct (Rest (_put_l1 clock d key data)) as (s' & E' & Hs').
    { unfold _put_l1. case_match; [by apply l1_put_served|by apply yields_ret]. }
    exists s'. split; [|done]. unfold async_store. erewrite run_andthen by exact Ser. by erewrite run_andthen by exact Set_.
  - destruct (Rest (match data with x :: r => if l1_on d && negb (bool_decide (key = [])) then l1_put clock d key (x :: r) else ret tt | [] => ret tt end))
      as (s' & E' & Hs').
    { destruct data as [|x r]; [by apply yields_ret|]. case_match; [by apply l1_put_served|by apply yields_ret]. }
    exists s'. split; [|done]. unfold sync_store, store_result. erewrite run_andthen.
    2: { apply run_trying. erewrite run_andthen by reflexivity. cbn [serialization_handler lift_serialization operation set_cache_handler supports_streaming].
         rewrite St, andb_false_r. erewrite run_andthen by reflexivity. unfold store_buffered.
         erewrite run_andthen by exact Ser. erewrite run_andthen by exact Set_. reflexivity. }
    exact E'.
Qed.

(** A lock that is acquired or timed out on, leaves entries alone, and lets a block
    that succeeds pass. *)
Definition lock_enters (d : wrapped) (b : B) : Prop := forall lock key w, b_lock (methods d b) = Some lock ->
  exists got w', aenter (lock true key) w = (Ok got, w') /\ forall k, nothing_at d b k w -> nothing_at d b k w'.

Record lock_serves (d : wrapped) (b : B) (holds : pystr -> pybytes -> W -> Prop) : Prop := mkLockServes {
  ls_enters : lock_enters d b;
  ls_leaves : forall lock key got w, b_lock (methods d b) = Some lock ->
    exists w', aexit (lock true key) got None w = (Ok None, w') /\ forall k v, holds k v w -> holds k v w'
}.

Lemma no_lock_serves d b holds : b_lock (methods d b) = None -> lock_serves d b holds.
Proof. intros E. split; [intros lock key w|intros lock key got w]; by rewrite E. Qed.

(** The second read under the lock finds nothing either. *)
Lemma double_check_nothing d b key s : plain d b -> nothing_at d b key (ext s) -> double_check clock d b key s = (Ok None, s).
Proof.
  intros S Hn. unfold double_check. apply run_trying. by erewrite run_andthen by exact (proj2 (nothing_read clock d b key None s S Hn)).
Qed.

(** A miss under the lock, if there is one. *)
Lemma async_miss_enters d b key c s : plain d b -> lock_enters d b -> nothing_at d b key (ext s) ->
  match b_lock (methods d b) with
  | None => async_miss clock original_of d b key c s = without_lock clock d b key c s
  | Some lock => exists got w, async_miss clock original_of d b key c s =
      (let (o, s') := async_compute clock d b key c (with_ext s w) in
       let (out, w') := aexit (lock true key) got (match o with Ok _ => None | Err x => Some x end) (ext s') in
       match out, o with
       | Err x, _ | Ok (Some x), _ => (lift (lock_failure original_of x) ;;~ without_lock clock d b key c) (with_ext s' w')
       | Ok None, Ok v => (Ok v, with_ext s' w')
       | Ok None, Err _ => without_lock clock d b key c (with_ext s' w')
       end)
  end.
Proof.
  intros S Hl Hn. unfold async_miss. cbn [b_lock lift_backend]. destruct (b_lock (methods d b)) as [lock|] eqn:El; [|done].
  destruct (Hl lock key (ext s) El) as (got & w & Ee & Hw). exists got, w. cbn [fmap option_fmap option_map].
  unfold async_with, attempt. unfold andthen at 1 2. cbn [aenter lift_context]. unfold on_ext at 1. rewrite Ee.
  unfold andthen at 1. unfold under_lock. erewrite run_andthen by (apply double_check_nothing; [done|by apply Hw]).
  destruct (async_compute clock d b key c (with_ext s w)) as [o s']. unfold andthen at 1. cbn [aexit lift_context]. unfold on_ext.
  destruct (aexit _ _ _ _) as [[[y|]|y] w']; try reflexivity. by destruct o.
Qed.

(** A call that finds nothing returns the function's value and stores it. *)
Lemma call_stores d b holds v c key s : plain d b -> supports_streaming (serializer d) = false ->
  (is_coroutine d = true -> lock_serves d b holds) -> retains (methods d b) holds -> encodes d holds v ->
  ready b s -> l1_ready d key s -> nothing_at d b key (ext s) -> bypasses c = false -> make_key d c = Ok key ->
  yields (fun s => ready b s /\ l1_ready d key s) (func d c) (fun r => r = v) ->
  exists data s', wrapper d c s = (Ok v, s') /\ decodes d holds key data v /\ served d b holds key data v s'.
Proof.
  intros S St Lk R E Hs L Hn Eb Ek Hf.
  destruct (plain_miss clock jitter estimate blake2b blake3 packb str_call str_value deepcopyable thread_starts original_of
    d b c key s S (l1_ready_empty d key s L) Hn Eb Ek (ready_allowed _ _ Hs) (rd_backend _ _ Hs)) as (s1 & token & E1 & E2 & E3 & E4 & Er).
  assert (Hs1 : forall w, ready b (with_ext s1 w) /\ l1_ready d key (with_ext s1 w)).
  { intros w. split; [split; cbn; [by rewrite E3; apply Hs|by rewrite E2; apply Hs]|]. intros On. cbn.
    destruct (L On) as [Hi Hnone]. destruct E4 as [Ec Ei]. split; [by apply Ei|by rewrite Ec]. }
  assert (Go : forall w, exists data, decodes d holds key data v /\ (exists s', async_compute clock d b key c (with_ext s1 w) = (Ok v, s') /\ served d b holds key data v s') /\
    exists s2 s', func d c (with_ext s1 w) = (Ok v, s2) /\ sync_store clock d b key v c s2 = (Ok tt, s') /\ served d b holds key data v s').
  { intros w. destruct (Hf _ (Hs1 w)) as (v' & s2 & Ef & -> & [Hs2 L2]).
    destruct (store_phase d b holds v c key s2 S St R E Hs2 L2) as (data & Hdec & (s3 & A & A2) & (s4 & Y & Y2)).
    exists data. split; [done|]. split; [|by exists s2, s4]. exists s3. split; [|done]. unfold async_compute.
    erewrite run_andthen by exact Ef. by erewrite run_andthen by (apply run_trying, A). }
  assert (Reset : forall data s', served d b holds key data v s' -> served d b holds key data v (with_context s' token)).
  { intros data s'. by apply (served_change d b holds key data v (fun s => with_context s _)). }
  rewrite Er. destruct (is_coroutine d).
  - pose proof (async_miss_enters d b key c s1 S (ls_enters _ _ _ (Lk eq_refl))) as M. rewrite E1 in M. specialize (M Hn).
    destruct (b_lock (methods d b)) as [lock|] eqn:El.
    + destruct M as (got & w & M). destruct (Go w) as (data & Hdec & (s' & A & [A1 [A2 A3]]) & _).
      destruct (ls_leaves _ _ _ (Lk eq_refl) lock key got (ext s') El) as (w' & Ex & Hw').
      rewrite A, Ex in M. exists data, (with_context (with_ext s' w') token). split_and!; [|done|].
      * eapply run_finally; [exact M|reflexivity].
      * apply Reset. split; [split; apply A1|]. split; [by apply Hw'|done].
    + destruct (Go (ext s1)) as (data & Hdec & (s' & A & A2) & _). rewrite with_ext_id in A.
      exists data, (with_context s' token). split_and!; [|done|by apply Reset].
      eapply run_finally; [rewrite M; apply run_trying, A|reflexivity].
  - destruct (Go (ext s1)) as (data & Hdec & _ & (s2 & s' & Ef & Y & Y2)). rewrite with_ext_id in Ef.
    exists data, (with_context s' token). split_and!; [|done|by apply Reset].
    unfold sync_miss. eapply run_finally; [|reflexivity]. apply run_trying. erewrite run_andthen by exact Ef.
    by erewrite run_andthen by (apply run_trying, Y).
Qed.

(** C4. Memoization.  A call that finds nothing returns the function's value and
    stores it: afterwards every call with the same key returns that value, however
    many there are and whatever the function would do by then.  This holds of
    synchronous and asynchronous functions, with L1 or without, over any backend that
    gives back what it is given, with or without a lock, and any serializer that decodes
    what it encodes.  It is stated of the plain configuration ([plain]: a backend in use,
    neither stale-while-revalidate nor interop mode nor mapped reads, every permit
    granted), of buffered writes, of a breaker that is absent or CLOSED, and of a value
    whose [str] can be taken; the function leaves the breaker, the resolved backend and
    the entry of the key alone. *)
Theorem memoized d b holds v c key s : plain d b -> supports_streaming (serializer d) = false ->
  (is_coroutine d = true -> lock_serves d b holds) -> retains (methods d b) holds -> encodes d holds v -> sized v ->
  ready b s -> l1_ready d key s -> nothing_at d b key (ext s) -> bypasses c = false -> make_key d c = Ok key ->
  yields (fun s => ready b s /\ l1_ready d key s) (func d c) (fun r => r = v) ->
  (wrapper d c s).1 = Ok v /\
  forall f cs c', (forall x, x ∈ c' :: cs -> bypasses x = false /\ make_key d x = Ok key) ->
    (wrapper (with_func d f) c' (calls (with_func d f) cs (wrapper d c s).2)).1 = Ok v.
Proof.
  intros S St Lk R E Hv Hs L Hn Eb Ek Hf.
  destruct (call_stores d b holds v c key s S St Lk R E Hs L Hn Eb Ek Hf) as (data & s' & Ew & Hdec & Hserved).
  rewrite Ew. split; [done|]. intros f cs c' Hc. cbn.
  assert (Hit : forall x, x ∈ c' :: cs -> yields (served d b holds key data v) (wrapper (with_func d f) x) (fun r => r = v)).
  { intros x Hx. destruct (Hc x Hx). change (served d b holds key data v) with (served (with_func d f) b holds key data v).
    apply hit_phase; try done. by apply plain_with_func. }
  assert (Run : forall l s0, l ⊆ c' :: cs -> served d b holds key data v s0 -> served d b holds key data v (calls (with_func d f) l s0)).
  { induction l as [|x l IH]; intros s0 Hl Hs0; [done|]. cbn. destruct (Hit x) with (w := s0) as (a & w & Ea & _ & Hw); [set_solver|done|].
    rewrite Ea. apply IH; [set_solver|done]. }
  destruct (Hit c') with (w := calls (with_func d f) cs s') as (a & w & Ea & -> & _); [by left|apply Run; [set_solver|done]|].
  by rewrite Ea.
Qed.

(** ** Invalidation *)

Local Abbreviation invalidate_cache := (Wrapper.invalidate_cache blake2b packb set_order).
Local Abbreviation auto_key := (auto_key blake2b packb).

(** A deletion by arguments, and not of every tracked key. *)
Definition whole (d : wrapped) (c : call) : bool :=
  bool_decide (args c = []) && bool_decide (kwargs c = []) && negb (bool_decide (parameters d = [])).

(** A backend that answers a deletion has nothing under the key any more; whether it
    answers or raises, it does not bring anything back. *)
Definition deletes (d : wrapped) (b : B) : Prop := forall k w,
  match (b_delete (methods d b) k w).1 with Ok _ => nothing_at d b k (b_delete (methods d b) k w).2 | Err _ => True end /\
  forall k', nothing_at d b k' w -> nothing_at d b k' (b_delete (methods d b) k w).2.

(** The deletion of [key] from [w] does not raise. *)
Definition deleted (d : wrapped) (b : B) (key : pystr) (w : W) : Prop := exists r, (b_delete (methods d b) key w).1 = Ok r.

Lemma filtered_id c : bypasses c = false -> filtered_kwargs (keyed_kwargs c) = keyed_kwargs c.
Proof.
  unfold bypasses, filtered_kwargs, keyed_kwargs, keyed. intros H%od_mem_false%od_get_None.
  induction (kwargs c) as [|[k v] r IH]; [done|]. cbn in *. rewrite bool_decide_false by set_solver. cbn. f_equal. apply IH. set_solver.
Qed.

(** The key invalidation computes is that of the calls, without a key function or
    the fast mode. *)
Lemma make_key_auto (d : wrapped) c : interop d = None -> custom_key_func d = None -> fast_mode d = false ->
  make_key d c = auto_key d c.
Proof. unfold Wrapper.make_key. by intros -> -> ->. Qed.

(** The entry under [key] is gone, here and in the backend. *)
Record forgotten (d : wrapped) (b : B) (key : pystr) (s : C) : Prop := mkForgotten {
  fg_l1 : l1_empty d key s;
  fg_backend : nothing_at d b key (ext s);
  fg_tracked : key ∉ _cached_keys s
}.

(** A closure in backed mode, its backend resolved. *)
Record backed (b : B) (s : C) : Prop := mkBacked {
  bk_backend : _backend s = Some b;
  bk_objects : _object_cache s = None;
  bk_l1 : od_wf (L1Cache.cache (_l1_cache s))
}.

Lemma remove_pop key c : od_wf (L1Cache.cache c) -> L1Cache.cache (L1Cache.invalidate key c) = od_pop key (L1Cache.cache c).
Proof.
  intros H. unfold L1Cache.invalidate, L1Cache._remove_entry. destruct (od_get key (L1Cache.cache c)) as [e|] eqn:E; [done|].
  by rewrite od_pop_None.
Qed.

Lemma pop_None k k' (dct : list (pystr * CacheEntry)) : od_get k dct = None -> od_get k (od_pop k' dct) = None.
Proof. rewrite !od_get_None. intros H Hk. by apply H, (od_pop_keys_subset k'). Qed.

(** What [forget_local] leaves. *)
Lemma forget_local_backed (d : wrapped) b key s : backed b s -> exists s', forget_local d key s = (Ok tt, s') /\ backed b s' /\
  l1_empty d key s' /\ ext s' = ext s /\ _circuit_breaker s' = _circuit_breaker s /\ _cached_keys s' = _cached_keys s /\
  forall k, l1_empty d k s -> l1_empty d k s'.
Proof.
  intros [H1 H2 H3]. unfold forget_local, andthen, gets. rewrite H2. unfold l1_empty. destruct (l1_on d).
  - eexists. split; [reflexivity|]. cbn. rewrite remove_pop by done. split_and!; try done.
    + split; [done|done|]. cbn. rewrite remove_pop by done. by apply od_wf_pop.
    + intros _. by apply od_get_pop_eq.
    + intros k Hk E. by apply pop_None, Hk.
  - exists s. by split_and!.
Qed.

Lemma normalized_nonempty key k : key <> [] -> _normalize_key blake2b key = Ok k -> k <> [].
Proof.
  intros Hk. unfold _normalize_key. assert (Hr : replace_chars key <> []) by (unfold replace_chars; by destruct key).
  case_match; [|congruence]. destruct (utf8_encode _); [|done]. intros [= <-] E. by apply app_eq_nil in E as [_ E].
Qed.

Lemma auto_key_nonempty (d : wrapped) c k : auto_key d c = Ok k -> k <> [].
Proof.
  unfold Wrapper.auto_key, get_cache_key, generate_key. destruct (_blake2b_hash _ _ _ _) as [h|]; [|done]. cbn.
  destruct (_normalize_key _ _) as [k'|] eqn:E; [|done]. intros [= <-]. eapply normalized_nonempty, E.
  unfold raw_key. intros H. apply app_eq_nil in H as [_ H]. done.
Qed.

(** What invalidation by arguments leaves: [key] is the one it computes. *)
Lemma invalidate_by_args d b c key s : plain d b -> backed b s -> whole d c = false ->
  bypasses c = false -> auto_key d c = Ok key ->
  exists s', invalidate_cache d c s = (Ok tt, s') /\ backed b s' /\ ext s' = (b_delete (methods d b) key (ext s)).2 /\
    _circuit_breaker s' = _circuit_breaker s /\ l1_empty d key s' /\ key ∉ _cached_keys s'.
Proof.
  intros [H2 H3 _ _ _] Hb Hw Eb Ek.
  destruct (forget_local_backed d b key s Hb) as (s1 & E1 & Hb1 & Hl1 & Ex1 & Ec1 & _). pose proof Hb as [B1 B2 B3].
  unfold Wrapper.invalidate_cache. rewrite H2. erewrite run_andthen.
  2: { apply run_trying. erewrite run_andthen; [reflexivity|]. unfold resolve, andthen, gets. by rewrite B1. }
  erewrite run_andthen by reflexivity. unfold whole in Hw. rewrite Hw, B1. unfold invalidation_key. rewrite H3.
  erewrite run_andthen by (unfold lift; by rewrite Ek). rewrite bool_decide_false by by eapply auto_key_nonempty.
  erewrite run_andthen by exact E1. erewrite run_andthen by reflexivity. unfold invalidate_backend. rewrite H3.
  unfold Handler.invalidate_cache. cbn. unfold Wrapper.auto_key, get_cache_key in Ek. rewrite filtered_id in Ek by done.
  destruct (generate_key _ _ _ _ _ _ _ _ _) as [k|]; [|done]. injection Ek as ->.
  unfold degrading, trying, andthen, on_ext. cbn. rewrite Ex1. destruct Hb1 as [? ? ?].
  destruct (b_delete (methods d b) key (ext s)) as [[r|x] w']; cbn; (eexists; split; [reflexivity|]); split_and!; try done; set_solver.
Qed.

(** A lock tells of the exception [x] of its block, and of no other: what leaves it
    is [x], or leads to the execution without it. *)
Definition lock_tells (d : wrapped) (b : B) (x : exn) : Prop := forall lock key got w y, b_lock (methods d b) = Some lock ->
  (aexit (lock true key) got (Some x) w).1 = Ok (Some y) \/ (aexit (lock true key) got (Some x) w).1 = Err y ->
  lock_failure original_of y = Ok tt \/ lock_failure original_of y = Err x.

Lemma probe_computes d b c key s x f : (forall c s, f c s = (Err x, s)) -> async_compute clock (with_func d f) b key c s = (Err x, s).
Proof. intros Hf. by apply run_andthen_err, Hf. Qed.

Lemma probe_without_lock d b c key s x f : (forall c s, f c s = (Err x, s)) ->
  exists s', without_lock clock (with_func d f) b key c s = (Err x, s').
Proof. intros Hf. eexists. unfold without_lock. erewrite run_trying_err by by apply probe_computes. reflexivity. Qed.

Lemma probe_misses d b c key s x f : plain d b -> lock_enters d b -> lock_tells d b x -> (forall c s, f c s = (Err x, s)) ->
  nothing_at d b key (ext s) -> exists s', async_miss clock original_of (with_func d f) b key c s = (Err x, s').
Proof.
  intros S Le Lt Hf Hn. pose proof (async_miss_enters (with_func d f) b key c s (plain_with_func d b f S) Le Hn) as M.
  cbn [methods with_func] in M. destruct (b_lock (methods d b)) as [lock|] eqn:El.
  2: { rewrite M. by apply probe_without_lock. }
  destruct M as (got & w & ->). rewrite (probe_computes d b c key _ x f Hf). cbn.
  destruct (aexit (lock true key) got (Some x) w) as [[[y|]|y] w'] eqn:Ex; [| by apply probe_without_lock|].
  all: destruct (Lt lock key got w y El) as [Ey|Ey]; [rewrite Ex; by auto| |]; unfold andthen, lift; rewrite Ey; [by apply probe_without_lock|by eexists].
Qed.

Lemma probe_runs d b c key s x f : plain d b -> (is_coroutine d = true -> lock_enters d b /\ lock_tells d b x) ->
  (forall c s, f c s = (Err x, s)) -> is_backend_error x = false ->
  l1_empty d key s -> nothing_at d b key (ext s) -> bypasses c = false -> make_key d c = Ok key ->
  should_allow_request (_circuit_breaker s) = true -> _backend s = Some b -> (wrapper (with_func d f) c s).1 = Err x.
Proof.
  intros S Lk Hf Hx Hl Hn Eb Ek Ea Er.
  destruct (plain_miss clock jitter estimate blake2b blake3 packb str_call str_value deepcopyable thread_starts original_of
    (with_func d f) b c key s (plain_with_func d b f S) Hl Hn Eb Ek Ea Er) as (s1 & token & E1 & _ & _ & _ & ->).
  cbn [is_coroutine with_func]. destruct (is_coroutine d).
  - destruct (Lk eq_refl) as [Le Lt]. rewrite <- E1 in Hn.
    destruct (probe_misses d b c key s1 x f S Le Lt Hf Hn) as (s' & E). unfold finally. by rewrite E.
  - unfold sync_miss, finally, trying, andthen. cbn. rewrite !Hf. by destruct x.
Qed.

(** C5. Invalidation by arguments reaches the entry of the automatic key, and brings
    the function back.  It always returns, with the entry gone from L1 and no longer
    tracked, and the backend asked to delete it.  When that deletion succeeds (a
    failed one is only logged), the backend has nothing there either, and the next
    such call, which the breaker lets through, runs whatever the function is by then,
    its exception reaching the caller as it is.  This is of the plain configuration ([plain]), without a [key=]
    function and without the fast mode, whose calls use other keys
    ([custom_key_entry_survives]); for an asynchronous function over a lock, of a lock
    that is acquired or timed out on and raises nothing of its own. *)
Theorem invalidation_recomputes d b c key s x f : plain d b -> custom_key_func d = None -> fast_mode d = false ->
  (is_coroutine d = true -> lock_enters d b /\ lock_tells d b x) ->
  backed b s -> deletes d b -> whole d c = false -> bypasses c = false -> auto_key d c = Ok key ->
  should_allow_request (_circuit_breaker s) = true -> (forall c s, f c s = (Err x, s)) -> is_backend_error x = false ->
  let s' := (invalidate_cache d c s).2 in
  (invalidate_cache d c s).1 = Ok tt /\ l1_empty d key s' /\ key ∉ _cached_keys s' /\
  ext s' = (b_delete (methods d b) key (ext s)).2 /\
  (deleted d b key (ext s) -> forgotten d b key s' /\ (wrapper (with_func d f) c s').1 = Err x).
Proof.
  intros S Hk Hfm Lk Hb Hd' Hw Eb Ek Ea Hf Hx s'.
  destruct (invalidate_by_args d b c key s S Hb Hw Eb Ek) as (s1 & E & Hb1 & Ex & Ec & Hl & Ht).
  unfold s'. rewrite E. cbn. split_and!; try done. intros [r Er].
  assert (Hn : nothing_at d b key (ext s1)). { destruct (Hd' key (ext s)) as [Hn _]. rewrite Er in Hn. by rewrite Ex. }
  split; [by split|]. apply (probe_runs d b c key); try done; [|by rewrite Ec|apply Hb1].
  rewrite make_key_auto; [done|apply S|done|done].
Qed.

(** Invalidation by arguments deletes under the automatic key even when calls
    use a key function: the entry of the call survives, and the next call is served
    the value that was to be forgotten, whatever the function is by then. *)
Theorem custom_key_entry_survives d b holds kf k a data v c s f : plain d b -> l1_on d = false ->
  retains (methods d b) holds -> custom_key_func d = Some kf -> kf c = Ok (Some k) ->
  let key := namespace_or_default d ++ u ":" ++ k in
  decodes d holds key data v -> sized v -> ready b s -> holds key data (ext s) -> backed b s ->
  auto_key d c = Ok a -> keeps (holds key data) (b_delete (methods d b) a) -> whole d c = false -> bypasses c = false ->
  let s' := (invalidate_cache d c s).2 in
  (invalidate_cache d c s).1 = Ok tt /\ (wrapper (with_func d f) c s').1 = Ok v.
Proof.
  intros S L R Hk Ekf key Hdec Hv Hr Hh Hb Ea Hkeep Hw Eb s'.
  destruct (invalidate_by_args d b c a s S Hb Hw Eb Ea) as (s1 & E & Hb1 & Ex & Ec & _).
  unfold s'. rewrite E. cbn. split; [done|].
  assert (Hs1 : served (with_func d f) b holds key data v s1).
  { split; [split; [apply Hb1|rewrite Ec; apply Hr]|]. split; [rewrite Ex; by apply Hkeep|]. intros On. cbn in On. by rewrite On in L. }
  destruct (hit_phase (with_func d f) b holds key data v (plain_with_func d b f S) R Hdec c Hv Eb) with (w := s1) as (v' & s2 & E2 & -> & _);
    [|done|by rewrite E2].
  unfold Wrapper.make_key. cbn. by rewrite (pl_interop _ _ S), Hk, Ekf.
Qed.

(** Still tracked, or without an entry in the backend. *)
Definition kept_or_gone (d : wrapped) (b : B) (k : pystr) (s : C) : Prop := k ∈ _cached_keys s \/ nothing_at d b k (ext s).

(** What invalidating tracked [keys] does. *)
Record drops (d : wrapped) (b : B) (keys : list pystr) (s s' : C) : Prop := mkDrops {
  dr_backed : backed b s';
  dr_l1 : forall k, k ∈ keys \/ l1_empty d k s -> l1_empty d k s';
  dr_rest : forall k, kept_or_gone d b k s -> kept_or_gone d b k s';
  dr_tracked : _cached_keys s' ⊆ _cached_keys s;
  dr_deleted : forall k, k ∈ keys -> (forall w, deleted d b k w) -> k ∉ _cached_keys s'
}.

(** Invalidation of one tracked key. *)
Lemma invalidate_one d b key s : _l1_only_mode d = false -> backed b s -> deletes d b ->
  exists s', invalidate_tracked d (Some b) key s = (Ok tt, s') /\ drops d b [key] s s'.
Proof.
  intros M Hb Hd'. destruct (forget_local_backed d b key s Hb) as (s1 & E1 & Hb1 & Hl1 & Ex1 & Ec1 & Ek1 & Hk1).
  destruct (Hd' key (ext s)) as [Hn Ho]. unfold invalidate_tracked. erewrite run_andthen by exact E1. rewrite M.
  erewrite run_andthen. 2: { apply run_attempt. cbn. unfold on_ext. rewrite Ex1, (surjective_pairing (b_delete _ _ _)). reflexivity. }
  assert (Hl : forall k, k ∈ [key] \/ l1_empty d k s -> l1_empty d k s1) by (intros k [->%list_elem_of_singleton|H]; [done|by apply Hk1]).
  destruct Hb1 as [? ? ?]. destruct (b_delete (methods d b) key (ext s)) as [[r|x] w'] eqn:Ed; cbn in *; eexists; (split; [reflexivity|]).
  - split; unfold kept_or_gone; cbn; rewrite ?Ek1; [done|done| |set_solver|set_solver].
    intros k [H'|H']; [|right; by apply Ho]. destruct (decide (k = key)) as [->|Hk]; [by right|left; set_solver].
  - split; unfold kept_or_gone; cbn; rewrite ?Ek1; [done|done| |done|].
    + intros k [H'|H']; [by left|right; by apply Ho].
    + intros k ->%list_elem_of_singleton Hok. destruct (Hok (ext s)) as [r Er]. by rewrite Ed in Er.
Qed.

Lemma invalidate_all d b keys s : _l1_only_mode d = false -> deletes d b -> backed b s ->
  exists s', invalidate_each d (Some b) keys s = (Ok tt, s') /\ drops d b keys s s'.
Proof.
  intros M Hd'. revert s. induction keys as [|key keys IH]; intros s Hb.
  { exists s. split; [done|]. split; try done; [intros k [H|H]; [by apply not_elem_of_nil in H|done]|]. intros k H. by apply not_elem_of_nil in H. }
  destruct (invalidate_one d b key s M Hb Hd') as (s1 & E1 & [Hb1 L1 R1 T1 D1]).
  destruct (IH s1 Hb1) as (s2 & E2 & [Hb2 L2 R2 T2 D2]). exists s2. cbn [invalidate_each].
  erewrite run_andthen by exact E1. split; [done|]. split; [done| |by auto|set_solver|].
  - intros k [[->|H]%elem_of_cons|H]; apply L2; [right; apply L1; left; by left|by left|right; apply L1; by right].
  - intros k [->|H]%elem_of_cons Hok; [|by apply D2]. intros H%T2. revert H. apply D1; [by left|done].
Qed.

End Calls.

(** ** Concrete runs *)

Definition in_memory (k : pystr) (v : pybytes) (w : store) : Prop := od_get k w.1 = Some v.

Lemma memory_retains (m : backend store unit unit) : b_get m = b_get memory -> b_set m = b_set memory -> b_ttl m = None -> retains m in_memory.
Proof.
  intros G S T. split; [rewrite G|rewrite S|by rewrite T].
  - intros k v w H. exists w. unfold in_memory in H. cbn. unfold gets. by rewrite H.
  - intros k v t w. eexists. split; [reflexivity|]. apply od_get_set_eq.
Qed.

Lemma memory_decodes m l1 co kf f key data : decodes (demo m co l1 kf f) in_memory key data data.
Proof. intros w. by exists w. Qed.

Lemma memory_encodes m l1 co kf f v : encodes (demo m co l1 kf f) in_memory v.
Proof. intros c key w. exists v, w. split; [done|]. apply memory_decodes. Qed.

(** A lock that is acquired and lets every exception through. *)
Definition open_lock : bool -> pystr -> async_context store := fun _ _ => mkContext (ret true) (fun _ x => ret x).

Lemma open_lock_serves m co l1 kf f : b_lock m = Some open_lock -> lock_serves (demo m co l1 kf f) tt in_memory.
Proof.
  intros E. split.
  - intros lock key w El. cbn in El. rewrite E in El. injection El as <-. by exists true, w.
  - intros lock key got w El. cbn in El. rewrite E in El. injection El as <-. by exists w.
Qed.

Lemma open_lock_tells m co l1 kf f x : b_lock m = Some open_lock -> is_backend_error x = false ->
  lock_tells (fun _ => None) (demo m co l1 kf f) tt x.
Proof.
  intros E Hx lock key got w y El. cbn in El. rewrite E in El. injection El as <-. cbn. intros [[= <-]|?]; [|done].
  right. by destruct x.
Qed.

(** With entries, and each key in them once. *)
Definition filled (es : list (pystr * pybytes)) : closure store pybytes unit := with_ext decorated_once (es, 0%nat).

(** A memory whose deletion forgets every entry of a key, with a lock. *)
Definition clearing : backend store unit unit := {|
  b_get := b_get memory;
  b_set := b_set memory;
  b_delete k := fun w : store => (Ok (od_mem k w.1), (filter (fun e => e.1 <> k) w.1, w.2));
  b_get_buffer := None;
  b_view _ _ := [];
  b_close _ := ret tt;
  b_set_streaming := None;
  b_swr := None;
  b_ttl := None;
  b_lock := Some open_lock
|}.

Lemma clearing_get k k' (es : list (pystr * pybytes)) :
  od_get k' (filter (fun e => e.1 <> k) es) = if decide (k' = k) then None else od_get k' es.
Proof.
  induction es as [|[x v] es IH]; [cbn; by case_decide|]. rewrite filter_cons. cbn [fst od_get]. destruct (decide (x <> k)) as [Hx|Hx]; cbn [od_get].
  - rewrite IH. repeat case_decide; congruence.
  - apply dec_stable in Hx as ->. rewrite IH. by repeat case_decide.
Qed.

Lemma clearing_deletes co l1 kf f : deletes (demo clearing co l1 kf f) tt.
Proof.
  intros k w. unfold nothing_at. cbn. rewrite clearing_get, decide_True by done.
  split; [done|]. intros k' [_ H]. rewrite clearing_get. case_decide; [done|]. by split.
Qed.

Lemma clearing_keeps k v k' : k <> k' -> keeps (in_memory k v) (b_delete clearing k').
Proof. intros Hk w H. unfold in_memory in *. cbn. by rewrite clearing_get, decide_False. Qed.

Lemma clearing_retains : retains clearing in_memory.
Proof. by apply memory_retains. Qed.

Lemma filled_ready es : ready tt (filled es).
Proof. split; by vm_compute. Qed.

Lemma filled_backed es : backed tt (filled es).
Proof. split; [done|done|apply od_wf_nil]. Qed.

(** Asynchronous, with L1, under a lock. *)
Definition demo7 := demo clearing true true None (counting (fun _ => Ok [7])).

Lemma demo7_key x : x ∈ one :: [one; one; one] ->
  bypasses x = false /\ make_key no_hash no_hash3 pack_none no_str demo7 x = Ok (u "func:app.f:args::1s").
Proof. intros Hx. assert (x = one) as -> by set_solver. split; [done|]. by vm_compute. Qed.

Lemma demo7_runs key : yields (fun s => ready tt s /\ l1_ready demo7 key s) (func demo7 one) (fun r => r = [7]).
Proof. intros s [[A1 A2] L]. exists [7], (counting (fun _ => Ok [7]) one s).2. by split_and!. Qed.

Lemma memoized_witness :
  (run_demo (fun _ => None) demo7 one decorated_once).1 = Ok [7] /\
  (run_demo (fun _ => None) (with_func demo7 (raising OtherError)) one
     (demo_calls (with_func demo7 (raising OtherError)) [one; one; one] (run_demo (fun _ => None) demo7 one decorated_once).2)).1 = Ok [7].
Proof.
  destruct (memoized still (fun _ => fofZ 1) (fun _ => 1) no_hash no_hash3 pack_none no_str str_bytes (fun _ => true)
    (fun _ => true) (fun _ => None) demo7 tt in_memory [7] one (u "func:app.f:args::1s") decorated_once) as [H1 H2].
  - by split.
  - done.
  - intros _. by apply open_lock_serves.
  - apply clearing_retains.
  - apply memory_encodes.
  - by exists [7], [7].
  - by split; vm_compute.
  - intros _. by split; [apply L1Cache.init_inv|].
  - by split; vm_compute.
  - done.
  - by vm_compute.
  - apply demo7_runs.
  - split; [exact H1|]. apply (H2 (raising OtherError) [one; one; one] one). apply demo7_key.
Defined.

(** The same with a key function or without; after one call. *)
Definition demo_l1 (kf : option (call -> result exn (option pystr))) := demo clearing true true kf (counting (fun _ => Ok [7])).
Definition stored kf : closure store pybytes unit := (run_demo (fun _ => None) (demo_l1 kf) one decorated_once).2.
Definition key_k : call -> result exn (option pystr) := fun _ => Ok (Some (u "k")).

Lemma stored_backed kf : kf = None \/ kf = Some key_k -> backed tt (stored kf).
Proof. intros [-> | ->]; (split; [by vm_compute|by vm_compute|]; apply (bool_decide_unpack _); by vm_compute). Qed.

Lemma invalidation_recomputes_witness :
  let s' := (Wrapper.invalidate_cache no_hash pack_none (fun ks => elements ks) (demo_l1 None) one (stored None)).2 in
  entries (stored None) = [(u "func:app.f:args::1s", [7])] /\ entries s' = [] /\
  (run_demo (fun _ => None) (with_func (demo_l1 None) (raising OtherError)) one s').1 = Err OtherError.
Proof.
  intros s'. split; [by vm_compute|]. split; [by vm_compute|].
  destruct (invalidation_recomputes still (fun _ => fofZ 1) (fun _ => 1) no_hash no_hash3 pack_none no_str str_bytes
    (fun _ => true) (fun _ => true) (fun _ => None) (fun ks => elements ks) (demo_l1 None) tt one (u "func:app.f:args::1s")
    (stored None) OtherError (raising OtherError)) as (_ & _ & _ & _ & H).
  - by split.
  - done.
  - done.
  - intros _. split; [by apply (open_lock_serves clearing true true None)|by apply open_lock_tells].
  - apply stored_backed. by left.
  - apply clearing_deletes.
  - done.
  - done.
  - by vm_compute.
  - by vm_compute.
  - done.
  - done.
  - apply H. by eexists.
Defined.

Definition demo_custom := demo clearing false false (Some key_k) (counting (fun _ => Ok [7])).
Definition custom_filled : closure store pybytes unit := filled [(u "default:k", [7])].

Lemma custom_key_entry_survives_witness :
  let s' := (Wrapper.invalidate_cache no_hash pack_none (fun ks => elements ks) demo_custom one custom_filled).2 in
  (run_demo (fun _ => None) (with_func demo_custom (raising OtherError)) one s').1 = Ok [7].
Proof.
  intros s'. pose proof (custom_key_entry_survives still (fun _ => fofZ 1) (fun _ => 1) no_hash no_hash3 pack_none no_str str_bytes
    (fun _ => true) (fun _ => true) (fun _ => None) (fun ks => elements ks) demo_custom tt in_memory
    key_k (u "k") (u "func:app.f:args::1s") [7] [7] one custom_filled (raising OtherError)) as H.
  apply H.
  - by split.
  - done.
  - apply clearing_retains.
  - done.
  - done.
  - intros w. by exists w.
  - by exists [7], [7].
  - apply filled_ready.
  - by vm_compute.
  - apply filled_backed.
  - by vm_compute.
  - by apply clearing_keeps.
  - done.
  - done.
Defined.

Lemma stored_tracks : u "default:k" ∈ _cached_keys (stored (Some key_k)).
Proof. apply (bool_decide_unpack _). by vm_compute. Qed.

