(* ===== verification/TenantCapture.v ===== *)
(** A decorated function over the default provider with Redis: the backend of the
    first call, and with it the tenant of the first call, is the function's from
    then on ([src/src/cachekit/decorators/wrapper.py] with
    [backends/provider.py] and [backends/redis/provider.py]). *)
From Stdlib Require Import ZArith Lia SpecFloat.
From stdpp Require Import base list numbers option strings gmap sets.
From S2P Require Import Prelude PyFloat PyDict Bytes PyValue.
From S2P Require Import L1Cache ObjectCache CircuitBreaker FunctionStats Signature Errors Effects Orchestrator Handler.
From S2P Require Import RemoteErrors RedisBackends BackendProvider RedisProps.
From S2P Require Import Wrapper WrapperInv WrapperProps WrapperExample WrapperCalls.

Local Open Scope Z_scope.
Local Open Scope eff_scope.

#[local] Arguments should_allow_request : simpl never.
#[local] Arguments BackendProvider.get_backend : simpl never.

Section Capture.
Context {X W V Hd P : Type}.
Context (clock : clock_name -> nat -> float) (jitter : nat -> float).
Context (estimate : V -> Z).
Context (blake2b : Z -> pybytes -> pybytes) (blake3 : pybytes -> pybytes).
Context (packb : pyval -> result py_exn pybytes).
Context (str_call : call -> result exn pystr) (str_value : V -> result exn pystr).
Context (deepcopyable : call -> bool).
Context (original_of : BackendError -> option exn).
(** Redis. *)
Context (text : RemoteErrors.failure X -> pystr) (foreign : exn -> X) (isa : X -> redis_class -> bool) (has_cluster_down : bool).
Context (lock_timeout lock_wait : float).
Context (server : redis_client X W) (find : W -> pystr -> option pybytes) `{RedisServer X W server find}.
(** The provider of the default backend, on its other choices. *)
Local Abbreviation Backend := (PerRequest.PerRequestRedisBackend X W).
Local Abbreviation World := (provider (X := X) (W := W) (B := Backend)).
Context (thread_starts : World -> bool).
Context (saas memcached file : eff W Backend) (connect : eff W (redis_client X W)) (env : selectors).

Local Abbreviation C := (closure World V Backend).
Local Abbreviation wrapped := (decorated World V Backend Hd P).
Local Abbreviation wrapper := (wrapper clock jitter estimate blake2b blake3 packb str_call str_value deepcopyable
  thread_starts original_of).
Local Abbreviation make_key := (make_key blake2b blake3 packb str_call).
Local Abbreviation default_backend := (BackendProvider.get_backend (fun b => b) saas memcached file connect env).

(** The methods of a backend, on the provider's state. *)
Definition provided (b : Backend) : backend World Hd P :=
  let m := PerRequest.methods (Hd := Hd) (P := P) text foreign isa has_cluster_down lock_timeout lock_wait b in {|
  b_get k := on_world (b_get m k);
  b_set k v t := on_world (b_set m k v t);
  b_delete k := on_world (b_delete m k);
  b_get_buffer := None;
  b_view _ _ := [];
  b_close _ := ret tt;
  b_set_streaming := None;
  b_swr := None;
  b_ttl := (fun gr => (fun k => on_world (gr.1 k), fun k t => on_world (gr.2 k t))) <$> b_ttl m;
  b_lock := (fun f waits k => mkContext (on_world (aenter (f waits k))) (fun got x => on_world (aexit (f waits k) got x))) <$> b_lock m
|}.

(** What the backend [b] has under a key. *)
Definition holds (b : Backend) (k : pystr) (v : pybytes) (s : World) : Prop :=
  find (world s) (PerRequest._scoped_key b k) = Some v.

Lemma provided_retains b : PerRequest._client b = server -> retains (provided b) (holds b).
Proof.
  intros Hb. split.
  - intros k v s Hk. destruct (get_spec text isa has_cluster_down server find b Hb k (world s)) as (w' & E & F).
    rewrite Hk in E. exists (with_world s w'). unfold provided, on_world, PerRequest.methods. cbn. rewrite E. split; [done|].
    unfold holds. cbn. by rewrite F.
  - intros k v t s. destruct (set_spec text isa has_cluster_down server find b Hb k v t (world s)) as (w' & E & F).
    exists (with_world s w'). unfold provided, on_world, PerRequest.methods. cbn. rewrite E. split; [done|].
    unfold holds. cbn. by rewrite F, decide_True.
  - intros g r k v k' [= <- <-] s Hk. unfold on_world. cbn.
    destruct (get_ttl_spec text isa has_cluster_down server find b Hb k' (world s)) as (t & w' & E & _ & F). rewrite E.
    unfold holds in *. cbn. by rewrite F.
Qed.

(** Another context calls. *)
Definition in_tenant (t : pystr) (s : C) : C := with_ext s (BackendProvider.in_context (Some t) (ext s)).

(** ** The first call *)

Section Decorated.
Context (d : wrapped).
Context (Hm : forall b, methods d b = provided b) (Hg : get_backend d = default_backend) (Hl1 : l1_on d = false).

(** With the backend still to be chosen, a call first asks the provider. *)
Lemma first_resolution c key b s : plain d b -> bypasses c = false -> make_key d c = Ok key ->
  should_allow_request (_circuit_breaker s) = true -> _backend s = None ->
  default_backend (ext s) = (Ok b, ext s) ->
  wrapper d c s = wrapper d c (with_backend s (Some b)).
Proof.
  intros [H2 H3 _ _ _] Eb Ek Ea En Er. unfold Wrapper.wrapper. destruct (is_coroutine d).
  - unfold async_wrapper. rewrite Eb. unfold andthen at 1 3, set_stats. cbn. rewrite Ek, H2.
    unfold async_backed, async_l1_then_l2, l1_check, with_client, resolve, on_ext. rewrite H3, Hl1.
    unfold finally, andthen, attempt, gets, ret, modify. cbn. rewrite Ea. cbn. rewrite En, Hg. cbn. rewrite Er. done.
  - unfold sync_wrapper. rewrite Eb. unfold andthen at 1 3, set_stats. cbn. rewrite Ek, H2.
    unfold sync_backed, sync_client, resolve, on_ext. unfold andthen, attempt, gets, ret, modify. cbn. rewrite Ea. cbn.
    rewrite En, Hg. cbn. rewrite Er. done.
Qed.
(** What the provider gives, its Redis client made. *)
Lemma provider_gives t b (w : World) : _detect env = Ok None \/ _detect env = Ok (Some Redis) ->
  _redis_provider w = Some server -> tenant_context w = Some t -> PerRequest.init server (Some t) = Ok b ->
  default_backend w = (Ok b, w).
Proof.
  intros D R T I. unfold BackendProvider.get_backend, once, per_request, PerRequest.provider_get_backend.
  rewrite R. by destruct D as [D|D]; rewrite D, T, I.
Qed.

(** C14. The tenant of a function's first call is the tenant of all its calls.  The
    provider gives each tenant a backend of its own, with keys of its own, but the
    wrapper keeps the first one: what the function computed for one tenant is
    served to another that calls with the same arguments, whatever the function
    would have computed for it. *)
Theorem first_tenant_serves_all tA tB bA bB key c v f s : is_text tA -> is_text tB -> tA <> tB ->
  _detect env = Ok None \/ _detect env = Ok (Some Redis) -> _redis_provider (ext s) = Some server ->
  tenant_context (ext s) = Some tA -> PerRequest.init server (Some tA) = Ok bA -> PerRequest.init server (Some tB) = Ok bB ->
  plain d bA -> supports_streaming (serializer d) = false -> is_coroutine d = false -> encodes d (holds bA) v -> sized str_value v ->
  _backend s = None -> match _circuit_breaker s with Some br => _state br = CLOSED | None => True end ->
  nothing_at d bA key (ext s) -> bypasses c = false -> make_key d c = Ok key ->
  yields (ready bA) (func d c) (fun r => r = v) ->
  default_backend (BackendProvider.in_context (Some tB) (ext s)) = (Ok bB, BackendProvider.in_context (Some tB) (ext s)) /\
  PerRequest._scoped_key bB key <> PerRequest._scoped_key bA key /\
  (wrapper d c s).1 = Ok v /\
  (wrapper (with_func d f) c (in_tenant tB (wrapper d c s).2)).1 = Ok v.
Proof.
  intros TA TB N D R T IA IB Pl St Co En Sz Nb Br Hn Eb Ek Hf.
  split; [by apply (provider_gives tB)|]. split; [intros K; by destruct (scoped_key_inj server tB tA bB bA key key TB TA IB IA K)|].
  assert (Ma : should_allow_request (_circuit_breaker s) = true).
  { unfold should_allow_request, get_state. destruct (_circuit_breaker s) as [br|]; [|done]. by rewrite Br. }
  rewrite (first_resolution c key bA s Pl Eb Ek Ma Nb (provider_gives tA bA (ext s) D R T IA)).
  assert (Rt : retains (methods d bA) (holds bA)).
  { rewrite Hm. apply provided_retains. by destruct (init_tenant server tA bA TA IA). }
  assert (L : forall s', l1_ready d key s') by (intros s' On; by rewrite On in Hl1).
  destruct (call_stores clock jitter estimate blake2b blake3 packb str_call str_value deepcopyable thread_starts original_of
    d bA (holds bA) v c key (with_backend s (Some bA)) Pl St) as (data & s' & -> & Hdec & Hserved);
    [by rewrite Co|exact Rt|exact En|by split|apply L|exact Hn|exact Eb|exact Ek| |].
  { intros s0 [Hs0 _]. destruct (Hf s0 Hs0) as (a & w & E & Ea & Hw). by exists a, w. }
  split; [done|]. cbn [snd]. destruct Hserved as [[Hb' Hc'] [Hh _]].
  destruct (hit_phase clock jitter estimate blake2b blake3 packb str_call str_value deepcopyable thread_starts original_of
    (with_func d f) bA (holds bA) key data v ltac:(by destruct Pl) Rt Hdec c Sz Eb Ek (in_tenant tB s')) as (a & w & E & -> & _);
    [|by rewrite E].
  split; [by split|]. split; [done|]. intros On. cbn in On. by rewrite On in Hl1.
Qed.
End Decorated.
End Capture.

(** ** A run *)

Local Abbreviation demo_backend := (PerRequest.PerRequestRedisBackend unit RedisProps.entries).
Local Abbreviation demo_world := (provider (X := unit) (W := RedisProps.entries) (B := demo_backend)).

Definition plain_bytes : serialization demo_world pybytes unit call := {|
  supports_mmap_read := false;
  supports_streaming := false;
  encryption_fail_closed := false;
  serialize_data v _ _ := ret v;
  deserialize_data d _ := ret d;
  write_serialized_to _ := tt
|}.

Definition answers (v : pybytes) (_ : call) : eff (closure demo_world pybytes demo_backend) pybytes := ret v.

(** [@cache(ttl=60)] with only [REDIS_URL] set. *)
Definition shared : decorated demo_world pybytes demo_backend unit unit := {|
  func := answers (u "for a");
  module := u "app";
  qualname := u "f";
  func_hash := u "f";
  parameters := [mkParameter (u "x") POSITIONAL_OR_KEYWORD None];
  is_coroutine := false;
  ttl := Some 60;
  _stale_ttl := None;
  namespace := None;
  integrity_checking := true;
  refresh_ttl_on_get := false;
  threshold := fdiv (fofZ 1) (fofZ 2);
  fast_mode := false;
  l1_on := false;
  _l1_only_mode := false;
  _l1_swr_active := false;
  interop := None;
  custom_key_func := None;
  serializer := plain_bytes;
  methods := provided no_text (fun _ => tt) no_classes true (fofZ 30) (fofZ 5);
  key_prefixes b _ := (Some (PerRequest.key_prefix b), None);
  get_backend := BackendProvider.get_backend (fun b => b) unavailable unavailable unavailable connected nothing_set;
  acquire_permit _ := None
|}.

(** Decorated, the provider connected, in the context of a tenant. *)
Definition undecided (t : pystr) : closure demo_world pybytes demo_backend := {|
  ext := mkProvider ∅ None (Some map_client) None None (Some t);
  ticks := 0;
  getpid := 1;
  _l1_cache := L1Cache.init 1 (fofZ 1) (u "");
  _object_cache := None;
  _circuit_breaker := None;
  _stats := FunctionStats.init (u "app.f") true;
  _current_function_stats := None;
  _cached_keys := ∅;
  _backend := None;
  l2_swr := new_scheduler 1;
  _l1_swr_slots := 32;
  _l1_swr_pid := 1;
  tasks := []
|}.

Abbreviation run_shared d :=
  (wrapper still (fun _ => fofZ 1) (fun _ => 1) no_hash no_hash3 pack_none no_str str_bytes (fun _ => true)
    (fun _ : demo_world => true) (fun _ => None) d).

Lemma plain_bytes_encodes b v : encodes shared (holds map_find b) v.
Proof. intros c key w. exists v, w. split; [done|]. intros w'. by exists w'. Qed.

Lemma first_tenant_serves_all_witness :
  (run_shared shared one (undecided (u "a"))).1 = Ok (u "for a") /\
  (run_shared (with_func shared (answers (u "for b"))) one
     (in_tenant (u "b") (run_shared shared one (undecided (u "a"))).2)).1 = Ok (u "for a").
Proof.
  destruct (first_tenant_serves_all still (fun _ => fofZ 1) (fun _ => 1) no_hash no_hash3 pack_none no_str str_bytes
    (fun _ => true) (fun _ => None) no_text (fun _ => tt) no_classes true (fofZ 30) (fofZ 5) map_client
    map_find (fun _ => true) unavailable unavailable unavailable connected nothing_set
    shared (fun _ => eq_refl) eq_refl eq_refl (u "a") (u "b") (handle (u "a")) (handle (u "b")) (u "func:app.f:args::1s") one
    (u "for a") (answers (u "for b")) (undecided (u "a"))) as (_ & _ & H1 & H2);
    [..|by split].
  - apply u_code_points.
  - apply u_code_points.
  - discriminate.
  - by left.
  - reflexivity.
  - reflexivity.
  - vm_compute. reflexivity.
  - vm_compute. reflexivity.
  - by split.
  - reflexivity.
  - reflexivity.
  - apply plain_bytes_encodes.
  - by exists (u "for a"), (u "for a").
  - reflexivity.
  - exact I.
  - split; vm_compute; [reflexivity|exact I].
  - reflexivity.
  - vm_compute. reflexivity.
  - intros s Hs. exists (u "for a"), s. split; [reflexivity|split; [reflexivity|exact Hs]].
Defined.
