(* ===== verification/WrapperRuns.v ===== *)
(** How often a call of a decorated function ([Wrapper.v]) runs the function, what a
    failing lock does to it, and what its statistics count. *)
From Stdlib Require Import ZArith Lia SpecFloat.
From stdpp Require Import base list numbers option strings gmap sets.
From S2P Require Import Prelude PyFloat PyDict Bytes PyValue Interop KeyGenerator FileSystem FileBackend Encryption.
From S2P Require Import L1Cache ObjectCache CircuitBreaker FunctionStats Signature Errors Effects RemoteErrors RedisBackends Orchestrator Serializers Handler HandlerProps Wrapper WrapperInv WrapperProps WrapperExample.

Local Open Scope Z_scope.
Local Open Scope eff_scope.

Section Runs.
Context {W V B Hd P : Type}.
Context (clock : clock_name -> nat -> float) (jitter : nat -> float).
Context (estimate : V -> Z).
Context (blake2b : Z -> pybytes -> pybytes) (blake3 : pybytes -> pybytes).
Context (packb : pyval -> result py_exn pybytes).
Context (str_call : call -> result exn pystr) (str_value : V -> result exn pystr).
Context (deepcopyable : call -> bool) (thread_starts : W -> bool).
Context (original_of : BackendError -> option exn) (set_order : gset pystr -> list pystr).

Local Abbreviation C := (closure W V B).
Local Abbreviation wrapped := (decorated W V B Hd P).
Local Abbreviation wrapper := (wrapper clock jitter estimate blake2b blake3 packb str_call str_value deepcopyable
  thread_starts original_of).
Local Abbreviation make_key := (make_key blake2b blake3 packb str_call).

(** ** The runs of one call *)

Section OneCall.
Context (runs : W -> nat) (d : wrapped).

Definition ran (n : nat) (s : C) : Prop := runs (ext s) = n.
Definition outside_ran (n : nat) (w : W) : Prop := runs w = n.

Lemma ran_insensitive n : insensitive (Hd := Hd) (P := P) deepcopyable thread_starts (ran n) (outside_ran n).
Proof. split; try done. by apply unscheduled. Qed.

Lemma ran_steps n : keeps (ran n) success /\ (forall x, keeps (ran n) (failure clock x)) /\
  (forall f, keeps (ran n) (stat clock f)) /\ keeps (ran n) (set_stats d) /\ forall t, keeps (ran n) (reset_stats t).
Proof. by split_and!; [intros s|intros x s|intros f s|intros s|intros t s]. Qed.

(** A computation that does not run the function, and one that runs it at most
    [k] times. *)
Definition idle {A} (m : eff C A) : Prop := forall n, keeps (ran n) m.
Definition upto {A} (k : nat) (m : eff C A) : Prop := forall s, (runs (ext (m s).2) <= k + runs (ext s))%nat.

Lemma idle_upto {A} k (m : eff C A) : idle m -> upto k m.
Proof. intros H s. specialize (H _ s eq_refl). unfold ran in H. lia. Qed.

Lemma idle_first {A X} k (m : eff C A) (f : A -> eff C X) : idle m -> (forall a, upto k (f a)) -> upto k (andthen m f).
Proof.
  intros Hm Hf s. specialize (Hm _ s eq_refl). unfold andthen, ran in *. destruct (m s) as [[a|x] s1]; cbn in *; [|lia].
  specialize (Hf a s1). lia.
Qed.

Lemma idle_after {A X} k (m : eff C A) (f : A -> eff C X) : upto k m -> (forall a, idle (f a)) -> upto k (andthen m f).
Proof.
  intros Hm Hf s. specialize (Hm s). unfold andthen. destruct (m s) as [[a|x] s1]; cbn in *; [|lia].
  specialize (Hf a _ s1 eq_refl). unfold ran in Hf. lia.
Qed.

Lemma upto_trying {A} k j (m : eff C A) h : upto k m -> (forall x, upto j (h x)) -> upto (j + k) (trying m h).
Proof.
  intros Hm Hh s. specialize (Hm s). unfold trying. destruct (m s) as [[a|x] s1]; cbn in *; [lia|]. specialize (Hh x s1). lia.
Qed.

(** A handler that is idle for what the body raises. *)
Lemma upto_handled {A} k (Q : exn -> Prop) (m : eff C A) h : raises_only Q m -> upto k m -> (forall x, Q x -> idle (h x)) ->
  upto k (trying m h).
Proof.
  intros Hq Hm Hh s. specialize (Hm s). unfold trying. destruct (m s) as [[a|x] s1] eqn:E; cbn in *; [lia|].
  specialize (Hh x (Hq _ _ _ E) _ s1 eq_refl). unfold ran in Hh. lia.
Qed.

Lemma upto_finally {A} k (m : eff C A) f : upto k m -> idle f -> upto k (finally m f).
Proof.
  intros Hm Hf s. specialize (Hm s). unfold finally. destruct (m s) as [o s1]. cbn in *. specialize (Hf _ s1 eq_refl).
  unfold ran in Hf. destruct (f s1) as [[|] s2]; cbn in *; lia.
Qed.

Lemma upto_attempt {A} k (m : eff C A) : upto k m -> upto k (attempt m).
Proof. intros H s. specialize (H s). unfold attempt. by destruct (m s). Qed.

Lemma upto_ret {A} k (a : A) : upto k (ret a).
Proof. intros s. cbn. lia. Qed.
Lemma upto_throw {A} k x : upto k (throw (A := A) x).
Proof. intros s. cbn. lia. Qed.

(** The function runs itself once; nothing else does. *)
Context (Hrun : forall c, upto 1 (func d c)) (Hout : forall n, outside_keeps (outside_ran n) d).

(** The phases of a call that leave the function alone. *)
Ltac idle_by l := intros n; pose proof (ran_steps n) as (? & ? & ? & ? & ?); eapply l; eauto using ran_insensitive.

Lemma idle_l1_check key : idle (l1_check clock d key).
Proof. idle_by @l1_check_keeps. Qed.
Lemma idle_sync_client : idle (sync_client d).
Proof. idle_by @sync_client_keeps. Qed.
Lemma idle_resolve : idle (resolve d).
Proof. idle_by @resolve_keeps. Qed.
Lemma idle_compatible b : idle (ensure_compatible d b).
Proof. idle_by @ensure_compatible_keeps. Qed.
Lemma idle_sync_l2 b t key c start : idle (sync_l2 clock str_value deepcopyable thread_starts d b t key c start).
Proof. idle_by @sync_l2_keeps. Qed.
Lemma idle_sync_store b key v c : idle (sync_store clock d b key v c).
Proof. idle_by @sync_store_keeps. Qed.
Lemma idle_store_failed x : idle (store_failed clock x).
Proof. idle_by @store_failed_keeps. Qed.
Lemma idle_reading k : idle (reading clock k).
Proof. idle_by @reading_keeps. Qed.
Lemma idle_async_l2 b key c start : idle (async_l2 clock deepcopyable thread_starts d b key c start).
Proof. idle_by @async_l2_keeps. Qed.
Lemma idle_double_check b key : idle (double_check clock d b key).
Proof. idle_by @double_check_keeps. Qed.
Lemma idle_async_store b key v c : idle (async_store clock d b key v c).
Proof. idle_by @async_store_keeps. Qed.
Lemma idle_failure x : idle (failure clock x).
Proof. intros n. apply ran_steps. Qed.
Lemma idle_stat f : idle (stat clock f).
Proof. intros n. apply ran_steps. Qed.
Lemma idle_set_stats : idle (set_stats d).
Proof. intros n. apply ran_steps. Qed.
Lemma idle_reset t : idle (reset_stats t).
Proof. intros n. apply ran_steps. Qed.
Lemma idle_lookup key : idle (objects_lookup clock jitter d key).
Proof. idle_by @objects_lookup_keeps. Qed.
Lemma idle_schedule key v c : idle (schedule_refresh deepcopyable thread_starts d key v c).
Proof. idle_by @schedule_refresh_keeps. Qed.
Lemma idle_put key v t : idle (objects_put clock estimate key v t).
Proof. intros n. by apply (objects_keep clock jitter estimate deepcopyable thread_starts (ran n) (outside_ran n) (ran_insensitive n) key t v 0). Qed.
Lemma idle_track key : idle (track key).
Proof. by intros n s. Qed.
Lemma idle_gets {A} (f : C -> A) : idle (gets f).
Proof. by intros n s. Qed.
Lemma idle_ret {A} (a : A) : idle (ret a).
Proof. by intros n s. Qed.
Lemma idle_throw {A} x : idle (throw (A := A) x).
Proof. by intros n s. Qed.
Lemma idle_andthen {A X} (m : eff C A) (f : A -> eff C X) : idle m -> (forall a, idle (f a)) -> idle (andthen m f).
Proof. intros Hm Hf n. apply keeps_andthen; [apply Hm|intros; apply Hf]. Qed.
Lemma idle_trying {A} (m : eff C A) h : idle m -> (forall x, idle (h x)) -> idle (trying m h).
Proof. intros Hm Hf n. apply keeps_trying; [apply Hm|intros; apply Hf]. Qed.
Lemma idle_attempt {A} (m : eff C A) : idle m -> idle (attempt m).
Proof. intros Hm n. apply keeps_attempt, Hm. Qed.
#[local] Hint Resolve idle_l1_check idle_sync_client idle_resolve idle_compatible idle_sync_l2 idle_sync_store idle_store_failed
  idle_reading idle_async_l2 idle_double_check idle_async_store idle_failure idle_stat idle_set_stats idle_reset idle_lookup
  idle_schedule idle_put idle_track idle_gets idle_ret idle_throw : idledb.

(** Down the structure of a computation, with the function's one run in it. *)
Ltac idle :=
  repeat first [ progress intros | solve [eauto 2 with idledb nocore] | apply idle_andthen | apply idle_trying
               | apply idle_attempt | case_match ].
Ltac upto_step :=
  first [ progress intros
        | solve [eauto 2 with idledb nocore]
        | apply upto_ret | apply upto_throw | apply Hrun
        | apply idle_upto; solve [idle]
        | apply idle_first; [solve [idle]|]
        | apply upto_finally; [|solve [idle]]
        | case_match ].

(** What the function may raise, when it raises no [BackendError] itself. *)
Definition own_errors : Prop := forall c, raises_only (fun x => is_backend_error x = false) (func d c).

Lemma miss_raises b key c : own_errors ->
  raises_only (fun x => is_backend_error x = false)
    (result <~ func d c ;; trying (sync_store clock d b key result c) (store_failed clock) ;;~ ret result).
Proof.
  intros Ho. apply raises_only_andthen; [apply Ho|]. intros v. apply raises_only_andthen; [|intros; apply raises_only_ret].
  apply (raises_only_weaken (fun x => x = InteropError)); [|by intros x ->]. apply raises_only_trying, store_failed_raises.
Qed.

Lemma sync_body b key c :
  upto 1 (result <~ func d c ;; trying (sync_store clock d b key result c) (store_failed clock) ;;~ ret result).
Proof. apply idle_after; [apply Hrun|]. idle. Qed.

Lemma sync_miss_runs b t key c : upto 2 (sync_miss clock d b t key c) /\ (own_errors -> upto 1 (sync_miss clock d b t key c)).
Proof.
  unfold sync_miss. split.
  - apply upto_finally; [|idle]. apply (upto_trying 1 1); [apply sync_body|]. intros x. destruct x; repeat upto_step.
  - intros Ho. apply upto_finally; [|idle]. eapply upto_handled; [by apply miss_raises|apply sync_body|].
    intros x Hx. destruct x; try done; idle.
Qed.

Lemma sync_runs c k : (k = 2%nat \/ k = 1%nat /\ own_errors) -> upto k (sync_wrapper clock jitter estimate blake2b blake3 packb
  str_call str_value deepcopyable thread_starts d c).
Proof.
  intros Hk. assert (Hf : forall c, upto k (func d c)) by (intros c' s; specialize (Hrun c' s); lia).
  assert (Hmiss : forall b t key c, upto k (sync_miss clock d b t key c)).
  { intros b t key c'. destruct (sync_miss_runs b t key c') as [H2 H1]. by destruct Hk as [-> |[-> Ho]]; [|apply H1]. }
  assert (Hob : forall key c, upto k (objects_miss clock estimate d key c)).
  { intros key c'. apply idle_after; [apply Hf|]. idle. }
  unfold sync_wrapper. destruct (bypasses c); [apply Hf|]. apply idle_first; [idle|]. intros t.
  destruct (make_key d c) as [key|x]; [|destruct (interop d); repeat upto_step].
  destruct (_l1_only_mode d).
  - apply idle_first; [idle|]. intros o. case_match; [|apply upto_finally; [apply Hf|idle]].
    unfold sync_l1_only. repeat upto_step.
  - unfold sync_backed. apply idle_first; [idle|]. intros [b|x]; [|repeat upto_step].
    apply idle_first; [unfold or_reset; idle|]. intros _. apply idle_first; [unfold or_reset; idle|]. intros [v|]; [repeat upto_step|].
    apply idle_first; [idle|]. intros start. apply idle_first; [idle|]. intros [[v|]|x]; [repeat upto_step|repeat upto_step|].
    each_exn x; repeat upto_step.
Qed.

(** Locks whose release raises nothing of its own: a block that succeeds is left
    without an exception, and what leaves the lock instead of the function's exception
    is one the wrapper raises to the caller: that exception, or a [BackendError] the
    lock has put around it. *)
Definition locks_pass : Prop := forall b lock key got x w, b_lock (methods d b) = Some lock ->
  exists x' w', aexit (lock true key) got x w = (Ok x', w') /\
    match x with
    | None => x' = None
    | Some y => is_backend_error y = false -> exists y' z, x' = Some y' /\ lock_failure original_of y' = Err z
    end.

Lemma under_lock_runs b key c got : own_errors -> upto 1 (under_lock clock d b key c got) /\
  raises_only (fun x => is_backend_error x = false) (under_lock clock d b key c got).
Proof.
  intros Ho. unfold under_lock, async_compute. split.
  - apply idle_first; [idle|]. intros [v|]; [apply upto_ret|]. apply idle_after; [apply Hrun|]. idle.
  - apply raises_only_andthen.
    + apply raises_only_trying. intros x. each_exn x; try apply raises_only_ret. by apply raises_only_throw.
    + intros [v|]; [apply raises_only_ret|]. apply raises_only_andthen; [apply Ho|]. intros v.
      apply raises_only_andthen; [|intros; apply raises_only_ret].
      apply (raises_only_weaken (fun x => x = InteropError)); [|by intros x ->]. apply raises_only_trying, store_failed_raises.
Qed.

Lemma without_lock_runs b key c : upto 1 (without_lock clock d b key c).
Proof.
  unfold without_lock, async_compute. apply (upto_trying 1 0); [apply idle_after; [apply Hrun|]; idle|]. repeat upto_step.
Qed.

Lemma upto_andthen {A X} j k (m : eff C A) (f : A -> eff C X) : upto j m -> (forall a, upto k (f a)) -> upto (j + k) (andthen m f).
Proof.
  intros Hm Hf s. specialize (Hm s). unfold andthen. destruct (m s) as [[a|x] s1]; cbn in *; [|lia]. specialize (Hf a s1). lia.
Qed.

Lemma lock_idle b lock key : b_lock (methods d b) = Some lock ->
  idle (aenter (lift_context (lock true key))) /\ forall got x, idle (aexit (lift_context (lock true key)) got x).
Proof.
  intros El. pose proof (fun n => lock_keeps _ _ (methods_keep _ _ (Hout n) b) lock true key El) as Hk.
  split; [|intros got x]; intros n s Hs; cbn; unfold on_ext.
  - destruct (Hk n) as [He _]. specialize (He (ext s) Hs). by destruct (aenter _ _).
  - destruct (Hk n) as [_ He]. specialize (He got x (ext s) Hs). by destruct (aexit _ _ _ _).
Qed.

Lemma locked_upto {A} ctx (body : bool -> eff C A) k : idle (aenter ctx) -> (forall got x, idle (aexit ctx got x)) ->
  (forall got, upto k (body got)) -> upto k (async_with ctx body).
Proof.
  intros He Hx Hb. apply idle_first; [done|]. intros got. apply idle_after; [by apply upto_attempt|]. intros r.
  apply idle_andthen; [apply Hx|]. intros out. idle.
Qed.

Lemma under_lock_upto b key c got : upto 1 (under_lock clock d b key c got).
Proof.
  unfold under_lock, async_compute. apply idle_first; [idle|]. intros [v|]; [apply upto_ret|].
  apply idle_after; [apply Hrun|]. idle.
Qed.

(** After which outcomes of the locked block the function runs again. *)
Definition runs_again (r : result exn (option V)) : bool :=
  match r with Ok (Some _) => false | Ok None => true | Err x => is_Ok (lock_failure original_of x) end.

Lemma locked_runs_once b lock key c s r s' : own_errors -> locks_pass -> b_lock (methods d b) = Some lock ->
  async_with (lift_context (lock true key)) (under_lock clock d b key c) s = (r, s') ->
  runs_again r = true -> runs (ext s') = runs (ext s).
Proof.
  intros Ho Hq El E. destruct (lock_idle b lock key El) as [He _]. specialize (He _ s eq_refl). unfold ran in He.
  unfold async_with, andthen at 1 in E. destruct (aenter (lift_context (lock true key)) s) as [[got|x] s1];
    cbn [snd] in He; [|by injection E as <- <-]. unfold andthen at 1, attempt in E.
  destruct (under_lock clock d b key c got s1) as [o s2] eqn:Eu. unfold andthen in E. cbn [aexit lift_context] in E. unfold on_ext in E.
  destruct (Hq b lock key got (match o with Ok _ => None | Err x => Some x end) (ext s2) El) as (x' & w3 & Ex & Hx).
  rewrite Ex in E. destruct (under_lock_runs b key c got Ho) as [_ Hr]. destruct o as [v|x].
  - cbn in Hx. subst x'. by injection E as <- <-.
  - destruct (Hx (Hr _ _ _ Eu)) as (y' & z & -> & Ey). injection E as <- <-. cbn. by rewrite Ey.
Qed.

(** The locked block runs the function once; so does what follows its failure. *)
Lemma async_miss_runs b key c :
  upto 2 (async_miss clock original_of d b key c) /\
  (own_errors -> locks_pass -> upto 1 (async_miss clock original_of d b key c)).
Proof.
  pose proof (without_lock_runs b key c) as Hw. unfold async_miss. cbn [b_lock lift_backend].
  destruct (b_lock (methods d b)) as [lock|] eqn:El; cbn [fmap option_fmap option_map].
  2: { split; [|done]. intros s. specialize (Hw s). lia. }
  destruct (lock_idle b lock key El) as [He Hx].
  assert (L : upto 1 (async_with (lift_context (lock true key)) (under_lock clock d b key c)))
    by (apply locked_upto; auto using under_lock_upto).
  split.
  - apply (upto_andthen 1 1); [by apply upto_attempt|]. intros [[v|]|x]; [apply upto_ret|done|].
    apply idle_first; [|done]. intros n s. unfold lift. by destruct (lock_failure _ _).
  - intros Ho Hq s. specialize (L s). unfold andthen at 1, attempt. destruct (async_with _ _ s) as [r s1] eqn:E.
    pose proof (locked_runs_once b lock key c s r s1 Ho Hq El E) as R. cbn [fst snd] in *. specialize (Hw s1).
    destruct r as [[v|]|x]; cbn in R |- *; [lia|specialize (R eq_refl); lia|]. unfold andthen, lift. destruct (lock_failure original_of x); cbn in *; lia.
Qed.

Lemma async_runs c k : (k = 2%nat \/ k = 1%nat /\ own_errors /\ locks_pass) ->
  upto k (async_wrapper clock jitter estimate blake2b blake3 packb str_call deepcopyable thread_starts original_of d c).
Proof.
  intros Hk. assert (Hf : forall c, upto k (func d c)) by (intros c' s; specialize (Hrun c' s); lia).
  assert (Hmiss : forall b key c, upto k (async_miss clock original_of d b key c)).
  { intros b key c'. destruct (async_miss_runs b key c') as [H2 H1]. by destruct Hk as [-> |(-> & Ho & Hq)]; [|apply H1]. }
  assert (Hob : forall key c, upto k (objects_miss clock estimate d key c)).
  { intros key c'. apply idle_after; [apply Hf|]. idle. }
  unfold async_wrapper. destruct (bypasses c); [apply Hf|]. apply idle_first; [idle|]. intros t. apply upto_finally; [|idle].
  destruct (make_key d c) as [key|x]; [|destruct (interop d); repeat upto_step].
  destruct (_l1_only_mode d).
  - apply idle_first; [idle|]. intros o. case_match; [|apply Hf]. unfold async_l1_only. repeat upto_step.
  - assert (Hl2 : forall b, upto k (async_l2_or_miss clock deepcopyable thread_starts original_of d b key c)).
    { intros b. unfold async_l2_or_miss. apply idle_first; [idle|]. intros start. apply idle_first; [idle|].
      intros [[v|]|x]; [repeat upto_step|repeat upto_step|]. each_exn x; repeat upto_step. }
    assert (Hcl : forall f, (forall b, upto k (f b)) -> upto k (with_client clock d c f)).
    { intros f Hf'. apply idle_first; [idle|]. intros [b|x]; [apply Hf'|]. repeat upto_step. }
    assert (Hth : upto k (async_l1_then_l2 clock deepcopyable thread_starts original_of d key c)).
    { apply idle_first; [idle|]. intros [v|]; [apply upto_ret|]. by apply Hcl. }
    unfold async_backed. apply idle_first; [idle|]. intros a. case_match; [apply upto_throw|]. destruct (interop d); [|done].
    apply Hcl. intros b. by apply idle_first; [idle|].
Qed.

(** C8. Whatever the function, the cache, the backend, the serializer and the lock do,
    a call runs the function at most twice.  It runs it at most once if the function
    raises no [BackendError] itself and, for an asynchronous function over a backend
    with locks, the release of a lock raises nothing of its own ([locks_pass]; the lock
    of Redis is one, [redis_locks_pass]). *)
Theorem at_most_one_run c s :
  (runs (ext (wrapper d c s).2) <= 2 + runs (ext s))%nat /\
  (own_errors -> is_coroutine d = false \/ locks_pass -> (runs (ext (wrapper d c s).2) <= 1 + runs (ext s))%nat).
Proof.
  unfold Wrapper.wrapper. split.
  - destruct (is_coroutine d); [apply (async_runs c 2)|apply (sync_runs c 2)]; by left.
  - intros Ho Hq. destruct (is_coroutine d); [apply (async_runs c 1)|apply (sync_runs c 1)]; right; split; try done.
    split; [done|]. by destruct Hq.
Qed.

(** The lock of the per-request Redis backend puts a [BackendError] around whatever
    the block raised and raises nothing of its own, whatever its release meets. *)
Section RedisLocks.
Context {X : Type} (text : RemoteErrors.failure X -> pystr) (foreign : Effects.exn -> X) (isa : X -> redis_class -> bool) (down : bool).

(** What [original_exception] of such an error holds. *)
Definition wraps_original : Prop := forall key x, is_backend_error x = false ->
  exists z, is_backend_error z = false /\
    match PerRequest.classify text isa down (u "acquire_lock") key (PerRequest.as_failure foreign x) with
    | BackendExn e => original_of e = Some z
    | _ => False
    end.

Lemma redis_locks_pass : wraps_original ->
  (forall b, exists rb held waited, methods d b = PerRequest.methods text foreign isa down held waited rb) -> locks_pass.
Proof.
  intros Hw Hm b lock key got x w El. destruct (Hm b) as (rb & held & waited & E). rewrite E in El. injection El as <-.
  eexists _, _. split; [reflexivity|]. destruct x as [y|]; [|done]. intros Hy.
  destruct (Hw key y Hy) as (z & Hz & Ez). eexists _, z. split; [reflexivity|].
  destruct (PerRequest.classify text isa down (u "acquire_lock") key (PerRequest.as_failure foreign y)); try done.
  unfold lock_failure. rewrite Ez. by destruct z.
Qed.
End RedisLocks.
End OneCall.

(** ** A lock that cannot be acquired *)

(** When acquiring the lock of a miss raises a [BackendError] that wraps the
    client library's own exception, the asynchronous call raises that exception to
    its caller and the function is not run; when it wraps none, the function is run
    without the lock. *)
Theorem lock_error_escapes (d : wrapped) b c key s lock e : is_coroutine d = true -> plain d b -> l1_empty d key s ->
  nothing_at d b key (ext s) -> bypasses c = false -> make_key d c = Ok key ->
  should_allow_request (_circuit_breaker s) = true -> _backend s = Some b -> b_lock (methods d b) = Some lock ->
  (forall w, aenter (lock true key) w = (Err (BackendExn e), w)) ->
  (forall y, original_of e = Some y -> is_backend_error y = false -> (wrapper d c s).1 = Err y /\ ext (wrapper d c s).2 = ext s) /\
  (original_of e = None -> exists s1 t, ext s1 = ext s /\
     wrapper d c s = finally (without_lock clock d b key c) (reset_stats t) s1).
Proof.
  intros Ei S L Hn Eb Ek Ea Er El Hl.
  destruct (plain_miss clock jitter estimate blake2b blake3 packb str_call str_value deepcopyable thread_starts original_of
    d b c key s S L Hn Eb Ek Ea Er) as (s1 & t & E1 & E2 & E3 & _ & E). rewrite Ei in E. rewrite E.
  assert (Em : forall y, lock_failure original_of (BackendExn e) = y ->
    async_miss clock original_of d b key c s1 = (lift y ;;~ without_lock clock d b key c) s1).
  { intros y Ey. unfold async_miss. cbn [b_lock lift_backend]. rewrite El. cbn [fmap option_fmap option_map].
    erewrite run_andthen.
    2: { unfold attempt, async_with, andthen. cbn. unfold on_ext. rewrite Hl. reflexivity. }
    cbn -[lock_failure without_lock]. by rewrite <- Ey, with_ext_id. }
  split.
  - intros y Ey Hy. unfold finally. rewrite (Em (Err y)) by (cbn; rewrite Ey; by destruct y). done.
  - intros Ey. exists s1, t. split; [done|]. unfold finally. by rewrite (Em (Ok tt)) by (cbn; by rewrite Ey).
Qed.

(** ** Misses *)

Definition misses_are (n : Z) (s : C) : Prop := _misses (_stats s) = n.

(** The statistics of an asynchronous function over a backend count no miss:
    whatever its calls meet, [cache_info().misses] stays what it was. *)
Theorem async_counts_no_miss (d : wrapped) cs s : is_coroutine d = true -> _l1_only_mode d = false ->
  (forall n c, keeps (misses_are n) (func d c)) ->
  _misses (_stats (calls clock jitter estimate blake2b blake3 packb str_call str_value deepcopyable thread_starts
    original_of d cs s)) = _misses (_stats s).
Proof.
  intros Ei El Hf. apply (calls_keep _ _ _ _ _ _ _ _ _ _ _ (misses_are (_misses (_stats s)))); [|done]. intros c.
  set (I := misses_are _).
  assert (HI : insensitive (Hd := Hd) (P := P) deepcopyable thread_starts I (fun _ => True)).
  { split; try done. by apply unscheduled. }
  assert (Hset : keeps I (set_stats d)) by (by intros x). assert (Hreset : forall t, keeps I (reset_stats t)) by (by intros t x).
  assert (Hfail : forall e, keeps I (failure clock e)) by (by intros e x).
  assert (Hbk : forall key, keeps I (async_backed clock deepcopyable thread_starts original_of d key c)).
  { intros key. apply async_backed_keeps with (J := fun _ => True); auto using outside_any; first [by intros w Hw|by intros ? w Hw|exact (Hf _)]. }
  unfold Wrapper.wrapper. rewrite Ei. unfold async_wrapper. destruct (bypasses c); [apply Hf|].
  apply keeps_andthen; [done|]. intros t. apply keeps_finally; [|done]. rewrite El.
  destruct (make_key d c) as [key|x]; [done|]. destruct (interop d); [apply keeps_throw|].
  apply keeps_andthen; [done|]. intros _. apply Hf.
Qed.
End Runs.

(** ** Concrete runs *)

Definition runs_of (w : store) : nat := w.2.

Lemma counting_upto f c : upto (V := pybytes) (B := unit) runs_of 1 (counting f c).
Proof. intros s. unfold runs_of, counting, on_ext. cbn. lia. Qed.

Lemma memory_outside n co l1 kf f : outside_keeps (outside_ran runs_of n) (demo memory co l1 kf f).
Proof.
  split; [intros b; split|split|]; intros; try done; by intros w Hw.
Qed.

(** A synchronous call whose function raises a [BackendError] runs it twice. *)
Definition timeout_error : BackendError := backend_error (u "timed out") TRANSIENT.
Definition demo_failing := demo memory false true None (counting (fun _ => Err (BackendExn timeout_error))).
Definition demo_working := demo memory true true None (counting (fun _ => Ok [7])).

(** A lock that lets exceptions through, and one whose release raises. *)
Definition demo_under_lock := demo (locked_memory (ret true)) true false None (counting (fun _ => Ok [7])).
Definition bad_release : backend store unit unit := {|
  b_get := b_get memory; b_set := b_set memory; b_delete := b_delete memory;
  b_get_buffer := None; b_view _ _ := []; b_close _ := ret tt; b_set_streaming := None; b_swr := None; b_ttl := None;
  b_lock := Some (fun _ _ => mkContext (ret true) (fun _ _ => throw (BackendExn timeout_error)))
|}.
Definition demo_bad_release := demo bad_release true false None (counting (fun _ => Ok [7])).

Lemma locked_outside n enter co l1 kf f : (forall n, keeps (outside_ran runs_of n) enter) ->
  outside_keeps (outside_ran runs_of n) (demo (locked_memory enter) co l1 kf f).
Proof.
  intros He. split; [intros b; split|split|]; intros; try done; try (by intros w Hw).
  simplify_eq/=. split; [apply He|intros got x; apply keeps_ret].
Qed.

Lemma bad_release_outside n co l1 kf f : outside_keeps (outside_ran runs_of n) (demo bad_release co l1 kf f).
Proof.
  split; [intros b; split|split|]; intros; try done; try (by intros w Hw).
  simplify_eq/=. by split; [|intros got x]; intros w Hw.
Qed.

Lemma at_most_one_run_witness :
  runs (run_demo (fun _ => None) demo_failing one decorated_once).2 = 2%nat /\
  (runs (run_demo (fun _ => None) demo_failing one decorated_once).2 <= 2 + runs decorated_once)%nat /\
  runs (run_demo (fun _ => None) demo_bad_release one decorated_once).2 = 2%nat /\
  (runs (run_demo (fun _ => None) demo_bad_release one decorated_once).2 <= 2 + runs decorated_once)%nat /\
  (runs (run_demo (fun _ => None) demo_working one decorated_once).2 <= 1 + runs decorated_once)%nat /\
  (runs (run_demo (fun _ => None) demo_under_lock one decorated_once).2 <= 1 + runs decorated_once)%nat.
Proof.
  pose proof (at_most_one_run (B := unit) (P := unit) (Hd := unit) still (fun _ => fofZ 1) (fun _ => 1) no_hash no_hash3 pack_none no_str str_bytes
    (fun _ => true) (fun _ => true) (fun _ => None) runs_of) as H. split_and!; [by vm_compute| |by vm_compute| | |].
  - apply (H demo_failing); [apply counting_upto|intros n; apply memory_outside].
  - apply (H demo_bad_release); [apply counting_upto|intros n; apply bad_release_outside].
  - apply (H demo_working); [apply counting_upto|intros n; apply memory_outside|by intros c s x s' E|by right].
  - apply (H demo_under_lock); [apply counting_upto|intros n; apply locked_outside; intros m; apply keeps_ret|by intros c s x s' E|right].
    intros b lock key got x w [= <-]. exists x, w. split; [done|]. destruct x as [y|]; [|done]. intros Hy. exists y, y. by destruct y.
Defined.

Definition demo_locked := demo (locked_memory (throw (BackendExn timeout_error))) true false None (counting (fun _ => Ok [7])).

Lemma lock_error_escapes_witness :
  (run_demo (fun _ => Some OSError) demo_locked one decorated_once).1 = Err OSError /\
  (run_demo (fun _ => None) demo_locked one decorated_once).1 = Ok [7].
Proof.
  split; [|by vm_compute].
  pose proof (lock_error_escapes still (fun _ => fofZ 1) (fun _ => 1) no_hash no_hash3 pack_none no_str str_bytes
    (fun _ => true) (fun _ => true) (fun _ => Some OSError) demo_locked tt one (u "func:app.f:args::1s") decorated_once
    (fun _ _ => mkContext (throw (BackendExn timeout_error)) (fun _ x => ret x)) timeout_error) as H.
  apply H; done.
Defined.

Lemma async_counts_no_miss_witness :
  _misses (_stats (demo_calls demo_working [one; two; one] decorated_once)) = 0 /\
  runs (demo_calls demo_working [one; two; one] decorated_once) = 1%nat.
Proof.
  split; [|by vm_compute].
  apply (async_counts_no_miss still (fun _ => fofZ 1) (fun _ => 1) no_hash no_hash3 pack_none no_str str_bytes
    (fun _ => true) (fun _ => true) (fun _ => None)); [done|done|]. intros n c. by apply counting_keeps.
Defined.
