(* ===== verification/WrapperSwr.v ===== *)
(** The background revalidations of a decorated function ([Wrapper.v]): their slots
    are never lost, however calls and revalidations alternate. *)
From Stdlib Require Import ZArith Lia SpecFloat.
From stdpp Require Import base list numbers option strings gmap sets fin_sets.
From S2P Require Import Prelude PyFloat PyDict Bytes PyValue Interop KeyGenerator FileSystem FileBackend Encryption.
From S2P Require Import L1Cache ObjectCache CircuitBreaker FunctionStats Signature Errors Effects Orchestrator Serializers Handler HandlerProps Wrapper WrapperInv WrapperProps WrapperExample.

Local Open Scope Z_scope.
Local Open Scope eff_scope.

(** The keys of the revalidations that are scheduled. *)
Definition revalidated (j : job) : option pystr := match j with Revalidate key _ => Some key | _ => None end.

Section Swr.
Context {W V B Hd P : Type}.
Context (clock : clock_name -> nat -> float) (jitter : nat -> float).
Context (estimate : V -> Z).
Context (blake2b : Z -> pybytes -> pybytes) (blake3 : pybytes -> pybytes).
Context (packb : pyval -> result py_exn pybytes).
Context (str_call : call -> result exn pystr) (str_value : V -> result exn pystr).
Context (deepcopyable : call -> bool) (thread_starts : W -> bool).
Context (original_of : BackendError -> option exn).

Local Abbreviation C := (closure W V B).
Local Abbreviation wrapped := (decorated W V B Hd P).
Local Abbreviation wrapper := (wrapper clock jitter estimate blake2b blake3 packb str_call str_value deepcopyable
  thread_starts original_of).
Local Abbreviation run_job := (run_job (W := W) (V := V) (B := B) (Hd := Hd) (P := P) clock estimate).

Definition pending (s : C) : list pystr := omap revalidated (tasks s).

(** The slots account for the revalidations scheduled and for those running.  In a
    child of the process that decorated, which has not yet scheduled any, the
    parent's numbers are still there. *)
Record slots_ok (running : list pystr) (s : C) : Prop := mkSlotsOk {
  so_distinct : NoDup (running ++ pending s);
  so_bound : Z.of_nat (length (running ++ pending s)) <= _L2_SWR_MAX_CONCURRENT_REFRESHES;
  so_slots : if bool_decide (_l2_swr_pid (l2_swr s) = getpid s)
    then _l2_swr_inflight (l2_swr s) = list_to_set (running ++ pending s) /\
         _l2_swr_slots (l2_swr s) = _L2_SWR_MAX_CONCURRENT_REFRESHES - Z.of_nat (length (running ++ pending s))
    else running ++ pending s = []
}.

Lemma slots_same running (s s' : C) : pending s' = pending s -> l2_swr s' = l2_swr s -> getpid s' = getpid s ->
  slots_ok running s -> slots_ok running s'.
Proof. intros E1 E2 E3 [H1 H2 H3]. split; by rewrite ?E1, ?E2, ?E3. Qed.

Lemma pending_snoc (s : C) j : pending (with_tasks s (tasks s ++ [j])) = pending s ++ match revalidated j with Some k => [k] | None => [] end.
Proof. unfold pending. cbn. rewrite omap_app. cbn. by destruct (revalidated j). Qed.

(** Giving a slot back. *)
Lemma end_ok running key (s : C) : slots_ok (key :: running) s -> exists s', end_swr key s = (Ok tt, s') /\ slots_ok running s'.
Proof.
  intros [H1 H2 H3]. case_bool_decide as Hp; [|done]. destruct H3 as [H3 H4]. cbn in *. apply list.NoDup_cons in H1 as [H0 H1].
  unfold end_swr, _l2_swr_end. cbn. rewrite H4. rewrite (proj2 (Z.ltb_lt _ _)) by lia. eexists. split; [reflexivity|].
  unfold pending in *. split; cbn; [done|lia|]. rewrite bool_decide_true by done. split; [|lia].
  rewrite H3. apply set_eq. intros k. rewrite elem_of_difference, !elem_of_list_to_set. set_solver.
Qed.

(** Taking one, from a process that holds [running] and what is pending. *)
Lemma begin_ok running key (s : C) : slots_ok running s -> exists g s', begin_swr key s = (Ok g, s') /\
  tasks s' = tasks s /\ if g then slots_ok (key :: running) s' else slots_ok running s'.
Proof.
  intros [H1 H2 H3]. unfold begin_swr, _l2_swr_try_begin.
  set (sc := if bool_decide (_l2_swr_pid (l2_swr s) = getpid s) then l2_swr s else new_scheduler (getpid s)).
  assert (Hsc : _l2_swr_pid sc = getpid s /\ _l2_swr_inflight sc = list_to_set (running ++ pending s) /\
    _l2_swr_slots sc = _L2_SWR_MAX_CONCURRENT_REFRESHES - Z.of_nat (length (running ++ pending s))).
  { unfold sc. case_bool_decide; [by destruct H3|]. by rewrite H3. }
  destruct Hsc as (S1 & S2 & S3). clearbody sc. clear H3. case_bool_decide as Hin; [|destruct (_l2_swr_slots sc <=? 0) eqn:Hz].
  - exists false. eexists. split_and!; [reflexivity|done|]. split; [done|done|]. cbn. by rewrite bool_decide_true.
  - exists false. eexists. split_and!; [reflexivity|done|]. split; [done|done|]. cbn. by rewrite bool_decide_true.
  - exists true. eexists. split_and!; [reflexivity|done|]. zbool. rewrite S2, elem_of_list_to_set in Hin. split; cbn.
    + apply list.NoDup_cons. by split.
    + unfold pending in *. cbn in *. lia.
    + rewrite bool_decide_true by done. split; [by rewrite S2|]. unfold pending in *. cbn in *. lia.
Qed.

Lemma spawned running key c (s : C) : slots_ok (key :: running) s -> slots_ok running (with_tasks s (tasks s ++ [Revalidate key c])).
Proof.
  intros [H1 H2 H3]. assert (E : key :: running ++ pending s ≡ₚ running ++ pending (with_tasks s (tasks s ++ [Revalidate key c]))).
  { rewrite pending_snoc. cbn. solve_Permutation. }
  cbn in H1, H2, H3. pose proof (Permutation_length E) as El. cbn [length] in El. split.
  - by rewrite <- E.
  - by rewrite <- El.
  - change (l2_swr (with_tasks _ _)) with (l2_swr s). change (getpid (with_tasks _ _)) with (getpid s).
    case_bool_decide; [|done]. rewrite <- El. destruct H3 as [-> H3]. split; [|done].
    apply set_eq. intros k. rewrite elem_of_union, !elem_of_list_to_set, <- E. set_solver.
Qed.

(** Scheduling keeps the account: the slot goes to the new job or comes back. *)
Lemma schedule_ok running (d : wrapped) key c a : keeps (slots_ok running) (_l2_swr_schedule deepcopyable thread_starts d key c a).
Proof.
  intros s Hs. destruct (begin_ok running key s Hs) as (g & s1 & E & Et & H1). unfold _l2_swr_schedule.
  erewrite run_andthen by exact E. destruct g; cbn; [|done]. destruct (end_ok running key s1 H1) as (s2 & E2 & H2).
  destruct (deepcopyable c); cbn; [|by rewrite E2]. unfold trying, start_thread. destruct a; cbn; [by apply spawned|].
  destruct (thread_starts (ext s1)); cbn; [by apply spawned|by rewrite E2].
Qed.

Lemma slots_insensitive running : insensitive (Hd := Hd) (P := P) deepcopyable thread_starts (slots_ok running) (fun _ => True).
Proof.
  split; try done; try (intros s x H; by apply (slots_same running s)); try (intros s n p H; by apply (slots_same running s)).
  - intros s j Hj. apply slots_same; [|done|done]. rewrite pending_snoc. destruct j; try by rewrite app_nil_r. by destruct (Hj key c).
  - apply schedule_ok.
Qed.

(** ** Calls and jobs, one after the other *)

Inductive event := Call (c : call) | Run (i : nat).

(** A call, or a scheduled job that is taken from the list and run. *)
Definition drive1 (d : wrapped) (s : C) (e : event) : C :=
  match e with
  | Call c => (wrapper d c s).2
  | Run i =>
      match tasks s !! i with
      | Some j => (run_job d j (with_tasks s (base.delete i (tasks s)))).2
      | None => s
      end
  end.

Definition drive (d : wrapped) (es : list event) (s : C) : C := foldl (drive1 d) s es.

Section Runs.
Context (d : wrapped) (Hfunc : forall running c, keeps (slots_ok running) (func d c)).

Lemma slots_steps running : keeps (slots_ok running) success /\ (forall x, keeps (slots_ok running) (failure clock x)) /\
  (forall f, keeps (slots_ok running) (stat clock f)) /\ keeps (slots_ok running) (set_stats d) /\
  forall t, keeps (slots_ok running) (reset_stats t).
Proof. split_and!; [intros s|intros x s|intros f s|intros s|intros t s]; intros H; by apply (slots_same running s). Qed.

Lemma call_ok running c : keeps (slots_ok running) (wrapper d c).
Proof.
  destruct (slots_steps running) as (? & ? & ? & ? & ?).
  eapply wrapper_keeps with (J := fun _ => True); auto using slots_insensitive, outside_any.
Qed.

(** A revalidation returns the slot it runs under. *)
Lemma revalidate_ok key c (s : C) : slots_ok [key] s -> slots_ok [] (run_job d (Revalidate key c) s).2.
Proof.
  intros H. assert (Fin : forall m : eff C unit, keeps (slots_ok [key]) m -> slots_ok [] (finally m (end_swr key) s).2).
  { intros m Hm. specialize (Hm s H). unfold finally. destruct (m s) as [o s1].
    destruct (end_ok [] key s1 Hm) as (s2 & E & H2). by rewrite E. }
  destruct (slots_steps [key]) as (? & ? & ? & ? & ?). cbn [Wrapper.run_job].
  pose proof (revalidations_keep clock deepcopyable thread_starts (slots_ok [key]) (fun _ => True)
    (slots_insensitive [key])) as R.
  destruct (is_coroutine d); apply Fin.
  - by apply R; auto using outside_any.
  - by apply R; auto using outside_any.
Qed.

Lemma pending_taken (s : C) i j : tasks s !! i = Some j ->
  pending s ≡ₚ match revalidated j with Some k => [k] | None => [] end ++ pending (with_tasks s (base.delete i (tasks s))).
Proof.
  intros H%delete_Permutation. unfold pending. cbn. rewrite H at 1. cbn. by destruct (revalidated j).
Qed.

Lemma take_ok (s : C) i j : slots_ok [] s -> tasks s !! i = Some j ->
  slots_ok (match revalidated j with Some k => [k] | None => [] end) (with_tasks s (base.delete i (tasks s))).
Proof.
  intros [H1 H2 H3] Hj. pose proof (pending_taken s i j Hj) as E. pose proof (Permutation_length E) as El. cbn in H1, H2, H3. split.
  - by rewrite <- E.
  - by rewrite <- El.
  - change (l2_swr (with_tasks _ _)) with (l2_swr s). change (getpid (with_tasks _ _)) with (getpid s).
    rewrite <- El. case_bool_decide.
    + destruct H3 as [-> H3]. split; [|done]. apply set_eq. intros k. by rewrite !elem_of_list_to_set, <- E.
    + apply Permutation_nil. by rewrite <- E, H3.
Qed.

Lemma drive1_ok e s : slots_ok [] s -> slots_ok [] (drive1 d s e).
Proof.
  intros H. destruct e as [c|i]; cbn [drive1]; [by apply call_ok|]. destruct (tasks s !! i) as [j|] eqn:Ej; [|done].
  pose proof (take_ok s i j H Ej) as Ht. destruct (slots_steps []) as (? & ? & ? & ? & ?).
  destruct j as [key n c|key c|key t]; cbn [revalidated] in Ht.
  - eapply object_job_keeps with (J := fun _ => True); auto using slots_insensitive, outside_any.
  - by apply revalidate_ok.
  - eapply ttl_job_keeps with (J := fun _ => True); auto using slots_insensitive, outside_any.
Qed.
End Runs.

(** C22. Revalidation slots are never lost.  From a fresh decoration, or in a forked
    child, after any calls and any scheduled jobs, run in any order, whatever fails
    in them: at most 32 revalidations are scheduled, no two of one key, and the slots
    that are not free are exactly theirs; when none is scheduled, all 32 are free. *)
Theorem revalidation_slots_conserved (d : wrapped) es s : (forall running c, keeps (slots_ok running) (func d c)) ->
  slots_ok [] s ->
  let s' := drive d es s in
  NoDup (pending s') /\ Z.of_nat (length (pending s')) <= 32 /\
  (_l2_swr_pid (l2_swr s') = getpid s' ->
   _l2_swr_inflight (l2_swr s') = list_to_set (pending s') /\ _l2_swr_slots (l2_swr s') = 32 - Z.of_nat (length (pending s'))).
Proof.
  intros Hf Hs s'. assert (H : slots_ok [] s').
  { unfold s', drive. clear s'. revert s Hs. induction es as [|e es IH]; intros s Hs; [done|]. by apply IH, drive1_ok. }
  destruct H as [H1 H2 H3]. split_and!; [done|done|]. intros Hp. rewrite bool_decide_true in H3 by done. by destruct H3.
Qed.
End Swr.

(** ** A concrete run *)

Definition swr_demo := demo memory false false None (counting (fun _ => Ok [7])).

(** Two revalidations scheduled, and the second run. *)
Definition two_scheduled : closure store pybytes unit :=
  (_l2_swr_schedule (fun _ => true) (fun _ => true) swr_demo (u "b") one false
    (_l2_swr_schedule (fun _ => true) (fun _ => true) swr_demo (u "a") one false decorated_once).2).2.

Lemma revalidation_slots_conserved_witness :
  let s' := drive still (fun _ => fofZ 1) (fun _ => 1) no_hash no_hash3 pack_none no_str str_bytes (fun _ => true)
    (fun _ => true) (fun _ => None) swr_demo [Call one; Run 1; Call two] two_scheduled in
  pending s' = [u "a"] /\ _l2_swr_slots (l2_swr s') = 31.
Proof.
  intros s'. split; [by vm_compute|].
  pose proof (revalidation_slots_conserved still (fun _ => fofZ 1) (fun _ => 1) no_hash no_hash3 pack_none no_str str_bytes
    (fun _ => true) (fun _ => true) (fun _ => None) swr_demo [Call one; Run 1; Call two] two_scheduled) as H.
  destruct H as (_ & _ & H).
  - intros running c. apply counting_keeps. intros s x. by apply slots_same.
  - split; [by apply (bool_decide_unpack _); vm_compute|by vm_compute|by vm_compute].
  - destruct H as [_ H]; [by vm_compute|]. unfold s'. rewrite H. by vm_compute.
Defined.
